(* ===== verification/_CoqProject ===== *)
-Q . S2P
Prelude.v
CStdlib.v
Bytes.v
Chrono.v
Results.v
ThreadData.v
Logging.v
CpuSet.v
CpuInfo.v
Topology.v
CpuSelect.v
SlicePlan.v
Timing.v
Runner.v
TestSet.v
Children.v
Spawn.v
Knobs.v
Opts.v
Scheduler.v
Random.v
Floats.v
DataTypes.v
Report.v
ReportProofs.v
LogSession.v
Mismatch.v
Background.v
TestTests.v
Frequency.v
Monitors.v
ContextDump.v
Kvm.v
KvmRun.v
Ifs.v
Forkfd.v
ForkfdProofs.v
ForkfdReap.v
ForkfdApi.v
GdbSession.v
CrashContext.v
ChildDebug.v
ChildDebugProofs.v
OsLayer.v
CpuFeatures.v
TestUtils.v
Program.v
Detect.v
Workloads.v
OpenSsl.v
SelfTest.v
SelfTestProofs.v
