(* ===== verification/Prelude.v ===== *)
(** * A verification library for OpenDCDiag

    OpenDCDiag (src/) tests the processors of a machine: a main process runs
    test after test, each in child processes that run one thread per logical
    processor, collects the results through a shared memory and log files, and
    exits with a verdict. The library models the framework of the program, the
    C++ code of src/framework/, as pure functions and proves what makes it
    correct. The definitions keep the names of the source.

    ** How the program is put together

    main() (sandstone.cpp) parses the command line (sandstone_opts.cpp), detects
    the processors and their topology (topology.cpp), divides the processors
    into slices and lays out the shared memory, builds the set of tests
    (sandstone_tests.cpp) and loops over it. run_one_test() runs a test one or
    more times (fractures) and retries failures; each run starts one child per
    slice, waits for all of them and asks the logger (logging.cpp) for the
    verdict, which depends on the exit statuses and on what the threads recorded
    in the shared memory.

    ** Conventions

    C and C++ strings are lists of characters ([str]). Integers are [Z] and are
    cut to their width where the code does ([wrap_u], [wrap_s], [u32], [i32],
    ...). Code that may exit or run into undefined behaviour returns an
    [outcome]: [Ret] a value, [Exit] a status, or [Ub] for accesses out of
    bounds, failed assertions and code marked unreachable, so that a theorem
    about a [Ret] says that none of these happens. Time is in the unit of the
    source, nanoseconds or milliseconds. What the operating system, the clock,
    the processor's cpuid instruction, third-party libraries and the tests
    themselves do is a parameter, given by the values they return in their
    order; no theorem assumes more of them than a named hypothesis.

    Loops that are not structural have fuel. Where the fuel is a parameter, a
    theorem says how much is enough: [wait_loop], [test_loop] and [fracture_loop]
    stop because the clock advances, [retry_loop] because of the retest count,
    [main_loop] because the number of tests or the end time bounds it,
    [populate_loop] because the levels double, the wait of the background scan
    because a test is due after twelve hours, the loops of a virtual machine because
    of the test's time, a handler of forkfd that runs alone because the table is
    finite. vstdprintf() takes two rounds. The
    fuel of escape_for_single_line(), memset_random(), the tokenizers and the
    printers of digits is computed from the input (its length, or the 128 digits
    that a 128-bit number cannot exceed).

    ** The files

    - Prelude: strings, outcomes, machine integers, record updates, lists.
    - CStdlib: strtoll(), strtoull(), from_chars(), strtok(), to_string().
    - Chrono: sandstone_chrono.cpp. Durations are converted exactly or refused,
      and printed durations can be read back.
    - Results: TestResult, ChildExitStatus and the exit statuses of children.
      A result survives the trip through the exit status; only status 0 is read
      as a pass.
    - ThreadData: the per-thread blocks of the shared memory (sandstone_p.h) and
      logging_mark_thread_failed().
    - Logging: logging.cpp. The messages of a thread are read back as they were
      written; escaping is undone by unescaping; log files stay well formed
      under every sequence of calls; the window of a reported mismatch is within
      the data; a pass needs every child and every thread to pass.
    - CpuSet: LogicalProcessorSet (topology.h), a refinement of finite sets.
    - CpuInfo: detection and decoding of the processors (topology.cpp): sorting,
      mock topologies, NUMA lists, /proc/cpuinfo, cpuid.
    - Topology: packages, NUMA nodes and cores. They partition the processors in
      order; the failure mask shows each failed thread.
    - CpuSelect: --cpuset, equal to a filter of the processors; for the arguments
      that the documentation describes, the filter that it describes.
    - SlicePlan: slices for the children, and the layout of the shared memory.
      Every plan covers all processors without overlap.
    - Timing: durations, timeouts, the loop of a test, the end of a test thread,
      group initialisation, throttling.
    - Runner: child_run(), run_one_test(), the analysis of failures, the loop
      over the tests and the exit status of the program.
    - TestSet: the catalogue of tests, enabling and disabling, test lists.
    - Children: waiting for the children: every child ends with the result the
      kernel reported or with a timeout after both signals, no signal goes to a
      process that was waited for, and waiting ends.
    - Spawn: starting children by fork or exec, and one run of all children.
    - Knobs: the options of tests, -O key=value.
    - Opts: the numbers and the options of the command line; the settings stay
      within their limits.
    - Scheduler: the interface DeviceSchedule as a type class with what clients
      rely on, and its three implementations. The random and the queue schedule
      always answer; the barrier does while no thread has ended.

    - Bytes: memory as lists of bytes, loads and stores.
    - Random: random.cpp. The text of a seed gives back the engine; the numbers
      are within their types; the bits and the memory that are set are those
      asked for.
    - Floats: Floats.h, Floats.cpp and the conversions of sandstone_data.cpp. A
      half-precision number is the nearest towards zero, a bfloat16 the nearest
      for normal numbers and zero for denormal ones.
    - DataTypes: sandstone_data.h and sandstone_utils.cpp: type codes, dumps of
      values, vstdprintf().
    - Report: the three documents of logging.cpp (key-value, TAP, YAML), the
      progress bar and the emptying of the logs after a test, in a monad of
      outputs ([report]). ReportProofs: the verdict that is printed is the one
      that is returned, all logs are empty afterwards, and the log file in YAML
      does not depend on the verbosity of the terminal.
    - LogSession: the log file, the headers and the footers; only a log that the
      program named itself is removed.
    - Mismatch: the report of a data mismatch and the end of the thread
      (sandstone.cpp, logging.cpp, physicaladdress.cpp). On buffers of up to 4 GiB
      the report shows the first element that differs.
    - Background: the background scan. A wait ends, and after a batch of 24
      tests the next one waits until a day is over.
    - TestTests: --test-tests. A test that ignores every check is never failed.
    - Frequency: frequency_manager.hpp, as the reads and writes it makes of the
      files of sysfs; the kernel behind them is a class and may change any file at
      a write. After any number of changes, what was read first of the governor
      and the frequency of each core and of the driver's mode is the last thing
      written back, whatever the kernel makes of it.
    - Monitors: interrupt counts, temperatures, model-specific registers,
      affinity masks, and the tests mce_check and smi_count. mce_check says to each
      thread exactly what its processor's count tells.
    - ContextDump: the dump of the registers of a crashed thread and the size of the
      context (sandstone_context_dump.cpp, sandstone_child_debug_common.h). What was
      transferred is dumped without reading past it.
    - Kvm, KvmRun: tests in virtual machines (sysdeps/linux/kvm.c): the memory, the
      segments and page tables of a guest, and the loop that runs it. A guest is
      ready to run, and a test ends and releases what it holds, unless
      KVM_GET_REGS fails or the first round is repeated.
    - Ifs: the In-Field Scan tests (src/tests/ifs/). While the scans pass, the images
      are used in turn, and a core is reported exactly when its scan failed.
    - Forkfd: the table of children of forkfd/forkfd.c, which threads and signal
      handlers share without locks, as a step relation ([agent_step]): any number of
      agents, each step one atomic operation, interleaved in any order, on a memory
      that is sequentially consistent. The kernel may use the number of a child again as
      soon as the child was waited for; the theorems are about the runs in which it
      does not do so under the eyes of a handler that has seen the old child but not
      locked its entry ([unraced_step]), and an Example shows the run in which it
      does and a child is lost. ForkfdProofs: an invariant by induction on the
      steps; every child is reported once. ForkfdReap: a handler that runs alone ends
      and reports every child that has ended. ForkfdApi: forkfd(), forkfd_wait4() and
      the variant with process descriptors (forkfd_linux.c).
    - GdbSession: the conversation with the debugger (sysdeps/unix/child_debug.cpp).
      When gdb's reply starts a piece of its own and fits the buffer, its answer is
      what is logged, however the rest is cut into pieces; Examples show what the
      other cuts do.
    - CrashContext: the context of a crash, as a datagram between processes. It
      arrives as it was sent.
    - ChildDebug: --on-crash and --on-hang, the handler of a crashed child and the
      main process that reports the crash. ChildDebugProofs: in every order of
      crashes and of looking for them, each child that waits is released, under
      the conditions on the crashes and the debugger that the theorem names.
    - OsLayer: the layer between the program and Linux, a Module for each file: thread
      stacks (sandstone_thread.cpp), the stack size, the limit of descriptors,
      temporary files, split locks and signals (sysdeps/unix/), the allocation
      functions (sysdeps/linux/malloc.cpp). Stacks do not overlap, new memory is
      zero, and the first signal and the number of signals are known.
    - CpuFeatures: the features of the processor (cpuid_internal.h), the check before
      main() (main.cpp) and dump_cpu_info(). A feature that needs a state of the
      processor is only used when XCR0 has the state or the kernel granted the
      permission that AMX needs.
    - TestUtils: sandstone_test_utils.h: buffers for code, and choice by weight.
    - Program: the tests that main() runs, from the names on the command line to a
      pass of the main loop, and the lists of tests and groups that it prints.
    - Detect: the detection of the processors on Linux (topology.cpp): sysfs, model-
      specific registers, the choice of the source that answers, and
      Topology::clone(). What the kernel writes about a processor is what the
      table holds, for cores without three siblings in a row, and the table has the
      enabled processors in their order.
    - Workloads: the compression tests (src/tests/zlib/, src/tests/zstd/) with the
      libraries as parameters and what they promise as classes ([ZlibWorks],
      [ZstdWorks]): on a machine that computes correctly a test passes, and a round that
      passes has seen its data come back.
    - OpenSsl: the loading of the library, the text about it and the provider of random
      numbers (sandstone_ssl.cpp, sandstone_ssl_rand.cpp), and the test of the
      digests (src/tests/openssl/openssl_sha.cpp).
    - SelfTest: the self tests (selftest.cpp) as what their functions log and how they
      end, run through the child process, its threads and the parent.
      SelfTestProofs: the result of a test is the one its functions ask for, in
      every order of the threads, and every test of the table has the result that
      the suite in src/bats/ expects. This composes Logging, Timing, Mismatch, Runner
      and Results.

    ** What is not modelled

    The Windows, Darwin and FreeBSD code (except the exit statuses), wrappers
    of single system calls in sysdeps/, spawnfd() and the
    installation of the signal handler in forkfd, memory orderings weaker than
    sequential consistency; the self tests that freeze, fork, reschedule, start virtual
    machines or compare data, and the assembly that causes signals; unit tests and test
    vectors, which are inputs; the tests on Eigen, which are calls of a template library;
    the names of the functions of OpenSSL; the restricted command line and
    getopt_long(). In [Children] and [Spawn] what the children write to the
    shared memory while the parent waits is taken to happen before the parent's
    own writes. *)

From Stdlib Require Export ZArith Lia Ascii.
From Stdlib Require Import String.
From stdpp Require Export prelude list_numbers strings sorting.

#[global] Open Scope Z_scope.

(** * Strings

    A C string or a std::string is the list of its characters; [L] turns a
    literal into one. *)
Abbreviation str := (list ascii).
Definition L (s : string) : str := String.list_ascii_of_string s.
Arguments L s%_string.

(** The value of a character as an unsigned byte, and back. *)
Definition code (c : ascii) : Z := Z.of_N (N_of_ascii c).
Definition char_of (z : Z) : ascii := ascii_of_N (Z.to_N z).

Definition str_eqb (a b : str) : bool := bool_decide (a = b).
Definition char_eqb (a b : ascii) : bool := bool_decide (a = b).

(** * Outcomes

    [Ret] is a normal return, [Exit] a call of exit() or _exit() with that
    status, [Ub] undefined behaviour: an access out of bounds, a failed
    assertion, a division by zero, code marked unreachable. *)
Inductive outcome (A : Type) : Type :=
| Ret (a : A)
| Exit (status : Z)
| Ub.
Arguments Ret {A} a.
Arguments Exit {A} status.
Arguments Ub {A}.

#[export] Instance outcome_ret : MRet outcome := @Ret.
#[export] Instance outcome_bind : MBind outcome := fun A B f m =>
  match m with
  | Ret a => f a
  | Exit s => Exit s
  | Ub => Ub
  end.
#[export] Instance outcome_fmap : FMap outcome := fun A B f m =>
  match m with
  | Ret a => Ret (f a)
  | Exit s => Exit s
  | Ub => Ub
  end.

(** The value behind a pointer or an index, undefined behaviour when there is
    none. *)
Definition of_option {A} (o : option A) : outcome A :=
  match o with Some a => Ret a | None => Ub end.

(** assert(b) *)
Definition assertion (b : bool) : outcome () := if b then Ret () else Ub.

Definition defined {A} (m : outcome A) : Prop := m <> Ub.

(** [for (x : l) st = f(st, x)] where the body may exit. *)
Fixpoint fold_outcome {A S} (f : S -> A -> outcome S) (l : list A) (s : S) : outcome S :=
  match l with
  | [] => Ret s
  | x :: l => s' ← f s x; fold_outcome f l s'
  end.

Lemma outcome_bind_ret {A B} (m : outcome A) (f : A -> outcome B) (b : B) :
  (m ≫= f) = Ret b -> exists a, m = Ret a /\ f a = Ret b.
Proof. destruct m; naive_solver. Qed.

(** An invariant kept by every iteration that returns holds when the loop
    returns. *)
Lemma fold_outcome_inv {A S} (P : S -> Prop) (f : S -> A -> outcome S) (l : list A) (s s' : S) :
  (forall s x s', x ∈ l -> P s -> f s x = Ret s' -> P s') ->
  P s -> fold_outcome f l s = Ret s' -> P s'.
Proof.
  revert s. induction l as [|x l IH]; intros s Hf Hs Hr; simpl in Hr.
  - by simplify_eq.
  - apply outcome_bind_ret in Hr as (s1 & Hx & Hr).
    apply (IH s1); [|eapply Hf; eauto; set_solver|done].
    intros; eapply Hf; eauto; set_solver.
Qed.

Lemma fold_outcome_app {A S} (f : S -> A -> outcome S) (l1 l2 : list A) (s : S) :
  fold_outcome f (l1 ++ l2) s = (fold_outcome f l1 s ≫= fold_outcome f l2).
Proof.
  revert s. induction l1 as [|x l IH]; intros s; simpl; [done|].
  destruct (f s x); simpl; auto.
Qed.

(** * Updating one field of a record

    [s <| f := v |>] is [s] with the field [f] set to [v], for a record type
    whose eta expansion is declared as an instance of [Eta]. *)
Class Eta (R : Type) := eta_expand : R -> R.
Class Update {R T : Type} (f : R -> T) := update : T -> R -> R.

Ltac solve_update :=
  match goal with
  | |- @Update ?R ?T ?f =>
      let e := eval hnf in (@eta_expand R _) in
      let v := fresh "v" in let r := fresh "r" in red; intros v r;
      let body := eval cbv beta in (e r) in
      match eval pattern (f r) in body with
      | ?h _ => let b := eval cbv beta in (h v) in exact b
      end
  end.
#[export] Hint Extern 0 (Update _) => solve_update : typeclass_instances.

Notation "s <| f := v |>" := (update (f := f) v s) (at level 1, left associativity, f constr at level 0).

(** * Machine integers

    A w-bit integer is the [Z] it stands for; [wrap_u] and [wrap_s] are the
    conversions to an unsigned and to a two's complement type of w bits. *)
Definition wrap_u (w z : Z) : Z := z mod 2 ^ w.
Definition wrap_s (w z : Z) : Z := (z + 2 ^ (w - 1)) mod 2 ^ w - 2 ^ (w - 1).

Definition in_u (w z : Z) : Prop := 0 <= z < 2 ^ w.
Definition in_s (w z : Z) : Prop := - 2 ^ (w - 1) <= z < 2 ^ (w - 1).

Abbreviation u8 := (wrap_u 8).
Abbreviation u16 := (wrap_u 16).
Abbreviation u32 := (wrap_u 32).
Abbreviation u64 := (wrap_u 64).
Abbreviation i8 := (wrap_s 8).
Abbreviation i16 := (wrap_s 16).
Abbreviation i32 := (wrap_s 32).
Abbreviation i64 := (wrap_s 64).

Definition INT_MAX : Z := 2 ^ 31 - 1.
Definition INT_MIN : Z := - 2 ^ 31.
Definition UINT_MAX : Z := 2 ^ 32 - 1.
Definition LLONG_MAX : Z := 2 ^ 63 - 1.
Definition LLONG_MIN : Z := - 2 ^ 63.
Definition ULLONG_MAX : Z := 2 ^ 64 - 1.

Section Wrap.
Context (w : Z) (Hw : 0 < w).

Lemma wrap_u_range z : in_u w (wrap_u w z).
Proof using Hw. apply Z.mod_pos_bound. by apply Z.pow_pos_nonneg; lia. Qed.

Lemma wrap_u_small z : in_u w z -> wrap_u w z = z.
Proof using Type. intros H. by apply Z.mod_small. Qed.

Lemma pow_half : 2 ^ w = 2 * 2 ^ (w - 1).
Proof using Hw. rewrite <- Z.pow_succ_r by lia. f_equal. lia. Qed.

Lemma wrap_s_range z : in_s w (wrap_s w z).
Proof using Hw.
  unfold wrap_s, in_s. pose proof pow_half.
  assert (0 < 2 ^ w) by (apply Z.pow_pos_nonneg; lia).
  pose proof (Z.mod_pos_bound (z + 2 ^ (w - 1)) (2 ^ w)). lia.
Qed.

Lemma wrap_s_small z : in_s w z -> wrap_s w z = z.
Proof using Hw.
  unfold wrap_s, in_s. pose proof pow_half. intros.
  rewrite Z.mod_small; lia.
Qed.

Lemma wrap_u_idem z : wrap_u w (wrap_u w z) = wrap_u w z.
Proof using Hw. apply wrap_u_small, wrap_u_range. Qed.

Lemma wrap_s_fix z : wrap_s w z = z <-> in_s w z.
Proof using Hw. split; [intros <-; apply wrap_s_range | apply wrap_s_small]. Qed.

Lemma wrap_s_u z : wrap_s w (wrap_u w z) = wrap_s w z.
Proof using Hw. unfold wrap_s, wrap_u. by rewrite Zplus_mod_idemp_l. Qed.
End Wrap.

(** * Tactics and hints *)

(** Case analysis on the boolean comparisons of the goal and the hypotheses. *)
Ltac zcases :=
  repeat match goal with
  | |- context [?a =? ?b] => destruct (Z.eqb_spec a b)
  | |- context [?a <? ?b] => destruct (Z.ltb_spec a b)
  | |- context [?a <=? ?b] => destruct (Z.leb_spec a b)
  | H : context [?a =? ?b] |- _ => destruct (Z.eqb_spec a b)
  | H : context [?a <? ?b] |- _ => destruct (Z.ltb_spec a b)
  | H : context [?a <=? ?b] |- _ => destruct (Z.leb_spec a b)
  end.

(** Splits a successful sequence of outcomes into its steps. *)
Ltac inv_ret :=
  repeat match goal with
  | H : (?m ≫= ?f) = Ret _ |- _ =>
      let a := fresh "a" in let Ha := fresh "Ha" in
      apply outcome_bind_ret in H as (a & Ha & H)
  | H : Ret _ = Ret _ |- _ => injection H as H; subst
  | H : of_option ?o = Ret _ |- _ => let E := fresh "E" in
      destruct o eqn:E; simpl in H; [injection H as H; subst|discriminate H]
  | H : assertion ?b = Ret _ |- _ => let E := fresh "E" in
      destruct b eqn:E; simpl in H; [clear H|discriminate H]
  end.

Create HintDb sandstone discriminated.
#[export] Hint Constants Opaque : sandstone.
#[export] Hint Resolve wrap_u_range wrap_s_range : sandstone.
#[export] Hint Extern 1 (_ < _) => lia : sandstone.
#[export] Hint Extern 1 (_ <= _) => lia : sandstone.

(** * Bits *)

Lemma land_ones_mod z n : 0 <= n -> Z.land z (2 ^ n - 1) = z mod 2 ^ n.
Proof.
  intros. rewrite <- Z.land_ones by done. f_equal.
  rewrite Z.ones_equiv. lia.
Qed.

(** x & (x - 1) clears the lowest set bit; rounding up to a power of two. *)
Lemma land_lnot_ones z n : 0 <= n -> Z.land z (Z.lnot (2 ^ n - 1)) = z - z mod 2 ^ n.
Proof.
  intros. rewrite <- land_ones_mod by done.
  assert (Z.land (Z.land z (Z.lnot (2 ^ n - 1))) (Z.land z (2 ^ n - 1)) = 0) as Hd.
  { apply Z.bits_inj'. intros i Hi.
    rewrite !Z.land_spec, Z.lnot_spec, Z.bits_0 by done.
    destruct (Z.testbit z i), (Z.testbit (2 ^ n - 1) i); done. }
  apply Z.add_nocarry_lxor in Hd.
  assert (Z.lxor (Z.land z (Z.lnot (2 ^ n - 1))) (Z.land z (2 ^ n - 1)) = z) as Hz.
  { apply Z.bits_inj'. intros i Hi.
    rewrite !Z.lxor_spec, !Z.land_spec, Z.lnot_spec by done.
    destruct (Z.testbit z i), (Z.testbit (2 ^ n - 1) i); done. }
  lia.
Qed.

Lemma lor_lt_pow2 a b n : 0 <= n -> 0 <= a < 2 ^ n -> 0 <= b < 2 ^ n -> 0 <= Z.lor a b < 2 ^ n.
Proof.
  intros Hn [Ha Ha'] [Hb Hb']. assert (0 <= Z.lor a b) as H0 by (apply Z.lor_nonneg; lia). split; [done|].
  rewrite <- (Z.mod_small a (2 ^ n)), <- (Z.mod_small b (2 ^ n)) by lia.
  rewrite <- !Z.land_ones, <- Z.land_lor_distr_l, Z.land_ones by done.
  apply Z.mod_pos_bound. apply Z.pow_pos_nonneg; lia.
Qed.

(** The number of set bits among the [n] lowest ones (std::popcount). *)
Fixpoint popcount_upto (n : nat) (z : Z) : Z :=
  match n with
  | O => 0
  | S n => Z.b2z (Z.testbit z (Z.of_nat n)) + popcount_upto n z
  end.

Lemma popcount_upto_range n z : 0 <= popcount_upto n z <= Z.of_nat n.
Proof.
  induction n as [|n IH]; simpl; [lia|].
  destruct (Z.testbit z (Z.of_nat n)); simpl; lia.
Qed.

Lemma popcount_upto_ext n a b :
  (forall i, 0 <= i < Z.of_nat n -> Z.testbit a i = Z.testbit b i) ->
  popcount_upto n a = popcount_upto n b.
Proof.
  induction n as [|n IH]; intros H; simpl; [done|].
  rewrite H by lia. rewrite IH; [done|]. intros; apply H; lia.
Qed.

Lemma popcount_upto_0 n : popcount_upto n 0 = 0.
Proof. induction n; simpl; [done|]. by rewrite Z.bits_0, IHn. Qed.

Lemma popcount_upto_eq_0 n z :
  popcount_upto n z = 0 -> forall i, 0 <= i < Z.of_nat n -> Z.testbit z i = false.
Proof.
  induction n as [|n IH]; simpl; intros H i Hi; [lia|].
  pose proof (popcount_upto_range n z).
  destruct (Z.testbit z (Z.of_nat n)) eqn:E; simpl in H; [lia|].
  destruct (decide (i = Z.of_nat n)) as [->|]; [done|]. apply IH; lia.
Qed.

(** Setting a clear bit adds one, clearing a set bit removes one. *)
Lemma popcount_upto_setbit n z i :
  0 <= i < Z.of_nat n -> Z.testbit z i = false ->
  popcount_upto n (Z.setbit z i) = popcount_upto n z + 1.
Proof.
  induction n as [|n IH]; simpl; intros Hi Hz; [lia|].
  destruct (decide (i = Z.of_nat n)) as [->|].
  - rewrite Z.setbit_eq, Hz by lia. simpl.
    rewrite (popcount_upto_ext n _ z); [lia|].
    intros j Hj. rewrite Z.setbit_neq; [done|lia..].
  - rewrite Z.setbit_neq, IH; [lia|lia|done|lia..].
Qed.

Lemma popcount_upto_clearbit n z i :
  0 <= i < Z.of_nat n -> Z.testbit z i = true ->
  popcount_upto n (Z.clearbit z i) = popcount_upto n z - 1.
Proof.
  induction n as [|n IH]; simpl; intros Hi Hz; [lia|].
  destruct (decide (i = Z.of_nat n)) as [->|].
  - rewrite Z.clearbit_eq, Hz by lia. simpl.
    rewrite (popcount_upto_ext n _ z); [lia|].
    intros j Hj. rewrite Z.clearbit_neq; [done|lia..].
  - rewrite Z.clearbit_neq, IH; [lia|lia|done|lia..].
Qed.

(** * Lists *)

(** Reading element [i] of an array indexed by a C integer. *)
Definition at_ {A} (l : list A) (i : Z) : outcome A :=
  if i <? 0 then Ub else of_option (l !! Z.to_nat i).

Definition len {A} (l : list A) : Z := Z.of_nat (length l).

Lemma at_ret {A} (l : list A) i :
  0 <= i < len l -> exists x, at_ l i = Ret x /\ l !! Z.to_nat i = Some x.
Proof.
  unfold at_, len. intros Hi.
  destruct (lookup_lt_is_Some_2 l (Z.to_nat i)) as [x Hx]; [lia|].
  exists x. rewrite (proj2 (Z.ltb_ge i 0)) by lia. by rewrite Hx.
Qed.

Lemma len_app {A} (l1 l2 : list A) : len (l1 ++ l2) = len l1 + len l2.
Proof. unfold len. rewrite length_app. lia. Qed.

(** Splitting at the first element that does not satisfy a test. *)
Fixpoint span {A} (p : A -> bool) (l : list A) : list A * list A :=
  match l with
  | [] => ([], [])
  | x :: l => if p x then let '(a, b) := span p l in (x :: a, b) else ([], x :: l)
  end.

Lemma span_app {A} (p : A -> bool) (l : list A) : (span p l).1 ++ (span p l).2 = l.
Proof.
  induction l as [|x l IH]; simpl; [done|].
  destruct (p x); simpl; [|done]. destruct (span p l); simpl in *. by f_equal.
Qed.

Lemma span_fst {A} (p : A -> bool) (l : list A) : Forall (fun x => p x = true) (span p l).1.
Proof.
  induction l as [|x l IH]; simpl; [by constructor|].
  destruct (p x) eqn:E; simpl; [|by constructor].
  destruct (span p l); simpl in *. by constructor.
Qed.

Lemma span_snd {A} (p : A -> bool) (l : list A) x r : (span p l).2 = x :: r -> p x = false.
Proof.
  induction l as [|y l IH]; simpl; [done|].
  destruct (p y) eqn:E; simpl; [|intros; by simplify_eq].
  destruct (span p l); simpl in *. done.
Qed.

Lemma span_all {A} (p : A -> bool) (l1 l2 : list A) :
  Forall (fun x => p x = true) l1 ->
  match l2 with [] => True | x :: _ => p x = false end ->
  span p (l1 ++ l2) = (l1, l2).
Proof.
  induction 1 as [|x l Hx Hl IH]; intros H2; simpl.
  - destruct l2; simpl; [done|]. by rewrite H2.
  - rewrite Hx, IH; done.
Qed.

(** Checking a property of every integer of a small range by evaluation. *)
Lemma forallb_range (f : Z -> bool) (a n : Z) :
  forallb f (seqZ a n) = true -> forall b, a <= b < a + n -> f b = true.
Proof.
  intros H b Hb. rewrite forallb_forall in H. apply H.
  apply list_elem_of_In, elem_of_seqZ. lia.
Qed.

(** The same for 2^k integers, without building the list of them. *)
Fixpoint forall_pow2 (k : nat) (a : Z) (f : Z -> bool) : bool :=
  match k with
  | O => f a
  | S k => forall_pow2 k a f && forall_pow2 k (a + 2 ^ Z.of_nat k) f
  end.

Lemma forall_pow2_spec k a f : forall_pow2 k a f = true -> forall b, a <= b < a + 2 ^ Z.of_nat k -> f b = true.
Proof.
  revert a. induction k as [|k IH]; intros a H b Hb.
  - simpl in *. by replace b with a by lia.
  - cbn [forall_pow2] in H. apply andb_prop in H as [H1 H2].
    rewrite Nat2Z.inj_succ, Z.pow_succ_r in Hb by lia.
    destruct (Z.lt_ge_cases b (a + 2 ^ Z.of_nat k)); [apply (IH a)|apply (IH (a + 2 ^ Z.of_nat k))]; done || lia.
Qed.

Lemma filter_all {A} (P : A -> Prop) `{!forall x, Decision (P x)} (l : list A) :
  Forall P l -> filter P l = l.
Proof. induction 1; [done|]. rewrite filter_cons_True by done. by f_equal. Qed.

Lemma sorted_lookup {A} (R : relation A) (l : list A) i j a b :
  StronglySorted R l -> (i < j)%nat -> l !! i = Some a -> l !! j = Some b -> R a b.
Proof.
  intros Hs Hij Ha Hb. rewrite <- (take_drop (S i) l) in Hs.
  eapply StronglySorted_app_1_elem_of; [exact Hs|..].
  - apply list_elem_of_lookup_2 with i. by rewrite lookup_take_lt by lia.
  - apply list_elem_of_lookup_2 with (j - S i)%nat. rewrite lookup_drop.
    by replace (S i + (j - S i))%nat with j by lia.
Qed.

(** Exit statuses (sysexits.h, stdlib.h and sandstone_utils.h). *)
Definition EXIT_SUCCESS : Z := 0.
Definition EXIT_FAILURE : Z := 1.
Definition EXIT_INVALID : Z := 2.
Definition EXIT_INTERRUPTED : Z := 128.
Definition EX_USAGE : Z := 64.
Definition EX_DATAERR : Z := 65.
Definition EX_OSERR : Z := 71.
