(* ===== verification/CStdlib.v ===== *)
(** The functions of the C and C++ standard libraries the program calls on
    strings and integers: the strto* family, std::from_chars, strtok,
    std::to_string. They are written from their standards; no file of the
    repository is modelled here. *)

From S2P Require Import Prelude.

(** isspace() in the C locale. *)
Definition isspace (c : ascii) : bool :=
  (code c =? 32) || ((9 <=? code c) && (code c <=? 13)).

(** The value of a character as a digit, 36 when it is none. *)
Definition digit_of (c : ascii) : Z :=
  let n := code c in
  if (48 <=? n) && (n <=? 57) then n - 48
  else if (97 <=? n) && (n <=? 122) then n - 87
  else if (65 <=? n) && (n <=? 90) then n - 55
  else 36.

Definition is_digit (base : Z) (c : ascii) : bool := digit_of c <? base.

Definition digits_value (base : Z) (l : str) : Z :=
  fold_left (fun acc c => acc * base + digit_of c) l 0.

(** The subject sequence of strtol() after the sign: the base it is read in
    and where the digits start. "0x" counts as a prefix only when a
    hexadecimal digit follows. *)
Definition strto_prefix (base : Z) (s : str) : Z * str :=
  let hex := match s with
             | "0"%char :: x :: d :: _ =>
                 ((code x =? 120) || (code x =? 88)) && is_digit 16 d
             | _ => false
             end in
  if ((base =? 0) || (base =? 16)) && hex then (16, drop 2 s)
  else if base =? 0 then
    match s with "0"%char :: _ => (8, s) | _ => (10, s) end
  else (base, s).

(** What strtol() and strtoull() parse: the sign, the magnitude, and what
    follows the number; [None] when there is no number to convert. *)
Definition strto (base : Z) (s : str) : option (bool * Z * str) :=
  let s1 := (span isspace s).2 in
  let '(neg, s2) := match s1 with
                    | "-"%char :: r => (true, r)
                    | "+"%char :: r => (false, r)
                    | _ => (false, s1)
                    end in
  let '(b, s3) := strto_prefix base s2 in
  let '(ds, rest) := span (is_digit b) s3 in
  match ds with
  | [] => None
  | _ => Some (neg, digits_value b ds, rest)
  end.

(** strtoll(s, &end, base): the value, the rest at [end], and whether errno is
    set to ERANGE. long is 64 bits wide, so strtol() is the same function. *)
Definition strtoll (base : Z) (s : str) : Z * str * bool :=
  match strto base s with
  | None => (0, s, false)
  | Some (neg, m, rest) =>
      let v := if neg then - m else m in
      if LLONG_MAX <? v then (LLONG_MAX, rest, true)
      else if v <? LLONG_MIN then (LLONG_MIN, rest, true)
      else (v, rest, false)
  end.

(** strtoull(): a minus sign negates in the unsigned type. *)
Definition strtoull (base : Z) (s : str) : Z * str * bool :=
  match strto base s with
  | None => (0, s, false)
  | Some (neg, m, rest) =>
      if ULLONG_MAX <? m then (ULLONG_MAX, rest, true)
      else (u64 (if neg then - m else m), rest, false)
  end.

(** std::from_chars() into a signed integer of [w] bits: no space, no plus
    sign; the error code tells an unparsable text from a value that does not
    fit. *)
Inductive errc := errc_ok | invalid_argument | result_out_of_range.

Definition from_chars (w : Z) (base : Z) (s : str) : errc * Z * str :=
  let '(neg, s1) := match s with "-"%char :: r => (true, r) | _ => (false, s) end in
  let '(ds, rest) := span (is_digit base) s1 in
  match ds with
  | [] => (invalid_argument, 0, s)
  | _ =>
      let v := if neg then - digits_value base ds else digits_value base ds in
      if bool_decide (in_s w v) then (errc_ok, v, rest)
      else (result_out_of_range, 0, rest)
  end.

(** The decimal digits of a number, and std::to_string(). *)
Definition digit_char (d : Z) : ascii :=
  if d <? 10 then char_of (d + 48) else char_of (d + 87).

Fixpoint digits_fuel (base : Z) (fuel : nat) (z : Z) (acc : str) : str :=
  match fuel with
  | O => acc
  | S f =>
      let acc := digit_char (z mod base) :: acc in
      if z / base =? 0 then acc else digits_fuel base f (z / base) acc
  end.

(** 128 digits are more than a 128-bit integer has in any base. *)
Definition to_digits (base z : Z) : str := digits_fuel base 128 z [].
Definition to_string (z : Z) : str :=
  if z <? 0 then "-"%char :: to_digits 10 (- z) else to_digits 10 z.

(** The tokens strtok() yields: maximal runs of characters other than the
    separator. *)
Fixpoint strtok_go (sep : ascii) (s : str) (cur : str) : list str :=
  match s with
  | [] => match cur with [] => [] | _ => [reverse cur] end
  | c :: s =>
      if char_eqb c sep
      then match cur with [] => strtok_go sep s [] | _ => reverse cur :: strtok_go sep s [] end
      else strtok_go sep s (c :: cur)
  end.
Definition strtok (sep : ascii) (s : str) : list str := strtok_go sep s [].

(** The words with a separator between them. *)
Fixpoint join (sep : ascii) (ws : list str) : str :=
  match ws with
  | [] => []
  | [w] => w
  | w :: ws => w ++ sep :: join sep ws
  end.

(** * Facts *)

Lemma code_range c : 0 <= code c < 256.
Proof. unfold code. pose proof (N_ascii_bounded c). lia. Qed.

Lemma digit_of_range c : 0 <= digit_of c <= 36.
Proof.
  pose proof (code_range c). unfold digit_of. zcases; simpl; lia.
Qed.

Lemma is_digit_bound base c : is_digit base c = true -> 0 <= digit_of c < base.
Proof. unfold is_digit. intros H%Z.ltb_lt. pose proof (digit_of_range c). lia. Qed.

Lemma fold_digits_nonneg base l acc :
  0 <= base -> 0 <= acc -> Forall (fun c => is_digit base c = true) l ->
  0 <= fold_left (fun acc c => acc * base + digit_of c) l acc.
Proof.
  intros Hb. revert acc.
  induction l as [|c l IH]; intros acc Ha Hl; simpl; [done|].
  inversion Hl; subst. apply IH; [|done].
  pose proof (is_digit_bound base c ltac:(done)). nia.
Qed.

Lemma digits_value_nonneg base l :
  0 <= base -> Forall (fun c => is_digit base c = true) l -> 0 <= digits_value base l.
Proof. intros. by apply fold_digits_nonneg. Qed.

Lemma digits_value_snoc base l c :
  digits_value base (l ++ [c]) = digits_value base l * base + digit_of c.
Proof. unfold digits_value. by rewrite fold_left_app. Qed.

Lemma code_char_of z : 0 <= z < 256 -> code (char_of z) = z.
Proof.
  intros. unfold code, char_of. rewrite N_ascii_embedding; [lia|].
  apply N2Z.inj_lt. rewrite Z2N.id by lia. lia.
Qed.

Lemma char_of_code c : char_of (code c) = c.
Proof. unfold char_of, code. by rewrite N2Z.id, ascii_N_embedding. Qed.

Lemma digit_of_digit_char d : 0 <= d < 16 -> digit_of (digit_char d) = d.
Proof.
  intros. unfold digit_char. zcases; unfold digit_of; rewrite code_char_of by lia;
    zcases; simpl; lia.
Qed.

Lemma digit_char_is_digit base d :
  0 <= d < base -> base <= 16 -> is_digit base (digit_char d) = true.
Proof. intros. unfold is_digit. rewrite digit_of_digit_char by lia. apply Z.ltb_lt; lia. Qed.

(** Printing a number and reading its digits back gives the number. *)
Lemma digits_fuel_app base f z acc : digits_fuel base f z acc = digits_fuel base f z [] ++ acc.
Proof.
  revert z acc. induction f as [|f IH]; intros z acc; simpl; [done|].
  case_match; [done|]. rewrite IH, (IH _ [_]), <- app_assoc. done.
Qed.

Lemma digits_fuel_value base f z :
  2 <= base <= 16 -> 0 <= z < base ^ Z.of_nat f ->
  digits_value base (digits_fuel base f z []) = z.
Proof.
  intros Hb. revert z. induction f as [|f IH]; intros z Hz.
  - simpl in *. unfold digits_value. simpl. lia.
  - simpl. pose proof (Z.mod_pos_bound z base).
    pose proof (Z_div_mod_eq_full z base).
    zcases.
    + unfold digits_value. simpl. rewrite digit_of_digit_char; lia.
    + rewrite digits_fuel_app, digits_value_snoc, digit_of_digit_char by lia.
      rewrite IH; [lia|]. split; [apply Z.div_pos; lia|].
      apply Z.div_lt_upper_bound; [lia|].
      rewrite <- Z.pow_succ_r by lia. rewrite <- Nat2Z.inj_succ. lia.
Qed.

Lemma digits_fuel_digits base f z :
  2 <= base <= 16 -> Forall (fun c => is_digit base c = true) (digits_fuel base f z []).
Proof.
  intros Hb. revert z. induction f as [|f IH]; intros z; simpl; [by constructor|].
  pose proof (Z.mod_pos_bound z base).
  case_match; [repeat constructor; apply digit_char_is_digit; lia|].
  rewrite digits_fuel_app. apply Forall_app. split; [apply IH|].
  repeat constructor. apply digit_char_is_digit; lia.
Qed.

Lemma digits_fuel_ne base f z : (0 < f)%nat -> digits_fuel base f z [] <> [].
Proof.
  destruct f as [|f]; [lia|]. intros _. simpl. case_match; [done|].
  rewrite digits_fuel_app. intros [_ ?]%app_eq_nil. done.
Qed.

Lemma to_digits_value base z :
  2 <= base <= 16 -> 0 <= z < 2 ^ 128 -> digits_value base (to_digits base z) = z.
Proof.
  intros Hb Hz. apply digits_fuel_value; [done|]. split; [lia|].
  eapply Z.lt_le_trans; [apply Hz|]. apply Z.pow_le_mono_l. lia.
Qed.

Lemma span_length {A} (p : A -> bool) (l : list A) : (length (span p l).2 <= length l)%nat.
Proof. rewrite <- (span_app p l) at 2. rewrite length_app. lia. Qed.

(** strtoll() never moves its end pointer backwards. *)
Lemma strto_rest base s neg m rest : strto base s = Some (neg, m, rest) -> (length rest <= length s)%nat.
Proof.
  unfold strto. pose proof (span_length isspace s) as Hs. set (s1 := (span isspace s).2) in *.
  destruct (match s1 with "-"%char :: r => (true, r) | "+"%char :: r => (false, r) | _ => (false, s1) end)
    as [neg' s2] eqn:E2.
  assert (length s2 <= length s1)%nat as H2.
  { clear -E2. destruct s1 as [|c r]; [by simplify_eq|].
    repeat case_match; simplify_eq; simpl; lia. }
  destruct (strto_prefix base s2) as [b s3] eqn:E3.
  assert (length s3 <= length s2)%nat as H3.
  { unfold strto_prefix in E3. revert E3. generalize (match s2 with "0"%char :: x :: d :: _ =>
      ((code x =? 120) || (code x =? 88)) && is_digit 16 d | _ => false end). intros hex E3.
    destruct (((base =? 0) || (base =? 16)) && hex); [simplify_eq; rewrite length_drop; lia|].
    destruct (base =? 0); [|by simplify_eq].
    assert ((match s2 with "0"%char :: _ => (8, s2) | _ => (10, s2) end).2 = s2) as Hs2 by by repeat case_match.
    rewrite E3 in Hs2. simpl in Hs2. by subst. }
  pose proof (span_length (is_digit b) s3). destruct (span (is_digit b) s3) as [ds r] eqn:E4. simpl in *.
  destruct ds; [done|]. intros. simplify_eq. lia.
Qed.

Lemma digits_value_any base ds : 0 <= base -> 0 <= digits_value base ds.
Proof.
  intros Hb. unfold digits_value. assert (forall acc, 0 <= acc -> 0 <= fold_left (fun acc c => acc * base + digit_of c) ds acc) as H; [|by apply H].
  induction ds as [|c ds IH]; intros acc Ha; [done|]. cbn [fold_left]. apply IH. pose proof (digit_of_range c). nia.
Qed.

Lemma strto_magnitude base s neg m rest : 0 <= base -> strto base s = Some (neg, m, rest) -> 0 <= m.
Proof.
  intros Hb. unfold strto. destruct (match _ with "-"%char :: r => (true, r) | "+"%char :: r => (false, r) | _ => _ end) as [neg' s2].
  destruct (strto_prefix base s2) as [b s3] eqn:E. destruct (span (is_digit b) s3) as [ds r]. destruct ds; [done|]. intros [= <- <- <-].
  apply digits_value_any. unfold strto_prefix in E. repeat case_match; simplify_eq; lia.
Qed.

Lemma strtoll_rest base s v rest e : strtoll base s = (v, rest, e) -> (length rest <= length s)%nat.
Proof.
  unfold strtoll. destruct (strto base s) as [[[neg m] r]|] eqn:E; [|intros; by simplify_eq].
  apply strto_rest in E. repeat case_match; intros; by simplify_eq.
Qed.

(** Reading a number back from its decimal digits. *)
Lemma digit_head c (r : str) : is_digit 10 c = true ->
  isspace c = false /\
  match c :: r with
  | "-"%char :: r => (true, r)
  | "+"%char :: r => (false, r)
  | _ => (false, c :: r)
  end = (false, c :: r).
Proof. destruct c as [[] [] [] [] [] [] [] []]; vm_compute; done. Qed.

Lemma strto_digits (ds rest : str) : ds <> [] -> Forall (fun c => is_digit 10 c = true) ds ->
  match rest with [] => True | c :: _ => is_digit 10 c = false end ->
  strto 10 (ds ++ rest) = Some (false, digits_value 10 ds, rest).
Proof.
  intros Hne Hd Hr. unfold strto, strto_prefix. destruct ds as [|c ds]; [done|].
  destruct (digit_head c (ds ++ rest)) as [Hsp Hsg]; [by apply Forall_inv in Hd|].
  cbn [app span]. rewrite Hsp. cbn [snd]. rewrite Hsg. cbn [Z.eqb Pos.eqb orb andb].
  rewrite app_comm_cons, span_all; [done|done|]. by destruct rest.
Qed.

Lemma strtoll_to_string z rest : 0 <= z <= LLONG_MAX ->
  match rest with [] => True | c :: _ => is_digit 10 c = false end ->
  strtoll 10 (to_string z ++ rest) = (z, rest, false).
Proof.
  intros Hz Hr. unfold strtoll, to_string. destruct (Z.ltb_spec z 0); [lia|].
  rewrite strto_digits; [|by apply digits_fuel_ne; lia|by apply digits_fuel_digits|done].
  rewrite to_digits_value by (unfold LLONG_MAX in *; lia).
  destruct (Z.ltb_spec LLONG_MAX z); [lia|]. destruct (Z.ltb_spec z LLONG_MIN); [unfold LLONG_MIN in *; lia|done].
Qed.

(** A positive number is written without a leading zero. *)
Lemma digits_fuel_head base f z : 2 <= base <= 16 -> 0 < z < base ^ Z.of_nat f ->
  exists c r, digits_fuel base f z [] = c :: r /\ is_digit base c = true /\ digit_of c <> 0.
Proof.
  intros Hb. revert z. induction f as [|f IH]; intros z Hz; [simpl in Hz; lia|].
  cbn [digits_fuel]. pose proof (Z.mod_pos_bound z base). pose proof (Z_div_mod_eq_full z base).
  destruct (Z.eqb_spec (z / base) 0) as [E|E].
  - exists (digit_char (z mod base)), []. split; [done|]. split; [apply digit_char_is_digit; lia|].
    rewrite digit_of_digit_char by lia. lia.
  - destruct (IH (z / base)) as (c & r & Hc & Hrest).
    + split; [pose proof (Z.div_pos z base); lia|]. apply Z.div_lt_upper_bound; [lia|].
      rewrite <- Z.pow_succ_r, <- Nat2Z.inj_succ by lia. lia.
    + rewrite digits_fuel_app, Hc. by exists c, (r ++ [digit_char (z mod base)]).
Qed.

Lemma to_digits_head base z : 2 <= base <= 16 -> 0 < z < 2 ^ 128 ->
  exists c r, to_digits base z = c :: r /\ is_digit base c = true /\ digit_of c <> 0.
Proof.
  intros Hb Hz. apply digits_fuel_head; [done|]. split; [lia|].
  eapply Z.lt_le_trans; [apply Hz|]. apply Z.pow_le_mono_l. lia.
Qed.

(** In base 0 a decimal number and one with "0x" before it are read as what
    they are. *)
Lemma strto_prefix_decimal c r : is_digit 10 c = true -> digit_of c <> 0 -> strto_prefix 0 (c :: r) = (10, c :: r).
Proof. intros H1 H2. unfold strto_prefix. destruct c as [[] [] [] [] [] [] [] []]; vm_compute in H1, H2; done. Qed.

Lemma strto_auto neg (s : str) b ds :
  match s with c :: _ => is_digit 10 c = true | [] => False end ->
  strto_prefix 0 s = (b, ds) -> ds <> [] -> Forall (fun c => is_digit b c = true) ds ->
  strto 0 (if neg : bool then "-"%char :: s else s) = Some (neg, digits_value b ds, []).
Proof.
  intros Hc Hp Hne Hd. destruct s as [|c r]; [done|]. destruct (digit_head c r Hc) as [Hsp Hsg].
  unfold strto. destruct neg.
  - change ((span isspace ("-"%char :: c :: r)).2) with ("-"%char :: c :: r). cbn [fst snd]. rewrite Hp.
    rewrite <- (app_nil_r ds) at 1. rewrite span_all by done. by destruct ds.
  - cbn [span]. rewrite Hsp. cbn [snd]. rewrite Hsg, Hp.
    rewrite <- (app_nil_r ds) at 1. rewrite span_all by done. by destruct ds.
Qed.

(** The decimal digits of a number, and its hexadecimal digits after "0x", are
    read back in base 0. *)
Lemma strto_decimal neg v : 0 <= v < 2 ^ 128 ->
  strto 0 (if neg : bool then "-"%char :: to_digits 10 v else to_digits 10 v) = Some (neg, v, []).
Proof.
  intros Hv.
  assert (exists b ds, strto_prefix 0 (to_digits 10 v) = (b, ds) /\ ds <> [] /\
    Forall (fun c => is_digit b c = true) ds /\ digits_value b ds = v /\
    match to_digits 10 v with c :: _ => is_digit 10 c = true | [] => False end) as (b & ds & Hp & Hne & Hd & Hval & Hc).
  { destruct (Z.eq_dec v 0) as [->|Hnz]; [exists 8, (L "0"); repeat split; by repeat constructor|].
    assert (digits_value 10 (to_digits 10 v) = v) as Hval by (apply to_digits_value; lia).
    assert (Forall (fun c => is_digit 10 c = true) (to_digits 10 v)) as Hall by (apply digits_fuel_digits; lia).
    destruct (to_digits_head 10 v) as (c & r & E & Hdig & Hh); [lia..|]. rewrite E in *.
    exists 10, (c :: r). by rewrite strto_prefix_decimal. }
  rewrite (strto_auto neg _ b ds) by done. by rewrite Hval.
Qed.

Lemma strto_hex neg v : 0 < v < 2 ^ 128 ->
  strto 0 (if neg : bool then "-"%char :: L "0x" ++ to_digits 16 v else L "0x" ++ to_digits 16 v) = Some (neg, v, []).
Proof.
  intros Hv. destruct (to_digits_head 16 v) as (c & r & E & Hdig & Hh); [lia..|].
  rewrite (strto_auto neg _ 16 (to_digits 16 v)).
  - by rewrite to_digits_value by lia.
  - done.
  - rewrite E. unfold strto_prefix. simpl. by rewrite Hdig.
  - by rewrite E.
  - apply digits_fuel_digits. lia.
Qed.

(** The text of a number that is not negative is read back in base 0 when
    neither a digit nor an "x" follows. *)
Lemma strto_decimal_rest v c (rest : str) : 0 <= v < 2 ^ 128 ->
  is_digit 10 c = false -> c <> "x"%char -> c <> "X"%char ->
  strto 0 (to_digits 10 v ++ c :: rest) = Some (false, v, c :: rest).
Proof.
  intros Hv Hc Hx HX.
  assert (is_digit 8 c = false) as Hc8 by (unfold is_digit in *; apply Z.ltb_ge in Hc; apply Z.ltb_ge; lia).
  assert ((code c =? 120) = false /\ (code c =? 88) = false) as [H1 H2].
  { split; apply Z.eqb_neq; intros He; [apply Hx|apply HX]; rewrite <- (ascii_N_embedding c); unfold code in He.
    - by replace (N_of_ascii c) with 120%N by lia.
    - by replace (N_of_ascii c) with 88%N by lia. }
  destruct (Z.eq_dec v 0) as [->|Hnz].
  { change (to_digits 10 0) with ["0"%char]. unfold strto. cbn [app span]. change (isspace "0") with false.
    cbn [snd]. unfold strto_prefix. rewrite H1, H2. cbn [orb andb]. destruct rest; cbn [Z.eqb orb andb span];
    change (is_digit 8 "0") with true; cbn [span]; rewrite Hc8; done. }
  destruct (to_digits_head 10 v) as (d & r & E & Hdig & Hh); [lia..|].
  assert (Forall (fun c => is_digit 10 c = true) (to_digits 10 v)) as Hall by (apply digits_fuel_digits; lia).
  pose proof (to_digits_value 10 v) as Hval. destruct (digit_head d (r ++ c :: rest) Hdig) as [Hsp Hsg].
  rewrite E in *. unfold strto. cbn [app span]. rewrite Hsp. cbn [snd]. rewrite Hsg, strto_prefix_decimal by done.
  rewrite app_comm_cons, span_all; [|done|done]. cbn [fst snd]. by rewrite Hval by lia.
Qed.

(** strtok() cuts a joined list of words into the words. *)
Lemma strtok_go_word sep (w rest cur : str) : Forall (fun c => char_eqb c sep = false) w ->
  strtok_go sep (w ++ rest) cur = strtok_go sep rest (reverse w ++ cur).
Proof.
  intros Hw. revert cur. induction Hw as [|c w Hc Hw IH]; intros cur; [done|].
  cbn [app strtok_go]. by rewrite Hc, IH, reverse_cons, <- app_assoc.
Qed.

Lemma strtok_join sep ws : Forall (fun w => w <> [] /\ Forall (fun c => char_eqb c sep = false) w) ws ->
  strtok sep (join sep ws) = ws.
Proof.
  unfold strtok. induction 1 as [|w ws [Hne Hw] Hws IH]; [done|].
  assert (forall x : str, x <> [] -> exists c r, reverse x = c :: r /\ reverse (c :: r) = x) as Hrev.
  { intros x Hx. destruct (reverse x) as [|c r] eqn:E; [by apply (f_equal reverse) in E; rewrite reverse_involutive in E|].
    exists c, r. by rewrite <- E, reverse_involutive. }
  destruct (Hrev w Hne) as (c & r & E & E'). destruct ws as [|w' ws].
  - cbn [join]. rewrite <- (app_nil_r w), strtok_go_word by done. rewrite app_nil_r, E. cbn [strtok_go]. by rewrite E', app_nil_r.
  - change (join sep (w :: w' :: ws)) with (w ++ sep :: join sep (w' :: ws)). rewrite strtok_go_word by done.
    rewrite app_nil_r, E. cbn [strtok_go]. unfold char_eqb. rewrite bool_decide_eq_true_2 by done. by rewrite E', IH.
Qed.
