(* ===== verification/Bytes.v ===== *)
(** Memory as bytes: little-endian numbers inside a block, what memcpy() and
    the views of a union read and write. x86 is little-endian, as the source
    assumes. No file of the repository is modelled here. *)

From S2P Require Import Prelude.

(** The number that a sequence of bytes stands for, and the [n] lowest bytes of
    a number. *)
Fixpoint le_value (bs : list Z) : Z :=
  match bs with
  | [] => 0
  | b :: bs => b + 256 * le_value bs
  end.

Fixpoint le_bytes (n : nat) (z : Z) : list Z :=
  match n with
  | O => []
  | S n => z mod 256 :: le_bytes n (z / 256)
  end.

Definition bytes_ok (bs : list Z) : Prop := Forall (in_u 8) bs.

(** Reading [n] bytes at an offset, and memcpy() to an offset; outside of the
    block both are undefined. *)
Definition read_at (n off : nat) (mem : list Z) : outcome (list Z) :=
  if (off + n <=? length mem)%nat then Ret (take n (drop off mem)) else Ub.

Definition write_at (off : nat) (bs mem : list Z) : outcome (list Z) :=
  if (off + length bs <=? length mem)%nat
  then Ret (take off mem ++ bs ++ drop (off + length bs) mem) else Ub.

(** The same for the number of [n] bytes stored there. *)
Definition load (n off : nat) (mem : list Z) : outcome Z := le_value <$> read_at n off mem.
Definition store (n off : nat) (z : Z) (mem : list Z) : outcome (list Z) := write_at off (le_bytes n z) mem.

(** * Facts *)

Lemma length_le_bytes n z : length (le_bytes n z) = n.
Proof. revert z. induction n; intros z; simpl; auto. Qed.

Lemma pow256 n : 2 ^ (8 * Z.of_nat (S n)) = 256 * 2 ^ (8 * Z.of_nat n).
Proof. replace (8 * Z.of_nat (S n)) with (8 + 8 * Z.of_nat n) by lia. rewrite Z.pow_add_r by lia. lia. Qed.

Lemma le_value_range bs : bytes_ok bs -> 0 <= le_value bs < 2 ^ (8 * len bs).
Proof.
  unfold len. induction 1 as [|b bs Hb Hbs IH]; [simpl; lia|].
  cbn [le_value length]. rewrite pow256. unfold in_u in Hb. lia.
Qed.

Lemma le_value_bytes n z : le_value (le_bytes n z) = z mod 2 ^ (8 * Z.of_nat n).
Proof.
  revert z. induction n as [|n IH]; intros z; [simpl; by rewrite Z.mod_1_r|].
  cbn [le_bytes le_value]. rewrite IH, pow256.
  assert (0 < 2 ^ (8 * Z.of_nat n)) by (apply Z.pow_pos_nonneg; lia).
  rewrite Z.rem_mul_r by lia. lia.
Qed.

Lemma le_value_bytes_small n z : 0 <= z < 2 ^ (8 * Z.of_nat n) -> le_value (le_bytes n z) = z.
Proof. intros. rewrite le_value_bytes. by apply Z.mod_small. Qed.

Lemma le_bytes_value bs : bytes_ok bs -> le_bytes (length bs) (le_value bs) = bs.
Proof.
  induction 1 as [|b bs Hb Hbs IH]; [done|]. cbn [length le_bytes le_value]. unfold in_u in Hb.
  replace ((b + 256 * le_value bs) mod 256) with b
    by (Z.div_mod_to_equations; lia).
  replace ((b + 256 * le_value bs) / 256) with (le_value bs) by (Z.div_mod_to_equations; lia).
  by rewrite IH.
Qed.

Lemma le_bytes_ok n z : bytes_ok (le_bytes n z).
Proof.
  revert z. induction n; intros z; simpl; constructor; [|by apply IHn].
  apply Z.mod_pos_bound. lia.
Qed.

Lemma read_at_ret n off mem : (off + n <= length mem)%nat -> read_at n off mem = Ret (take n (drop off mem)).
Proof. intros. unfold read_at. by rewrite (proj2 (Nat.leb_le _ _)). Qed.

Lemma write_at_ret off bs mem :
  (off + length bs <= length mem)%nat ->
  write_at off bs mem = Ret (take off mem ++ bs ++ drop (off + length bs) mem).
Proof. intros. unfold write_at. by rewrite (proj2 (Nat.leb_le _ _)). Qed.

Lemma write_at_length off bs mem mem' : write_at off bs mem = Ret mem' -> length mem' = length mem.
Proof.
  unfold write_at. destruct (Nat.leb_spec (off + length bs) (length mem)); [|done].
  intros [= <-]. rewrite !length_app, length_take, length_drop. lia.
Qed.

Lemma bytes_ok_app a b : bytes_ok (a ++ b) <-> bytes_ok a /\ bytes_ok b.
Proof. apply Forall_app. Qed.

Lemma bytes_ok_take n bs : bytes_ok bs -> bytes_ok (take n bs).
Proof. apply Forall_take. Qed.

Lemma bytes_ok_drop n bs : bytes_ok bs -> bytes_ok (drop n bs).
Proof. apply Forall_drop. Qed.

Lemma write_at_ok off bs mem mem' :
  bytes_ok bs -> bytes_ok mem -> write_at off bs mem = Ret mem' -> bytes_ok mem'.
Proof.
  unfold write_at. intros Hb Hm. destruct (_ <=? _)%nat; [|done]. intros [= <-].
  rewrite !bytes_ok_app. auto using bytes_ok_take, bytes_ok_drop.
Qed.

(** What was stored is read back, and nothing else changes. *)
Lemma read_write_same off bs mem mem' :
  write_at off bs mem = Ret mem' -> read_at (length bs) off mem' = Ret bs.
Proof.
  intros H. pose proof (write_at_length _ _ _ _ H) as Hl. unfold write_at in H.
  destruct (Nat.leb_spec (off + length bs) (length mem)); [|done]. injection H as <-.
  rewrite read_at_ret by lia. rewrite drop_app_length' by (rewrite length_take; lia).
  by rewrite take_app_length.
Qed.

Lemma load_store_same n off z mem mem' :
  store n off z mem = Ret mem' -> load n off mem' = Ret (z mod 2 ^ (8 * Z.of_nat n)).
Proof.
  unfold store, load. intros H. apply read_write_same in H. rewrite length_le_bytes in H.
  rewrite H. simpl. by rewrite le_value_bytes.
Qed.

Lemma load_ret n off mem :
  (off + n <= length mem)%nat -> bytes_ok mem ->
  exists z, load n off mem = Ret z /\ 0 <= z < 2 ^ (8 * Z.of_nat n).
Proof.
  intros Hl Hm. exists (le_value (take n (drop off mem))). unfold load. rewrite read_at_ret by done.
  split; [done|]. pose proof (le_value_range (take n (drop off mem))) as H. unfold len in H.
  rewrite length_take, length_drop in H. replace (n `min` (length mem - off))%nat with n in H by lia.
  apply H. auto using bytes_ok_take, bytes_ok_drop.
Qed.

Lemma store_ret n off z mem :
  (off + n <= length mem)%nat -> bytes_ok mem ->
  exists mem', store n off z mem = Ret mem' /\ length mem' = length mem /\ bytes_ok mem'.
Proof.
  intros Hl Hm. unfold store. eexists. rewrite write_at_ret by (rewrite length_le_bytes; lia).
  split; [done|]. rewrite length_le_bytes. split.
  - rewrite !length_app, length_take, length_drop, length_le_bytes. lia.
  - rewrite !bytes_ok_app. auto using bytes_ok_take, bytes_ok_drop, le_bytes_ok.
Qed.

Lemma bytes_ok_zero n : bytes_ok (replicate n 0).
Proof. apply Forall_replicate. unfold in_u. lia. Qed.
