(* ===== verification/Chrono.v ===== *)
(** Durations (src/framework/sandstone_chrono.cpp): parsing the times given on
    the command line and in test lists, and printing durations in the logs.
    A ShortDuration is a number of milliseconds in an int, a Duration a number
    of nanoseconds. *)

From S2P Require Import Prelude CStdlib.

(** duration_cast_overflow<ShortDuration>(): [count] units of [num]
    milliseconds each, as an int of milliseconds, [None] on overflow. *)
Definition duration_cast_overflow (num count : Z) : option Z :=
  let value := i32 count in
  if negb (value =? count) then None
  else if negb (i32 (value * num) =? value * num) then None
  else Some (value * num).

(** The milliseconds a suffix stands for. *)
Definition suffix_ms (suffix : str) : option Z :=
  if str_eqb suffix (L "ms") || str_eqb suffix [] then Some 1
  else if str_eqb suffix (L "s") then Some 1000
  else if str_eqb suffix (L "m") || str_eqb suffix (L "min") then Some (60 * 1000)
  else if str_eqb suffix (L "h") then Some (60 * 60 * 1000)
  else None.

(** string_to_millisecs(): any error prints a message and exits with
    EX_USAGE. *)
Definition string_to_millisecs (in_string : str) : outcome Z :=
  if len in_string =? 0 then Ret 0
  else
    let '(ec, value, suffix) := from_chars 32 10 in_string in
    match ec with
    | errc_ok =>
        match suffix_ms suffix with
        | Some num =>
            match duration_cast_overflow num value with
            | Some result => Ret result
            | None => Exit EX_USAGE
            end
        | None => Exit EX_USAGE
        end
    | result_out_of_range => Exit EX_USAGE
    | invalid_argument => Exit EX_USAGE
    end.

(** std::to_chars() into a buffer of [room] characters, [None] when the text
    does not fit. *)
Definition to_chars (room : Z) (value : Z) : option str :=
  let t := to_string value in
  if len t <=? room then Some t else None.

(** format_duration(): milliseconds and three digits of microseconds.  [None]
    stands for a text whose last characters are unspecified. *)
Definition format_duration (with_unit : bool) (ns : Z) : option str :=
  let us := Z.quot ns 1000 in
  let ms := Z.quot us 1000 in
  let us := us - ms * 1000 in
  let zeros := (if us <? 100 then [ "0"%char ] else []) ++ (if us <? 10 then [ "0"%char ] else []) in
  tail ← to_chars (3 - len zeros) us;
  Some (to_string ms ++ "."%char :: zeros ++ tail ++ (if with_unit then L " ms" else [])).

(** The number of microseconds a printed duration denotes. *)
Definition parse_duration (s : str) : option Z :=
  let '(ms, rest) := span (is_digit 10) s in
  match rest with
  | "."%char :: frac =>
      let '(us, unit) := span (is_digit 10) frac in
      if (len us =? 3) && (0 <? len ms)
      then Some (digits_value 10 ms * 1000 + digits_value 10 us) else None
  | _ => None
  end.

Lemma duration_cast_overflow_spec num count :
  in_s 32 count ->
  duration_cast_overflow num count =
    if bool_decide (in_s 32 (count * num)) then Some (count * num) else None.
Proof.
  intros Hc. unfold duration_cast_overflow.
  rewrite wrap_s_small, Z.eqb_refl by (done || lia). simpl.
  case_bool_decide as H.
  - by rewrite wrap_s_small, Z.eqb_refl.
  - rewrite <- wrap_s_fix in H by lia. apply Z.eqb_neq in H. by rewrite H.
Qed.

Lemma to_digits_shape z : 0 <= z < 2 ^ 128 ->
  Forall (fun c => is_digit 10 c = true) (to_digits 10 z) /\ to_digits 10 z <> [].
Proof. split; [by apply digits_fuel_digits | by apply digits_fuel_ne; lia]. Qed.

(** Reading back a number that was printed with std::to_string(). *)
Lemma from_chars_to_string z rest :
  in_s 32 z ->
  match rest with [] => True | c :: _ => is_digit 10 c = false end ->
  from_chars 32 10 (to_string z ++ rest) = (errc_ok, z, rest).
Proof.
  intros Hz Hr. unfold to_string, from_chars.
  assert (2 ^ (32 - 1) = 2147483648) as H31 by done.
  unfold in_s in Hz. rewrite H31 in Hz.
  destruct (Z.ltb_spec z 0) as [Hn|Hn]; simpl.
  - destruct (to_digits_shape (- z)) as [Hd Hne]; [lia|].
    rewrite span_all by done. destruct (to_digits 10 (- z)) eqn:E; [done|].
    rewrite <- E, to_digits_value by lia.
    rewrite bool_decide_true by (unfold in_s; lia). repeat f_equal. lia.
  - destruct (to_digits_shape z) as [Hd Hne]; [lia|].
    destruct (to_digits 10 z) as [|c t] eqn:E; [done|].
    assert (c <> "-"%char) as Hc by (intros ->; inversion Hd; done).
    transitivity (let '(ds, rst) := span (is_digit 10) ((c :: t) ++ rest) in
                  match ds with
                  | [] => (invalid_argument, 0, (c :: t) ++ rest)
                  | _ => if bool_decide (in_s 32 (digits_value 10 ds))
                         then (errc_ok, digits_value 10 ds, rst)
                         else (result_out_of_range, 0, rst)
                  end).
    { simpl. destruct c as [[] [] [] [] [] [] [] []]; try done. }
    rewrite span_all by done. rewrite <- E, to_digits_value by lia.
    by rewrite bool_decide_true by (unfold in_s; lia).
Qed.

(** The suffixes, spelled out. *)
Lemma suffix_ms_cases suffix num :
  suffix_ms suffix = Some num ->
  (suffix, num) ∈ [([], 1); (L "ms", 1); (L "s", 1000); (L "m", 60000);
                   (L "min", 60000); (L "h", 3600000)].
Proof.
  unfold suffix_ms, str_eqb. intros H.
  repeat case_bool_decide; simplify_eq/=; set_solver.
Qed.

Lemma suffix_ms_no_digit suffix num :
  suffix_ms suffix = Some num ->
  match suffix with [] => True | c :: _ => is_digit 10 c = false end.
Proof.
  intros H%suffix_ms_cases.
  repeat (apply elem_of_cons in H as [[= -> _]|H]; [done|]). by apply elem_of_nil in H.
Qed.

Lemma to_string_ne z rest : (len (to_string z ++ rest) =? 0) = false.
Proof.
  apply Z.eqb_neq. unfold to_string, len. rewrite length_app.
  assert (length (to_digits 10 z) <> 0)%nat
    by (pose proof (digits_fuel_ne 10 128 z ltac:(lia)); by destruct (to_digits 10 z) eqn:E).
  case_match; simpl; lia.
Qed.

(** A time written as an integer and one of the units of the documentation
    is that many milliseconds when they fit in an int; otherwise the program
    exits with EX_USAGE. No accepted time is wrapped around. *)
Theorem string_to_millisecs_units z suffix num :
  in_s 32 z -> suffix_ms suffix = Some num ->
  string_to_millisecs (to_string z ++ suffix) =
    if bool_decide (in_s 32 (z * num)) then Ret (z * num) else Exit EX_USAGE.
Proof.
  intros Hz Hs. unfold string_to_millisecs.
  pose proof (suffix_ms_no_digit _ _ Hs).
  rewrite to_string_ne, from_chars_to_string, Hs by done.
  rewrite duration_cast_overflow_spec by done. by case_bool_decide.
Qed.

Lemma string_to_millisecs_units_witness :
  string_to_millisecs (L "90min") = Ret 5400000 /\ string_to_millisecs (L "36000min") = Exit EX_USAGE.
Proof.
  split.
  - exact (string_to_millisecs_units 90 (L "min") 60000 ltac:(by vm_compute) eq_refl).
  - exact (string_to_millisecs_units 36000 (L "min") 60000 ltac:(by vm_compute) eq_refl).
Defined.

Lemma to_string_nonneg z : 0 <= z -> to_string z = to_digits 10 z.
Proof. intros. unfold to_string. by zcases; [lia|]. Qed.

(** The microseconds printed with leading zeros. *)
Lemma three_digits us :
  0 <= us < 1000 ->
  exists tail,
    to_chars (3 - len ((if us <? 100 then [ "0"%char ] else []) ++ (if us <? 10 then [ "0"%char ] else []))) us
      = Some tail /\
    let ds := ((if us <? 100 then [ "0"%char ] else []) ++ (if us <? 10 then [ "0"%char ] else [])) ++ tail in
    len ds = 3 /\ digits_value 10 ds = us /\ Forall (fun c => is_digit 10 c = true) ds.
Proof.
  intros Hus.
  set (ok := fun us => match to_chars (3 - len ((if us <? 100 then [ "0"%char ] else []) ++ (if us <? 10 then [ "0"%char ] else []))) us with
     | Some tail => let ds := ((if us <? 100 then [ "0"%char ] else []) ++ (if us <? 10 then [ "0"%char ] else [])) ++ tail in
        (len ds =? 3) && (digits_value 10 ds =? us) && forallb (is_digit 10) ds
     | None => false end).
  assert (ok us = true) as Hall by (apply (forallb_range _ 0 1000); [vm_compute; done|lia]).
  unfold ok in Hall.
  case_match; [|done]. exists l. split; [done|].
  apply andb_prop in Hall as [[H1 H2]%andb_prop H3].
  apply Z.eqb_eq in H1, H2. repeat split; [done..|].
  apply Forall_forall. intros x Hx. rewrite forallb_forall in H3. apply H3.
  by apply list_elem_of_In.
Qed.

Lemma format_duration_ret with_unit ns : 0 <= ns -> exists s, format_duration with_unit ns = Some s.
Proof.
  intros Hns. unfold format_duration. rewrite (Z.quot_div_nonneg ns 1000), (Z.quot_div_nonneg (ns / 1000) 1000) by (try apply Z.div_pos; lia).
  destruct (three_digits (ns / 1000 - ns / 1000 / 1000 * 1000)) as (tail & Ht & _); [Z.div_mod_to_equations; lia|].
  rewrite Ht. by eexists.
Qed.

(** Printing a non-negative duration always succeeds and prints exactly its
    whole number of microseconds, as milliseconds and three digits. *)
Theorem format_duration_roundtrip with_unit ns :
  0 <= ns < 2 ^ 64 ->
  exists s, format_duration with_unit ns = Some s /\ parse_duration s = Some (ns / 1000).
Proof.
  intros Hns. unfold format_duration.
  rewrite (Z.quot_div_nonneg ns 1000) by lia.
  assert (0 <= ns / 1000 < 2 ^ 64) as Hu by
    (split; [apply Z.div_pos; lia | apply Z.div_lt_upper_bound; lia]).
  rewrite Z.quot_div_nonneg by lia.
  set (us := ns / 1000) in *. pose proof (Z_div_mod_eq_full us 1000) as Hdm.
  pose proof (Z.mod_pos_bound us 1000 ltac:(lia)) as Hm.
  replace (us - us / 1000 * 1000) with (us mod 1000) by lia.
  destruct (three_digits (us mod 1000)) as (tail & Ht & Hl & Hv & Hd); [lia|].
  rewrite Ht. simpl. eexists. split; [done|].
  assert (0 <= us / 1000 < 2 ^ 128) as Hms by
    (split; [apply Z.div_pos; lia | apply Z.div_lt_upper_bound; lia]).
  destruct (to_digits_shape (us / 1000) Hms) as [Hd' Hne].
  unfold parse_duration. rewrite to_string_nonneg by lia.
  rewrite span_all by done. rewrite app_assoc, span_all; [|done|by destruct with_unit].
  rewrite Hl, Hv, to_digits_value by lia.
  replace (0 <? len (to_digits 10 (us / 1000))) with true.
  { simpl. f_equal. lia. }
  symmetry. apply Z.ltb_lt. unfold len. destruct (to_digits 10 (us / 1000)); [done|simpl; lia].
Qed.

Lemma format_duration_roundtrip_witness :
  (exists s, format_duration true 1234567 = Some s /\ parse_duration s = Some 1234) /\
  format_duration true 1234567 = Some (L "1.234 ms").
Proof. split; [apply (format_duration_roundtrip true 1234567); lia | done]. Defined.
