(* ===== verification/Results.v ===== *)
(** Test results and process exit statuses (src/framework/sandstone_p.h,
    sandstone.cpp and logging.cpp): how a child process reports the result of a
    test through its exit status, how the parent reads it back, and how the
    results of several children are combined. *)

From S2P Require Import Prelude.

(** enum class TestResult *)
Inductive TestResult :=
| Skipped | Passed | Failed | Killed | CoreDumped
| OperatingSystemError | OutOfMemory | TimedOut | Interrupted.

#[export] Instance TestResult_eq_dec : EqDecision TestResult.
Proof. solve_decision. Defined.

(** The enumerators' values: the order of severity. *)
Definition result_value (r : TestResult) : Z :=
  match r with
  | Skipped => -1 | Passed => 0 | Failed => 1 | Killed => 2 | CoreDumped => 3
  | OperatingSystemError => 4 | OutOfMemory => 5 | TimedOut => 6 | Interrupted => 7
  end.

Definition result_ltb (a b : TestResult) : bool := result_value a <? result_value b.

(** struct rusage; the times in microseconds. *)
Record rusage := {
  ru_utime : Z; ru_stime : Z; ru_maxrss : Z; ru_majflt : Z; ru_minflt : Z; ru_nvcsw : Z; ru_nivcsw : Z;
}.
Definition rusage0 : rusage :=
  {| ru_utime := 0; ru_stime := 0; ru_maxrss := 0; ru_majflt := 0; ru_minflt := 0; ru_nvcsw := 0; ru_nivcsw := 0 |}.

(** struct ChildExitStatus; [endtime] 0 is the default-constructed time
    point. *)
Record ChildExitStatus := {
  result : TestResult;
  extra : Z;
  endtime : Z;
  usage : rusage;
}.

Definition exit_status_of (r : TestResult) : ChildExitStatus :=
  {| result := r; extra := 0; endtime := 0; usage := rusage0 |}.

(** test_result_to_exit_code(): tests only produce the first three results. *)
Definition test_result_to_exit_code (r : TestResult) : outcome Z :=
  match r with
  | Passed => Ret EXIT_SUCCESS
  | Skipped => Ret (-1)
  | Failed => Ret EXIT_FAILURE
  | OperatingSystemError | Killed | CoreDumped | OutOfMemory | TimedOut | Interrupted => Ub
  end.

Inductive ChildCode := CLD_EXITED | CLD_KILLED | CLD_DUMPED | CLD_STOPPED.
#[export] Instance ChildCode_eq_dec : EqDecision ChildCode.
Proof. solve_decision. Defined.

(** struct forkfd_info: how the child ended, and its exit status or the signal
    that ended it. *)
Record forkfd_info := { fi_code : ChildCode; fi_status : Z }.

Definition SIGKILL : Z := 9.
Definition SIGQUIT : Z := 3.
Definition SIGINT : Z := 2.

(** test_result_from_exit_code(), the Unix version. *)
Definition test_result_from_exit_code (info : forkfd_info) : outcome ChildExitStatus :=
  let r res ex := {| result := res; extra := ex; endtime := 0; usage := rusage0 |} in
  match fi_code info with
  | CLD_EXITED =>
      let status := i8 (fi_status info) in
      if status =? -1 then Ret (r Skipped 0)
      else if status =? EXIT_SUCCESS then Ret (r Passed 0)
      else if status =? EXIT_FAILURE then Ret (r Failed 0)
      else Ret (r OperatingSystemError (u32 (fi_status info)))
  | CLD_KILLED | CLD_DUMPED =>
      let res := if decide (fi_code info = CLD_KILLED) then Killed else CoreDumped in
      let res := if fi_status info =? SIGKILL then OutOfMemory
                 else if fi_status info =? SIGQUIT then TimedOut else res in
      Ret (r res (u32 (fi_status info)))
  | CLD_STOPPED => Ub
  end.

Definition EXIT_TIMEOUT : Z := 2.
Definition STATUS_FAIL_FAST_EXCEPTION : Z := 3221226498.   (* 0xc0000602 *)

(** The Windows version; [status] is a DWORD. *)
Definition test_result_from_exit_code_win32 (status : Z) : ChildExitStatus :=
  let r res ex := {| result := res; extra := ex; endtime := 0; usage := rusage0 |} in
  if status =? u32 (-1) then r Skipped 0
  else if status =? EXIT_SUCCESS then r Passed 0
  else if status =? EXIT_FAILURE then r Failed 0
  else if status =? EXIT_TIMEOUT then r TimedOut 0
  else if status =? 3 then r Killed STATUS_FAIL_FAST_EXCEPTION
  else if 255 <? status then r Killed status
  else r OperatingSystemError status.

(** std::max_element() with the comparator on the result field: the first of
    the largest elements. *)
Fixpoint max_element (largest : ChildExitStatus) (l : list ChildExitStatus) : ChildExitStatus :=
  match l with
  | [] => largest
  | s :: l => max_element (if result_ltb (result largest) (result s) then s else largest) l
  end.

(** find_most_serious_result(): dereferences the end iterator of an empty
    span. *)
Definition find_most_serious_result (results : list ChildExitStatus) : outcome ChildExitStatus :=
  match results with
  | [] => Ub
  | s :: l => Ret (max_element s l)
  end.

(** What the kernel reports of a process that called exit(status), and the
    exit code of a Windows process that did. *)
Definition wait_status (status : Z) : forkfd_info := {| fi_code := CLD_EXITED; fi_status := u8 status |}.
Definition win32_exit_code (status : Z) : Z := u32 status.

(** * Facts *)

Lemma max_element_in s l : max_element s l = s \/ max_element s l ∈ l.
Proof.
  revert s. induction l as [|x l IH]; intros s; simpl; [by left|].
  destruct (IH (if result_ltb (result s) (result x) then x else s)) as [H|H]; rewrite H || idtac.
  - case_match; [right; left | by left].
  - right. by apply elem_of_cons; right.
Qed.

Lemma max_element_ge s l :
  result_value (result s) <= result_value (result (max_element s l)) /\
  Forall (fun x => result_value (result x) <= result_value (result (max_element s l))) l.
Proof.
  revert s. induction l as [|x l IH]; intros s; simpl; [split; [lia|constructor]|].
  unfold result_ltb. destruct (Z.ltb_spec (result_value (result s)) (result_value (result x)));
    destruct (IH x), (IH s); split; try constructor; try done; lia.
Qed.

Lemma result_value_inj : Inj eq eq result_value.
Proof. intros [] []; done. Qed.

Lemma i8_u8_zero status : i8 status = 0 <-> u8 status = 0.
Proof.
  rewrite <- wrap_s_u by lia. pose proof (wrap_u_range 8 ltac:(lia) status) as Hr.
  unfold in_u, wrap_s in *. change (2 ^ (8 - 1)) with 128 in *. change (2 ^ 8) with 256 in *.
  split; [|by intros ->]. intros H.
  assert (0 <= u8 status < 128 \/ 128 <= u8 status < 256) as [?|?] by lia.
  - rewrite Z.mod_small in H; lia.
  - rewrite <- (Z.mod_unique_pos _ 256 1 (u8 status + 128 - 256)) in H; lia.
Qed.

(** What a test reports through the exit status of its child process is
    what the parent reads back, on Unix and on Windows. *)
Theorem exit_code_roundtrip r :
  r ∈ [Skipped; Passed; Failed] ->
  exists status,
    test_result_to_exit_code r = Ret status /\
    test_result_from_exit_code (wait_status status) = Ret (exit_status_of r) /\
    test_result_from_exit_code_win32 (win32_exit_code status) = exit_status_of r.
Proof.
  intros H. repeat (apply elem_of_cons in H as [->|H]; [eexists; repeat split; vm_compute; done|]).
  by apply elem_of_nil in H.
Qed.

Lemma exit_code_roundtrip_witness :
  exists status, test_result_to_exit_code Skipped = Ret status /\
    test_result_from_exit_code (wait_status status) = Ret (exit_status_of Skipped) /\
    test_result_from_exit_code_win32 (win32_exit_code status) = exit_status_of Skipped.
Proof. apply (exit_code_roundtrip Skipped). set_solver. Defined.

(** The parent never reads a pass out of an abnormal end: a child is
    reported as passed exactly when it exited with status 0 (in its low byte),
    and a child that was ended by a signal is reported as killed, core dumped,
    out of memory or timed out. *)
Theorem passed_only_on_success info s :
  test_result_from_exit_code info = Ret s ->
  (result s = Passed <-> fi_code info = CLD_EXITED /\ u8 (fi_status info) = 0) /\
  (fi_code info = CLD_KILLED \/ fi_code info = CLD_DUMPED ->
   result s ∈ [Killed; CoreDumped; OutOfMemory; TimedOut]).
Proof.
  destruct info as [code status]. unfold test_result_from_exit_code; simpl.
    unfold EXIT_SUCCESS, EXIT_FAILURE.
  destruct code; intros H; simpl in H; zcases; simplify_eq; simpl;
    (split; [split; [|intros [? Hs]]|intros [?|?]]); try done; try set_solver;
    try (intros _; split; [done|]); try (rewrite <- i8_u8_zero in Hs); try apply i8_u8_zero; lia.
Qed.

Lemma passed_only_on_success_witness :
  (Failed = Passed <-> CLD_EXITED = CLD_EXITED /\ u8 1 = 0) /\
  (CLD_EXITED = CLD_KILLED \/ CLD_EXITED = CLD_DUMPED ->
   Failed ∈ [Killed; CoreDumped; OutOfMemory; TimedOut]).
Proof.
  exact (passed_only_on_success {| fi_code := CLD_EXITED; fi_status := 1 |} (exit_status_of Failed) eq_refl).
Defined.

(** The most serious result is one of the children's, and no child's is more
    serious. *)
Lemma most_serious_spec l s :
  find_most_serious_result l = Ret s ->
  s ∈ l /\ forall x, x ∈ l -> result_value (result x) <= result_value (result s).
Proof.
  destruct l as [|x l]; intros [= <-]. split.
  - destruct (max_element_in x l) as [->|]; set_solver.
  - intros y Hy. destruct (max_element_ge x l) as [? Hl].
    apply elem_of_cons in Hy as [->|Hy]; [done|]. by eapply Forall_forall in Hl.
Qed.
