(* ===== verification/ThreadData.v ===== *)
(** The per-thread data shared between the processes (namespace PerThreadData
    of src/framework/sandstone_p.h, logging_mark_thread_failed() of
    logging.cpp): one block per slice for its control ("main") thread and one
    block per logical processor for its test thread. *)

From S2P Require Import Prelude Results.

(** enum ThreadState *)
Inductive ThreadState :=
| thread_not_started | thread_running | thread_failed
| thread_debugged | thread_succeeded | thread_skipped.

#[export] Instance ThreadState_eq_dec : EqDecision ThreadState.
Proof. solve_decision. Defined.

(** MonotonicTimePoint::max(): a signed 64-bit count of nanoseconds. *)
Definition time_max : Z := 2 ^ 63 - 1.

(** struct PerThreadData::Common. The field [log_fd] holds what the file
    behind the descriptor contains. *)
Record Common := {
  thread_state : ThreadState;
  log_fd : str;
  messages_logged : Z;
  data_bytes_logged : Z;
  fail_time : Z;
}.

(** struct PerThreadData::Test, less the measured frequency. *)
Record Test := {
  t_common : Common;
  inner_loop_count : Z;
  inner_loop_count_at_fail : Z;
  tid : Z;
}.

(** struct CpuRange *)
Record CpuRange := { starting_cpu : Z; cpu_count : Z }.

#[export] Instance CpuRange_eq_dec : EqDecision CpuRange.
Proof. solve_decision. Defined.

(** struct PerThreadData::Main *)
Record Main := { m_common : Common; cpu_range : CpuRange }.

(** The two arrays of per-thread data a process sees. *)
Record Shm := { mains : list Main; tests : list Test }.

Definition has_failed (c : Common) : bool := fail_time c <? time_max.

(** Common::init(): the log file and its descriptor stay. *)
Definition Common_init (c : Common) : Common :=
  {| thread_state := thread_not_started; log_fd := log_fd c;
     messages_logged := 0; data_bytes_logged := 0; fail_time := time_max |}.

Definition Test_init (t : Test) : Test :=
  {| t_common := Common_init (t_common t); inner_loop_count := 0;
     inner_loop_count_at_fail := 0; tid := tid t |}.

Definition Main_init (m : Main) : Main :=
  {| m_common := Common_init (m_common m); cpu_range := cpu_range m |}.

(** init_per_thread_data() of sandstone.cpp. *)
Definition init_per_thread_data (s : Shm) : Shm :=
  {| mains := map Main_init (mains s); tests := map Test_init (tests s) |}.

(** thread_data(thread): negative numbers are the main threads. *)
Definition thread_data (thread : Z) (s : Shm) : outcome Common :=
  if thread <? 0
  then of_option (m_common <$> mains s !! Z.to_nat (- thread - 1))
  else of_option (t_common <$> tests s !! Z.to_nat thread).

(** Writing through the pointer [thread_data] returns. *)
Definition set_t_common (f : Common -> Common) (t : Test) : Test :=
  {| t_common := f (t_common t); inner_loop_count := inner_loop_count t;
     inner_loop_count_at_fail := inner_loop_count_at_fail t; tid := tid t |}.
Definition set_m_common (f : Common -> Common) (m : Main) : Main :=
  {| m_common := f (m_common m); cpu_range := cpu_range m |}.

Definition update_thread (thread : Z) (f : Common -> Common) (s : Shm) : outcome Shm :=
  _ ← thread_data thread s;
  Ret (if thread <? 0
       then {| mains := alter (set_m_common f) (Z.to_nat (- thread - 1)) (mains s); tests := tests s |}
       else {| mains := mains s; tests := alter (set_t_common f) (Z.to_nat thread) (tests s) |}).

Definition set_fail_time (t : Z) (c : Common) : Common :=
  {| thread_state := thread_state c; log_fd := log_fd c;
     messages_logged := messages_logged c; data_bytes_logged := data_bytes_logged c;
     fail_time := t |}.

Definition set_thread_state (st : ThreadState) (c : Common) : Common :=
  {| thread_state := st; log_fd := log_fd c;
     messages_logged := messages_logged c; data_bytes_logged := data_bytes_logged c;
     fail_time := fail_time c |}.

Definition record_fail_loop (t : Test) : Test :=
  {| t_common := t_common t; inner_loop_count := inner_loop_count t;
     inner_loop_count_at_fail := inner_loop_count t; tid := tid t |}.

(** logging_mark_thread_failed(): the first failure is the one recorded;
    [now] is what the clock reads. *)
Definition logging_mark_thread_failed (now : Z) (thread : Z) (s : Shm) : outcome Shm :=
  c ← thread_data thread s;
  if has_failed c then Ret s
  else
    s ← update_thread thread (set_fail_time now) s;
    Ret (if 0 <=? thread
         then {| mains := mains s; tests := alter record_fail_loop (Z.to_nat thread) (tests s) |}
         else s).

(** for_each_main_thread() in the main process, for_each_test_thread(): the
    blocks visited, with the thread number passed to the function. *)
Definition main_threads (max_slices : Z) (s : Shm) : list (Common * Z) :=
  imap (fun i m => (m_common m, -1 - Z.of_nat i)) (take (Z.to_nat max_slices) (mains s)).
Definition test_threads (s : Shm) : list (Common * Z) :=
  imap (fun i t => (t_common t, Z.of_nat i)) (tests s).

(** * Facts *)

Definition valid_thread (thread : Z) (s : Shm) : Prop :=
  - len (mains s) <= thread < len (tests s).

Lemma thread_data_valid thread s :
  valid_thread thread s <-> exists c, thread_data thread s = Ret c.
Proof.
  unfold valid_thread, thread_data, len. destruct (Z.ltb_spec thread 0).
  - destruct (mains s !! Z.to_nat (- thread - 1)) eqn:E; simpl.
    + apply lookup_lt_Some in E. split; [eauto|]. lia.
    + apply lookup_ge_None in E. split; [lia|by intros []].
  - destruct (tests s !! Z.to_nat thread) eqn:E; simpl.
    + apply lookup_lt_Some in E. split; [eauto|]. lia.
    + apply lookup_ge_None in E. split; [lia|by intros []].
Qed.

Lemma update_thread_ret thread f s c :
  thread_data thread s = Ret c -> exists s', update_thread thread f s = Ret s'.
Proof. unfold update_thread. intros ->. simpl. eauto. Qed.

(** Reading back a block that was written, and any other block. *)
Lemma thread_data_update thread thread' f s s' :
  update_thread thread f s = Ret s' ->
  thread_data thread' s' = if decide (thread' = thread) then f <$> thread_data thread s else thread_data thread' s.
Proof.
  unfold update_thread. intros H. inv_ret. unfold thread_data in *.
  case_decide as Ht; [subst|].
  - destruct (Z.ltb_spec thread 0); simpl; rewrite list_lookup_alter_eq.
    + by destruct (mains s !! _).
    + by destruct (tests s !! _).
  - destruct (Z.ltb_spec thread 0), (Z.ltb_spec thread' 0); simpl; try done;
      rewrite list_lookup_alter_ne; try done; lia.
Qed.

Lemma mark_failed_data now thread s c :
  thread_data thread s = Ret c ->
  exists s', logging_mark_thread_failed now thread s = Ret s' /\
    thread_data thread s' = Ret (if has_failed c then c else set_fail_time now c) /\
    (forall t, t <> thread -> thread_data t s' = thread_data t s).
Proof.
  intros Hc. unfold logging_mark_thread_failed. rewrite Hc. simpl.
  destruct (has_failed c) eqn:Hf; [by exists s|].
  destruct (update_thread_ret thread (set_fail_time now) s c Hc) as [s1 H1].
  rewrite H1. simpl. eexists. split; [done|].
  pose proof (fun t => thread_data_update thread t _ _ _ H1) as Hu.
  set (s2 := if 0 <=? thread then _ else s1).
  assert (forall t, thread_data t s2 = thread_data t s1) as Hs.
  { intros t. unfold s2, thread_data. destruct (Z.leb_spec 0 thread); [|done]. simpl.
    case_match; [done|]. rewrite list_lookup_alter. case_decide as Heq; [|done].
    rewrite <- Heq. by destruct (tests s1 !! _). }
  split.
  - by rewrite Hs, Hu, decide_True, Hc.
  - intros t Ht. by rewrite Hs, Hu, decide_False.
Qed.

(** Marking a thread as failed is idempotent in what it records: the
    thread has failed afterwards, a thread that had already failed keeps the
    time of its first failure, and no other thread changes. *)
Theorem mark_thread_failed_spec now thread s c :
  thread_data thread s = Ret c -> now < time_max ->
  exists s', logging_mark_thread_failed now thread s = Ret s' /\
    (exists c', thread_data thread s' = Ret c' /\ has_failed c' = true /\
       fail_time c' = (if has_failed c then fail_time c else now)) /\
    (forall t, t <> thread -> thread_data t s' = thread_data t s).
Proof.
  intros Hc Hnow. destruct (mark_failed_data now thread s c Hc) as (s' & Hs & Hd & Ho).
  exists s'. split; [done|]. split; [|done]. eexists. split; [done|].
  destruct (has_failed c) eqn:Hf; [done|]. split; [|done]. unfold has_failed. simpl. by apply Z.ltb_lt.
Qed.

Definition idle_common : Common :=
  {| thread_state := thread_not_started; log_fd := []; messages_logged := 0;
     data_bytes_logged := 0; fail_time := time_max |}.
Definition idle_test : Test :=
  {| t_common := idle_common; inner_loop_count := 0; inner_loop_count_at_fail := 0; tid := 0 |}.
Definition idle_shm (nmain ntest : nat) : Shm :=
  {| mains := replicate nmain {| m_common := idle_common; cpu_range := {| starting_cpu := 0; cpu_count := Z.of_nat ntest |} |};
     tests := replicate ntest idle_test |}.

Lemma mark_thread_failed_spec_witness :
  exists s', logging_mark_thread_failed 5 1 (idle_shm 1 2) = Ret s' /\
    (exists c', thread_data 1 s' = Ret c' /\ has_failed c' = true /\ fail_time c' = 5) /\
    (forall t, t <> 1 -> thread_data t s' = thread_data t (idle_shm 1 2)).
Proof. apply (mark_thread_failed_spec 5 1 (idle_shm 1 2) idle_common); [vm_compute; done|done]. Defined.
