(* ===== verification/Logging.v ===== *)
(** The log of a test thread (src/framework/logging.cpp): every thread writes
    its messages to a file of its own, each as a code byte, the text and a NUL;
    the main process reads the files back when the test has ended and prints
    them. Modelled here are the writers (messages, skip messages, data dumps,
    data mismatch reports, with their limits), the readers, and the scan of
    the threads that decides the result of the test. *)

From S2P Require Import Prelude CStdlib Results ThreadData.

(** * Configuration *)

Inductive OutputFormat := no_output | tap | key_value | yaml.
#[export] Instance OutputFormat_eq_dec : EqDecision OutputFormat.
Proof. solve_decision. Defined.

(** The logging parameters of the shared memory block and of the build. *)
Record LogCfg := {
  NoLogging : bool;
  Debug : bool;
  output_format : OutputFormat;
  output_yaml_indent : Z;
  max_messages_per_thread : Z;
  max_logdata_per_thread : Z;
  log_test_knobs : bool;
  fatal_skips : bool;
}.

Definition current_output_format (cfg : LogCfg) : OutputFormat :=
  if NoLogging cfg then no_output else output_format cfg.

Definition spaces (n : Z) : str := replicate (Z.to_nat n) " "%char.

Definition indent_spaces (cfg : LogCfg) : str :=
  match current_output_format cfg with
  | no_output => []
  | _ => spaces (output_yaml_indent cfg)
  end.

Definition newline : ascii := "010"%char.
Definition tab : ascii := "009"%char.
Definition NUL : ascii := "000"%char.
Definition quote : ascii := "'"%char.

(** * Message codes *)

Inductive LogTypes := UserMessages | Preformatted | UsedKnobValue | SkipMessages.
#[export] Instance LogTypes_eq_dec : EqDecision LogTypes.
Proof. solve_decision. Defined.

Definition LogTypes_value (t : LogTypes) : Z :=
  match t with UserMessages => 0 | Preformatted => 1 | UsedKnobValue => 2 | SkipMessages => 3 end.

Definition message_code (t : LogTypes) (level : Z) : Z :=
  u8 (Z.lor (Z.shiftl (LogTypes_value t + 1) 4) (Z.land level 15)).

(** A byte that is no message code casts to a value outside the enumeration,
    which no switch over it handles. *)
Definition log_type_from_code (code : Z) : option LogTypes :=
  match Z.shiftr code 4 - 1 with
  | 0 => Some UserMessages
  | 1 => Some Preformatted
  | 2 => Some UsedKnobValue
  | 3 => Some SkipMessages
  | _ => None
  end.

Definition level_from_code (code : Z) : Z := Z.land code 15.

Definition LOG_LEVEL_QUIET : Z := 0.
Definition LOG_LEVEL_VERBOSE (n : Z) : Z := n.

(** status_level(): the verbosity a message of this kind is printed at. *)
Definition status_level (letter : ascii) : Z :=
  match letter with
  | "E"%char => LOG_LEVEL_QUIET
  | "W"%char => LOG_LEVEL_VERBOSE 1
  | "I"%char => LOG_LEVEL_VERBOSE 2
  | "d"%char => LOG_LEVEL_VERBOSE 3
  | _ => 2
  end.

(** * Writing messages *)

Definition append_log (bytes : str) (c : Common) : Common :=
  {| thread_state := thread_state c; log_fd := log_fd c ++ bytes;
     messages_logged := i32 (messages_logged c + 1);
     data_bytes_logged := data_bytes_logged c; fail_time := fail_time c |}.

Definition add_data_bytes (n : Z) (c : Common) : Common :=
  {| thread_state := thread_state c; log_fd := log_fd c;
     messages_logged := messages_logged c;
     data_bytes_logged := u32 (data_bytes_logged c + n); fail_time := fail_time c |}.

(** One message as it lies in the file. *)
Definition encode_message (t : LogTypes) (level : Z) (msg : str) : str :=
  char_of (message_code t level) :: msg ++ [NUL].

Arguments encode_message : simpl never.

Definition log_message_for_thread (thread : Z) (t : LogTypes) (level : Z) (msg : str) (s : Shm) : outcome Shm :=
  update_thread thread (append_log (encode_message t level msg)) s.

(** create_filtered_message_string() applied to an already formatted text;
    char is signed. *)
Definition filter_char (c : ascii) : ascii :=
  if (i8 (code c) <? 32) || (126 <? i8 (code c))
  then if negb (char_eqb c newline) && negb (char_eqb c tab) then "?"%char else c
  else c.
Definition create_filtered_message_string (text : str) : str := map filter_char text.

(** msg[msg.size() - 1] == '\n' followed by dropping it; reading the last
    character of an empty text is undefined. *)
Definition strip_newline (msg : str) : outcome str :=
  c ← of_option (last msg);
  Ret (if char_eqb c newline then take (length msg - 1) msg else msg).

(** log_message_preformatted(int, int, string_view) *)
Definition log_message_preformatted_level (cfg : LogCfg) (thread level : Z) (msg : str) (s : Shm) : outcome Shm :=
  match current_output_format cfg with
  | no_output => Ret s
  | _ =>
      c ← thread_data thread s;
      if max_messages_per_thread cfg <=? messages_logged c then Ret s
      else msg ← strip_newline msg;
           log_message_for_thread thread UserMessages level msg s
  end.

(** log_message_preformatted(int, string_view): an error message marks the
    thread as failed. *)
Definition log_message_preformatted (cfg : LogCfg) (now thread : Z) (msg : str) (s : Shm) : outcome Shm :=
  c ← of_option (head msg);
  let level := status_level c in
  s ← (if char_eqb c "E" then logging_mark_thread_failed now thread s else Ret s);
  log_message_preformatted_level cfg thread level msg s.

(** assert_log_message() *)
Definition assert_log_message (fmt : str) : bool :=
  match fmt with
  | k :: ">"%char :: " "%char :: _ =>
      char_eqb k "d" || char_eqb k "I" || char_eqb k "W" || char_eqb k "E"
  | _ => false
  end.

(** log_message(): [text] is the message after formatting, which starts with
    the same three characters as the format. *)
Definition log_message (cfg : LogCfg) (now thread : Z) (text : str) (s : Shm) : outcome Shm :=
  match current_output_format cfg with
  | no_output => Ret s
  | _ =>
      _ ← assertion (assert_log_message text);
      if negb (Debug cfg) && bool_decide (head text = Some "d"%char) then Ret s
      else log_message_preformatted cfg now thread (create_filtered_message_string text) s
  end.

(** log_platform_message(): always for the main thread. *)
Definition log_platform_message (cfg : LogCfg) (now : Z) (text : str) (s : Shm) : outcome Shm :=
  match current_output_format cfg with
  | no_output => Ret s
  | _ =>
      _ ← assertion (assert_log_message text);
      if negb (Debug cfg) && bool_decide (head text = Some "d"%char) then Ret s
      else
        let msg := create_filtered_message_string text in
        log_message_preformatted cfg now (-1) (take 3 msg ++ L "Platform issue: " ++ drop 3 msg) s
  end.

(** log_message_skip(): the category is the first byte of the text; these
    messages are not limited in number. *)
Definition log_message_skip (cfg : LogCfg) (thread category : Z) (text : str) (s : Shm) : outcome Shm :=
  match current_output_format cfg with
  | no_output => Ret s
  | _ =>
      msg ← strip_newline (char_of category :: create_filtered_message_string text);
      log_message_for_thread thread SkipMessages (LOG_LEVEL_VERBOSE 1) msg s
  end.

(** * Escaping *)

(** string_view::find(c, from) *)
Definition find_from (c : ascii) (from : nat) (s : str) : option nat :=
  (fun n => (from + n)%nat) <$> (fst <$> list_find (fun x => x = c) (drop from s)).

(** The loop of escape_for_single_line(); every iteration but possibly the
    first shortens the message. *)
Fixpoint escape_loop (fuel : nat) (storage message : str) (pos : option nat) : option str :=
  match pos with
  | None => Some (storage ++ message)
  | Some p =>
      match fuel with
      | O => None
      | S fuel =>
          let storage := storage ++ take (p + 1) message in
          let message := drop p message in
          escape_loop fuel storage message (find_from quote 1 message)
      end
  end.

(** escape_for_single_line(): a message of n characters has at most n
    apostrophes, so n iterations are enough. *)
Definition escape_for_single_line (message : str) : option str :=
  escape_loop (length message) [] message (find_from quote 0 message).

(** What it computes: every apostrophe doubled. *)
Definition double_quotes (message : str) : str :=
  message ≫= (fun c => if char_eqb c quote then [c; c] else [c]).

(** And a reader of YAML single-quoted scalars. *)
Fixpoint unescape (s : str) : str :=
  match s with
  | "'"%char :: "'"%char :: s => quote :: unescape s
  | c :: s => c :: unescape s
  | [] => []
  end.

(** * Reading the messages back *)

(** One iteration of the loops of get_skip_message() and
    print_one_thread_messages(): the bytes up to the next NUL, split into the
    code and the text, and what follows. [None] ends the loop. *)
Definition next_message (bytes : str) : option (Z * str * str) :=
  match span (fun c => negb (char_eqb c NUL)) bytes with
  | (c :: msg, _ :: rest) => Some (code c, msg, rest)
  | ([], _ :: rest) => Some (0, [], rest)
  | _ => None
  end.

Fixpoint read_messages_fuel (fuel : nat) (bytes : str) : list (Z * str) :=
  match fuel with
  | O => []
  | S fuel =>
      match next_message bytes with
      | Some (code, msg, rest) => (code, msg) :: read_messages_fuel fuel rest
      | None => []
      end
  end.

(** The messages of a log file, in order; every one takes at least a byte. *)
Definition read_messages (bytes : str) : list (Z * str) :=
  read_messages_fuel (length bytes) bytes.

(** get_skip_message(): the text of the first skip message, with its category
    byte, or nothing. *)
Definition get_skip_message (bytes : str) : str :=
  match filter (fun m => log_type_from_code m.1 = Some SkipMessages) (read_messages bytes) with
  | (_, msg) :: _ => msg
  | [] => []
  end.

(** format_skip_message(): substr(1) throws on an empty text. *)
Definition format_skip_message (msg : str) : outcome str :=
  match msg with [] => Ub | _ :: m => Ret m end.

(** The lines of a text, and print_content_indented(). *)
Fixpoint split_lines (cur : str) (s : str) : list str :=
  match s with
  | [] => [reverse cur]
  | c :: s => if char_eqb c newline then reverse cur :: split_lines [] s else split_lines (c :: cur) s
  end.

Definition print_content_indented (cfg : LogCfg) (indent content : str) : str :=
  split_lines [] content ≫= (fun line => indent_spaces cfg ++ indent ++ line ++ [newline]).

Definition print_content_single_line (before message after : str) : option str :=
  escaped ← escape_for_single_line message;
  Some (before ++ escaped ++ after ++ [newline]).

(** AbstractLogger::format_and_print_message() *)
Definition format_and_print_message (cfg : LogCfg) (message : str) (from_thread_message : bool) : option str :=
  if bool_decide (newline ∈ message) then
    Some ((if from_thread_message then L "  - |" ++ [newline]
           else [newline] ++ indent_spaces cfg ++ L " - |" ++ [newline])
          ++ print_content_indented cfg (L "    ") message)
  else if from_thread_message then print_content_single_line (L "   - '") message [quote]
  else print_content_single_line [quote] message [quote].

Definition knobs_notice : str := L "# One or more tests used test options. Logging only in YAML." ++ [newline].

(** AbstractLogger::print_one_thread_messages(): what it prints for the
    messages at or below [level], and the lowest level it printed. The notice
    about test options is printed once per process, [warned] being its static
    flag; it also goes to the standard output when that is another file. *)
Fixpoint print_messages (cfg : LogCfg) (skipInMainThread : bool) (level : Z)
    (msgs : list (Z * str)) (out : str) (lowest_level : Z) (warned : bool) : outcome (str * Z * bool) :=
  match msgs with
  | [] => Ret (out, lowest_level, warned)
  | (code, message) :: msgs =>
      let message_level := level_from_code code in
      let go := print_messages cfg skipInMainThread level msgs in
      if level <? message_level then go out lowest_level warned
      else
        let lowest := if message_level <? lowest_level then message_level else lowest_level in
        match log_type_from_code code with
        | Some UserMessages =>
            text ← of_option (format_and_print_message cfg message true);
            go (out ++ text) lowest warned
        | Some Preformatted => go (out ++ message) lowest warned
        | Some SkipMessages =>
            if skipInMainThread then go out lowest warned
            else
              m ← format_skip_message message;
              text ← of_option (format_and_print_message cfg m true);
              go (out ++ text) lowest warned
        | Some UsedKnobValue => go (if warned then out else out ++ knobs_notice) lowest_level true
        | None => go out lowest warned
        end
  end.

Definition print_one_thread_messages (cfg : LogCfg) (skipInMainThread : bool) (level : Z) (bytes : str) (warned : bool)
  : outcome (str * Z * bool) :=
  print_messages cfg skipInMainThread level (read_messages bytes) [] INT_MAX warned.

(** * Facts about codes and files *)

Lemma land15_range level : 0 <= Z.land level 15 < 16.
Proof.
  change 15 with (2 ^ 4 - 1). rewrite land_ones_mod by lia. apply Z.mod_pos_bound. lia.
Qed.

Definition code_with (t : LogTypes) (b : Z) : Z := u8 (Z.lor (Z.shiftl (LogTypes_value t + 1) 4) b).

Lemma code_with_ok t b : 0 <= b < 16 ->
  log_type_from_code (code_with t b) = Some t /\ Z.land (code_with t b) 15 = b /\ 16 <= code_with t b < 256.
Proof.
  intros Hb.
  set (f := fun b => bool_decide (log_type_from_code (code_with t b) = Some t)
    && (Z.land (code_with t b) 15 =? b) && (16 <=? code_with t b) && (code_with t b <? 256)).
  assert (f b = true) as H
    by (apply (forallb_range f 0 16); [destruct t; vm_compute; done | lia]).
  apply andb_prop in H as [[[H1 H2]%andb_prop H3]%andb_prop H4].
  apply bool_decide_eq_true in H1. apply Z.eqb_eq in H2. apply Z.leb_le in H3. by apply Z.ltb_lt in H4.
Qed.

Lemma log_type_message_code t level : log_type_from_code (message_code t level) = Some t.
Proof. apply (code_with_ok t), land15_range. Qed.

Lemma message_code_range t level : 16 <= message_code t level < 256.
Proof. apply (code_with_ok t), land15_range. Qed.

Lemma level_message_code t level : 0 <= level < 16 -> level_from_code (message_code t level) = level.
Proof.
  intros Hl. transitivity (Z.land level 15); [apply (code_with_ok t), land15_range|].
  change 15 with (2 ^ 4 - 1). rewrite land_ones_mod by lia. by apply Z.mod_small.
Qed.

(** A text that can be a message: no NUL in it. *)
Definition nul_free (msg : str) : Prop := NUL ∉ msg.
#[export] Instance nul_free_dec msg : Decision (nul_free msg).
Proof. unfold nul_free. apply _. Defined.

Lemma next_message_encode t level msg rest :
  nul_free msg ->
  next_message (encode_message t level msg ++ rest) = Some (message_code t level, msg, rest).
Proof.
  intros Hm. unfold next_message, encode_message.
  pose proof (message_code_range t level) as Hr.
  replace ((char_of (message_code t level) :: msg ++ [NUL]) ++ rest)
    with ((char_of (message_code t level) :: msg) ++ NUL :: rest)
    by (simpl; by rewrite <- app_assoc).
  rewrite span_all; [|constructor|done].
  - by rewrite code_char_of by lia.
  - unfold char_eqb. rewrite bool_decide_false; [done|].
    intros H. apply (f_equal code) in H. rewrite code_char_of in H by lia.
    change (code NUL) with 0 in H. lia.
  - apply Forall_forall. intros x Hx. unfold char_eqb. rewrite bool_decide_false; [done|].
    intros ->. done.
Qed.

Lemma read_messages_fuel_encode fuel (msgs : list (LogTypes * Z * str)) :
  (length msgs < fuel)%nat -> Forall (fun m => nul_free m.2) msgs ->
  read_messages_fuel fuel (msgs ≫= (fun m => encode_message m.1.1 m.1.2 m.2)) =
    map (fun m => (message_code m.1.1 m.1.2, m.2)) msgs.
Proof.
  revert fuel. induction msgs as [|[[t l] m] msgs IH]; intros [|fuel] Hf Hm; try (simpl in Hf; lia); [done|].
  inversion Hm; subst. rewrite bind_cons. simpl map. cbn [read_messages_fuel fst snd].
  rewrite next_message_encode by done. by rewrite IH by (simpl in Hf; done || lia).
Qed.

Lemma encode_messages_length (msgs : list (LogTypes * Z * str)) :
  (length msgs <= length (msgs ≫= (fun m => encode_message m.1.1 m.1.2 m.2)))%nat /\
  (0 < length msgs -> length msgs < length (msgs ≫= (fun m => encode_message m.1.1 m.1.2 m.2)))%nat.
Proof.
  induction msgs as [|m msgs IH]; [simpl; lia|].
  rewrite bind_cons, length_app. unfold encode_message at 1 3. cbn [length].
  rewrite length_app. simpl. lia.
Qed.

(** C18. A log file reads back as the messages that were written to it, in
    order, each with its type, its level and its text, whatever the texts are
    as long as they contain no NUL. *)
Theorem log_roundtrip (msgs : list (LogTypes * Z * str)) :
  Forall (fun m => 0 <= m.1.2 < 16 /\ nul_free m.2) msgs ->
  map (fun m => (log_type_from_code m.1, level_from_code m.1, m.2))
      (read_messages (msgs ≫= (fun m => encode_message m.1.1 m.1.2 m.2))) =
  map (fun m => (Some m.1.1, m.1.2, m.2)) msgs.
Proof.
  intros H. unfold read_messages. destruct msgs as [|m0 msgs0] eqn:E; [done|]. rewrite <- E in *.
  rewrite read_messages_fuel_encode.
  - rewrite map_map. apply map_ext_in. intros [[t l] m] Hin%list_elem_of_In. simpl.
    eapply Forall_forall in H as [Hl _]; [|done]. simpl in Hl.
    by rewrite log_type_message_code, level_message_code.
  - apply encode_messages_length. subst; simpl; lia.
  - eapply Forall_impl; [done|]. simpl. tauto.
Qed.

Lemma log_roundtrip_witness :
  map (fun m => (log_type_from_code m.1, level_from_code m.1, m.2))
      (read_messages (encode_message UserMessages 0 (L "E> x") ++ encode_message SkipMessages 1 (L "s") ++ [])) =
  [(Some UserMessages, 0, L "E> x"); (Some SkipMessages, 1, L "s")].
Proof.
  apply (log_roundtrip [(UserMessages, 0, L "E> x"); (SkipMessages, 1, L "s")]).
  apply (bool_decide_unpack _). vm_compute. done.
Defined.

(** * Escaping *)

Lemma double_quotes_app a b : double_quotes (a ++ b) = double_quotes a ++ double_quotes b.
Proof. apply bind_app. Qed.

Lemma double_quotes_free s : quote ∉ s -> double_quotes s = s.
Proof.
  induction s as [|c s IH]; intros H; [done|].
  unfold double_quotes in *. rewrite bind_cons, IH by set_solver.
  unfold char_eqb. rewrite bool_decide_false by set_solver. done.
Qed.

(** The place find() reports splits the text at its first apostrophe. *)
Lemma find_quote_some (s : str) n x :
  list_find (fun c => c = quote) s = Some (n, x) ->
  (n < length s)%nat /\ drop n s = quote :: drop (S n) s /\ take (S n) s = take n s ++ [quote] /\
  double_quotes s = take n s ++ quote :: quote :: double_quotes (drop (S n) s).
Proof.
  intros (Hn & -> & Hmin)%list_find_Some.
  assert (Hq : quote ∉ take n s).
  { intros (i & Hi)%list_elem_of_lookup. apply lookup_take_Some in Hi as [Hi Hlt]. by eapply Hmin. }
  split; [by eapply lookup_lt_Some|]. split; [by apply drop_S|]. split; [by apply take_S_r|].
  rewrite <- (take_drop_middle s n quote Hn) at 1.
  rewrite double_quotes_app, (double_quotes_free (take n s)) by done. done.
Qed.

Lemma find_quote_none (s : str) : list_find (fun c => c = quote) s = None -> quote ∉ s.
Proof. intros H%list_find_None. intros Hq. by eapply Forall_forall in H. Qed.

(** From the second iteration on the message starts with an apostrophe whose
    first copy is already in the storage. *)
Lemma escape_loop_quoted fuel storage r :
  (length r <= fuel)%nat ->
  escape_loop fuel storage (quote :: r) (find_from quote 1 (quote :: r)) =
    Some (storage ++ quote :: double_quotes r).
Proof.
  revert storage r. induction fuel as [|fuel IH]; intros storage r Hf;
    unfold find_from; change (drop 1 (quote :: r)) with r;
    destruct (list_find (fun c => c = quote) r) as [[n x]|] eqn:E; cbn [fmap option_fmap option_map fst].
  - apply find_quote_some in E as [E _]. lia.
  - simpl. apply find_quote_none in E; by rewrite double_quotes_free.
  - apply find_quote_some in E as (Hn & Hd & Ht & Hq).
    cbn [escape_loop]. change (drop (1 + n) (quote :: r)) with (drop n r).
    replace (1 + n + 1)%nat with (S (S n)) by lia.
    change (take (S (S n)) (quote :: r)) with (quote :: take (S n) r).
    rewrite Hd, IH, Ht, Hq by (rewrite length_drop; lia). f_equal.
    rewrite <- app_assoc. simpl. by rewrite <- app_assoc.
  - simpl. apply find_quote_none in E; by rewrite double_quotes_free.
Qed.

Lemma escape_doubles message : escape_for_single_line message = Some (double_quotes message).
Proof.
  unfold escape_for_single_line, find_from. rewrite drop_0.
  destruct (list_find (fun c => c = quote) message) as [[n x]|] eqn:E; cbn [fmap option_fmap option_map fst].
  - apply find_quote_some in E as (Hn & Hd & Ht & Hq).
    destruct (length message) as [|m] eqn:Hm; [lia|]. cbn [escape_loop].
    replace (0 + n + 1)%nat with (S n) by lia. change (0 + n)%nat with n.
    rewrite Hd, escape_loop_quoted, Ht, Hq by (rewrite length_drop; lia).
    f_equal. simpl. by rewrite <- app_assoc.
  - destruct (length message); cbn [escape_loop]; apply find_quote_none in E; by rewrite double_quotes_free.
Qed.

Lemma unescape_cons c s : c <> quote -> unescape (c :: s) = c :: unescape s.
Proof. intros Hc. simpl. destruct c as [[] [] [] [] [] [] [] []]; done. Qed.

Lemma unescape_double_quotes message : unescape (double_quotes message) = message.
Proof.
  induction message as [|c s IH]; [done|].
  unfold double_quotes in *. rewrite bind_cons. unfold char_eqb at 1.
  case_bool_decide as Hc; [subst|]; cbn [app].
  - simpl. by f_equal.
  - rewrite unescape_cons by done. by f_equal.
Qed.

(** Escaping a message for a single-quoted line always ends, doubles every
    apostrophe and changes nothing else, and a reader of such lines gets the
    message back. *)
Theorem escape_roundtrip message :
  exists escaped, escape_for_single_line message = Some escaped /\
    escaped = double_quotes message /\ unescape escaped = message.
Proof. eexists. split; [apply escape_doubles|]. split; [done|apply unescape_double_quotes]. Qed.

(** * Data dumps *)

Definition hex2 (b : Z) : str := [digit_char (b / 16); digit_char (b mod 16)].

(** The bytes of a dump, one " %02x" each, in groups and lines except in the
    key-value format. *)
Fixpoint dump_bytes (fmt : OutputFormat) (line : str) (i : Z) (data : list Z) : str :=
  match data with
  | [] => []
  | b :: data =>
      (if bool_decide (fmt <> key_value) then
         if i mod 32 =? 0 then line
         else if i mod 16 =? 0 then L "  "
         else if i mod 4 =? 0 then L " "
         else []
       else []) ++ " "%char :: hex2 b ++ dump_bytes fmt line (i + 1) data
  end.

(** log_data_common(): what it writes, for the thread that calls it. *)
Definition log_data_common (cfg : LogCfg) (thread : Z) (message : str) (data : list Z) (from_memcmp : bool) (s : Shm) : outcome Shm :=
  let more := if from_memcmp then 3 else 0 in
  '(buffer, sp) ←
    match current_output_format cfg with
    | yaml =>
        let sp := spaces (output_yaml_indent cfg + 4 + more) in
        if from_memcmp then Ret (message, sp)
        else
          escaped ← of_option (escape_for_single_line message);
          Ret (sp ++ L "- level: info" ++ [newline] ++ sp ++ L "  text: '" ++ escaped ++ L "'" ++ [newline]
                 ++ sp ++ L "  data:", sp ++ L "  ")
    | tap =>
        let sp := spaces (4 + more) in
        Ret ((if from_memcmp then [] else L "  - >-" ++ [newline]) ++ sp ++ L "data(" ++ message ++ L ")", sp)
    | key_value =>
        let sp := spaces (4 + more) in
        Ret (sp ++ L "data(" ++ message ++ L ")", sp)
    | no_output => Ub
    end;
  let buffer := buffer ++ dump_bytes (current_output_format cfg) (newline :: sp) 0 data ++ [newline] in
  log_message_for_thread thread Preformatted (LOG_LEVEL_VERBOSE 2) buffer s.

(** log_data(): the count of bytes is compared before this dump is added to
    it. *)
Definition log_data (cfg : LogCfg) (thread : Z) (message : str) (data : list Z) (s : Shm) : outcome Shm :=
  match current_output_format cfg with
  | no_output => Ret s
  | _ =>
      c ← thread_data thread s;
      if max_messages_per_thread cfg <=? messages_logged c then Ret s
      else
        s ← update_thread thread (add_data_bytes (len data)) s;
        if max_logdata_per_thread cfg <? data_bytes_logged c then Ret s
        else log_data_common cfg thread message data false s
  end.

(** The part of logging_report_mismatched_data() that chooses which bytes of
    the two buffers of [size] bytes to print around the mismatch at [offset]:
    where they start and how many. size_t is 64 bits wide. *)
Definition mismatch_window (max_logdata old_total size offset : Z) : Z * Z :=
  let avail := u64 (max_logdata - old_total) in
  let len := if avail <? u64 (2 * size) then avail / 2 else size in
  if offset <? len then (0, if size <? len then size else len)
  else if u64 (size - len) <=? offset then (u64 (size - len), len)
  else (offset - len / 2, len).

(** logging_report_mismatched_data(): [report] is the text of
    logging_format_data(), [offset] is negative when no difference was
    found. *)
Definition logging_report_mismatched_data (cfg : LogCfg) (now thread : Z)
    (report : str) (actual expected : list Z) (offset : Z) (s : Shm) : outcome Shm :=
  s ← logging_mark_thread_failed now thread s;
  match current_output_format cfg with
  | no_output => Ret s
  | _ =>
      s ← log_message_for_thread thread Preformatted LOG_LEVEL_QUIET report s;
      if offset <? 0 then Ret s
      else
        let size := len actual in
        c ← thread_data thread s;
        s ← update_thread thread (add_data_bytes (u32 (2 * size))) s;
        let '(start, n) := mismatch_window (max_logdata_per_thread cfg) (data_bytes_logged c) size offset in
        let do_log_data name which s :=
          let message :=
            match current_output_format cfg with
            | yaml => indent_spaces cfg ++ L "       " ++ name ++ L " data:"
            | _ => L "Bytes " ++ to_string start ++ L ".." ++ to_string (start + n - 1) ++ L " of " ++ name
            end in
          log_data_common cfg thread message (take (Z.to_nat n) (drop (Z.to_nat start) which)) true s in
        s ← do_log_data (L "actual") actual s;
        do_log_data (L "expected") expected s
  end.

(** The window of a data mismatch report lies inside the buffers, contains
    the byte that differs unless it is empty, and, as long as the thread has
    not used up its allowance, the two dumps together stay within it. *)
Theorem mismatch_window_ok max_logdata old_total size offset start n :
  0 <= max_logdata < 2 ^ 32 -> 0 <= old_total <= max_logdata ->
  0 <= offset < size -> size < 2 ^ 62 ->
  mismatch_window max_logdata old_total size offset = (start, n) ->
  0 <= start /\ 0 <= n /\ start + n <= size /\ (0 < n -> start <= offset < start + n) /\
  (2 * n <= max_logdata - old_total).
Proof.
  intros Hm Ho Hoff Hs. unfold mismatch_window.
  rewrite (wrap_u_small 64 (max_logdata - old_total)), (wrap_u_small 64 (2 * size)) by (unfold in_u; lia).
  set (k := if _ <? 2 * size then _ else size).
  assert (0 <= k <= size /\ 2 * k <= max_logdata - old_total) as [Hk Hk2].
  { unfold k. pose proof (Z_div_mod_eq_full (max_logdata - old_total) 2).
    pose proof (Z.mod_pos_bound (max_logdata - old_total) 2). zcases; lia. }
  rewrite (wrap_u_small 64 (size - k)) by (unfold in_u; lia).
  pose proof (Z_div_mod_eq_full k 2). pose proof (Z.mod_pos_bound k 2).
  zcases; intros [= <- <-]; lia.
Qed.

Lemma mismatch_window_ok_witness :
  mismatch_window 128 0 1000 500 = (468, 64) /\
  0 <= 468 /\ 0 <= 64 /\ 468 + 64 <= 1000 /\ (0 < 64 -> 468 <= 500 < 468 + 64) /\ 2 * 64 <= 128 - 0.
Proof. split; [done|]. apply (mismatch_window_ok 128 0 1000 500 468 64); done || lia. Defined.

(** Once a thread has logged more than its allowance the subtraction wraps
    around and the next mismatch is printed in full. *)
Example mismatch_window_over_limit : mismatch_window 128 129 100000 500 = (0, 100000).
Proof. done. Qed.

(** A dump is written in full whenever the bytes logged before it do not
    exceed the limit, whatever its own size. *)
Theorem log_data_ignores_own_size cfg thread message data s c :
  current_output_format cfg = key_value ->
  thread_data thread s = Ret c ->
  messages_logged c < max_messages_per_thread cfg ->
  data_bytes_logged c <= max_logdata_per_thread cfg ->
  exists s' c', log_data cfg thread message data s = Ret s' /\ thread_data thread s' = Ret c' /\
    log_fd c' = log_fd c ++ encode_message Preformatted 2
      (spaces 4 ++ L "data(" ++ message ++ L ")" ++ dump_bytes key_value (newline :: spaces 4) 0 data ++ [newline]).
Proof.
  intros Hf Hc Hm Hd. unfold log_data. rewrite Hf, Hc. simpl.
  rewrite (proj2 (Z.leb_gt _ _) Hm).
  destruct (update_thread_ret thread (add_data_bytes (len data)) s c Hc) as [s1 H1].
  rewrite H1. cbn -[log_data_common]. rewrite (proj2 (Z.ltb_ge _ _) Hd).
  unfold log_data_common. rewrite Hf. cbn -[spaces L dump_bytes log_message_for_thread].
  pose proof (thread_data_update _ thread _ _ _ H1) as Hu. rewrite decide_True, Hc in Hu by done.
  unfold log_message_for_thread. simpl in Hu.
  match goal with |- context [update_thread thread ?f s1] =>
    destruct (update_thread_ret thread f s1 _ Hu) as [s2 H2] end.
  rewrite H2. eexists _, _. split; [done|].
  rewrite (thread_data_update _ thread _ _ _ H2), decide_True, Hu by done. simpl.
  split; [done|]. simpl. by rewrite <- !app_assoc.
Qed.

(** * What log_message() writes *)

Definition printable (c : ascii) : Prop := 32 <= code c <= 126 \/ c = newline \/ c = tab.

Lemma filter_char_printable c : printable (filter_char c).
Proof.
  unfold filter_char, printable, char_eqb.
  assert (i8 (code c) = if code c <? 128 then code c else code c - 256) as Hi.
  { pose proof (code_range c). unfold wrap_s. change (2 ^ (8 - 1)) with 128. change (2 ^ 8) with 256.
    zcases; [rewrite Z.mod_small; lia|].
    rewrite <- (Z.mod_unique_pos _ 256 1 (code c + 128 - 256)); lia. }
  rewrite Hi. pose proof (code_range c).
  destruct (Z.ltb_spec (code c) 128); zcases; simpl; repeat case_bool_decide; simpl; subst; auto;
    try (left; change (code "?") with 63; lia); left; lia.
Qed.

Lemma filtered_printable text : Forall printable (create_filtered_message_string text).
Proof. apply Forall_forall. intros x (y & -> & _)%list_elem_of_fmap. apply filter_char_printable. Qed.

Lemma printable_nul_free msg : Forall printable msg -> nul_free msg.
Proof.
  intros H Hn. eapply Forall_forall in H; [|done].
  destruct H as [H|[H|H]]; [change (code NUL) with 0 in H; lia|done|done].
Qed.

Lemma printable_char_nonneg c : printable c -> filter_char c = c.
Proof.
  unfold printable, filter_char. intros [H|[->| ->]]; [|done..].
  rewrite wrap_s_small by (lia || (unfold in_s; change (2 ^ (8 - 1)) with 128; lia)).
  zcases; simpl; try lia; done.
Qed.

(** A file that holds complete messages only. *)
Definition wf_log (bytes : str) : Prop :=
  exists msgs : list (LogTypes * Z * str),
    Forall (fun m => 0 <= m.1.2 < 16 /\ nul_free m.2) msgs /\
    bytes = msgs ≫= (fun m => encode_message m.1.1 m.1.2 m.2).

Definition wf_shm (s : Shm) : Prop :=
  forall thread c, thread_data thread s = Ret c -> wf_log (log_fd c).

Lemma wf_log_append bytes t level msg :
  wf_log bytes -> 0 <= level < 16 -> nul_free msg -> wf_log (bytes ++ encode_message t level msg).
Proof.
  intros (msgs & Hm & ->) Hl Hn. exists (msgs ++ [(t, level, msg)]). split.
  - apply Forall_app. repeat constructor; simpl; done || lia.
  - rewrite bind_app, bind_cons. simpl. by rewrite app_nil_r.
Qed.

Lemma wf_update thread f s s' :
  (forall c, wf_log (log_fd c) -> wf_log (log_fd (f c))) ->
  wf_shm s -> update_thread thread f s = Ret s' -> wf_shm s'.
Proof.
  intros Hf Hs Hu t c Hc. rewrite (thread_data_update _ t _ _ _ Hu) in Hc.
  case_decide; [subst|by eapply Hs].
  destruct (thread_data thread s) eqn:E; simplify_eq/=. eapply Hf, Hs, E.
Qed.

Lemma wf_mark now thread s s' :
  wf_shm s -> logging_mark_thread_failed now thread s = Ret s' -> wf_shm s'.
Proof.
  intros Hs H. unfold logging_mark_thread_failed in H. inv_ret.
  case_match; [by simplify_eq|]. inv_ret.
  match goal with H : update_thread _ _ _ = Ret ?s1 |- _ =>
    assert (wf_shm s1) as Hs1 by (eapply wf_update; [|done..]; done);
    rename s1 into s1' end.
  case_match; [|done]. intros t c Hc. apply (Hs1 t c). revert Hc.
  unfold thread_data; simpl. case_match; [done|]. rewrite list_lookup_alter.
  case_decide as Heq; [|done]. rewrite <- Heq. by destruct (tests s1' !! _).
Qed.

Lemma wf_log_message_for_thread thread t level msg s s' :
  wf_shm s -> 0 <= level < 16 -> nul_free msg ->
  log_message_for_thread thread t level msg s = Ret s' -> wf_shm s'.
Proof.
  intros Hs Hl Hm H. eapply wf_update; [|done..]. intros c Hc. by apply wf_log_append.
Qed.

Lemma strip_newline_incl P msg msg' :
  Forall P msg -> strip_newline msg = Ret msg' -> Forall P msg'.
Proof.
  unfold strip_newline. intros Hp H. inv_ret.
  case_match; [by apply Forall_take | done].
Qed.

Lemma status_level_range c : 0 <= status_level c < 16.
Proof.
  unfold status_level, LOG_LEVEL_QUIET, LOG_LEVEL_VERBOSE.
  destruct c as [[] [] [] [] [] [] [] []]; lia.
Qed.

Lemma wf_preformatted cfg now thread msg s s' :
  wf_shm s -> Forall printable msg -> log_message_preformatted cfg now thread msg s = Ret s' -> wf_shm s'.
Proof.
  unfold log_message_preformatted, log_message_preformatted_level. intros Hs Hp H.
  destruct (head msg) as [k|] eqn:Hk; [|done]. simpl in H. inv_ret.
  assert (wf_shm a) as Hw by (destruct (char_eqb k "E"); inv_ret; eauto using wf_mark).
  destruct (current_output_format cfg); [by inv_ret|..]; inv_ret;
    (destruct (_ <=? _); [by inv_ret|]); inv_ret;
    (eapply wf_log_message_for_thread; [apply Hw|apply status_level_range| |done]);
    (eapply printable_nul_free, strip_newline_incl; done).
Qed.

(** The calls by which tests and the framework add text to the logs. *)
Inductive log_call :=
| CallMessage (now thread : Z) (text : str)
| CallPlatform (now : Z) (text : str)
| CallSkip (thread category : Z) (text : str)
| CallMarkFailed (now thread : Z).

Definition log_step (cfg : LogCfg) (s : Shm) (k : log_call) : outcome Shm :=
  match k with
  | CallMessage now thread text => log_message cfg now thread text s
  | CallPlatform now text => log_platform_message cfg now text s
  | CallSkip thread category text => log_message_skip cfg thread category text s
  | CallMarkFailed now thread => logging_mark_thread_failed now thread s
  end.

(** A skip message names one of the categories, which are numbered from 1. *)
Definition call_ok (k : log_call) : Prop :=
  match k with CallSkip _ category _ => 1 <= category < 128 | _ => True end.

Lemma platform_prefix_printable : Forall printable (L "Platform issue: ").
Proof.
  eapply (Forall_impl (fun c => filter_char c = c)).
  { apply (bool_decide_unpack _). vm_compute. done. }
  intros c H. rewrite <- H. apply filter_char_printable.
Qed.

Lemma wf_log_step cfg s k s' :
  wf_shm s -> call_ok k -> log_step cfg s k = Ret s' -> wf_shm s'.
Proof.
  intros Hs Hk H. destruct k as [now thread text|now text|thread category text|now thread]; simpl in *.
  - unfold log_message in H. destruct (current_output_format cfg); [by inv_ret|..]; inv_ret;
      (destruct (_ && _); [by inv_ret|]); eapply wf_preformatted; eauto using filtered_printable.
  - unfold log_platform_message in H. destruct (current_output_format cfg); [by inv_ret|..]; inv_ret;
      (destruct (_ && _); [by inv_ret|]); (eapply wf_preformatted; [done| |done]);
      (apply Forall_app; split; [apply Forall_take, filtered_printable|]);
      (apply Forall_app; split; [|apply Forall_drop, filtered_printable]);
      apply platform_prefix_printable.
  - unfold log_message_skip in H.
    assert (nul_free (char_of category :: create_filtered_message_string text)) as Hn.
    { apply not_elem_of_cons. split; [|apply printable_nul_free, filtered_printable].
      intros E. apply (f_equal code) in E. rewrite code_char_of in E by lia.
      change (code NUL) with 0 in E. lia. }
    assert (Forall (fun c => c <> NUL) (char_of category :: create_filtered_message_string text)) as Hf.
    { apply Forall_forall. intros c Hc ->. done. }
    destruct (current_output_format cfg); [by inv_ret|..]; inv_ret;
      (eapply wf_log_message_for_thread; [| | |done]; [done|unfold LOG_LEVEL_VERBOSE; lia|]);
      intros Hin; (eapply strip_newline_incl in Hf; [|done]); by eapply Forall_forall in Hf.
  - by eapply wf_mark.
Qed.

(** C33. Whatever sequence of messages, platform messages, skip messages and
    failures the framework and the tests log, every log file stays a sequence
    of complete messages, so the main process reads back exactly what was
    written ([log_roundtrip]). *)
Theorem logs_stay_well_formed cfg calls s s' :
  wf_shm s -> Forall call_ok calls -> fold_outcome (log_step cfg) calls s = Ret s' -> wf_shm s'.
Proof.
  intros Hs Hc H. eapply (fold_outcome_inv wf_shm); [|done..].
  intros s1 k s2 Hk Hs1 Hstep. eapply wf_log_step; [done| |done]. by eapply Forall_forall in Hc.
Qed.

Definition cfg0 : LogCfg :=
  {| NoLogging := false; Debug := true; output_format := yaml; output_yaml_indent := 0;
     max_messages_per_thread := 5; max_logdata_per_thread := 128; log_test_knobs := false; fatal_skips := false |}.

Lemma wf_idle n m : wf_shm (idle_shm n m).
Proof.
  intros t c H. exists []. split; [done|]. revert H. unfold thread_data, idle_shm; simpl.
  destruct (t <? 0); destruct (replicate _ _ !! _) eqn:E; simpl; try done;
    apply lookup_replicate in E as [-> _]; by intros [= <-].
Qed.

Lemma logs_stay_well_formed_witness :
  exists s', fold_outcome (log_step cfg0)
      [CallMessage 7 0 (L "E> bad"); CallSkip (-1) 3 (L "why"); CallMarkFailed 9 1] (idle_shm 1 2) = Ret s' /\
    wf_shm s'.
Proof.
  eexists. split; [vm_compute; reflexivity|].
  eapply (logs_stay_well_formed cfg0 [CallMessage 7 0 (L "E> bad"); CallSkip (-1) 3 (L "why"); CallMarkFailed 9 1]
    (idle_shm 1 2)); [apply wf_idle|repeat constructor; simpl; lia|vm_compute; reflexivity].
Defined.

(** * The result of a test *)

(** The state an AbstractLogger is constructed with. *)
Record Logger := {
  earliest_fail : Z;
  childExitStatus : ChildExitStatus;
  testResult : TestResult;
  pc : Z;
  skipInMainThread : bool;
}.

(** message_checker: the threads that failed, those that passed and those that
    skipped. *)
Record Scan := { sc_earliest : Z; sc_failed : bool; sc_pc : Z; sc_sc : Z }.

Definition message_checker (a : Scan) (d : Common * Z) : Scan :=
  let '(data, i) := d in
  if has_failed data then
    {| sc_earliest := Z.min (sc_earliest a) (fail_time data); sc_failed := true; sc_pc := sc_pc a; sc_sc := sc_sc a |}
  else if 0 <=? i then
    {| sc_earliest := sc_earliest a; sc_failed := sc_failed a; sc_pc := sc_pc a + 1;
       sc_sc := if decide (thread_state data = thread_skipped) then sc_sc a + 1 else sc_sc a |}
  else a.

Definition scan_threads (nslices : Z) (s : Shm) : Scan :=
  foldl message_checker {| sc_earliest := time_max; sc_failed := false; sc_pc := 0; sc_sc := 0 |}
    (main_threads nslices s ++ test_threads s).

(** The loop over the stuck threads of a test that timed out. *)
Definition log_stuck_thread (cfg : LogCfg) (now : Z) (s : Shm) (d : Common * Z) : outcome Shm :=
  if decide (thread_state d.1 = thread_running)
  then log_message cfg now d.2 (L "E> Thread is stuck") s else Ret s.

(** AbstractLogger::AbstractLogger() *)
Definition make_logger (cfg : LogCfg) (now : Z) (results : list ChildExitStatus) (s : Shm) : outcome (Logger * Shm) :=
  worst ← find_most_serious_result results;
  let base skip := {| earliest_fail := time_max; childExitStatus := worst; testResult := result worst;
                      pc := 0; skipInMainThread := skip |} in
  let scanned skip :=
    let a := scan_threads (len results) s in
    let r := if sc_failed a then Failed else result worst in
    {| earliest_fail := sc_earliest a; childExitStatus := worst;
       testResult := if decide (r = Passed) then if sc_pc a =? sc_sc a then Skipped else r else r;
       pc := sc_pc a; skipInMainThread := skip |} in
  match result worst with
  | Skipped => Ret (scanned true, s)
  | Passed => Ret (scanned false, s)
  | Failed => Ret (base false, s)
  | TimedOut => s ← fold_outcome (log_stuck_thread cfg now) (test_threads s) s; Ret (base false, s)
  | CoreDumped | Killed | OperatingSystemError | OutOfMemory | Interrupted => Ret (base false, s)
  end.

(** AbstractLogger::loglevel() and should_print_fail_info() *)
Definition loglevel (cfg : LogCfg) (l : Logger) : Z :=
  match testResult l with
  | Skipped => if fatal_skips cfg then LOG_LEVEL_QUIET else LOG_LEVEL_VERBOSE 1
  | Passed => LOG_LEVEL_VERBOSE 1
  | _ => LOG_LEVEL_QUIET
  end.

Definition should_print_fail_info (l : Logger) : bool :=
  match testResult l with
  | Skipped | Passed | Interrupted => false
  | _ => true
  end.

(** logging_print_results() returns the test result of the logger it builds,
    in every output format. *)
Definition logging_print_results (cfg : LogCfg) (now : Z) (results : list ChildExitStatus) (s : Shm) : outcome (TestResult * Shm) :=
  '(l, s) ← make_logger cfg now results s; Ret (testResult l, s).

(** The exit line of logging_close_global(). *)
Definition exit_line (verbosity exitcode : Z) : option str :=
  if exitcode =? EXIT_SUCCESS then if 0 <=? verbosity then Some (L "pass") else None
  else if exitcode =? EXIT_FAILURE then Some (L "fail")
  else if exitcode =? EXIT_INVALID then Some (L "invalid")
  else if negb (Z.land exitcode EXIT_INTERRUPTED =? 0) then Some (L "interrupted")
  else Some (L "invalid").

(** Threads that count as having run the test to its end. *)
Definition ran_to_end (d : Common * Z) : bool :=
  negb (has_failed d.1) && (0 <=? d.2) && bool_decide (thread_state d.1 <> thread_skipped).

Lemma scan_fold l a :
  let b := foldl message_checker a l in
  sc_failed b = sc_failed a || existsb (fun d => has_failed d.1) l /\
  sc_sc a - sc_pc a >= sc_sc b - sc_pc b /\
  (sc_pc b - sc_sc b = sc_pc a - sc_sc a <-> existsb ran_to_end l = false).
Proof.
  revert a. induction l as [|[c i] l IH]; intros a; simpl; [rewrite orb_false_r; repeat split; lia || done|].
  destruct (IH (message_checker a (c, i))) as (H1 & H2 & H3).
  set (b := foldl message_checker _ l) in *. unfold ran_to_end at 1; simpl.
  unfold message_checker in H1, H2, H3. destruct (has_failed c) eqn:Hf; simpl in *.
  - rewrite H1, orb_true_r. simpl. tauto.
  - destruct (0 <=? i); simpl in *; [|tauto].
    case_decide as Hd; simpl in *.
    + rewrite bool_decide_false by (intros ?; done). simpl.
      split; [tauto|]. split; [lia|]. rewrite <- H3. lia.
    + rewrite bool_decide_true by done. simpl. split; [tauto|]. split; [lia|].
      split; [lia|done].
Qed.

Lemma existsb_Exists {A} (p : A -> bool) l : existsb p l = true <-> Exists (fun x => p x = true) l.
Proof.
  rewrite existsb_exists, Exists_exists. by setoid_rewrite list_elem_of_In.
Qed.

Lemma scan_threads_spec n s :
  (sc_failed (scan_threads n s) = true <->
     Exists (fun d => has_failed d.1 = true) (main_threads n s ++ test_threads s)) /\
  (sc_pc (scan_threads n s) = sc_sc (scan_threads n s) <->
     ~ Exists (fun d => ran_to_end d = true) (main_threads n s ++ test_threads s)).
Proof.
  destruct (scan_fold (main_threads n s ++ test_threads s)
    {| sc_earliest := time_max; sc_failed := false; sc_pc := 0; sc_sc := 0 |}) as (H1 & H2 & H3).
  fold (scan_threads n s) in *. simpl in *. split.
  - rewrite H1. apply existsb_Exists.
  - rewrite <- existsb_Exists, not_true_iff_false, <- H3. lia.
Qed.

(** Only test threads count as having run to the end. *)
Lemma ran_in_tests n s :
  Exists (fun d => ran_to_end d = true) (main_threads n s ++ test_threads s) <->
  Exists (fun d => has_failed d.1 = false /\ thread_state d.1 <> thread_skipped) (test_threads s).
Proof.
  rewrite Exists_app, !Exists_exists. split.
  - intros [(d & Hd & Hr)|(d & Hd & Hr)]; unfold ran_to_end in Hr.
    + unfold main_threads in Hd. apply list_elem_of_lookup in Hd as (k & Hk).
      rewrite list_lookup_imap in Hk. destruct (_ !! k); simplify_eq/=.
      rewrite (proj2 (Z.leb_gt 0 _)), andb_false_r in Hr by lia. done.
    + exists d. apply andb_prop in Hr as [[Hf%negb_true_iff _]%andb_prop Ht%bool_decide_eq_true]. done.
  - intros (d & Hd & Hf & Ht). right. exists d. split; [done|]. unfold ran_to_end.
    rewrite Hf, bool_decide_true by done.
    unfold test_threads in Hd. apply list_elem_of_lookup in Hd as (k & Hk).
    rewrite list_lookup_imap in Hk. destruct (_ !! k); simplify_eq/=.
    rewrite (proj2 (Z.leb_le 0 _)) by lia. done.
Qed.

(** C11. A test is reported as passed exactly when every child ended in a pass or
    a skip, at least one of them in a pass, no main thread of a slice and no
    test thread has recorded a failure, and at least one test thread ran
    without skipping. *)
Theorem pass_verdict cfg now results s r s' :
  logging_print_results cfg now results s = Ret (r, s') ->
  r = Passed <->
    (forall x, x ∈ results -> result x = Passed \/ result x = Skipped) /\
    (exists x, x ∈ results /\ result x = Passed) /\
    Forall (fun d => has_failed d.1 = false) (main_threads (len results) s ++ test_threads s) /\
    Exists (fun d => thread_state d.1 <> thread_skipped) (test_threads s).
Proof.
  unfold logging_print_results, make_logger. intros H.
  destruct (find_most_serious_result results) as [worst| |] eqn:Hw; [|done..].
  apply most_serious_spec in Hw as [Hin Hmax]. simpl in H.
  destruct (scan_threads_spec (len results) s) as [Hf Hr]. rewrite ran_in_tests in Hr.
  assert (Hall : (forall x, x ∈ results -> result x = Passed \/ result x = Skipped) <->
    result_value (result worst) <= 0).
  { split; [intros Ha; destruct (Ha _ Hin) as [-> | ->]; done|].
    intros Hv x Hx. specialize (Hmax x Hx). destruct (result x); simpl in *; auto; lia. }
  assert (Hnf : sc_failed (scan_threads (len results) s) = false <->
    Forall (fun d => has_failed d.1 = false) (main_threads (len results) s ++ test_threads s)).
  { rewrite <- not_true_iff_false, Hf, <- Forall_Exists_neg. apply Forall_iff. intros d.
    by destruct (has_failed d.1). }
  destruct (result worst) eqn:Hres; simpl in H.
  3: by simplify_eq; split; [done|]; intros (Ha & _); apply Hall in Ha.
  3-6,8: by simplify_eq; split; [done|]; intros (Ha & _); apply Hall in Ha.
  3: { inv_ret. simplify_eq/=. split; [done|]. intros (Ha & _). by apply Hall in Ha. }
  - inv_ret. simplify_eq/=. destruct (sc_failed _) eqn:Hsf; [split; [done|]|split; [done|]];
      intros (_ & (x & Hx & Hp) & _); specialize (Hmax x Hx); rewrite Hp in Hmax; simpl in Hmax; lia.
  - inv_ret. simplify_eq/=. destruct (sc_failed _) eqn:Hsf; simpl.
    + split; [done|]. intros (_ & _ & Hn%Hnf & _). congruence.
    + assert (Hn := proj1 Hnf eq_refl).
      destruct (Z.eqb_spec (sc_pc (scan_threads (len results) s')) (sc_sc (scan_threads (len results) s'))) as [He|He].
      * split; [done|]. intros (_ & _ & _ & Hx). apply Hr in He. destruct He.
        apply Exists_exists in Hx as (d & Hd & Ht). apply Exists_exists. exists d. repeat split; try done.
        apply Forall_app in Hn as [_ Hn]. by eapply Forall_forall in Hn.
      * split; [intros _|done]. split; [by apply Hall|]. split; [by exists worst|]. split; [done|].
        destruct (decide (Exists (fun d => has_failed d.1 = false /\ thread_state d.1 <> thread_skipped) (test_threads s'))) as [Hx|Hx].
        -- eapply Exists_impl; [done|]. simpl. tauto.
        -- by apply Hr in Hx.
Qed.

Lemma pass_verdict_witness :
  logging_print_results cfg0 0 [exit_status_of Passed] (idle_shm 1 2) = Ret (Passed, idle_shm 1 2) /\
  Forall (fun d => has_failed d.1 = false) (main_threads 1 (idle_shm 1 2) ++ test_threads (idle_shm 1 2)).
Proof.
  split; [vm_compute; done|].
  destruct (proj1 (pass_verdict cfg0 0 [exit_status_of Passed] (idle_shm 1 2) Passed (idle_shm 1 2)
    ltac:(vm_compute; reflexivity)) eq_refl) as (_ & _ & H & _). exact H.
Defined.
