(* ===== verification/CpuSet.v ===== *)
(** Sets of logical processors (LogicalProcessorSet and LogicalProcessorSetOps
    of src/framework/topology.h): a growable array of 64-bit words, one bit per
    processor. The operations refine those of a finite set of numbers. *)

From stdpp Require Import gmap.
From S2P Require Import Prelude.

(** * The operations *)

Definition ProcessorsPerWord : Z := 64.
Definition MinSize : Z := 1024.

Definition bitFor (n : Z) : Z := 2 ^ (u32 n mod ProcessorsPerWord).

(** The index of the word of processor [n]; int division truncates. *)
Definition word_index (n : Z) : Z := Z.quot n ProcessorsPerWord.

(** class LogicalProcessorSet *)
Record LogicalProcessorSet := { array : list Z }.

Definition empty_set : LogicalProcessorSet := {| array := [] |}.

(** ensureSize(): std::vector::resize() fills with zeros. *)
Definition ensureSize (n : Z) (s : LogicalProcessorSet) : LogicalProcessorSet :=
  let MinSizeCount := MinSize / ProcessorsPerWord in
  let idx := u64 n / ProcessorsPerWord in
  if len (array s) <=? idx
  then {| array := array s ++ replicate (Z.to_nat (Z.max (idx + 1) MinSizeCount) - length (array s)) 0 |}
  else s.

(** LogicalProcessorSet(int minimumSize) *)
Definition make_set (minimumSize : Z) : LogicalProcessorSet := ensureSize (minimumSize - 1) empty_set.

Definition size_bytes (s : LogicalProcessorSet) : Z := u32 (len (array s)) * 8.

(** wordFor(n) op= f *)
Definition modify_word (n : Z) (f : Z -> Z) (s : LogicalProcessorSet) : outcome LogicalProcessorSet :=
  let s := ensureSize n s in
  w ← at_ (array s) (word_index n);
  Ret {| array := <[Z.to_nat (word_index n) := f w]> (array s) |}.

Definition set_cpu (n : Z) (s : LogicalProcessorSet) : outcome LogicalProcessorSet :=
  modify_word n (fun w => Z.lor w (bitFor n)) s.
Definition unset_cpu (n : Z) (s : LogicalProcessorSet) : outcome LogicalProcessorSet :=
  modify_word n (fun w => Z.land w (u64 (Z.lnot (bitFor n)))) s.

(** constWordForInArray(): words that are not there are zero. *)
Definition const_word (n : Z) (s : LogicalProcessorSet) : Z :=
  if u64 (word_index n) <? len (array s)
  then default 0 (array s !! Z.to_nat (word_index n)) else 0.

Definition is_set (n : Z) (s : LogicalProcessorSet) : bool :=
  negb (Z.land (const_word n s) (bitFor n) =? 0).

Definition popcount (w : Z) : Z := popcount_upto 64 w.
Arguments popcount : simpl never.

Definition count (s : LogicalProcessorSet) : Z := foldr (fun w total => popcount w + total) 0 (array s).

Definition empty (s : LogicalProcessorSet) : bool := forallb (fun w => w =? 0) (array s).

(** std::bit_floor() *)
Definition bit_floor (x : Z) : Z := if x =? 0 then 0 else 2 ^ Z.log2 x.

(** The first loop of limit_to(): the words before the iterator, those from it
    on, and what is left of the limit. *)
Fixpoint limit_scan (before after : list Z) (limit : Z) : list Z * list Z * Z :=
  match after with
  | w :: after' => if 0 <? limit then limit_scan (before ++ [w]) after' (limit - popcount w)
                   else (before, after, limit)
  | [] => (before, [], limit)
  end.

(** The second loop: clears the [k] highest bits of a word. *)
Fixpoint clear_upper (k : nat) (x : Z) : Z :=
  match k with
  | O => x
  | S k => clear_upper k (Z.land x (u64 (Z.lnot (bit_floor x))))
  end.

(** limit_to(): with a negative limit the code writes before the array. *)
Definition limit_to (limit : Z) (s : LogicalProcessorSet) : outcome LogicalProcessorSet :=
  let '(before, after, limit) := limit_scan [] (array s) limit in
  before ← (if limit <? 0 then
              x ← of_option (last before);
              Ret (take (length before - 1) before ++ [clear_upper (Z.to_nat (- limit)) x])
            else Ret before);
  Ret {| array := before ++ replicate (length after) 0 |}.

(** * The representation *)

Definition set_wf (s : LogicalProcessorSet) : Prop := Forall (in_u 64) (array s).

(** The processors of a set. *)
Definition members (s : LogicalProcessorSet) : list Z :=
  filter (fun n => is_set n s = true) (seqZ 0 (64 * len (array s))).
Definition abs (s : LogicalProcessorSet) : gset Z := list_to_set (members s).

(** A processor number that the int-indexed words can address. *)
Definition cpu_ok (n : Z) : Prop := 0 <= n < 2 ^ 31.

Lemma bitFor_ok n : cpu_ok n -> bitFor n = 2 ^ (n mod 64).
Proof. intros [? ?]. unfold bitFor, ProcessorsPerWord. by rewrite wrap_u_small by (unfold in_u; lia). Qed.

Lemma word_index_ok n : cpu_ok n -> word_index n = n / 64.
Proof. intros [? ?]. unfold word_index, ProcessorsPerWord. by rewrite Z.quot_div_nonneg by lia. Qed.

Lemma land_pow2 w k : 0 <= k -> Z.land w (2 ^ k) = if Z.testbit w k then 2 ^ k else 0.
Proof.
  intros Hk. apply Z.bits_inj'. intros i Hi. rewrite Z.land_spec.
  destruct (decide (i = k)) as [->|].
  - rewrite Z.pow2_bits_true by done. rewrite andb_true_r.
    destruct (Z.testbit w k); [by rewrite Z.pow2_bits_true|by rewrite Z.bits_0].
  - rewrite Z.pow2_bits_false by lia. rewrite andb_false_r.
    destruct (Z.testbit w k); [by rewrite Z.pow2_bits_false by lia|by rewrite Z.bits_0].
Qed.

(** What is_set() reads: a bit of the concatenation of the words. *)
Definition bit_at (n : Z) (l : list Z) : bool := Z.testbit (default 0 (l !! Z.to_nat (n / 64))) (n mod 64).

Lemma is_set_bit n s : cpu_ok n -> is_set n s = bit_at n (array s).
Proof.
  intros Hn. unfold is_set, bit_at, const_word. rewrite bitFor_ok, word_index_ok by done.
  assert (0 <= n / 64 < 2 ^ 31) as Hi.
  { unfold cpu_ok in Hn. split; [apply Z.div_pos; lia|]. apply Z.div_lt_upper_bound; lia. }
  pose proof (Z.mod_pos_bound n 64 ltac:(lia)) as Hm.
  rewrite wrap_u_small by (unfold in_u; lia).
  destruct (Z.ltb_spec (n / 64) (len (array s))) as [Hl|Hl].
  - rewrite land_pow2 by lia. case_match; [|done].
    assert (2 ^ (n mod 64) <> 0) by (apply Z.pow_nonzero; lia). by zcases.
  - rewrite Z.land_0_l. unfold len in Hl.
    rewrite lookup_ge_None_2 by lia. simpl. by rewrite Z.bits_0.
Qed.

Lemma ensureSize_bit n m s : bit_at m (array (ensureSize n s)) = bit_at m (array s).
Proof.
  unfold ensureSize. case_match; [|done]. simpl. unfold bit_at.
  destruct (array s !! Z.to_nat (m / 64)) eqn:E.
  - by rewrite lookup_app_l, E by by eapply lookup_lt_Some.
  - rewrite lookup_app_r by by apply lookup_ge_None.
    destruct (replicate _ 0 !! _) eqn:E2; [|done]. apply lookup_replicate in E2 as [-> _].
    simpl. by rewrite Z.bits_0.
Qed.

Lemma ensureSize_wf n s : set_wf s -> set_wf (ensureSize n s).
Proof.
  unfold set_wf, ensureSize. intros H. case_match; [|done]. simpl.
  apply Forall_app. split; [done|]. apply Forall_replicate. unfold in_u. lia.
Qed.

Lemma ensureSize_len n s : cpu_ok n -> 0 <= n / 64 < len (array (ensureSize n s)).
Proof.
  intros [? ?]. assert (0 <= n / 64) by (apply Z.div_pos; lia).
  unfold ensureSize, ProcessorsPerWord. rewrite wrap_u_small by (unfold in_u; lia).
  destruct (Z.leb_spec (len (array s)) (n / 64)) as [Hl|Hl]; simpl; [|lia].
  rewrite len_app. unfold len in *. rewrite length_replicate. lia.
Qed.

(** Two processors share a word and a bit only when they are the same. *)
Lemma same_bit n m : 0 <= n -> 0 <= m -> n / 64 = m / 64 -> n mod 64 = m mod 64 -> n = m.
Proof.
  intros. rewrite (Z_div_mod_eq_full n 64), (Z_div_mod_eq_full m 64). congruence.
Qed.

(** Changing one bit of the word of [n]. *)
Lemma modify_word_spec n f b s :
  cpu_ok n -> set_wf s ->
  (forall w, in_u 64 w -> in_u 64 (f w) /\
     forall i, 0 <= i < 64 -> Z.testbit (f w) i = if decide (i = n mod 64) then b else Z.testbit w i) ->
  exists s', modify_word n f s = Ret s' /\ set_wf s' /\
    forall m, cpu_ok m -> is_set m s' = if decide (m = n) then b else is_set m s.
Proof.
  intros Hn Hs Hf. unfold modify_word.
  pose proof (ensureSize_len n s Hn) as Hl. rewrite word_index_ok by done.
  destruct (at_ret (array (ensureSize n s)) (n / 64) Hl) as (w & -> & Hw). simpl.
  pose proof (ensureSize_wf n s Hs) as Hwf.
  assert (in_u 64 w) as Hw64 by (eapply Forall_lookup in Hwf; [|exact Hw]; done).
  destruct (Hf w Hw64) as [Hfw Hbits].
  eexists. split; [done|]. split; [by apply Forall_insert|].
  intros m Hm. rewrite !is_set_bit by done. simpl.
  rewrite <- (ensureSize_bit n m s). unfold bit_at.
  unfold cpu_ok in *. assert (0 <= m / 64) by (apply Z.div_pos; lia).
  destruct (decide (m / 64 = n / 64)) as [Hd|Hd].
  - rewrite Hd, list_lookup_insert_eq, Hw by (unfold len in Hl; lia). simpl.
    rewrite Hbits by (apply Z.mod_pos_bound; lia).
    destruct (decide (m = n)) as [->|]; [by rewrite decide_True|].
    rewrite decide_False; [done|]. intros Hmod. destruct (same_bit m n); lia || done.
  - rewrite list_lookup_insert_ne by lia. rewrite decide_False by congruence. done.
Qed.

Lemma u64_bits_high w i : in_u 64 w -> 64 <= i -> Z.testbit w i = false.
Proof.
  intros [? ?] Hi. destruct (decide (w = 0)) as [->|]; [apply Z.bits_0|].
  apply Z.bits_above_log2; [lia|]. assert (Z.log2 w < 64) by (apply Z.log2_lt_pow2; lia). lia.
Qed.

Lemma u64_of_bits w : 0 <= w -> (forall i, 64 <= i -> Z.testbit w i = false) -> in_u 64 w.
Proof.
  intros Hw H. split; [done|]. destruct (decide (w = 0)) as [->|]; [lia|].
  apply Z.log2_lt_pow2; [lia|]. destruct (Z.lt_ge_cases (Z.log2 w) 64) as [|Hge]; [done|].
  specialize (H _ Hge). rewrite Z.bit_log2 in H by lia. done.
Qed.

Lemma lor_bit w k : 0 <= k < 64 -> in_u 64 w ->
  in_u 64 (Z.lor w (2 ^ k)) /\
  forall i, 0 <= i < 64 -> Z.testbit (Z.lor w (2 ^ k)) i = if decide (i = k) then true else Z.testbit w i.
Proof.
  intros Hk Hw. assert (forall i, Z.testbit (Z.lor w (2 ^ k)) i = if decide (i = k) then true else Z.testbit w i) as Hb.
  { intros i. rewrite Z.lor_spec. case_decide as Hd; [subst|].
    - rewrite Z.pow2_bits_true by lia. apply orb_true_r.
    - rewrite Z.pow2_bits_false by lia. apply orb_false_r. }
  split; [|auto]. apply u64_of_bits.
  - apply Z.lor_nonneg. split; [apply Hw|]. apply Z.pow_nonneg. lia.
  - intros i Hi. rewrite Hb, decide_False by lia. by apply u64_bits_high.
Qed.

Lemma clear_bit w k : 0 <= k < 64 -> in_u 64 w ->
  in_u 64 (Z.land w (u64 (Z.lnot (2 ^ k)))) /\
  forall i, 0 <= i < 64 -> Z.testbit (Z.land w (u64 (Z.lnot (2 ^ k)))) i = if decide (i = k) then false else Z.testbit w i.
Proof.
  intros Hk Hw.
  assert (forall i, 0 <= i < 64 -> Z.testbit (Z.land w (u64 (Z.lnot (2 ^ k)))) i =
    if decide (i = k) then false else Z.testbit w i) as Hb.
  { intros i Hi. unfold wrap_u. rewrite Z.land_spec, Z.mod_pow2_bits_low, Z.lnot_spec by lia.
    case_decide as Hd; [subst|].
    - rewrite Z.pow2_bits_true by lia. apply andb_false_r.
    - rewrite Z.pow2_bits_false by lia. apply andb_true_r. }
  split; [|done]. apply u64_of_bits.
  - apply Z.land_nonneg. left. apply Hw.
  - intros i Hi. rewrite Z.land_spec, (u64_bits_high w i) by done. done.
Qed.

Lemma elem_of_members n s : n ∈ members s <-> 0 <= n < 64 * len (array s) /\ is_set n s = true.
Proof. unfold members. rewrite list_elem_of_filter, elem_of_seqZ, Z.add_0_l. tauto. Qed.

(** Processors outside of the array are not in the set. *)
Lemma is_set_bound n s : cpu_ok n -> is_set n s = true -> n < 64 * len (array s).
Proof.
  intros Hn. rewrite is_set_bit by done. unfold bit_at.
  destruct (array s !! Z.to_nat (n / 64)) eqn:E; simpl; [|by rewrite Z.bits_0].
  apply lookup_lt_Some in E. intros _. unfold len, cpu_ok in *.
  pose proof (Z_div_mod_eq_full n 64). pose proof (Z.mod_pos_bound n 64). 
  assert (0 <= n / 64) by (apply Z.div_pos; lia). lia.
Qed.

Lemma elem_of_abs n s : cpu_ok n -> n ∈ abs s <-> is_set n s = true.
Proof.
  intros Hn. unfold abs. rewrite elem_of_list_to_set, elem_of_members. split; [tauto|].
  intros H. pose proof (is_set_bound n s Hn H). unfold cpu_ok in Hn. split; [lia|done].
Qed.

(** * Counting *)

Lemma filter_ext_in {A} (P Q : A -> bool) (l : list A) :
  (forall x, x ∈ l -> P x = Q x) ->
  filter (fun x => P x = true) l = filter (fun x => Q x = true) l.
Proof.
  intros H. induction l as [|x l IH]; [done|].
  rewrite !filter_cons, (H x) by set_solver. rewrite IH; [done|]. set_solver.
Qed.

Lemma seqZ_snoc a n : 0 <= n -> seqZ a (n + 1) = seqZ a n ++ [a + n].
Proof.
  intros. by rewrite seqZ_app by lia.
Qed.

Lemma word_members w a n :
  len (filter (fun m => Z.testbit w (m - a) = true) (seqZ a (Z.of_nat n))) = popcount_upto n w.
Proof.
  induction n as [|n IH]; [done|].
  rewrite Nat2Z.inj_succ, <- Z.add_1_r, seqZ_snoc, filter_app, len_app, IH by lia.
  rewrite filter_cons, filter_nil. replace (a + Z.of_nat n - a) with (Z.of_nat n) by lia.
  simpl. case_decide as Hd; [rewrite Hd|apply not_true_is_false in Hd; rewrite Hd]; unfold len; simpl; lia.
Qed.

Lemma bit_at_app l1 l2 n : 0 <= n ->
  bit_at n (l1 ++ l2) = if n <? 64 * len l1 then bit_at n l1 else bit_at (n - 64 * len l1) l2.
Proof.
  intros Hn. unfold bit_at, len. pose proof (Z_div_mod_eq_full n 64). pose proof (Z.mod_pos_bound n 64).
  assert (0 <= n / 64) by (apply Z.div_pos; lia).
  destruct (Z.ltb_spec n (64 * Z.of_nat (length l1))).
  - by rewrite lookup_app_l by lia.
  - rewrite lookup_app_r by lia.
    replace (n - 64 * Z.of_nat (length l1)) with (n + (- Z.of_nat (length l1)) * 64) by lia.
    rewrite Z.div_add, Z.mod_add by lia. do 3 f_equal. lia.
Qed.

Lemma bit_at_singleton x n : 0 <= n < 64 -> bit_at n [x] = Z.testbit x n.
Proof. intros. unfold bit_at. by rewrite Z.div_small, Z.mod_small by lia. Qed.

Definition total (l : list Z) : Z := foldr (fun w total => popcount w + total) 0 l.

Lemma total_app l1 l2 : total (l1 ++ l2) = total l1 + total l2.
Proof. induction l1; simpl; [done|]. unfold total in *. simpl. lia. Qed.

Lemma total_nonneg l : 0 <= total l.
Proof.
  induction l; unfold total in *; simpl; [lia|].
  pose proof (popcount_upto_range 64 a : 0 <= popcount a <= _). lia.
Qed.

Lemma total_members l : len (filter (fun n => bit_at n l = true) (seqZ 0 (64 * len l))) = total l.
Proof.
  induction l as [|w l IH] using rev_ind; [done|].
  rewrite total_app, len_app. replace (64 * (len l + len [w])) with (64 * len l + 64) by (unfold len; simpl; lia).
  rewrite seqZ_app, filter_app, len_app by (unfold len; lia). f_equal.
  - rewrite <- IH. f_equal. apply filter_ext_in. intros x Hx. apply elem_of_seqZ in Hx.
    rewrite bit_at_app by lia. destruct (Z.ltb_spec x (64 * len l)); [done|lia].
  - unfold total. simpl. rewrite Z.add_0_r. unfold popcount. rewrite <- (word_members w (64 * len l) 64).
    f_equal. apply (filter_ext_in (fun x => bit_at x (l ++ [w]))). intros x Hx.
    apply elem_of_seqZ in Hx. assert (0 <= len l) by (unfold len; lia).
    rewrite bit_at_app by lia. destruct (Z.ltb_spec x (64 * len l)); [lia|].
    by rewrite bit_at_singleton by lia.
Qed.

(** The array is small enough for its processors to be ints. *)
Definition set_small (s : LogicalProcessorSet) : Prop := 64 * len (array s) <= 2 ^ 31.

Lemma count_size s : set_small s -> count s = Z.of_nat (size (abs s)).
Proof.
  intros Hs. unfold count. change (foldr _ 0 (array s)) with (total (array s)).
  rewrite <- total_members. unfold abs, len.
  rewrite size_list_to_set; [|unfold members; apply NoDup_filter, NoDup_seqZ].
  f_equal. f_equal. symmetry. apply filter_ext_in. intros x Hx. apply elem_of_seqZ in Hx.
  apply is_set_bit. unfold set_small, cpu_ok, len in *. lia.
Qed.

(** * limit_to *)

Lemma land_clear_top x : in_u 64 x -> x <> 0 ->
  Z.land x (u64 (Z.lnot (bit_floor x))) = x mod 2 ^ Z.log2 x /\
  popcount (x mod 2 ^ Z.log2 x) = popcount x - 1.
Proof.
  intros Hx Hn. assert (0 <= Z.log2 x < 64) as Hlog.
  { split; [apply Z.log2_nonneg|]. apply Z.log2_lt_pow2; [unfold in_u in Hx; lia|apply Hx]. }
  unfold bit_floor. destruct (Z.eqb_spec x 0); [done|].
  assert (Z.testbit x (Z.log2 x) = true) as Htop by (apply Z.bit_log2; unfold in_u in Hx; lia).
  assert (forall i, 0 <= i < 64 -> Z.testbit (x mod 2 ^ Z.log2 x) i =
    if decide (i = Z.log2 x) then false else Z.testbit x i) as Hm.
  { intros i Hi. case_decide as Hd; [subst; by rewrite Z.mod_pow2_bits_high by lia|].
    destruct (Z.lt_ge_cases i (Z.log2 x)); [by rewrite Z.mod_pow2_bits_low by lia|].
    rewrite Z.mod_pow2_bits_high by lia. symmetry. apply Z.bits_above_log2; unfold in_u in Hx; lia. }
  split.
  - destruct (clear_bit x (Z.log2 x) Hlog Hx) as [Hr Hb]. apply Z.bits_inj'. intros i Hi.
    destruct (Z.lt_ge_cases i 64); [by rewrite Hb, Hm by lia|].
    rewrite (u64_bits_high _ i Hr) by lia. by rewrite Z.mod_pow2_bits_high by lia.
  - unfold popcount. rewrite <- (popcount_upto_clearbit 64 x (Z.log2 x)) by (done || simpl; lia).
    apply popcount_upto_ext. intros i Hi. rewrite Hm by (simpl in Hi; lia). case_decide as Hd.
    + subst. by rewrite Z.clearbit_eq by lia.
    + by rewrite Z.clearbit_neq by lia.
Qed.

(** Clearing at most as many bits as are set keeps the lowest ones. *)
Lemma clear_upper_spec k x : in_u 64 x -> Z.of_nat k <= popcount x ->
  exists c, 0 <= c <= 64 /\ clear_upper k x = x mod 2 ^ c /\ popcount (clear_upper k x) = popcount x - Z.of_nat k.
Proof.
  revert x. induction k as [|k IH]; intros x Hx Hk.
  - exists 64. split; [lia|]. simpl. split; [|lia]. symmetry. by apply Z.mod_small.
  - assert (x <> 0) as Hn by (intros ->; unfold popcount in Hk; rewrite popcount_upto_0 in Hk; lia).
    destruct (land_clear_top x Hx Hn) as [He Hp]. simpl. rewrite He.
    assert (0 <= Z.log2 x < 64) as Hlog.
    { split; [apply Z.log2_nonneg|]. apply Z.log2_lt_pow2; [unfold in_u in Hx; lia|apply Hx]. }
    assert (0 < 2 ^ Z.log2 x) by (apply Z.pow_pos_nonneg; lia).
    pose proof (Z.mod_pos_bound x (2 ^ Z.log2 x)) as Hb.
    assert (2 ^ Z.log2 x < 2 ^ 64) by (apply Z.pow_lt_mono_r; lia).
    destruct (IH (x mod 2 ^ Z.log2 x)) as (c & Hc & Hr & Hq); [unfold in_u; lia|lia|].
    exists (Z.min c (Z.log2 x)). split; [lia|]. split; [|lia].
    rewrite Hr. apply Z.bits_inj'. intros i Hi.
    rewrite !Z.testbit_mod_pow2 by lia.
    destruct (Z.ltb_spec i c), (Z.ltb_spec i (Z.log2 x)), (Z.ltb_spec i (Z.min c (Z.log2 x))); simpl; done || lia.
Qed.

Lemma limit_scan_spec after before limit b a r :
  0 <= limit -> limit_scan before after limit = (b, a, r) ->
  b ++ a = before ++ after /\ r = limit + total before - total b /\ (0 < r -> a = []) /\
  (r < 0 -> exists pre x, b = pre ++ [x] /\ - r <= popcount x).
Proof.
  revert before limit. induction after as [|w after IH]; intros before limit Hl H; simpl in H.
  - simplify_eq. repeat split; [lia| lia].
  - destruct (Z.ltb_spec 0 limit); [|simplify_eq; repeat split; lia].
    destruct (Z.lt_ge_cases (limit - popcount w) 0) as [Hneg|Hpos].
    + assert (limit_scan (before ++ [w]) after (limit - popcount w) =
        (before ++ [w], after, limit - popcount w)) as He.
      { destruct after; simpl; [done|]. destruct (Z.ltb_spec 0 (limit - popcount w)); [lia|done]. }
      rewrite He in H. simplify_eq. split; [by rewrite <- app_assoc|].
      rewrite total_app. unfold total at 3. simpl. repeat split; [lia|lia|].
      intros _. exists before, w. split; [done|lia].
    + apply IH in H as (He & Hr & Hp & Hq); [|lia]. rewrite <- app_assoc in He. split; [done|].
      rewrite total_app in Hr. unfold total at 2 in Hr. simpl in Hr. repeat split; [lia|done..].
Qed.

Lemma bit_at_zeros n k : bit_at n (replicate k 0) = false.
Proof.
  unfold bit_at. destruct (replicate k 0 !! _) eqn:E; simpl; [|apply Z.bits_0].
  apply lookup_replicate in E as [-> _]. apply Z.bits_0.
Qed.

Lemma total_zeros k : total (replicate k 0) = 0.
Proof. induction k; simpl; [done|]. unfold total in *. simpl. rewrite IHk. unfold popcount. by rewrite popcount_upto_0. Qed.

(** * The refinement *)

(** What the set operations promise: the words are 64-bit, and few enough. *)
Definition set_ok (s : LogicalProcessorSet) : Prop := set_wf s /\ set_small s.

Lemma ensureSize_small n s : cpu_ok n -> set_small s -> set_small (ensureSize n s).
Proof.
  intros [? ?] Hs. unfold set_small, ensureSize, ProcessorsPerWord, MinSize in *.
  rewrite wrap_u_small by (unfold in_u; lia). case_match; [|done].
  simpl. rewrite len_app. unfold len in *. rewrite length_replicate.
  assert (n / 64 < 2 ^ 25) by (apply Z.div_lt_upper_bound; lia).
  assert (0 <= n / 64) by (apply Z.div_pos; lia). change (1024 / 64) with 16. lia.
Qed.

Lemma modify_word_small n f s s' : cpu_ok n -> set_small s -> modify_word n f s = Ret s' -> set_small s'.
Proof.
  intros Hn Hs H. unfold modify_word in H. inv_ret. unfold set_small. simpl.
  unfold len. rewrite length_insert. by apply ensureSize_small.
Qed.

Lemma abs_ok n s : set_small s -> n ∈ abs s -> cpu_ok n.
Proof.
  unfold abs, set_small, cpu_ok. rewrite elem_of_list_to_set, elem_of_members. lia.
Qed.

Lemma elem_of_abs_small n s : set_small s -> n ∈ abs s <-> cpu_ok n /\ is_set n s = true.
Proof.
  intros Hs. split.
  - intros H. pose proof (abs_ok n s Hs H). by rewrite elem_of_abs in H.
  - intros [? ?]. by apply elem_of_abs.
Qed.

(** Changing one processor's membership. *)
Lemma modify_word_abs n f b s :
  cpu_ok n -> set_ok s ->
  (forall w, in_u 64 w -> in_u 64 (f w) /\
     forall i, 0 <= i < 64 -> Z.testbit (f w) i = if decide (i = n mod 64) then b else Z.testbit w i) ->
  exists s', modify_word n f s = Ret s' /\ set_ok s' /\
    abs s' = if b then {[n]} ∪ abs s else abs s ∖ {[n]}.
Proof.
  intros Hn [Hw Hs] Hf. destruct (modify_word_spec n f b s Hn Hw Hf) as (s' & Hr & Hw' & Hb).
  pose proof (modify_word_small n f s s' Hn Hs Hr) as Hs'.
  exists s'. split; [done|]. split; [by split|]. apply set_eq. intros m.
  rewrite elem_of_abs_small by done. destruct b.
  - rewrite elem_of_union, elem_of_singleton, elem_of_abs_small by done. split.
    + intros [Hm H]. rewrite Hb in H by done. case_decide; tauto.
    + intros [->|[Hm H]]; (split; [done|]); rewrite Hb by done; by case_decide.
  - rewrite elem_of_difference, elem_of_singleton, elem_of_abs_small by done. split.
    + intros [Hm H]. rewrite Hb in H by done. case_decide; [done|tauto].
    + intros [[Hm H] Hne]. split; [done|]. rewrite Hb by done. by rewrite decide_False.
Qed.

(** A word without set bits is zero. *)
Lemma popcount_zero w : in_u 64 w -> popcount w = 0 -> w = 0.
Proof.
  intros Hw Hp. apply Z.bits_inj'. intros i Hi. rewrite Z.bits_0.
  destruct (Z.lt_ge_cases i 64); [by apply (popcount_upto_eq_0 64 w Hp)|].
  by apply u64_bits_high.
Qed.

Lemma empty_abs s : set_ok s -> empty s = true <-> abs s = ∅.
Proof.
  intros [Hw Hs]. unfold empty. rewrite forallb_forall. split.
  - intros H. apply set_eq. intros m. rewrite elem_of_abs_small by done.
    rewrite elem_of_empty. split; [|done]. intros [Hmo Hb]. rewrite is_set_bit in Hb by done.
    unfold bit_at in Hb. destruct (array s !! _) as [w|] eqn:E; [|by rewrite Z.bits_0 in Hb].
    specialize (H w). rewrite (proj1 (Z.eqb_eq w 0)) in Hb; [by rewrite Z.bits_0 in Hb|].
    by apply H, list_elem_of_In, list_elem_of_lookup_2 with (Z.to_nat (m / 64)).
  - intros He w Hin. apply Z.eqb_eq. pose proof (count_size s Hs) as Hc.
    rewrite He, size_empty in Hc. change (count s) with (total (array s)) in Hc.
    apply list_elem_of_In, list_elem_of_split in Hin as (l1 & l2 & Hl).
    unfold set_wf in Hw. rewrite Hl in Hc, Hw.
    rewrite total_app in Hc. change (total (w :: l2)) with (popcount w + total l2) in Hc.
    pose proof (total_nonneg l1). pose proof (total_nonneg l2).
    pose proof (popcount_upto_range 64 w : 0 <= popcount w <= 64).
    apply Forall_app in Hw as [_ Hw]. apply Forall_cons in Hw as [Hw _].
    apply popcount_zero; [done|lia].
Qed.

Lemma set_cpu_abs n s : cpu_ok n -> set_ok s ->
  exists s', set_cpu n s = Ret s' /\ set_ok s' /\ abs s' = {[n]} ∪ abs s.
Proof.
  intros Hn Hs. apply (modify_word_abs n _ true); [done..|]. intros w Hw.
  rewrite bitFor_ok by done. apply lor_bit; [|done]. apply Z.mod_pos_bound. lia.
Qed.

(** C23. The bitmap refines a finite set: for every processor number that is a
    non-negative int, set() adds it, unset() removes it, is_set() decides
    membership, count() is the cardinality and empty() says that there is no
    member; set() and unset() never read or write out of the array, which they
    grow when it is too short. *)
Theorem processor_set_refines (n : Z) (s : LogicalProcessorSet) :
  cpu_ok n -> set_ok s ->
  (exists s', set_cpu n s = Ret s' /\ set_ok s' /\ abs s' = {[n]} ∪ abs s) /\
  (exists s', unset_cpu n s = Ret s' /\ set_ok s' /\ abs s' = abs s ∖ {[n]}) /\
  (is_set n s = true <-> n ∈ abs s) /\ count s = Z.of_nat (size (abs s)) /\
  (empty s = true <-> abs s = ∅).
Proof.
  intros Hn Hs. pose proof (Z.mod_pos_bound n 64 ltac:(lia)) as Hm.
  split; [|split]; [..|split; [by rewrite elem_of_abs|split; [by apply count_size; apply Hs|]]].
  - by apply set_cpu_abs.
  - apply (modify_word_abs n _ false); [done..|]. intros w Hw. rewrite bitFor_ok by done. by apply clear_bit.
  - by apply empty_abs.
Qed.

Lemma processor_set_refines_witness : exists s', set_cpu 70 (make_set 1) = Ret s' /\ abs s' = {[70]}.
Proof.
  assert (cpu_ok 70) as Hn by (unfold cpu_ok; lia).
  assert (set_ok (make_set 1)) as Hs.
  { split; [|unfold set_small; vm_compute; done]. apply Forall_replicate. unfold in_u. lia. }
  destruct (processor_set_refines 70 (make_set 1) Hn Hs) as ((s' & Hr & _ & Ha) & _).
  exists s'. split; [done|]. rewrite Ha. apply (bool_decide_unpack _). by vm_compute.
Defined.

(** Two arrays of the same length whose bits agree below [bound], the first
    one having none from there on. *)
Lemma abs_below l l' bound :
  set_small {| array := l |} -> length l' = length l ->
  (forall n, 0 <= n -> bit_at n l' = bit_at n l && (n <? bound)) ->
  set_small {| array := l' |} /\
  forall n, n ∈ abs {| array := l' |} <-> n ∈ abs {| array := l |} /\ n < bound.
Proof.
  intros Hs Hlen Hb.
  assert (set_small {| array := l' |}) as Hs' by (unfold set_small, len in *; simpl in *; lia).
  split; [done|]. intros n. rewrite !elem_of_abs_small by done. split.
  - intros [Hn Hi]. rewrite is_set_bit in * by done. simpl in *.
    rewrite Hb in Hi by (unfold cpu_ok in Hn; lia). apply andb_prop in Hi as [? ?%Z.ltb_lt]. done.
  - intros [[Hn Hi] Hlt]. rewrite is_set_bit in * by done. simpl in *. split; [done|].
    rewrite Hb, Hi by (unfold cpu_ok in Hn; lia). by apply Z.ltb_lt.
Qed.

Lemma zeros_bits b a k n : 0 <= n ->
  bit_at n (b ++ replicate k 0) = bit_at n (b ++ a) && (n <? 64 * len b).
Proof.
  intros Hn. rewrite !bit_at_app by done. destruct (Z.ltb_spec n (64 * len b)).
  - by rewrite andb_true_r.
  - by rewrite bit_at_zeros, andb_false_r.
Qed.

Lemma cut_bits pre x a c k n : 0 <= c <= 64 -> 0 <= n ->
  bit_at n (pre ++ (x mod 2 ^ c) :: replicate k 0) = bit_at n (pre ++ x :: a) && (n <? 64 * len pre + c).
Proof.
  intros Hc Hn. rewrite !bit_at_app by done. destruct (Z.ltb_spec n (64 * len pre)).
  - destruct (Z.ltb_spec n (64 * len pre + c)); [by rewrite andb_true_r|lia].
  - change (x mod 2 ^ c :: replicate k 0) with ([x mod 2 ^ c] ++ replicate k 0).
    change (x :: a) with ([x] ++ a). rewrite !bit_at_app by lia.
    change (64 * len [x mod 2 ^ c]) with 64. change (64 * len [x]) with 64.
    destruct (Z.ltb_spec (n - 64 * len pre) 64).
    + rewrite !bit_at_singleton by lia. rewrite Z.testbit_mod_pow2 by lia.
      destruct (Z.ltb_spec (n - 64 * len pre) c), (Z.ltb_spec n (64 * len pre + c));
        lia || by rewrite ?andb_true_r, ?andb_false_r.
    + rewrite bit_at_zeros. destruct (Z.ltb_spec n (64 * len pre + c)); [lia|by rewrite andb_false_r].
Qed.

Lemma cut_range x c : 0 <= c <= 64 -> in_u 64 (x mod 2 ^ c).
Proof.
  intros. assert (0 < 2 ^ c) by (apply Z.pow_pos_nonneg; lia).
  pose proof (Z.mod_pos_bound x (2 ^ c)). assert (2 ^ c <= 2 ^ 64) by (apply Z.pow_le_mono_r; lia).
  unfold in_u. lia.
Qed.

Lemma zeros_wf k : Forall (in_u 64) (replicate k 0).
Proof. apply Forall_replicate. unfold in_u. lia. Qed.

(** The array that limit_to() leaves. *)
Lemma limit_to_array limit l :
  0 <= limit -> set_wf {| array := l |} ->
  exists l' bound, limit_to limit {| array := l |} = Ret {| array := l' |} /\
    Forall (in_u 64) l' /\ length l' = length l /\ total l' = Z.min limit (total l) /\
    forall n, 0 <= n -> bit_at n l' = bit_at n l && (n <? bound).
Proof.
  unfold set_wf, limit_to. simpl. intros Hl Hw.
  destruct (limit_scan [] l limit) as [[b a] r] eqn:Hscan.
  apply limit_scan_spec in Hscan as (He & Hr & Hp & Hq); [|done].
  simpl in He. unfold total in Hr at 1. simpl in Hr. subst l. pose proof (total_nonneg a).
  rewrite total_app. apply Forall_app in Hw as [Hb Ha].
  destruct (Z.ltb_spec r 0) as [Hneg|Hpos].
  - destruct (Hq Hneg) as (pre & x & -> & Hx). rewrite last_snoc. simpl.
    apply Forall_app in Hb as [Hpre [Hx64 _]%Forall_cons].
    destruct (clear_upper_spec (Z.to_nat (- r)) x Hx64 ltac:(lia)) as (c & Hc & Hcl & Hcp).
    rewrite length_app, Nat.add_sub, take_app_length.
    eexists _, (64 * len pre + c). split; [done|].
    rewrite Hcl in *. rewrite <- !app_assoc. simpl. rewrite !Forall_app, Forall_cons, !length_app.
    split; [eauto using cut_range, zeros_wf|]. split; [simpl; by rewrite length_replicate|]. split.
    + change (_ :: replicate _ 0) with ([x mod 2 ^ c] ++ replicate (length a) 0).
      rewrite !total_app, total_zeros in *. unfold total in Hr at 2. unfold total at 2 4. simpl in *. lia.
    + intros n Hn. by apply cut_bits.
  - simpl. eexists _, (64 * len b). split; [done|].
    rewrite Forall_app, !length_app, length_replicate, total_app, total_zeros.
    split; [eauto using zeros_wf|]. split; [done|]. split; [|intros; by apply zeros_bits].
    destruct (decide (0 < r)) as [Hr0|]; [rewrite (Hp Hr0); unfold total at 3; simpl|]; lia.
Qed.

(** limit_to(n) with n not negative keeps the n lowest members, or all of
    them when there are fewer: the result is the set of the members below some
    processor number and has min(n, count) members. *)
Theorem limit_to_lowest (limit : Z) (s : LogicalProcessorSet) :
  0 <= limit -> set_ok s ->
  exists s' bound, limit_to limit s = Ret s' /\ set_ok s' /\
    (forall n, n ∈ abs s' <-> n ∈ abs s /\ n < bound) /\
    count s' = Z.min limit (count s).
Proof.
  intros Hl [Hw Hs]. destruct s as [l].
  destruct (limit_to_array limit l Hl Hw) as (l' & bound & Hr & Hf & Hlen & Ht & Hb).
  destruct (abs_below l l' bound Hs Hlen Hb) as [Hs' Habs].
  exists {| array := l' |}, bound. repeat split; try done; by apply Habs.
Qed.

Lemma limit_to_lowest_witness : exists s' bound,
  limit_to 5 {| array := [12; 255; 7] |} = Ret s' /\ count s' = 5 /\
  forall n, n ∈ abs s' <-> n ∈ abs {| array := [12; 255; 7] |} /\ n < bound.
Proof.
  destruct (limit_to_lowest 5 {| array := [12; 255; 7] |}) as (s' & bound & Hr & _ & Ha & Hc).
  - lia.
  - split; [|by vm_compute]. repeat constructor; unfold in_u; lia.
  - exists s', bound. split; [done|]. split; [by rewrite Hc|done].
Defined.
