(* ===== verification/CpuInfo.v ===== *)
(** What is known about each logical processor and where it comes from
    (struct cpu_info of src/framework/sandstone.h, the detection functions of
    topology.cpp): the order of the processors, the mock topology, the parser
    of /proc/cpuinfo, the NUMA lists of sysfs, the CPUID leaves. *)

From S2P Require Import Prelude CStdlib CpuSet.

(** * The data *)

Record cache_info := { cache_instruction : Z; cache_data : Z }.

(** struct cpu_info: ppin and microcode are 64 bits wide, cpu_number and hwid
    are ints, the other ids are int16_t, family and stepping are bytes and
    model a uint16_t. *)
Record cpu_info := mk_cpu {
  ppin : Z; microcode : Z; cpu_number : Z;
  thread_id : Z; core_id : Z; module_id : Z; tile_id : Z; numa_id : Z; package_id : Z;
  hwid : Z; cache : list cache_info; family : Z; stepping : Z; model : Z;
}.

#[export] Instance cache_info_eq_dec : EqDecision cache_info.
Proof. solve_decision. Defined.
#[export] Instance cpu_info_eq_dec : EqDecision cpu_info.
Proof. solve_decision. Defined.

(** Assignments to single fields. *)
Definition set_ppin v '(mk_cpu a b c d e f g h i j k l m n) := mk_cpu v b c d e f g h i j k l m n.
Definition set_microcode v '(mk_cpu a b c d e f g h i j k l m n) := mk_cpu a v c d e f g h i j k l m n.
Definition set_cpu_number v '(mk_cpu a b c d e f g h i j k l m n) := mk_cpu a b v d e f g h i j k l m n.
Definition set_thread_id v '(mk_cpu a b c d e f g h i j k l m n) := mk_cpu a b c v e f g h i j k l m n.
Definition set_core_id v '(mk_cpu a b c d e f g h i j k l m n) := mk_cpu a b c d v f g h i j k l m n.
Definition set_module_id v '(mk_cpu a b c d e f g h i j k l m n) := mk_cpu a b c d e v g h i j k l m n.
Definition set_tile_id v '(mk_cpu a b c d e f g h i j k l m n) := mk_cpu a b c d e f v h i j k l m n.
Definition set_numa_id v '(mk_cpu a b c d e f g h i j k l m n) := mk_cpu a b c d e f g v i j k l m n.
Definition set_package_id v '(mk_cpu a b c d e f g h i j k l m n) := mk_cpu a b c d e f g h v j k l m n.
Definition set_hwid v '(mk_cpu a b c d e f g h i j k l m n) := mk_cpu a b c d e f g h i v k l m n.
Definition set_cache v '(mk_cpu a b c d e f g h i j k l m n) := mk_cpu a b c d e f g h i j v l m n.
Definition set_fms fam mod_ st '(mk_cpu a b c d e f g h i j k l m n) := mk_cpu a b c d e f g h i j k fam st mod_.
Definition set_stepping v '(mk_cpu a b c d e f g h i j k l m n) := mk_cpu a b c d e f g h i j k l v n.
Definition set_model v '(mk_cpu a b c d e f g h i j k l m n) := mk_cpu a b c d e f g h i j k l m v.

Definition zero_cpu : cpu_info :=
  mk_cpu 0 0 0 0 0 0 0 0 0 0 (replicate 3 {| cache_instruction := 0; cache_data := 0 |}) 0 0 0.

(** * The order of the processors *)

(** cpu_tuple: two 64-bit little-endian loads, the first over module_id,
    tile_id, numa_id and package_id, the second over cpu_number, thread_id and
    core_id. *)
Definition cpu_tuple (c : cpu_info) : Z * Z :=
  (u16 (module_id c) + 2 ^ 16 * u16 (tile_id c) + 2 ^ 32 * u16 (numa_id c) + 2 ^ 48 * u16 (package_id c),
   u32 (cpu_number c) + 2 ^ 32 * u16 (thread_id c) + 2 ^ 48 * u16 (core_id c)).

Definition cpu_compare (cpu1 cpu2 : cpu_info) : bool :=
  let '(h1, l1) := cpu_tuple cpu1 in
  let '(h2, l2) := cpu_tuple cpu2 in
  (h1 <? h2) || ((h1 =? h2) && (l1 <? l2)).

(** The order std::sort() establishes: no element is less than an earlier
    one. *)
Definition cpu_le (cpu1 cpu2 : cpu_info) : Prop := cpu_compare cpu2 cpu1 = false.
#[export] Instance cpu_le_dec : RelDecision cpu_le.
Proof. intros a b. unfold cpu_le. apply _. Defined.

(** reorder_cpus(); the processors have different numbers, so the sorted array
    is unique. *)
Definition reorder_cpus (l : list cpu_info) : list cpu_info := merge_sort cpu_le l.

(** * The mock topology *)

(** parse_int_and_advance: the number, the new value of the pointer [topo]
    ([None] is nullptr) and the result. *)
Definition parse_int_and_advance (topo : str) : Z * option str * bool :=
  let '(v, rest, _) := strtoll 0 topo in
  if (length rest =? length topo)%nat then (v, None, false)
  else match rest with
       | [] => (v, None, false)
       | c :: r => (v, Some r, negb (char_eqb c " "%char))
       end.

Section Mock.
(** Whether the build has __AVX2__ defined. *)
Context (avx2 : bool).

Definition proto_cpu : cpu_info :=
  set_cache (replicate 3 {| cache_instruction := -1; cache_data := -1 |})
    (set_fms 6 (if avx2 then 60 else 37) 0 zero_cpu).

Definition mock_cache : list cache_info :=
  [{| cache_instruction := 8192; cache_data := 8192 |};
   {| cache_instruction := 32768; cache_data := 32768 |};
   {| cache_instruction := 262144; cache_data := 262144 |}].

(** The fields after the core, in their order, each converted to its type. *)
Definition mock_fields : list (Z -> cpu_info -> cpu_info) :=
  [fun v => set_thread_id (i16 v); fun v => set_model (u16 v);
   fun v => set_stepping (u8 v); fun v => set_microcode (u64 v)].

Fixpoint parse_fields (fields : list (Z -> cpu_info -> cpu_info)) (topo : option str) (info : cpu_info)
  : cpu_info * option str :=
  match fields, topo with
  | f :: fields, Some t =>
      let '(v, t', more) := parse_int_and_advance t in
      if more then parse_fields fields t' (f v info) else (f v info, t')
  | _, _ => (info, topo)
  end.

(** The body of the loop over the entries. *)
Definition parse_mock_entry (n : Z) (topo : str) : cpu_info * option str :=
  let info := set_cache mock_cache (set_cpu_number (i32 n) proto_cpu) in
  let '(v, topo, more) := parse_int_and_advance topo in
  let info := set_package_id (i16 v) info in
  match more, topo with
  | true, Some topo =>
      let '(v, topo, more) := parse_int_and_advance topo in
      let info := set_module_id (i16 v) (set_core_id (i16 v) info) in
      if more then parse_fields mock_fields topo info else (info, topo)
  | _, _ => (info, topo)
  end.

(** The loop: every entry consumes a character, so the length of the text is
    enough fuel. *)
Fixpoint mock_loop (fuel : nat) (n : Z) (topo : option str) : list cpu_info :=
  match fuel, topo with
  | S fuel, Some (c :: t) =>
      let '(info, topo') := parse_mock_entry n (c :: t) in
      info :: mock_loop fuel (n + 1) topo'
  | _, _ => []
  end.

Definition create_mock_topology (topo : option str) : list cpu_info :=
  mock_loop (length (default [] topo)) 0 topo.
End Mock.

(** The first enabled processor from [curr] on; the loop over the numbers only
    ends at one. *)
Fixpoint next_enabled (fuel : nat) (curr : Z) (s : LogicalProcessorSet) : outcome Z :=
  match fuel with
  | O => Ub
  | S f => if is_set curr s then Ret curr else next_enabled f (curr + 1) s
  end.

(** The first [count] enabled processors, as the loops of
    apply_mock_topology() and init_topology_internal() visit them. *)
Fixpoint enabled_from (count : nat) (curr : Z) (s : LogicalProcessorSet) : outcome (list Z) :=
  match count with
  | O => Ret []
  | S count =>
      n ← next_enabled (S (Z.to_nat (64 * len (array s)))) curr s;
      rest ← enabled_from count (n + 1) s;
      Ret (n :: rest)
  end.

Definition apply_mock_topology (mock_topology : list cpu_info) (enabled_cpus : LogicalProcessorSet)
  : outcome (list cpu_info) :=
  let count := Z.min (i32 (len mock_topology)) (count enabled_cpus) in
  numbers ← enabled_from (Z.to_nat count) 0 enabled_cpus;
  fold_outcome (fun acc n => c ← at_ mock_topology n; Ret (acc ++ [c])) numbers [].

(** The part of init_topology_internal() before the detection: every field is
    "not available" but the processor's number. *)
Definition blank_cpu (old : cpu_info) (n : Z) : cpu_info :=
  set_cache (replicate 3 {| cache_instruction := -1; cache_data := -1 |})
    (set_hwid (-1) (set_thread_id (-1) (set_core_id (-1) (set_module_id (-1) (set_tile_id (-1)
      (set_numa_id (-1) (set_package_id (-1) (set_cpu_number n old)))))))).

Definition init_numbers (thread_count : Z) (enabled_cpus : LogicalProcessorSet) : outcome (list cpu_info) :=
  _ ← assertion (thread_count =? count enabled_cpus);
  numbers ← enabled_from (Z.to_nat thread_count) 0 enabled_cpus;
  Ret (map (blank_cpu zero_cpu) numbers).

(** * /proc/cpuinfo *)

(** std::map<std::string, std::string>, which keeps the first value inserted
    for a key. *)
Abbreviation Fields := (list (str * str)).

Definition map_find (k : str) (m : Fields) : option str := snd <$> List.find (fun kv => str_eqb kv.1 k) m.
Definition map_insert (k v : str) (m : Fields) : Fields :=
  match map_find k m with Some _ => m | None => m ++ [(k, v)] end.

Record linux_cpu_info := { general_fields : Fields; cpu_fields : list Fields }.

Definition is_blank (c : ascii) : bool := char_eqb c " "%char || char_eqb c (char_of 9).

(** The status of a process that std::terminate() ends. *)
Definition EXIT_ABORT : Z := 134.

(** The loops of trimmed_string over the positions [s] and [e] of a line; the
    second one goes on below [s] when nothing is left. *)
Fixpoint trim_left (fuel : nat) (line : str) (s e : Z) : outcome Z :=
  match fuel with
  | O => Ret s
  | S fuel =>
      if s =? e then Ret s
      else c ← at_ line s; if is_blank c then trim_left fuel line (s + 1) e else Ret s
  end.
Fixpoint trim_right (fuel : nat) (line : str) (s e : Z) : outcome Z :=
  match fuel with
  | O => Ret e
  | S fuel =>
      if e - 1 =? s then Ret e
      else c ← at_ line (e - 1); if is_blank c then trim_right fuel line s (e - 1) else Ret e
  end.

(** A negative length makes the constructor of std::string throw. *)
Definition trimmed_string (line : str) (s e : Z) : outcome str :=
  s ← trim_left (S (length line)) line s e;
  e ← trim_right (S (length line)) line s e;
  if e <? s then Exit EXIT_ABORT
  else Ret (take (Z.to_nat (e - s)) (drop (Z.to_nat s) line)).

(** The position of the first colon. *)
Definition find_colon (line : str) : option Z :=
  Z.of_nat ∘ fst <$> list_find (fun c => c = ":"%char) line.

Definition header : str := L "processor" ++ [char_of 9].

(** One line of the file; [current] is the processor whose fields are being
    read, [None] for the general ones. *)
Definition cpuinfo_line (st : linux_cpu_info * option nat) (line : str)
  : outcome (linux_cpu_info * option nat) :=
  let '(info, current) := st in
  let colon := find_colon line in
  if (length line =? 0)%nat then Ret (info, None)
  else if bool_decide (header `prefix_of` line) then
    colon ← of_option colon;
    let '(value, _, _) := strtoull 0 (drop (Z.to_nat (colon + 1)) line) in
    _ ← assertion (value <? ULLONG_MAX);
    let n := (Z.to_nat value + 1)%nat in
    let fields := if len (cpu_fields info) <=? value
                  then cpu_fields info ++ replicate (n - length (cpu_fields info)) []
                  else cpu_fields info in
    Ret ({| general_fields := general_fields info; cpu_fields := fields |}, Some (Z.to_nat value))
  else match colon with
  | None => Ret (info, current)
  | Some colon =>
      k ← trimmed_string line 0 colon;
      v ← trimmed_string line (colon + 1) (len line);
      Ret (match current with
           | None => {| general_fields := map_insert k v (general_fields info); cpu_fields := cpu_fields info |}
           | Some n => {| general_fields := general_fields info;
                          cpu_fields := alter (map_insert k v) n (cpu_fields info) |}
           end, current)
  end.

Definition parse_proc_cpuinfo (lines : list str) : outcome linux_cpu_info :=
  st ← fold_outcome cpuinfo_line lines ({| general_fields := []; cpu_fields := [] |}, None);
  Ret st.1.

(** linux_cpu_info::number() *)
Definition number (info : linux_cpu_info) (cpu : Z) (field : str) (base : Z) : option Z :=
  let f := if cpu <? 0 then Some (general_fields info)
           else cpu_fields info !! Z.to_nat cpu in
  f ← f;
  text ← map_find field f;
  let '(value, rest, _) := strtoull base text in
  if (length rest <? length text)%nat then Some value else None.

(** * NUMA nodes *)

(** parse_cpulist_range: the range, and what is left of the list. *)
Definition parse_cpulist_range (ptr : str) : outcome (Z * Z * str) :=
  _ ← assertion (negb (length ptr =? 0)%nat);
  let '(start, endptr, _) := strtoll 10 ptr in
  _ ← assertion (length endptr <? length ptr)%nat;
  let '(stop, endptr) :=
    match endptr with
    | "-"%char :: r => let '(v, e, _) := strtoll 10 r in (i32 v, e)
    | _ => (i32 start, endptr)
    end in
  let endptr := match endptr with ","%char :: r => r | _ => endptr end in
  Ret (i32 start, stop, endptr).

Section Numa.
Context (id : Z).

(** The scan for the first processor of the range: [cpu = end] is followed
    by the increment of the loop. *)
Fixpoint numa_scan (l : list cpu_info) (cpu : nat) (start stop : Z) : nat :=
  match l with
  | [] => cpu
  | c :: l' =>
      if stop <=? cpu_number c then (cpu + length l + 1)%nat
      else if start <=? cpu_number c then cpu
      else numa_scan l' (S cpu) start stop
  end.

(** The marking loop from [cpu] on: the array and the new position. *)
Fixpoint numa_mark (n : nat) (l : list cpu_info) (cpu : nat) (stop : Z) : list cpu_info * nat :=
  match n with
  | O => (l, cpu)
  | S n =>
      match l !! cpu with
      | Some c => if cpu_number c <=? stop
                  then numa_mark n (<[cpu := set_numa_id (i16 id) c]> l) (S cpu) stop
                  else (l, cpu)
      | None => (l, cpu)
      end
  end.

(** The body of the loop over the ranges. A negative [start] would index
    before the array. *)
Definition numa_range (st : list cpu_info * nat) (start stop : Z) : outcome (list cpu_info * nat) :=
  let '(l, cpu) := st in
  aligned ← (if start <? len l then c ← at_ l start; Ret (cpu_number c =? start) else Ret false);
  let cpu := if (aligned : bool) then Z.to_nat start
             else numa_scan (drop cpu l) cpu start stop in
  Ret (numa_mark (length l) l cpu stop).

(** The loop over a node's list; a range consumes at least one character. *)
Fixpoint numa_ranges (fuel : nat) (ptr : str) (st : list cpu_info * nat) : outcome (list cpu_info) :=
  match fuel with
  | O => Ret st.1
  | S fuel =>
      if (length ptr =? 0)%nat || (st.2 =? length st.1)%nat then Ret st.1
      else
        r ← parse_cpulist_range ptr;
        st ← numa_range st r.1.1 r.1.2;
        numa_ranges fuel r.2 st
  end.
End Numa.

(** fill_numa() over the nodes of sysfs, each with its number and the text of
    its cpulist file. *)
Definition fill_numa (nodes : list (Z * str)) (l : list cpu_info) : outcome (list cpu_info) :=
  fold_outcome (fun l node => numa_ranges node.1 (length node.2) node.2 (l, O)) nodes l.

(** * CPUID *)

Record cpuid_regs := { eax : Z; ebx : Z; ecx : Z; edx : Z }.

(** fill_family_cpuid(): the display family, model and stepping of leaf 1. *)
Definition decode_family (a : Z) : Z * Z * Z :=
  let family := Z.land (Z.shiftr a 8) 15 in
  let display_family := if family =? 15 then family + Z.land (Z.shiftr a 20) 255 else family in
  let model := Z.land (Z.shiftr a 4) 15 in
  let model := if (family =? 15) || (family =? 6)
               then model + Z.land (Z.shiftr a (16 - 4)) 240 else model in
  (display_family, model, Z.land a 15).

Definition fill_family_cpuid (leaf1 : cpuid_regs) (info : cpu_info) : cpu_info :=
  let '(fam, mod_, st) := decode_family (eax leaf1) in
  set_fms (u8 fam) mod_ st info.

(** A product of ints that overflows is undefined. *)
Definition mul_int (a b : Z) : outcome Z :=
  if bool_decide (in_s 32 (a * b)) then Ret (a * b) else Ub.

Definition max_levels : Z := 3.

(** fill_cache_info_cpuid(): the caches and the number of processors that
    share an L2 cache. The loop ends at the first subleaf of type 0; every
    "fatal" return is true as well. *)
Fixpoint fill_cache_info_cpuid (fuel : nat) (leaf4 : Z -> cpuid_regs) (subleaf : Z) (info : cpu_info) (sharing : Z)
  : outcome (cpu_info * Z) :=
  match fuel with
  | O => Ub
  | S fuel =>
      let r := leaf4 subleaf in
      let type := Z.land (eax r) 15 in
      if type =? 0 then Ret (info, sharing)
      else
        let level := Z.land (Z.shiftr (eax r) 5) 7 in
        if max_levels <? level then Ret (info, sharing)
        else
          let ways := Z.land (Z.shiftr (ebx r) 22) (2 ^ 9 - 1) + 1 in
          let parts := Z.land (Z.shiftr (ebx r) 12) (2 ^ 9 - 1) + 1 in
          let line_sz := Z.land (ebx r) (2 ^ 12 - 1) + 1 in
          let sets := i32 (ecx r + 1) in
          s1 ← mul_int ways parts;
          s2 ← mul_int s1 line_sz;
          size ← mul_int s2 sets;
          let sharing := if level =? 2
                         then Z.land (Z.shiftr (eax r) 14) (2 ^ 11 - 1) + 1 else sharing in
          let store := fun f =>
            c ← at_ (cache info) (level - 1);
            fill_cache_info_cpuid fuel leaf4 (subleaf + 1)
              (set_cache (<[Z.to_nat (level - 1) := f c]> (cache info)) info) sharing in
          if type =? 1 then store (fun c => {| cache_instruction := cache_instruction c; cache_data := size |})
          else if type =? 2 then store (fun c => {| cache_instruction := size; cache_data := cache_data c |})
          else if type =? 3 then store (fun _ => {| cache_instruction := size; cache_data := size |})
          else Ret (info, sharing)
  end.

(** The static variables of fill_topo_cpuid(): the leaf to use, 0 before the
    first call and negative when there is none, and the widths of the domains
    Logical, Core, Module, Tile and Package. *)
Record topo_state := { leaf : Z; widthsarray : list Z }.
Definition topo_state0 : topo_state := {| leaf := 0; widthsarray := replicate 5 0 |}.

Definition Logical : Z := 1.
Definition Core_ : Z := 2.
Definition Module_ : Z := 3.
Definition Tile : Z := 4.
Definition Package_ : Z := 5.

Definition width (w : list Z) (domain : Z) : Z := default 0 (w !! Z.to_nat (domain - 1)).
Definition set_width (w : list Z) (domain v : Z) : list Z := <[Z.to_nat (domain - 1) := v]> w.

(** The loop over the subleaves; it ends at the first one whose EBX is zero
    and leaves the EDX of that one in [apicid]. *)
Fixpoint read_widths (fuel : nat) (regs : Z -> cpuid_regs) (subleaf : Z) (w : list Z) : outcome (list Z * Z) :=
  match fuel with
  | O => Ub
  | S fuel =>
      let r := regs subleaf in
      if ebx r =? 0 then Ret (w, edx r)
      else
        let domain := Z.land (Z.shiftr (ecx r) 8) 255 in
        let a := Z.land (eax r) 15 in
        if domain =? 0 then Ub
        else
          let w := if domain <=? Tile then set_width w domain a else w in
          let w := set_width w Package_ (Z.max a (width w Package_)) in
          read_widths fuel regs (subleaf + 1) w
  end.

(** extract(start, end): the bits of the APIC ID from [start] to [end]. *)
Definition extract (apicid start end_ : Z) : Z :=
  let value := if end_ <? 32 then Z.land apicid (u32 (Z.lnot (u32 (Z.shiftl (2 ^ 32 - 1) end_)))) else apicid in
  Z.shiftr value start.

(** The ids of a processor from its APIC ID. *)
Definition topo_ids (w : list Z) (apicid max_cpus_sharing_l2 : Z) (info : cpu_info) : cpu_info :=
  let pkg := width w Package_ in
  let info := set_hwid (i32 apicid) info in
  let info := set_package_id (i16 (extract apicid pkg (2 ^ 32 - 1))) info in
  let info := set_thread_id (i16 (extract apicid 0 (width w Logical))) info in
  let info := set_core_id (i16 (extract apicid (width w Logical) pkg)) info in
  let next := width w Core_ in
  let '(info, next) :=
    if negb (width w Module_ =? 0)
    then (set_module_id (i16 (extract apicid next pkg)) info, width w Module_)
    else if negb (max_cpus_sharing_l2 =? 0)
    then (set_module_id (i16 (extract apicid (Z.log2 max_cpus_sharing_l2) pkg)) info, next)
    else (set_module_id (core_id info) info, next) in
  if negb (width w Tile =? 0) then set_tile_id (i16 (extract apicid next pkg)) info else info.

Section Cpuid.
(** What the CPUID instruction returns for a leaf and a subleaf on the
    processor the thread is pinned to. *)
Context (cpuid : Z -> Z -> cpuid_regs).

(** More subleaves than an 8-bit domain type has values. *)
Definition subleaves : nat := 256.

Definition fill_topo_cpuid (st : topo_state) (info : cpu_info) : outcome (topo_state * cpu_info * bool) :=
  if cpu_number info <? 0 then Ret (st, info, false)
  else
    r ← fill_cache_info_cpuid subleaves (cpuid 4) 0 info 0;
    let '(info, sharing) := r in
    if leaf st <? 0 then Ret (st, info, false)
    else if leaf st =? 0 then
      let a := eax (cpuid 0 0) in
      if a <? 11 then Ret ({| leaf := -1; widthsarray := widthsarray st |}, info, false)
      else
        let lf := if 31 <=? a then 31 else 11 in
        wa ← read_widths subleaves (cpuid lf) 0 (widthsarray st);
        let '(w, apicid) := wa in
        if (width w Logical =? 0) || (width w Core_ =? 0) || (width w Package_ =? 0)
        then Ret ({| leaf := -1; widthsarray := w |}, info, false)
        else
          Ret ({| leaf := lf; widthsarray := w |}, topo_ids w apicid sharing info, true)
    else Ret (st, topo_ids (widthsarray st) (edx (cpuid (leaf st) 0)) sharing info, true).
End Cpuid.

(** try_detection(): the detector that worked once is the only one asked from
    then on. Detectors that do not exist on the platform are null. [cached] is
    the index of the cached detector, [S] the type of what the detectors keep
    from one call to the next. *)
Section Detection.
Context {S : Type} (fnArray : list (option (S -> cpu_info -> outcome (S * cpu_info * bool)))).

Fixpoint first_detector (i : nat) (fns : list (option (S -> cpu_info -> outcome (S * cpu_info * bool)))) (st : S) (cpu : cpu_info)
  : outcome (option nat * S * cpu_info * bool) :=
  match fns with
  | [] => Ret (None, st, cpu, false)
  | None :: fns => first_detector (1 + i) fns st cpu
  | Some fn :: fns =>
      r ← fn st cpu;
      let '(st, cpu, ok) := r in
      if (ok : bool) then Ret (Some i, st, cpu, true) else first_detector (1 + i) fns st cpu
  end.

Definition try_detection (cached : option nat) (st : S) (cpu : cpu_info) : outcome (option nat * S * cpu_info * bool) :=
  let call (fn : S -> cpu_info -> outcome (S * cpu_info * bool)) : outcome (option nat * S * cpu_info * bool) := r ← fn st cpu; let '(st, cpu, ok) := r in Ret (cached, st, cpu, ok) in
  match fnArray with
  | [] => Ret (cached, st, cpu, false)
  | [None] => Ret (cached, st, cpu, true)
  | [Some fn] => call fn
  | _ =>
      match i ← cached; mjoin (fnArray !! i) with
      | Some fn => call fn
      | None => first_detector 0 fnArray st cpu
      end
  end.
End Detection.

(** * The order *)

(** Lexicographic order of keys of the same length. *)
Fixpoint lex_le (a b : list Z) : Prop :=
  match a, b with
  | x :: a, y :: b => x < y \/ (x = y /\ lex_le a b)
  | _, _ => True
  end.

(** The key of a processor: an id that is not known (-1) comes last. *)
Definition cpu_key (c : cpu_info) : list Z :=
  [u16 (package_id c); u16 (numa_id c); u16 (tile_id c); u16 (module_id c);
   u16 (core_id c); u16 (thread_id c); u32 (cpu_number c)].

Lemma cpu_le_lex a b : cpu_le a b <-> lex_le (cpu_key a) (cpu_key b).
Proof.
  unfold cpu_le, cpu_compare, cpu_tuple, cpu_key, lex_le.
  pose proof (wrap_u_range 16 ltac:(lia)) as H16. pose proof (wrap_u_range 32 ltac:(lia)) as H32.
  unfold in_u in H16, H32.
  pose proof (H16 (package_id a)). pose proof (H16 (numa_id a)). pose proof (H16 (tile_id a)).
  pose proof (H16 (module_id a)). pose proof (H16 (core_id a)). pose proof (H16 (thread_id a)).
  pose proof (H16 (package_id b)). pose proof (H16 (numa_id b)). pose proof (H16 (tile_id b)).
  pose proof (H16 (module_id b)). pose proof (H16 (core_id b)). pose proof (H16 (thread_id b)).
  pose proof (H32 (cpu_number a)). pose proof (H32 (cpu_number b)). clear H16 H32.
  rewrite orb_false_iff, andb_false_iff, !Z.ltb_ge, Z.eqb_neq. lia.
Qed.

#[export] Instance cpu_le_total : Total cpu_le.
Proof.
  intros a b. unfold cpu_le, cpu_compare. destruct (cpu_tuple a) as [h1 l1], (cpu_tuple b) as [h2 l2].
  rewrite !orb_false_iff, !andb_false_iff, !Z.ltb_ge, !Z.eqb_neq. lia.
Qed.

#[export] Instance cpu_le_trans : Transitive cpu_le.
Proof.
  intros a b c. unfold cpu_le, cpu_compare.
  destruct (cpu_tuple a) as [h1 l1], (cpu_tuple b) as [h2 l2], (cpu_tuple c) as [h3 l3].
  rewrite !orb_false_iff, !andb_false_iff, !Z.ltb_ge, !Z.eqb_neq. lia.
Qed.

(** Processors that compare equal have the same number. *)
Lemma cpu_le_antisym a b : cpu_le a b -> cpu_le b a -> u32 (cpu_number a) = u32 (cpu_number b).
Proof. rewrite !cpu_le_lex. unfold cpu_key. simpl. lia. Qed.

(** reorder_cpus() permutes the array and leaves it sorted by package,
    NUMA node, tile, module, core, thread and processor number, in this order
    of significance, although it compares two 64-bit words loaded over those
    fields. *)
Theorem reorder_cpus_sorted (l : list cpu_info) :
  reorder_cpus l ≡ₚ l /\
  forall i j a b, (i < j)%nat -> reorder_cpus l !! i = Some a -> reorder_cpus l !! j = Some b ->
    lex_le (cpu_key a) (cpu_key b).
Proof.
  split; [apply merge_sort_Permutation|]. intros i j a b Hij Ha Hb.
  apply cpu_le_lex. eapply sorted_lookup; [|exact Hij|exact Ha|exact Hb].
  apply StronglySorted_merge_sort; apply _.
Qed.

(** * The ids of a processor *)

Lemma extract_spec apicid start end_ :
  in_u 32 apicid -> 0 <= start -> 0 <= end_ < 32 ->
  extract apicid start end_ = (apicid mod 2 ^ end_) / 2 ^ start.
Proof.
  intros Ha Hs He. unfold extract. destruct (Z.ltb_spec end_ 32); [|lia].
  rewrite Z.shiftr_div_pow2 by done. f_equal. apply Z.bits_inj'. intros i Hi.
  unfold wrap_u. rewrite Z.land_spec, (Z.testbit_mod_pow2 apicid) by lia.
  rewrite Z.testbit_mod_pow2, Z.lnot_spec, Z.testbit_mod_pow2, Z.shiftl_spec by lia.
  change (2 ^ 32 - 1) with (Z.ones 32). destruct (Z.ltb_spec i end_).
  - destruct (Z.ltb_spec i 32); [|lia]. rewrite (Z.testbit_neg_r (Z.ones 32)) by lia. simpl.
    apply andb_true_r.
  - simpl. destruct (Z.ltb_spec i 32); simpl; [|by rewrite andb_false_r].
    rewrite Z.ones_spec_low by lia. simpl. apply andb_false_r.
Qed.

Lemma extract_high apicid start :
  0 <= start -> extract apicid start (2 ^ 32 - 1) = apicid / 2 ^ start.
Proof. intros. unfold extract. simpl. by rewrite Z.shiftr_div_pow2. Qed.

(** The widths of a CPUID leaf: 4 bits each, the package's the largest. *)
Definition widths_ok (w : list Z) : Prop :=
  0 <= width w Logical <= width w Package_ /\ width w Package_ < 16.

Lemma topo_ids_fields w apicid sharing info :
  let r := topo_ids w apicid sharing info in
  hwid r = i32 apicid /\ package_id r = i16 (extract apicid (width w Package_) (2 ^ 32 - 1)) /\
  thread_id r = i16 (extract apicid 0 (width w Logical)) /\
  core_id r = i16 (extract apicid (width w Logical) (width w Package_)) /\ cpu_number r = cpu_number info.
Proof.
  destruct info. unfold topo_ids. simpl.
  destruct (width w Module_ =? 0), (sharing =? 0), (width w Tile =? 0); simpl; done.
Qed.

(** The ids that fill_topo_cpuid() takes out of an APIC ID lose nothing:
    with at most 15 bits of package number, the APIC ID is the package, core and
    thread numbers laid side by side at the widths CPUID gave, so processors
    with different APIC IDs differ in one of the three. *)
Theorem topo_ids_lossless (w : list Z) (apicid sharing : Z) (info : cpu_info) :
  widths_ok w -> 0 <= apicid < 2 ^ (width w Package_ + 15) ->
  let r := topo_ids w apicid sharing info in
  package_id r * 2 ^ width w Package_ + core_id r * 2 ^ width w Logical + thread_id r = apicid /\
  hwid r = apicid /\ 0 <= package_id r /\ 0 <= core_id r /\ 0 <= thread_id r < 2 ^ width w Logical.
Proof.
  intros ((Hl & Hlp) & Hp) Ha r. subst r.
  destruct (topo_ids_fields w apicid sharing info) as (-> & -> & -> & -> & _).
  assert (2 ^ (width w Package_ + 15) <= 2 ^ 30) as H30 by (apply Z.pow_le_mono_r; lia).
  assert (in_u 32 apicid) as Hu by (unfold in_u; lia).
  rewrite extract_high, !extract_spec by (done || lia). rewrite Z.pow_0_r, Z.div_1_r.
  set (p := width w Package_) in *. set (t := width w Logical) in *.
  assert (0 < 2 ^ p /\ 0 < 2 ^ t) as [Hp0 Ht0] by (split; apply Z.pow_pos_nonneg; lia).
  assert (2 ^ p = 2 ^ (p - t) * 2 ^ t) as Hpt by (rewrite <- Z.pow_add_r by lia; f_equal; lia).
  assert (0 < 2 ^ (p - t)) by (apply Z.pow_pos_nonneg; lia).
  assert (2 ^ p <= 2 ^ 15 /\ 2 ^ t <= 2 ^ 15) as [Hp15 Ht15] by (split; apply Z.pow_le_mono_r; lia).
  pose proof (Z.mod_pos_bound apicid (2 ^ p) Hp0). pose proof (Z.mod_pos_bound apicid (2 ^ t) Ht0).
  assert (0 <= apicid / 2 ^ p < 2 ^ 15) as Hpk.
  { split; [apply Z.div_pos; lia|]. apply Z.div_lt_upper_bound; [lia|].
    rewrite Z.pow_add_r in Ha by lia. lia. }
  assert (0 <= apicid mod 2 ^ p / 2 ^ t < 2 ^ 15) as Hco.
  { split; [apply Z.div_pos; lia|]. apply Z.div_lt_upper_bound; [lia|].
    assert (2 ^ 15 * 1 <= 2 ^ 15 * 2 ^ t) by (apply Z.mul_le_mono_nonneg_l; lia). lia. }
  rewrite !wrap_s_small by (unfold in_s; simpl; lia). repeat split; try lia.
  assert (apicid mod 2 ^ t = (apicid mod 2 ^ p) mod 2 ^ t) as ->.
  { symmetry. apply Z.mod_mod_divide. exists (2 ^ (p - t)). lia. }
  pose proof (Z_div_mod_eq_full apicid (2 ^ p)). pose proof (Z_div_mod_eq_full (apicid mod 2 ^ p) (2 ^ t)). lia.
Qed.

Lemma topo_ids_lossless_witness :
  let r := topo_ids [1; 4; 0; 0; 7] 405 0 zero_cpu in
  package_id r * 2 ^ 7 + core_id r * 2 ^ 1 + thread_id r = 405.
Proof.
  apply (topo_ids_lossless [1; 4; 0; 0; 7] 405 0 zero_cpu).
  - unfold widths_ok. vm_compute. repeat split; discriminate.
  - vm_compute. split; [discriminate|done].
Defined.

(** * The numbers of the processors *)

Definition enabled_in (s : LogicalProcessorSet) (curr : Z) (m : nat) : list Z :=
  filter (fun n => is_set n s = true) (seqZ curr (Z.of_nat m)).

Lemma enabled_in_S s curr m :
  enabled_in s curr (S m) =
  if is_set curr s then curr :: enabled_in s (curr + 1) m else enabled_in s (curr + 1) m.
Proof.
  unfold enabled_in. rewrite seqZ_cons, filter_cons by lia.
  replace (Z.succ curr) with (curr + 1) by lia.
  replace (Z.pred (Z.of_nat (S m))) with (Z.of_nat m) by lia.
  by destruct (is_set curr s).
Qed.

Lemma next_enabled_spec s m : forall curr fuel n rest, (m < fuel)%nat ->
  enabled_in s curr m = n :: rest ->
  next_enabled fuel curr s = Ret n /\
  exists m', (m' < m)%nat /\ rest = enabled_in s (n + 1) m'.
Proof.
  induction m as [|m IH]; intros curr fuel n rest Hf H; [done|].
  destruct fuel as [|fuel]; [lia|]. rewrite enabled_in_S in H. simpl.
  destruct (is_set curr s).
  - simplify_eq. split; [done|]. exists m. split; [lia|done].
  - destruct (IH (curr + 1) fuel n rest ltac:(lia) H) as (? & m' & ? & ?).
    split; [done|]. exists m'. split; [lia|done].
Qed.

Lemma enabled_from_spec s k : forall curr m,
  (m <= Z.to_nat (64 * len (array s)))%nat -> (k <= length (enabled_in s curr m))%nat ->
  enabled_from k curr s = Ret (take k (enabled_in s curr m)).
Proof.
  induction k as [|k IH]; intros curr m Hm Hk; [done|].
  destruct (enabled_in s curr m) as [|n rest] eqn:E; simpl in Hk; [lia|].
  destruct (next_enabled_spec s m curr (S (Z.to_nat (64 * len (array s)))) n rest ltac:(lia) E) as (Hn & m' & Hlt & Hr).
  cbn [enabled_from]. rewrite Hn. simpl. rewrite (IH (n + 1) m') by (rewrite <- ?Hr; lia). by rewrite <- Hr.
Qed.

Lemma members_count s : set_small s -> count s = len (members s).
Proof.
  intros Hs. rewrite count_size by done. unfold abs, len.
  rewrite size_list_to_set; [done|]. apply NoDup_filter, NoDup_seqZ.
Qed.

Lemma enabled_members s k : (k <= length (members s))%nat -> enabled_from k 0 s = Ret (take k (members s)).
Proof.
  intros Hk. unfold members in *. assert (0 <= len (array s)) by (unfold len; lia).
  replace (64 * len (array s)) with (Z.of_nat (Z.to_nat (64 * len (array s)))) in * by lia.
  apply enabled_from_spec; [lia|done].
Qed.

(** init_topology_internal() gives entry i of the table the number of the
    i-th enabled processor: the loop finds every one and stops, and the numbers
    of the table are the members of the set in ascending order. *)
Theorem init_numbers_spec (s : LogicalProcessorSet) :
  set_ok s ->
  exists l, init_numbers (count s) s = Ret l /\ map cpu_number l = members s.
Proof.
  intros [_ Hs]. unfold init_numbers. rewrite Z.eqb_refl. simpl.
  rewrite members_count, enabled_members by (done || unfold len; lia).
  simpl. eexists. split; [done|]. rewrite map_map. unfold len. rewrite Nat2Z.id, firstn_all. apply map_id.
Qed.

Lemma init_numbers_spec_witness :
  exists l, init_numbers 3 {| array := [2 ^ 5 + 1; 8] |} = Ret l /\ map cpu_number l = [0; 5; 67].
Proof.
  destruct (init_numbers_spec {| array := [2 ^ 5 + 1; 8] |}) as (l & Hl & Hm).
  - split; [|by vm_compute]. repeat constructor; unfold in_u; lia.
  - exists l. split; [exact Hl|]. rewrite Hm. by vm_compute.
Defined.

Lemma copy_entries (mock : list cpu_info) ns : Forall (fun n => 0 <= n < len mock) ns -> forall acc,
  exists l, fold_outcome (fun acc n => c ← at_ mock n; Ret (acc ++ [c])) ns acc = Ret (acc ++ l) /\
    Forall2 (fun n c => mock !! Z.to_nat n = Some c) ns l.
Proof.
  induction 1 as [|n ns Hn Hns IH]; intros acc.
  - exists []. by rewrite app_nil_r.
  - destruct (at_ret mock n Hn) as (c & Hc & Hc'). simpl. rewrite Hc. simpl.
    destruct (IH (acc ++ [c])) as (l & -> & Hl2). exists (c :: l). rewrite <- app_assoc. auto.
Qed.

Lemma members_below s n : Forall (fun m => m < n) (members s) -> len (members s) <= Z.max 0 n.
Proof.
  intros Hm. assert (members s ⊆+ seqZ 0 n) as Hsub.
  { apply NoDup_submseteq; [apply NoDup_filter, NoDup_seqZ|]. intros m Hin.
    rewrite Forall_forall in Hm. specialize (Hm m Hin). apply elem_of_members in Hin.
    apply elem_of_seqZ. lia. }
  apply submseteq_length in Hsub. rewrite length_seqZ in Hsub. unfold len. lia.
Qed.

(** apply_mock_topology() copies the entries of the enabled processors,
    provided that every enabled processor has an entry. *)
Theorem apply_mock_topology_spec (mock : list cpu_info) (s : LogicalProcessorSet) :
  set_ok s -> len mock < 2 ^ 31 -> Forall (fun n => n < len mock) (members s) ->
  exists l, apply_mock_topology mock s = Ret l /\
    Forall2 (fun n c => mock !! Z.to_nat n = Some c) (members s) l.
Proof.
  intros [_ Hs] Hl Hm. unfold apply_mock_topology.
  pose proof (members_below s _ Hm) as Hle.
  assert (0 <= len (members s) /\ 0 <= len mock) as [? ?] by (unfold len; lia).
  rewrite wrap_s_small by (unfold in_s; simpl; lia).
  rewrite members_count, Z.min_r, enabled_members by (done || unfold len in *; lia).
  simpl. unfold len. rewrite Nat2Z.id, firstn_all.
  destruct (copy_entries mock (members s)) with (@nil cpu_info) as (l & -> & H2); [|by exists l].
  apply Forall_forall. intros n Hn. rewrite Forall_forall in Hm. specialize (Hm n Hn).
  apply elem_of_members in Hn. lia.
Qed.

Lemma apply_mock_topology_spec_witness :
  exists l, apply_mock_topology (create_mock_topology true (Some (L "0:0 0:1 0:2"))) {| array := [5] |} = Ret l.
Proof.
  destruct (apply_mock_topology_spec (create_mock_topology true (Some (L "0:0 0:1 0:2"))) {| array := [5] |})
    as (l & Hl & _); [..|by exists l].
  - split; [|by vm_compute]. repeat constructor; unfold in_u; lia.
  - by vm_compute.
  - repeat constructor; by vm_compute.
Defined.

(** A mock topology with as many entries as there are enabled processors is
    not enough: with processors 0 and 2 enabled, the second entry copied lies
    after the end of the vector. *)
Example apply_mock_topology_sparse :
  apply_mock_topology (create_mock_topology true (Some (L "0:0 0:1"))) {| array := [5] |} = Ub.
Proof. reflexivity. Qed.

(** * NUMA nodes *)

Definition set_numa_range (id start stop : Z) (i : nat) (c : cpu_info) : cpu_info :=
  if bool_decide (start <= Z.of_nat i <= stop) then set_numa_id (i16 id) c else c.

(** The table covers the system: entry i is processor i. *)
Definition table_aligned (l : list cpu_info) : Prop :=
  forall i c, l !! i = Some c -> cpu_number c = Z.of_nat i.

Lemma set_numa_id_number v c : cpu_number (set_numa_id v c) = cpu_number c.
Proof. by destruct c. Qed.

Lemma set_numa_range_none id start stop l :
  (forall i, (i < length l)%nat -> ~ (start <= Z.of_nat i <= stop)) -> imap (set_numa_range id start stop) l = l.
Proof.
  intros H. apply list_eq. intros i. rewrite list_lookup_imap.
  destruct (l !! i) eqn:E; simpl; [|done]. unfold set_numa_range.
  apply lookup_lt_Some in E. by rewrite bool_decide_false by auto.
Qed.

Lemma set_numa_range_step id (cpu : nat) stop l c :
  l !! cpu = Some c -> Z.of_nat cpu <= stop ->
  imap (set_numa_range id (Z.of_nat (S cpu)) stop) (<[cpu := set_numa_id (i16 id) c]> l) =
  imap (set_numa_range id (Z.of_nat cpu) stop) l.
Proof.
  intros E Hs. apply list_eq. intros i. rewrite !list_lookup_imap. unfold set_numa_range.
  destruct (decide (i = cpu)) as [->|Hne].
  - rewrite list_lookup_insert_eq, E by by eapply lookup_lt_Some. simpl.
    by rewrite bool_decide_false, bool_decide_true by lia.
  - rewrite list_lookup_insert_ne by done. destruct (l !! i); [|done].
    cbn -[Z.of_nat].
    rewrite (bool_decide_ext (Z.of_nat (S cpu) <= Z.of_nat i <= stop) (Z.of_nat cpu <= Z.of_nat i <= stop)) by lia.
    done.
Qed.

Lemma table_aligned_insert l cpu v c :
  table_aligned l -> l !! cpu = Some c -> table_aligned (<[cpu := set_numa_id v c]> l).
Proof.
  intros Hal E i c' Hi. destruct (decide (i = cpu)) as [->|Hne].
  - rewrite list_lookup_insert_eq in Hi by by eapply lookup_lt_Some. simplify_eq.
    rewrite set_numa_id_number. by apply Hal.
  - rewrite list_lookup_insert_ne in Hi by done. by apply Hal.
Qed.

Lemma numa_mark_spec id stop n : forall l cpu, table_aligned l -> (length l <= cpu + n)%nat ->
  (numa_mark id n l cpu stop).1 = imap (set_numa_range id (Z.of_nat cpu) stop) l.
Proof.
  induction n as [|n IH]; intros l cpu Hal Hn; cbn -[Z.of_nat].
  - symmetry. apply set_numa_range_none. lia.
  - destruct (l !! cpu) as [c|] eqn:E.
    + rewrite (Hal _ _ E). destruct (Z.leb_spec (Z.of_nat cpu) stop).
      * rewrite IH; [by apply set_numa_range_step|by apply table_aligned_insert|rewrite length_insert; lia].
      * symmetry. apply set_numa_range_none. lia.
    + apply lookup_ge_None in E. symmetry. apply set_numa_range_none. simpl. lia.
Qed.

(** On a table that covers the whole system (entry i is processor i), a
    range of a node's processor list gives its processors, and no other, the
    node's number. *)
Theorem numa_range_marks (id : Z) (l : list cpu_info) (cpu : nat) (start stop : Z) :
  table_aligned l -> 0 <= start < len l ->
  exists cpu', numa_range id (l, cpu) start stop = Ret (imap (set_numa_range id start stop) l, cpu').
Proof.
  intros Hal Hs. unfold numa_range. destruct (Z.ltb_spec start (len l)); [|lia].
  destruct (at_ret l start Hs) as (c & -> & E). simpl. rewrite (Hal _ _ E), Z2Nat.id, Z.eqb_refl by lia.
  pose proof (numa_mark_spec id stop (length l) l (Z.to_nat start) Hal ltac:(lia)) as Hm.
  rewrite Z2Nat.id in Hm by lia. destruct (numa_mark _ _ _ _ _) as [l' cpu']. simpl in Hm. subst. by exists cpu'.
Qed.

Definition aligned_table (n : nat) : list cpu_info := map (fun i => set_cpu_number i zero_cpu) (seqZ 0 (Z.of_nat n)).

Lemma aligned_table_ok n : table_aligned (aligned_table n).
Proof.
  intros i c. unfold aligned_table. rewrite list_lookup_fmap. intros H.
  destruct (seqZ 0 (Z.of_nat n) !! i) eqn:E; simpl in H; [|done]. simplify_eq.
  apply lookup_seqZ in E as [-> _]. simpl. lia.
Qed.

Lemma numa_range_marks_witness :
  exists cpu', numa_range 1 (aligned_table 8, O) 4 7 = Ret (imap (set_numa_range 1 4 7) (aligned_table 8), cpu').
Proof. apply (numa_range_marks 1 (aligned_table 8) O 4 7); [apply aligned_table_ok|by vm_compute]. Defined.

(** On a restricted set the forward scan stops one processor early: with
    processor 3 alone enabled, the node's list "3" does not mark it. *)
Example fill_numa_misses_last :
  fill_numa [(1, L "3")] [set_numa_id (-1) (set_cpu_number 3 zero_cpu)] =
  Ret [set_numa_id (-1) (set_cpu_number 3 zero_cpu)].
Proof. reflexivity. Qed.
