(* ===== verification/Topology.v ===== *)
(** The topology of the system (class Topology of src/framework/topology.h and
    its functions in topology.cpp): grouping the processors into packages, NUMA
    nodes and cores, the --cpuset option, restricting a process to a range of
    processors, and the mask that shows which threads of which cores failed. *)

From S2P Require Import Prelude CStdlib CpuSet CpuInfo ThreadData.

(** * The data *)

(** Topology::Core: a span of the cpu_info array, from the index of its first
    thread to the one after its last. *)
Record Core := { first : nat; last_ : nat }.
Record NumaNode := { n_cores : list Core }.
Record Package := { cores : list Core; numa_domains : list NumaNode }.

Definition Core_eq_dec_ : EqDecision Core.
Proof. solve_decision. Defined.
#[export] Existing Instance Core_eq_dec_.

(** The state: the array in shared memory, where the pointer cpu_info points
    into it, sApp->thread_count and the cached topology. *)
Record TopoState := {
  table : list cpu_info;
  base_cpu : nat;
  thread_count : nat;
  packages : list Package;
}.

(** The entries a process sees. *)
Definition view (t : TopoState) : list cpu_info := take (thread_count t) (drop (base_cpu t) (table t)).

Definition isValid (pkgs : list Package) : bool := negb (length pkgs =? 0)%nat.

(** * Building the topology *)

Section Build.
(** The cpu_info array. *)
Context (l : list cpu_info).

(** fill_in_threads over the cores of the range from [first] on; [rest] are
    the entries from [last] to the end of the range. *)
Fixpoint fill_in_threads (rest : list cpu_info) (first last : nat) (first_id : Z) : list Core :=
  match rest with
  | [] => [{| first := first; last_ := last |}]
  | c :: rest =>
      if core_id c =? first_id then fill_in_threads rest first (S last) first_id
      else {| first := first; last_ := last |} :: fill_in_threads rest last (S last) (core_id c)
  end.

(** populate_core_group(); an empty range gives one empty core. *)
Definition populate_core_group (begin_ end_ : nat) : list Core :=
  match drop begin_ (take end_ l) with
  | [] => [{| first := begin_; last_ := end_ |}]
  | c :: rest => fill_in_threads rest begin_ (S begin_) (core_id c)
  end.

(** The scan forward to the end of a package: [None] is "return
    Topology({})"; otherwise the end, the first thread of the last NUMA node
    and the nodes before it. *)
Fixpoint scan_package (rest : list cpu_info) (info : nat) (pkg : Z)
    (numafirst : nat) (numa : Z) (nodes : list NumaNode) : option (nat * nat * list NumaNode) :=
  match rest with
  | [] => Some (info, numafirst, nodes)
  | c :: rest =>
      if (core_id c <? 0) || (thread_id c <? 0) then None
      else if negb (package_id c =? pkg) then Some (info, numafirst, nodes)
      else if negb (numa_id c =? numa)
      then scan_package rest (S info) pkg info (numa_id c)
             (nodes ++ [{| n_cores := populate_core_group numafirst info |}])
      else scan_package rest (S info) pkg numafirst numa nodes
  end.

(** The loop over the packages; every one has at least one processor. *)
Fixpoint build_packages (fuel : nat) (info : nat) (pkgs : list Package) : list Package :=
  match fuel with
  | O => pkgs
  | S fuel =>
      match drop info l with
      | [] => pkgs
      | c :: rest =>
          if (package_id c <? 0) || (core_id c <? 0) || (thread_id c <? 0) then []
          else match scan_package (c :: rest) info (package_id c) info (numa_id c) [] with
          | None => []
          | Some (end_, numafirst, nodes) =>
              let pkg_cores := populate_core_group info end_ in
              let node := if (length nodes =? 0)%nat then pkg_cores
                          else populate_core_group numafirst end_ in
              build_packages fuel end_
                (pkgs ++ [{| cores := pkg_cores; numa_domains := nodes ++ [{| n_cores := node |}] |}])
          end
      end
  end.

Definition build_topology : outcome (list Package) :=
  c ← of_option (last l);
  if package_id c <? 0 then Ret [] else Ret (build_packages (length l) 0 []).
End Build.

(** Package::id() and NumaNode::id() *)
Definition core_id_of (field : cpu_info -> Z) (l : list cpu_info) (cs : list Core) : Z :=
  match cs with
  | c :: _ => default (-1) (field <$> l !! first c)
  | [] => -1
  end.
Definition package_id_of (l : list cpu_info) (p : Package) : Z := core_id_of package_id l (cores p).
Definition numa_id_of (l : list cpu_info) (n : NumaNode) : Z := core_id_of numa_id l (n_cores n).

(** update_topology(): copies the entries, of the given packages when there
    are any, clears the ones no longer used and rebuilds the topology. *)
Definition update_topology (new_cpu_info : list cpu_info) (pkg_ids : list Z) (t : TopoState) : outcome TopoState :=
  let copied := match pkg_ids with
                | [] => new_cpu_info
                | _ => filter (fun ci => package_id ci ∈ pkg_ids) new_cpu_info
                end in
  let excess := (thread_count t - length copied)%nat in
  let head := take (base_cpu t) (table t) in
  let tail := drop (base_cpu t + length copied + excess) (table t) in
  let tbl := head ++ copied ++ replicate excess zero_cpu ++ tail in
  _ ← assertion (length tbl =? length (table t))%nat;
  pkgs ← build_topology copied;
  Ret {| table := tbl; base_cpu := base_cpu t; thread_count := length copied; packages := pkgs |}.

(** init_topology(), after the detection filled the table. *)
Definition init_topology (detected : list cpu_info) : outcome TopoState :=
  let l := reorder_cpus detected in
  pkgs ← build_topology l;
  Ret {| table := l; base_cpu := 0; thread_count := length l; packages := pkgs |}.

(** restrict_topology(): the pointer moves to the start of the range. *)
Definition restrict_topology (range : CpuRange) (t : TopoState) : outcome TopoState :=
  _ ← assertion (starting_cpu range + cpu_count range <=? Z.of_nat (thread_count t));
  let base := Z.to_nat (starting_cpu range) in
  let n := Z.to_nat (cpu_count range) in
  if negb (base =? base_cpu t)%nat || negb (n =? thread_count t)%nat || (length (packages t) =? 0)%nat
  then pkgs ← build_topology (take n (drop base (table t)));
       Ret {| table := table t; base_cpu := base; thread_count := n; packages := pkgs |}
  else Ret {| table := table t; base_cpu := base; thread_count := n; packages := packages t |}.

(** * The groups partition the processors *)

(** Consecutive, non-empty spans from [a] to [b]. *)
Fixpoint tiles (a b : nat) (cs : list Core) : Prop :=
  match cs with
  | [] => a = b
  | c :: cs => first c = a /\ (a < last_ c)%nat /\ tiles (last_ c) b cs
  end.

Section Groups.
Context (l : list cpu_info).

(** The entries from [a] to [b] agree on an id. *)
Definition uniform (f : cpu_info -> Z) (a b : nat) (v : Z) : Prop :=
  forall i c, (a <= i < b)%nat -> l !! i = Some c -> f c = v.

Definition cores_ok (a b : nat) (cs : list Core) : Prop :=
  tiles a b cs /\ Forall (fun c => exists v, uniform core_id (first c) (last_ c) v) cs.

Fixpoint nodes_ok (a b : nat) (ns : list NumaNode) : Prop :=
  match ns with
  | [] => a = b
  | n :: ns => exists m, (a < m)%nat /\ cores_ok a m (n_cores n) /\ (exists v, uniform numa_id a m v) /\ nodes_ok m b ns
  end.

(** Packages are maximal: the processor after one belongs to another. *)
Fixpoint packages_ok (a b : nat) (ps : list Package) : Prop :=
  match ps with
  | [] => a = b
  | p :: ps => exists m v, (a < m)%nat /\ cores_ok a m (cores p) /\ nodes_ok a m (numa_domains p) /\
      uniform package_id a m v /\ (forall c, l !! m = Some c -> package_id c <> v) /\ packages_ok m b ps
  end.

Lemma nodes_ok_snoc a m b ns n :
  nodes_ok a m ns -> (m < b)%nat -> cores_ok m b (n_cores n) -> (exists v, uniform numa_id m b v) ->
  nodes_ok a b (ns ++ [n]).
Proof using Type.
  revert a. induction ns as [|n' ns IH]; intros a; simpl.
  - intros -> ? ? ?. by exists b.
  - intros (m' & ? & ? & ? & ?) ? ? ?. exists m'. auto.
Qed.

Lemma packages_ok_snoc a m b ps p v :
  packages_ok a m ps -> (m < b)%nat -> cores_ok m b (cores p) -> nodes_ok m b (numa_domains p) ->
  uniform package_id m b v -> (forall c, l !! b = Some c -> package_id c <> v) -> packages_ok a b (ps ++ [p]).
Proof using Type.
  revert a. induction ps as [|p' ps IH]; intros a; simpl.
  - intros -> ? ? ? ? ?. by exists b, v.
  - intros (m' & v' & ? & ? & ? & ? & ? & ?) ? ? ? ? ?. exists m', v'. eauto 10.
Qed.

Lemma uniform_snoc f a b v c :
  uniform f a b v -> l !! b = Some c -> f c = v -> uniform f a (S b) v.
Proof using Type.
  intros H Hb Hc i c' Hi Hl. destruct (decide (i = b)) as [->|]; [by simplify_eq|].
  apply (H i c'); [lia|done].
Qed.

Lemma uniform_one f b c : l !! b = Some c -> uniform f b (S b) (f c).
Proof using Type. intros Hb i c' Hi Hl. assert (i = b) as -> by lia. by simplify_eq. Qed.

Lemma fill_in_threads_ok rest : forall a m b v,
  rest = drop m (take b l) -> (a < m <= b)%nat -> (b <= length l)%nat -> uniform core_id a m v ->
  cores_ok a b (fill_in_threads rest a m v).
Proof using Type.
  induction rest as [|c rest IH]; intros a m b v Hr Hm Hb Hu; simpl.
  - assert (m = b) as ->.
    { apply (f_equal length) in Hr. rewrite length_drop, length_take in Hr. simpl in Hr. lia. }
    split; [simpl; split; [done|split; [lia|done]]|]. repeat constructor. by exists v.
  - assert (l !! m = Some c /\ rest = drop (S m) (take b l) /\ (m < b)%nat) as (Hc & Hr' & Hmb).
    { assert (take b l !! m = Some c) as Ht by (rewrite <- (Nat.add_0_r m), <- lookup_drop, <- Hr; done).
      apply lookup_take_Some in Ht as [? ?]. split; [done|]. split; [|done].
      replace (S m) with (m + 1)%nat by lia. by rewrite <- drop_drop, <- Hr. }
    destruct (Z.eqb_spec (core_id c) v) as [He|He].
    + apply (IH a (S m) b v); [done|lia|done|]. by eapply uniform_snoc.
    + destruct (IH m (S m) b (core_id c)) as [Ht Hf]; [done|lia|done|by apply uniform_one|].
      split; simpl; [split; [done|split; [lia|done]]|]. constructor; [|done]. by exists v.
Qed.

Lemma populate_ok a b : (a < b)%nat -> (b <= length l)%nat -> cores_ok a b (populate_core_group l a b).
Proof using Type.
  intros Hab Hb. unfold populate_core_group.
  destruct (drop a (take b l)) as [|c rest] eqn:E.
  - apply (f_equal length) in E. rewrite length_drop, length_take in E. simpl in E. lia.
  - assert (take b l !! a = Some c) as Ht by (rewrite <- (Nat.add_0_r a), <- lookup_drop, E; done).
    apply lookup_take_Some in Ht as [Hc _].
    apply (fill_in_threads_ok rest a (S a) b); [|lia|done|by apply uniform_one].
    replace (S a) with (a + 1)%nat by lia. by rewrite <- drop_drop, E.
Qed.

(** A processor whose package, core and thread are known. *)
Definition cpu_valid (c : cpu_info) : Prop := 0 <= package_id c /\ 0 <= core_id c /\ 0 <= thread_id c.

Lemma drop_cons_lookup info c rest : c :: rest = drop info l -> l !! info = Some c /\ rest = drop (S info) l.
Proof using Type.
  intros H. split.
  - by rewrite <- (Nat.add_0_r info), <- lookup_drop, <- H.
  - replace (S info) with (info + 1)%nat by lia. by rewrite <- drop_drop, <- H.
Qed.

(** What scan_package() found when it did not give up. *)
Definition scanned (start : nat) (pkg : Z) (end_ nf : nat) (nodes : list NumaNode) : Prop :=
  (nf < end_ <= length l)%nat /\ nodes_ok start nf nodes /\ (exists v, uniform numa_id nf end_ v) /\
  uniform package_id start end_ pkg /\ (forall c, l !! end_ = Some c -> package_id c <> pkg).

Lemma scan_package_spec pkg start rest : forall info nf numa nodes,
  rest = drop info l -> (start <= nf <= info)%nat -> (info <= length l)%nat ->
  nodes_ok start nf nodes -> uniform numa_id nf info numa -> uniform package_id start info pkg ->
  (nf = info -> exists c r, rest = c :: r /\ numa_id c = numa /\ package_id c = pkg) ->
  match scan_package l rest info pkg nf numa nodes with
  | Some (end_, nf', nodes') => scanned start pkg end_ nf' nodes' /\ (info <= end_)%nat /\
      forall i c, (info <= i < end_)%nat -> l !! i = Some c -> 0 <= core_id c /\ 0 <= thread_id c
  | None => exists c, c ∈ l /\ ~ cpu_valid c
  end.
Proof using Type.
  induction rest as [|c rest IH]; intros info nf numa nodes Hr Hnf Hi Hno Hnu Hpk Hst; simpl.
  - assert (info = length l) as ->.
    { apply (f_equal length) in Hr. rewrite length_drop in Hr. simpl in Hr. lia. }
    assert (nf <> length l) as Hne by (intros E; destruct (Hst E) as (? & ? & ? & _); done).
    split; [|split; [lia|intros i c ?; lia]]. split; [lia|]. repeat split; eauto.
    intros c. by rewrite lookup_ge_None_2 by lia.
  - apply drop_cons_lookup in Hr as [Hc Hr].
    assert (info < length l)%nat as Hlt by by eapply lookup_lt_Some.
    destruct ((core_id c <? 0) || (thread_id c <? 0)) eqn:Eneg.
    { exists c. split; [by eapply list_elem_of_lookup_2|]. unfold cpu_valid.
      apply orb_prop in Eneg as [?%Z.ltb_lt|?%Z.ltb_lt]; lia. }
    apply orb_false_elim in Eneg as [?%Z.ltb_ge ?%Z.ltb_ge].
    destruct (Z.eqb_spec (package_id c) pkg) as [Hp|Hp]; simpl.
    2:{ split; [|split; [lia|intros i c' ?; lia]].
        assert (nf <> info) by (intros E; destruct (Hst E) as (? & ? & ? & _ & ?); congruence).
        split; [lia|]. repeat split; eauto. congruence. }
    assert (uniform package_id start (S info) pkg) as Hpk' by (by eapply uniform_snoc).
    assert (forall end_, (S info <= end_)%nat ->
      (forall i c', (S info <= i < end_)%nat -> l !! i = Some c' -> 0 <= core_id c' /\ 0 <= thread_id c') ->
      (info <= end_)%nat /\ forall i c', (info <= i < end_)%nat -> l !! i = Some c' -> 0 <= core_id c' /\ 0 <= thread_id c')
      as Hext.
    { intros end_ He H'. split; [lia|]. intros i c' Hi' Hl'.
      destruct (decide (i = info)) as [->|]; [by simplify_eq|]. apply (H' i); [lia|done]. }
    destruct (Z.eqb_spec (numa_id c) numa) as [Hn|Hn]; simpl.
    + specialize (IH (S info) nf numa nodes Hr ltac:(lia) ltac:(lia) Hno).
      destruct (scan_package _ _ _ _ _ _ _) as [[[end_ nf'] nodes']|].
      * destruct IH as (? & ? & ?); [by eapply uniform_snoc|done|lia|]. split; [done|]. by apply Hext.
      * apply IH; [by eapply uniform_snoc|done|lia].
    + assert (nf < info)%nat as Hlt'.
      { destruct (decide (nf = info)) as [E|]; [|lia]. destruct (Hst E) as (? & ? & ? & ? & _). congruence. }
      specialize (IH (S info) info (numa_id c) (nodes ++ [{| n_cores := populate_core_group l nf info |}]) Hr ltac:(lia) ltac:(lia)).
      destruct (scan_package _ _ _ _ _ _ _) as [[[end_ nf'] nodes']|].
      * destruct IH as (? & ? & ?); [|by apply uniform_one|done|lia|split; [done|by apply Hext]].
        eapply nodes_ok_snoc; [done|done|apply populate_ok; lia|by exists numa].
      * apply IH; [|by apply uniform_one|done|lia].
        eapply nodes_ok_snoc; [done|done|apply populate_ok; lia|by exists numa].
Qed.
End Groups.

(** The last NUMA node of a package, which copies the package when it is the
    only one. *)
Lemma last_node_ok l a nf b nodes :
  (nf < b <= length l)%nat -> nodes_ok l a nf nodes -> (exists v, uniform l numa_id nf b v) ->
  nodes_ok l a b (nodes ++ [{| n_cores := if (length nodes =? 0)%nat then populate_core_group l a b
                                          else populate_core_group l nf b |}]).
Proof.
  intros Hb Hno Hnu. eapply nodes_ok_snoc; [exact Hno|lia| |done]. simpl.
  destruct nodes; simpl in *; [subst|]; apply populate_ok; lia.
Qed.

Lemma build_packages_spec l fuel : forall info pkgs,
  (length l <= info + fuel)%nat -> (info <= length l)%nat -> packages_ok l 0 info pkgs ->
  (forall i c, (i < info)%nat -> l !! i = Some c -> cpu_valid c) ->
  (Forall cpu_valid l /\ packages_ok l 0 (length l) (build_packages l fuel info pkgs)) \/
  (~ Forall cpu_valid l /\ build_packages l fuel info pkgs = []).
Proof.
  induction fuel as [|fuel IH]; intros info pkgs Hf Hi Hok Hv; cbn [build_packages].
  - left. assert (info = length l) as -> by lia. split; [|done].
    apply Forall_lookup. intros i c Hc. eapply Hv; [|done]. by eapply lookup_lt_Some.
  - destruct (drop info l) as [|c rest] eqn:E.
    { assert (info = length l) as ->.
      { apply (f_equal length) in E. rewrite length_drop in E. simpl in E. lia. }
      left. split; [|done]. apply Forall_lookup. intros i c Hc. eapply Hv; [|done]. by eapply lookup_lt_Some. }
    symmetry in E. pose proof (drop_cons_lookup l info c rest E) as [Hc _].
    assert (info < length l)%nat as Hlt by by eapply lookup_lt_Some.
    destruct ((package_id c <? 0) || (core_id c <? 0) || (thread_id c <? 0)) eqn:Eneg.
    { right. split; [|done]. intros Hall. apply (Forall_lookup_1 _ _ _ _ Hall) in Hc as (? & ? & ?).
      destruct (Z.ltb_spec (package_id c) 0), (Z.ltb_spec (core_id c) 0), (Z.ltb_spec (thread_id c) 0); done || lia. }
    apply orb_false_elim in Eneg as [[Hp%Z.ltb_ge _]%orb_false_elim _].
    pose proof (scan_package_spec l (package_id c) info (c :: rest) info info (numa_id c) [] E
      ltac:(lia) ltac:(lia) eq_refl ltac:(intros ? ?; lia) ltac:(intros ? ?; lia)
      ltac:(intros _; by exists c, rest)) as Hscan.
    destruct (scan_package _ _ _ _ _ _ _) as [[[end_ nf] nodes]|].
    + destruct Hscan as ((Hnf & Hno & Hnu & Hpk & Hend) & Hle & Hge).
      assert (info < end_)%nat as Hie.
      { destruct (decide (info = end_)) as [<-|]; [|lia]. by destruct (Hend c Hc). }
      assert (cores_ok l info end_ (populate_core_group l info end_)) as Hco by (apply populate_ok; lia).
      apply IH; [lia|lia|..].
      * eapply packages_ok_snoc; [done|done|done| |done|done]. simpl.
        by apply last_node_ok.
      * intros i c' Hi' Hl. destruct (Nat.lt_ge_cases i info); [by eapply Hv|].
        destruct (Hge i c' ltac:(lia) Hl). split; [|done]. by rewrite (Hpk i c' ltac:(lia) Hl).
    + right. split; [|done]. destruct Hscan as (c' & Hin & Hbad). intros Hall.
      rewrite Forall_forall in Hall. auto.
Qed.

Lemma build_topology_spec (l : list cpu_info) :
  l <> [] ->
  exists ps, build_topology l = Ret ps /\
    ((Forall cpu_valid l /\ packages_ok l 0 (length l) ps) \/ (~ Forall cpu_valid l /\ ps = [])).
Proof.
  intros Hl. unfold build_topology. destruct (last l) as [c|] eqn:E; [|by apply last_None in E]. simpl.
  destruct (Z.ltb_spec (package_id c) 0).
  - exists []. split; [done|]. right. split; [|done]. intros Hall.
    rewrite last_lookup in E. apply (Forall_lookup_1 _ _ _ _ Hall) in E as [? _]. lia.
  - eexists. split; [done|]. apply build_packages_spec; [lia..|done|intros i c' ?; lia].
Qed.

(** C13. build_topology() partitions the array when every processor's package,
    core and thread are known: the packages, and inside each of them the NUMA
    nodes and the cores, are consecutive non-empty spans that cover every
    processor exactly once; each span agrees on its package, NUMA node or core
    number, and neighbouring packages differ. Otherwise it returns the invalid
    topology, with no package. *)
Theorem build_topology_partition (l : list cpu_info) :
  l <> [] ->
  exists ps, build_topology l = Ret ps /\
    ((Forall cpu_valid l /\ packages_ok l 0 (length l) ps) \/ (~ Forall cpu_valid l /\ ps = [])).
Proof. apply build_topology_spec. Qed.

Definition sample_cpu (pkg numa core thread : Z) : cpu_info :=
  set_package_id pkg (set_numa_id numa (set_core_id core (set_thread_id thread zero_cpu))).

Definition sample : list cpu_info :=
  [sample_cpu 0 0 0 0; sample_cpu 0 0 0 1; sample_cpu 0 1 4 0; sample_cpu 1 2 0 0; sample_cpu 1 2 1 0].

Lemma build_topology_partition_witness :
  exists ps, build_topology sample = Ret ps /\ length ps = 2%nat.
Proof.
  destruct (build_topology_partition sample) as (ps & Hps & _); [done|].
  exists ps. split; [done|]. assert (Ret ps = build_topology sample) as H by done.
  vm_compute in H. by simplify_eq.
Defined.

(** * Each package once *)

Definition pkgs_ascending (l : list cpu_info) : Prop :=
  forall i j a b, (i <= j)%nat -> l !! i = Some a -> l !! j = Some b -> package_id a <= package_id b.

Lemma package_id_of_uniform l a m v p :
  (a < m)%nat -> (m <= length l)%nat -> cores_ok l a m (cores p) -> uniform l package_id a m v -> package_id_of l p = v.
Proof.
  intros Ham Hm [Ht _] Hu. unfold package_id_of, core_id_of. destruct (cores p) as [|c cs]; simpl in Ht; [lia|].
  destruct Ht as (-> & ? & _). destruct (lookup_lt_is_Some_2 l a) as [x Hx]; [lia|].
  rewrite Hx. simpl. apply (Hu a); [lia|done].
Qed.

Lemma packages_ok_le l a b ps : packages_ok l a b ps -> (a <= b)%nat.
Proof.
  revert a. induction ps as [|p ps IH]; intros a; simpl; [lia|].
  intros (m & v & ? & _ & _ & _ & _ & H). apply IH in H. lia.
Qed.

Lemma packages_ascending l ps : pkgs_ascending l -> forall a,
  packages_ok l a (length l) ps ->
  StronglySorted Z.lt (map (package_id_of l) ps) /\
  forall lo, (forall i c, (a <= i)%nat -> l !! i = Some c -> lo < package_id c) ->
    Forall (fun id => lo < id) (map (package_id_of l) ps).
Proof.
  intros Hs. induction ps as [|p ps IH]; intros a Hok; simpl in *; [split; [|intros]; constructor|].
  destruct Hok as (m & v & Ham & Hco & _ & Hu & Hmax & Hok).
  pose proof (packages_ok_le _ _ _ _ Hok) as Hm.
  rewrite (package_id_of_uniform l a m v p) by done.
  destruct (IH m Hok) as [Hsorted Hlo].
  destruct (lookup_lt_is_Some_2 l a) as [x Hx]; [lia|].
  assert (package_id x = v) as Hxv by (apply (Hu a); [lia|done]).
  split.
  - constructor; [done|]. apply Hlo. intros i c Hi Hc.
    destruct (lookup_lt_is_Some_2 l m) as [y Hy]; [apply lookup_lt_Some in Hc; lia|].
    pose proof (Hmax y Hy). pose proof (Hs a m x y ltac:(lia) Hx Hy). pose proof (Hs m i y c ltac:(lia) Hy Hc). lia.
  - intros lo H. constructor; [rewrite <- Hxv; by apply (H a)|]. apply Hlo. intros i c Hi. apply H. lia.
Qed.

(** The ids the detection stores are int16_t. *)
Definition pkg_int16 (c : cpu_info) : Prop := in_s 16 (package_id c).

Lemma reorder_ascending l :
  Forall cpu_valid l -> Forall pkg_int16 l -> pkgs_ascending (reorder_cpus l).
Proof.
  intros Hv Hi i j a b Hij Ha Hb.
  assert (reorder_cpus l ≡ₚ l) as Hp by apply merge_sort_Permutation.
  assert (forall k c, reorder_cpus l !! k = Some c -> 0 <= package_id c < 2 ^ 15) as Hr.
  { intros k c Hc. apply list_elem_of_lookup_2 in Hc. rewrite Hp in Hc.
    rewrite Forall_forall in Hv, Hi. destruct (Hv c Hc) as [? _]. pose proof (Hi c Hc) as Hb16.
    unfold pkg_int16, in_s in Hb16. lia. }
  destruct (decide (i = j)) as [->|]; [simplify_eq; lia|].
  assert (cpu_le a b) as Hle.
  { eapply sorted_lookup; [|assert (i < j)%nat as Hlt by lia; exact Hlt|exact Ha|exact Hb].
    apply StronglySorted_merge_sort; apply _. }
  apply cpu_le_lex in Hle. simpl in Hle. pose proof (Hr i a Ha). pose proof (Hr j b Hb).
  rewrite !(wrap_u_small 16) in Hle by (unfold in_u; lia). lia.
Qed.

(** After init_topology() the table is a permutation of what was
    detected and, when every id is known, the topology has one package for each
    package number, in ascending order, covering the table. *)
Theorem init_topology_packages (detected : list cpu_info) :
  detected <> [] -> Forall cpu_valid detected -> Forall pkg_int16 detected ->
  exists t, init_topology detected = Ret t /\ view t ≡ₚ detected /\
    packages_ok (view t) 0 (length (view t)) (packages t) /\
    StronglySorted Z.lt (map (package_id_of (view t)) (packages t)).
Proof.
  intros Hne Hv Hi. unfold init_topology.
  assert (reorder_cpus detected ≡ₚ detected) as Hp by apply merge_sort_Permutation.
  destruct (build_topology_spec (reorder_cpus detected)) as (ps & -> & [[_ Hok]|[Hbad _]]).
  - intros E. rewrite E in Hp. by apply Permutation_nil_l in Hp.
  - simpl. eexists. split; [done|]. unfold view. simpl. rewrite drop_0, firstn_all.
    split; [done|]. split; [done|]. eapply packages_ascending; [by apply reorder_ascending|exact Hok].
  - destruct Hbad. by rewrite Hp.
Qed.

Lemma init_topology_packages_witness :
  exists t, init_topology (reverse sample) = Ret t /\ map (package_id_of (view t)) (packages t) = [0; 1].
Proof.
  destruct (init_topology_packages (reverse sample)) as (t & Ht & _).
  - done.
  - repeat constructor; by vm_compute.
  - repeat constructor; by vm_compute.
  - exists t. split; [done|]. assert (Ret t = init_topology (reverse sample)) as H by done.
    vm_compute in H. by simplify_eq.
Defined.

(** * The failure mask *)

Definition character_for_mask (mask : Z) : ascii :=
  if mask <? 10 then char_of (u8 (48 + mask)) else char_of (u8 (97 + mask - 10)).

Section FailureMask.
Context (l : list cpu_info) (s : Shm).

(** The loop over the threads of a core: the mask, the number of threads and
    the number of those that failed. *)
Definition mask_thread (st : Z * Z * Z) (i : nat) : outcome (Z * Z * Z) :=
  let '(threadmask, threadcount, failcount) := st in
  t ← of_option (l !! i);
  d ← thread_data (Z.of_nat i) s;
  if has_failed d then
    _ ← assertion ((0 <=? thread_id t) && (thread_id t <? 32));
    Ret (Z.lor threadmask (2 ^ thread_id t), threadcount + 1, failcount + 1)
  else Ret (threadmask, threadcount + 1, failcount).

Definition mask_core (c : Core) : outcome (Z * Z * Z) :=
  fold_outcome mask_thread (seq (first c) (last_ c - first c)) (0, 0, 0).

(** The character of a core, [None] when no thread ran in it. *)
Definition core_char (threadmask threadcount failcount : Z) : option ascii :=
  if threadcount =? 0 then None
  else if threadmask =? 0 then Some "."%char
  else if failcount =? threadcount then Some "X"%char
  else Some (character_for_mask threadmask).

Definition mask_package (max_cores : nat) (p : Package) (total : Z) : outcome (str * Z) :=
  st ← fold_outcome (fun st c =>
         r ← mask_core c;
         let '(mask, total) := st in
         let '(threadmask, threadcount, failcount) := r in
         match core_char threadmask threadcount failcount with
         | None => Ret (mask ++ ["_"%char], total)
         | Some ch => Ret (mask ++ [ch], total + failcount)
         end) (cores p) ([], total);
  let '(mask, total) := (st : str * Z) in
  Ret (mask ++ replicate (max_cores - length mask) "_"%char, total).

Definition max_cores (pkgs : list Package) : nat := foldr (fun p m => Nat.max (length (cores p)) m) O pkgs.

Definition build_falure_mask (pkgs : list Package) : outcome str :=
  if negb (isValid pkgs) then Ret []
  else
    st ← fold_outcome (fun (st : list str * Z) p =>
           r ← mask_package (max_cores pkgs) p st.2;
           Ret (st.1 ++ [r.1], r.2)) pkgs ([], 0);
    if st.2 =? 0 then Ret []
    else
      let result := flat_map (fun m => m ++ [":"%char]) st.1 in
      Ret (take (length result - 1) result).
End FailureMask.

(** Whether the test thread of entry [i] failed. *)
Definition failed (s : Shm) (i : nat) : bool :=
  match tests s !! i with Some t => has_failed (t_common t) | None => false end.

Definition fail_count (s : Shm) (a n : nat) : Z := len (filter (fun i => failed s i = true) (seq a n)).

(** MAX_HWTHREADS_PER_CORE *)
Definition MAX_HWTHREADS_PER_CORE : Z := 4.

(** What the mask says of a core: "." is no failure, "X" is all its threads. *)
Definition symbol_ok (s : Shm) (c : Core) (ch : ascii) : Prop :=
  let n := (last_ c - first c)%nat in
  (ch = "."%char <-> fail_count s (first c) n = 0) /\
  (ch = "X"%char <-> fail_count s (first c) n = Z.of_nat n).

Lemma character_for_mask_hex m : 0 < m < 16 ->
  character_for_mask m <> "."%char /\ character_for_mask m <> "X"%char.
Proof.
  intros Hm.
  assert (forallb (fun m => negb (char_eqb (character_for_mask m) "."%char) && negb (char_eqb (character_for_mask m) "X"%char))
            (seqZ 1 15) = true) as H by by vm_compute.
  pose proof (forallb_range _ _ _ H m ltac:(lia)) as Hc. simpl in Hc. unfold char_eqb in Hc.
  apply andb_prop in Hc as [H1%negb_true_iff%bool_decide_eq_false H2%negb_true_iff%bool_decide_eq_false]. done.
Qed.

Lemma fail_count_S s a n : fail_count s a (S n) = Z.b2z (failed s a) + fail_count s (S a) n.
Proof.
  unfold fail_count. cbn [seq]. rewrite filter_cons. destruct (failed s a); simpl; unfold len; simpl; lia.
Qed.

Lemma fail_count_nonneg s a n : 0 <= fail_count s a n.
Proof. unfold fail_count, len. lia. Qed.

Lemma fail_count_app s a n m : fail_count s a (n + m) = fail_count s a n + fail_count s (a + n) m.
Proof. unfold fail_count. by rewrite seq_app, filter_app, len_app. Qed.

Lemma fail_count_zero s n : forall a, fail_count s a n = 0 <-> forall i, (a <= i < a + n)%nat -> failed s i = false.
Proof.
  induction n as [|n IH]; intros a; [split; [lia|done]|].
  rewrite fail_count_S. pose proof (fail_count_nonneg s (S a) n). split.
  - intros H0 i Hi. destruct (failed s a) eqn:E; simpl in H0; [lia|].
    destruct (decide (i = a)) as [->|]; [done|]. apply (proj1 (IH (S a))); lia.
  - intros Hall. rewrite (Hall a) by lia. simpl. apply IH. intros. apply Hall. lia.
Qed.

Section MaskFacts.
Context (l : list cpu_info) (s : Shm).
Context (Hids : Forall (fun c => 0 <= thread_id c < MAX_HWTHREADS_PER_CORE) l).
Context (Htests : (length l <= length (tests s))%nat).

Lemma mask_thread_spec i st : (i < length l)%nat -> 0 <= st.1.1 < 2 ^ 4 ->
  exists m, mask_thread l s st i = Ret (m, st.1.2 + 1, st.2 + Z.b2z (failed s i)) /\
    0 <= m < 2 ^ 4 /\ (m = 0 <-> st.1.1 = 0 /\ failed s i = false).
Proof using Hids Htests.
  intros Hi Hst. destruct st as [[tm tc] fc]. simpl in *. unfold mask_thread, failed.
  destruct (lookup_lt_is_Some_2 l i Hi) as [c Hc]. rewrite Hc. simpl.
  destruct (lookup_lt_is_Some_2 (tests s) i) as [t Ht]; [lia|].
  unfold thread_data. destruct (Z.ltb_spec (Z.of_nat i) 0); [lia|]. rewrite Nat2Z.id, Ht. simpl.
  pose proof (Forall_lookup_1 _ _ _ _ Hids Hc) as [Hlo Hhi]. unfold MAX_HWTHREADS_PER_CORE in Hhi.
  destruct (has_failed (t_common t)); simpl.
  - destruct (Z.leb_spec 0 (thread_id c)), (Z.ltb_spec (thread_id c) 32); try lia. simpl.
    eexists. split; [done|]. assert (0 < 2 ^ thread_id c) by (apply Z.pow_pos_nonneg; lia).
    assert (2 ^ thread_id c < 2 ^ 4) by (apply Z.pow_lt_mono_r; lia).
    split; [apply (lor_lt_pow2 _ _ 4); lia|]. split; [|by intros [_ ?]].
    intros E%Z.lor_eq_0_iff. lia.
  - eexists. rewrite Z.add_0_r. split; [done|]. split; [done|]. tauto.
Qed.

Lemma mask_threads_spec n : forall a st, (a + n <= length l)%nat -> 0 <= st.1.1 < 2 ^ 4 ->
  exists m, fold_outcome (mask_thread l s) (seq a n) st = Ret (m, st.1.2 + Z.of_nat n, st.2 + fail_count s a n) /\
    0 <= m < 2 ^ 4 /\ (m = 0 <-> st.1.1 = 0 /\ fail_count s a n = 0).
Proof using Hids Htests.
  induction n as [|n IH]; intros a st Ha Hst.
  - simpl. destruct st as [[tm tc] fc]. exists tm. simpl in *. unfold fail_count. simpl.
    rewrite !Z.add_0_r. split; [done|]. split; [done|]. unfold len. simpl. lia.
  - destruct (mask_thread_spec a st) as (m & Hm & Hm0 & Hmz); [lia|done|].
    cbn [seq fold_outcome]. rewrite Hm. simpl.
    destruct (IH (S a) (m, st.1.2 + 1, st.2 + Z.b2z (failed s a)) ltac:(lia) Hm0) as (m' & Hf & ? & Hz).
    simpl in Hf, Hz. exists m'. rewrite Hf, fail_count_S. pose proof (fail_count_nonneg s (S a) n).
    split; [do 2 f_equal; [f_equal|]; lia|]. split; [done|]. rewrite Hz, Hmz.
    destruct (failed s a); simpl; [|lia]. split; [intros [[_ ?] _]; done|lia].
Qed.

Lemma mask_core_spec c : (first c < last_ c <= length l)%nat ->
  exists m n f ch, mask_core l s c = Ret (m, n, f) /\ core_char m n f = Some ch /\
    f = fail_count s (first c) (last_ c - first c) /\ symbol_ok s c ch.
Proof using Hids Htests.
  intros Hc. unfold mask_core.
  destruct (mask_threads_spec (last_ c - first c) (first c) (0, 0, 0)) as (m & Hm & Hb & Hz); [lia|simpl; lia|].
  cbn [fst snd] in *. rewrite !Z.add_0_l in Hm.
  unfold core_char, symbol_ok. set (n := (last_ c - first c)%nat) in *.
  set (f := fail_count s (first c) n) in *.
  destruct (Z.eqb_spec (Z.of_nat n) 0); [lia|].
  exists m, (Z.of_nat n), f. destruct (Z.eqb_spec (Z.of_nat n) 0); [lia|].
  destruct (Z.eqb_spec m 0) as [->|Hm0].
  { exists "."%char. split_and!; try done; split; intros; done || lia. }
  destruct (Z.eqb_spec f (Z.of_nat n)) as [Hfn|Hfn].
  - exists "X"%char. split_and!; try done; split; intros; done || lia.
  - exists (character_for_mask m). destruct (character_for_mask_hex m ltac:(lia)).
    split_and!; try done; split; intros; done || lia.
Qed.

(** The loop over the cores of a package. *)
Lemma mask_cores_spec cs : forall a b mask total, (b <= length l)%nat -> tiles a b cs ->
  exists syms, fold_outcome (fun st c =>
         r ← mask_core l s c;
         let '(mask, total) := st in
         let '(threadmask, threadcount, failcount) := r in
         match core_char threadmask threadcount failcount with
         | None => Ret (mask ++ ["_"%char], total)
         | Some ch => Ret (mask ++ [ch], total + failcount)
         end) cs (mask, total) = Ret (mask ++ syms, total + fail_count s a (b - a)) /\
    Forall2 (symbol_ok s) cs syms.
Proof using Hids Htests.
  induction cs as [|c cs IH]; intros a b mask total Hb Ht; simpl in Ht.
  - subst. exists []. rewrite Nat.sub_diag, app_nil_r. unfold fail_count, len. simpl. by rewrite Z.add_0_r.
  - destruct Ht as (<- & Hlt & Ht). assert (last_ c <= b)%nat as Hle.
    { clear -Ht. revert Ht. generalize (last_ c). induction cs as [|c' cs IH]; intros m; simpl; [lia|].
      intros (_ & ? & H%IH). lia. }
    destruct (mask_core_spec c) as (m & n & f & ch & Hm & Hch & Hf & Hs); [lia|].
    cbn [fold_outcome]. rewrite Hm. simpl. rewrite Hch. simpl.
    destruct (IH (last_ c) b (mask ++ [ch]) (total + f) Hb Ht) as (syms & -> & H2).
    exists (ch :: syms). rewrite <- app_assoc. simpl. split; [|by constructor].
    replace (b - first c)%nat with ((last_ c - first c) + (b - last_ c))%nat by lia.
    rewrite fail_count_app, Hf. replace (first c + (last_ c - first c))%nat with (last_ c) by lia.
    by rewrite Z.add_assoc.
Qed.

(** The line of a package: a symbol per core, then padding. *)
Definition package_line_ok (width : nat) (p : Package) (line : str) : Prop :=
  exists syms, line = syms ++ replicate (width - length (cores p)) "_"%char /\ Forall2 (symbol_ok s) (cores p) syms.

Lemma mask_package_spec p a b width total : (b <= length l)%nat -> tiles a b (cores p) ->
  exists line, mask_package l s width p total = Ret (line, total + fail_count s a (b - a)) /\ package_line_ok width p line.
Proof using Hids Htests.
  intros Hb Ht. unfold mask_package.
  destruct (mask_cores_spec (cores p) a b [] total Hb Ht) as (syms & -> & H2). simpl.
  eexists. split; [done|]. exists syms. split; [|done]. do 3 f_equal. symmetry. by eapply Forall2_length.
Qed.

Lemma mask_packages_spec width ps : forall a lines total,
  packages_ok l a (length l) ps ->
  exists new, fold_outcome (fun (st : list str * Z) p =>
      r ← mask_package l s width p st.2; Ret (st.1 ++ [r.1], r.2)) ps (lines, total) =
    Ret (lines ++ new, total + fail_count s a (length l - a)) /\ Forall2 (package_line_ok width) ps new.
Proof using Hids Htests.
  induction ps as [|p ps IH]; intros a lines total Hok; simpl in Hok.
  - subst. exists []. rewrite Nat.sub_diag, app_nil_r. unfold fail_count, len. simpl. by rewrite Z.add_0_r.
  - destruct Hok as (m & v & Ham & [Ht _] & _ & _ & _ & Hok).
    pose proof (packages_ok_le _ _ _ _ Hok) as Hm. cbn [fold_outcome snd fst].
    destruct (mask_package_spec p a m width total Hm Ht) as (line & -> & Hline). cbn [fst snd mbind outcome_bind].
    destruct (IH m (lines ++ [line]) (total + fail_count s a (m - a)) Hok) as (new & -> & H2).
    exists (line :: new). rewrite <- app_assoc. split; [|by constructor].
    replace (length l - a)%nat with ((m - a) + (length l - m))%nat by lia.
    rewrite fail_count_app. replace (a + (m - a))%nat with m by lia. by rewrite Z.add_assoc.
Qed.
End MaskFacts.

(** The lines of the packages joined with colons. *)
Fixpoint join_lines (lines : list str) : str :=
  match lines with
  | [] => []
  | [x] => x
  | x :: lines => x ++ [":"%char] ++ join_lines lines
  end.

Lemma join_lines_spec lines : lines <> [] ->
  flat_map (fun m => m ++ [":"%char]) lines = join_lines lines ++ [":"%char].
Proof.
  induction lines as [|x lines IH]; [done|]. intros _. simpl.
  destruct lines as [|y lines]; simpl; [by rewrite app_nil_r|].
  simpl in IH. rewrite IH by done. by rewrite <- !app_assoc.
Qed.

Lemma fail_count_some s n : fail_count s 0 n <> 0 -> exists i, (i < n)%nat /\ failed s i = true.
Proof.
  intros H. destruct (decide (Exists (fun i => failed s i = true) (seq 0 n))) as [He|He].
  - apply Exists_exists in He as (i & Hi & Hf). apply elem_of_seq in Hi. exists i. split; [lia|done].
  - destruct H. apply fail_count_zero. intros i Hi. apply not_true_is_false. intros Hf. apply He.
    apply Exists_exists. exists i. split; [apply elem_of_seq; lia|done].
Qed.

Lemma lines_not_empty l s w ps lines b :
  packages_ok l 0 b ps -> Forall2 (package_line_ok s w) ps lines -> ps <> [] -> join_lines lines <> [].
Proof.
  intros Hok H2 Hne. destruct H2 as [|p line ps lines (syms & -> & Hsy) H2]; [done|].
  destruct Hok as (m & v & Hm & [Ht _] & _).
  destruct Hsy as [|c sym cs syms]; simpl in Ht; [lia|]. by destruct lines.
Qed.

(** The failure mask of a valid topology is empty exactly when no test
    thread failed; otherwise it has one line per package, as long as the largest
    number of cores, in which the symbol of a core is "." exactly when none of
    its threads failed and "X" exactly when all did. Nothing is read out of
    bounds on the way. *)
Theorem failure_mask_spec (l : list cpu_info) (s : Shm) (ps : list Package) :
  ps <> [] -> packages_ok l 0 (length l) ps ->
  Forall (fun c => 0 <= thread_id c < MAX_HWTHREADS_PER_CORE) l -> (length l <= length (tests s))%nat ->
  exists mask, build_falure_mask l s ps = Ret mask /\
    ((forall i, (i < length l)%nat -> failed s i = false) /\ mask = [] \/
     (exists i, (i < length l)%nat /\ failed s i = true) /\ mask <> [] /\
     exists lines, mask = join_lines lines /\ Forall2 (package_line_ok s (max_cores ps)) ps lines).
Proof.
  intros Hne Hok Hids Ht. unfold build_falure_mask. destruct ps as [|p ps]; [done|].
  cbn [isValid length Nat.eqb negb].
  destruct (mask_packages_spec l s Hids Ht (max_cores (p :: ps)) (p :: ps) 0 [] 0 Hok) as (lines & -> & H2).
  cbn [mbind outcome_bind snd fst app]. rewrite Nat.sub_0_r, Z.add_0_l.
  pose proof (fail_count_zero s (length l) 0) as Hz.
  destruct (Z.eqb_spec (fail_count s 0 (length l)) 0) as [E|E].
  - exists []. split; [done|]. left. split; [|done]. intros i Hi. apply (proj1 Hz E). lia.
  - eexists. split; [done|]. right. split; [by apply fail_count_some|].
    rewrite join_lines_spec by by intros ->; inversion H2.
    rewrite length_app, Nat.add_sub, take_app_length. split; [|by exists lines].
    by eapply lines_not_empty; [exact Hok|exact H2|].
Qed.

Definition failing_shm : Shm :=
  {| mains := []; tests := imap (fun i t => if (i =? 2)%nat then set_t_common (set_fail_time 5) t else t)
                             (replicate 5 idle_test) |}.

Lemma failure_mask_spec_witness :
  exists ps, build_topology sample = Ret ps /\ build_falure_mask sample failing_shm ps = Ret (L ".X:..").
Proof.
  destruct (build_topology_spec sample) as (ps & Hps & [[_ Hok]|[Hbad _]]); [done| |].
  - exists ps. split; [done|].
    destruct (failure_mask_spec sample failing_shm ps) as (mask & Hm & _).
    + intros ->. by vm_compute in Hps.
    + exact Hok.
    + repeat constructor; by vm_compute.
    + vm_compute. lia.
    + rewrite Hm. assert (Ret ps = build_topology sample) as H by done.
      vm_compute in H. simplify_eq. vm_compute in Hm. by simplify_eq.
  - destruct Hbad. repeat constructor; by vm_compute.
Defined.
