(* ===== verification/CpuSelect.v ===== *)
(** The --cpuset option (apply_cpuset_param() of src/framework/topology.cpp):
    parsing the selection and applying it to the table of processors. *)

From S2P Require Import Prelude CStdlib CpuSet CpuInfo ThreadData Topology.

(** * Parsing *)

(** parse_int: the number and what follows it; errno is only set together with
    a number that is not zero. *)
Definition parse_int (arg : str) : outcome (Z * str) :=
  let '(n, endptr, erange) := strtoll 0 arg in
  if (n =? 0) && erange then Exit EX_USAGE
  else if negb (n =? i32 n) then Exit EX_USAGE
  else Ret (n, endptr).

(** The ids of a topology search, -1 when not given. *)
Record search := { s_package : Z; s_core : Z; s_thread : Z }.

(** set_if_unset *)
Definition set_if_unset (n old : Z) : outcome Z := if negb (old =? -1) then Exit EX_USAGE else Ret n.

(** The do-while loop over the letters; every turn consumes a character. *)
Fixpoint parse_search (fuel : nat) (c : ascii) (arg : str) (s : search) : outcome search :=
  match fuel with
  | O => Ub
  | S fuel =>
      r ← parse_int arg;
      let '(n, arg) := r in
      s ← (if char_eqb c "p"%char then
             v ← set_if_unset n (s_package s); Ret {| s_package := v; s_core := s_core s; s_thread := s_thread s |}
           else if char_eqb c "c"%char then
             v ← set_if_unset n (s_core s); Ret {| s_package := s_package s; s_core := v; s_thread := s_thread s |}
           else if char_eqb c "t"%char then
             v ← set_if_unset n (s_thread s); Ret {| s_package := s_package s; s_core := s_core s; s_thread := v |}
           else Exit EX_USAGE);
      match arg with
      | [] => Ret s
      | c :: arg => parse_search fuel c arg s
      end
  end.

Definition search_matches (s : search) (cpu : cpu_info) : bool :=
  ((s_package s =? -1) || (package_id cpu =? s_package s)) &&
  ((s_core s =? -1) || (core_id cpu =? s_core s)) &&
  ((s_thread s =? -1) || (thread_id cpu =? s_thread s)).

(** The processors one argument passes to apply_to_set, in their order.
    [front] is the text at the start of the buffer strtok() cuts up, which the
    code compares with "odd" and "even". *)
Definition selected (old : list cpu_info) (front arg : str) : outcome (list cpu_info) :=
  match arg with
  | [] => Ret []
  | c :: rest =>
      if (48 <=? code c) && (code c <=? 57) then
        r ← parse_int arg;
        if negb (length r.2 =? 0)%nat then Exit EX_USAGE
        else match List.find (fun cpu => cpu_number cpu =? r.1) old with
             | Some cpu => Ret [cpu]
             | None => Exit EX_USAGE
             end
      else if str_eqb front (L "odd") || str_eqb front (L "even") then
        let desired_remainder := if str_eqb front (L "odd") then 1 else 0 in
        Ret (filter (fun cpu => Z.rem (cpu_number cpu) 2 = desired_remainder) old)
      else if (97 <=? code c) && (code c <=? 122) then
        s ← parse_search (length arg) c rest {| s_package := -1; s_core := -1; s_thread := -1 |};
        Ret (filter (fun cpu => search_matches s cpu = true) old)
      else Ret []
  end.

(** * Applying *)

Record select_state := { new_cpu_info : list cpu_info; result : LogicalProcessorSet; total_matches : Z }.

(** std::lower_bound() in a sorted vector and insert(). *)
Definition insert_sorted (cpu : cpu_info) (l : list cpu_info) : list cpu_info :=
  let '(before, after) := span (fun c => cpu_compare c cpu) l in before ++ cpu :: after.

(** std::find_if() by number and erase(); [None] when there is none. *)
Fixpoint erase_number (n : Z) (l : list cpu_info) : option (list cpu_info) :=
  match l with
  | [] => None
  | c :: l => if cpu_number c =? n then Some l else cons c <$> erase_number n l
  end.

Definition apply_to_set (add : bool) (st : select_state) (cpu : cpu_info) : outcome select_state :=
  let lp := cpu_number cpu in
  if is_set lp (result st) then Ret st
  else
    let new := if add then Some (insert_sorted cpu (new_cpu_info st)) else erase_number lp (new_cpu_info st) in
    match new with
    | None => Ret st
    | Some new =>
        r ← set_cpu lp (result st);
        Ret {| new_cpu_info := new; result := r; total_matches := total_matches st + 1 |}
    end.

(** The text at the start of the buffer once strtok() ended the first token:
    leading separators and that token. *)
Definition buffer_front (p : str) : str :=
  let '(commas, rest) := span (fun c => char_eqb c ","%char) p in
  commas ++ (span (fun c => negb (char_eqb c ","%char)) rest).1.

(** The processors that --cpuset leaves; update_topology() installs them. *)
Definition select_cpus (param : str) (old : list cpu_info) : outcome (list cpu_info) :=
  let '(add, p) := match param with "!"%char :: p => (false, p) | _ => (true, param) end in
  let st0 := {| new_cpu_info := if (add : bool) then [] else old; result := empty_set; total_matches := 0 |} in
  st ← fold_outcome (fun st arg =>
         cpus ← selected old (buffer_front p) arg;
         fold_outcome (apply_to_set add) cpus st) (strtok ","%char p) st0;
  if total_matches st =? 0 then Exit EX_USAGE
  else if negb add && (length (new_cpu_info st) =? 0)%nat then Exit EX_USAGE
  else
    _ ← assertion (total_matches st =? count (result st));
    _ ← assertion (if add then total_matches st =? len (new_cpu_info st)
                   else total_matches st =? len old - len (new_cpu_info st));
    Ret (new_cpu_info st).

Definition apply_cpuset_param (restricted : bool) (param : str) (t : TopoState) : outcome TopoState :=
  if restricted then Ret t
  else
    new ← select_cpus param (view t);
    update_topology new [] t.

(** * The reference: a filter of the table *)

(** The processors that all the arguments together pick. *)
Definition picked (old : list cpu_info) (front : str) (args : list str) (acc : list cpu_info) : outcome (list cpu_info) :=
  fold_outcome (fun acc arg => cpus ← selected old front arg; Ret (acc ++ cpus)) args acc.

(** What --cpuset means: keep the processors picked, or the others. *)
Definition cpuset_reference (param : str) (old : list cpu_info) : outcome (list cpu_info) :=
  let '(add, p) := match param with "!"%char :: p => (false, p) | _ => (true, param) end in
  v ← picked old (buffer_front p) (strtok ","%char p) [];
  if (length v =? 0)%nat then Exit EX_USAGE
  else
    let kept := if (add : bool) then filter (fun c => c ∈ v) old else filter (fun c => c ∉ v) old in
    if (length kept =? 0)%nat then Exit EX_USAGE else Ret kept.

(** What the documentation of the option offers: logical processor numbers, and
    a letter with a number for each level of the topology. *)
Inductive level := package | core | thread.
Record criterion := At { at_level : level; at_id : Z }.
Inductive pick := Number (n : Z) | Where (l : list criterion).

#[export] Instance level_eq_dec : EqDecision level.
Proof. solve_decision. Defined.

Definition level_letter (l : level) : ascii :=
  match l with package => "p" | core => "c" | thread => "t" end%char.
Definition level_id (l : level) (cpu : cpu_info) : Z :=
  match l with package => package_id cpu | core => core_id cpu | thread => thread_id cpu end.

Definition criterion_text (k : criterion) : str := level_letter (at_level k) :: to_string (at_id k).
Definition pick_text (p : pick) : str :=
  match p with Number n => to_string n | Where l => concat (map criterion_text l) end.
(** The option's text: a comma-separated list, after "!" to remove. *)
Definition cpuset_text (negated : bool) (ps : list pick) : str :=
  (if negated then ["!"%char] else []) ++ join ","%char (map pick_text ps).

Definition pick_matches (cpu : cpu_info) (p : pick) : bool :=
  match p with
  | Number n => cpu_number cpu =? n
  | Where l => forallb (fun k => level_id (at_level k) cpu =? at_id k) l
  end.

(** A number names a processor; a search gives each level at most once. *)
Definition pick_ok (old : list cpu_info) (p : pick) : Prop :=
  match p with
  | Number n => Exists (fun cpu => cpu_number cpu = n) old
  | Where l => l <> [] /\ NoDup (map at_level l) /\ Forall (fun k => 0 <= at_id k <= INT_MAX) l
  end.

(** A table as reorder_cpus() leaves it. *)
Record table_ok (old : list cpu_info) : Prop := {
  ok_sorted : StronglySorted cpu_le old;
  ok_distinct : NoDup (map cpu_number old);
  ok_numbers : Forall (fun c => cpu_ok (cpu_number c)) old;
}.

Lemma filter_snoc_in (old v : list cpu_info) c :
  c ∈ v -> filter (fun x => x ∈ v ++ [c]) old = filter (fun x => x ∈ v) old.
Proof. intros Hc. apply list_filter_iff. intros x. rewrite elem_of_app, list_elem_of_singleton. naive_solver. Qed.

Lemma filter_snoc_notin (old v : list cpu_info) c :
  c ∈ v -> filter (fun x => x ∉ v ++ [c]) old = filter (fun x => x ∉ v) old.
Proof. intros Hc. apply list_filter_iff. intros x. rewrite elem_of_app, list_elem_of_singleton. naive_solver. Qed.

(** Adding to the selection a processor that is not in a part of the table. *)
Lemma filter_snoc_other (l v : list cpu_info) c :
  c ∉ l -> filter (fun x => x ∈ v ++ [c]) l = filter (fun x => x ∈ v) l /\
           filter (fun x => x ∉ v ++ [c]) l = filter (fun x => x ∉ v) l.
Proof.
  intros Hc. induction l as [|x l IH]; [done|]. apply not_elem_of_cons in Hc as [Hne Hc].
  destruct (IH Hc) as [IH1 IH2]. rewrite !filter_cons, IH1, IH2.
  split; repeat case_decide; try done; set_solver.
Qed.

Section Select.
Context (old : list cpu_info) (Hold : table_ok old) (add : bool).

Lemma number_inj c c' : c ∈ old -> c' ∈ old -> cpu_number c = cpu_number c' -> c = c'.
Proof using Hold.
  intros H1 H2 He. apply list_elem_of_lookup in H1 as [i Hi]. apply list_elem_of_lookup in H2 as [j Hj].
  assert (i = j) as ->; [|by simplify_eq].
  eapply NoDup_lookup; [apply Hold|rewrite list_lookup_fmap, Hi; done|rewrite list_lookup_fmap, Hj; simpl; by rewrite He].
Qed.

Lemma number_ok c : c ∈ old -> cpu_ok (cpu_number c).
Proof using Hold. intros H. eapply Forall_forall in H; [|apply Hold]. done. Qed.

Lemma old_nodup : NoDup old.
Proof using Hold. eapply NoDup_fmap_1, Hold. Qed.

(** The processors kept once those of [v] have been applied. *)
Definition kept (v : list cpu_info) : list cpu_info :=
  if add then filter (fun c => c ∈ v) old else filter (fun c => c ∉ v) old.

Record inv (v : list cpu_info) (st : select_state) : Prop := {
  inv_sub : v ⊆ old;
  inv_set : set_ok (result st);
  inv_abs : forall c, c ∈ old -> is_set (cpu_number c) (result st) = true <-> c ∈ v;
  inv_new : new_cpu_info st = kept v;
  inv_total : total_matches st = len (filter (fun c => c ∈ v) old);
  inv_count : total_matches st = count (result st);
}.

Lemma kept_in v c : c ∈ v -> kept (v ++ [c]) = kept v.
Proof using Type. unfold kept. destruct add; eauto using filter_snoc_in, filter_snoc_notin. Qed.

(** The table around one of its processors. *)
Lemma split_at c : c ∈ old -> exists l1 l2, old = l1 ++ c :: l2 /\ c ∉ l1 /\ c ∉ l2 /\
  Forall (fun x => cpu_compare x c = true) l1 /\ Forall (fun x => cpu_compare x c = false) l2.
Proof using Hold.
  intros H. apply list_elem_of_split in H as (l1 & l2 & E). exists l1, l2. split; [done|].
  pose proof old_nodup as Hnd. rewrite E in Hnd. apply NoDup_app in Hnd as (_ & Hd & [Hc2 _]%NoDup_cons).
  pose proof (ok_sorted _ Hold) as Hs. rewrite E in Hs.
  split; [intros Hin; apply (Hd c Hin); by left|]. split; [done|].
  split; apply Forall_forall; intros x Hx.
  - destruct (cpu_compare x c) eqn:Ec; [done|exfalso].
    assert (cpu_le x c) as Hle by (eapply StronglySorted_app_1_elem_of; [exact Hs|done|by left]).
    assert (x = c) as ->; [|apply (Hd c Hx); by left].
    apply number_inj; [rewrite E; set_solver..|]. assert (cpu_ok (cpu_number x) /\ cpu_ok (cpu_number c)) as [Hox Hoc]
      by (split; apply number_ok; rewrite E; set_solver).
    pose proof (cpu_le_antisym x c Hle Ec) as Hn. unfold cpu_ok in *.
    rewrite !wrap_u_small in Hn by (unfold in_u; lia). done.
  - apply StronglySorted_app_1_r, StronglySorted_cons in Hs as [Hs _].
    rewrite Forall_forall in Hs. by apply Hs.
Qed.

(** Applying a processor that is not yet in the selection. *)
Lemma insert_kept v c : add = true -> c ∈ old -> c ∉ v -> insert_sorted c (kept v) = kept (v ++ [c]).
Proof using Hold.
  intros Ha Hc Hv. unfold kept. rewrite Ha.
  destruct (split_at c Hc) as (l1 & l2 & E & H1 & H2 & Hlt & Hge). rewrite E.
  rewrite !filter_app, !filter_cons.
  destruct (filter_snoc_other l1 v c H1) as [-> _]. destruct (filter_snoc_other l2 v c H2) as [-> _].
  rewrite decide_False, decide_True by set_solver. unfold insert_sorted.
  rewrite (span_all (fun x => cpu_compare x c)); [done|..].
  - apply Forall_forall. intros x [_ Hx]%list_elem_of_filter. rewrite Forall_forall in Hlt. by apply Hlt.
  - destruct (filter (fun x => x ∈ v) l2) as [|x r] eqn:Er; [done|].
    assert (x ∈ filter (fun x => x ∈ v) l2) as [_ Hx]%list_elem_of_filter by (rewrite Er; by left).
    rewrite Forall_forall in Hge. by apply Hge.
Qed.

Lemma erase_app n l1 l2 : Forall (fun x => cpu_number x <> n) l1 ->
  erase_number n (l1 ++ l2) = (fun r => l1 ++ r) <$> erase_number n l2.
Proof using Type.
  clear Hold. induction 1 as [|x l1 Hx Hl IH]; simpl; [by destruct (erase_number n l2)|].
  destruct (Z.eqb_spec (cpu_number x) n); [done|]. rewrite IH. by destruct (erase_number n l2).
Qed.

Lemma erase_kept v c : add = false -> c ∈ old -> c ∉ v -> erase_number (cpu_number c) (kept v) = Some (kept (v ++ [c])).
Proof using Hold.
  intros Ha Hc Hv. unfold kept. rewrite Ha.
  destruct (split_at c Hc) as (l1 & l2 & E & H1 & H2 & _). rewrite E.
  rewrite !filter_app, !filter_cons.
  destruct (filter_snoc_other l1 v c H1) as [_ ->]. destruct (filter_snoc_other l2 v c H2) as [_ ->].
  rewrite decide_True, decide_False by set_solver. rewrite erase_app.
  - simpl. by rewrite Z.eqb_refl.
  - apply Forall_forall. intros x [_ Hx]%list_elem_of_filter He. apply H1.
    rewrite (number_inj c x); [done|done|rewrite E; set_solver|done].
Qed.

Lemma selected_more v c : c ∈ old -> c ∉ v ->
  len (filter (fun x => x ∈ v ++ [c]) old) = len (filter (fun x => x ∈ v) old) + 1.
Proof using Hold.
  intros Hc Hv. destruct (split_at c Hc) as (l1 & l2 & E & H1 & H2 & _). rewrite E.
  rewrite !filter_app, !filter_cons.
  destruct (filter_snoc_other l1 v c H1) as [-> _]. destruct (filter_snoc_other l2 v c H2) as [-> _].
  rewrite decide_True, decide_False by set_solver. rewrite !len_app. unfold len. simpl. lia.
Qed.

Lemma apply_to_set_inv v st c : inv v st -> c ∈ old ->
  exists st', apply_to_set add st c = Ret st' /\ inv (v ++ [c]) st'.
Proof using Hold.
  intros [Hsub Hset Habs Hnew Htot Hcnt] Hc. unfold apply_to_set.
  destruct (is_set (cpu_number c) (result st)) eqn:Es.
  - apply Habs in Es; [|done]. exists st. split; [done|].
    split; rewrite ?kept_in, ?filter_snoc_in by done; try done; [set_solver|].
    intros c' Hc'. rewrite Habs by done. set_solver.
  - assert (c ∉ v) as Hv by (intros Hin; apply Habs in Hin; [congruence|done]).
    pose proof (number_ok c Hc) as Hok.
    destruct (set_cpu_abs (cpu_number c) (result st) Hok Hset) as (r & Hr & Hrok & Hrabs).
    assert (exists new, (if add then Some (insert_sorted c (new_cpu_info st))
      else erase_number (cpu_number c) (new_cpu_info st)) = Some new /\ new = kept (v ++ [c])) as (new & -> & Hn).
    { rewrite Hnew. destruct add eqn:Ea; [rewrite insert_kept|rewrite erase_kept]; eauto. }
    rewrite Hr. simpl. eexists. split; [done|]. split; simpl; [set_solver|done| |done|..].
    + intros c' Hc'. rewrite <- elem_of_abs, Hrabs, elem_of_union, elem_of_singleton by by apply number_ok.
      rewrite elem_of_abs, Habs by (done || by apply number_ok).
      rewrite elem_of_app, list_elem_of_singleton. split; [|naive_solver].
      intros [He|?]; [right|by left]. by apply number_inj.
    + rewrite selected_more by done. lia.
    + rewrite !count_size in * by (apply Hrok || apply Hset). rewrite Hrabs.
      rewrite size_union, size_singleton; [lia|]. apply disjoint_singleton_l.
      rewrite elem_of_abs by done. congruence.
Qed.
End Select.

(** ** Arguments *)

Lemma selected_sub old front arg cpus : selected old front arg = Ret cpus -> cpus ⊆ old.
Proof.
  unfold selected. destruct arg as [|c rest]; [intros [= <-]; apply list_subseteq_nil|].
  destruct (_ && _) eqn:E1.
  - intros H. apply outcome_bind_ret in H as ([n r] & Hp & H). cbn [fst snd] in H.
    destruct (negb _); [done|]. destruct (List.find _ old) as [cpu|] eqn:Ef; [|done]. simplify_eq.
    apply List.find_some in Ef as [Hin%list_elem_of_In _]. set_solver.
  - destruct (_ || _); [intros; simplify_eq|].
    + intros x [_ ?]%list_elem_of_filter. done.
    + destruct ((97 <=? code c) && (code c <=? 122)); [|intros [= <-]; apply list_subseteq_nil].
      intros H. apply outcome_bind_ret in H as (sr & Hp & H). simplify_eq.
      intros x [_ ?]%list_elem_of_filter. done.
Qed.

Lemma parse_int_defined arg : match parse_int arg with Ret (_, r) => (length r <= length arg)%nat | Exit _ => True | Ub => False end.
Proof.
  unfold parse_int. destruct (strtoll 0 arg) as [[n r] e] eqn:E. apply strtoll_rest in E.
  destruct ((n =? 0) && e); [done|]. by destruct (negb _).
Qed.

Lemma parse_search_defined fuel : forall c arg s, (length arg < fuel)%nat -> defined (parse_search fuel c arg s).
Proof.
  unfold defined. induction fuel as [|fuel IH]; intros c arg s Hf; [lia|]. cbn [parse_search].
  pose proof (parse_int_defined arg) as Hp. destruct (parse_int arg) as [[n r]|e|]; simpl; [|done|done].
  assert (forall s, match r with [] => Ret s | c :: arg => parse_search fuel c arg s end <> Ub) as Hrest.
  { intros s'. destruct r as [|c' r]; [done|]. apply IH. simpl in Hp. lia. }
  unfold set_if_unset. repeat case_match; simpl; auto; done.
Qed.

Lemma selected_defined old front arg : defined (selected old front arg).
Proof.
  unfold defined, selected. destruct arg as [|c rest]; [done|].
  destruct (_ && _).
  - pose proof (parse_int_defined (c :: rest)) as Hp. destruct (parse_int (c :: rest)) as [[n r]|e|]; [|done|done].
    cbn [mbind outcome_bind fst snd]. by repeat case_match.
  - destruct (_ || _); [done|]. destruct (_ && _); [|done].
    pose proof (parse_search_defined (length (c :: rest)) c rest {| s_package := -1; s_core := -1; s_thread := -1 |}
      ltac:(simpl; lia)) as Hp.
    by destruct (parse_search _ _ _ _).
Qed.

Lemma picked_defined old front args : forall acc, defined (picked old front args acc).
Proof.
  unfold defined, picked. induction args as [|arg args IH]; intros acc; [done|]. cbn [fold_outcome].
  pose proof (selected_defined old front arg). destruct (selected old front arg); [apply IH|done|done].
Qed.

Lemma picked_sub old front args : forall acc v, acc ⊆ old -> picked old front args acc = Ret v -> v ⊆ old.
Proof.
  unfold picked. intros acc v Hacc H.
  eapply (fold_outcome_inv (fun v => v ⊆ old)); [|exact Hacc|exact H].
  intros a x a' _ Ha Hx. apply outcome_bind_ret in Hx as (cpus & Hs & Hr). simplify_eq.
  apply selected_sub in Hs. set_solver.
Qed.

(** ** The theorem *)

(** The loop over the arguments, against [picked]. *)
Lemma select_loop old add front args : table_ok old -> forall v st, inv old add v st ->
  match picked old front args v with
  | Ret v' => exists st', fold_outcome (fun st arg =>
        cpus ← selected old front arg; fold_outcome (apply_to_set add) cpus st) args st = Ret st' /\ inv old add v' st'
  | Exit e => fold_outcome (fun st arg =>
        cpus ← selected old front arg; fold_outcome (apply_to_set add) cpus st) args st = Exit e
  | Ub => True
  end.
Proof.
  intros Hold. unfold picked. induction args as [|arg args IH]; intros v st Hinv; cbn [fold_outcome]; [by exists st|].
  destruct (selected old front arg) as [cpus|e|] eqn:E; cbn [mbind outcome_bind]; [|done|done].
  pose proof (selected_sub old front arg cpus E) as Hsub.
  assert (exists st', fold_outcome (apply_to_set add) cpus st = Ret st' /\ inv old add (v ++ cpus) st') as (st' & -> & Hinv').
  { clear -Hold Hsub Hinv. revert v st Hinv. induction cpus as [|c cpus IH]; intros v st Hinv.
    - exists st. by rewrite app_nil_r.
    - destruct (apply_to_set_inv old Hold add v st c Hinv) as (st1 & Hst1 & Hinv1); [apply Hsub; by left|].
      destruct (IH ltac:(set_solver) (v ++ [c]) st1 Hinv1) as (st' & Hst' & Hinv').
      exists st'. cbn [fold_outcome]. rewrite Hst1. cbn [mbind outcome_bind]. split; [done|].
      by rewrite <- app_assoc in Hinv'. }
  by apply IH.
Qed.

Lemma filter_complement {A} (P : A -> Prop) `{forall x, Decision (P x)} (l : list A) :
  len l - len (filter (fun x => ~ P x) l) = len (filter P l).
Proof.
  induction l as [|x l IH]; [done|]. rewrite !filter_cons. unfold len in *.
  destruct (decide (P x)), (decide (~ P x)); simpl; done || lia.
Qed.

Lemma filter_in_zero (v old : list cpu_info) : v ⊆ old -> len (filter (fun c => c ∈ v) old) = 0 <-> v = [].
Proof.
  intros Hsub. split.
  - intros H0. destruct v as [|c v]; [done|].
    assert (c ∈ filter (fun x => x ∈ c :: v) old) as Hc by (apply list_elem_of_filter; set_solver).
    unfold len in H0. destruct (filter _ old); [by apply not_elem_of_nil in Hc|done].
  - intros ->. induction old as [|x old IH]; [done|]. rewrite filter_cons.
    rewrite decide_False by apply not_elem_of_nil. apply IH. apply list_subseteq_nil.
Qed.

Lemma filter_empty (old : list cpu_info) :
  filter (fun c => c ∈ ([] : list cpu_info)) old = [] /\ filter (fun c => c ∉ ([] : list cpu_info)) old = old.
Proof.
  induction old as [|x old [IH1 IH2]]; [done|].
  pose proof (not_elem_of_nil x) as Hx. split.
  - by rewrite filter_cons_False.
  - rewrite filter_cons_True by done. by rewrite IH2.
Qed.

Lemma inv_start old add :
  inv old add [] {| new_cpu_info := if add then [] else old; result := empty_set; total_matches := 0 |}.
Proof.
  destruct (filter_empty old) as [H1 H2].
  split; simpl; [apply list_subseteq_nil|by split; [constructor|]| | | |done].
  - intros c Hc. split; [|by intros ?%not_elem_of_nil].
    unfold is_set, const_word. simpl. case_match; simpl; done.
  - unfold kept. by destruct add.
  - by rewrite H1.
Qed.

Lemma select_cpus_spec param old : table_ok old -> select_cpus param old = cpuset_reference param old.
Proof.
  intros Hold. unfold select_cpus, cpuset_reference.
  destruct (match param with "!"%char :: p => (false, p) | _ => (true, param) end) as [add p].
  pose proof (select_loop old add (buffer_front p) (strtok ","%char p) Hold [] _ (inv_start old add)) as Hl.
  pose proof (picked_defined old (buffer_front p) (strtok ","%char p) []) as Hd.
  destruct (picked old (buffer_front p) (strtok ","%char p) []) as [v|e|]; [| |done].
  - destruct Hl as (st & -> & [Hsub _ _ Hnew Htot Hcnt]). cbn [mbind outcome_bind].
    pose proof (filter_in_zero v old Hsub) as Hz. rewrite <- Htot in Hz.
    pose proof (filter_complement (fun c => c ∈ v) old) as Hcomp.
    fold (kept old add v). rewrite <- Hcnt, Z.eqb_refl, Hnew. cbn [assertion mbind outcome_bind].
    destruct (Z.eqb_spec (total_matches st) 0) as [E|E].
    + by rewrite (proj1 Hz E).
    + destruct v as [|c v]; [tauto|]. cbn [length Nat.eqb].
      rewrite Htot. unfold kept in *. destruct add; cbn [andb negb].
      * rewrite Z.eqb_refl. cbn [assertion mbind outcome_bind]. rewrite Htot in E. unfold len in E.
        destruct (filter (fun c0 => c0 ∈ c :: v) old); done.
      * destruct (length (filter _ old) =? 0)%nat; [done|]. by rewrite Hcomp, Z.eqb_refl.
  - by rewrite Hl.
Qed.

(** ** The documented arguments *)

Lemma parse_int_number v c (rest : str) : 0 <= v <= INT_MAX ->
  is_digit 10 c = false -> c <> "x"%char -> c <> "X"%char ->
  parse_int (to_string v ++ c :: rest) = Ret (v, c :: rest).
Proof.
  intros Hv H1 H2 H3. unfold parse_int, strtoll, to_string. unfold INT_MAX in Hv. destruct (Z.ltb_spec v 0); [lia|].
  rewrite strto_decimal_rest by (done || lia).
  destruct (Z.ltb_spec LLONG_MAX v); [unfold LLONG_MAX in *; lia|].
  destruct (Z.ltb_spec v LLONG_MIN); [unfold LLONG_MIN in *; lia|].
  rewrite andb_false_r, wrap_s_small by (unfold in_s; lia). by rewrite Z.eqb_refl.
Qed.

Lemma parse_int_last v : 0 <= v <= INT_MAX -> parse_int (to_string v) = Ret (v, []).
Proof.
  intros Hv. unfold parse_int, strtoll, to_string. unfold INT_MAX in Hv. destruct (Z.ltb_spec v 0); [lia|].
  rewrite (strto_decimal false v) by lia.
  destruct (Z.ltb_spec LLONG_MAX v); [unfold LLONG_MAX in *; lia|].
  destruct (Z.ltb_spec v LLONG_MIN); [unfold LLONG_MIN in *; lia|].
  rewrite andb_false_r, wrap_s_small by (unfold in_s; lia). by rewrite Z.eqb_refl.
Qed.

(** The field of a search for one level. *)
Definition search_id (l : level) (s : search) : Z :=
  match l with package => s_package s | core => s_core s | thread => s_thread s end.

Lemma level_letter_ok l : is_digit 10 (level_letter l) = false /\ level_letter l <> "x"%char /\ level_letter l <> "X"%char.
Proof. by destruct l. Qed.

Lemma search_put l v s : 0 <= v -> search_id l s = -1 ->
  exists s', (forall l', search_id l' s' = if decide (l' = l) then v else search_id l' s) /\
    (forall cpu, search_matches s' cpu = search_matches s cpu && (level_id l cpu =? v)) /\
    forall fuel arg rest, parse_int arg = Ret (v, rest) ->
      parse_search (S fuel) (level_letter l) arg s = match rest with [] => Ret s' | c :: arg => parse_search fuel c arg s' end.
Proof.
  intros Hv Hs. destruct s as [p c t].
  exists {| s_package := if decide (l = package) then v else p; s_core := if decide (l = core) then v else c;
            s_thread := if decide (l = thread) then v else t |}.
  split; [|split].
  - intros l'. destruct l, l'; done.
  - intros cpu. destruct l; simpl in Hs; subst; unfold search_matches; simpl;
      (destruct (Z.eqb_spec v (-1)); [lia|]); simpl;
      repeat match goal with |- context [(?a =? ?b) || _] => destruct (a =? b) end; simpl;
      repeat match goal with |- context [?a =? ?b] => destruct (a =? b) end; done.
  - intros fuel arg rest Hp. cbn [parse_search]. rewrite Hp. destruct l; simpl in Hs; subst; done.
Qed.

Lemma parse_search_criteria ks : forall k s fuel, (length ks < fuel)%nat ->
  NoDup (map at_level (k :: ks)) -> Forall (fun k => 0 <= at_id k <= INT_MAX) (k :: ks) ->
  Forall (fun k => search_id (at_level k) s = -1) (k :: ks) ->
  exists s', parse_search fuel (level_letter (at_level k)) (to_string (at_id k) ++ concat (map criterion_text ks)) s = Ret s' /\
    forall cpu, search_matches s' cpu = search_matches s cpu && pick_matches cpu (Where (k :: ks)).
Proof.
  induction ks as [|k' ks IH]; intros k s fuel Hf [Hnin Hnd]%NoDup_cons [Hk Hks]%Forall_cons [Hs Hss]%Forall_cons;
    (destruct fuel as [|fuel]; [simpl in Hf; lia|]);
    destruct (search_put (at_level k) (at_id k) s ltac:(lia) Hs) as (s1 & Hid & Hm & Hp).
  - exists s1. cbn [map concat]. rewrite app_nil_r, (Hp _ _ [] (parse_int_last _ Hk)). split; [done|].
    intros cpu. rewrite Hm. cbn [pick_matches forallb]. by rewrite andb_true_r.
  - destruct (level_letter_ok (at_level k')) as (H1 & H2 & H3).
    change (concat (map criterion_text (k' :: ks))) with
      (level_letter (at_level k') :: to_string (at_id k') ++ concat (map criterion_text ks)).
    rewrite (Hp _ _ _ (parse_int_number _ _ _ Hk H1 H2 H3)).
    destruct (IH k' s1 fuel) as (s' & Hs' & Hm'); [simpl in Hf; lia|done|done| |].
    + rewrite Forall_forall in Hss |- *. intros x Hx. rewrite Hid. destruct (decide _) as [E|]; [|by apply Hss].
      destruct Hnin. rewrite <- E. change (at_level x ∈ at_level <$> (k' :: ks)). by apply list_elem_of_fmap_2.
    + exists s'. split; [done|]. intros cpu. rewrite Hm', Hm. cbn [pick_matches forallb]. by rewrite <- andb_assoc.
Qed.

Lemma criteria_length l : (length l <= length (concat (map criterion_text l)))%nat.
Proof.
  induction l as [|k l IH]; [done|]. change (concat (map criterion_text (k :: l))) with
    (criterion_text k ++ concat (map criterion_text l)). rewrite length_app. cbn [length criterion_text]. lia.
Qed.

(** The text of a pick starts with a digit or the letter of a level. *)
Lemma pick_text_head old p : table_ok old -> pick_ok old p -> exists c r, pick_text p = c :: r /\
  match p with Number _ => is_digit 10 c = true | Where _ => exists l, c = level_letter l end.
Proof.
  intros Hold Hp. destruct p as [n|[|k l]]; simpl in *; [|by destruct Hp|].
  - apply Exists_exists in Hp as (cpu & Hin & Hn). pose proof (number_ok old Hold cpu Hin) as Hok. unfold cpu_ok in Hok.
    rewrite Hn in Hok. unfold to_string. destruct (Z.ltb_spec n 0); [lia|].
    destruct (Z.eq_dec n 0) as [->|]; [by exists "0"%char, []|].
    destruct (to_digits_head 10 n) as (c & r & -> & Hd & _); [lia..|]. by exists c, r.
  - eexists _, _. split; [done|]. by exists (at_level k).
Qed.

Lemma digit_code c : is_digit 10 c = true -> (48 <=? code c) && (code c <=? 57) = true.
Proof. destruct c as [[] [] [] [] [] [] [] []]; vm_compute; done. Qed.

(** Each argument selects the processors that match it. *)
Lemma selected_pick old front p : table_ok old -> pick_ok old p -> front <> L "odd" -> front <> L "even" ->
  exists cpus, selected old front (pick_text p) = Ret cpus /\ forall c, c ∈ cpus <-> c ∈ old /\ pick_matches c p = true.
Proof.
  intros Hold Hp Ho He. destruct (pick_text_head old p Hold Hp) as (c & r & E & Hc).
  assert (str_eqb front (L "odd") || str_eqb front (L "even") = false) as Hf.
  { apply orb_false_iff. split; by apply bool_decide_eq_false_2. }
  unfold selected. rewrite E. destruct p as [n|l].
  - rewrite (digit_code c Hc), <- E. simpl in Hp. apply Exists_exists in Hp as (cpu & Hin & Hn).
    pose proof (number_ok old Hold cpu Hin) as Hok. unfold cpu_ok in Hok.
    cbn [pick_text]. rewrite parse_int_last by (unfold INT_MAX; lia). cbn [mbind outcome_bind fst snd length Nat.eqb negb].
    destruct (List.find (fun cpu => cpu_number cpu =? n) old) as [cpu'|] eqn:Ef.
    + apply List.find_some in Ef as [Hin'%list_elem_of_In En%Z.eqb_eq]. exists [cpu']. split; [done|].
      intros x. rewrite list_elem_of_singleton. cbn [pick_matches]. rewrite Z.eqb_eq. split; [by intros ->|].
      intros [Hx Hxn]. apply (number_inj old Hold); [done..|congruence].
    + apply list_elem_of_In, (List.find_none _ _ Ef), Z.eqb_neq in Hin. done.
  - destruct Hc as [lv ->]. destruct l as [|k l]; [by destruct Hp as [[] _]|]. destruct Hp as (_ & Hnd & Hids).
    cbn [pick_text map concat criterion_text app] in E. injection E as Elv <-.
    replace ((48 <=? code (level_letter lv)) && (code (level_letter lv) <=? 57)) with false by by destruct lv.
    rewrite Hf. replace ((97 <=? code (level_letter lv)) && (code (level_letter lv) <=? 122)) with true by by destruct lv.
    rewrite <- Elv. destruct (parse_search_criteria l k {| s_package := -1; s_core := -1; s_thread := -1 |}
      (length (level_letter (at_level k) :: to_string (at_id k) ++ concat (map criterion_text l)))) as (s' & -> & Hm); [|done|done| |].
    + pose proof (criteria_length l). cbn [length]. rewrite length_app. lia.
    + apply Forall_forall. intros x _. by destruct (at_level x).
    + cbn [mbind outcome_bind]. eexists. split; [done|]. intros x. rewrite list_elem_of_filter, Hm. unfold search_matches. simpl.
      tauto.
Qed.

Lemma picked_picks old front ps : table_ok old -> Forall (pick_ok old) ps -> front <> L "odd" -> front <> L "even" ->
  forall acc, exists v, picked old front (map pick_text ps) acc = Ret v /\
    forall c, c ∈ v <-> c ∈ acc \/ c ∈ old /\ existsb (pick_matches c) ps = true.
Proof.
  intros Hold Hps Ho He. unfold picked. induction Hps as [|p ps Hp Hps IH]; intros acc.
  - exists acc. split; [done|]. intros c. simpl. naive_solver.
  - destruct (selected_pick old front p Hold Hp Ho He) as (cpus & Hs & Hc). cbn [map fold_outcome].
    rewrite Hs. cbn [mbind outcome_bind]. destruct (IH (acc ++ cpus)) as (v & -> & Hv). exists v. split; [done|].
    intros c. rewrite Hv, elem_of_app, Hc. cbn [existsb]. rewrite orb_true_iff. tauto.
Qed.

Lemma to_string_chars v c : 0 <= v <= INT_MAX -> c ∈ to_string v -> is_digit 10 c = true.
Proof.
  intros Hv Hc. unfold to_string, INT_MAX in *. destruct (Z.ltb_spec v 0); [lia|].
  assert (Forall (fun c => is_digit 10 c = true) (to_digits 10 v)) as Hall by (apply digits_fuel_digits; lia).
  rewrite Forall_forall in Hall. by apply Hall.
Qed.

Lemma pick_text_word old p : table_ok old -> pick_ok old p ->
  pick_text p <> [] /\ Forall (fun c => char_eqb c ","%char = false) (pick_text p).
Proof.
  intros Hold Hp. split; [by destruct (pick_text_head old p Hold Hp) as (c & r & -> & _)|].
  assert (forall c, is_digit 10 c = true -> char_eqb c ","%char = false) as Hd.
  { intros c H. apply bool_decide_eq_false_2. by intros ->. }
  apply Forall_forall. intros c Hc. destruct p as [n|l]; cbn [pick_text] in Hc.
  - simpl in Hp. apply Exists_exists in Hp as (cpu & Hin & Hn). pose proof (number_ok old Hold cpu Hin) as Hok.
    unfold cpu_ok in Hok. apply Hd, (to_string_chars n); [unfold INT_MAX; lia|done].
  - destruct Hp as (_ & _ & Hids). induction Hids as [|k l Hk Hids IH]; [by apply elem_of_nil in Hc|].
    cbn [map concat criterion_text app] in Hc. apply elem_of_cons in Hc as [->|[Hc|Hc]%elem_of_app].
    + by destruct (at_level k).
    + by apply Hd, (to_string_chars (at_id k)).
    + by apply IH.
Qed.

(** The front of the buffer is the first argument, which is neither "odd" nor
    "even". *)
Lemma buffer_front_picks old ps : table_ok old -> Forall (pick_ok old) ps ->
  buffer_front (join ","%char (map pick_text ps)) <> L "odd" /\
  buffer_front (join ","%char (map pick_text ps)) <> L "even".
Proof.
  intros Hold [|p ps' Hp Hps]; [done|].
  destruct (pick_text_word old p Hold Hp) as [Hne Hcs]. destruct (pick_text_head old p Hold Hp) as (c & r & E & Hc).
  assert (exists rest, join ","%char (map pick_text (p :: ps')) = pick_text p ++ rest /\
    match rest with [] => True | x :: _ => negb (char_eqb x ","%char) = false end) as (rest & -> & Hrest).
  { destruct ps'; [exists []; by rewrite app_nil_r|by eexists]. }
  unfold buffer_front. rewrite E in *. apply Forall_cons in Hcs as [Hc0 Hcs]. cbn [app span]. rewrite Hc0. cbn [app].
  rewrite app_comm_cons, span_all; [|constructor; [by rewrite Hc0|by eapply Forall_impl; [exact Hcs|intros x ->]]|done].
  cbn [fst]. destruct p; [|destruct Hc as [lv ->]; by destruct lv].
  split; intros [= -> _]; vm_compute in Hc; done.
Qed.

(** "!" is no argument. *)
Lemma cpuset_text_sign old negated ps : table_ok old -> Forall (pick_ok old) ps ->
  match cpuset_text negated ps with "!"%char :: p => (false, p) | _ => (true, cpuset_text negated ps) end =
  (negb negated, join ","%char (map pick_text ps)).
Proof.
  intros Hold Hps. destruct negated; [done|]. unfold cpuset_text. cbn [app negb].
  destruct Hps as [|p ps' Hp Hps]; [done|]. destruct (pick_text_head old p Hold Hp) as (c & r & E & Hc).
  assert (exists rest, join ","%char (map pick_text (p :: ps')) = c :: rest) as [rest ->].
  { cbn [map]. rewrite E. destruct ps'; by eexists. }
  destruct (decide (c = "!"%char)) as [->|Hne].
  - destruct p; [by vm_compute in Hc|]. destruct Hc as [[] ?]; done.
  - destruct c as [[] [] [] [] [] [] [] []]; done.
Qed.

Lemma select_cpus_documented (negated : bool) ps old : table_ok old -> Forall (pick_ok old) ps ->
  select_cpus (cpuset_text negated ps) old =
    let chosen c := existsb (pick_matches c) ps in
    let new := filter (fun c => chosen c = negb negated) old in
    if negb (existsb chosen old) || (length new =? 0)%nat then Exit EX_USAGE else Ret new.
Proof.
  intros Hold Hps. rewrite (select_cpus_spec _ _ Hold). unfold cpuset_reference.
  rewrite (cpuset_text_sign old negated ps Hold Hps), strtok_join.
  2: { apply Forall_fmap. eapply Forall_impl; [exact Hps|]. intros p Hp. by apply (pick_text_word old). }
  destruct (buffer_front_picks old ps Hold Hps) as [Ho He].
  destruct (picked_picks old _ ps Hold Hps Ho He []) as (v & -> & Hv). cbn [mbind outcome_bind]. cbv zeta.
  assert (forall c, c ∈ old -> c ∈ v <-> existsb (pick_matches c) ps = true) as Hv'.
  { intros c Hc. rewrite Hv. split; [by intros [?%elem_of_nil|[_ ?]]|auto]. }
  assert ((length v =? 0)%nat = negb (existsb (fun c => existsb (pick_matches c) ps) old)) as ->.
  { destruct v as [|c v]; symmetry.
    - apply negb_true_iff, not_true_iff_false. intros (c & Hc & Hm)%existsb_exists.
      apply (Hv' c) in Hm; [by apply elem_of_nil in Hm|by apply list_elem_of_In].
    - apply negb_false_iff, existsb_exists. exists c. destruct (proj1 (Hv c) ltac:(by left)) as [?%elem_of_nil|[H1 H2]]; [done|].
      split; [by apply list_elem_of_In|done]. }
  destruct (negb (existsb _ old)); [done|]. cbn [orb].
  assert ((if negb negated then filter (fun c => c ∈ v) old else filter (fun c => c ∉ v) old) =
          filter (fun c => existsb (pick_matches c) ps = negb negated) old) as ->; [|done].
  clear -Hv'. induction old as [|c old IH]; [by destruct negated|].
  assert (forall c, c ∈ old -> c ∈ v <-> existsb (pick_matches c) ps = true) as Hold' by (intros x Hx; apply Hv'; by right).
  specialize (IH Hold'). pose proof (Hv' c ltac:(by left)) as Hc.
  destruct negated; cbn [negb] in *; rewrite !filter_cons, IH; repeat case_decide; try done; exfalso;
    destruct (existsb (pick_matches c) ps); tauto || naive_solver.
Qed.

(** C22. --cpuset is a filter, on a table as init_topology() leaves it (sorted,
    with distinct processor numbers).
    (1) With the arguments that the documentation of the option describes - a
    comma-separated list of processor numbers and of letter-number searches for
    a package, core and thread, each level at most once in a search and every
    number one of the table - the processors that match some argument remain, in
    their original order, or with "!" before the list those that match none; a
    list that matches no processor, or leaves none, ends the program with
    EX_USAGE.
    (2) For any text, well formed or not, inserting or erasing the processors
    one by one, as the code does, ends as filtering the table by the processors
    that the code's own reading of the arguments ([selected]) picks: no order or
    repetition of the arguments matters, the assertions at the end of the
    function hold, no input reads out of bounds, and the table that remains is
    not empty. That reading is lenient: an argument that starts with another
    character is ignored, a letter without a number is the number 0, and the
    keywords "odd" and "even" are looked for at the wrong place (Examples
    [ignored_argument], [letter_without_number], [odd_even_front]). *)
Theorem select_cpus_is_filter (old : list cpu_info) :
  table_ok old ->
  (forall (negated : bool) (ps : list pick), Forall (pick_ok old) ps ->
    let chosen c := existsb (pick_matches c) ps in
    let new := filter (fun c => chosen c = negb negated) old in
    select_cpus (cpuset_text negated ps) old =
      if negb (existsb chosen old) || (length new =? 0)%nat then Exit EX_USAGE else Ret new) /\
  (forall param : str,
    select_cpus param old = cpuset_reference param old /\ defined (select_cpus param old) /\
    forall new, select_cpus param old = Ret new -> new <> [] /\ new `sublist_of` old).
Proof.
  intros Hold. split; [intros negated ps Hps; by apply select_cpus_documented|]. intros param.
  rewrite (select_cpus_spec param old Hold). split; [done|]. unfold defined, cpuset_reference.
  destruct (match param with "!"%char :: p => (false, p) | _ => (true, param) end) as [add p].
  pose proof (picked_defined old (buffer_front p) (strtok ","%char p) []) as Hd.
  destruct (picked _ _ _ _) as [v|e|]; [|done|done]. cbn [mbind outcome_bind].
  destruct (length v =? 0)%nat; [done|]. fold (kept old add v).
  destruct (Nat.eqb_spec (length (kept old add v)) 0) as [E|E]; [done|]. split; [done|].
  intros new [= <-]. split; [by intros Hn; rewrite Hn in E|].
  unfold kept. destruct add; apply sublist_filter.
Qed.

Definition sample_table : list cpu_info :=
  imap (fun i c => set_cpu_number (Z.of_nat i) c) sample.

Lemma sample_table_ok : table_ok sample_table.
Proof. split; apply (bool_decide_unpack _); by vm_compute. Qed.

Lemma select_cpus_is_filter_witness :
  let ps := [Where [At package 1; At core 0]; Number 2] in
  cpuset_text true ps = L "!p1c0,2" /\
  exists new, select_cpus (cpuset_text true ps) sample_table = Ret new /\ map cpu_number new = [0; 1; 4].
Proof.
  intros ps. split; [by vm_compute|].
  assert (Forall (pick_ok sample_table) ps) as Hps.
  { constructor; [|constructor; [|constructor]]; simpl; [|apply (bool_decide_unpack _); by vm_compute].
    split; [done|]. split; [apply (bool_decide_unpack _); by vm_compute|repeat constructor; by vm_compute]. }
  destruct (select_cpus_is_filter sample_table sample_table_ok) as [He _]. specialize (He true ps Hps).
  cbv zeta in He. rewrite He. eexists. split; by vm_compute.
Defined.

(** What the code makes of arguments that the documentation does not describe. *)
Example ignored_argument :
  select_cpus (L "0,P1") sample_table = select_cpus (L "0") sample_table.
Proof. by vm_compute. Qed.
Example letter_without_number :
  select_cpus (L "p") sample_table = select_cpus (L "p0") sample_table.
Proof. by vm_compute. Qed.

(** The keywords "odd" and "even" are looked for at the start of the option,
    not in the argument at hand: after them any other argument selects the same
    processors again, and they are an error after another argument. *)
Example odd_even_front :
  select_cpus (L "odd,p0") sample_table = select_cpus (L "odd") sample_table /\
  select_cpus (L "0,odd") sample_table = Exit EX_USAGE.
Proof. split; by vm_compute. Qed.
