(* ===== verification/SlicePlan.v ===== *)
(** How the processors are divided among child processes (slice_plan_init(),
    slices_for_test() of src/framework/sandstone.cpp) and how the shared memory
    is laid out for them (init_shmem(), commit_shmem(), attach_shmem_internal()). *)

From S2P Require Import Prelude CpuSet CpuInfo ThreadData Topology.

(** * Slice plans *)

(** SandstoneApplication::SlicePlans *)
Definition MinimumCpusPerSocket : Z := 8.
Definition DefaultMaxCoresPerSlice : Z := 32.

Record SlicePlans := { IsolateSockets : list CpuRange; Heuristic : list CpuRange }.

Definition fill_plans (plan : list CpuRange) : SlicePlans := {| IsolateSockets := plan; Heuristic := plan |}.

Definition set_to_full_system (num_cpus : Z) : SlicePlans :=
  fill_plans [{| starting_cpu := 0; cpu_count := num_cpus |}].

Section Plans.
(** The cpu_info array. *)
Context (l : list cpu_info).

(** push_to: the range from the first thread of the first core to the last
    thread of the last one; an empty core has no first thread. *)
Definition core_range (cs : list Core) : outcome CpuRange :=
  c1 ← of_option (head cs);
  c2 ← of_option (last cs);
  _ ← assertion ((first c1 <? last_ c1)%nat && (first c2 <? last_ c2)%nat);
  let start_cpu := Z.of_nat (first c1) in
  let end_cpu := Z.of_nat (last_ c2) - 1 in
  _ ← assertion (start_cpu <=? end_cpu);
  Ret {| starting_cpu := start_cpu; cpu_count := end_cpu + 1 - start_cpu |}.

Definition push_to (to : list CpuRange) (cs : list Core) : outcome (list CpuRange) :=
  r ← core_range cs; Ret (to ++ [r]).

(** threads[0].module_id of a core. *)
Definition module_of (c : Core) : outcome Z :=
  t ← of_option (l !! first c); Ret (module_id t).

(** The inner loop: [e] moves on while the core before it and the core at it
    are of the same module. *)
Fixpoint extend_slice (taken : list Core) (rest : list Core) : outcome (list Core * list Core) :=
  match rest with
  | [] => Ret (taken, [])
  | c :: rest' =>
      prev ← of_option (last taken);
      m1 ← module_of prev;
      m2 ← module_of c;
      if m1 =? m2 then extend_slice (taken ++ [c]) rest' else Ret (taken, rest)
  end.

(** The loop over the cores of a NUMA node; every slice takes at least one
    core, so the number of cores is enough fuel. *)
Fixpoint split_node (fuel : nat) (slice_size : nat) (cs : list Core) (to : list CpuRange) : outcome (list CpuRange) :=
  match fuel with
  | O => Ub
  | S fuel =>
      if (slice_size <? length cs)%nat then
        r ← extend_slice (take slice_size cs) (drop slice_size cs);
        to ← push_to to r.1;
        split_node fuel slice_size r.2 to
      else if (length cs =? 0)%nat then Ret to
      else push_to to cs
  end.

Definition split_numa_node (max_cores_per_slice : Z) (to : list CpuRange) (n : NumaNode) : outcome (list CpuRange) :=
  let cs := n_cores n in
  if (length cs =? 0)%nat then Ret to
  else
    let slice_count := len cs / max_cores_per_slice in
    let slice_count := if negb (len cs mod max_cores_per_slice =? 0) then slice_count + 1 else slice_count in
    let slice_size := len cs / slice_count in
    split_node (S (length cs)) (Z.to_nat slice_size) cs to.

(** The body of the loop over the packages. *)
Definition plan_package (max_cores_per_slice : Z) (plans : SlicePlans) (p : Package) : outcome SlicePlans :=
  if (length (cores p) =? 0)%nat then Ret plans
  else
    isolate_socket ← push_to (IsolateSockets plans) (cores p);
    if len (cores p) <=? max_cores_per_slice
    then Ret {| IsolateSockets := isolate_socket; Heuristic := isolate_socket |}
    else
      split ← fold_outcome (split_numa_node max_cores_per_slice) (numa_domains p) (Heuristic plans);
      Ret {| IsolateSockets := isolate_socket; Heuristic := split |}.
End Plans.

(** The slices of the "dumb" plan: equal sizes, the last one takes the rest. *)
Fixpoint dumb_slices (fuel : nat) (cpu slice_size max_cpu : Z) : list CpuRange :=
  match fuel with
  | O => []
  | S fuel =>
      if cpu <? max_cpu - slice_size
      then {| starting_cpu := cpu; cpu_count := slice_size |} :: dumb_slices fuel (cpu + slice_size) slice_size max_cpu
      else [{| starting_cpu := cpu; cpu_count := max_cpu - cpu |}]
  end.

Definition dumb_plan (max_cpu max_cores_per_slice : Z) : list CpuRange :=
  let slice_count := Z.quot (max_cpu - 1) max_cores_per_slice + 1 in
  let slice_size := Z.quot max_cpu slice_count in
  dumb_slices (S (Z.to_nat max_cpu)) 0 slice_size max_cpu.

Definition slice_plan_init (no_fork : bool) (l : list cpu_info) (pkgs : list Package) (max_cores_per_slice : Z)
  : outcome SlicePlans :=
  let max_cpu := len l in
  if no_fork || (max_cores_per_slice <? 0) then Ret (set_to_full_system max_cpu)
  else
    let fallback := fun max_cores_per_slice =>
      if max_cores_per_slice =? 0 then Ret (set_to_full_system max_cpu)
      else Ret (fill_plans (dumb_plan max_cpu max_cores_per_slice)) in
    let plan := fun max_cores_per_slice =>
      fold_outcome (plan_package l max_cores_per_slice) pkgs {| IsolateSockets := []; Heuristic := [] |} in
    if negb (isValid pkgs) then fallback max_cores_per_slice
    else if max_cores_per_slice =? 0 then
      if max_cpu / len pkgs <=? MinimumCpusPerSocket then fallback DefaultMaxCoresPerSlice
      else plan DefaultMaxCoresPerSlice
    else plan max_cores_per_slice.

(** * Slices for a test *)

Definition test_schedule_mask : Z := 14.
Definition test_schedule_sequential : Z := 2.
Definition test_schedule_fullsystem : Z := 4.
Definition test_schedule_isolate_socket : Z := 6.

Inductive slice_type := FullSystem | Isolate | Heur.

Definition slice_type_of (flags : Z) : slice_type :=
  let s := Z.land flags test_schedule_mask in
  if (s =? test_schedule_sequential) || (s =? test_schedule_fullsystem) then FullSystem
  else if s =? test_schedule_isolate_socket then Isolate
  else Heur.

Definition set_cpu_range (r : CpuRange) (m : Main) : Main := {| m_common := m_common m; cpu_range := r |}.

(** sApp->main_thread_data(i)->cpu_range = r *)
Definition store_range (s : Shm) (ir : nat * CpuRange) : outcome Shm :=
  _ ← of_option (mains s !! ir.1);
  Ret {| mains := alter (set_cpu_range ir.2) ir.1 (mains s); tests := tests s |}.

Definition slices_for_test (flags num_cpus : Z) (plans : SlicePlans) (s : Shm) : outcome (Z * Shm) :=
  match slice_type_of flags with
  | FullSystem =>
      s ← store_range s (O, {| starting_cpu := 0; cpu_count := num_cpus |});
      Ret (1, s)
  | t =>
      let plan := match t with Isolate => IsolateSockets plans | _ => Heuristic plans end in
      s ← fold_outcome store_range (imap pair plan) s;
      Ret (len plan, s)
  end.

(** * The slices cover the processors *)

(** Consecutive, non-empty ranges from [a] to [b]. *)
Fixpoint ranges_tile (a b : Z) (rs : list CpuRange) : Prop :=
  match rs with
  | [] => a = b
  | r :: rs => starting_cpu r = a /\ 0 < cpu_count r /\ ranges_tile (a + cpu_count r) b rs
  end.

Lemma ranges_tile_app a m b rs1 rs2 : ranges_tile a m rs1 -> ranges_tile m b rs2 -> ranges_tile a b (rs1 ++ rs2).
Proof.
  revert a. induction rs1 as [|r rs1 IH]; intros a; simpl; [by intros ->|].
  intros (? & ? & ?) ?. auto.
Qed.

Lemma tiles_le a b cs : tiles a b cs -> (a <= b)%nat.
Proof.
  revert a. induction cs as [|c cs IH]; intros a; simpl; [lia|]. intros (? & ? & H%IH). lia.
Qed.

Lemma tiles_app a b cs1 cs2 : tiles a b (cs1 ++ cs2) <-> exists m, tiles a m cs1 /\ tiles m b cs2.
Proof.
  revert a. induction cs1 as [|c cs1 IH]; intros a; simpl.
  - split; [intros; by exists a|intros (m & -> & ?); done].
  - rewrite IH. naive_solver.
Qed.

Lemma tiles_last a b cs c : tiles a b (cs ++ [c]) -> last_ c = b /\ (a <= first c < last_ c)%nat.
Proof.
  intros (m & H1 & H2)%tiles_app. apply tiles_le in H1. simpl in H2. lia.
Qed.

Lemma core_range_spec a b cs : cs <> [] -> tiles a b cs ->
  core_range cs = Ret {| starting_cpu := Z.of_nat a; cpu_count := Z.of_nat b - Z.of_nat a |} /\ (a < b)%nat.
Proof.
  intros Hne Ht. unfold core_range.
  destruct cs as [|c1 cs]; [done|]. pose proof Ht as Ht'. simpl in Ht'. destruct Ht' as (Hf & Hl & Hr).
  destruct (exists_last Hne) as (pre & c2 & E). pose proof Ht as Hl2. rewrite E in Hl2.
  apply tiles_last in Hl2 as [Hb Hc2]. apply tiles_le in Hr.
  rewrite E, last_snoc, <- E. simpl.
  destruct (Nat.ltb_spec (first c1) (last_ c1)); [|lia]. destruct (Nat.ltb_spec (first c2) (last_ c2)); [|lia].
  simpl. destruct (Z.leb_spec (Z.of_nat (first c1)) (Z.of_nat (last_ c2) - 1)); [|lia]. simpl.
  split; [|lia]. do 2 f_equal; lia.
Qed.

Section Cover.
Context (l : list cpu_info).

(** The module of a core of the table. *)
Definition module_id_of (c : Core) : Z := default 0 (module_id <$> l !! first c).

Definition core_in (c : Core) : Prop := (first c < length l)%nat.

Lemma module_of_in c : core_in c -> module_of l c = Ret (module_id_of c).
Proof using Type.
  intros H. unfold module_of, module_id_of. destruct (lookup_lt_is_Some_2 l (first c) H) as [t ->]. done.
Qed.

Lemma tiles_in a b cs : tiles a b cs -> (b <= length l)%nat -> Forall core_in cs.
Proof using Type.
  revert a. induction cs as [|c cs IH]; intros a; simpl; [constructor|].
  intros (Hf & Hl & Hr) Hb. pose proof (tiles_le _ _ _ Hr). constructor; [unfold core_in; lia|by eapply IH].
Qed.

(** extend_slice() stops at the end or between two modules. *)
Lemma extend_slice_spec rest : forall taken, taken <> [] -> Forall core_in (taken ++ rest) ->
  exists more rest', extend_slice l taken rest = Ret (taken ++ more, rest') /\ rest = more ++ rest' /\
    forall c1 c2, last (taken ++ more) = Some c1 -> head rest' = Some c2 -> module_id_of c1 <> module_id_of c2.
Proof using Type.
  induction rest as [|c rest IH]; intros taken Hne Hin; simpl.
  - exists [], []. by rewrite app_nil_r.
  - destruct (exists_last Hne) as (pre & prev & ->). rewrite last_snoc. simpl.
    assert (core_in prev /\ core_in c) as [Hp Hc].
    { rewrite <- app_assoc, Forall_app in Hin. destruct Hin as [_ Hin]. simpl in Hin.
      rewrite !Forall_cons in Hin. tauto. }
    rewrite (module_of_in prev Hp), (module_of_in c Hc). simpl.
    destruct (Z.eqb_spec (module_id_of prev) (module_id_of c)) as [E|E].
    + destruct (IH ((pre ++ [prev]) ++ [c])) as (more & rest' & -> & -> & Hcut);
        [by destruct pre|by rewrite <- app_assoc|].
      exists (c :: more), rest'. rewrite <- app_assoc. split; [done|]. split; [done|].
      intros c1 c2. rewrite <- app_assoc in Hcut. apply Hcut.
    + exists [], (c :: rest). rewrite app_nil_r. split; [done|]. split; [done|].
      intros c1 c2. rewrite last_snoc. simpl. intros. by simplify_eq.
Qed.

(** Neighbouring parts end and start in different modules. *)
Fixpoint cuts_ok (parts : list (list Core)) : Prop :=
  match parts with
  | p1 :: (p2 :: _) as parts' =>
      (forall c1 c2, last p1 = Some c1 -> head p2 = Some c2 -> module_id_of c1 <> module_id_of c2) /\ cuts_ok parts'
  | _ => True
  end.

(** The parts a list of cores is split into, and their ranges. *)
Record split_ok (cs : list Core) (parts : list (list Core)) (rs : list CpuRange) : Prop := {
  split_concat : concat parts = cs;
  split_nonempty : Forall (fun p => p <> []) parts;
  split_cuts : cuts_ok parts;
  split_ranges : Forall2 (fun p r => core_range p = Ret r) parts rs;
}.

Lemma split_ok_cons p r cs parts rs : p <> [] -> core_range p = Ret r -> split_ok cs parts rs ->
  (forall c1 c2, last p = Some c1 -> head cs = Some c2 -> module_id_of c1 <> module_id_of c2) ->
  split_ok (p ++ cs) (p :: parts) (r :: rs).
Proof using Type.
  intros Hp Hr [<- Hne Hcut H2] Hc. split; [done|by constructor| |by constructor].
  destruct parts as [|p2 parts]; [done|]. split; [|done]. intros c1 c2 H1 Hh. apply Hc; [done|].
  apply Forall_cons in Hne as [Hne _]. destruct p2; [done|]. done.
Qed.

Lemma split_node_spec (ss : nat) (Hss : (0 < ss)%nat) fuel : forall cs a b to,
  (length cs < fuel)%nat -> tiles a b cs -> (b <= length l)%nat ->
  exists parts rs, split_node l fuel ss cs to = Ret (to ++ rs) /\ split_ok cs parts rs.
Proof using Type.
  induction fuel as [|fuel IH]; intros cs a b to Hf Ht Hb; [lia|]. cbn [split_node].
  destruct (Nat.ltb_spec ss (length cs)) as [Hlt|Hge].
  - pose proof (tiles_in a b cs Ht Hb) as Hin. rewrite <- (take_drop ss cs) in Hin.
    assert (take ss cs <> []) as Hne.
    { intros E. apply (f_equal length) in E. rewrite length_take in E. simpl in E. lia. }
    destruct (extend_slice_spec (drop ss cs) (take ss cs) Hne Hin) as (more & rest & -> & Hd & Hcut).
    cbn [mbind outcome_bind fst snd].
    assert (cs = (take ss cs ++ more) ++ rest) as Ecs by by rewrite <- app_assoc, <- Hd, take_drop.
    set (p1 := take ss cs ++ more) in *. rewrite Ecs in Ht. apply tiles_app in Ht as (m & Ht1 & Ht2).
    assert (p1 <> []) as Hp1 by (unfold p1; destruct (take ss cs); done).
    destruct (core_range_spec a m p1 Hp1 Ht1) as [Hr _]. set (r1 := {| starting_cpu := _; cpu_count := _ |}) in Hr.
    unfold push_to. rewrite Hr. cbn [mbind outcome_bind].
    assert (length rest < length cs)%nat.
    { apply (f_equal length) in Ecs. rewrite length_app in Ecs. destruct p1; [done|]. simpl in Ecs. lia. }
    destruct (IH rest m b (to ++ [r1]) ltac:(lia) Ht2 Hb) as (parts & rs & -> & Hok).
    exists (p1 :: parts), (r1 :: rs). rewrite <- app_assoc. split; [done|].
    rewrite Ecs. by apply split_ok_cons.
  - destruct (Nat.eqb_spec (length cs) 0) as [E|E].
    + apply nil_length_inv in E as ->. exists [], []. rewrite app_nil_r. split; [done|]. by split.
    + assert (cs <> []) as Hne by by intros ->.
      destruct (core_range_spec a b cs Hne Ht) as [Hr _]. unfold push_to. rewrite Hr.
      eexists [cs], [_]. split; [done|]. split; [apply app_nil_r|by constructor|done|by repeat constructor].
Qed.

Lemma split_ok_tile cs parts rs : split_ok cs parts rs -> forall a b, tiles a b cs ->
  ranges_tile (Z.of_nat a) (Z.of_nat b) rs.
Proof using Type.
  intros [<- Hne _ H2]. induction H2 as [|p r parts rs Hr H2 IH]; intros a b Ht; simpl in *; [by f_equal|].
  apply Forall_cons in Hne as [Hp Hne]. apply tiles_app in Ht as (m & Ht1 & Ht2).
  destruct (core_range_spec a m p Hp Ht1) as [Hr' Hlt]. rewrite Hr' in Hr. injection Hr as <-. simpl.
  split; [done|]. split; [lia|]. replace (Z.of_nat a + (Z.of_nat m - Z.of_nat a)) with (Z.of_nat m) by lia. auto.
Qed.

Lemma slice_size_pos n mcs : 0 < n -> 0 < mcs ->
  0 < n / (if negb (n mod mcs =? 0) then n / mcs + 1 else n / mcs).
Proof using Type.
  intros Hn Hm. pose proof (Z_div_mod_eq_full n mcs). pose proof (Z.mod_pos_bound n mcs Hm).
  assert (0 <= n / mcs) by (apply Z.div_pos; lia).
  apply Z.div_str_pos. destruct (Z.eqb_spec (n mod mcs) 0); simpl.
  - split; nia.
  - split; nia.
Qed.

Lemma split_numa_node_spec mcs to n a b : 0 < mcs -> tiles a b (n_cores n) -> (b <= length l)%nat ->
  exists parts rs, split_numa_node l mcs to n = Ret (to ++ rs) /\ split_ok (n_cores n) parts rs.
Proof using Type.
  intros Hm Ht Hb. unfold split_numa_node. destruct (Nat.eqb_spec (length (n_cores n)) 0) as [E|E].
  - apply nil_length_inv in E as ->. exists [], []. rewrite app_nil_r. split; [done|]. by split.
  - pose proof (slice_size_pos (len (n_cores n)) mcs ltac:(unfold len; lia) Hm).
    eapply split_node_spec; [lia|lia|done|done].
Qed.

Lemma split_nodes_spec mcs ns : 0 < mcs -> forall to a b, (b <= length l)%nat -> nodes_ok l a b ns ->
  exists rs, fold_outcome (split_numa_node l mcs) ns to = Ret (to ++ rs) /\
    ranges_tile (Z.of_nat a) (Z.of_nat b) rs.
Proof using Type.
  intros Hm. induction ns as [|n ns IH]; intros to a b Hb Hok; simpl in Hok.
  - subst. exists []. by rewrite app_nil_r.
  - destruct Hok as (m & Ham & [Ht _] & _ & Hok).
    assert (m <= b)%nat as Hmb.
    { clear -Hok. revert m Hok. induction ns as [|n ns IH]; intros m; simpl; [lia|].
      intros (m' & ? & _ & _ & H%IH). lia. }
    destruct (split_numa_node_spec mcs to n a m Hm Ht ltac:(lia)) as (parts & rs & Hs & Hok1).
    cbn [fold_outcome]. rewrite Hs. cbn [mbind outcome_bind].
    destruct (IH (to ++ rs) m b Hb Hok) as (rs2 & -> & H2). exists (rs ++ rs2).
    rewrite <- app_assoc. split; [done|]. eapply ranges_tile_app; [|exact H2]. by eapply split_ok_tile.
Qed.
End Cover.

(** What every pair of plans promises: both cover the processors, and the
    second has at least as many slices. *)
Record plans_ok (n : Z) (plans : SlicePlans) : Prop := {
  iso_cover : ranges_tile 0 n (IsolateSockets plans);
  heur_cover : ranges_tile 0 n (Heuristic plans);
  heur_most : (length (IsolateSockets plans) <= length (Heuristic plans))%nat;
}.

Lemma plan_package_ok l mcs plans p a m v : 0 < mcs -> (a < m <= length l)%nat ->
  cores_ok l a m (cores p) -> nodes_ok l a m (numa_domains p) -> uniform l package_id a m v ->
  plans_ok (Z.of_nat a) plans ->
  exists plans', plan_package l mcs plans p = Ret plans' /\ plans_ok (Z.of_nat m) plans'.
Proof.
  intros Hm Ham [Ht _] Hno _ [Hi Hh Hl]. unfold plan_package.
  assert (cores p <> []) as Hne by (intros E; rewrite E in Ht; simpl in Ht; lia).
  destruct (Nat.eqb_spec (length (cores p)) 0) as [E|_]; [by apply nil_length_inv in E|].
  unfold push_to. destruct (core_range_spec a m (cores p) Hne Ht) as [Hr _]. rewrite Hr. cbn [mbind outcome_bind].
  assert (ranges_tile 0 (Z.of_nat m) (IsolateSockets plans ++
    [{| starting_cpu := Z.of_nat a; cpu_count := Z.of_nat m - Z.of_nat a |}])) as Hi'.
  { eapply ranges_tile_app; [exact Hi|]. simpl. lia. }
  destruct (len (cores p) <=? mcs).
  - eexists. split; [done|]. by split.
  - destruct (split_nodes_spec l mcs (numa_domains p) Hm (Heuristic plans) a m ltac:(lia) Hno) as (rs & -> & Hrs).
    cbn [mbind outcome_bind]. eexists. split; [done|]. split; simpl; [done|by eapply ranges_tile_app|].
    assert (rs <> []) by (intros ->; simpl in Hrs; lia).
    rewrite !length_app. destruct rs; [done|]. simpl. lia.
Qed.

Lemma plan_packages_ok l mcs ps : 0 < mcs -> forall a plans,
  packages_ok l a (length l) ps -> plans_ok (Z.of_nat a) plans ->
  exists plans', fold_outcome (plan_package l mcs) ps plans = Ret plans' /\ plans_ok (len l) plans'.
Proof.
  intros Hm. induction ps as [|p ps IH]; intros a plans Hok Hp; simpl in Hok.
  - subst. by exists plans.
  - destruct Hok as (m & v & Ham & Hco & Hno & Hu & _ & Hok).
    pose proof (packages_ok_le _ _ _ _ Hok).
    destruct (plan_package_ok l mcs plans p a m v Hm ltac:(lia) Hco Hno Hu Hp) as (plans1 & Hp1 & Hok1).
    cbn [fold_outcome]. rewrite Hp1. by apply (IH m).
Qed.

Lemma dumb_slices_tile fuel : forall cpu ss max_cpu, 0 < ss -> cpu < max_cpu -> max_cpu - cpu < Z.of_nat fuel ->
  ranges_tile cpu max_cpu (dumb_slices fuel cpu ss max_cpu) /\
  Forall (fun r => cpu_count r <= ss) (dumb_slices fuel cpu ss max_cpu).
Proof.
  induction fuel as [|fuel IH]; intros cpu ss max_cpu Hs Hc Hf; [lia|]. simpl.
  destruct (Z.ltb_spec cpu (max_cpu - ss)).
  - destruct (IH (cpu + ss) ss max_cpu Hs ltac:(lia) ltac:(lia)) as [IH1 IH2].
    split; [simpl; split; [done|split; [lia|done]]|constructor; [simpl; lia|done]].
  - split; [simpl; lia|]. constructor; [simpl; lia|constructor].
Qed.

Lemma dumb_plan_ok n mcs : 0 < n -> 0 < mcs ->
  ranges_tile 0 n (dumb_plan n mcs) /\ Forall (fun r => cpu_count r <= mcs) (dumb_plan n mcs).
Proof.
  intros Hn Hm. unfold dumb_plan.
  assert (0 <= (n - 1) ÷ mcs) by (apply Z.quot_pos; lia).
  rewrite (Z.quot_div_nonneg (n - 1)) in * by lia. rewrite (Z.quot_div_nonneg n) by lia.
  set (k := (n - 1) / mcs + 1) in *.
  pose proof (Z_div_mod_eq_full (n - 1) mcs). pose proof (Z.mod_pos_bound (n - 1) mcs Hm).
  assert (k <= n) by (unfold k; nia). assert (n <= mcs * k) by (unfold k; lia).
  assert (0 < n / k) by (apply Z.div_str_pos; lia).
  assert (n / k <= mcs) by (apply Z.div_le_upper_bound; lia).
  destruct (dumb_slices_tile (S (Z.to_nat n)) 0 (n / k) n) as [Htile Hsize]; [lia..|].
  split; [done|]. eapply Forall_impl; [exact Hsize|]. simpl. lia.
Qed.

(** C9. Every plan covers the system: for every setting of the fork mode and
    of --max-cores-per-slice, slice_plan_init() returns, and the slices of both
    plans are consecutive, non-empty ranges from processor 0 to the last one, so
    that every processor is in exactly one slice of each plan. The heuristic
    plan, by which the shared memory is sized, never has fewer slices than the
    plan that isolates sockets. *)
Theorem slice_plans_cover (no_fork : bool) (l : list cpu_info) (ps : list Package) (mcs : Z) :
  l <> [] -> (ps = [] \/ packages_ok l 0 (length l) ps) ->
  exists plans, slice_plan_init no_fork l ps mcs = Ret plans /\ plans_ok (len l) plans.
Proof.
  intros Hne Hps. assert (0 < len l) as Hl by (destruct l; [done|unfold len; simpl; lia]).
  assert (plans_ok (len l) (set_to_full_system (len l))) as Hfull by (split; simpl; lia).
  assert (forall m, 0 < m -> plans_ok (len l) (fill_plans (dumb_plan (len l) m))) as Hdumb.
  { intros m Hm. destruct (dumb_plan_ok (len l) m Hl Hm). by split. }
  unfold slice_plan_init. destruct no_fork; simpl; [eauto|].
  destruct (Z.ltb_spec mcs 0); [eauto|].
  destruct ps as [|p ps]; cbn [isValid length Nat.eqb negb].
  { destruct (Z.eqb_spec mcs 0); [eauto|]. eexists. split; [done|]. apply Hdumb. lia. }
  destruct Hps as [?|Hok]; [done|].
  assert (plans_ok (Z.of_nat 0) {| IsolateSockets := []; Heuristic := [] |}) as H0 by by split.
  destruct (Z.eqb_spec mcs 0).
  - case_match; simpl; [|by apply (plan_packages_ok l _ (p :: ps)) with O].
    eexists. split; [done|]. by apply Hdumb.
  - apply (plan_packages_ok l _ (p :: ps)) with O; [lia|done|done].
Qed.

Lemma slice_plans_cover_witness :
  exists plans, slice_plan_init false sample [] 2 = Ret plans /\ plans_ok 5 plans.
Proof. apply (slice_plans_cover false sample [] 2); [done|by left]. Defined.

(** A NUMA node is cut between modules only: the cores of a node are
    divided into consecutive, non-empty slices, and the cores on the two sides
    of a cut belong to different modules. *)
Theorem node_slices_keep_modules (l : list cpu_info) (mcs : Z) (n : NumaNode) (a b : nat) :
  0 < mcs -> tiles a b (n_cores n) -> (b <= length l)%nat ->
  exists parts rs, split_numa_node l mcs [] n = Ret rs /\ concat parts = n_cores n /\
    Forall (fun p => p <> []) parts /\ cuts_ok l parts /\ Forall2 (fun p r => core_range p = Ret r) parts rs.
Proof.
  intros Hm Ht Hb. destruct (split_numa_node_spec l mcs [] n a b Hm Ht Hb) as (parts & rs & -> & []).
  by exists parts, rs.
Qed.

(** Four cores of two modules, one thread each. *)
Definition two_modules : list cpu_info :=
  [set_module_id 0 zero_cpu; set_module_id 0 zero_cpu; set_module_id 0 zero_cpu; set_module_id 1 zero_cpu].
Definition four_cores : NumaNode :=
  {| n_cores := [{| first := 0; last_ := 1 |}; {| first := 1; last_ := 2 |};
                 {| first := 2; last_ := 3 |}; {| first := 3; last_ := 4 |}] |}.

Lemma node_slices_keep_modules_witness :
  exists rs, split_numa_node two_modules 2 [] four_cores = Ret rs /\
    rs = [{| starting_cpu := 0; cpu_count := 3 |}; {| starting_cpu := 3; cpu_count := 1 |}].
Proof.
  destruct (node_slices_keep_modules two_modules 2 four_cores 0 4) as (parts & rs & Hr & _); [lia|simpl; lia|simpl; lia|].
  exists rs. split; [done|]. vm_compute in Hr. by simplify_eq.
Defined.

(** A package that is not split discards the splits of the packages before it:
    the second socket has one core and the first one is run in one slice. *)
Definition big_then_small : list cpu_info :=
  map (fun i => set_module_id i (sample_cpu 0 0 i 0)) (seqZ 0 4) ++ [sample_cpu 1 1 0 0].

Example small_package_discards_splits :
  (ps ← build_topology big_then_small; slice_plan_init false big_then_small ps 1) =
  Ret (fill_plans [{| starting_cpu := 0; cpu_count := 4 |}; {| starting_cpu := 4; cpu_count := 1 |}]) /\
  (ps ← build_topology (take 4 big_then_small); p ← slice_plan_init false (take 4 big_then_small) ps 1;
   Ret (len (Heuristic p))) = Ret 4.
Proof. split; vm_compute; reflexivity. Qed.

(** * Slices for a test *)

Lemma store_ranges_spec rs : forall i s, (i + length rs <= length (mains s))%nat ->
  exists s', fold_outcome store_range (imap (fun k r => (i + k, r)%nat) rs) s = Ret s' /\ tests s' = tests s /\
    length (mains s') = length (mains s) /\
    (forall k r, rs !! k = Some r -> cpu_range <$> mains s' !! (i + k)%nat = Some r) /\
    (forall k, (k < i)%nat -> mains s' !! k = mains s !! k).
Proof.
  induction rs as [|r rs IH]; intros i s Hi; simpl in *.
  - exists s. done.
  - destruct (lookup_lt_is_Some_2 (mains s) i) as [m Hm]; [lia|].
    set (s1 := {| mains := alter (set_cpu_range r) i (mains s); tests := tests s |}).
    assert (store_range s (i + 0, r)%nat = Ret s1) as Hst.
    { unfold store_range. cbn [fst snd]. by rewrite Nat.add_0_r, Hm. }
    change (store_range s _) with (store_range s (i + 0, r)%nat). rewrite Hst. cbn [mbind outcome_bind].
    destruct (IH (S i) s1) as (s' & Hs' & Ht & Hl & Hr & Hk); [subst s1; simpl; rewrite length_alter; lia|].
    exists s'. split; [|split; [done|split; [|split]]].
    + rewrite <- Hs'. f_equal. apply imap_ext. intros k x _. simpl. f_equal. lia.
    + rewrite Hl. subst s1. simpl. by rewrite length_alter.
    + intros [|k] r' Hk'; simpl in Hk'; [simplify_eq|].
      * rewrite Nat.add_0_r, Hk by lia. subst s1. simpl. by rewrite list_lookup_alter_eq, Hm.
      * replace (i + S k)%nat with (S i + k)%nat by lia. by apply Hr.
    + intros k Hki. rewrite Hk by lia. subst s1. simpl. by rewrite list_lookup_alter_ne by lia.
Qed.

(** The ranges the first [n] main threads have. *)
Definition assigned (n : Z) (s : Shm) : list CpuRange := map cpu_range (take (Z.to_nat n) (mains s)).

Lemma assigned_plan plan s' :
  (length plan <= length (mains s'))%nat ->
  (forall k r, plan !! k = Some r -> cpu_range <$> mains s' !! k = Some r) -> assigned (len plan) s' = plan.
Proof.
  intros Hl Hr. unfold assigned, len. rewrite Nat2Z.id. apply list_eq. intros k.
  rewrite list_lookup_fmap. destruct (plan !! k) as [r|] eqn:E.
  - rewrite lookup_take_lt by by eapply lookup_lt_Some. by apply Hr.
  - apply lookup_ge_None in E. rewrite lookup_take_ge by done. done.
Qed.

Lemma slices_for_test_ok (flags n : Z) (plans : SlicePlans) (s : Shm) :
  0 < n -> plans_ok n plans -> length (mains s) = length (Heuristic plans) ->
  exists count s', slices_for_test flags n plans s = Ret (count, s') /\
    0 < count <= len (mains s') /\ ranges_tile 0 n (assigned count s') /\ tests s' = tests s.
Proof.
  intros Hn [Hi Hh Hm] Hlen. unfold slices_for_test.
  assert (forall rs, ranges_tile 0 n rs -> (length rs <= length (mains s))%nat ->
    exists s', fold_outcome store_range (imap pair rs) s = Ret s' /\
      0 < len rs <= len (mains s') /\ ranges_tile 0 n (assigned (len rs) s') /\ tests s' = tests s) as Hplan.
  { intros rs Hrs Hle. destruct (store_ranges_spec rs 0 s ltac:(lia)) as (s' & Hs' & Ht & Hl & Hr & _).
    exists s'. split; [exact Hs'|]. rewrite (assigned_plan rs s') by (done || lia).
    split; [|done]. unfold len. destruct rs; simpl in *; lia. }
  destruct (slice_type_of flags).
  - destruct (Hplan [{| starting_cpu := 0; cpu_count := n |}]) as (s' & Hs & Hrest).
    + simpl. lia.
    + rewrite Hlen. destruct (Heuristic plans); simpl in *; lia.
    + exists 1, s'. split; [|exact Hrest]. simpl in Hs. destruct (store_range _ _); simpl in *; by simplify_eq.
  - destruct (Hplan (IsolateSockets plans)) as (s' & -> & Hrest); [done|lia|]. by eexists _, s'.
  - destruct (Hplan (Heuristic plans)) as (s' & -> & Hrest); [done|lia|]. by eexists _, s'.
Qed.

(** slices_for_test() hands every processor to exactly one child: with the
    shared memory sized for the heuristic plan, whatever the test's scheduling
    flags are it writes only to main threads that exist, and the ranges of the
    children it counts are consecutive and cover all processors. *)
Theorem slices_for_test_cover (flags n : Z) (plans : SlicePlans) (s : Shm) :
  0 < n -> plans_ok n plans -> length (mains s) = length (Heuristic plans) ->
  exists count s', slices_for_test flags n plans s = Ret (count, s') /\
    0 < count <= len (mains s') /\ ranges_tile 0 n (assigned count s') /\ tests s' = tests s.
Proof. apply slices_for_test_ok. Qed.

Lemma slices_for_test_cover_witness :
  exists count s', slices_for_test 6 5 (fill_plans (dumb_plan 5 2)) (idle_shm 5 5) = Ret (count, s') /\ count = 5.
Proof.
  destruct (slices_for_test_cover 6 5 (fill_plans (dumb_plan 5 2)) (idle_shm 5 5)) as (c & s' & Hs & _).
  - lia.
  - destruct (dumb_plan_ok 5 2) as [? _]; [lia..|]. by split.
  - by vm_compute.
  - exists c, s'. split; [done|]. vm_compute in Hs. by simplify_eq.
Defined.

(** * Shared memory *)

(** ROUND_UP_TO for a power of two and a value of an unsigned type of [w] bits. The
    complement is taken in the unsigned type of [n], which has [nw] bits, and then
    extended with zeros; 4096U is an unsigned int. *)
Definition ROUND_UP_TO (w nw value n : Z) : Z :=
  Z.land (wrap_u w (value + n - 1)) (wrap_u nw (Z.lnot (n - 1))).
Definition ROUND_UP_TO_PAGE (w value : Z) : Z := ROUND_UP_TO w 32 value 4096.

(** sizeof(PerThreadData::Main), sizeof(PerThreadData::Test) and sizeof(struct
    cpu_info), each 64 bytes. *)
Definition sizeof_Main : Z := 64.
Definition sizeof_Test : Z := 64.
Definition sizeof_cpu_info : Z := 64.

Section Layout.
(** sizeof(SandstoneApplication::SharedMemory) *)
Context (sizeof_SharedMemory : Z).

(** init_shmem(): where the per-thread data starts, an unsigned int. *)
Definition thread_data_offset (num_cpus : Z) : Z :=
  ROUND_UP_TO_PAGE 32 (u32 (sizeof_SharedMemory + sizeof_cpu_info * num_cpus)).

(** commit_shmem(): the size of the file. *)
Definition shmem_size (offset main_thread_count num_cpus : Z) : Z :=
  let size := u64 (sizeof_Main * main_thread_count) in
  let size := ROUND_UP_TO_PAGE 64 size in
  let size := u64 (size + sizeof_Test * num_cpus) in
  offset + ROUND_UP_TO_PAGE 64 size.

(** attach_shmem_internal(): the offsets of the two arrays. *)
Definition main_array_offset (offset : Z) : Z := offset.
Definition test_array_offset (offset main_thread_count : Z) : Z :=
  offset + ROUND_UP_TO_PAGE 64 (u64 (sizeof_Main * main_thread_count)).
End Layout.

Lemma round_up w nw k v : 0 <= k < nw -> nw <= w -> 0 <= v -> v + 2 ^ k - 1 < 2 ^ nw ->
  v <= ROUND_UP_TO w nw v (2 ^ k) < v + 2 ^ k /\ ROUND_UP_TO w nw v (2 ^ k) mod 2 ^ k = 0.
Proof.
  intros Hk Hw Hv Hb. unfold ROUND_UP_TO. assert (0 < 2 ^ k) as Hpos by lia. assert (2 ^ nw <= 2 ^ w) as Hpow by (apply Z.pow_le_mono_r; lia).
  rewrite (wrap_u_small w (v + 2 ^ k - 1)) by (unfold in_u; lia).
  set (x := v + 2 ^ k - 1) in *.
  assert (Z.land x (wrap_u nw (Z.lnot (2 ^ k - 1))) = x - x mod 2 ^ k) as ->.
  { rewrite <- land_lnot_ones by lia.
    unfold wrap_u. apply Z.bits_inj'. intros i Hi. rewrite !Z.land_spec, Z.testbit_mod_pow2 by lia.
    destruct (Z.ltb_spec i nw); simpl; [done|].
    rewrite andb_false_r. destruct (decide (x = 0)) as [E|E]; [by rewrite E, Z.bits_0|].
    rewrite (Z.bits_above_log2 x i); [done|lia|]. apply Z.log2_lt_pow2; [lia|].
    apply Z.lt_le_trans with (2 ^ nw); [lia|]. apply Z.pow_le_mono_r; lia. }
  pose proof (Z.mod_pos_bound x (2 ^ k) Hpos). split; [lia|].
  rewrite Zminus_mod_idemp_r, Z.sub_diag. done.
Qed.

Lemma round_up_page w v : 32 <= w -> 0 <= v -> v + 4095 < 2 ^ 32 ->
  v <= ROUND_UP_TO_PAGE w v < v + 4096 /\ ROUND_UP_TO_PAGE w v mod 4096 = 0.
Proof. intros Hw Hv Hb. apply (round_up w 32 12 v); lia. Qed.

(** The macro loses the upper half of a size_t. *)
Example round_up_page_large : ROUND_UP_TO_PAGE 64 (5 * 2 ^ 30 + 1) = 2 ^ 30 + 4096.
Proof. reflexivity. Qed.

(** The layout of the shared memory: for up to 2^20 processors and as many
    slices, no size wraps around; the processor table, the blocks of the main
    threads and those of the test threads lie in the file one after the other
    without overlap, and each array of blocks starts on a page of its own. *)
Theorem shmem_layout (hdr n m : Z) :
  0 < hdr < 2 ^ 16 -> 0 < n <= 2 ^ 20 -> 0 < m <= 2 ^ 20 ->
  let offset := thread_data_offset hdr n in
  let tests_at := test_array_offset offset m in
  hdr + sizeof_cpu_info * n <= main_array_offset offset /\
  main_array_offset offset + sizeof_Main * m <= tests_at /\
  tests_at + sizeof_Test * n <= shmem_size offset m n /\
  main_array_offset offset mod 4096 = 0 /\ tests_at mod 4096 = 0 /\ shmem_size offset m n mod 4096 = 0.
Proof.
  intros Hh Hn Hm. unfold main_array_offset, test_array_offset, shmem_size, thread_data_offset.
  unfold sizeof_cpu_info, sizeof_Main, sizeof_Test.
  rewrite (wrap_u_small 32), !(wrap_u_small 64 (64 * m)) by (unfold in_u; lia).
  destruct (round_up_page 32 (hdr + 64 * n)) as [Ho Hop]; [lia..|].
  destruct (round_up_page 64 (64 * m)) as [Hp Hpp]; [lia..|].
  set (o := ROUND_UP_TO_PAGE 32 (hdr + 64 * n)) in *. set (p := ROUND_UP_TO_PAGE 64 (64 * m)) in *.
  rewrite wrap_u_small by (unfold in_u; lia).
  destruct (round_up_page 64 (p + 64 * n)) as [Hq Hqp]; [lia..|].
  set (q := ROUND_UP_TO_PAGE 64 (p + 64 * n)) in *.
  simpl. rewrite !(Z.add_mod o), Hop, Hpp, Hqp by lia. repeat split; lia || done.
Qed.

Lemma shmem_layout_witness : test_array_offset (thread_data_offset 4000 96) 4 mod 4096 = 0.
Proof. apply (shmem_layout 4000 96 4); lia. Defined.
