(* ===== verification/Timing.v ===== *)
(** Durations, deadlines and the work of one test thread
    (src/framework/sandstone.cpp): how long a test runs, when its inner loop
    ends, the state a test thread leaves behind, the one-time initialisation of
    test groups and thermal throttling. *)

From S2P Require Import Prelude CStdlib Results ThreadData Logging.

(** * Durations *)

(** struct test, the fields the framework reads; durations are in
    milliseconds. *)
Record test := {
  id : str;
  groups : list nat;
  flags : Z;
  desired_duration : Z;
  fracture_loop_count : Z;
  minimum_duration : Z;
  maximum_duration : Z;
  quality_level : Z;
  minimum_cpu : Z;
  compiler_minimum_cpu : Z;
}.

Definition DefaultTestDuration : Z := 1000.

(** The global options that bear on time: -t, --max-test-time and
    --force-test-time. *)
Record TimeCfg := { test_time : Z; max_test_time : Z; force_test_time : bool }.

(** test_duration() without a test, for the log's header. *)
Definition test_duration_default (app : TimeCfg) : Z :=
  if 0 <? test_time app then test_time app else DefaultTestDuration.

(** test_duration(test_cfg); [cfg_duration] is the time of the test list. *)
Definition test_duration (app : TimeCfg) (t : test) (cfg_duration : Z) : Z :=
  let target := desired_duration t in
  let target := if negb (test_time app =? 0) then test_time app else target in
  let target := if negb (cfg_duration =? 0) then cfg_duration else target in
  let target := if target <=? 0 then DefaultTestDuration else target in
  if force_test_time app then target
  else
    let target := if negb (maximum_duration t =? 0) && (maximum_duration t <? target)
                  then maximum_duration t else target in
    if target <? minimum_duration t then minimum_duration t else target.

(** test_timeout(), in the int of ShortDuration. *)
Definition test_timeout (app : TimeCfg) (regular_duration : Z) : Z :=
  if negb (max_test_time app =? 0) then max_test_time app
  else
    let result := i32 (regular_duration * 5 + 30000) in
    if result <? 300000 then 300000 else result.

(** The time a test runs: the entry of the test list goes before -t, which
    goes before the test's own wish, and one second is the default. The result
    is positive; with --force-test-time it is that choice, otherwise it is
    clipped to the test's limits, the minimum winning over the maximum. *)
Theorem test_duration_spec (app : TimeCfg) (t : test) (cfg_duration : Z) :
  0 <= maximum_duration t ->
  let wish := if decide (cfg_duration <> 0) then cfg_duration
              else if decide (test_time app <> 0) then test_time app else desired_duration t in
  let wish := if decide (0 < wish) then wish else DefaultTestDuration in
  let r := test_duration app t cfg_duration in
  0 < r /\ (force_test_time app = true -> r = wish) /\
  (force_test_time app = false ->
     r = Z.max (minimum_duration t) (if decide (maximum_duration t = 0) then wish else Z.min wish (maximum_duration t))).
Proof.
  intros Hmax. cbv zeta. unfold test_duration.
  set (chain := if negb (cfg_duration =? 0) then _ else _).
  set (wish := if decide (cfg_duration <> 0) then _ else _).
  assert (chain = wish) as ->.
  { unfold chain, wish. destruct (Z.eqb_spec cfg_duration 0), (Z.eqb_spec (test_time app) 0); by repeat case_decide. }
  assert ((if wish <=? 0 then DefaultTestDuration else wish) = if decide (0 < wish) then wish else DefaultTestDuration) as ->.
  { destruct (Z.leb_spec wish 0); by case_decide; try lia. }
  set (w := if decide (0 < wish) then wish else DefaultTestDuration).
  assert (0 < w) as Hw by (unfold w, DefaultTestDuration; case_decide; lia). clearbody w. clear wish.
  destruct (force_test_time app).
  - split; [done|]. split; [done|]. done.
  - destruct (Z.eqb_spec (maximum_duration t) 0), (Z.ltb_spec (maximum_duration t) w); simpl;
      case_decide; try done; zcases; (split; [lia|split; [done|lia]]).
Qed.

Definition test0 : test :=
  {| id := L "sample"; groups := []; flags := 0; desired_duration := 0; fracture_loop_count := 0;
     minimum_duration := 0; maximum_duration := 2000; quality_level := 2; minimum_cpu := 0; compiler_minimum_cpu := 0 |}.

Lemma test_duration_spec_witness :
  test_duration {| test_time := 5000; max_test_time := 0; force_test_time := false |} test0 0 = 2000.
Proof.
  destruct (test_duration_spec {| test_time := 5000; max_test_time := 0; force_test_time := false |} test0 0)
    as (_ & _ & H); [by vm_compute|].
  rewrite H; by vm_compute.
Defined.

(** The timeout is no trap: without an explicit --max-test-time it is at
    least five minutes and at least five times the test's duration, for every
    duration up to four days. *)
Theorem test_timeout_generous (app : TimeCfg) (d : Z) :
  max_test_time app = 0 -> 0 <= d <= 4 * 24 * 3600 * 1000 ->
  300000 <= test_timeout app d /\ 5 * d + 30000 <= test_timeout app d.
Proof.
  intros Hm Hd. unfold test_timeout. rewrite Hm. simpl.
  rewrite wrap_s_small by (unfold in_s; lia). destruct (Z.ltb_spec (d * 5 + 30000) 300000); lia.
Qed.

Lemma test_timeout_generous_witness :
  300000 <= test_timeout {| test_time := 0; max_test_time := 0; force_test_time := false |} 60000.
Proof. apply test_timeout_generous; [done|lia]. Defined.

(** * The inner loop of a test *)

(** The values shared by all threads during a run. *)
Record RunCfg := {
  current_max_loop_count : Z;
  current_test_endtime : Z;
  use_strict_runtime : bool;
  endtime_ : Z;
}.

Definition calculate_wallclock_deadline (now duration : Z) : Z := now + duration.

Definition wallclock_deadline_has_expired (c : RunCfg) (now deadline : Z) : bool :=
  (deadline <? now) || (use_strict_runtime c && (endtime_ c <? now)).

Definition max_loop_count_exceeded (c : RunCfg) (t : test) (inner : Z) : bool :=
  (u32 (current_max_loop_count c) <=? u32 inner) || (desired_duration t =? -1).

(** test_time_condition(): the new count and whether to go on. *)
Definition test_time_condition (c : RunCfg) (t : test) (now inner : Z) : Z * bool :=
  let inner := u64 (inner + 1) in
  (inner, if max_loop_count_exceeded c t inner then false
          else negb (wallclock_deadline_has_expired c now (current_test_endtime c))).

(** A do-while loop over test_time_condition(); [clock] is what the clock
    reads at each call. The result is the number of calls, [None] when the
    fuel did not suffice. *)
Fixpoint test_loop (fuel : nat) (c : RunCfg) (t : test) (clock : nat -> Z) (inner : Z) : option Z :=
  match fuel with
  | O => None
  | S fuel =>
      let '(inner', go) := test_time_condition c t (clock O) inner in
      if go then test_loop fuel c t (fun n => clock (S n)) inner' else Some inner'
  end.

Lemma test_loop_step fuel c t clock inner :
  test_loop (S fuel) c t clock inner =
  if (test_time_condition c t (clock O) inner).2
  then test_loop fuel c t (fun n => clock (S n)) (test_time_condition c t (clock O) inner).1
  else Some (test_time_condition c t (clock O) inner).1.
Proof. simpl. by destruct (test_time_condition c t (clock O) inner). Qed.

Lemma test_loop_bound c t m fuel : forall clock inner,
  current_max_loop_count c = m -> 0 < m < 2 ^ 31 -> 0 <= inner < m -> m - inner <= Z.of_nat fuel ->
  exists n, test_loop fuel c t clock inner = Some n /\ inner < n <= m.
Proof.
  induction fuel as [|fuel IH]; intros clock inner Hm Hb Hi Hf; [lia|].
  rewrite test_loop_step. unfold test_time_condition. simpl.
  rewrite (wrap_u_small 64) by (unfold in_u; lia).
  destruct (max_loop_count_exceeded c t (inner + 1)) eqn:E; simpl; [exists (inner + 1); split; [done|lia]|].
  unfold max_loop_count_exceeded in E. apply orb_false_elim in E as [E _].
  rewrite Hm, !wrap_u_small in E by (unfold in_u; lia). apply Z.leb_gt in E.
  destruct (negb _); [|exists (inner + 1); split; [done|lia]].
  destruct (IH (fun n => clock (S n)) (inner + 1) Hm Hb ltac:(lia) ltac:(lia)) as (n & Hn & ?).
  exists n. split; [done|lia].
Qed.

(** A limit on the loop count ends every test: with a positive limit the
    inner loop stops after at most that many iterations, whatever the clock
    does, and a test that wants to run once stops after the first. *)
Theorem test_loop_terminates (c : RunCfg) (t : test) (clock : nat -> Z) :
  0 < current_max_loop_count c < 2 ^ 31 ->
  exists n, test_loop (Z.to_nat (current_max_loop_count c)) c t clock 0 = Some n /\
    1 <= n <= current_max_loop_count c /\ (desired_duration t = -1 -> n = 1).
Proof.
  intros Hm. destruct (test_loop_bound c t (current_max_loop_count c) (Z.to_nat (current_max_loop_count c)) clock 0)
    as (n & Hn & Hb); [done..|lia|lia|].
  exists n. split; [done|]. split; [lia|]. intros Hd.
  destruct (Z.to_nat (current_max_loop_count c)) as [|fuel] eqn:Ef; [lia|].
  rewrite test_loop_step in Hn. unfold test_time_condition, max_loop_count_exceeded in Hn.
  rewrite Hd, orb_true_r in Hn. simpl in Hn. by simplify_eq.
Qed.

Lemma test_loop_terminates_witness :
  exists n, test_loop 40 {| current_max_loop_count := 40; current_test_endtime := 1000;
    use_strict_runtime := false; endtime_ := 0 |} test0 (fun _ => 0) 0 = Some n /\ n <= 40.
Proof.
  destruct (test_loop_terminates {| current_max_loop_count := 40; current_test_endtime := 1000;
    use_strict_runtime := false; endtime_ := 0 |} test0 (fun _ => 0)) as (n & Hn & ? & _); [simpl; lia|].
  exists n. split; [done|]. cbn [current_max_loop_count] in *. lia.
Defined.

(** With the limit -1 the count ends a loop only at a multiple of 2^32. *)
Lemma no_loop_limit c t inner : current_max_loop_count c = -1 -> desired_duration t <> -1 ->
  max_loop_count_exceeded c t inner = (u32 inner =? UINT_MAX).
Proof.
  intros Hm Hd. unfold max_loop_count_exceeded. rewrite Hm.
  destruct (Z.eqb_spec (desired_duration t) (-1)); [done|]. rewrite orb_false_r.
  pose proof (wrap_u_range 32 ltac:(lia) inner) as Hr. unfold in_u in Hr. change (u32 (-1)) with UINT_MAX.
  unfold UINT_MAX in *. destruct (Z.leb_spec (2 ^ 32 - 1) (u32 inner)), (Z.eqb_spec (u32 inner) (2 ^ 32 - 1)); lia || done.
Qed.

(** * A test thread *)

(** How test_run() ends: it returns, throws a C++ exception with a message and
    a type, or reports a failure, which cancels the thread. *)
Inductive run_end := Returned (ret : Z) | Threw (what type : str) | Cancelled.

Definition dquote : ascii := char_of 34.

(** The status a process killed by the trap of ud2() has. *)
Definition EXIT_SIGILL : Z := 132.

(** The function run at the end of the scope: it stores the final state and
    records the failure. *)
Definition thread_cleanup (ud_on_failure : bool) (now thread ret : Z) (s : Shm) : outcome Shm :=
  d ← thread_data thread s;
  let new_state :=
    if negb (has_failed d) then
      if ret =? EXIT_SUCCESS then thread_succeeded
      else if ret <? EXIT_SUCCESS then thread_skipped else thread_failed
    else thread_failed in
  s ← update_thread thread (set_thread_state new_state) s;
  if decide (new_state = thread_failed) then
    if ud_on_failure then Exit EXIT_SIGILL else logging_mark_thread_failed now thread s
  else Ret s.

(** thread_runner() on the processor it is pinned to; [body] is the test's own
    function, which may change the shared memory. The second component says
    whether the thread goes on: a thread that was cancelled only runs the
    cleanup. The effective frequency is not modelled. *)
Definition thread_runner (cfg : LogCfg) (verbosity : Z) (ud_on_failure : bool) (now thread : Z)
    (body : Shm -> outcome (Shm * run_end)) (s : Shm) : outcome (Shm * bool) :=
  s ← update_thread thread (set_thread_state thread_running) s;
  r ← body s;
  let '(s, e) := r in
  match e with
  | Cancelled => s ← thread_cleanup ud_on_failure now thread EXIT_FAILURE s; Ret (s, false)
  | Returned _ | Threw _ _ =>
      s ← match e with
          | Threw what type =>
              log_message cfg now thread
                (L "E> Caught C++ exception: " ++ [dquote] ++ what ++ [dquote] ++ L " (type '" ++ type ++ L "')") s
          | _ => Ret s
          end;
      let ret := match e with Returned ret => ret | _ => EXIT_FAILURE end in
      s ← thread_cleanup ud_on_failure now thread ret s;
      s ← (if 3 <=? verbosity then
             count ← of_option (inner_loop_count <$> tests s !! Z.to_nat thread);
             log_message cfg now thread
               (L "I> inner loop count for thread " ++ to_string thread ++ L " = " ++ to_string count ++ [newline]) s
           else Ret s);
      Ret (s, true)
  end.

(** run_threads_sequentially(): one thread runs all of them; a cancelled one
    takes the others with it. *)
Fixpoint run_threads_sequentially (cfg : LogCfg) (verbosity : Z) (ud_on_failure : bool) (now : Z) (threads : list Z)
    (body : Z -> Shm -> outcome (Shm * run_end)) (s : Shm) : outcome Shm :=
  match threads with
  | [] => Ret s
  | i :: threads =>
      r ← thread_runner cfg verbosity ud_on_failure now i (body i) s;
      let '(s, go) := r in
      if go : bool then run_threads_sequentially cfg verbosity ud_on_failure now threads body s else Ret s
  end.

(** What a test thread leaves behind: unless it traps, its final state is
    "failed" exactly when it had recorded a failure or its function did not
    return zero or a negative number, and then a failure is recorded; it is
    "skipped" exactly for a negative return value without a failure. The other
    threads' blocks are untouched by the framework's part. *)
Theorem thread_cleanup_spec (now thread ret : Z) (s : Shm) (d : Common) :
  thread_data thread s = Ret d -> now < time_max ->
  exists s' d', thread_cleanup false now thread ret s = Ret s' /\ thread_data thread s' = Ret d' /\
    (thread_state d' = thread_failed <-> has_failed d = true \/ 0 < ret) /\
    (thread_state d' = thread_failed <-> has_failed d' = true) /\
    (thread_state d' = thread_skipped <-> has_failed d = false /\ ret < 0) /\
    (forall other, other <> thread -> thread_data other s' = thread_data other s).
Proof.
  intros Hd Hnow. unfold thread_cleanup. rewrite Hd. simpl.
  set (st := if negb (has_failed d) then _ else _).
  destruct (update_thread_ret thread (set_thread_state st) s d Hd) as (s1 & Hs1).
  pose proof (fun t => thread_data_update thread t _ _ _ Hs1) as Hu. rewrite Hs1. simpl.
  assert (st = thread_failed <-> has_failed d = true \/ 0 < ret) as Hst.
  { unfold st, EXIT_SUCCESS. destruct (has_failed d); simpl; [tauto|]. zcases; split; try done; lia || naive_solver. }
  assert (st = thread_skipped <-> has_failed d = false /\ ret < 0) as Hsk.
  { unfold st, EXIT_SUCCESS. destruct (has_failed d); simpl; [naive_solver|]. zcases; split; try done; lia || naive_solver lia. }
  assert (thread_data thread s1 = Ret (set_thread_state st d)) as Hd1 by by rewrite Hu, decide_True, Hd.
  assert (forall t, t <> thread -> thread_data t s1 = thread_data t s) as Ho by (intros; by rewrite Hu, decide_False).
  case_decide as Hf.
  - destruct (mark_failed_data now thread s1 _ Hd1) as (s' & Hs' & Hd' & Ho').
    exists s', (if has_failed d then set_thread_state st d else set_fail_time now (set_thread_state st d)).
    split; [done|]. split; [done|].
    assert (has_failed (if has_failed d then set_thread_state st d else set_fail_time now (set_thread_state st d)) = true) as ->.
    { destruct (has_failed d) eqn:E; [done|]. unfold has_failed. simpl. by apply Z.ltb_lt. }
    replace (thread_state (if has_failed d then _ else _)) with st by by destruct (has_failed d).
    split; [done|]. split; [done|]. split; [done|]. intros t Ht. by rewrite Ho', Ho.
  - exists s1, (set_thread_state st d). split; [done|]. split; [done|]. split; [done|].
    split; [|split; done]. simpl. change (has_failed (set_thread_state st d)) with (has_failed d). tauto.
Qed.

Lemma thread_cleanup_spec_witness :
  exists s' d', thread_cleanup false 7 1 3 (idle_shm 1 2) = Ret s' /\ thread_data 1 s' = Ret d' /\ has_failed d' = true.
Proof.
  destruct (thread_cleanup_spec 7 1 3 (idle_shm 1 2) idle_common) as (s' & d' & Hs & Hd & Hf & Hh & _);
    [by vm_compute|by vm_compute|].
  exists s', d'. split; [done|]. split; [done|]. apply Hh, Hf. right. lia.
Defined.

(** * Test groups *)

Section Groups.
(** What the group_init function of each group returns when it is called:
    nothing, or a replacement for the test's own init function, here its
    number; [None] for a group without such a function. *)
Context (group_inits : list (option (option Z))).

(** The static vector of apply_group_inits(): whether the function is still
    to be called, and the replacement. [calls] is the history of calls. *)
Record group_state := { pending : list bool; replacement : list (option Z); calls : list nat }.

Definition group_state0 : group_state :=
  {| pending := map (fun g => bool_decide (g <> None)) group_inits;
     replacement := replicate (length group_inits) None; calls := [] |}.

(** The body of the inner loop for the group [i] of the test. *)
Definition visit_group (i : nat) (st : group_state) : group_state :=
  match pending st !! i, replacement st !! i with
  | Some true, Some None =>
      {| pending := <[i := false]> (pending st);
         replacement := <[i := mjoin (mjoin (group_inits !! i))]> (replacement st);
         calls := calls st ++ [i] |}
  | _, _ => st
  end.

(** apply_group_inits(): the init function the test gets instead of its own,
    if any. *)
Fixpoint apply_group_inits (gs : list nat) (st : group_state) : group_state * option Z :=
  match gs with
  | [] => (st, None)
  | i :: gs =>
      let st := visit_group i st in
      match mjoin (replacement st !! i) with
      | Some f => (st, Some f)
      | None => apply_group_inits gs st
      end
  end.

(** Preparing one test after the other. *)
Definition apply_all (tests : list (list nat)) (st : group_state) : group_state :=
  foldl (fun st gs => (apply_group_inits gs st).1) st tests.

(** A function was called exactly if it is not pending any more. *)
Definition group_inv (st : group_state) : Prop :=
  NoDup (calls st) /\ forall i, i ∈ calls st -> pending st !! i = Some false.

Lemma visit_group_inv i st : group_inv st -> group_inv (visit_group i st).
Proof using Type.
  intros [Hn Hc]. unfold visit_group.
  destruct (pending st !! i) as [[|]|] eqn:Ep; [|done|done]. destruct (replacement st !! i) as [[|]|]; [done| |done].
  split; simpl.
  - apply NoDup_app. split; [done|]. split; [|apply NoDup_singleton].
    intros x Hx Hxi. apply list_elem_of_singleton in Hxi. subst. apply Hc in Hx. congruence.
  - intros j Hj. apply elem_of_app in Hj as [Hj|Hj]; [|apply list_elem_of_singleton in Hj; subst].
    + destruct (decide (j = i)) as [->|]; [apply Hc in Hj; congruence|].
      rewrite list_lookup_insert_ne by done. auto.
    + apply list_lookup_insert_eq. by eapply lookup_lt_Some.
Qed.

Lemma apply_group_inits_inv gs : forall st, group_inv st -> group_inv (apply_group_inits gs st).1.
Proof using Type.
  induction gs as [|i gs IH]; intros st Hst; simpl; [done|].
  case_match; [by apply visit_group_inv|]. by apply IH, visit_group_inv.
Qed.

(** However many tests share a group, the group's init function is
    called at most once. *)
Theorem group_init_once (tests : list (list nat)) : NoDup (calls (apply_all tests group_state0)).
Proof using Type.
  assert (group_inv (apply_all tests group_state0)) as [? _]; [|done].
  assert (group_inv group_state0) as H0 by (split; [constructor|]; intros i Hi; by apply not_elem_of_nil in Hi).
  unfold apply_all. revert H0. generalize group_state0.
  induction tests as [|gs tests IH]; intros st Hst; simpl; [done|]. by apply IH, apply_group_inits_inv.
Qed.
End Groups.

(** * Thermal throttling *)

Definition throttle_ms : Z := 100.

(** print_temperature_and_throttle(): [temps] gives the temperatures of the
    sockets at each reading. The result is the remaining throttle time and the
    number of pauses; [None] when the fuel did not suffice. *)
Definition highest (temps : list Z) : outcome Z :=
  match temps with [] => Ub | t :: ts => Ret (foldl Z.max t ts) end.

Fixpoint throttle_loop (fuel : nat) (threshold : Z) (temps : nat -> list Z) (remaining : Z) (pauses : nat)
  : outcome (Z * nat) :=
  h ← highest (temps pauses);
  if (threshold <? h) && (0 <? remaining) then
    match fuel with
    | O => Ub
    | S fuel => throttle_loop fuel threshold temps (remaining - throttle_ms) (S pauses)
    end
  else Ret (remaining, pauses).

Definition print_temperature_and_throttle (threshold : Z) (temps : nat -> list Z) (remaining : Z) : outcome (Z * nat) :=
  if threshold <? 0 then Ret (remaining, O)
  else if (length (temps O) =? 0)%nat then Ret (remaining, O)
  else throttle_loop (Z.to_nat (remaining / throttle_ms + 1)) threshold temps remaining 0.

Lemma throttle_loop_spec threshold temps fuel : forall remaining pauses,
  (forall n, temps n <> []) -> remaining <= throttle_ms * Z.of_nat fuel ->
  exists r p, throttle_loop fuel threshold temps remaining pauses = Ret (r, p) /\
    (pauses <= p)%nat /\ r = remaining - throttle_ms * Z.of_nat (p - pauses) /\
    (p = pauses \/ - throttle_ms < r).
Proof.
  unfold throttle_ms. induction fuel as [|fuel IH]; intros remaining pauses Hne Hf; cbn [throttle_loop].
  all: destruct (temps pauses) as [|t ts] eqn:E; [by apply Hne in E|]; cbn [highest mbind outcome_bind].
  all: destruct ((threshold <? foldl Z.max t ts) && (0 <? remaining)) eqn:Eg;
    [|exists remaining, pauses; rewrite Nat.sub_diag; repeat split; try lia; by left].
  all: apply andb_prop in Eg as [_ Hr%Z.ltb_lt].
  - lia.
  - destruct (IH (remaining - 100) (S pauses) Hne ltac:(lia)) as (r & p & Hl & Hp & Hr' & Hb).
    unfold throttle_ms. rewrite Hl. exists r, p. split; [done|]. repeat split; [lia|lia|]. right.
    destruct Hb as [->|Hb]; [|done]. rewrite Nat.sub_diag in Hr'. lia.
Qed.

(** Throttling is bounded: when temperatures can be read, the wait ends,
    it takes the pauses off the remaining throttle time, and over the whole run
    that time is never exceeded by a full pause. *)
Theorem throttle_bounded (threshold : Z) (temps : nat -> list Z) (remaining : Z) :
  (forall n, temps n <> []) -> 0 <= remaining ->
  exists r p, print_temperature_and_throttle threshold temps remaining = Ret (r, p) /\
    r = remaining - throttle_ms * Z.of_nat p /\ - throttle_ms < r.
Proof.
  intros Hne Hr. unfold print_temperature_and_throttle. destruct (Z.ltb_spec threshold 0).
  { exists remaining, O. unfold throttle_ms. repeat split; lia. }
  destruct (Nat.eqb_spec (length (temps O)) 0) as [E|E]; [apply nil_length_inv in E; by apply Hne in E|].
  destruct (throttle_loop_spec threshold temps (Z.to_nat (remaining / throttle_ms + 1)) remaining 0 Hne)
    as (r & p & Hl & _ & Hrp & Hb).
  - unfold throttle_ms. pose proof (Z_div_mod_eq_full remaining 100). pose proof (Z.mod_pos_bound remaining 100).
    assert (0 <= remaining / 100) by (apply Z.div_pos; lia). lia.
  - exists r, p. split; [done|]. rewrite Nat.sub_0_r in Hrp. split; [done|]. unfold throttle_ms in *.
    destruct Hb as [->|]; lia.
Qed.

Lemma throttle_bounded_witness :
  exists r p, print_temperature_and_throttle 80000 (fun _ => [50000; 90000]) 250 = Ret (r, p) /\ p = 3%nat.
Proof.
  destruct (throttle_bounded 80000 (fun _ => [50000; 90000]) 250) as (r & p & Hp & _); [done|lia|].
  exists r, p. split; [done|]. vm_compute in Hp. by simplify_eq.
Defined.
