(* ===== verification/Runner.v ===== *)
(** Running the tests (src/framework/sandstone.cpp): one run of a test inside a
    child (child_run()), the verdict of one run (run_one_test_once()), the
    fractures and retries of a test (run_one_test()), the analysis of its
    failures and the loop over the tests with the program's exit status
    (main()). *)

From S2P Require Import Prelude CStdlib Results ThreadData Logging CpuInfo Topology Timing.

Definition EXIT_SKIP : Z := -255.

(** enum SkipCategory, the values used here. *)
Definition CpuNotSupportedSkipCategory : Z := 1.
Definition TestResourceIssueSkipCategory : Z := 3.
Definition RuntimeSkipCategory : Z := 10.

(** * One run in a child *)

Section Child.
Context (cfg : LogCfg) (now : Z).
(** strerror() *)
Context (strerror : Z -> str).

Definition log_skip (category : Z) (text : str) (s : Shm) : outcome Shm :=
  log_message_skip cfg (-1) category text s.
Definition log_error (text : str) (s : Shm) : outcome Shm := log_message cfg now (-1) (L "E> " ++ text) s.

(** child_run() after the process is set up. [test_init] and [test_cleanup]
    are the test's functions, with the shared memory they leave and the value
    they return; [run_threads] runs all test threads; [strict_expired] says
    whether the strict end time has passed when the threads are done. *)
Definition child_run (test_init : option (Shm -> outcome (Shm * Z))) (run_threads : Shm -> outcome Shm)
    (test_cleanup : option (Shm -> outcome (Shm * Z))) (strict_expired : bool) (s : Shm)
  : outcome (TestResult * Shm) :=
  let s := init_per_thread_data s in
  r ← match test_init with Some f => f s | None => Ret (s, 0) end;
  let '(s, ret) := r in
  main ← thread_data (-1) s;
  if (0 <? ret) || has_failed main then
    s ← logging_mark_thread_failed now (-1) s;
    s ← (if 0 <? ret then log_error (L "Init function failed with code " ++ to_string ret) s else Ret s);
    Ret (Failed, s)
  else if ret <? 0 then
    s ← (if negb (ret =? EXIT_SKIP)
         then log_skip RuntimeSkipCategory (L "Unexpected OS error: " ++ strerror (- ret)) s else Ret s);
    Ret (Skipped, s)
  else
    s ← run_threads s;
    if strict_expired then Ret (Passed, s)
    else match test_cleanup with
    | None => Ret (Passed, s)
    | Some f =>
        r ← f s;
        let '(s, ret) := r in
        if ret =? EXIT_SKIP then
          s ← log_skip RuntimeSkipCategory (L "SKIP requested in cleanup") s; Ret (Skipped, s)
        else if ret <? EXIT_SUCCESS then
          s ← log_skip RuntimeSkipCategory (L "Unexpected OS error in cleanup: " ++ strerror (- ret)) s; Ret (Skipped, s)
        else if EXIT_SUCCESS <? ret then Ret (Failed, s)
        else Ret (Passed, s)
    end.
End Child.

(** * The verdict of one run *)

(** The application's settings that the runner reads. *)
Record AppCfg := {
  log_cfg : LogCfg;
  cpu_features : Z;
  compilerCpuFeatures : Z;
  requested_quality : Z;
  ignore_os_errors : bool;
  max_test_loop_count : Z;
  retest_count : Z;
  test_tests_enabled : bool;
}.

Definition TEST_QUALITY_BETA : Z := 0.

(** What happens in the children of one run: what they report, the shared
    memory when they are done, and what the clock reads at the start, after the
    results are printed and after the cleanup, in nanoseconds. *)
Record Run := {
  r_results : list ChildExitStatus;
  r_shm : Shm;
  r_start : Z;
  r_end : Z;
  r_later : Z;
}.

Section Once.
Context (app : AppCfg).
(** cpu_features_to_string() *)
Context (features_string : Z -> str).

(** run_one_test_once(): _exit() ends the program. *)
Definition run_one_test_once (t : test) (run : Run) : outcome (TestResult * Shm) :=
  let missing := Z.land (Z.lor (minimum_cpu t) (compiler_minimum_cpu t)) (Z.lnot (cpu_features app)) in
  rs ← (if negb (missing =? 0) then
          let missing := Z.land missing (Z.lnot (compilerCpuFeatures app)) in
          s ← log_message_skip (log_cfg app) (-1) CpuNotSupportedSkipCategory
                (L "test requires " ++ features_string missing ++ [char_of 10]) (init_per_thread_data (r_shm run));
          Ret ([exit_status_of Skipped], s)
        else if (quality_level t =? TEST_QUALITY_BETA) && (quality_level t <? requested_quality app) then
          s ← log_message_skip (log_cfg app) (-1) TestResourceIssueSkipCategory
                (L "Test " ++ id t ++ L " is in BETA quality, try again using --beta option")
                (init_per_thread_data (r_shm run));
          Ret ([exit_status_of Skipped], s)
        else Ret (r_results run, r_shm run));
  let '(results, s) := rs in
  r ← logging_print_results (log_cfg app) (r_end run) results s;
  let '(testResult, s) := r in
  match testResult with
  | Passed | Skipped | Failed | CoreDumped | Killed => Ret (testResult, s)
  | OperatingSystemError | TimedOut | OutOfMemory =>
      if negb (ignore_os_errors app) then Exit EXIT_INVALID else Ret (Skipped, s)
  | Interrupted => Ub
  end.
End Once.

(** * Fractures and retries of one test *)

Definition MaxRetestCount : Z := 128.

(** The state of run_one_test(): the loop limit in the shared memory, the
    budget of retries, the iteration number, the failure pattern of each
    processor (128 bits), the failures so far and the number of runs so far. *)
Record TestSt := {
  max_loop_count : Z;
  total_retest_count : Z;
  current_iteration_count : Z;
  per_cpu_fails : list Z;
  fail_count : Z;
  runs : nat;
}.

Definition set_max_loop (v : Z) (s : TestSt) : TestSt :=
  {| max_loop_count := v; total_retest_count := total_retest_count s;
     current_iteration_count := current_iteration_count s; per_cpu_fails := per_cpu_fails s;
     fail_count := fail_count s; runs := runs s |}.
Definition next_run (iteration total : Z) (s : TestSt) : TestSt :=
  {| max_loop_count := max_loop_count s; total_retest_count := total;
     current_iteration_count := iteration; per_cpu_fails := per_cpu_fails s;
     fail_count := fail_count s; runs := S (runs s) |}.

(** The lambda passed to for_each_test_thread() in mark_up_per_cpu_fail: its
    parameter [i], the processor, hides the attempt's number. *)
Definition mark_thread (fails : list Z) (d : Common * Z) : outcome (list Z) :=
  if has_failed d.1 then
    _ ← assertion (d.2 <? MaxRetestCount);
    v ← at_ fails d.2;
    Ret (<[Z.to_nat d.2 := Z.lor v (2 ^ d.2)]> fails)
  else Ret fails.

Definition mark_up_per_cpu_fail (attempt : Z) (shm : Shm) (s : TestSt) : outcome TestSt :=
  fails ← (if MaxRetestCount <=? attempt then Ret (per_cpu_fails s)
           else fold_outcome mark_thread (test_threads shm) (per_cpu_fails s));
  Ret {| max_loop_count := max_loop_count s; total_retest_count := total_retest_count s;
         current_iteration_count := current_iteration_count s; per_cpu_fails := fails;
         fail_count := fail_count s + 1; runs := runs s |}.

Section Test.
Context (app : AppCfg) (features_string : Z -> str) (t : test).
(** sApp->current_test_duration, in milliseconds, less the idle time that is
    injected. *)
Context (duration : Z).
(** The runs, in their order. *)
Context (env : nat -> Run).

Definition once (s : TestSt) : outcome (TestResult * Shm) :=
  run_one_test_once app features_string t (env (runs s)).

(** The loop limit a test starts with, and whether it fractures
    automatically. *)
Definition initial_loop_count : Z * bool :=
  if negb (max_test_loop_count app =? 0) then (max_test_loop_count app, false)
  else if desired_duration t =? -1 then (-1, false)
  else if test_tests_enabled app then (-1, false)
  else if fracture_loop_count t =? 0 then (40, true)
  else (fracture_loop_count t, false).

(** The first loop. [inl] is "goto out" with the state, [inr] the break
    after the first failure. *)
Fixpoint fracture_loop (fuel : nat) (auto : bool) (first_target runtime : Z) (s : TestSt)
  : outcome (TestResult * TestSt + TestSt) :=
  match fuel with
  | O => Ub
  | S fuel =>
      let run := env (runs s) in
      r ← once s;
      let '(state, shm) := r in
      let runtime := runtime + (r_end run - r_start run) in
      s ← (if (0 <? max_loop_count s) && (r_later run <? first_target) && auto
           then _ ← assertion (2 * max_loop_count s <=? INT_MAX);
                Ret (set_max_loop (2 * max_loop_count s) s)
           else Ret s);
      match state with
      | Skipped => Ret (inl (state, s))
      | Passed =>
          if (max_loop_count s <=? 0) || negb (max_test_loop_count app =? 0) || (duration * 1000000 <=? runtime)
          then Ret (inl (state, s))
          else fracture_loop fuel auto first_target runtime
                 (next_run (current_iteration_count s + 1) (total_retest_count s) s)
      | _ => s ← mark_up_per_cpu_fail 0 shm s; Ret (inr s)
      end
  end.

Definition should_retry_test (iterations : Z) (s : TestSt) : bool :=
  if total_retest_count s =? 0 then false
  else if fail_count s =? 1 then iterations <=? 2 * retest_count app
  else iterations <=? retest_count app.

(** The second loop; the result has the number of attempts, the first
    included. *)
Fixpoint retry_loop (fuel : nat) (iterations : Z) (s : TestSt) : outcome (TestSt * Z) :=
  if should_retry_test iterations s then
    match fuel with
    | O => Ub
    | S fuel =>
        let total := if 0 <? total_retest_count s then total_retest_count s - 1 else total_retest_count s in
        let s := next_run (- iterations) total s in
        r ← once s;
        let '(state, shm) := r in
        s ← (if result_ltb Passed state then mark_up_per_cpu_fail iterations shm s else Ret s);
        retry_loop fuel (iterations + 1) s
    end
  else Ret (s, iterations).

(** run_one_test(): [now] is the time at its start; twice the retest count
    is enough fuel for the retries. analyze_test_failures(), which it calls
    before it returns a failure, only prints and is modelled below. *)
Definition run_one_test (fuel : nat) (now num_cpus total : Z) : outcome (TestResult * TestSt) :=
  let '(loops, auto) := initial_loop_count in
  let s := {| max_loop_count := loops; total_retest_count := total; current_iteration_count := 0;
              per_cpu_fails := replicate (Z.to_nat num_cpus) 0; fail_count := 0; runs := O |} in
  _ ← assertion (0 <=? retest_count app);
  r ← fracture_loop fuel auto (now + 10000000) 0 s;
  match r with
  | inl out => Ret out
  | inr s =>
      let s := if (0 <? max_loop_count s) && negb (max_loop_count s =? max_test_loop_count app)
               then set_max_loop (-1) s else s in
      r ← retry_loop (Z.to_nat (2 * retest_count app)) 1 s;
      Ret (Failed, r.1)
  end.
End Test.

(** * The verdict of a test *)

Section Verdict.
Context (app : AppCfg) (features_string : Z -> str) (t : test) (duration : Z) (env : nat -> Run).

(** What run [k] of the test reports. *)
Definition verdict (k : nat) : outcome TestResult :=
  r ← run_one_test_once app features_string t (env k); Ret r.1.

Definition all_passed (a b : nat) : Prop := forall k, (a <= k < b)%nat -> verdict k = Ret Passed.

(** A run that is neither a pass nor a skip. *)
Definition bad_run (k : nat) : Prop := exists r, verdict k = Ret r /\ r <> Passed /\ r <> Skipped.

Lemma mark_up_fields attempt shm s s' : mark_up_per_cpu_fail attempt shm s = Ret s' ->
  fail_count s' = fail_count s + 1 /\ runs s' = runs s /\ total_retest_count s' = total_retest_count s.
Proof using Type. unfold mark_up_per_cpu_fail. intros H. inv_ret. done. Qed.

Lemma once_verdict s r shm : once app features_string t env s = Ret (r, shm) -> verdict (runs s) = Ret r.
Proof using Type. unfold once, verdict. by intros ->. Qed.

Lemma all_passed_cons a b : verdict a = Ret Passed -> all_passed (S a) b -> all_passed a b.
Proof using Type.
  intros Ha Hb k Hk. destruct (decide (k = a)) as [->|]; [done|]. apply Hb. lia.
Qed.

Lemma fracture_loop_spec auto first_target fuel : forall runtime s res,
  fracture_loop app features_string t duration env fuel auto first_target runtime s = Ret res ->
  match res with
  | inl (r, s') => all_passed (runs s) (runs s') /\ verdict (runs s') = Ret r /\
                   (r = Passed \/ r = Skipped) /\ fail_count s' = fail_count s
  | inr s' => all_passed (runs s) (runs s') /\ bad_run (runs s') /\ fail_count s' = fail_count s + 1
  end.
Proof using Type.
  induction fuel as [|fuel IH]; intros runtime s res H; [done|]. cbn [fracture_loop] in H.
  apply outcome_bind_ret in H as ([r shm] & Ho & H). pose proof (once_verdict _ _ _ Ho) as Hv.
  apply outcome_bind_ret in H as (s1 & Hs1 & H).
  assert (runs s1 = runs s /\ fail_count s1 = fail_count s) as [Hruns Hfail].
  { destruct (_ && auto); [|by simplify_eq]. by inv_ret. }
  assert (all_passed (runs s) (runs s)) as Hnone by (intros k ?; lia).
  destruct r; try (apply outcome_bind_ret in H as (s2 & Hm & H); simplify_eq;
    apply mark_up_fields in Hm as (-> & -> & _); rewrite Hruns, Hfail; split; [done|];
    split; [eexists; split; [exact Hv|done]|done]).
  - simplify_eq. rewrite Hruns, Hfail. auto.
  - destruct (_ || _) in H.
    + simplify_eq. rewrite Hruns, Hfail. auto.
    + apply IH in H. simpl in H. rewrite Hruns, Hfail in H.
      destruct res as [[r' s']|s']; destruct H as (Ha & H); split; try done; by apply all_passed_cons.
Qed.

Lemma retry_loop_fails fuel : forall iterations s s' n,
  retry_loop app features_string t env fuel iterations s = Ret (s', n) ->
  fail_count s <= fail_count s' /\ (runs s <= runs s')%nat.
Proof using Type.
  induction fuel as [|fuel IH]; intros iterations s s' n H; cbn [retry_loop] in H;
    (destruct (should_retry_test app iterations s); [|simplify_eq; lia]); [done|].
  apply outcome_bind_ret in H as ([r shm] & _ & H).
  apply outcome_bind_ret in H as (s1 & Hs1 & H). apply IH in H.
  destruct (result_ltb Passed r); [apply mark_up_fields in Hs1 as (? & ? & _)|]; simplify_eq; simpl in *; lia.
Qed.

(** C2. The verdict on a test: run_one_test() reports a pass only if every
    fracture passed, a skip only if the fractures before it passed and one was
    skipped, and otherwise "failed", in which case some run did fail. No
    number of successful retries turns a failed test into a passed one, and a
    pass or skip leaves no failure counted. *)
Theorem run_one_test_verdict (fuel : nat) (now n total : Z) (r : TestResult) (s : TestSt) :
  run_one_test app features_string t duration env fuel now n total = Ret (r, s) ->
  (r = Passed /\ all_passed 0 (S (runs s)) /\ fail_count s = 0) \/
  (r = Skipped /\ all_passed 0 (runs s) /\ verdict (runs s) = Ret Skipped /\ fail_count s = 0) \/
  (r = Failed /\ 0 < fail_count s /\ exists k, (k <= runs s)%nat /\ all_passed 0 k /\ bad_run k).
Proof using Type.
  unfold run_one_test. destruct (initial_loop_count app t) as [loops auto]. intros H.
  apply outcome_bind_ret in H as (_ & _ & H). apply outcome_bind_ret in H as (res & Hf & H).
  apply fracture_loop_spec in Hf. simpl in Hf. destruct res as [[r' s']|s1].
  - simplify_eq. destruct Hf as (Ha & Hv & [-> | ->] & Hc); [left|right; left; auto].
    split; [done|]. split; [|done]. intros k Hk.
    destruct (decide (k = runs s)) as [->|]; [done|]. apply Ha. lia.
  - destruct Hf as (Ha & Hb & Hc). apply outcome_bind_ret in H as ([s2 m] & Hr & H). simplify_eq.
    apply retry_loop_fails in Hr. right. right. split; [done|]. simpl.
    assert (forall b : bool, fail_count (if b then set_max_loop (-1) s1 else s1) = fail_count s1 /\
      runs (if b then set_max_loop (-1) s1 else s1) = runs s1) as Hset by by intros [].
    rewrite !(proj1 (Hset _)), !(proj2 (Hset _)) in Hr. split; [lia|]. exists (runs s1). split; [lia|done].
Qed.
End Verdict.

Definition app0 : AppCfg :=
  {| log_cfg := cfg0; cpu_features := 0; compilerCpuFeatures := 0; requested_quality := 2;
     ignore_os_errors := false; max_test_loop_count := 0; retest_count := 2; test_tests_enabled := false |}.

(** A run in which every child reports [r]; the fail times are those of [s]. *)
Definition run_of (r : TestResult) (s : Shm) (start end_ : Z) : Run :=
  {| r_results := [exit_status_of r]; r_shm := s; r_start := start; r_end := end_; r_later := end_ |}.

Definition failed_shm : Shm :=
  {| mains := mains (idle_shm 1 2); tests := map (set_t_common (set_fail_time 5)) (tests (idle_shm 1 2)) |}.

(** The first run fails, all later ones pass. *)
Definition fail_once (k : nat) : Run :=
  if (k =? 0)%nat then run_of Failed failed_shm 0 20000000 else run_of Passed (idle_shm 1 2) 0 20000000.

Lemma run_one_test_verdict_witness :
  exists s, run_one_test app0 (fun _ => []) test0 1000 fail_once 3 0 2 (-1) = Ret (Failed, s) /\
    0 < fail_count s /\ runs s = 4%nat.
Proof.
  destruct (run_one_test app0 (fun _ => []) test0 1000 fail_once 3 0 2 (-1)) as [[r s]|e|] eqn:E;
    [|by vm_compute in E..].
  destruct (run_one_test_verdict app0 (fun _ => []) test0 1000 fail_once 3 0 2 (-1) r s E) as [H|[H|H]].
  - destruct H as (_ & H & _). specialize (H O ltac:(lia)). by vm_compute in H.
  - destruct H as (_ & _ & H & _). exfalso. vm_compute in E. simplify_eq; by vm_compute in H.
  - destruct H as (-> & Hf & _). exists s. split; [done|]. split; [done|]. vm_compute in E. by simplify_eq.
Defined.

(** * The number of retries *)

Section Retries.
Context (app : AppCfg) (features_string : Z -> str) (t : test) (env : nat -> Run).
Context (n : nat) (Hn : Z.of_nat n <= MaxRetestCount).

(** Every run reports a verdict that lets the program go on, over [n] test
    threads. *)
Context (Hruns : forall k, exists r shm,
  run_one_test_once app features_string t (env k) = Ret (r, shm) /\ length (tests shm) = n).

Lemma mark_threads_ret ds : forall fails, length fails = n -> Forall (fun d => 0 <= d.2 < Z.of_nat n) ds ->
  exists fails', fold_outcome mark_thread ds fails = Ret fails' /\ length fails' = n.
Proof using Hn.
  clear Hruns. induction ds as [|d ds IH]; intros fails Hl Hd; [by exists fails|].
  apply Forall_cons in Hd as [Hd Hds].
  assert (exists fails1, mark_thread fails d = Ret fails1 /\ length fails1 = n) as (fails1 & H1 & Hl1).
  { unfold mark_thread. destruct (has_failed d.1); [|by exists fails].
    destruct (Z.ltb_spec d.2 MaxRetestCount); [|lia]. cbn [assertion mbind outcome_bind].
    destruct (at_ret fails d.2) as (v & -> & _); [unfold len; lia|]. eexists. split; [done|].
    by rewrite length_insert. }
  cbn [fold_outcome]. rewrite H1. by apply IH.
Qed.

Lemma test_threads_range shm : Forall (fun d => 0 <= d.2 < len (tests shm)) (test_threads shm).
Proof using Type.
  clear. apply Forall_lookup. intros i d. unfold test_threads. rewrite list_lookup_imap.
  destruct (tests shm !! i) eqn:E; simpl; [|done]. intros. simplify_eq. simpl.
  apply lookup_lt_Some in E. unfold len. lia.
Qed.

Lemma mark_up_ret attempt shm s : length (tests shm) = n -> length (per_cpu_fails s) = n ->
  exists s', mark_up_per_cpu_fail attempt shm s = Ret s' /\ length (per_cpu_fails s') = n.
Proof using Hn.
  intros Ht Hl. unfold mark_up_per_cpu_fail. destruct (MaxRetestCount <=? attempt); [by eexists|].
  destruct (mark_threads_ret (test_threads shm) (per_cpu_fails s) Hl) as (f & -> & Hf); [|by eexists].
  pose proof (test_threads_range shm) as H. unfold len in H. by rewrite Ht in H.
Qed.

(** The budget after [k] retries. *)
Definition budget_after (total : Z) (k : Z) : Z := if 0 <? total then total - k else total.

Lemma retry_loop_bound fuel : forall i s,
  0 <= retest_count app -> 1 <= i -> 2 * retest_count app < i + Z.of_nat fuel ->
  length (per_cpu_fails s) = n -> i <= 2 * retest_count app + 1 -> 1 <= fail_count s ->
  exists s' m, retry_loop app features_string t env fuel i s = Ret (s', m) /\ i <= m <= 2 * retest_count app + 1 /\
    fail_count s <= fail_count s' <= fail_count s + (m - i) /\
    total_retest_count s' = budget_after (total_retest_count s) (m - i) /\
    (0 <= total_retest_count s -> 0 <= total_retest_count s') /\ (total_retest_count s = 0 -> m = i) /\
    (total_retest_count s' <> 0 -> fail_count s' = 1 -> m = 2 * retest_count app + 1) /\
    (total_retest_count s' <> 0 -> retest_count app < m).
Proof using Hn Hruns.
  induction fuel as [|fuel IH]; intros i s Hr Hi Hf Hl Hle Hfc; cbn [retry_loop];
    destruct (should_retry_test app i s) eqn:Es.
  - unfold should_retry_test in Es. zcases; lia || done.
  - exists s, i. unfold should_retry_test in Es. unfold budget_after. zcases; repeat split; try lia; done.
  - destruct (Hruns (runs (next_run (- i) (if 0 <? total_retest_count s then total_retest_count s - 1 else total_retest_count s) s)))
      as (r & shm & Hone & Hlen).
    unfold once. rewrite Hone. cbn [mbind outcome_bind].
    set (s1 := next_run _ _ _) in *.
    assert (exists s2, (if result_ltb Passed r then mark_up_per_cpu_fail i shm s1 else Ret s1) = Ret s2 /\
      length (per_cpu_fails s2) = n /\ fail_count s <= fail_count s2 <= fail_count s + 1 /\
      total_retest_count s2 = total_retest_count s1) as (s2 & -> & Hl2 & Hf2 & Ht2).
    { destruct (result_ltb Passed r).
      - destruct (mark_up_ret i shm s1 Hlen Hl) as (s2 & Hs2 & Hl2). exists s2.
        pose proof (mark_up_fields _ _ _ _ Hs2) as (Hfc2 & _ & Ht2). repeat split; try done; simpl in Hfc2; lia.
      - exists s1. repeat split; try done; simpl; lia. }
    cbn [mbind outcome_bind].
    assert (i <= 2 * retest_count app) as Hi2.
    { unfold should_retry_test in Es. zcases; try done; lia. }
    destruct (IH (i + 1) s2 Hr ltac:(lia) ltac:(lia) Hl2 ltac:(lia) ltac:(lia)) as (s' & m & Hloop & Hm & Hfm & Htm & Hpos & Hz & H1 & H2).
    exists s', m. split; [done|]. rewrite Ht2 in Htm, Hpos, Hz. simpl in Htm, Hpos, Hz.
    assert (total_retest_count s <> 0) as Hnz by (unfold should_retry_test in Es; by zcases).
    unfold budget_after in *. repeat split; try lia; try done; zcases; lia.
  - exists s, i. unfold should_retry_test in Es. unfold budget_after. zcases; repeat split; try lia; done.
Qed.

(** The fractures of a test: each run takes at least [d] nanoseconds, and the
    first ten milliseconds are over after 25 runs, before doubling the loop
    limit overflows. *)
Lemma fracture_loop_returns (d duration first_target : Z) (auto : bool) :
  0 < d -> (forall k, d <= r_end (env k) - r_start (env k)) ->
  (auto = true -> forall k, (25 <= k)%nat -> first_target <= r_later (env k)) ->
  forall fuel runtime s, (0 < fuel)%nat -> duration * 1000000 <= runtime + d * Z.of_nat fuel ->
  length (per_cpu_fails s) = n -> (auto = true -> max_loop_count s <= 40 * 2 ^ Z.of_nat (Nat.min (runs s) 25)) ->
  exists res, fracture_loop app features_string t duration env fuel auto first_target runtime s = Ret res /\
    match res with inl _ => True | inr s' => length (per_cpu_fails s') = n /\ fail_count s' = fail_count s + 1 end.
Proof using Hn Hruns.
  intros Hd Hrun Hfirst fuel. induction fuel as [|fuel IH]; intros runtime s Hf Hdur Hl Hmax; [lia|]. cbn [fracture_loop].
  destruct (Hruns (runs s)) as (r & shm & Hone & Hlen). unfold once. rewrite Hone. cbn [mbind outcome_bind].
  specialize (Hrun (runs s)) as Hrun'.
  assert (exists s1, (if (0 <? max_loop_count s) && (r_later (env (runs s)) <? first_target) && auto
      then _ ← assertion (2 * max_loop_count s <=? INT_MAX); Ret (set_max_loop (2 * max_loop_count s) s)
      else Ret s) = Ret s1 /\ length (per_cpu_fails s1) = n /\ fail_count s1 = fail_count s /\ runs s1 = runs s /\
      (auto = true -> max_loop_count s1 <= 40 * 2 ^ Z.of_nat (Nat.min (S (runs s)) 25))) as (s1 & -> & Hl1 & Hf1 & Hr1 & Hm1).
  { assert (2 ^ Z.of_nat (Nat.min (S (runs s)) 25) <= 2 ^ 25) as Hp by (apply Z.pow_le_mono_r; lia).
    assert (2 ^ Z.of_nat (Nat.min (runs s) 25) <= 2 ^ Z.of_nat (Nat.min (S (runs s)) 25)) as Hq by (apply Z.pow_le_mono_r; lia).
    destruct ((0 <? max_loop_count s) && (r_later (env (runs s)) <? first_target) && auto) eqn:E.
    - apply andb_true_iff in E as [[_ E]%andb_true_iff Ha]. apply Z.ltb_lt in E.
      assert (runs s < 25)%nat as Hlt by (destruct (decide (25 <= runs s)%nat) as [Hge|]; [specialize (Hfirst Ha _ Hge)|]; lia).
      assert (2 ^ Z.of_nat (Nat.min (S (runs s)) 25) = 2 * 2 ^ Z.of_nat (Nat.min (runs s) 25)) as Heq.
      { rewrite <- Z.pow_succ_r by lia. f_equal. lia. }
      specialize (Hmax Ha). destruct (Z.leb_spec (2 * max_loop_count s) INT_MAX) as [|Hbad]; [|unfold INT_MAX in Hbad; lia].
      eexists. split; [done|]. unfold set_max_loop. cbn [per_cpu_fails fail_count runs max_loop_count].
      do 3 (split; [done|]). intros _. lia.
    - exists s. do 4 (split; [done|]). intros Ha. specialize (Hmax Ha). lia. }
  cbn [mbind outcome_bind].
  destruct r; try (destruct (mark_up_ret 0 shm s1 Hlen Hl1) as (s2 & Hs2 & Hl2); rewrite Hs2; eexists; split; [done|];
    pose proof (mark_up_fields _ _ _ _ Hs2) as (Hfc & _ & _); split; [done|lia]); [by eexists|].
  destruct (_ || _ || _) eqn:Estop; [by eexists|]. apply orb_false_iff in Estop as [_ Estop]. apply Z.leb_gt in Estop.
  destruct (IH (runtime + (r_end (env (runs s)) - r_start (env (runs s))))
    (next_run (current_iteration_count s1 + 1) (total_retest_count s1) s1)) as (res & Hres & Hend); [destruct fuel; [exfalso; rewrite Z.mul_1_r in Hdur; lia|lia]|rewrite Nat2Z.inj_succ in Hdur; lia|done| |].
  - simpl. by rewrite Hr1.
  - exists res. split; [done|]. destruct res; [done|]. simpl in Hend. by rewrite <- Hf1.
Qed.
End Retries.

(** The retries of a failed test: their loop ends, with at most twice
    --retest-on-failure retries; it never overdraws the budget of
    --total-retest-on-failure, of which each retry takes one; and unless the
    budget runs out, a test that failed only in its first run is retried the
    full double count and any other one more often than the single count. *)
Theorem retries_bounded (app : AppCfg) (features_string : Z -> str) (t : test) (env : nat -> Run) (n : nat) (s : TestSt) :
  Z.of_nat n <= MaxRetestCount ->
  (forall k, exists r shm, run_one_test_once app features_string t (env k) = Ret (r, shm) /\ length (tests shm) = n) ->
  0 <= retest_count app -> length (per_cpu_fails s) = n -> fail_count s = 1 ->
  exists s' attempts,
    retry_loop app features_string t env (Z.to_nat (2 * retest_count app)) 1 s = Ret (s', attempts) /\
    1 <= attempts <= 2 * retest_count app + 1 /\ 1 <= fail_count s' <= attempts /\
    total_retest_count s' = budget_after (total_retest_count s) (attempts - 1) /\
    (0 <= total_retest_count s -> 0 <= total_retest_count s') /\
    (total_retest_count s' <> 0 -> fail_count s' = 1 -> attempts = 2 * retest_count app + 1) /\
    (total_retest_count s' <> 0 -> retest_count app < attempts).
Proof.
  intros Hn Hruns Hr Hl Hf.
  destruct (retry_loop_bound app features_string t env n Hn Hruns (Z.to_nat (2 * retest_count app)) 1 s)
    as (s' & m & H1 & H2 & H3 & H4 & H5 & _ & H6 & H7); [lia..|].
  exists s', m. repeat split; try done; lia.
Qed.

Definition after_failure : TestSt :=
  {| max_loop_count := -1; total_retest_count := 3; current_iteration_count := 0; per_cpu_fails := [0; 0];
     fail_count := 1; runs := O |}.

Lemma retries_bounded_witness :
  exists s' m, retry_loop app0 (fun _ => []) test0 (fun _ => run_of Passed (idle_shm 1 2) 0 1) 4 1 after_failure = Ret (s', m) /\
    m = 4 /\ 0 <= total_retest_count s'.
Proof.
  destruct (retries_bounded app0 (fun _ => []) test0 (fun _ => run_of Passed (idle_shm 1 2) 0 1) 2 after_failure)
    as (s' & m & H & _ & _ & _ & Hb & _).
  - by vm_compute.
  - intros k. eexists _, _. split; by vm_compute.
  - by vm_compute.
  - done.
  - done.
  - exists s', m. split; [done|]. split; [vm_compute in H; by simplify_eq|]. by apply Hb.
Defined.

(** C32. Running a test ends with a verdict: when every run of it reports one and
    takes at least [d] nanoseconds, as many fractures as fit in the test's time
    are enough, and the retries after a failure end too. The test has at most 128
    threads, and automatic fracturing gets past its first ten milliseconds within
    25 runs. *)
Theorem run_one_test_returns (app : AppCfg) (features_string : Z -> str) (t : test) (env : nat -> Run) (n : nat)
    (d duration now total : Z) (fuel : nat) :
  Z.of_nat n <= MaxRetestCount ->
  (forall k, exists r shm, run_one_test_once app features_string t (env k) = Ret (r, shm) /\ length (tests shm) = n) ->
  0 <= retest_count app -> 0 < d -> (forall k, d <= r_end (env k) - r_start (env k)) ->
  (forall k, (25 <= k)%nat -> now + 10000000 <= r_later (env k)) ->
  (0 < fuel)%nat -> duration * 1000000 <= d * Z.of_nat fuel ->
  exists r s, run_one_test app features_string t duration env fuel now (Z.of_nat n) total = Ret (r, s).
Proof.
  intros Hn Hruns Hr Hd Hrun Hlater Hf Hdur. unfold run_one_test.
  destruct (initial_loop_count app t) as [loops auto] eqn:Ei.
  destruct (Z.leb_spec 0 (retest_count app)); [|lia]. cbn [assertion mbind outcome_bind].
  set (s := Build_TestSt _ _ _ _ _ _).
  destruct (fracture_loop_returns app features_string t env n Hn Hruns d duration (now + 10000000) auto Hd Hrun
    ltac:(auto) fuel 0 s Hf) as (res & -> & Hend).
  - lia.
  - unfold s. simpl. by rewrite length_replicate, Nat2Z.id.
  - intros Ha. unfold initial_loop_count in Ei. unfold s. simpl. repeat case_match; simplify_eq; lia.
  - cbn [mbind outcome_bind]. destruct res as [[r s']|s1]; [by eexists _, _|]. destruct Hend as [Hl Hfc]. simpl in Hfc.
    set (s2 := if _ : bool then _ else s1).
    assert (length (per_cpu_fails s2) = n /\ fail_count s2 = 1) as [Hl2 Hf2] by (unfold s2; destruct (_ && _); done).
    destruct (retry_loop_bound app features_string t env n Hn Hruns (Z.to_nat (2 * retest_count app)) 1 s2)
      as (s3 & m & -> & _); [lia..|]. by eexists _, _.
Qed.

Lemma run_one_test_returns_witness :
  exists r s, run_one_test app0 (fun _ => []) test0 1000 (fun _ => run_of Passed (idle_shm 1 2) 0 20000000) 50 0 2 (-1) = Ret (r, s).
Proof.
  apply (run_one_test_returns app0 (fun _ => []) test0 (fun _ => run_of Passed (idle_shm 1 2) 0 20000000) 2 20000000 1000 0 (-1) 50).
  - by vm_compute.
  - intros k. eexists _, _. split; by vm_compute.
  - by vm_compute.
  - lia.
  - intros k. by vm_compute.
  - intros k _. by vm_compute.
  - lia.
  - by vm_compute.
Defined.

(** * The analysis of the failures *)

Inductive core_report := OnlyThread | AllSameWay | AllAtLeastOnce | SomeThreads.

(** What analyze_test_failures() prints. *)
Inductive analysis :=
| AllCpusEqually
| FailingCpusEqually
| LocalisedTo (pkg : Z)
| MultiplePackages (pkgs : list Z)
| Cores (reports : list (nat * nat * core_report)).

Definition test_failure_package_only : Z := 4096.

(** The first loop: whether the patterns are equal, the first pattern cut to
    64 bits, and the number of processors seen to fail. *)
Definition equal_step (st : bool * Z * Z) (pattern : Z) : bool * Z * Z :=
  let '(eq, fail_pattern, nfailures) := st in
  if negb eq then st
  else if negb (pattern =? 0) then
    if nfailures + 1 =? 1 then (true, u64 pattern, nfailures + 1)
    else (pattern =? fail_pattern, fail_pattern, nfailures + 1)
  else st.

Definition equal_scan (fails : list Z) : bool * Z * Z := foldl equal_step (true, 0, 0) fails.

Section Analysis.
Context (l : list cpu_info) (fails : list Z).

(** The loop over the threads of a core. *)
Definition core_step (st : bool * bool * Z * Z) (i : nat) : outcome (bool * bool * Z * Z) :=
  let '(once, equal, n, pattern) := st in
  p ← of_option (fails !! i);
  let once := once && negb (p =? 0) in
  if n + 1 =? 1 then Ret (once, equal, n + 1, u64 p)
  else Ret (once, equal && (p =? pattern), n + 1,
            if negb (p =? 0) && (pattern =? 0) then u64 p else pattern).

Definition analyze_core (c : Core) : outcome (option core_report) :=
  st ← fold_outcome core_step (seq (first c) (last_ c - first c)) (true, true, 0, 0);
  let '(once, equal, n, pattern) := (st : bool * bool * Z * Z) in
  Ret (if pattern =? 0 then (None : option core_report)
       else if n =? 1 then Some OnlyThread
       else if equal then Some AllSameWay
       else if once then Some AllAtLeastOnce
       else Some SomeThreads).

Definition analyze_cores (pkgs : list Package) : outcome (list (nat * nat * core_report)) :=
  fold_outcome (fun (acc : list (nat * nat * core_report)) (pc : nat * nat * Core) =>
    r ← analyze_core pc.2;
    Ret (match r with None => acc | Some r => acc ++ [(pc.1, r)] end))
    (concat (imap (fun p pkg => imap (fun c core => ((p, c), core)) (cores pkg)) pkgs)) [].

(** Whether a thread of the package failed. *)
Definition package_failed (p : Package) : bool :=
  existsb (fun c => existsb (fun i => negb (default 0 (fails !! i) =? 0)) (seq (first c) (last_ c - first c))) (cores p).

(** The packages printed: the elements of the vector are used as indices
    into it. *)
Definition print_packages (pkg_failures : list Z) : outcome (list Z) :=
  fold_outcome (fun (acc : list Z) p => v ← at_ pkg_failures p; Ret (if 0 <=? v then acc ++ [p] else acc)) pkg_failures [].

Definition analyze_packages (pkgs : list Package) : outcome analysis :=
  match pkgs with
  | [p] => Ret (LocalisedTo (package_id_of l p))
  | _ =>
      let pkg_failures := map (fun p => if package_failed p then package_id_of l p else -1) pkgs in
      match filter (fun p => package_failed p = true) pkgs with
      | [p] => Ret (LocalisedTo (package_id_of l p))
      | _ => ps ← print_packages pkg_failures; Ret (MultiplePackages ps)
      end
  end.

Definition analyze_test_failures (test_flags : Z) (pkgs : list Package) : outcome (option analysis) :=
  let '(all_equal, _, nfailures) := equal_scan fails in
  if all_equal && (nfailures =? len fails) then Ret (Some AllCpusEqually)
  else if negb (isValid pkgs) then Ret (if all_equal then Some FailingCpusEqually else None)
  else if negb (Z.land test_flags test_failure_package_only =? 0) then Some <$> analyze_packages pkgs
  else r ← analyze_cores pkgs; Ret (Some (Cores r)).
End Analysis.

(** The patterns that mark_up_per_cpu_fail() leaves. *)
Definition cpu_patterns (fails : list Z) : Prop := forall i v, fails !! i = Some v -> v = 0 \/ v = 2 ^ Z.of_nat i.

Lemma mark_thread_pattern fails d fails' : 0 <= d.2 -> cpu_patterns fails -> mark_thread fails d = Ret fails' ->
  cpu_patterns fails' /\ length fails' = length fails.
Proof.
  unfold mark_thread. intros Hd Hp H. destruct (has_failed d.1); [|by simplify_eq].
  inv_ret. rewrite length_insert. split; [|done]. unfold at_ in *.
  destruct (Z.ltb_spec d.2 0); [lia|]. inv_ret. intros i v Hi.
  destruct (decide (i = Z.to_nat d.2)) as [->|].
  - rewrite list_lookup_insert_eq in Hi by by eapply lookup_lt_Some. simplify_eq. right.
    rewrite Z2Nat.id by done. match goal with H : fails !! _ = Some _ |- _ => apply Hp in H; rewrite Z2Nat.id in H by done end.
    destruct_or!; subst; [done|apply Z.lor_diag].
  - rewrite list_lookup_insert_ne in Hi by done. by apply Hp.
Qed.

Lemma mark_up_pattern attempt shm s s' : cpu_patterns (per_cpu_fails s) -> mark_up_per_cpu_fail attempt shm s = Ret s' ->
  cpu_patterns (per_cpu_fails s').
Proof.
  unfold mark_up_per_cpu_fail. intros Hp H. inv_ret. simpl. destruct (_ <=? _); [by inv_ret|].
  eapply (fold_outcome_inv cpu_patterns); [|exact Hp|eassumption].
  intros f d f' Hd Hf Hm. eapply mark_thread_pattern; [|exact Hf|exact Hm].
  pose proof (test_threads_range shm) as Hr. rewrite Forall_forall in Hr. by apply Hr.
Qed.

Lemma equal_scan_count fails : forall st, (foldl equal_step st fails).2 <= st.2 + len fails.
Proof.
  induction fails as [|v fails IH]; intros st; [unfold len; simpl; lia|].
  assert ((equal_step st v).2 <= st.2 + 1) as Hs.
  { destruct st as [[eq p] n]. unfold equal_step.
    destruct (negb eq); simpl; [lia|]. destruct (negb (v =? 0)); simpl; [|lia]. destruct (n + 1 =? 1); simpl; lia. }
  cbn [foldl]. specialize (IH (equal_step st v)). unfold len in *. rewrite length_cons. lia.
Qed.

Lemma equal_scan_false fails p n : (foldl equal_step (false, p, n) fails).1.1 = false.
Proof. by induction fails. Qed.

Lemma patterns_never_equal (l : list cpu_info) (fails : list Z) (test_flags : Z) (pkgs : list Package) :
  cpu_patterns fails -> 2 <= len fails -> analyze_test_failures l fails test_flags pkgs <> Ret (Some AllCpusEqually).
Proof.
  intros Hp Hlen. unfold analyze_test_failures.
  assert ((equal_scan fails).1.1 && ((equal_scan fails).2 =? len fails) = false) as Hno.
  { destruct fails as [|a [|b fails]]; [by unfold len in Hlen; simpl in Hlen; lia..|].
    unfold equal_scan. cbn [foldl].
    assert (forall st, st.2 <= 1 -> ((foldl equal_step st fails).2 =? len (a :: b :: fails)) = false) as Hfew.
    { intros st Hst. pose proof (equal_scan_count fails st). apply Z.eqb_neq. unfold len in *.
      rewrite !length_cons. lia. }
    destruct (Hp 0%nat a eq_refl) as [-> | ->], (Hp 1%nat b eq_refl) as [-> | ->].
    1-3: rewrite Hfew; [apply andb_false_r|by vm_compute].
    change (equal_step (equal_step _ _) _) with (false, 1, 2). by rewrite equal_scan_false. }
  destruct (equal_scan fails) as [[eq p] n]. simpl in Hno. rewrite Hno.
  destruct (negb (isValid pkgs)); [by destruct eq|].
  destruct (negb _); [unfold analyze_packages|].
  - destruct pkgs as [|p1 [|p2 pkgs]]; simpl; try done; repeat case_match; try done; by destruct (print_packages _).
  - by destruct (analyze_cores fails pkgs).
Qed.

Definition mark_all (marks : list (Z * Shm)) (s : TestSt) : outcome TestSt :=
  fold_outcome (fun s m => mark_up_per_cpu_fail m.1 m.2 s) marks s.

Lemma mark_up_length attempt shm s s' : mark_up_per_cpu_fail attempt shm s = Ret s' ->
  length (per_cpu_fails s') = length (per_cpu_fails s).
Proof.
  unfold mark_up_per_cpu_fail. intros H. inv_ret. simpl. destruct (_ <=? _); [by inv_ret|].
  eapply (fold_outcome_inv (fun f => length f = length (per_cpu_fails s))); [|done|eassumption].
  intros f d f' _ Hf Hm. unfold mark_thread in Hm. destruct (has_failed d.1); inv_ret; [by rewrite length_insert|done].
Qed.

Lemma mark_all_patterns marks s s' : cpu_patterns (per_cpu_fails s) -> mark_all marks s = Ret s' ->
  cpu_patterns (per_cpu_fails s') /\ length (per_cpu_fails s') = length (per_cpu_fails s).
Proof.
  intros Hp H. unfold mark_all in H.
  apply (fold_outcome_inv (fun s1 => cpu_patterns (per_cpu_fails s1) /\ length (per_cpu_fails s1) = length (per_cpu_fails s))) in H;
    [done| |done].
  intros s1 m s2 _ [Hp1 Hl1] Hm. split; [by eapply mark_up_pattern|].
  etrans; [by eapply mark_up_length|done].
Qed.

(** The message that all processors failed equally is never printed when
    there are two or more of them, whatever failed in which attempts: the
    pattern that is recorded for a failing processor is the bit of its own
    number, not those of the attempts in which it failed, so no two failing
    processors have the same pattern. *)
Theorem all_equal_unreachable (l : list cpu_info) (marks : list (Z * Shm)) (s s' : TestSt) (test_flags : Z) (pkgs : list Package) :
  Forall (fun v => v = 0) (per_cpu_fails s) -> 2 <= len (per_cpu_fails s) -> mark_all marks s = Ret s' ->
  analyze_test_failures l (per_cpu_fails s') test_flags pkgs <> Ret (Some AllCpusEqually).
Proof.
  intros H0 Hl H. apply mark_all_patterns in H as [Hp Hlen].
  - apply patterns_never_equal; [done|]. unfold len in *. lia.
  - intros i v Hi. left. by eapply (Forall_lookup_1 _ _ _ _ H0).
Qed.

(** Two processors that both fail in the first attempt. *)
Definition fresh_test : TestSt :=
  {| max_loop_count := 0; total_retest_count := 0; current_iteration_count := 0; per_cpu_fails := [0; 0];
     fail_count := 0; runs := 0 |}.
Definition both_failed : Shm :=
  let failed := {| t_common := set_fail_time 5 idle_common; inner_loop_count := 0; inner_loop_count_at_fail := 0; tid := 0 |} in
  {| mains := mains (idle_shm 1 2); tests := [failed; failed] |}.

Lemma all_equal_unreachable_witness :
  exists s', mark_all [(0, both_failed)] fresh_test = Ret s' /\ per_cpu_fails s' = [1; 2] /\
    analyze_test_failures sample (per_cpu_fails s') 0 [] <> Ret (Some AllCpusEqually).
Proof.
  eexists. split; [vm_compute; reflexivity|]. split; [reflexivity|].
  eapply (all_equal_unreachable sample [(0, both_failed)] fresh_test).
  - repeat constructor.
  - by vm_compute.
  - vm_compute. reflexivity.
Defined.

(** With three packages of which the first two failed, the loop that prints
    them indexes the vector with -1. *)
Example print_packages_ub : print_packages [0; 1; -1] = Ub.
Proof. reflexivity. Qed.

(** * The loop over the tests *)

(** What happens between and during the tests of a session: the answers of the
    waiting functions, the verdict of each test, whether the strict end time has
    passed, and whether there is time for another iteration; each is indexed by
    the number of tests run so far. *)
Record Session := {
  wait_ok : nat -> bool;
  test_verdict : nat -> outcome TestResult;
  strict_expired_at : nat -> bool;
  start_next_iteration : nat -> bool;
}.

Record MainCfg := {
  fatal_errors : bool;
  main_fatal_skips : bool;
  max_test_count : Z;
  main_quality : Z;
}.

Section MainLoop.
Context (cfg : MainCfg) (env : Session) (tests_ : list test).

(** The position of the first test from [i] on that the quality level does
    not skip; the length of the list is its end(). *)
Fixpoint skip_quality (rest : list test) (i : nat) : nat :=
  match rest with
  | t :: rest => if (quality_level t <? 0) && (0 <=? main_quality cfg) then skip_quality rest (S i) else i
  | [] => i
  end.

Definition get_first_test : nat := skip_quality tests_ O.

Definition get_next_test (ran i : nat) : nat :=
  if strict_expired_at env ran then length tests_
  else
    let j := skip_quality (drop (S i) tests_) (S i) in
    if (j =? length tests_)%nat then
      if start_next_iteration env ran then get_first_test else length tests_
    else j.

(** The counters of main(). *)
Record totals := { failures : Z; successes : Z; skips : Z }.

(** The loop; [last] is lastTestResult and [i] the iterator. *)
Fixpoint main_loop (fuel : nat) (ran : nat) (last : TestResult) (i : nat) (c : totals) : outcome totals :=
  if (i =? length tests_)%nat then Ret c
  else match fuel with
  | O => Ub
  | S fuel =>
      if negb (bool_decide (last = Skipped)) && negb (wait_ok env ran) then Ret c
      else
        r ← test_verdict env ran;
        let ran := S ran in
        let '(c, stop) :=
          match r with
          | Failed => ({| failures := failures c + 1; successes := successes c; skips := skips c |}, fatal_errors cfg)
          | Passed => ({| failures := failures c; successes := successes c + 1; skips := skips c |}, false)
          | Skipped => ({| failures := failures c; successes := successes c; skips := skips c + 1 |}, main_fatal_skips cfg)
          | _ => (c, false)
          end in
        if stop || (max_test_count cfg <=? Z.of_nat ran) then Ret c
        else main_loop fuel ran r (get_next_test ran i) c
  end.

Definition exit_code_of (c : totals) : Z :=
  if negb (failures c =? 0) || (negb (skips c =? 0) && main_fatal_skips cfg) then EXIT_FAILURE else EXIT_SUCCESS.

(** The status main() passes to cleanup_global(). *)
Definition run_session (fuel : nat) : outcome Z :=
  c ← main_loop fuel O Skipped get_first_test {| failures := 0; successes := 0; skips := 0 |};
  Ret (exit_code_of c).
End MainLoop.

Definition count_of (r : TestResult) (rs : list TestResult) : Z := len (filter (fun x => x = r) rs).

Lemma count_of_pos r rs : count_of r rs <> 0 <-> r ∈ rs.
Proof.
  unfold count_of, len. split.
  - intros H. destruct (filter (fun x => x = r) rs) as [|x l] eqn:E; [done|].
    assert (x ∈ filter (fun x => x = r) rs) as Hx by (rewrite E; by left).
    apply list_elem_of_filter in Hx as [-> ?]. done.
  - intros H H0. assert (r ∈ filter (fun x => x = r) rs) as Hr by (apply list_elem_of_filter; done).
    destruct (filter _ rs); [by apply not_elem_of_nil in Hr|done].
Qed.

Lemma count_of_cons r x rs : count_of r (x :: rs) = (if decide (x = r) then 1 else 0) + count_of r rs.
Proof. unfold count_of, len. rewrite filter_cons. case_decide; simpl; lia. Qed.

Section MainFacts.
Context (cfg : MainCfg) (env : Session) (tests_ : list test).

Local Abbreviation first := (get_first_test cfg tests_).
Local Abbreviation next := (get_next_test cfg env tests_).

(** A session as the list of its runs: the position of the test in the list
    and the verdict.  The test the iterator is at before run [j] ... *)
Definition position (runs : list (nat * TestResult)) (j : nat) : nat :=
  match j with
  | O => first
  | S k => match runs !! k with Some (i, _) => next j i | None => length tests_ end
  end.

(** ... the verdict before run [j] (lastTestResult starts as "skipped") ... *)
Definition last_verdict (runs : list (nat * TestResult)) (j : nat) : TestResult :=
  match j with O => Skipped | S k => from_option snd Skipped (runs !! k) end.

(** ... whether the wait between two tests ends the session before run [j] ... *)
Definition wait_fails (runs : list (nat * TestResult)) (j : nat) : Prop :=
  last_verdict runs j <> Skipped /\ wait_ok env j = false.

(** ... and whether the session ends after run [j] with the verdict [r]. *)
Definition stops_after (j : nat) (r : TestResult) : Prop :=
  (r = Failed /\ fatal_errors cfg = true) \/ (r = Skipped /\ main_fatal_skips cfg = true) \/
  max_test_count cfg <= Z.of_nat (S j).

(** The runs of a session in order: each is of a test of the list, the one
    the iterator is at, with the verdict the test reported, and none follows
    one that ends the session. *)
Definition session_runs (runs : list (nat * TestResult)) : Prop :=
  forall j i r, runs !! j = Some (i, r) ->
    i = position runs j /\ (i < length tests_)%nat /\ test_verdict env j = Ret r /\ ~ wait_fails runs j /\
    ((S j < length runs)%nat -> ~ stops_after j r).

(** Nothing is run after them: the iterator is at the end of the list, the
    wait ended the session, or the last run did. *)
Definition session_over (runs : list (nat * TestResult)) : Prop :=
  position runs (length runs) = length tests_ \/ wait_fails runs (length runs) \/
  exists j i r, length runs = S j /\ runs !! j = Some (i, r) /\ stops_after j r.

Lemma position_app runs more j : (j <= length runs)%nat -> position (runs ++ more) j = position runs j.
Proof using Type. destruct j as [|k]; [done|]. intros H. unfold position. by rewrite lookup_app_l by lia. Qed.

Lemma last_verdict_app runs more j : (j <= length runs)%nat -> last_verdict (runs ++ more) j = last_verdict runs j.
Proof using Type. destruct j as [|k]; [done|]. intros H. unfold last_verdict. by rewrite lookup_app_l by lia. Qed.

Lemma skip_quality_le rest : forall i, (skip_quality cfg rest i <= i + length rest)%nat.
Proof using Type.
  induction rest as [|t rest IH]; intros i; simpl; [lia|]. destruct (_ && _); [|lia]. specialize (IH (S i)). lia.
Qed.

Lemma get_first_le : (first <= length tests_)%nat.
Proof using Type. apply (skip_quality_le tests_ O). Qed.

Lemma get_next_le ran i : (i < length tests_)%nat -> (next ran i <= length tests_)%nat.
Proof using Type.
  intros Hi. unfold get_next_test. destruct (strict_expired_at env ran); [lia|]. cbv zeta.
  pose proof (skip_quality_le (drop (S i) tests_) (S i)) as H. rewrite length_drop in H.
  destruct (_ =? _)%nat; [destruct (start_next_iteration env ran); [apply get_first_le|lia]|lia].
Qed.

(** One pass over the list: the positions that get_first_test() and
    get_next_test() stop at, until the end. *)
Fixpoint pass (fuel ran i : nat) : list nat :=
  if (i =? length tests_)%nat then []
  else match fuel with
  | O => []
  | S fuel => i :: pass fuel (S ran) (next (S ran) i)
  end.

(** The quality level does not skip the test at a position. *)
Definition visited (i : nat) : Prop :=
  from_option (fun t => (quality_level t <? 0) && (0 <=? main_quality cfg) = false) False (tests_ !! i).
#[local] Instance visited_dec i : Decision (visited i).
Proof using Type. unfold visited. destruct (tests_ !! i); simpl; apply _. Defined.

Lemma pass_visits pre rest : tests_ = pre ++ rest -> forall fuel ran, (length rest <= fuel)%nat ->
  (forall k, strict_expired_at env k = false) -> (forall k, start_next_iteration env k = false) ->
  pass fuel ran (skip_quality cfg rest (length pre)) = filter visited (seq (length pre) (length rest)).
Proof using Type.
  intros E fuel ran Hf Hs Hn. revert pre E fuel ran Hf. induction rest as [|t rest IH]; intros pre E fuel ran Hf.
  { cbn [skip_quality]. assert (length pre = length tests_) as -> by by rewrite E, app_nil_r. destruct fuel; cbn [pass]; by rewrite Nat.eqb_refl. }
  assert (visited (length pre) <-> (quality_level t <? 0) && (0 <=? main_quality cfg) = false) as Hv.
  { unfold visited. by rewrite E, list_lookup_middle by done. }
  assert (tests_ = (pre ++ [t]) ++ rest) as E' by (by rewrite <- app_assoc).
  assert (length (pre ++ [t]) = S (length pre)) as El by (rewrite length_app; simpl; lia).
  specialize (IH (pre ++ [t]) E'). rewrite El in IH. cbn [skip_quality length seq]. rewrite filter_cons.
  destruct (_ && _) eqn:Eq; case_decide as Hd; rewrite Hv in Hd; try done.
  - apply IH. simpl in Hf. lia.
  - destruct fuel as [|fuel]; [simpl in Hf; lia|]. cbn [pass].
    destruct (Nat.eqb_spec (length pre) (length tests_)) as [Hx|_]; [exfalso; rewrite E, length_app in Hx; simpl in Hx; lia|].
    f_equal. rewrite <- (IH fuel (S ran)) by (simpl in Hf; lia). f_equal. unfold get_next_test. rewrite Hs, Hn.
    assert (drop (S (length pre)) tests_ = rest) as -> by (rewrite E', <- El; apply drop_app_length). cbv zeta.
    by destruct (Nat.eqb_spec (skip_quality cfg rest (S (length pre))) (length tests_)).
Qed.

Lemma session_runs_snoc runs r : session_runs runs -> position runs (length runs) <> length tests_ ->
  (position runs (length runs) <= length tests_)%nat -> ~ wait_fails runs (length runs) ->
  (forall j i r, length runs = S j -> runs !! j = Some (i, r) -> ~ stops_after j r) ->
  test_verdict env (length runs) = Ret r -> session_runs (runs ++ [(position runs (length runs), r)]).
Proof using Type.
  intros Hok Hne Hle Hw Hs Hr j i r' Hj. unfold wait_fails.
  apply lookup_app_Some in Hj as [Hj|[Hge Hj]].
  - pose proof (lookup_lt_Some _ _ _ Hj). rewrite position_app, last_verdict_app by lia.
    destruct (Hok _ _ _ Hj) as (-> & Hlt & Hv & Hw' & Hs'). repeat split; try done. intros _.
    destruct (decide (length runs = S j)) as [E|E]; [by eapply Hs|apply Hs'; lia].
  - apply list_lookup_singleton_Some in Hj as [Hj [= <- <-]]. assert (j = length runs) as -> by lia.
    rewrite position_app, last_verdict_app, length_app by lia. simpl. repeat split; try done; lia.
Qed.

Definition failed_runs (runs : list (nat * TestResult)) := count_of Failed (runs.*2).
Definition skipped_runs (runs : list (nat * TestResult)) := count_of Skipped (runs.*2).

Lemma count_of_snoc r rs x : count_of r (rs ++ [x]) = count_of r rs + (if decide (x = r) then 1 else 0).
Proof using Type. unfold count_of, len. rewrite filter_app, filter_cons, length_app. case_decide; simpl; lia. Qed.

(** The loop, entered after [runs], makes the rest of the session's runs and
    counts their verdicts. *)
Lemma main_loop_spec fuel : forall runs c c', session_runs runs ->
  (forall j i r, length runs = S j -> runs !! j = Some (i, r) -> ~ stops_after j r) ->
  (position runs (length runs) <= length tests_)%nat ->
  failures c = failed_runs runs -> skips c = skipped_runs runs ->
  main_loop cfg env tests_ fuel (length runs) (last_verdict runs (length runs)) (position runs (length runs)) c = Ret c' ->
  exists all, session_runs all /\ session_over all /\ failures c' = failed_runs all /\ skips c' = skipped_runs all.
Proof using Type.
  induction fuel as [|fuel IH]; intros runs c c' Hok Hs Hle Hf Hk H; cbn [main_loop] in H;
    (destruct (Nat.eqb_spec (position runs (length runs)) (length tests_)) as [He|He];
      [simplify_eq; exists runs; split; [done|]; split; [by left|done]|]); [done|].
  destruct (negb _ && _) eqn:Ew.
  { apply andb_true_iff in Ew as [El%negb_true_iff%bool_decide_eq_false Ew%negb_true_iff].
    simplify_eq. exists runs. split; [done|]. split; [right; by left|done]. }
  assert (~ wait_fails runs (length runs)) as Hw.
  { intros [Hl Hw]. rewrite Hw, (bool_decide_eq_false_2 _ Hl) in Ew. done. }
  apply outcome_bind_ret in H as (r & Hr & H).
  pose proof (session_runs_snoc _ _ Hok He Hle Hw Hs Hr) as Hok'.
  set (all := runs ++ [(position runs (length runs), r)]) in *.
  assert (length all = S (length runs)) as Hlen by (subst all; rewrite length_app; simpl; lia).
  assert (all !! length runs = Some (position runs (length runs), r)) as Hat
    by (subst all; by rewrite lookup_app_r, Nat.sub_diag by lia).
  set (step := match r with Failed => _ | _ => _ end) in H. destruct step as [c1 stop] eqn:Es.
  assert (failures c1 = failed_runs all /\ skips c1 = skipped_runs all /\
    (stop = true <-> (r = Failed /\ fatal_errors cfg = true) \/ (r = Skipped /\ main_fatal_skips cfg = true)))
    as (Hf1 & Hk1 & Hst).
  { unfold failed_runs, skipped_runs in *. subst step all. rewrite !fmap_app, list_fmap_singleton, !count_of_snoc. cbn [snd].
    destruct r; simplify_eq; cbn [failures skips]; repeat case_decide; simplify_eq; repeat split; intros; naive_solver lia. }
  destruct (stop || _) eqn:Eo.
  - simplify_eq. exists all. split; [done|]. split; [|done]. right. right. exists (length runs), (position runs (length runs)), r.
    split; [done|]. split; [done|]. unfold stops_after. apply orb_true_iff in Eo as [Eo|Eo%Z.leb_le]; tauto.
  - apply orb_false_iff in Eo as [E1 E2%Z.leb_gt]. apply (IH all c1); try done.
    + intros j i r' Hj Hi [Hx|[Hx|Hx]]; (assert (j = length runs) as -> by lia); rewrite Hat in Hi; injection Hi as <- <-;
        [assert (stop = true) by (apply Hst; tauto); congruence..|lia].
    + rewrite Hlen. cbn [position]. rewrite Hat. apply get_next_le. lia.
    + rewrite Hlen. cbn [position last_verdict]. rewrite Hat. exact H.
Qed.

(** C4. The program's exit status tells the truth about the tests main()'s
    loop ran.  The runs it makes are exactly these: the first is of the first test of
    the list that the quality level does not skip, each next one of the test
    get_next_test() moves to, and so on while the list (repeated as
    start_next_iteration says) has not ended, the wait between two tests does
    not end the session (nothing is waited for after a skipped test), no test
    failed with --fatal-errors or was skipped with --fatal-skips, and the
    limit on the number of tests is not reached.  The status is "failure"
    exactly when one of these runs failed or, with --fatal-skips, was
    skipped, and "success" otherwise.  What the tests report and the clock's
    answers are arguments. *)
Theorem session_exit_status (fuel : nat) (code : Z) :
  run_session cfg env tests_ fuel = Ret code ->
  exists runs, session_runs runs /\ session_over runs /\
    (code = EXIT_FAILURE <-> Failed ∈ runs.*2 \/ (main_fatal_skips cfg = true /\ Skipped ∈ runs.*2)) /\
    (code = EXIT_FAILURE \/ code = EXIT_SUCCESS).
Proof using Type.
  unfold run_session. intros H. inv_ret.
  match goal with H : main_loop _ _ _ _ _ _ _ _ = Ret _ |- _ =>
    apply (main_loop_spec fuel []) in H as (runs & Hok & Hov & Hf & Hk) end;
    [|intros j i r Hj; done|done|exact get_first_le|done..].
  exists runs. split; [done|]. split; [done|]. rewrite <- !count_of_pos. unfold failed_runs, skipped_runs in *.
  unfold exit_code_of, EXIT_FAILURE, EXIT_SUCCESS. rewrite Hf, Hk.
  destruct (Z.eqb_spec (count_of Failed runs.*2) 0), (Z.eqb_spec (count_of Skipped runs.*2) 0), (main_fatal_skips cfg);
    simpl; (split; [split; intros H'; [done || tauto|destruct H' as [?|[? ?]]; congruence || done]|tauto]).
Qed.
End MainFacts.

(** Three runs of two tests, the second of which fails. *)
Lemma session_exit_status_witness :
  run_session {| fatal_errors := false; main_fatal_skips := false; max_test_count := 3; main_quality := 2 |}
    {| wait_ok := fun _ => true; test_verdict := fun k => Ret (if (k =? 1)%nat then Failed else Passed);
       strict_expired_at := fun _ => false; start_next_iteration := fun _ => true |} [test0; test0] 3 = Ret EXIT_FAILURE.
Proof.
  destruct (run_session _ _ _ _) as [code|e|] eqn:E; [|by vm_compute in E..].
  destruct (session_exit_status _ _ _ _ _ E) as (runs & _ & _ & _ & [-> | ->]); [done|by vm_compute in E].
Defined.

(** C31. A session with a limit on the number of tests ends: when every test
    reports a verdict, at most that many tests (at least one) are run. *)
Theorem session_terminates (cfg : MainCfg) (env : Session) (tests_ : list test) :
  (forall k, exists r, test_verdict env k = Ret r) ->
  exists code, run_session cfg env tests_ (Z.to_nat (Z.max 1 (max_test_count cfg))) = Ret code.
Proof.
  intros Hv. unfold run_session.
  assert (forall fuel ran last i c, Z.max 1 (max_test_count cfg) <= Z.of_nat (ran + fuel) ->
    (0 < fuel)%nat -> exists c', main_loop cfg env tests_ fuel ran last i c = Ret c') as Hl.
  { induction fuel as [|fuel IH]; intros ran last i c Hf H0; [lia|]. cbn [main_loop].
    destruct (i =? length tests_)%nat; [by eexists|]. destruct (negb _ && _); [by eexists|].
    destruct (Hv ran) as [r ->]. cbn [mbind outcome_bind].
    set (step := match r with Failed => _ | _ => _ end). destruct step as [c1 stop].
    destruct stop; [by eexists|]. cbn [orb].
    destruct (Z.leb_spec (max_test_count cfg) (Z.of_nat (S ran))); [by eexists|]. apply IH; lia. }
  destruct (Hl (Z.to_nat (Z.max 1 (max_test_count cfg))) O Skipped (get_first_test cfg tests_)
    {| failures := 0; successes := 0; skips := 0 |}) as [c' ->]; [lia..|]. by eexists.
Qed.

Lemma session_terminates_witness :
  exists code, run_session {| fatal_errors := false; main_fatal_skips := false; max_test_count := 3; main_quality := 2 |}
    {| wait_ok := fun _ => true; test_verdict := fun k => Ret Passed;
       strict_expired_at := fun _ => false; start_next_iteration := fun _ => true |} [test0; test0] 3 = Ret code.
Proof.
  apply (session_terminates {| fatal_errors := false; main_fatal_skips := false; max_test_count := 3; main_quality := 2 |}).
  intros k. by exists Passed.
Defined.
