(* ===== verification/TestSet.v ===== *)
(** The set of tests to run (class SandstoneTestSet of
    src/framework/sandstone_tests.h and sandstone_tests.cpp): the catalogue of
    tests, looking up names, patterns and groups, adding and removing tests, and
    the test list files. *)

From S2P Require Import Prelude CStdlib Chrono.

(** * The data *)

(** The fields of struct test that the set reads. A test is known by its
    index, which stands for its address; [None] is the null pointer. *)
Record test_def := { t_id : str; t_groups : list str; t_quality : Z }.

Inductive test_status := disabled | enabled | not_found.
#[export] Instance test_status_eq_dec : EqDecision test_status.
Proof. solve_decision. Defined.

Record test_cfg_info := { ti_test : option nat; ti_status : test_status; ti_duration : Z }.
#[export] Instance test_cfg_info_eq_dec : EqDecision test_cfg_info.
Proof. solve_decision. Defined.

(** The implicit constructor from a pointer. *)
Definition cfg_of (t : option nat) : test_cfg_info :=
  {| ti_test := t; ti_status := not_found; ti_duration := 0 |}.

Record test_set_cfg := { ignore_unknown_tests : bool; randomize : bool; is_selftest : bool }.

Record SandstoneTestSet := {
  all_tests : list nat;
  all_group_map : list (str * list nat);
  test_set : list test_cfg_info;
}.

Definition set_test_set (l : list test_cfg_info) (s : SandstoneTestSet) : SandstoneTestSet :=
  {| all_tests := all_tests s; all_group_map := all_group_map s; test_set := l |}.

Section TestSet.
(** All tests of the program: the regular ones, the selftests and mce_test
    are given by their indices. *)
Context (tests : list test_def) (regular_tests selftests : list nat) (mce_test : nat).
Context (cfg : test_set_cfg) (requested_quality : Z).
(** Whether fnmatch(pattern, text, 0) reports a match. *)
Context (fnmatch : str -> str -> bool).

Definition id_of (t : nat) : str := default [] (t_id <$> tests !! t).
Definition quality_of (t : nat) : Z := default 0 (t_quality <$> tests !! t).
Definition groups_of (t : nat) : list str := default [] (t_groups <$> tests !! t).

(** all_group_map[name].push_back(t) *)
Fixpoint push_group (name : str) (t : nat) (m : list (str * list nat)) : list (str * list nat) :=
  match m with
  | [] => [(name, [t])]
  | (n, l) :: m => if str_eqb n name then (n, l ++ [t]) :: m else (n, l) :: push_group name t m
  end.

(** load_all_tests(); [restricted] is SandstoneConfig::RestrictedCommandLine. *)
Definition load_all_tests (restricted : bool) : SandstoneTestSet :=
  let known := if is_selftest cfg then selftests else regular_tests in
  {| all_tests := known ++ [mce_test];
     all_group_map := if restricted then []
                      else foldl (fun m t => foldl (fun m g => push_group g t m) m (groups_of t)) [] known;
     test_set := [] |}.

Definition find_group (name : str) (m : list (str * list nat)) : list nat :=
  match List.find (fun kv => str_eqb kv.1 name) m with Some kv => kv.2 | None => [] end.

Definition lookup_tests (s : SandstoneTestSet) (name : str) : list nat :=
  match name with
  | [] => []
  | c :: rest =>
      if bool_decide ("*"%char ∈ name) then
        filter (fun t => (requested_quality <=? quality_of t) && fnmatch name (id_of t) = true) (all_tests s)
      else if char_eqb c "@"%char then find_group rest (all_group_map s)
      else match List.find (fun t => str_eqb (id_of t) name) (all_tests s) with
           | Some t => [t]
           | None => []
           end
  end.

(** The constructor; the tests enter the list through the implicit
    conversion. *)
Definition make_test_set (restricted enable_all : bool) : SandstoneTestSet :=
  let s := load_all_tests restricted in
  if negb enable_all then s
  else
    let source := if negb (is_selftest cfg) then regular_tests else selftests in
    set_test_set (map (fun t => cfg_of (Some t)) (filter (fun t => requested_quality <= quality_of t) source)) s.

Definition add_info (t : test_cfg_info) (s : SandstoneTestSet) : SandstoneTestSet * test_cfg_info :=
  let ti := {| ti_test := ti_test t; ti_status := enabled; ti_duration := ti_duration t |} in
  (set_test_set (test_set s ++ [ti]) s, ti).

Definition add_name (name : str) (s : SandstoneTestSet) : SandstoneTestSet * list test_cfg_info :=
  foldl (fun st t => let '(s, ti) := add_info (cfg_of (Some t)) st.1 in (s, st.2 ++ [ti]))
    (s, []) (lookup_tests s name).

Definition remove_test (t : nat) (s : SandstoneTestSet) : SandstoneTestSet * Z :=
  let l := filter (fun ti => ti_test ti <> Some t) (test_set s) in
  (set_test_set l s, len (test_set s) - len l).

Definition remove_name (name : str) (s : SandstoneTestSet) : SandstoneTestSet * Z :=
  match lookup_tests s name with
  | [] => (s, -1)
  | ts => foldl (fun st t => let '(s, n) := remove_test t st.1 in (s, st.2 + n)) (s, 0) ts
  end.

Definition contains (t : nat) (s : SandstoneTestSet) : bool :=
  existsb (fun ti => bool_decide (ti_test ti = Some t)) (test_set s).

(** begin(): [shuffle] is what std::shuffle() does with the random engine. *)
Definition begin_ (shuffle : list test_cfg_info -> list test_cfg_info) (s : SandstoneTestSet)
  : outcome SandstoneTestSet :=
  if randomize cfg then
    l ← of_option (last (test_set s));
    Ret (if bool_decide (ti_test l = Some mce_test)
         then set_test_set (shuffle (take (length (test_set s) - 1) (test_set s)) ++ [l]) s
         else set_test_set (shuffle (test_set s)) s)
  else Ret s.

(** ** Test list files *)

Definition is_ignored (c : ascii) : bool := char_eqb c " "%char || char_eqb c (char_of 9).
Definition is_terminator (c : ascii) : bool := char_eqb c "#"%char || char_eqb c ":"%char.

Inductive line_type := LT_VALID_TEST | LT_TEST_NOT_FOUND | LT_SYNTAX_ERROR | LT_EMPTY.

(** The loop that cuts a line into tokens, [None] on a syntax error. *)
Fixpoint tokenize (fuel : nat) (line : str) : option (list str) :=
  match fuel with
  | O => None
  | S fuel =>
      let '(tok, rest) := span (fun c => negb (is_terminator c) && negb (is_ignored c)) line in
      match (span is_ignored rest).2 with
      | [] => Some [tok]
      | c :: rest =>
          if negb (is_terminator c) then None
          else if char_eqb c "#"%char then Some [tok]
          else cons tok <$> tokenize fuel rest
      end
  end.

(** strcasecmp(): ASCII letters without their case. *)
Definition lower (c : ascii) : ascii :=
  if (65 <=? code c) && (code c <=? 90) then char_of (code c + 32) else c.

Definition parse_test_list_line (s : SandstoneTestSet) (line : str) : outcome (line_type * test_cfg_info) :=
  let ti := cfg_of None in
  let line := (span is_ignored line).2 in
  match line with
  | [] => Ret (LT_EMPTY, ti)
  | c :: _ =>
      if char_eqb c "#"%char then Ret (LT_EMPTY, ti)
      else match tokenize (S (length line)) line with
      | None => Ret (LT_SYNTAX_ERROR, ti)
      | Some tokens =>
          if (2 <? length tokens)%nat then Ret (LT_SYNTAX_ERROR, ti)
          else match lookup_tests s (default [] (head tokens)) with
          | [] => Ret (LT_TEST_NOT_FOUND, ti)
          | [t] =>
              duration ← match tokens with
                         | [_; d] => if negb (length d =? 0)%nat && negb (str_eqb (map lower d) (L "default"))
                                     then string_to_millisecs d else Ret 0
                         | _ => Ret 0
                         end;
              Ret (LT_VALID_TEST, {| ti_test := Some t; ti_status := not_found; ti_duration := duration |})
          | _ => Ret (LT_SYNTAX_ERROR, ti)
          end
      end
  end.

(** The error messages, of which only the kind and the line are kept. *)
Inductive list_error := SyntaxError (lineno : Z) (line : str) | UnknownTest (line : str).

Definition load_line (s : SandstoneTestSet) (st : list test_cfg_info * list list_error * Z) (line : str)
  : outcome (list test_cfg_info * list list_error * Z) :=
  let '(res, errors, lineno) := st in
  r ← parse_test_list_line s line;
  let '(res, errors) :=
    match r.1 with
    | LT_VALID_TEST => (res ++ [r.2], errors)
    | LT_SYNTAX_ERROR => (res, errors ++ [SyntaxError lineno line])
    | LT_EMPTY => (res, errors)
    | LT_TEST_NOT_FOUND => if ignore_unknown_tests cfg then (res, errors) else (res, errors ++ [UnknownTest line])
    end in
  Ret (res, errors, lineno + 1).

(** load_test_list(): errors of this file discard its entries. *)
Definition load_test_list (s : SandstoneTestSet) (lines : list str) : outcome (list test_cfg_info * list list_error) :=
  st ← fold_outcome (load_line s) lines ([], [], 1);
  let '(res, errors, _) := (st : list test_cfg_info * list list_error * Z) in
  Ret (match errors with [] => (res, []) | _ => ([], errors) end).

(** add_test_list(): [errors] is the caller's vector, which may hold the
    errors of earlier lists. *)
Definition add_test_list (lines : list str) (errors : list list_error) (s : SandstoneTestSet)
  : outcome (SandstoneTestSet * list test_cfg_info * list list_error) :=
  r ← load_test_list s lines;
  let '(entries, added) := r in
  match errors ++ added with
  | [] => Ret (set_test_set (test_set s ++ entries) s, entries, [])
  | errors => Ret (s, [], errors)
  end.

(** add_builtin_test_list(): [builtin] is what get_builtin_test_set()
    returns for the name. *)
Definition add_builtin_test_list (builtin : option (list nat)) (s : SandstoneTestSet)
  : SandstoneTestSet * list test_cfg_info * bool :=
  match builtin with
  | None => (s, [], false)
  | Some ts =>
      let '(s, res) := foldl (fun st t =>
        let '(s, ti) := add_info (cfg_of (Some t)) st.1 in
        (set_test_set (test_set s ++ [cfg_of (Some t)]) s, st.2 ++ [ti])) (s, []) ts in
      (s, res, true)
  end.
End TestSet.

(** * Adding and removing *)

Section Facts.
Context (tests : list test_def) (regular_tests selftests : list nat) (mce_test : nat).
Context (cfg : test_set_cfg) (requested_quality : Z) (fnmatch : str -> str -> bool).
Local Abbreviation lookup_tests := (lookup_tests tests requested_quality fnmatch).
Local Abbreviation add_name := (add_name tests requested_quality fnmatch).
Local Abbreviation remove_name := (remove_name tests requested_quality fnmatch).
Local Abbreviation parse_line := (parse_test_list_line tests requested_quality fnmatch).

Definition enabled_info (t : nat) : test_cfg_info := {| ti_test := Some t; ti_status := enabled; ti_duration := 0 |}.

Lemma add_all_spec ts : forall s acc,
  foldl (fun st t => let '(s, ti) := add_info (cfg_of (Some t)) st.1 in (s, st.2 ++ [ti])) (s, acc) ts =
  (set_test_set (test_set s ++ map enabled_info ts) s, acc ++ map enabled_info ts).
Proof using Type.
  induction ts as [|t ts IH]; intros s acc; simpl.
  - rewrite !app_nil_r. by destruct s.
  - rewrite IH. simpl. by rewrite <- !app_assoc.
Qed.

Lemma remove_all_spec ts : forall s n,
  foldl (fun st t => let '(s, k) := remove_test t st.1 in (s, st.2 + k)) (s, n) ts =
  (set_test_set (filter (fun ti => ti_test ti ∉ map Some ts) (test_set s)) s,
   n + (len (test_set s) - len (filter (fun ti => ti_test ti ∉ map Some ts) (test_set s)))).
Proof using Type.
  induction ts as [|t ts IH]; intros s n; cbn [foldl map].
  - assert (filter (fun ti => ti_test ti ∉ ([] : list (option nat))) (test_set s) = test_set s) as ->.
    { apply filter_all, Forall_forall. intros x _. apply not_elem_of_nil. }
    destruct s. unfold set_test_set. simpl. do 2 f_equal. lia.
  - cbn [fst snd]. destruct (remove_test t s) as [s1 k] eqn:E. rewrite IH.
    unfold remove_test in E. simplify_eq. cbn [set_test_set test_set all_tests all_group_map].
    rewrite list_filter_filter.
    assert (filter (fun ti => ti_test ti ∉ map Some ts /\ ti_test ti <> Some t) (test_set s) =
      filter (fun ti => ti_test ti ∉ Some t :: map Some ts) (test_set s)) as Hf.
    { apply list_filter_iff. intros x. rewrite not_elem_of_cons. tauto. }
    rewrite Hf. unfold set_test_set. simpl. f_equal. lia.
Qed.

Lemma remove_name_spec name s :
  let ts := lookup_tests s name in
  remove_name name s =
  (set_test_set (filter (fun ti => ti_test ti ∉ map Some ts) (test_set s)) s,
   if decide (ts = []) then -1 else len (test_set s) - len (filter (fun ti => ti_test ti ∉ map Some ts) (test_set s))).
Proof using Type.
  cbv zeta. unfold TestSet.remove_name. pose proof (remove_all_spec (lookup_tests s name) s 0) as H.
  rewrite Z.add_0_l in H. destruct (lookup_tests s name) as [|t ts]; [|by rewrite H].
  cbn [foldl map] in *. rewrite decide_True by done. apply (f_equal fst) in H. cbn [fst] in H. f_equal. exact H.
Qed.

(** Enabling and disabling by name: --enable appends the tests that the
    name, pattern or group stands for, enabled and in their order, and returns
    them; --disable takes every entry of those tests out of the list, keeps
    the others in their order, and returns how many it took, or -1 when the
    name stands for nothing. *)
Theorem add_remove_spec (name : str) (s : SandstoneTestSet) :
  let ts := lookup_tests s name in
  add_name name s = (set_test_set (test_set s ++ map enabled_info ts) s, map enabled_info ts) /\
  (remove_name name s).1 = set_test_set (filter (fun ti => ti_test ti ∉ map Some ts) (test_set s)) s /\
  ((remove_name name s).2 = -1 <-> ts = []) /\
  (ts <> [] -> (remove_name name s).2 = len (test_set s) - len (test_set (remove_name name s).1)) /\
  (forall t, t ∈ ts -> contains t (add_name name s).1 = true /\ contains t (remove_name name s).1 = false).
Proof using Type.
  cbv zeta. rewrite remove_name_spec. unfold TestSet.add_name. rewrite add_all_spec. simpl.
  set (ts := lookup_tests s name). split; [done|]. split; [done|].
  assert (len (filter (fun ti => ti_test ti ∉ map Some ts) (test_set s)) <= len (test_set s)) as Hle.
  { unfold len. pose proof (length_filter (fun ti => ti_test ti ∉ map Some ts) (test_set s)). lia. }
  split; [case_decide; split; try done; lia|]. split; [intros; by rewrite decide_False|].
  intros t Ht. unfold contains. simpl. split.
  - apply existsb_exists. exists (enabled_info t). split; [|by rewrite bool_decide_true].
    apply list_elem_of_In. apply elem_of_app. right. by apply list_elem_of_fmap_2.
  - apply not_true_is_false. intros H. apply existsb_exists in H as (ti & Hin & Heq%bool_decide_eq_true).
    apply list_elem_of_In, list_elem_of_filter in Hin as [Hn _]. apply Hn. rewrite Heq. by apply list_elem_of_fmap_2.
Qed.

(** ** Test list files *)

(** The characters of a test name or a duration. *)
Definition plain (tok : str) : Prop := Forall (fun c => is_terminator c = false /\ is_ignored c = false) tok.

Lemma plain_span tok rest : plain tok ->
  match rest with [] => True | c :: _ => is_terminator c = true \/ is_ignored c = true end ->
  span (fun c => negb (is_terminator c) && negb (is_ignored c)) (tok ++ rest) = (tok, rest).
Proof using Type.
  intros Hp Hr. apply span_all.
  - eapply Forall_impl; [exact Hp|]. simpl. by intros c [-> ->].
  - destruct rest as [|c r]; [done|]. destruct Hr as [-> | ->]; [done|]. apply andb_false_r.
Qed.

Lemma plain_head c tok : plain (c :: tok) -> is_ignored c = false /\ char_eqb c "#"%char = false.
Proof using Type.
  intros [[Ht Hi] _]%Forall_cons. split; [done|]. unfold is_terminator in Ht.
  apply orb_false_elim in Ht as [Hh _]. exact Hh.
Qed.

Lemma tokenize_pair fuel name dur : (1 < fuel)%nat -> plain name -> plain dur ->
  tokenize fuel (name ++ ":"%char :: dur) = Some [name; dur].
Proof using Type.
  intros Hf Hn Hd. destruct fuel as [|[|fuel]]; [lia..|]. cbn [tokenize].
  rewrite (plain_span name (":"%char :: dur) Hn) by by left.
  cbn [span]. change (is_ignored ":"%char) with false. cbn [snd]. change (negb (is_terminator ":"%char)) with false.
  change (char_eqb ":"%char "#"%char) with false. cbn [tokenize].
  rewrite <- (app_nil_r dur) at 1. rewrite (plain_span dur [] Hd) by done. done.
Qed.

Lemma tokenize_single fuel name : (0 < fuel)%nat -> plain name -> tokenize fuel name = Some [name].
Proof using Type.
  intros Hf Hn. destruct fuel as [|fuel]; [lia|]. cbn [tokenize].
  rewrite <- (app_nil_r name) at 1. by rewrite (plain_span name [] Hn).
Qed.

(** The lines of a test list: a test's name alone enables it for its
    default time; a name, a colon and a duration enable it for that duration,
    "default" in any case standing for the default time; a name that stands
    for no test is reported as unknown and one that stands for several is
    refused; a comment is empty. *)
Theorem test_list_line_spec (s : SandstoneTestSet) (name dur : str) :
  plain name -> name <> [] -> plain dur ->
  parse_line s name =
    match lookup_tests s name with
    | [] => Ret (LT_TEST_NOT_FOUND, cfg_of None)
    | [t] => Ret (LT_VALID_TEST, cfg_of (Some t))
    | _ => Ret (LT_SYNTAX_ERROR, cfg_of None)
    end /\
  parse_line s (name ++ ":"%char :: dur) =
    match lookup_tests s name with
    | [] => Ret (LT_TEST_NOT_FOUND, cfg_of None)
    | [t] => d ← (if decide (dur = [] \/ map lower dur = L "default") then Ret 0 else string_to_millisecs dur);
             Ret (LT_VALID_TEST, {| ti_test := Some t; ti_status := not_found; ti_duration := d |})
    | _ => Ret (LT_SYNTAX_ERROR, cfg_of None)
    end /\
  parse_line s ("#"%char :: name) = Ret (LT_EMPTY, cfg_of None).
Proof using Type.
  intros Hn Hne Hd. destruct name as [|c name]; [done|]. destruct (plain_head c name Hn) as [Hi Hh].
  unfold parse_test_list_line. split; [|split].
  - cbn [span]. rewrite Hi. cbn [snd]. rewrite Hh, tokenize_single by (done || lia). simpl.
    by destruct (lookup_tests s (c :: name)) as [|t [|t' ts]].
  - rewrite <- app_comm_cons. cbn [span]. rewrite Hi. cbn [snd]. rewrite Hh, app_comm_cons.
    rewrite tokenize_pair by (done || simpl; lia). cbn [length Nat.ltb Nat.leb head].
    change (default [] (Some (c :: name))) with (c :: name).
    destruct (lookup_tests s (c :: name)) as [|t [|t' ts]]; [done| |done]. unfold str_eqb.
    case_decide as Hdec.
    + destruct (Nat.eqb_spec (length dur) 0) as [E|E]; [done|].
      rewrite bool_decide_true; [done|]. destruct Hdec as [->|]; done.
    + destruct (Nat.eqb_spec (length dur) 0) as [E|E]; [apply nil_length_inv in E; tauto|].
      rewrite bool_decide_false by tauto. done.
  - done.
Qed.
End Facts.

(** ** Loading a list is all or nothing *)

Section ListFacts.
Context (tests : list test_def) (cfg : test_set_cfg) (requested_quality : Z) (fnmatch : str -> str -> bool).
Context (s : SandstoneTestSet).
Local Abbreviation parse_line := (parse_test_list_line tests requested_quality fnmatch s).

(** The entry of a line, and whether it is an error. *)
Definition line_entry (line : str) : list test_cfg_info :=
  match parse_line line with Ret (LT_VALID_TEST, ti) => [ti] | _ => [] end.
Definition line_bad (line : str) : bool :=
  match parse_line line with
  | Ret (LT_SYNTAX_ERROR, _) => true
  | Ret (LT_TEST_NOT_FOUND, _) => negb (ignore_unknown_tests cfg)
  | _ => false
  end.

Lemma load_lines_spec lines : forall res errors n st,
  fold_outcome (load_line tests cfg requested_quality fnmatch s) lines (res, errors, n) = Ret st ->
  st.1.1 = res ++ flat_map line_entry lines /\
  (st.1.2 = [] <-> errors = [] /\ existsb line_bad lines = false).
Proof using Type.
  induction lines as [|line lines IH]; intros res errors n st H; simpl in *.
  - simplify_eq. simpl. rewrite app_nil_r. tauto.
  - remember (line_entry line) as le eqn:Hle. remember (line_bad line) as lb eqn:Hlb.
    unfold line_entry in Hle. unfold line_bad in Hlb.
    destruct (parse_line line) as [[k ti]|e|]; [|done|done].
    cbn [mbind outcome_bind fst snd] in H.
    assert (forall e', errors ++ [e'] = [] <-> False) as Happ by (intros e'; split; [by destruct errors|done]).
    destruct k; simpl in Hle, Hlb, H; subst le; [| |subst lb..].
    + subst lb. apply IH in H as [-> ->]. by rewrite <- app_assoc.
    + destruct (ignore_unknown_tests cfg); subst lb; apply IH in H as [-> ->]; simpl; [done|].
      rewrite Happ. split; [done|]. split; by intros [? ?].
    + apply IH in H as [-> ->]. rewrite Happ. split; [done|]. split; by intros [? ?].
    + by apply IH in H as [-> ->].
Qed.

(** Loading a test list is all or nothing: when no line is malformed or
    names an unknown test, and no earlier list had errors, the entries of all
    lines are appended to the set in the order of the file; otherwise errors
    are reported and the set does not change. *)
Theorem add_test_list_atomic (lines : list str) (s' : SandstoneTestSet) (entries : list test_cfg_info)
    (before errors : list list_error) :
  add_test_list tests cfg requested_quality fnmatch lines before s = Ret (s', entries, errors) ->
  if existsb line_bad lines || negb (bool_decide (before = [])) then errors <> [] /\ s' = s /\ entries = []
  else errors = [] /\ entries = flat_map line_entry lines /\ s' = set_test_set (test_set s ++ entries) s.
Proof using Type.
  unfold add_test_list, load_test_list. intros H.
  destruct (fold_outcome _ lines _) as [[[res errs] n]|e|] eqn:E; [|done|done].
  apply load_lines_spec in E as [Hres Herr]. simpl in *. subst res.
  destruct (existsb line_bad lines) eqn:Hbad.
  - destruct errs as [|err errs]; [by destruct (proj1 Herr eq_refl)|].
    destruct before; simpl in H; simplify_eq; done.
  - assert (errs = []) as -> by by apply Herr. simpl in H. rewrite app_nil_r in H.
    destruct before; simpl in H; simplify_eq; done.
Qed.
End ListFacts.

(** * Concrete sets *)

(** A catalogue of four tests, the last of which is mce_check. *)
Definition ex_tests : list test_def :=
  [ {| t_id := L "eigen_svd"; t_groups := [L "math"]; t_quality := 1 |};
    {| t_id := L "zlib"; t_groups := [L "compression"]; t_quality := 1 |};
    {| t_id := L "zstd"; t_groups := [L "compression"]; t_quality := 0 |};
    {| t_id := L "mce_check"; t_groups := []; t_quality := 1 |} ].
Definition ex_cfg : test_set_cfg := {| ignore_unknown_tests := false; randomize := true; is_selftest := false |}.
Definition ex_set (enable_all : bool) : SandstoneTestSet :=
  make_test_set ex_tests [0; 1; 2]%nat [] 3 ex_cfg 1 false enable_all.
Definition no_glob (_ _ : str) : bool := false.

Lemma plain_dec tok : forallb (fun c => negb (is_terminator c) && negb (is_ignored c)) tok = true -> plain tok.
Proof.
  intros H. apply Forall_forall. intros c Hc. rewrite forallb_forall in H.
  specialize (H c (proj1 (list_elem_of_In _ _) Hc)). apply andb_true_iff in H as [H1 H2].
  by apply negb_true_iff in H1, H2.
Qed.

Lemma add_remove_spec_witness :
  add_name ex_tests 1 no_glob (L "@compression") (ex_set false) =
    (set_test_set (map enabled_info [1; 2]%nat) (ex_set false), map enabled_info [1; 2]%nat) /\
  contains 1 (add_name ex_tests 1 no_glob (L "@compression") (ex_set false)).1 = true.
Proof.
  split.
  - exact (proj1 (add_remove_spec ex_tests 1 no_glob (L "@compression") (ex_set false))).
  - apply (add_remove_spec ex_tests 1 no_glob (L "@compression") (ex_set false)).
    apply list_elem_of_In. vm_compute. tauto.
Defined.

Lemma test_list_line_spec_witness :
  parse_test_list_line ex_tests 1 no_glob (ex_set false) (L "zlib:2s") =
  Ret (LT_VALID_TEST, {| ti_test := Some 1%nat; ti_status := not_found; ti_duration := 2000 |}).
Proof.
  refine (eq_trans (proj1 (proj2 (test_list_line_spec ex_tests 1 no_glob (ex_set false) (L "zlib") (L "2s") _ _ _))) _).
  - by apply plain_dec.
  - done.
  - by apply plain_dec.
  - vm_compute. reflexivity.
Defined.

Lemma add_test_list_atomic_witness :
  let lines := [L "# the list"; L "zlib"; L "nonexistent"; L "eigen_svd:default"] in
  exists errors, add_test_list ex_tests ex_cfg 1 no_glob lines [] (ex_set false) = Ret (ex_set false, [], errors) /\
  errors <> [].
Proof.
  eexists. split; [vm_compute; reflexivity|].
  refine (proj1 (add_test_list_atomic ex_tests ex_cfg 1 no_glob (ex_set false)
    [L "# the list"; L "zlib"; L "nonexistent"; L "eigen_svd:default"] (ex_set false) [] [] _ _)).
  vm_compute. reflexivity.
Defined.

(** The constructor's list of all tests holds them as not found: the entry
    marked as enabled is built and left unused. *)
Example enable_all_not_enabled :
  test_set (ex_set true) = [cfg_of (Some 0%nat); cfg_of (Some 1%nat)].
Proof. reflexivity. Qed.

(** A built-in list adds each of its tests twice. *)
Example builtin_list_twice :
  test_set (add_builtin_test_list (Some [1; 0]%nat) (ex_set false)).1.1 =
  [enabled_info 1; cfg_of (Some 1%nat); enabled_info 0; cfg_of (Some 0%nat)].
Proof. reflexivity. Qed.

(** A space after the colon is a syntax error, one before it is not. *)
Example space_after_colon :
  parse_test_list_line ex_tests 1 no_glob (ex_set false) (L "zlib: 2s") = Ret (LT_SYNTAX_ERROR, cfg_of None) /\
  (exists ti, parse_test_list_line ex_tests 1 no_glob (ex_set false) (L "zlib :2s") = Ret (LT_VALID_TEST, ti)).
Proof. split; [reflexivity|]. eexists. reflexivity. Qed.

(** Shuffling an empty set reads the element before its end. *)
Example begin_empty : begin_ 3 ex_cfg (@rev _) (ex_set false) = Ub.
Proof. reflexivity. Qed.
