(* ===== verification/Children.v ===== *)
(** The child processes of one run of a test (src/framework/sandstone.cpp):
    starting them (call_forkfd(), run_one_test_children()), waiting for them
    (wait_for_children()) with the time limits, the signals and the escalation
    when a child does not exit, and the program that a child executes
    (exec_mode_run()). The Unix version. *)

From S2P Require Import Prelude CStdlib Results ThreadData Logging Timing SlicePlan.

(** * The list of children *)

Record StartedChild := { pid : Z; child_fd : Z }.

Definition FFD_CHILD_PROCESS : Z := -2.
Definition POLLIN : Z := 1.

Record pollfd := { fd : Z; events : Z }.

Record ChildrenList := {
  pollfds : list pollfd;
  handles : list Z;
  results : list ChildExitStatus;
}.

Definition no_children : ChildrenList := {| pollfds := []; handles := []; results := [] |}.

Definition add (child : StartedChild) (c : ChildrenList) : ChildrenList :=
  {| pollfds := pollfds c ++ [{| fd := child_fd child; events := POLLIN |}];
     handles := handles c ++ [pid child];
     results := results c |}.

(** * Waiting for the children *)

(** What forkfd_wait4() reports of a child: its end, EAGAIN, another error. *)
Inductive WaitResult := WaitDone (info : forkfd_info) (u : rusage) | WaitAgain | WaitError.

(** What poll() reports: a timeout, an error, a signal with what last_signal()
    returns, or events: the time read after it, whether the debug socket is
    readable, and for the children with events what forkfd_wait4() answers. *)
Inductive PollResult :=
| PollTimeout
| PollError
| PollSignal (signal count : Z)
| PollReady (now : Z) (debug : bool) (ready : nat -> option WaitResult).

(** The calls that act on the children, in their order. *)
Inductive action :=
| Poll (timeout : Z)
| Kill (target sig : Z)
| Reaped (child : Z)
| DebugCrashed (children : list Z)
| DebugHung (child : Z).

Record WaitState := {
  kids : ChildrenList;
  children_left : Z;
  caughtSignal : Z;
  trace : list action;
  shm : Shm;
}.

Definition set_kids (k : ChildrenList) (s : WaitState) : WaitState :=
  {| kids := k; children_left := children_left s; caughtSignal := caughtSignal s; trace := trace s; shm := shm s |}.
Definition set_caught (sig : Z) (s : WaitState) : WaitState :=
  {| kids := kids s; children_left := children_left s; caughtSignal := sig; trace := trace s; shm := shm s |}.
Definition set_shm (m : Shm) (s : WaitState) : WaitState :=
  {| kids := kids s; children_left := children_left s; caughtSignal := caughtSignal s; trace := trace s; shm := m |}.
Definition act (a : list action) (s : WaitState) : WaitState :=
  {| kids := kids s; children_left := children_left s; caughtSignal := caughtSignal s; trace := trace s ++ a;
     shm := shm s |}.

(** kill_children() *)
Definition kill_children (sig : Z) (s : WaitState) : WaitState :=
  act (map (fun child => Kill (- child) sig) (filter (fun child => child <> 0) (handles (kids s)))) s.

(** One child in the loop of single_wait(); poll() reports no events for a
    negative descriptor. *)
Definition reap_child (now : Z) (ready : nat -> option WaitResult) (s : WaitState) (i : nat) : outcome WaitState :=
  let c := kids s in
  p ← of_option (pollfds c !! i);
  match (if fd p <? 0 then None else ready i) with
  | None | Some WaitAgain => Ret s
  | Some WaitError => Exit EX_OSERR
  | Some (WaitDone info u) =>
      child ← of_option (handles c !! i);
      r ← test_result_from_exit_code info;
      let r := {| result := result r; extra := extra r; endtime := now; usage := u |} in
      Ret {| kids := {| pollfds := <[i := {| fd := -1; events := 0 |}]> (pollfds c);
                        handles := <[i := 0]> (handles c);
                        results := <[i := r]> (results c) |};
             children_left := children_left s - 1;
             caughtSignal := caughtSignal s;
             trace := trace s ++ [Reaped child];
             shm := shm s |}
  end.

(** single_wait(): what it returns, 0 or the signal to end with. *)
Definition single_wait (timeout : Z) (ev : PollResult) (s : WaitState) : outcome (Z * WaitState) :=
  let s := act [Poll (i32 timeout)] s in
  match ev with
  | PollTimeout => Ret (0, s)
  | PollError => Exit EX_OSERR
  | PollSignal signal count =>
      let s := if negb (signal =? 0) then kill_children signal s else s in
      if (count =? 1) && (signal =? SIGINT) then Ret (0, set_caught signal s)
      else Ret (signal, s)
  | PollReady now debug ready =>
      let s := if debug then act [DebugCrashed (handles (kids s))] s else s in
      s ← fold_outcome (reap_child now ready) (seq 0 (length (pollfds (kids s)) - 1)) s;
      Ret (caughtSignal s, s)
  end.

Definition ceil_ms (ns : Z) : Z := (ns + 999999) / 1000000.

Section Wait.
Context (cfg : LogCfg).
(** The clock's readings, in nanoseconds, and the results of poll(), in
    their order. *)
Context (clock : nat -> Z) (poll : nat -> PollResult).

(** The body of wait_for_all_children() after a signal: the process ends by
    the signal that the exit code has in its low bits. *)
Definition interrupted (k : nat) (ret : Z) (s : WaitState) : outcome (nat * WaitState) :=
  let rs := map (fun _ => exit_status_of Interrupted) (results (kids s)) in
  _ ← logging_print_results cfg (clock k) rs (shm s);
  Exit (Z.lor 128 ret).

(** The loop of wait_for_all_children(), [k] being the index of the last
    reading of the clock; [None] when the fuel runs out. It returns the index
    of the next reading. *)
Fixpoint wait_loop (fuel : nat) (deadline : Z) (k : nat) (s : WaitState) : option (outcome (nat * WaitState)) :=
  let remaining := deadline - clock k in
  if (children_left s =? 0) || (remaining <=? 0) then Some (Ret (S k, s))
  else match fuel with
  | O => None
  | S fuel =>
      match single_wait (ceil_ms remaining) (poll k) s with
      | Ret (ret, s) => if ret =? 0 then wait_loop fuel deadline (S k) s else Some (interrupted k ret s)
      | Exit code => Some (Exit code)
      | Ub => Some Ub
      end
  end.

Definition wait_for_all_children (fuel : nat) (remaining : Z) (k : nat) (s : WaitState)
  : option (outcome (nat * WaitState)) :=
  wait_loop fuel (clock k + remaining) k s.

(** terminate_children() *)
Definition report_stuck (k : nat) (s : WaitState) (i : nat) : outcome WaitState :=
  child ← of_option (handles (kids s) !! i);
  r ← of_option (results (kids s) !! i);
  if endtime r =? 0 then
    m ← log_message cfg (clock k) (- Z.of_nat i - 1)
          (L "E> Child " ++ to_string child ++ L " did not exit, sending signal SIGQUIT") (shm s);
    Ret (set_shm m (act [DebugHung child] s))
  else Ret s.

Definition terminate_children (k : nat) (s : WaitState) : outcome WaitState :=
  s ← fold_outcome (report_stuck k) (seq 0 (length (handles (kids s)))) s;
  Ret (kill_children SIGQUIT s).

(** The last loop of wait_for_children(). *)
Definition give_up_on (k : nat) (s : WaitState) (i : nat) : outcome WaitState :=
  child ← of_option (handles (kids s) !! i);
  if child =? 0 then Ret s
  else
    m ← log_platform_message cfg (clock k) (L "E> # Child " ++ to_string child ++ L " is hung and won't exit") (shm s);
    let c := kids s in
    Ret (set_shm m (set_kids {| pollfds := pollfds c; handles := handles c;
                                results := <[i := exit_status_of TimedOut]> (results c) |} s)).

(** Sequencing of a step that may run out of fuel. *)
Definition and_then {A B} (m : option (outcome A)) (f : A -> option (outcome B)) : option (outcome B) :=
  match m with
  | Some (Ret a) => f a
  | Some (Exit c) => Some (Exit c)
  | Some Ub => Some Ub
  | None => None
  end.

Definition ns_of_ms (ms : Z) : Z := ms * 1000000.
Definition grace : Z := ns_of_ms 20000.

(** vector::resize() *)
Definition resize {A} (n : nat) (x : A) (l : list A) : list A := take n l ++ replicate (n - length l) x.

Definition pop_debug_socket (c : ChildrenList) : ChildrenList :=
  {| pollfds := take (length (pollfds c) - 1) (pollfds c); handles := handles c; results := results c |}.

(** wait_for_children(): [remaining] is test_timeout() in milliseconds, and
    a new ChildExitStatus has the result Passed. *)
Definition wait_for_children (fuel : nat) (remaining : Z) (server_debug_socket : Z) (c : ChildrenList) (m : Shm)
  : option (outcome (nat * WaitState)) :=
  let n := length (handles c) in
  let s := {| kids := {| pollfds := pollfds c ++ [{| fd := server_debug_socket; events := POLLIN |}];
                         handles := handles c;
                         results := resize n (exit_status_of Passed) (results c) |};
              children_left := Z.of_nat n; caughtSignal := 0; trace := []; shm := m |} in
  let finish k s := Some (Ret (k, set_kids (pop_debug_socket (kids s)) s)) in
  and_then (wait_for_all_children fuel (ns_of_ms remaining) 0 s) (fun '(k, s) =>
  if children_left s =? 0 then finish k s
  else and_then (Some (terminate_children k s)) (fun s =>
  and_then (wait_for_all_children fuel grace (S k) s) (fun '(k, s) =>
  and_then (if negb (children_left s =? 0)
            then wait_for_all_children fuel grace k (kill_children SIGKILL s)
            else Some (Ret (k, s))) (fun '(k, s) =>
  if negb (children_left s =? 0)
  then and_then (Some (fold_outcome (give_up_on k) (seq 0 (length (handles (kids s)))) s)) (fun s => finish k s)
  else finish k s)))).
End Wait.

(** * The signals *)

(** No signal goes to a process group after its leader was waited for: the
    number may belong to another process by then. *)
Definition safe (tr : list action) : Prop :=
  forall i j p sig, tr !! i = Some (Reaped p) -> tr !! j = Some (Kill (- p) sig) -> (j < i)%nat.

Lemma safe_app tr l : safe tr -> safe l ->
  (forall p sig, Kill (- p) sig ∈ l -> Reaped p ∉ tr) -> safe (tr ++ l).
Proof.
  intros Ht Hl Hx i j p sig [Hi|[Hi1 Hi2]]%lookup_app_Some [Hj|[Hj1 Hj2]]%lookup_app_Some.
  - eauto.
  - exfalso. eapply Hx; [by eapply list_elem_of_lookup_2|by eapply list_elem_of_lookup_2].
  - apply lookup_lt_Some in Hj. lia.
  - specialize (Hl _ _ _ _ Hi2 Hj2). lia.
Qed.

Lemma safe_quiet l : (forall p, Reaped p ∉ l) -> safe l.
Proof. intros H i j p sig Hi. by apply list_elem_of_lookup_2, H in Hi. Qed.

Lemma safe_no_kill l : (forall p sig, Kill p sig ∉ l) -> safe l.
Proof. intros H i j p sig _ Hj. by apply list_elem_of_lookup_2, H in Hj. Qed.

(** Taking one live entry out of the handles. *)
Lemma live_insert (l : list Z) i h : l !! i = Some h -> h <> 0 ->
  len (filter (fun c => c <> 0) (<[i := 0]> l)) = len (filter (fun c => c <> 0) l) - 1.
Proof.
  unfold len. revert i. induction l as [|x l IH]; intros [|i] Hi Hh; simplify_eq/=.
  - rewrite filter_cons_False, filter_cons_True by naive_solver. simpl. lia.
  - rewrite !filter_cons. specialize (IH i Hi Hh). case_decide; simpl; lia.
Qed.

Section WaitFacts.
Context (cfg : LogCfg) (clock : nat -> Z) (poll : nat -> PollResult).
(** The children's process numbers. *)
Context (h0 : list Z).

(** A result that the kernel reported for the i-th child. *)
Definition reported (i : nat) (r : ChildExitStatus) : Prop :=
  exists k now debug ready info u r0,
    poll k = PollReady now debug ready /\ ready i = Some (WaitDone info u) /\
    test_result_from_exit_code info = Ret r0 /\
    r = {| result := result r0; extra := extra r0; endtime := now; usage := u |}.

Definition waiting (s : WaitState) (i : nat) (h : Z) : Prop :=
  handles (kids s) !! i = Some h /\ (exists p, pollfds (kids s) !! i = Some p /\ 0 <= fd p) /\
  results (kids s) !! i = Some (exit_status_of Passed) /\ Reaped h ∉ trace s.

Definition ended (s : WaitState) (i : nat) : Prop :=
  handles (kids s) !! i = Some 0 /\ (exists p, pollfds (kids s) !! i = Some p /\ fd p < 0) /\
  exists r, results (kids s) !! i = Some r /\ reported i r.

Record wait_inv (s : WaitState) : Prop := {
  wi_handles : length (handles (kids s)) = length h0;
  wi_results : length (results (kids s)) = length h0;
  wi_pollfds : length (pollfds (kids s)) = S (length h0);
  wi_child : forall i h, h0 !! i = Some h -> waiting s i h \/ ended s i;
  wi_left : children_left s = len (filter (fun c => c <> 0) (handles (kids s)));
  wi_safe : safe (trace s);
}.

(** Later states: the trace grows, and no child comes back. *)
Definition later (s s' : WaitState) : Prop :=
  trace s `prefix_of` trace s' /\
  forall i h, handles (kids s') !! i = Some h -> h <> 0 -> handles (kids s) !! i = Some h.

#[local] Instance later_preorder : PreOrder later.
Proof using Type.
  split.
  - intros s. split; [done|auto].
  - intros s1 s2 s3 [Ht Hh] [Ht' Hh']. split; [by etrans|eauto].
Qed.

Definition good (s s' : WaitState) : Prop := wait_inv s -> wait_inv s' /\ later s s'.

Lemma good_refl s : good s s.
Proof using Type. by intros. Qed.
Lemma good_trans s1 s2 s3 : good s1 s2 -> good s2 s3 -> good s1 s3.
Proof using Type.
  intros H1 H2 H. destruct (H1 H) as [H' L1]. destruct (H2 H') as [H'' L2]. split; [done|by etrans].
Qed.

(** A step that only appends to the trace. *)
Lemma good_act l s : (forall p, Reaped p ∉ l) ->
  (forall p sig, Kill (- p) sig ∈ l -> p ∈ handles (kids s) /\ p <> 0) -> good s (act l s).
Proof using Type.
  intros Hr Hk [Hh Hres Hp Hc Hl Hs]. split; [|split; [by exists l|done]].
  assert (forall p, Reaped p ∈ trace (act l s) <-> Reaped p ∈ trace s) as Htr.
  { intros p. simpl. rewrite elem_of_app. specialize (Hr p). tauto. }
  split; try done.
  - intros i h Hi. unfold waiting. rewrite Htr. by apply Hc.
  - apply safe_app; [done|by apply safe_quiet|]. intros p sig Hin.
    destruct (Hk p sig Hin) as [Hin' Hp0]. apply list_elem_of_lookup in Hin' as [i Hi].
    destruct (lookup_lt_is_Some_2 h0 i) as [h Hhi]; [rewrite <- Hh; by eapply lookup_lt_Some|].
    destruct (Hc i h Hhi) as [(Hw & _ & _ & Hn)|(He & _)]; simplify_eq; done.
Qed.

Lemma good_kill sig s : good s (kill_children sig s).
Proof using Type.
  apply good_act.
  - intros p (c & Hc & _)%list_elem_of_fmap. done.
  - intros p sg (c & Hc & Hin)%list_elem_of_fmap. simplify_eq.
    apply list_elem_of_filter in Hin as [Hne Hin]. by replace p with c by lia.
Qed.

Lemma good_other s s' : kids s' = kids s -> children_left s' = children_left s -> trace s' = trace s -> good s s'.
Proof using Type.
  intros Hk Hl Ht [H1 H2 H3 H4 H5 H6]. split.
  - split; unfold waiting, ended in *; rewrite ?Hk, ?Hl, ?Ht; auto.
  - split; [by rewrite Ht|by rewrite Hk].
Qed.

Lemma good_fold {A} (f : WaitState -> A -> outcome WaitState) l : (forall s x s', f s x = Ret s' -> good s s') ->
  forall s s', fold_outcome f l s = Ret s' -> good s s'.
Proof using Type.
  intros Hf. induction l as [|x l IH]; intros s s' H; simpl in H; [simplify_eq; apply good_refl|].
  apply outcome_bind_ret in H as (s1 & H1 & H2). eapply good_trans; eauto.
Qed.

Section Pids.
Context (Hnd : NoDup h0) (Hnz : 0 ∉ h0).

(** Waiting for one child that has ended. *)
Lemma good_reap k now debug ready s i s' : poll k = PollReady now debug ready ->
  reap_child now ready s i = Ret s' -> good s s'.
Proof using Hnd Hnz.
  intros Hk H [Hh Hres Hp Hc Hl Hs]. unfold reap_child in H.
  apply outcome_bind_ret in H as (p & Hpi & H). destruct (pollfds (kids s) !! i) as [p'|] eqn:Hpe; simplify_eq/=.
  destruct (Z.ltb_spec (fd p) 0) as [|Hfd]; [simplify_eq; by apply good_refl|].
  destruct (ready i) as [[info u| |]|] eqn:Hr; simplify_eq; [|by apply good_refl..].
  apply outcome_bind_ret in H as (child & Hch & H). apply outcome_bind_ret in H as (r0 & Hr0 & H).
  destruct (handles (kids s) !! i) as [child'|] eqn:Hci; simplify_eq/=.
  pose proof (lookup_lt_Some _ _ _ Hci) as Hlt. rewrite Hh in Hlt.
  destruct (lookup_lt_is_Some_2 h0 i Hlt) as [h Hhi].
  destruct (Hc i h Hhi) as [(Hw & _ & _ & Hn)|(_ & (p2 & Hp2 & Hneg) & _)]; [|simplify_eq; lia].
  assert (child = h) as -> by congruence.
  assert (h <> 0) as Hh0 by (intros ->; apply Hnz; by eapply list_elem_of_lookup_2).
  split; [split; simpl|].
  - by rewrite length_insert.
  - by rewrite length_insert.
  - by rewrite length_insert.
  - intros j hj Hj. destruct (decide (j = i)) as [->|Hji].
    + right. unfold ended. simpl. rewrite !list_lookup_insert_eq by lia. split; [done|]. split; [by eexists|].
      eexists. split; [done|]. by exists k, now, debug, ready, info, u, r0.
    + destruct (Hc j hj Hj) as [(A & B & C & D)|(A & B & C)]; [left|right].
      * unfold waiting. simpl. rewrite !list_lookup_insert_ne by done. do 3 (split; [done|]).
        rewrite not_elem_of_app, list_elem_of_singleton. split; [done|]. intros E. simplify_eq.
        apply Hji. by eapply NoDup_lookup.
      * unfold ended. simpl. by rewrite !list_lookup_insert_ne.
  - rewrite Hl. symmetry. by eapply live_insert.
  - apply safe_app; [done| |].
    + apply safe_no_kill. intros q sig E%list_elem_of_singleton. done.
    + intros q sig E%list_elem_of_singleton. done.
  - split; simpl; [by eexists|]. intros j hj Hj Hne. destruct (decide (j = i)) as [->|Hji].
    + rewrite list_lookup_insert_eq in Hj by lia. by simplify_eq.
    + by rewrite list_lookup_insert_ne in Hj.
Qed.

Lemma good_single_wait timeout k s ret s' : single_wait timeout (poll k) s = Ret (ret, s') -> good s s'.
Proof using Hnd Hnz.
  unfold single_wait. intros H.
  apply (good_trans _ (act [Poll (i32 timeout)] s)).
  { apply good_act; [by intros p E%list_elem_of_singleton|by intros p sig E%list_elem_of_singleton]. }
  revert H. generalize (act [Poll (i32 timeout)] s). clear s. intros s H.
  destruct (poll k) as [| |signal count|now debug ready] eqn:Ek; simplify_eq/=; [apply good_refl| |].
  - apply (good_trans _ (if negb (signal =? 0) then kill_children signal s else s)).
    { destruct (negb _); [apply good_kill|apply good_refl]. }
    destruct ((count =? 1) && (signal =? SIGINT)); simplify_eq; [by apply good_other|apply good_refl].
  - apply outcome_bind_ret in H as (s1 & H & E). simplify_eq.
    apply (good_trans _ (if debug then act [DebugCrashed (handles (kids s))] s else s)).
    { destruct debug; [|apply good_refl].
      apply good_act; [by intros p E%list_elem_of_singleton|by intros p sig E%list_elem_of_singleton]. }
    eapply good_fold; [|exact H]. intros s2 i s3 E. by eapply good_reap.
Qed.

Lemma good_wait_loop fuel deadline : forall k s k' s',
  wait_loop cfg clock poll fuel deadline k s = Some (Ret (k', s')) -> good s s'.
Proof using Hnd Hnz.
  induction fuel as [|fuel IH]; intros k s k' s' H; cbn [wait_loop] in H;
    (destruct ((children_left s =? 0) || _); [simplify_eq; apply good_refl|]); [done|].
  destruct (single_wait _ (poll k) s) as [[ret s1]| |] eqn:E; [|done|done].
  destruct (ret =? 0).
  - eapply good_trans; [by eapply good_single_wait|by eapply IH].
  - unfold interrupted in H. by destruct (logging_print_results _ _ _ _).
Qed.

Lemma good_terminate k s s' : terminate_children cfg clock k s = Ret s' ->
  good s s' /\ forall i h, handles (kids s') !! i = Some h -> h <> 0 -> Kill (- h) SIGQUIT ∈ trace s'.
Proof using Type.
  unfold terminate_children. intros (s1 & H & E)%outcome_bind_ret. simplify_eq. split.
  - eapply good_trans; [|apply good_kill]. eapply good_fold; [|exact H]. clear. intros s i s' H.
    unfold report_stuck in H. apply outcome_bind_ret in H as (c & _ & H). apply outcome_bind_ret in H as (r & _ & H).
    destruct (endtime r =? 0); [|simplify_eq; apply good_refl].
    apply outcome_bind_ret in H as (m & _ & H). simplify_eq.
    apply (good_trans _ (act [DebugHung c] s)); [|by apply good_other].
    apply good_act; [by intros p E%list_elem_of_singleton|by intros p sig E%list_elem_of_singleton].
  - simpl. intros i h Hi Hne. apply elem_of_app. right. apply list_elem_of_fmap. exists h. split; [done|].
    apply list_elem_of_filter. split; [done|by eapply list_elem_of_lookup_2].
Qed.
End Pids.
End WaitFacts.

(** The loop over the children that are left: they are timed out, the others
    keep their results. *)
Lemma give_up_all cfg clock k l : forall s s',
  fold_outcome (give_up_on cfg clock k) l s = Ret s' ->
  handles (kids s') = handles (kids s) /\ pollfds (kids s') = pollfds (kids s) /\ trace s' = trace s /\
  length (results (kids s')) = length (results (kids s)) /\
  forall i h, handles (kids s) !! i = Some h -> (i < length (results (kids s)))%nat ->
    results (kids s') !! i = if decide (h <> 0 /\ i ∈ l) then Some (exit_status_of TimedOut) else results (kids s) !! i.
Proof.
  induction l as [|j l IH]; intros s s' H; simpl in H.
  - simplify_eq. repeat split. intros i h _ _. rewrite decide_False; [done|]. by intros [_ ?%not_elem_of_nil].
  - apply outcome_bind_ret in H as (s1 & H1 & (Hh & Hp & Ht & Hl & Hr)%IH). unfold give_up_on in H1.
    apply outcome_bind_ret in H1 as (c & Hc & H1). destruct (handles (kids s) !! j) as [c'|] eqn:Hj; simplify_eq/=.
    destruct (Z.eqb_spec c 0) as [->|Hne].
    + simplify_eq. do 4 (split; [done|]). intros i h Hi Hlt. rewrite (Hr i h Hi Hlt).
      apply decide_ext. rewrite elem_of_cons. split; [tauto|]. intros [? [-> | ?]]; [congruence|done].
    + apply outcome_bind_ret in H1 as (m & _ & H1). simplify_eq/=. rewrite length_insert in *.
      do 4 (split; [done|]). intros i h Hi Hlt. rewrite (Hr i h Hi Hlt).
      destruct (decide (i = j)) as [->|Hij].
      * rewrite list_lookup_insert_eq by done. destruct (decide (h <> 0 /\ j ∈ j :: l)) as [_|Hn]; [by case_decide|].
        destruct Hn. split; [congruence|apply elem_of_cons; auto].
      * rewrite list_lookup_insert_ne by done. apply decide_ext. rewrite elem_of_cons. naive_solver.
Qed.

Lemma and_then_ret {A B} (m : option (outcome A)) (f : A -> option (outcome B)) b :
  and_then m f = Some (Ret b) -> exists a, m = Some (Ret a) /\ f a = Some (Ret b).
Proof. destruct m as [[a| |]|]; simpl; naive_solver. Qed.

Definition wait_start (sock : Z) (c : ChildrenList) (m : Shm) : WaitState :=
  let n := length (handles c) in
  {| kids := {| pollfds := pollfds c ++ [{| fd := sock; events := POLLIN |}]; handles := handles c;
                results := resize n (exit_status_of Passed) (results c) |};
     children_left := Z.of_nat n; caughtSignal := 0; trace := []; shm := m |}.

(** A new list of started children. *)
Record started (c : ChildrenList) : Prop := {
  st_nodup : NoDup (handles c);
  st_nonzero : 0 ∉ handles c;
  st_fds : Forall (fun p => 0 <= fd p) (pollfds c);
  st_same : length (pollfds c) = length (handles c);
  st_fresh : results c = [];
}.

Lemma wait_start_inv poll sock c m : started c -> wait_inv poll (handles c) (wait_start sock c m).
Proof.
  intros [Hnd Hnz Hfd Hsame Hr]. unfold wait_start. rewrite Hr. unfold resize. simpl. rewrite take_nil, Nat.sub_0_r. simpl.
  split; simpl.
  - done.
  - apply length_replicate.
  - rewrite length_app, Hsame. simpl. lia.
  - intros i h Hi. left. pose proof (lookup_lt_Some _ _ _ Hi) as Hlt. split; [done|]. simpl. split; [|split].
    + destruct (lookup_lt_is_Some_2 (pollfds c) i) as [p Hp]; [lia|]. exists p. split.
      * by apply lookup_app_l_Some.
      * rewrite Forall_forall in Hfd. apply Hfd. by eapply list_elem_of_lookup_2.
    + by apply lookup_replicate.
    + apply not_elem_of_nil.
  - rewrite filter_all; [done|]. apply Forall_forall. by intros x Hx ->.
  - intros i j p sig Hi. by rewrite lookup_nil in Hi.
Qed.

Section WaitTheorems.
Context (cfg : LogCfg) (clock : nat -> Z) (poll : nat -> PollResult).

(** How wait_for_children() ends: every child was waited for, or some are
    left after both signals. *)
Lemma wait_for_children_cases fuel remaining sock c m k' s' : started c ->
  wait_for_children cfg clock poll fuel remaining sock c m = Some (Ret (k', s')) ->
  exists s, wait_inv poll (handles c) s /\ pollfds (kids s') = pollfds (pop_debug_socket (kids s)) /\
    handles (kids s') = handles (kids s) /\ trace s' = trace s /\
    ((children_left s = 0 /\ results (kids s') = results (kids s)) \/
     (exists s2 k, fold_outcome (give_up_on cfg clock k) (seq 0 (length (handles (kids s)))) s = Ret s2 /\
        results (kids s') = results (kids s2) /\
        forall i h, handles (kids s) !! i = Some h -> h <> 0 ->
          Kill (- h) SIGQUIT ∈ trace s /\ Kill (- h) SIGKILL ∈ trace s)).
Proof using Type.
  intros Hst H. pose proof (wait_start_inv poll sock c m Hst) as Hi.
  pose proof (good_wait_loop cfg clock poll (handles c) (st_nodup c Hst) (st_nonzero c Hst)) as Hloop.
  unfold wait_for_children in H. fold (wait_start sock c m) in H.
  apply and_then_ret in H as ([k s1] & H1 & H).
  destruct (Hloop _ _ _ _ _ _ H1 Hi) as [Hi1 _].
  destruct (Z.eqb_spec (children_left s1) 0) as [Hz|Hnz].
  { simplify_eq. exists s1. split; [done|]. simpl. do 3 (split; [done|]). by left. }
  apply and_then_ret in H as (s2 & H2 & H). injection H2 as H2.
  destruct (good_terminate cfg clock poll (handles c) _ _ _ H2) as [Hg2 Hquit]. destruct (Hg2 Hi1) as [Hi2 _].
  apply and_then_ret in H as ([k3 s3] & H3 & H).
  destruct (Hloop _ _ _ _ _ _ H3 Hi2) as [Hi3 L3].
  apply and_then_ret in H as ([k4 s4] & H4 & H).
  destruct (Z.eqb_spec (children_left s3) 0) as [Hz3|Hnz3]; simpl in H4.
  { simplify_eq. destruct (Z.eqb_spec (children_left s4) 0); [|done]. simpl in H. simplify_eq.
    exists s4. split; [done|]. simpl. do 3 (split; [done|]). by left. }
  destruct (good_kill poll (handles c) SIGKILL s3 Hi3) as [Hi3' _].
  destruct (Hloop _ _ _ _ _ _ H4 Hi3') as [Hi4 L4].
  destruct (Z.eqb_spec (children_left s4) 0) as [Hz4|Hnz4]; cbn [negb] in H.
  { simplify_eq. exists s4. split; [done|]. simpl. do 3 (split; [done|]). by left. }
  apply and_then_ret in H as (s5 & H5 & H). injection H5 as H5. simplify_eq.
  pose proof (give_up_all _ _ _ _ _ _ H5) as (Hh & Hp & Ht & _).
  exists s4. split; [done|]. simpl. rewrite Hp, Ht, Hh. do 3 (split; [done|]). right.
  exists s5, k'. split; [done|]. split; [done|]. intros i h Hih Hne. destruct L3 as [[l3 T3] L3], L4 as [[l4 T4] L4].
  pose proof (L4 i h Hih Hne) as Hih3. simpl in Hih3. rewrite T4. simpl. split.
  - rewrite T3. do 3 (apply elem_of_app; left). eauto.
  - apply elem_of_app; left. apply elem_of_app; right. apply list_elem_of_fmap. exists h. split; [done|].
    apply list_elem_of_filter. split; [done|by eapply list_elem_of_lookup_2].
Qed.

Lemma wait_for_children_ok fuel remaining sock c m k' s' : started c ->
  wait_for_children cfg clock poll fuel remaining sock c m = Some (Ret (k', s')) ->
  length (results (kids s')) = length (handles c) /\ length (pollfds (kids s')) = length (pollfds c) /\
  safe (trace s') /\
  forall i h, handles c !! i = Some h ->
    (handles (kids s') !! i = Some 0 /\ exists r, results (kids s') !! i = Some r /\ reported poll i r) \/
    (handles (kids s') !! i = Some h /\ results (kids s') !! i = Some (exit_status_of TimedOut) /\
     Kill (- h) SIGQUIT ∈ trace s' /\ Kill (- h) SIGKILL ∈ trace s').
Proof using Type.
  intros Hst H. destruct (wait_for_children_cases _ _ _ _ _ _ _ Hst H) as (s & Hi & Hp & Hh & Ht & Hc).
  destruct Hi as [Ih Ir Ip Ic Il Is]. rewrite Hp, Hh, Ht. simpl. rewrite length_take.
  pose proof (st_same c Hst) as Hsame.
  assert (forall i h, handles c !! i = Some h -> h <> 0) as Hnz.
  { intros i h Hi ->. apply (st_nonzero c Hst). by eapply list_elem_of_lookup_2. }
  destruct Hc as [[Hz Hr]|(s2 & k & Hg & Hr & Hk)].
  - rewrite Hr. do 2 (split; [lia|]). split; [done|]. intros i h Hi. left.
    destruct (Ic i h Hi) as [(Hw & _)|(He & _ & Hrep)]; [|done]. exfalso.
    rewrite Hz in Il. unfold len in Il. destruct (filter _ _) as [|x l] eqn:E; [|simpl in Il; lia].
    assert (h ∈ filter (fun c => c <> 0) (handles (kids s))) as Hin.
    { apply list_elem_of_filter. split; [by eapply Hnz|by eapply list_elem_of_lookup_2]. }
    rewrite E in Hin. by apply not_elem_of_nil in Hin.
  - apply give_up_all in Hg as (Gh & Gp & Gt & Gl & Gr). rewrite Hr, Gl. do 2 (split; [lia|]). split; [done|].
    intros i h Hi. pose proof (lookup_lt_Some _ _ _ Hi) as Hlt.
    destruct (Ic i h Hi) as [(Hw & _)|(He & _ & r & Her & Hrep)]; [right|left].
    + split; [done|]. rewrite (Gr i h Hw) by lia. rewrite decide_True; [|split; [by eapply Hnz|]].
      * split; [done|]. apply (Hk i); [done|by eapply Hnz].
      * apply elem_of_seq. lia.
    + split; [done|]. exists r. rewrite (Gr i 0 He) by lia. rewrite decide_False by tauto. done.
Qed.

(** C1. When the parent is done waiting, every child has a result: either
    the child was waited for and its result is the one that the kernel
    reported for it, or it is still there after both SIGQUIT and SIGKILL were
    sent to its process group and its result is a timeout. No signal was sent
    to the process group of a child that had been waited for. *)
Theorem wait_for_children_spec fuel remaining sock c m k' s' : started c ->
  wait_for_children cfg clock poll fuel remaining sock c m = Some (Ret (k', s')) ->
  length (results (kids s')) = length (handles c) /\ length (pollfds (kids s')) = length (pollfds c) /\
  safe (trace s') /\
  forall i h, handles c !! i = Some h ->
    (handles (kids s') !! i = Some 0 /\ exists r, results (kids s') !! i = Some r /\ reported poll i r) \/
    (handles (kids s') !! i = Some h /\ results (kids s') !! i = Some (exit_status_of TimedOut) /\
     Kill (- h) SIGQUIT ∈ trace s' /\ Kill (- h) SIGKILL ∈ trace s').
Proof using Type. apply wait_for_children_ok. Qed.

Lemma wait_loop_enough deadline : (forall k, clock k < clock (S k)) -> forall fuel k s,
  deadline - clock k <= Z.of_nat fuel -> wait_loop cfg clock poll fuel deadline k s <> None.
Proof using Type.
  intros Hclock. induction fuel as [|fuel IH]; intros k s Hf; cbn [wait_loop].
  - destruct (Z.leb_spec (deadline - clock k) 0); [|lia]. by rewrite orb_true_r.
  - destruct ((children_left s =? 0) || _); [done|].
    destruct (single_wait _ (poll k) s) as [[ret s1]| |]; [|done|done].
    destruct (ret =? 0); [|done]. apply IH. specialize (Hclock k). lia.
Qed.

Lemma and_then_some {A B} (m : option (outcome A)) (f : A -> option (outcome B)) :
  m <> None -> (forall a, f a <> None) -> and_then m f <> None.
Proof using Type. destruct m as [[a| |]|]; simpl; auto. Qed.

(** C30. Waiting for the children ends: as the clock advances at each reading,
    the time limit of the test and two times twenty seconds are enough,
    whatever the children do. *)
Theorem wait_for_children_terminates fuel remaining sock c m :
  (forall k, clock k < clock (S k)) -> Z.max (ns_of_ms remaining) grace <= Z.of_nat fuel ->
  wait_for_children cfg clock poll fuel remaining sock c m <> None.
Proof using Type.
  intros Hclock Hf. unfold wait_for_children.
  assert (forall r k s, r <= Z.of_nat fuel -> wait_for_all_children cfg clock poll fuel r k s <> None) as Hw.
  { intros r k s Hr. apply wait_loop_enough; [done|lia]. }
  apply and_then_some; [apply Hw; lia|]. intros [k s]. destruct (children_left s =? 0); [done|].
  apply and_then_some; [done|]. intros s2. apply and_then_some; [apply Hw; lia|]. intros [k3 s3].
  apply and_then_some; [destruct (negb _); [apply Hw; lia|done]|]. intros [k4 s4].
  destruct (negb _); [|done]. by apply and_then_some.
Qed.
End WaitTheorems.

(** Two children: the first exits, the second never does. *)
Definition two_children : ChildrenList :=
  add {| pid := 200; child_fd := 6 |} (add {| pid := 100; child_fd := 5 |} no_children).
Definition slow_clock (k : nat) : Z := Z.of_nat k * 30000000000.
Definition one_exits (k : nat) : PollResult :=
  match k with
  | O => PollReady 7 false (fun i => match i with
                                      | O => Some (WaitDone {| fi_code := CLD_EXITED; fi_status := 0 |} rusage0)
                                      | _ => None
                                      end)
  | _ => PollTimeout
  end.

Lemma two_children_started : started two_children.
Proof.
  split; [|set_solver| |done|done].
  - apply (bool_decide_unpack _). by vm_compute.
  - apply (bool_decide_unpack _). by vm_compute.
Qed.

Definition final_state (r : option (outcome (nat * WaitState))) : WaitState :=
  match r with Some (Ret (_, s)) => s | _ => wait_start 0 no_children (idle_shm 0 0) end.
Definition two_children_run := wait_for_children cfg0 slow_clock one_exits 10 1 (-1) two_children (idle_shm 2 4).

Lemma wait_for_children_spec_witness :
  map result (results (kids (final_state two_children_run))) = [Passed; TimedOut] /\
  safe (trace (final_state two_children_run)).
Proof.
  split; [vm_compute; reflexivity|].
  eapply (wait_for_children_spec cfg0 slow_clock one_exits 10 1 (-1) two_children (idle_shm 2 4)).
  - exact two_children_started.
  - vm_compute. reflexivity.
Defined.

Lemma wait_for_children_terminates_witness :
  wait_for_children cfg0 slow_clock one_exits (Z.to_nat grace) 1 (-1) two_children (idle_shm 2 4) <> None.
Proof.
  apply wait_for_children_terminates.
  - intros k. unfold slow_clock. lia.
  - rewrite Z2Nat.id by (by vm_compute). by vm_compute.
Defined.
