(* ===== verification/Spawn.v ===== *)
(** Starting the children of a test (src/framework/sandstone.cpp): fork with
    the probe for defective kernels (call_forkfd()), the command line of an
    executed child (spawn_child()) and what the child reads from it
    (exec_mode_run()), and one run of all children (run_one_test_children()). *)

From S2P Require Import Prelude CStdlib Chrono Results ThreadData Logging SlicePlan Runner TestSet Children.

(** * call_forkfd() *)

Definition FFD_USE_FORK : Z := 4.
Definition PidProperlyUpdated : Z := 0x646950646f6f47.
Definition PidIncorrectlyCached : Z := 0x646950646142.
Definition PollWorks : Z := 0x6c6c6f50646f6f47.
Definition PollFails : Z := 0x6c6c6f50646142.

(** The child's side of the probe: what it writes to efdpid when it reads
    [pollstatus] from efdpoll, and whether it returns to the caller, instead of
    exiting. *)
Definition probe_child (pollstatus : Z) (pid_updated : bool) : option Z * bool :=
  if pollstatus =? PollFails then (None, false)
  else (Some (if pid_updated then PidProperlyUpdated else PidIncorrectlyCached), pid_updated).

(** The kernel's answers: what forkfd() gives for the probe and for the plain
    call (a process number and a descriptor, or a failure), what poll() returns
    for the new child within a millisecond, and whether getpid() changes in it. *)
Record Kernel := {
  probe_fork : option (Z * Z);
  poll_ret : Z;
  getpid_changes : bool;
  plain_fork : option (Z * Z);
}.

(** The parent's side: the new ffd_extra_flags, the child as it is returned,
    and how many processes return to the caller as children. A parent that
    waits for a child that never writes is stuck. *)
Definition call_forkfd (k : Kernel) (ffd_extra_flags : Z) : outcome (Z * StartedChild * nat) :=
  let plain flags n :=
    match plain_fork k with
    | None => Exit EX_OSERR
    | Some (p, ffd) => Ret (flags, {| pid := p; child_fd := ffd |}, S n)
    end in
  if 0 <=? ffd_extra_flags then plain ffd_extra_flags O
  else match probe_fork k with
  | None => plain FFD_USE_FORK O
  | Some (p, ffd) =>
      let pollstatus := if poll_ret k =? 1 then PollFails else PollWorks in
      let '(written, continues) := probe_child pollstatus (getpid_changes k) in
      let children := if continues then 1%nat else O in
      if poll_ret k =? 1 then plain FFD_USE_FORK children
      else match written with
      | None => Ub
      | Some r => if r =? PidProperlyUpdated then Ret (0, {| pid := p; child_fd := ffd |}, children)
                  else plain FFD_USE_FORK children
      end
  end.

(** The probe for defective kernels never loses or doubles a child:
    whatever poll() and getpid() do in the probe, when call_forkfd() returns in
    the parent exactly one process returned as a child, it is the one the parent
    knows, and the kernel's fast path is kept exactly when it was found to work;
    otherwise the program exits because fork failed. *)
Theorem call_forkfd_one_child (k : Kernel) (flags : Z) :
  match call_forkfd k flags with
  | Ret (flags', child, n) =>
      n = 1%nat /\ 0 <= flags' /\
      (Some (pid child, child_fd child) = plain_fork k \/
       flags' = 0 /\ Some (pid child, child_fd child) = probe_fork k /\ poll_ret k <> 1 /\ getpid_changes k = true) /\
      (flags < 0 -> flags' = 0 <-> is_Some (probe_fork k) /\ poll_ret k <> 1 /\ getpid_changes k = true)
  | Exit code => code = EX_OSERR /\ plain_fork k = None
  | Ub => False
  end.
Proof.
  destruct k as [pf pr gp qf]. unfold call_forkfd. cbn.
  destruct (Z.leb_spec 0 flags) as [Hf|Hf].
  - destruct qf as [[p f]|]; cbn; [|done]. split; [done|]. split; [done|]. split; [by left|lia].
  - destruct pf as [[p f]|]; [|destruct qf as [[q g]|]; cbn; [|done]].
    + destruct (Z.eqb_spec pr 1) as [E|E]; cbn.
      * destruct qf as [[q g]|]; cbn; [|done]. split; [done|]. split; [done|]. split; [by left|]. intros _. by split; [|intros (_ & ? & _)].
      * destruct gp; cbn; [|destruct qf as [[q g]|]; cbn; [|done]].
        -- split; [done|]. split; [done|]. split; [by right|]. intros _. split; [|done]. split; [by eexists|done].
        -- split; [done|]. split; [done|]. split; [by left|]. intros _. by split; [|intros (_ & _ & ?)].
    + split; [done|]. split; [done|]. split; [by left|]. intros _. split; [done|]. by intros ([? ?] & _).
Qed.

(** * The executed child *)

(** The arguments of spawn_child() after the program's name and "-x". *)
Definition spawn_args (test_id random_seed : str) (shmemfd child_number : Z) : list str :=
  [test_id; random_seed; to_string shmemfd; to_string child_number].

(** parse_int() of exec_mode_run(). *)
Definition parse_int (arg : str) : outcome Z :=
  let '(n, rest, _) := strtoll 10 arg in
  if negb (i32 n =? n) || (n <? 0) || negb (length rest =? 0)%nat then Exit EX_DATAERR else Ret (i32 n).

Section Exec.
Context (tests : list test_def) (regular_tests selftests : list nat) (mce_test : nat).
Context (fnmatch : str -> str -> bool).
(** Whether the shared memory says this is a run of the selftests, and the
    program's requested quality. *)
Context (selftest : bool) (requested_quality : Z).
(** child_run() of a test in the process that has the shared memory of a
    descriptor, with the given seed and child number. *)
Context (child_run : nat -> str -> Z -> Z -> outcome TestResult).

(** exec_mode_run(): a return is the exit status of the process. *)
Definition exec_mode_run (argv : list str) : outcome Z :=
  match argv with
  | id :: seed :: shmemfd :: number :: _ =>
      child_number ← parse_int number;
      fd ← parse_int shmemfd;
      let cfg := {| ignore_unknown_tests := false; randomize := false; is_selftest := selftest |} in
      let test_set := make_test_set tests regular_tests selftests mce_test cfg requested_quality false true in
      match lookup_tests tests requested_quality fnmatch test_set id with
      | [t] => r ← child_run t seed fd child_number; test_result_to_exit_code r
      | _ => Ret EX_DATAERR
      end
  | _ => Ret EX_DATAERR
  end.

Lemma parse_int_to_string n : 0 <= n <= INT_MAX -> parse_int (to_string n) = Ret n.
Proof using Type.
  intros Hn. unfold parse_int. rewrite <- (app_nil_r (to_string n)).
  rewrite strtoll_to_string by (done || unfold INT_MAX, LLONG_MAX in *; lia). unfold INT_MAX in *.
  rewrite wrap_s_small by (unfold in_s; lia). rewrite Z.eqb_refl. destruct (Z.ltb_spec n 0); [lia|done].
Qed.

Lemma find_id l t : t ∈ l -> NoDup (map (id_of tests) l) ->
  List.find (fun t' => str_eqb (id_of tests t') (id_of tests t)) l = Some t.
Proof using Type.
  induction l as [|x l IH]; intros Ht Hnd; [by apply not_elem_of_nil in Ht|].
  simpl in *. apply NoDup_cons in Hnd as [Hx Hnd]. unfold str_eqb in *.
  apply elem_of_cons in Ht as [-> | Ht]; [by rewrite bool_decide_true|].
  rewrite bool_decide_false; [by apply IH|]. intros E. apply Hx. rewrite E. by apply list_elem_of_fmap_2.
Qed.

(** C34. An executed child runs what its parent meant: with the arguments that
    spawn_child() writes, the child looks up the same test, attaches to the
    same shared memory and takes the same number, and its exit status is the
    one of the test's result. The tests' names are distinct and are neither
    patterns nor groups. *)
Theorem exec_mode_roundtrip (t : nat) (seed : str) (shmemfd child_number : Z) :
  let known := (if selftest then selftests else regular_tests) ++ [mce_test] in
  t ∈ known -> NoDup (map (id_of tests) known) ->
  id_of tests t <> [] -> head (id_of tests t) <> Some "@"%char -> "*"%char ∉ id_of tests t ->
  0 <= shmemfd <= INT_MAX -> 0 <= child_number <= INT_MAX ->
  exec_mode_run (spawn_args (id_of tests t) seed shmemfd child_number) =
    (child_run t seed shmemfd child_number ≫= test_result_to_exit_code).
Proof using Type.
  cbv zeta. intros Ht Hnd Hne Hat Hstar Hfd Hcn. unfold exec_mode_run, spawn_args.
  rewrite !parse_int_to_string by done. simpl.
  set (s := make_test_set _ _ _ _ _ _ _ _).
  assert (all_tests s = (if selftest then selftests else regular_tests) ++ [mce_test]) as Hall by by destruct selftest.
  unfold lookup_tests. pose proof (find_id _ t Ht Hnd) as Hfind. rewrite <- Hall in Hfind.
  destruct (id_of tests t) as [|c r] eqn:E; [done|]. rewrite bool_decide_false by done.
  unfold char_eqb. rewrite bool_decide_false by (simpl in Hat; congruence). by rewrite Hfind.
Qed.
End Exec.

Lemma exec_mode_roundtrip_witness :
  exec_mode_run ex_tests [0; 1; 2]%nat [] 3 no_glob false 1
    (fun t _ fd n => if (t =? 1)%nat && (fd =? 7) && (n =? 12) then Ret Skipped else Ret Failed)
    (spawn_args (L "zlib") (L "AES:1234") 7 12) = Ret (-1).
Proof.
  refine (exec_mode_roundtrip ex_tests [0; 1; 2]%nat [] 3 no_glob false 1
    (fun t _ fd n => if (t =? 1)%nat && (fd =? 7) && (n =? 12) then Ret Skipped else Ret Failed)
    1 (L "AES:1234") 7 12 _ _ _ _ _ _ _).
  - apply (bool_decide_unpack _). by vm_compute.
  - apply (bool_decide_unpack _). by vm_compute.
  - done.
  - done.
  - apply (bool_decide_unpack _). by vm_compute.
  - by vm_compute.
  - by vm_compute.
Defined.

(** * One run of all children *)

Inductive ForkMode := no_fork | fork_each_test | exec_each_test | child_exec_each_test.

Section RunChildren.
Context (cfg : LogCfg) (clock : nat -> Z) (poll : nat -> PollResult).
(** How the i-th child is started, by call_forkfd() or spawn_child(), what
    the children do to the shared memory until they are waited for, and
    child_run() in this process. *)
Context (start : nat -> outcome StartedChild) (during : Shm -> Shm).
Context (child_run : Shm -> outcome (TestResult * Shm)).

Definition start_children (n : nat) : outcome ChildrenList :=
  fold_outcome (fun c i => ch ← start i; Ret (add ch c)) (seq 0 n) no_children.

(** run_one_test_children(); [timeout] is test_timeout() and [sock] the
    debug socket. *)
Definition run_one_test_children (mode : ForkMode) (flags num_cpus : Z) (plans : SlicePlans) (fuel : nat)
    (timeout sock : Z) (s : Shm) : option (outcome (list ChildExitStatus * Shm)) :=
  and_then (Some (slices_for_test flags num_cpus plans s)) (fun '(child_count, s) =>
  match mode with
  | child_exec_each_test => Some Ub
  | no_fork =>
      if child_count =? 1
      then and_then (Some (child_run s)) (fun '(r, s) => Some (Ret ([exit_status_of r], s)))
      else Some Ub
  | fork_each_test | exec_each_test =>
      and_then (Some (start_children (Z.to_nat child_count))) (fun c =>
      and_then (wait_for_children cfg clock poll fuel timeout sock c (during s)) (fun '(_, w) =>
      Some (Ret (results (kids w), shm w))))
  end).

(** Children have process numbers of their own and open descriptors. *)
Definition starts_children : Prop :=
  (forall i ch, start i = Ret ch -> 0 < pid ch /\ 0 <= child_fd ch) /\
  (forall i j ch ch', start i = Ret ch -> start j = Ret ch' -> pid ch = pid ch' -> i = j).

Lemma start_children_spec n c : starts_children -> start_children n = Ret c ->
  started c /\ length (handles c) = n.
Proof using Type.
  intros [Hpos Hinj]. unfold start_children.
  assert (forall l c0 c1, fold_outcome (fun c i => ch ← start i; Ret (add ch c)) l c0 = Ret c1 ->
    NoDup l -> started c0 -> (forall p, p ∈ handles c0 -> exists i ch, i ∉ l /\ start i = Ret ch /\ pid ch = p) ->
    started c1 /\ length (handles c1) = (length (handles c0) + length l)%nat) as Hgen.
  { induction l as [|i l IH]; intros c0 c1 H Hnd Hst Hold; simpl in H.
    - simplify_eq. split; [done|]. simpl. lia.
    - apply outcome_bind_ret in H as (c2 & H2 & H). apply outcome_bind_ret in H2 as (ch & Hch & H2). simplify_eq.
      apply NoDup_cons in Hnd as [Hi Hnd]. destruct (Hpos i ch Hch) as [Hp Hf]. destruct Hst as [S1 S2 S3 S4 S5].
      destruct (IH _ _ H Hnd) as [Hs Hl]; [| |split; [done|]; rewrite Hl; simpl; rewrite length_app; simpl; lia].
      + split; simpl.
        * apply NoDup_app. split; [done|]. split; [|apply NoDup_singleton].
          intros p Hp0 ->%list_elem_of_singleton. destruct (Hold _ Hp0) as (j & ch' & Hj & Hch' & Heq).
          apply Hj. rewrite (Hinj j i ch' ch Hch' Hch Heq). apply elem_of_cons. auto.
        * rewrite elem_of_app, list_elem_of_singleton. intros [?|?]; [done|lia].
        * apply Forall_app. split; [done|]. by constructor.
        * rewrite !length_app. simpl. lia.
        * done.
      + simpl. intros p [Hp0|Hp0]%elem_of_app.
        * destruct (Hold _ Hp0) as (j & ch' & Hj & Hrest). exists j, ch'. split; [by apply not_elem_of_cons in Hj as [_ ?]|done].
        * apply list_elem_of_singleton in Hp0 as ->. by exists i, ch. }
  intros H. apply Hgen in H as [Hs Hl]; [by rewrite Hl, length_seq|apply NoDup_seq| |].
  - split; simpl; [constructor|apply not_elem_of_nil|constructor|done|done].
  - intros p Hp. by apply not_elem_of_nil in Hp.
Qed.

(** C10. One run of a test with child processes covers the machine: every
    processor belongs to the range of exactly one child, and the parent ends
    with exactly one result for each child: what the kernel reported for it,
    or a timeout. *)
Theorem run_one_test_children_spec (mode : ForkMode) flags n plans fuel timeout sock s rs s' :
  mode = fork_each_test \/ mode = exec_each_test -> starts_children ->
  0 < n -> plans_ok n plans -> length (mains s) = length (Heuristic plans) ->
  run_one_test_children mode flags n plans fuel timeout sock s = Some (Ret (rs, s')) ->
  exists s1, ranges_tile 0 n (assigned (len rs) s1) /\ length (assigned (len rs) s1) = length rs /\
    slices_for_test flags n plans s = Ret (len rs, s1) /\
    forall i r, rs !! i = Some r -> reported poll i r \/ r = exit_status_of TimedOut.
Proof using Type.
  intros Hmode Hstart Hn Hplans Hlen H. unfold run_one_test_children in H.
  destruct (slices_for_test_ok flags n plans s Hn Hplans Hlen) as (count & s1 & Hs & Hc & Htile & _).
  rewrite Hs in H. cbn [and_then] in H.
  assert (and_then (Some (start_children (Z.to_nat count))) (fun c =>
      and_then (wait_for_children cfg clock poll fuel timeout sock c (during s1)) (fun '(_, w) =>
      Some (Ret (results (kids w), shm w)))) = Some (Ret (rs, s'))) as Hrun by by destruct Hmode as [-> | ->].
  clear H. apply and_then_ret in Hrun as (c & Hc1 & H). injection Hc1 as Hc1.
  apply and_then_ret in H as ([k w] & Hw & H). simplify_eq.
  destruct (start_children_spec _ _ Hstart Hc1) as [Hst Hl].
  destruct (wait_for_children_ok _ _ _ _ _ _ _ _ _ _ Hst Hw) as (Hr & _ & _ & Hall).
  assert (len (results (kids w)) = count) as Hcount by (unfold len; lia).
  rewrite Hcount. exists s1. split; [done|]. split; [|split; [done|]].
  - unfold assigned. rewrite length_map, length_take. unfold len in Hc. lia.
  - intros i r Hir. pose proof (lookup_lt_Some _ _ _ Hir) as Hlt. rewrite Hr in Hlt.
    destruct (lookup_lt_is_Some_2 _ _ Hlt) as [h Hh].
    destruct (Hall i h Hh) as [(_ & r' & Hr' & Hrep)|(_ & Hto & _)]; [left|right]; congruence.
Qed.
End RunChildren.

Lemma run_one_test_children_spec_witness :
  let start i := Ret {| pid := 100 + Z.of_nat i; child_fd := 5 + Z.of_nat i |} in
  exists rs s', run_one_test_children cfg0 slow_clock one_exits start id (fun s => Ret (Passed, s))
      fork_each_test test_schedule_isolate_socket 4 (fill_plans (dumb_plan 4 2)) 10 1 (-1) (idle_shm 2 4) = Some (Ret (rs, s')) /\
    len rs = 2 /\ forall i r, rs !! i = Some r -> reported one_exits i r \/ r = exit_status_of TimedOut.
Proof.
  cbv zeta. set (start := fun i : nat => Ret {| pid := 100 + Z.of_nat i; child_fd := 5 + Z.of_nat i |}).
  eexists _, _. split; [vm_compute; reflexivity|]. split; [vm_compute; reflexivity|].
  edestruct (run_one_test_children_spec cfg0 slow_clock one_exits start id (fun s => Ret (Passed, s))
    fork_each_test test_schedule_isolate_socket 4 (fill_plans (dumb_plan 4 2)) 10 1 (-1) (idle_shm 2 4))
    as (s1 & _ & _ & _ & Hres); [..|exact Hres].
  - by left.
  - split.
    + intros i ch E. unfold start in E. simplify_eq. simpl. lia.
    + intros i j ch ch' E E'. unfold start in *. simplify_eq. simpl. lia.
  - lia.
  - destruct (dumb_plan_ok 4 2) as [? _]; [lia..|]. by split.
  - by vm_compute.
  - vm_compute. reflexivity.
Defined.
