(* ===== verification/Knobs.v ===== *)
(** The test options set with -O key=value (src/framework/test_knobs.cpp):
    storing them, the typed readers that tests call, and how the values they
    return are logged (logging_mark_knob_used() of logging.cpp). *)

From S2P Require Import Prelude CStdlib Results ThreadData Logging.

(** * Storage *)

Record Entry := { key : str; value : str }.
Abbreviation Knobs := (list Entry).

(** TestKeyWrapper: the test's name, if any, goes before the key. *)
Definition test_key (test_id : option str) (k : str) : str :=
  match test_id with Some id => id ++ "."%char :: k | None => k end.

Definition find_key (k : str) (knobs : Knobs) : option nat := fst <$> list_find (fun e => key e = k) knobs.

Definition set_knob (k v : str) (knobs : Knobs) : Knobs :=
  match find_key k knobs with
  | Some i => alter (fun e => {| key := key e; value := v |}) i knobs
  | None => knobs ++ [{| key := k; value := v |}]
  end.

(** get_knob(): [None] is a null string_view. *)
Definition get_knob (k : str) (knobs : Knobs) : option str :=
  match find_key k knobs with
  | Some i => value <$> knobs !! i
  | None => None
  end.

(** clear_test_knobs() *)
Definition clear_test_knobs (knobs : Knobs) : Knobs := [].

(** set_knob_from_key_value_string(); [split] is boost::split() at every
    equals sign. *)
Definition set_knob_from_key_value_string (split : str -> list str) (s : str) (knobs : Knobs) : Knobs * bool :=
  match split s with
  | [k; v] => if bool_decide (k = []) || bool_decide (v = []) then (knobs, false) else (set_knob k v knobs, true)
  | _ => (knobs, false)
  end.

(** * Logging the values *)

(** TestKnobValue; a double is a value of any type with a printer. *)
Inductive TestKnobValue (D : Type) :=
| KString (v : option str) | KUint (v : Z) | KInt (v : Z) | KDouble (v : D).
Arguments KString {D} v.
Arguments KUint {D} v.
Arguments KInt {D} v.
Arguments KDouble {D} v.

Definition format_uint (v : Z) : str := if v <? 4096 then to_string v else L "0x" ++ to_digits 16 v.

(** The Visitor of logging_mark_knob_used(): [print_double] is %.17g, and
    negating the least int64_t overflows. *)
Definition format_knob {D} (print_double : D -> str) (v : TestKnobValue D) : outcome str :=
  match v with
  | KUint v => Ret (format_uint v)
  | KInt v =>
      if 0 <=? v then Ret (format_uint v)
      else if -4096 <=? v then Ret (to_string v)
      else if v =? LLONG_MIN then Ub
      else Ret (L "-0x" ++ to_digits 16 (- v))
  | KDouble v => Ret (print_double v)
  | KString None => Ret (L "null")
  | KString (Some s) => s ← of_option (escape_for_single_line s); Ret (L "'" ++ s ++ L "'")
  end.

(** The characters a key may have. *)
Definition key_char (c : ascii) : bool :=
  let n := code c in
  (n =? 46) || (n =? 45) || (n =? 95) || ((48 <=? n) && (n <=? 57)) || ((65 <=? n) && (n <=? 90)) ||
  ((97 <=? n) && (n <=? 122)).

(** logging_mark_knob_used(): a debug build aborts when it is called from a
    test thread or when the key has other characters. *)
Definition logging_mark_knob_used {D} (print_double : D -> str) (cfg : LogCfg) (debug_build : bool) (thread_num : Z)
    (log_test_knobs : bool) (k : str) (v : TestKnobValue D) (s : Shm) : outcome Shm :=
  match current_output_format cfg with
  | no_output => Ret s
  | _ =>
      _ ← (if debug_build then assertion ((thread_num =? -1) && forallb key_char k) else Ret ());
      if negb log_test_knobs then Ret s
      else
        formatted ← format_knob print_double v;
        log_message_for_thread (-1) UsedKnobValue (LOG_LEVEL_VERBOSE 1) (k ++ L ": " ++ formatted) s
  end.

(** * Reading the values *)

Inductive KnobOrigin := Options | Defaulted.

(** knob_value_integer() for an unsigned or a signed 64-bit type; the second
    component is what is logged. *)
Definition knob_value_integer (signed : bool) (test_id : option str) (k : str) (value_if_not_present : Z)
    (knobs : Knobs) : Z * KnobOrigin :=
  match get_knob (test_key test_id k) knobs with
  | Some s =>
      let '(v, rest, _) := strtoull 0 s in
      if (length rest =? 0)%nat then (if signed then i64 v else v, Options) else (value_if_not_present, Defaulted)
  | None => (value_if_not_present, Defaulted)
  end.

(** knob_value_double(): [strtod] gives the value and the rest. *)
Definition knob_value_double {D} (strtod : str -> D * str) (test_id : option str) (k : str) (value_if_not_present : D)
    (knobs : Knobs) : D * KnobOrigin :=
  match get_knob (test_key test_id k) knobs with
  | Some s =>
      let '(v, rest) := strtod s in
      if (length rest =? 0)%nat then (v, Options) else (value_if_not_present, Defaulted)
  | None => (value_if_not_present, Defaulted)
  end.

Definition get_testspecific_knob_value_string (test_id : option str) (k : str) (value_if_not_present : option str)
    (knobs : Knobs) : option str * KnobOrigin :=
  match get_knob (test_key test_id k) knobs with
  | Some s => (Some s, Options)
  | None => (value_if_not_present, Defaulted)
  end.

Definition get_testspecific_knob_value_uint := knob_value_integer false.
Definition get_testspecific_knob_value_int := knob_value_integer true.

(** * Setting and getting *)

Lemma get_knob_cons k e knobs :
  get_knob k (e :: knobs) = if decide (key e = k) then Some (value e) else get_knob k knobs.
Proof.
  unfold get_knob, find_key. simpl. case_decide; simpl; [done|]. by destruct (list_find _ knobs) as [[i x]|].
Qed.

Lemma set_knob_cons k v e knobs : set_knob k v (e :: knobs) =
  if decide (key e = k) then {| key := key e; value := v |} :: knobs else e :: set_knob k v knobs.
Proof.
  unfold set_knob, find_key. simpl. case_decide; simpl; [done|]. by destruct (list_find _ knobs) as [[i x]|].
Qed.

Lemma get_set_knob k v knobs k' :
  get_knob k' (set_knob k v knobs) = if decide (k' = k) then Some v else get_knob k' knobs.
Proof.
  induction knobs as [|e knobs IH].
  - unfold set_knob. simpl. rewrite get_knob_cons. simpl. unfold get_knob. simpl. by repeat case_decide.
  - rewrite set_knob_cons. destruct (decide (key e = k)) as [He|He]; rewrite !get_knob_cons; simpl.
    + destruct (decide (key e = k')), (decide (k' = k)); congruence.
    + rewrite IH. destruct (decide (key e = k')), (decide (k' = k)); congruence.
Qed.

(** The contract of boost::split() with one separator: the pieces have no
    separator and make up the text again. *)
Definition splits (sep : ascii) (split : str -> list str) : Prop :=
  forall s, split s <> [] /\ Forall (fun w => sep ∉ w) (split s) /\ join sep (split s) = s.

Lemma app_sep_inj (sep : ascii) (a b c d : str) : sep ∉ a -> sep ∉ c -> a ++ sep :: b = c ++ sep :: d -> a = c /\ b = d.
Proof.
  revert c. induction a as [|x a IH]; intros [|y c] Ha Hc E; simplify_eq/=; [done|set_solver|set_solver|].
  destruct (IH c) as [-> ->]; [set_solver..|done|done].
Qed.

Section SetGet.
Context (split : str -> list str) (Hsplit : splits "="%char split).

Lemma split_pair k v : "="%char ∉ k -> "="%char ∉ v -> split (k ++ "="%char :: v) = [k; v].
Proof using Hsplit.
  intros Hk Hv. destruct (Hsplit (k ++ "="%char :: v)) as (Hne & Hf & Hj).
  destruct (split _) as [|w ws]; [done|]. apply Forall_cons in Hf as [Hw Hf].
  destruct ws as [|w2 ws]; simpl in Hj.
  { destruct Hw. rewrite Hj. set_solver. }
  apply app_sep_inj in Hj as [-> Hj]; [|done..]. apply Forall_cons in Hf as [Hw2 Hf].
  destruct ws as [|w3 ws]; [by rewrite Hj|]. destruct Hv. rewrite <- Hj. set_solver.
Qed.

(** Setting an option: "key=value" is accepted exactly when it has one
    equals sign with text on both sides; it then replaces the value of that
    key and of no other, the last setting winning, and what is not accepted
    changes nothing. *)
Theorem knob_set_get (s : str) (knobs : Knobs) :
  let '(knobs', ok) := set_knob_from_key_value_string split s knobs in
  (ok = true <-> exists k v, s = k ++ "="%char :: v /\ k <> [] /\ v <> [] /\ "="%char ∉ k /\ "="%char ∉ v) /\
  (ok = false -> knobs' = knobs) /\
  (forall k v k', s = k ++ "="%char :: v -> ok = true -> "="%char ∉ k ->
     get_knob k' knobs' = if decide (k' = k) then Some v else get_knob k' knobs).
Proof using Hsplit.
  unfold set_knob_from_key_value_string. destruct (Hsplit s) as (_ & Hf & Hj).
  assert (forall k v, s = k ++ "="%char :: v -> "="%char ∉ k -> "="%char ∉ v -> split s = [k; v]) as Hpair.
  { intros k v -> Hk Hv. by apply split_pair. }
  destruct (split s) as [|w [|w2 [|w3 ws]]] eqn:Es.
  1,2,4: split; [split; [done|]; intros (k & v & E & _ & _ & Hk & Hv); by specialize (Hpair k v E Hk Hv)|done].
  simpl in Hj. apply Forall_cons in Hf as [Hw [Hw2 _]%Forall_cons].
  destruct (bool_decide_reflect (w = [])) as [E1|E1], (bool_decide_reflect (w2 = [])) as [E2|E2]; simpl.
  4: { split; [split; [intros _; by exists w, w2|done]|]. split; [done|].
       intros k v k' E _ Hk. rewrite <- Hj in E. apply app_sep_inj in E as [-> ->]; [|done..]. apply get_set_knob. }
  all: split; [split; [done|]; intros (k & v & E & N1 & N2 & Hk & Hv); specialize (Hpair k v E Hk Hv); by simplify_eq|done].
Qed.
End SetGet.

(** A splitter that keeps the contract. *)
Fixpoint split_at (sep : ascii) (s : str) : list str :=
  match s with
  | [] => [[]]
  | c :: s =>
      if decide (c = sep) then [] :: split_at sep s
      else match split_at sep s with w :: ws => (c :: w) :: ws | [] => [[c]] end
  end.

Lemma split_at_splits sep : splits sep (split_at sep).
Proof.
  intros s. induction s as [|c s (Hne & Hf & Hj)]; simpl.
  - split; [done|]. split; [|done]. constructor; [apply not_elem_of_nil|constructor].
  - destruct (split_at sep s) as [|w ws]; [done|]. apply Forall_cons in Hf as [Hw Hws].
    case_decide as Hc; (split; [done|]); subst.
    + split; [|done]. constructor; [apply not_elem_of_nil|]. by constructor.
    + split; [|by destruct ws]. constructor; [|done]. rewrite not_elem_of_cons. split; [done|done].
Qed.

Lemma knob_set_get_witness :
  get_knob (L "max") (set_knob_from_key_value_string (split_at "="%char) (L "max=0x10") []).1 = Some (L "0x10") /\
  (set_knob_from_key_value_string (split_at "="%char) (L "max=1=2") []).2 = false.
Proof.
  pose proof (knob_set_get (split_at "="%char) (split_at_splits _) (L "max=0x10") []) as (_ & _ & H).
  split; [|by vm_compute]. exact (H (L "max") (L "0x10") (L "max") eq_refl eq_refl ltac:(apply (bool_decide_unpack _); by vm_compute)).
Defined.

(** * Reading back what is logged *)

Lemma strtoull_digits neg v : 0 <= v <= ULLONG_MAX ->
  strtoull 0 (if neg : bool then "-"%char :: to_string v else to_string v) = (u64 (if neg then - v else v), [], false).
Proof.
  intros Hv. unfold ULLONG_MAX in Hv. unfold strtoull, to_string. destruct (Z.ltb_spec v 0); [lia|].
  rewrite strto_decimal by lia. unfold ULLONG_MAX. by destruct (Z.ltb_spec (2 ^ 64 - 1) v); [lia|].
Qed.

Lemma strtoull_hex neg v : 0 < v <= ULLONG_MAX ->
  strtoull 0 (if neg : bool then "-"%char :: L "0x" ++ to_digits 16 v else L "0x" ++ to_digits 16 v) =
  (u64 (if neg then - v else v), [], false).
Proof.
  intros Hv. unfold ULLONG_MAX in Hv. unfold strtoull.
  rewrite strto_hex by lia. unfold ULLONG_MAX. by destruct (Z.ltb_spec (2 ^ 64 - 1) v); [lia|].
Qed.

Lemma format_uint_read v : 0 <= v <= ULLONG_MAX -> strtoull 0 (format_uint v) = (v, [], false).
Proof.
  intros Hv. unfold format_uint. assert (u64 v = v) as E by (apply wrap_u_small; unfold in_u, ULLONG_MAX in *; lia).
  destruct (Z.ltb_spec v 4096).
  - pose proof (strtoull_digits false v Hv) as H'. simpl in H'. by rewrite E in H'.
  - pose proof (strtoull_hex false v ltac:(lia)) as H'. cbn [negb] in H'. by rewrite E in H'.
Qed.

(** The integers that are logged for the options can be given back with
    -O: for every unsigned value, and for every signed value but the least, the
    text that is logged is read as the same value. *)
Theorem knob_log_roundtrip {D} (print_double : D -> str) (signed : bool) (v d : Z) (k : str) :
  (if signed then in_s 64 v /\ v <> LLONG_MIN else in_u 64 v) ->
  exists text, format_knob print_double (if signed then KInt v else KUint v) = Ret text /\
    knob_value_integer signed None k d (set_knob k text []) = (v, Options).
Proof.
  intros Hv.
  assert (forall text w, strtoull 0 text = (w, [], false) -> (if signed then i64 w else w) = v ->
    knob_value_integer signed None k d (set_knob k text []) = (v, Options)) as Hread.
  { intros text w Ht Hw. unfold knob_value_integer. simpl. rewrite get_set_knob, decide_True by done.
    rewrite Ht. simpl. by rewrite Hw. }
  destruct signed; [destruct Hv as [Hv Hm]|]; simpl.
  - assert (i64 (u64 v) = v) as Ei by (rewrite wrap_s_u by lia; by apply wrap_s_small).
    unfold in_s, LLONG_MIN in *. destruct (Z.leb_spec 0 v) as [H0|H0].
    { eexists. split; [done|]. eapply Hread; [apply format_uint_read; unfold ULLONG_MAX; lia|].
      by apply wrap_s_small; unfold in_s; lia. }
    destruct (Z.leb_spec (-4096) v).
    + eexists. split; [done|]. eapply Hread; [|exact Ei].
      pose proof (strtoull_digits true (- v) ltac:(unfold ULLONG_MAX; lia)) as Hs. rewrite Z.opp_involutive in Hs.
      rewrite <- Hs. f_equal. unfold to_string. by destruct (Z.ltb_spec v 0), (Z.ltb_spec (- v) 0); try lia.
    + destruct (Z.eqb_spec v (- 2 ^ 63)); [lia|]. eexists. split; [done|]. eapply Hread; [|exact Ei].
      pose proof (strtoull_hex true (- v) ltac:(unfold ULLONG_MAX; lia)) as Hs. by rewrite Z.opp_involutive in Hs.
  - eexists. split; [done|]. eapply Hread; [|done]. apply format_uint_read. unfold in_u, ULLONG_MAX in *. lia.
Qed.

Lemma knob_log_roundtrip_witness :
  exists text, format_knob (fun _ : unit => []) (KInt (-70000)) = Ret text /\
    knob_value_integer true None (L "k") 3 (set_knob (L "k") text []) = (-70000, Options).
Proof.
  apply (knob_log_roundtrip (fun _ : unit => []) true (-70000) 3 (L "k")).
  split; [by vm_compute|by vm_compute].
Defined.
