(* ===== verification/Opts.v ===== *)
(** The command line (src/framework/sandstone_opts.cpp): the arguments that
    are numbers (struct ParseIntArgument) and what each option does to the
    settings (parse_cmdline()). *)

From S2P Require Import Prelude CStdlib Chrono Results ThreadData Logging Spawn Knobs.

(** * Numbers *)

Inductive OutOfRangeMode := ExitMode | Saturate.

(** struct ParseIntArgument for int ([arg_signed]) or unsigned. *)
Record ParseIntArgument := {
  arg_signed : bool;
  arg_min : Z;
  arg_max : Z;
  arg_base : Z;
  range_mode : OutOfRangeMode;
}.

Definition int_arg (min max : Z) (mode : OutOfRangeMode) : ParseIntArgument :=
  {| arg_signed := true; arg_min := min; arg_max := max; arg_base := 10; range_mode := mode |}.

(** The one unsigned option: --max-logdata, in any base. *)
Definition logdata_arg : ParseIntArgument :=
  {| arg_signed := false; arg_min := 0; arg_max := UINT_MAX; arg_base := 0; range_mode := Saturate |}.

(** The end of operator(): the comparisons are on the value before and after
    it is cut to the type. *)
Definition validate_range (a : ParseIntArgument) (parsed : Z) (erange : bool) : outcome Z :=
  let v := if arg_signed a then i32 parsed else u32 parsed in
  if erange || negb (v =? parsed) || (v <? arg_min a) || (arg_max a <? v) then
    match range_mode a with
    | ExitMode => Exit EX_USAGE
    | Saturate =>
        Ret (if (parsed <? arg_min a) || (erange && (parsed =? LLONG_MIN)) then arg_min a
             else if (arg_max a <? v) || (erange && (parsed =? LLONG_MAX)) then arg_max a
             else v)
    end
  else Ret v.

(** operator() *)
Definition parse_int_argument (a : ParseIntArgument) (arg : str) : outcome Z :=
  let '(parsed, rest, erange) := if arg_signed a then strtoll (arg_base a) arg else strtoull (arg_base a) arg in
  if negb (length rest =? 0)%nat || (length arg =? 0)%nat then Exit EX_USAGE
  else validate_range a parsed erange.

(** The number a text stands for, if it is nothing but a number. *)
Definition number_of (base : Z) (arg : str) : option Z :=
  match strto base arg with
  | Some (neg, m, []) => Some (if neg : bool then - m else m)
  | _ => None
  end.

Definition clamp (lo hi z : Z) : Z := Z.max lo (Z.min hi z).

Section IntArguments.
Context (lo hi : Z) (Hlo : INT_MIN <= lo) (Hhi : hi <= INT_MAX) (Hle : lo <= hi).

Lemma strtoll_number arg : match number_of 10 arg with
  | Some z => strtoll 10 arg = (clamp LLONG_MIN LLONG_MAX z, [], negb ((LLONG_MIN <=? z) && (z <=? LLONG_MAX))) /\ arg <> []
  | None => arg = [] \/ exists v rest e, strtoll 10 arg = (v, rest, e) /\ rest <> []
  end.
Proof using Type.
  unfold number_of, strtoll. destruct arg as [|c arg]; [by left|]. set (a := c :: arg).
  destruct (strto 10 a) as [[[neg m] rest]|] eqn:E; [|right; by eexists _, _, _].
  destruct rest as [|x rest]; [|right; destruct (LLONG_MAX <? _); [by eexists _, _, _|destruct (_ <? LLONG_MIN); by eexists _, _, _]].
  split; [|done]. generalize (if neg then - m else m). intros z. unfold clamp.
  destruct (Z.ltb_spec LLONG_MAX z), (Z.leb_spec z LLONG_MAX), (Z.leb_spec LLONG_MIN z), (Z.ltb_spec z LLONG_MIN);
    unfold LLONG_MAX, LLONG_MIN in *; try lia; cbn [negb andb]; repeat f_equal; lia.
Qed.

(** What becomes of a number that is not within the limits. *)
Definition out_of_range (mode : OutOfRangeMode) (z : Z) : outcome Z :=
  match mode with
  | ExitMode => Exit EX_USAGE
  | Saturate => if (z <=? INT_MAX) || (LLONG_MAX <? z) || (hi <? i32 z) then Ret (clamp lo hi z) else Ret (i32 z)
  end.

Lemma validate_within mode z : lo <= z <= hi -> validate_range (int_arg lo hi mode) z false = Ret z.
Proof using Hlo Hhi.
  intros Hz. unfold validate_range. cbn [int_arg arg_signed arg_min arg_max orb]. unfold INT_MIN, INT_MAX in *.
  rewrite wrap_s_small by (unfold in_s; lia). rewrite Z.eqb_refl.
  by destruct (Z.ltb_spec z lo), (Z.ltb_spec hi z); try lia.
Qed.

Lemma validate_outside mode z : LLONG_MIN <= z <= LLONG_MAX -> z < lo \/ hi < z ->
  validate_range (int_arg lo hi mode) z false = out_of_range mode z.
Proof using Hlo Hhi Hle.
  intros Hl Hz. unfold validate_range, out_of_range. cbn [int_arg arg_signed arg_min arg_max range_mode orb andb].
  unfold INT_MIN, INT_MAX, LLONG_MIN, LLONG_MAX in *. pose proof (wrap_s_fix 32 ltac:(lia) z) as Hf. unfold in_s in Hf.
  assert (z <= 2 ^ 31 - 1 -> - 2 ^ 31 <= z -> i32 z = z) as Hfit by (intros; apply Hf; lia).
  replace (negb (i32 z =? z) || (i32 z <? lo) || (hi <? i32 z)) with true.
  - destruct mode; [done|]. rewrite !orb_false_r. destruct (Z.ltb_spec z lo).
    + destruct (Z.leb_spec z (2 ^ 31 - 1)); [|lia]. cbn [orb]. f_equal. unfold clamp. lia.
    + destruct (Z.ltb_spec hi (i32 z)); [rewrite orb_true_r; f_equal; unfold clamp; lia|].
      rewrite orb_false_r. destruct (Z.leb_spec z (2 ^ 31 - 1)); [lia|]. cbn [orb].
      by destruct (Z.ltb_spec (2 ^ 63 - 1) z); [lia|].
  - destruct (Z.eqb_spec (i32 z) z) as [->|], (Z.ltb_spec z lo), (Z.ltb_spec hi z); try done; try lia;
      by rewrite ?orb_true_r.
Qed.

Lemma validate_erange mode z : z < LLONG_MIN \/ LLONG_MAX < z ->
  validate_range (int_arg lo hi mode) (clamp LLONG_MIN LLONG_MAX z) true = out_of_range mode z.
Proof using Hlo Hhi Hle.
  intros Hz. unfold validate_range, out_of_range. cbn [int_arg arg_signed arg_min arg_max range_mode orb andb].
  destruct mode; [done|]. unfold INT_MIN, INT_MAX, LLONG_MIN, LLONG_MAX in *. destruct Hz as [Hz|Hz].
  - replace (clamp (- 2 ^ 63) (2 ^ 63 - 1) z) with (- 2 ^ 63) by (unfold clamp; lia).
    destruct (Z.ltb_spec (- 2 ^ 63) lo); [|lia]. destruct (Z.leb_spec z (2 ^ 31 - 1)); [|lia].
    cbn [orb]. f_equal. unfold clamp. lia.
  - replace (clamp (- 2 ^ 63) (2 ^ 63 - 1) z) with (2 ^ 63 - 1) by (unfold clamp; lia).
    destruct (Z.ltb_spec (2 ^ 63 - 1) lo); [lia|]. destruct (Z.ltb_spec (2 ^ 63 - 1) z); [|lia].
    rewrite Z.eqb_refl, !orb_true_r. change (2 ^ 63 - 1 =? - 2 ^ 63) with false. cbn [orb]. f_equal. unfold clamp. lia.
Qed.

Lemma parse_int_argument_ok (mode : OutOfRangeMode) (arg : str) :
  parse_int_argument (int_arg lo hi mode) arg =
    match number_of 10 arg with
    | None => Exit EX_USAGE
    | Some z => if (lo <=? z) && (z <=? hi) then Ret z else out_of_range mode z
    end.
Proof using Hlo Hhi Hle.
  unfold parse_int_argument. cbn [int_arg arg_signed arg_base].
  pose proof (strtoll_number arg) as Hn. destruct (number_of 10 arg) as [z|].
  - destruct Hn as [-> Hne]. replace (length arg =? 0)%nat with false by by destruct arg. cbn [negb orb length Nat.eqb].
    destruct (Z.leb_spec LLONG_MIN z), (Z.leb_spec z LLONG_MAX); cbn [andb negb].
    + replace (clamp LLONG_MIN LLONG_MAX z) with z by (unfold clamp; lia).
      destruct (Z.leb_spec lo z), (Z.leb_spec z hi); cbn [andb]; [by apply validate_within|apply validate_outside..]; lia.
    + rewrite validate_erange by lia. destruct (Z.leb_spec z hi); [unfold INT_MAX, LLONG_MAX in *; lia|]. by rewrite andb_false_r.
    + rewrite validate_erange by lia. destruct (Z.leb_spec lo z); [unfold INT_MIN, LLONG_MIN in *; lia|done].
    + rewrite validate_erange by lia. destruct (Z.leb_spec lo z); [unfold INT_MIN, LLONG_MIN in *; lia|done].
  - destruct Hn as [-> | (v & rest & e & -> & Hr)]; [by vm_compute|]. by destruct rest.
Qed.

(** The unsigned option keeps the low 32 bits of what strtoull() gives. *)
Lemma parse_logdata_ok (arg : str) :
  parse_int_argument logdata_arg arg =
    match number_of 0 arg with
    | None => Exit EX_USAGE
    | Some z => Ret (if ULLONG_MAX <? Z.abs z then UINT_MAX else u32 z)
    end.
Proof using Type.
  unfold parse_int_argument, number_of. cbn [logdata_arg arg_signed arg_base]. unfold strtoull.
  destruct arg as [|c arg]; [done|]. set (a := c :: arg).
  destruct (strto 0 a) as [[[neg m] rest]|] eqn:E; [|done]. pose proof (strto_magnitude 0 a neg m rest ltac:(done) E) as Hm.
  assert (Z.abs (if neg then - m else m) = m) as Habs by (destruct neg; lia).
  destruct rest as [|x rest]; [|by destruct (ULLONG_MAX <? m)]. rewrite Habs.
  destruct (Z.ltb_spec ULLONG_MAX m) as [Hb|Hb]; cbn [length Nat.eqb negb orb]; unfold validate_range; cbn [logdata_arg arg_signed arg_min arg_max range_mode].
  - cbn [orb]. by vm_compute.
  - generalize (if neg then - m else m). intros z. rewrite orb_false_l. cbn [andb]. rewrite !orb_false_r.
    pose proof (wrap_u_range 64 ltac:(lia) z) as H64. pose proof (wrap_u_range 32 ltac:(lia) (u64 z)) as H32. unfold in_u in H64, H32.
    assert (u32 (u64 z) = u32 z) as <-.
    { unfold u32, u64, wrap_u. rewrite <- !land_ones_mod, <- Z.land_assoc by lia. f_equal. }
    destruct (Z.ltb_spec (u64 z) 0); [unfold u64 in *; lia|]. destruct (Z.ltb_spec UINT_MAX (u32 (u64 z))); [unfold UINT_MAX, u32 in *; lia|].
    by destruct (_ || _).
Qed.

(** C40. A number on the command line. The options that take a signed number, all
    in base 10: an argument is refused unless it is nothing but a number; one
    within the limits is taken as it is; one outside them is refused or, when the
    option saturates, replaced by the nearest limit, except that of a number above
    INT_MAX that a long long can hold the low 32 bits are the result, which may be
    below the lower limit, when they are not above the upper one. The one unsigned
    option, --max-logdata, accepts any base and is declared to saturate, but never
    does: its result is the low 32 bits of the number, whatever its sign, and
    UINT_MAX only when the number does not fit 64 bits. *)
Theorem parse_int_argument_spec (mode : OutOfRangeMode) (arg : str) :
  parse_int_argument (int_arg lo hi mode) arg =
    match number_of 10 arg with
    | None => Exit EX_USAGE
    | Some z => if (lo <=? z) && (z <=? hi) then Ret z else out_of_range mode z
    end /\
  parse_int_argument logdata_arg arg =
    match number_of 0 arg with
    | None => Exit EX_USAGE
    | Some z => Ret (if ULLONG_MAX <? Z.abs z then UINT_MAX else u32 z)
    end.
Proof using Hlo Hhi Hle. split; [by apply parse_int_argument_ok|by apply parse_logdata_ok]. Qed.
End IntArguments.

Lemma parse_int_argument_spec_witness :
  parse_int_argument (int_arg 0 50 Saturate) (L "70") = Ret 50 /\
  parse_int_argument (int_arg 0 50 Saturate) (L "4294967291") = Ret (-5).
Proof.
  split.
  - refine (eq_trans (proj1 (parse_int_argument_spec 0 50 _ _ _ Saturate (L "70"))) _); by vm_compute.
  - refine (eq_trans (proj1 (parse_int_argument_spec 0 50 _ _ _ Saturate (L "4294967291"))) _); by vm_compute.
Defined.

(** The help says of --max-logdata that "a value of less than or equal to 0 means
    that there is no limit", and of -n that 0 stands for all processors. *)
Example negative_logdata : parse_int_argument logdata_arg (L "-5") = Ret 4294967291.
Proof. by vm_compute. Qed.
Example large_logdata : parse_int_argument logdata_arg (L "0x100000005") = Ret 5.
Proof. by vm_compute. Qed.
Example zero_threads : parse_int_argument (int_arg 1 8 Saturate) (L "0") = Ret 1.
Proof. by vm_compute. Qed.

(** * The settings *)

Inductive Action := list_tests | list_group | dump_cpu_info | version | exit | run.
Inductive Schedule := NoSchedule | BarrierSchedule | QueueSchedule | RandomSchedule.

Definition TEST_QUALITY_SKIP : Z := -1.
Definition TEST_QUALITY_OPTIONAL : Z := 1.
Definition TEST_QUALITY_PROD : Z := 2.

(** What the options set in SandstoneApplication::SharedMemory. *)
Record ShmOpts := {
  verbosity : Z;
  max_messages_per_thread : Z;
  max_logdata_per_thread : Z;
  output_format : OutputFormat;
  output_yaml_indent : Z;
  log_test_knobs : bool;
  use_strict_runtime : bool;
  selftest : bool;
  ud_on_failure : bool;
}.
#[export] Instance ShmOpts_eta : Eta ShmOpts := fun r =>
  Build_ShmOpts (verbosity r) (max_messages_per_thread r) (max_logdata_per_thread r) (output_format r)
    (output_yaml_indent r) (log_test_knobs r) (use_strict_runtime r) (selftest r) (ud_on_failure r).

(** What they set in SandstoneApplication: numbers and times, ... *)
Record AppNumbers := {
  requested_quality : Z;
  inject_idle : Z;
  retest_count : Z;
  total_retest_count : Z;
  max_test_count : Z;
  max_test_loop_count : Z;
  mce_check_period : Z;
  thermal_throttle_temp : Z;
  endtime : Z;
  test_time : Z;
  max_test_time : Z;
  delay_between_tests : Z;
}.
#[export] Instance AppNumbers_eta : Eta AppNumbers := fun r =>
  Build_AppNumbers (requested_quality r) (inject_idle r) (retest_count r) (total_retest_count r) (max_test_count r)
    (max_test_loop_count r) (mce_check_period r) (thermal_throttle_temp r) (endtime r) (test_time r) (max_test_time r)
    (delay_between_tests r).

(** ... and the others. *)
Record AppFlags := {
  fork_mode : ForkMode;
  file_log_path : str;
  syslog : bool;
  fatal_skips : bool;
  ignore_mce_errors : bool;
  ignore_os_errors : bool;
  force_test_time : bool;
  service_background_scan : bool;
  vary_frequency_mode : bool;
  vary_uncore_frequency_mode : bool;
  gdb_server_comm : str;
  test_tests : bool;
  device_schedule : Schedule;
}.
#[export] Instance AppFlags_eta : Eta AppFlags := fun r =>
  Build_AppFlags (fork_mode r) (file_log_path r) (syslog r) (fatal_skips r) (ignore_mce_errors r) (ignore_os_errors r)
    (force_test_time r) (service_background_scan r) (vary_frequency_mode r) (vary_uncore_frequency_mode r)
    (gdb_server_comm r) (test_tests r) (device_schedule r).

(** struct ParsedCmdLineOpts *)
Record ParsedCmdLineOpts := {
  action : Action;
  seed : option str;
  max_cores_per_slice_ : Z;
  thread_count_ : Z;
  fatal_errors : bool;
  on_hang_arg : option str;
  on_crash_arg : option str;
  cpuset : option str;
  list_group_name : option str;
  list_descriptions : bool;
  list_tests_too : bool;
  list_groups_too : bool;
  enabled_tests : list str;
  disabled_tests : list str;
  test_list_file_path : option str;
  ignore_unknown : bool;
  randomize_tests : bool;
  cycle_through : bool;
  selftest_set : bool;
  builtin_test_list_name : option str;
}.
#[export] Instance ParsedCmdLineOpts_eta : Eta ParsedCmdLineOpts := fun r =>
  Build_ParsedCmdLineOpts (action r) (seed r) (max_cores_per_slice_ r) (thread_count_ r) (fatal_errors r)
    (on_hang_arg r) (on_crash_arg r) (cpuset r) (list_group_name r) (list_descriptions r) (list_tests_too r)
    (list_groups_too r) (enabled_tests r) (disabled_tests r) (test_list_file_path r) (ignore_unknown r)
    (randomize_tests r) (cycle_through r) (selftest_set r) (builtin_test_list_name r).

Record Settings := { o_shm : ShmOpts; o_num : AppNumbers; o_app : AppFlags; o_cmd : ParsedCmdLineOpts; o_knobs : Knobs }.
#[export] Instance Settings_eta : Eta Settings := fun r =>
  Build_Settings (o_shm r) (o_num r) (o_app r) (o_cmd r) (o_knobs r).

(** The members' initialisers. *)
Definition default_settings (default_format : OutputFormat) : Settings :=
  {| o_shm := Build_ShmOpts (-1) 5 128 default_format 0 false false false false;
     o_num := Build_AppNumbers TEST_QUALITY_PROD 0 10 (-2) INT_MAX 0 0 (-1) 0 0 0 5;
     o_app := Build_AppFlags fork_each_test [] false false false false false false false false [] false NoSchedule;
     o_cmd := Build_ParsedCmdLineOpts run None 0 (-1) false None None None None false false false [] [] None
                false false false false None;
     o_knobs := [] |}.

(** * The options

    One constructor per case of the switch, with optarg; the cases are in three
    groups in the order of the source. *)
Inductive LetterOption :=
| disable_option (arg : str) | opt_e (arg : str) | opt_f (arg : str) | opt_F | opt_h | opt_l
| raw_list_tests | raw_list_groups | raw_list_group_members (arg : str)
| opt_n (arg : str) | opt_o (arg : str) | opt_O (arg : str) | opt_q | opt_s (arg : str) | opt_t (arg : str)
| force_test_time_option | opt_T (arg : str) | opt_v | opt_Y (arg : option str) | cpuset_option (arg : str)
| dump_cpu_info_option.

Inductive ModeOption :=
| fatal_skips_option | gdb_server_option (arg : str) | ignore_mce_errors_option | ignore_os_errors_option
| ignore_unknown_tests_option | include_optional_option | inject_idle_option (arg : str) | is_build_option
| max_cores_per_slice_option (arg : str) | mce_check_period_option (arg : str) | no_slicing_option
| on_crash_option (arg : str) | on_hang_option (arg : str) | output_format_option (arg : str)
| quality_option (arg : str) | quick_run_option | retest_on_failure_option (arg : str) | reschedule_option (arg : str)
| strict_runtime_option | syslog_runtime_option | selftest_option | service_option | ud_on_failure_option
| use_builtin_test_list_option (arg : option str).

Inductive LimitOption :=
| temperature_threshold_option (arg : str) | test_delay_option (arg : str) | test_tests_option | timeout_option (arg : str)
| total_retest_on_failure (arg : str) | test_list_file_option (arg : str) | test_list_randomize_option
| max_logdata_option (arg : str) | max_messages_option (arg : str) | vary_frequency | vary_uncore_frequency
| version_option | one_sec_option | thirty_sec_option | two_min_option | five_min_option
| max_test_count_option (arg : str) | max_test_loop_count_option (arg : str) | deprecated_option
| opt_0 (quality : Z) | unknown_option.

Inductive Option := Letter (o : LetterOption) | Mode (o : ModeOption) | Limit (o : LimitOption).

Section Options.
(** What the program knows when it parses the command line: the number of
    threads, the start time in nanoseconds, boost::split() and the build. *)
Context (thread_count starttime : Z) (split : str -> list str).
Context (debug_build has_builtin_test_list frequency_manager_works : bool).

(** Going on with the next option, and returning from parse_cmdline(). *)
Definition continue (s : Settings) : outcome (Settings * option Z) := Ret (s, None).
Definition return_ (code : Z) (s : Settings) : outcome (Settings * option Z) := Ret (s, Some code).

Definition on_cmd (f : ParsedCmdLineOpts -> ParsedCmdLineOpts) (s : Settings) : Settings := s <| o_cmd := f (o_cmd s) |>.
Definition on_app (f : AppFlags -> AppFlags) (s : Settings) : Settings := s <| o_app := f (o_app s) |>.
Definition on_num (f : AppNumbers -> AppNumbers) (s : Settings) : Settings := s <| o_num := f (o_num s) |>.
Definition on_shm (f : ShmOpts -> ShmOpts) (s : Settings) : Settings := s <| o_shm := f (o_shm s) |>.

Definition ns_of_ms (ms : Z) : Z := ms * 1000000.

(** The modes of -f, [None] when the argument is unknown. *)
Definition fork_mode_of (arg : str) : option ForkMode :=
  if str_eqb arg (L "no") || str_eqb arg (L "no-fork") then Some no_fork
  else if str_eqb arg (L "exec") then Some exec_each_test
  else if str_eqb arg (L "yes") || str_eqb arg (L "each-test") then Some fork_each_test
  else None.

(** The lower case letters, the lists, and what is between them. *)
Definition apply_letter (o : LetterOption) (s : Settings) : outcome (Settings * option Z) :=
  match o with
  | disable_option arg => continue (on_cmd (fun c => c <| disabled_tests := disabled_tests c ++ [arg] |>) s)
  | opt_e arg => continue (on_cmd (fun c => c <| enabled_tests := enabled_tests c ++ [arg] |>) s)
  | opt_f arg =>
      match fork_mode_of arg with
      | Some m => continue (on_app (fun a => a <| fork_mode := m |>) s)
      | None => return_ EX_USAGE s
      end
  | opt_F => continue (on_cmd (fun c => c <| fatal_errors := true |>) s)
  | opt_h => return_ EXIT_SUCCESS (on_cmd (fun c => c <| action := exit |>) s)
  | opt_l =>
      return_ EXIT_SUCCESS (on_cmd (fun c => c <| list_descriptions := true |> <| list_tests_too := true |>
                                               <| list_groups_too := true |> <| action := list_tests |>) s)
  | raw_list_tests =>
      return_ EXIT_SUCCESS (on_cmd (fun c => c <| list_tests_too := true |> <| action := list_tests |>) s)
  | raw_list_groups =>
      return_ EXIT_SUCCESS (on_cmd (fun c => c <| list_groups_too := true |> <| action := list_tests |>) s)
  | raw_list_group_members arg =>
      return_ EXIT_SUCCESS (on_cmd (fun c => c <| action := list_group |> <| list_group_name := Some arg |>) s)
  | opt_n arg =>
      n ← parse_int_argument (int_arg 1 thread_count Saturate) arg;
      continue (on_cmd (fun c => c <| thread_count_ := n |>) s)
  | opt_o arg => continue (on_app (fun a => a <| file_log_path := arg |>) s)
  | opt_O arg =>
      let s := on_shm (fun m => m <| log_test_knobs := true |>) s in
      let '(knobs, ok) := set_knob_from_key_value_string split arg (o_knobs s) in
      if negb ok then return_ EX_USAGE s else continue (s <| o_knobs := knobs |>)
  | opt_q => continue (on_shm (fun m => m <| verbosity := 0 |>) s)
  | opt_s arg => continue (on_cmd (fun c => c <| seed := Some arg |>) s)
  | opt_t arg => ms ← string_to_millisecs arg; continue (on_num (fun n => n <| test_time := ms |>) s)
  | force_test_time_option => continue (on_app (fun a => a <| force_test_time := true |>) s)
  | opt_T arg =>
      t ← (if str_eqb arg (L "forever") then Ret time_max
           else ms ← string_to_millisecs arg; Ret (starttime + ns_of_ms ms));
      continue (on_cmd (fun c => c <| cycle_through := true |>) (on_num (fun n => n <| endtime := t |>) s))
  | opt_v =>
      continue (on_shm (fun m => m <| verbosity := if verbosity m <? 0 then 1 else verbosity m + 1 |>) s)
  | opt_Y arg =>
      let s := on_shm (fun m => m <| output_format := yaml |>) s in
      match arg with
      | None => continue s
      | Some arg => n ← parse_int_argument (int_arg 0 160 ExitMode) arg;
                    continue (on_shm (fun m => m <| output_yaml_indent := n |>) s)
      end
  | cpuset_option arg => continue (on_cmd (fun c => c <| cpuset := Some arg |>) s)
  | dump_cpu_info_option => return_ EXIT_SUCCESS (on_cmd (fun c => c <| action := dump_cpu_info |>) s)
  end.

(** The formats of --output-format; "none" is for debug builds and silences
    the program. *)
Definition set_output_format (arg : str) (m : ShmOpts) : option ShmOpts :=
  if str_eqb arg (L "key-value") then Some (m <| output_format := key_value |>)
  else if str_eqb arg (L "tap") then Some (m <| output_format := tap |>)
  else if str_eqb arg (L "yaml") then Some (m <| output_format := yaml |>)
  else if debug_build && str_eqb arg (L "none")
       then Some (m <| output_format := no_output |> <| verbosity := -1 |>)
  else None.

(** The schedules of --reschedule; "none" leaves what an earlier option has
    set. *)
Definition set_schedule (arg : str) (a : AppFlags) : option AppFlags :=
  if str_eqb arg (L "none") then Some a
  else if str_eqb arg (L "barrier") then Some (a <| device_schedule := BarrierSchedule |>)
  else if str_eqb arg (L "queue") then Some (a <| device_schedule := QueueSchedule |>)
  else if str_eqb arg (L "random") then Some (a <| device_schedule := RandomSchedule |>)
  else None.

Definition apply_mode (o : ModeOption) (s : Settings) : outcome (Settings * option Z) :=
  match o with
  | fatal_skips_option => continue (on_app (fun a => a <| fatal_skips := true |>) s)
  | gdb_server_option arg => continue (on_app (fun a => a <| gdb_server_comm := arg |>) s)
  | ignore_mce_errors_option => continue (on_app (fun a => a <| ignore_mce_errors := true |>) s)
  | ignore_os_errors_option => continue (on_app (fun a => a <| ignore_os_errors := true |>) s)
  | ignore_unknown_tests_option => continue (on_cmd (fun c => c <| ignore_unknown := true |>) s)
  | include_optional_option =>
      if requested_quality (o_num s) <? TEST_QUALITY_OPTIONAL then continue s
      else continue (on_num (fun n => n <| requested_quality := TEST_QUALITY_OPTIONAL |>) s)
  | inject_idle_option arg =>
      n ← parse_int_argument (int_arg 0 50 Saturate) arg; continue (on_num (fun a => a <| inject_idle := n |>) s)
  | is_build_option => return_ EXIT_SUCCESS (on_cmd (fun c => c <| action := exit |>) s)
  | max_cores_per_slice_option arg =>
      n ← parse_int_argument (int_arg (-1) INT_MAX ExitMode) arg;
      continue (on_cmd (fun c => c <| max_cores_per_slice_ := n |>) s)
  | mce_check_period_option arg =>
      n ← parse_int_argument (int_arg 0 INT_MAX ExitMode) arg; continue (on_num (fun a => a <| mce_check_period := n |>) s)
  | no_slicing_option => continue (on_cmd (fun c => c <| max_cores_per_slice_ := -1 |>) s)
  | on_crash_option arg => continue (on_cmd (fun c => c <| on_crash_arg := Some arg |>) s)
  | on_hang_option arg => continue (on_cmd (fun c => c <| on_hang_arg := Some arg |>) s)
  | output_format_option arg =>
      match set_output_format arg (o_shm s) with
      | Some m => continue (s <| o_shm := m |>)
      | None => return_ EX_USAGE s
      end
  | quality_option arg =>
      n ← parse_int_argument (int_arg TEST_QUALITY_SKIP TEST_QUALITY_PROD Saturate) arg;
      continue (on_num (fun a => a <| requested_quality := n |>) s)
  | quick_run_option => continue (on_num (fun n => n <| max_test_loop_count := 1 |> <| delay_between_tests := 0 |>) s)
  | retest_on_failure_option arg =>
      n ← parse_int_argument (int_arg 0 128 Saturate) arg; continue (on_num (fun a => a <| retest_count := n |>) s)
  | reschedule_option arg =>
      if thread_count <? 2 then return_ EX_USAGE s
      else match set_schedule arg (o_app s) with
           | Some a => continue (s <| o_app := a |>)
           | None => return_ EX_USAGE s
           end
  | strict_runtime_option => continue (on_shm (fun m => m <| use_strict_runtime := true |>) s)
  | syslog_runtime_option => continue (on_app (fun a => a <| syslog := true |>) s)
  | selftest_option =>
      continue (on_cmd (fun c => c <| selftest_set := true |>) (on_shm (fun m => m <| selftest := true |>) s))
  | service_option =>
      continue (on_app (fun a => a <| service_background_scan := true |>)
        (on_num (fun n => n <| endtime := time_max |>) (on_cmd (fun c => c <| fatal_errors := true |>) s)))
  | ud_on_failure_option => continue (on_shm (fun m => m <| ud_on_failure := true |>) s)
  | use_builtin_test_list_option arg =>
      if negb has_builtin_test_list then return_ EX_USAGE s
      else continue (on_cmd (fun c => c <| builtin_test_list_name := Some (default (L "auto") arg) |>) s)
  end.

(** --1sec and the like. *)
Definition timed_run (ms : Z) (s : Settings) : Settings :=
  on_num (fun n => n <| endtime := starttime + ns_of_ms ms |>)
    (on_shm (fun m => m <| use_strict_runtime := true |>)
      (on_cmd (fun c => c <| randomize_tests := true |> <| cycle_through := true |>) s)).

Definition apply_limit (o : LimitOption) (s : Settings) : outcome (Settings * option Z) :=
  match o with
  | temperature_threshold_option arg =>
      t ← (if str_eqb arg (L "disable") then Ret (-1) else parse_int_argument (int_arg 0 160000 Saturate) arg);
      continue (on_num (fun n => n <| thermal_throttle_temp := t |>) s)
  | test_delay_option arg =>
      ms ← string_to_millisecs arg; continue (on_num (fun n => n <| delay_between_tests := ms |>) s)
  | test_tests_option =>
      if debug_build
      then continue (on_num (fun n => n <| retest_count := 0 |>) (on_app (fun a => a <| test_tests := true |>) s))
      else continue s
  | timeout_option arg => ms ← string_to_millisecs arg; continue (on_num (fun n => n <| max_test_time := ms |>) s)
  | total_retest_on_failure arg =>
      n ← parse_int_argument (int_arg (-1) INT_MAX ExitMode) arg;
      continue (on_num (fun a => a <| total_retest_count := n |>) s)
  | test_list_file_option arg => continue (on_cmd (fun c => c <| test_list_file_path := Some arg |>) s)
  | test_list_randomize_option => continue (on_cmd (fun c => c <| randomize_tests := true |>) s)
  | max_logdata_option arg =>
      n ← parse_int_argument logdata_arg arg;
      continue (on_shm (fun m => m <| max_logdata_per_thread := if n =? 0 then UINT_MAX else n |>) s)
  | max_messages_option arg =>
      n ← parse_int_argument (int_arg (-1) INT_MAX Saturate) arg;
      continue (on_shm (fun m => m <| max_messages_per_thread := if n <=? 0 then INT_MAX else n |>) s)
  | vary_frequency =>
      if negb frequency_manager_works then return_ EX_USAGE s
      else continue (on_app (fun a => a <| vary_frequency_mode := true |>) s)
  | vary_uncore_frequency =>
      if negb frequency_manager_works then return_ EX_USAGE s
      else continue (on_app (fun a => a <| vary_uncore_frequency_mode := true |>) s)
  | version_option => return_ EXIT_SUCCESS (on_cmd (fun c => c <| action := version |>) s)
  | one_sec_option => continue (timed_run 1000 s)
  | thirty_sec_option => continue (timed_run 30000 s)
  | two_min_option => continue (timed_run 120000 s)
  | five_min_option => continue (timed_run 300000 s)
  | max_test_count_option arg =>
      n ← parse_int_argument (int_arg 0 INT_MAX ExitMode) arg; continue (on_num (fun a => a <| max_test_count := n |>) s)
  | max_test_loop_count_option arg =>
      n ← parse_int_argument (int_arg 0 INT_MAX ExitMode) arg;
      continue (on_num (fun a => a <| max_test_loop_count := if n =? 0 then INT_MAX else n |>) s)
  | deprecated_option => continue s
  | opt_0 quality => continue (on_num (fun n => n <| requested_quality := quality |>) s)
  | unknown_option => return_ EX_USAGE s
  end.

Definition apply_option (o : Option) : Settings -> outcome (Settings * option Z) :=
  match o with Letter o => apply_letter o | Mode o => apply_mode o | Limit o => apply_limit o end.

(** parse_cmdline() of the full command line, on what getopt_long() finds:
    the options, and whether arguments are left. *)
Fixpoint parse_cmdline (options : list Option) (arguments_left : bool) (s : Settings) : outcome (Settings * Z) :=
  match options with
  | [] => Ret (s, if arguments_left then EX_USAGE else EXIT_SUCCESS)
  | o :: options =>
      r ← apply_option o s;
      match r.2 with
      | Some code => Ret (r.1, code)
      | None => parse_cmdline options arguments_left r.1
      end
  end.
End Options.

(** * The settings stay within their limits *)

Definition within (lo hi z : Z) : Prop := lo <= z <= hi.

Definition shm_in_range (m : ShmOpts) : Prop :=
  within 1 INT_MAX (max_messages_per_thread m) /\ within 1 UINT_MAX (max_logdata_per_thread m) /\
  within 0 160 (output_yaml_indent m).

Definition num_in_range (n : AppNumbers) : Prop :=
  within TEST_QUALITY_SKIP TEST_QUALITY_PROD (requested_quality n) /\ within 0 50 (inject_idle n) /\
  within 0 128 (retest_count n) /\ within (-2) INT_MAX (total_retest_count n) /\ within 0 INT_MAX (max_test_count n) /\
  within 0 INT_MAX (max_test_loop_count n) /\ within 0 INT_MAX (mce_check_period n) /\
  within (-1) 160000 (thermal_throttle_temp n).

Definition cmd_in_range (thread_count : Z) (c : ParsedCmdLineOpts) : Prop :=
  within (-1) INT_MAX (max_cores_per_slice_ c) /\ (thread_count_ c = -1 \/ within 1 thread_count (thread_count_ c)).

Definition in_range (thread_count : Z) (s : Settings) : Prop :=
  shm_in_range (o_shm s) /\ num_in_range (o_num s) /\ cmd_in_range thread_count (o_cmd s).

(** An argument whose number, if it is one, fits in an int or not even in a
    long long. *)
Definition moderate (arg : str) : Prop :=
  match number_of 10 arg with Some z => z <= INT_MAX \/ LLONG_MAX < z | None => True end.

(** The options whose numbers saturate, and the ones that set the quality. *)
Definition option_ok (o : Option) : Prop :=
  match o with
  | Letter (opt_n arg) | Mode (inject_idle_option arg) | Mode (quality_option arg)
  | Mode (retest_on_failure_option arg) | Limit (temperature_threshold_option arg) => moderate arg
  | Limit (opt_0 quality) => within TEST_QUALITY_SKIP TEST_QUALITY_PROD quality
  | _ => True
  end.

Lemma int_arg_range lo hi mode arg n : INT_MIN <= lo -> hi <= INT_MAX -> lo <= hi ->
  parse_int_argument (int_arg lo hi mode) arg = Ret n -> mode = ExitMode \/ moderate arg -> within lo hi n.
Proof.
  intros Hlo Hhi Hle H Hm. rewrite parse_int_argument_ok in H by done. unfold moderate, within in *.
  destruct (number_of 10 arg) as [z|]; [|done].
  destruct (Z.leb_spec lo z), (Z.leb_spec z hi); simpl in H; [simplify_eq; lia|..];
    (unfold out_of_range in H; destruct mode; [done|]; destruct Hm as [?|Hm]; [done|]);
    (destruct (Z.leb_spec z INT_MAX), (Z.ltb_spec LLONG_MAX z); simpl in H; [..|lia]); simplify_eq; unfold clamp; lia.
Qed.

Lemma int_arg_type lo hi mode arg n : INT_MIN <= lo -> hi <= INT_MAX -> lo <= hi ->
  parse_int_argument (int_arg lo hi mode) arg = Ret n -> within INT_MIN INT_MAX n.
Proof.
  intros Hlo Hhi Hle H. rewrite parse_int_argument_ok in H by done. unfold within in *.
  destruct (number_of 10 arg) as [z|]; [|done].
  destruct (Z.leb_spec lo z), (Z.leb_spec z hi); simpl in H; [simplify_eq; lia|..];
    (unfold out_of_range in H; destruct mode; [done|]);
    destruct (_ || _); simplify_eq; pose proof (wrap_s_range 32 ltac:(lia) z) as Hw;
    unfold in_s, clamp, INT_MIN, INT_MAX in *; lia.
Qed.

Lemma unsigned_arg_type a arg n : arg_signed a = false -> arg_min a = 0 -> arg_max a = UINT_MAX ->
  parse_int_argument a arg = Ret n -> within 0 UINT_MAX n.
Proof.
  intros Hs Hmin Hmax H. unfold parse_int_argument in H. rewrite Hs in H.
  destruct (strtoull (arg_base a) arg) as [[parsed rest] e]. destruct (_ || _); [done|].
  unfold validate_range in H. rewrite Hs, Hmin, Hmax in H.
  pose proof (wrap_u_range 32 ltac:(lia) parsed) as Hw. unfold in_u, within, UINT_MAX in *.
  destruct (e || _ || _ || _); [destruct (range_mode a); [done|]|]; simplify_eq; [|lia].
  destruct (_ || _); [lia|]. destruct (_ || _); lia.
Qed.

Section CmdlineFacts.
Context (thread_count starttime : Z) (split : str -> list str).
Context (debug_build has_builtin_test_list frequency_manager_works : bool).
Context (Htc : 1 <= thread_count <= INT_MAX).

Lemma range_cmd f s : in_range thread_count s ->
  (cmd_in_range thread_count (o_cmd s) -> cmd_in_range thread_count (f (o_cmd s))) -> in_range thread_count (on_cmd f s).
Proof using Type. intros (Hm & Hn & Hc) Hf. exact (conj Hm (conj Hn (Hf Hc))). Qed.
Lemma range_num f s : in_range thread_count s ->
  (num_in_range (o_num s) -> num_in_range (f (o_num s))) -> in_range thread_count (on_num f s).
Proof using Type. intros (Hm & Hn & Hc) Hf. exact (conj Hm (conj (Hf Hn) Hc)). Qed.
Lemma range_shm f s : in_range thread_count s ->
  (shm_in_range (o_shm s) -> shm_in_range (f (o_shm s))) -> in_range thread_count (on_shm f s).
Proof using Type. intros (Hm & Hn & Hc) Hf. exact (conj (Hf Hm) (conj Hn Hc)). Qed.

(** Takes the result of an option apart. *)
Ltac option_result H :=
  unfold continue, return_ in H; cbv zeta in H;
  repeat match type of H with
  | Ret _ = Ret _ => injection H as <- <-
  | (_ ≫= _) = Ret _ => apply outcome_bind_ret in H as (? & ? & H)
  | match ?x with _ => _ end = Ret _ => destruct x eqn:?
  | _ => discriminate H
  end.

(** The numbers that were parsed are within the limits of their options. *)
Ltac arg_limits :=
  match goal with
  | E : parse_int_argument (int_arg ?lo ?hi ?mode) ?arg = Ret ?n |- _ =>
      let side := unfold INT_MIN, INT_MAX, TEST_QUALITY_SKIP, TEST_QUALITY_PROD in *; lia in
      assert (within INT_MIN INT_MAX n) by (apply (int_arg_type lo hi mode arg n); [side..|exact E]);
      try (assert (within lo hi n) by (apply (int_arg_range lo hi mode arg n); [side..|exact E|auto]))
  | E : parse_int_argument ?a ?arg = Ret ?n |- _ =>
      assert (within 0 UINT_MAX n) by exact (unsigned_arg_type a arg n eq_refl eq_refl eq_refl E)
  | _ => idtac
  end.

(** One group of settings after one of its members was set. *)
Ltac member_limits :=
  let Hx := fresh "Hx" in
  intros Hx; arg_limits; unfold shm_in_range, num_in_range, cmd_in_range in Hx |- *;
  destruct_and? Hx; cbn;
  repeat match goal with |- _ /\ _ => split; [try assumption|] end;
  try first [assumption | right; assumption];
  try match goal with
  | |- within _ _ _ => unfold within, INT_MIN, INT_MAX, UINT_MAX, TEST_QUALITY_SKIP, TEST_QUALITY_PROD,
      TEST_QUALITY_OPTIONAL in *; repeat case_match; lia
  end.

Ltac keeps_range :=
  match goal with
  | H : in_range _ ?s |- in_range _ ?s => exact H
  | |- in_range _ (on_cmd _ _) => apply range_cmd; [keeps_range|first [exact (fun H => H)|member_limits]]
  | |- in_range _ (on_num _ _) => apply range_num; [keeps_range|first [exact (fun H => H)|member_limits]]
  | |- in_range _ (on_shm _ _) => apply range_shm; [keeps_range|first [exact (fun H => H)|member_limits]]
  | H : in_range _ _ |- _ => exact H
  end.

Lemma apply_letter_range o s s' r : option_ok (Letter o) -> in_range thread_count s ->
  apply_letter thread_count starttime split o s = Ret (s', r) -> in_range thread_count s'.
Proof using Htc.
  intros Hok Hr H. destruct o; cbn [apply_letter option_ok] in *; option_result H; keeps_range.
Qed.

Lemma set_output_format_range arg m m' :
  set_output_format debug_build arg m = Some m' -> shm_in_range m -> shm_in_range m'.
Proof using Type. unfold set_output_format. intros H Hm. by repeat case_match; simplify_eq. Qed.

Lemma apply_mode_range o s s' r : option_ok (Mode o) -> in_range thread_count s ->
  apply_mode thread_count debug_build has_builtin_test_list o s = Ret (s', r) -> in_range thread_count s'.
Proof using Htc.
  intros Hok Hr H. destruct o; cbn [apply_mode option_ok] in *; option_result H; try keeps_range.
  destruct Hr as (Hm & Hn & Hc). split; [|done]. by eapply set_output_format_range.
Qed.

Lemma apply_limit_range o s s' r : option_ok (Limit o) -> in_range thread_count s ->
  apply_limit starttime debug_build frequency_manager_works o s = Ret (s', r) -> in_range thread_count s'.
Proof using Htc.
  intros Hok Hr H. destruct o; cbn [apply_limit option_ok] in *; option_result H; try keeps_range.
  match goal with E : (if ?b then _ else _) = Ret _ |- _ => destruct b end; simplify_eq; [by unfold within|].
  arg_limits. unfold within in *. lia.
Qed.

(** C37. The command line cannot take the settings out of their limits: from
    settings within their limits, whatever options are given and however
    parsing ends, the numbers that the rest of the program relies on stay
    within theirs (retries at most 128, which is the width of the failure
    pattern, idle injection at most 50%, at least one message and one byte of
    data per thread, ...). The arguments of the saturating options must not be
    numbers that fit in a long long but not in an int. *)
Theorem cmdline_in_range (options : list Option) (left : bool) (s s' : Settings) (code : Z) :
  Forall option_ok options -> in_range thread_count s ->
  parse_cmdline thread_count starttime split debug_build has_builtin_test_list frequency_manager_works options left s
    = Ret (s', code) ->
  in_range thread_count s'.
Proof using Htc.
  revert s. induction options as [|o options IH]; intros s Hok Hr H; simpl in H; [by simplify_eq|].
  apply Forall_cons in Hok as [Ho Hok]. apply outcome_bind_ret in H as ([s1 r] & H1 & H). simpl in H.
  assert (in_range thread_count s1) as Hr1.
  { destruct o; simpl in H1; [by eapply apply_letter_range|by eapply apply_mode_range|by eapply apply_limit_range]. }
  destruct r; [by simplify_eq|by apply (IH s1)].
Qed.
End CmdlineFacts.

Lemma default_in_range fmt n : in_range n (default_settings fmt).
Proof. unfold in_range, shm_in_range, num_in_range, cmd_in_range, within. cbn.
  unfold INT_MAX, UINT_MAX, TEST_QUALITY_SKIP, TEST_QUALITY_PROD. repeat split; lia.
Qed.

Lemma cmdline_in_range_witness :
  let options := [Letter (opt_n (L "99")); Mode (retest_on_failure_option (L "500")); Limit (max_messages_option (L "0"));
                  Letter opt_F] in
  exists s', parse_cmdline 8 0 (split_at "="%char) false false true options false (default_settings tap) = Ret (s', EXIT_SUCCESS) /\
    retest_count (o_num s') = 128 /\ in_range 8 s'.
Proof.
  cbv zeta. eexists. split; [vm_compute; reflexivity|]. split; [reflexivity|].
  refine (cmdline_in_range 8 0 (split_at "="%char) false false true _
    [Letter (opt_n (L "99")); Mode (retest_on_failure_option (L "500")); Limit (max_messages_option (L "0")); Letter opt_F]
    false (default_settings tap) _ EXIT_SUCCESS _ _ _).
  - by vm_compute.
  - repeat constructor; by vm_compute.
  - apply default_in_range.
  - vm_compute. reflexivity.
Defined.

(** A number that an int cannot hold takes an option out of its limits. *)
Example inject_idle_negative :
  exists s', parse_cmdline 8 0 (split_at "="%char) false false true [Mode (inject_idle_option (L "4294967291"))] false
    (default_settings tap) = Ret (s', EXIT_SUCCESS) /\ inject_idle (o_num s') = -5.
Proof. eexists. split; [vm_compute; reflexivity|reflexivity]. Qed.
