(* ===== verification/Scheduler.v ===== *)
(** Moving the test threads between processors while a test runs: the
    interface DeviceSchedule of src/framework/sandstone_p.h and its three
    implementations in src/framework/sandstone_opts.cpp. *)

From S2P Require Import Prelude.

(** * The interface *)

(** A call of pin_to_next_cpu(): the thread, 0 for the calling one, and the
    index of the processor. *)
Record pin := { pin_tid : Z; pin_cpu : nat }.

(** What a schedule reads when it is called: the number of processors, the
    calling thread's number, the threads' system identifiers, the numbers that
    random() and random32() produce, and whether the thread has failed. *)
Record Caller := {
  num_cpus : nat;
  thread_num : nat;
  tid_of : nat -> Z;
  random : Z;
  shuffle : list nat -> list nat;
  has_failed : bool;
}.

(** class DeviceSchedule *)
Class DeviceSchedule (S : Type) := {
  new_schedule : S;
  reschedule_to_next_device : Caller -> S -> outcome (S * list pin);
  finish_reschedule : Caller -> S -> outcome (S * list pin);
}.

(** Shuffling keeps the elements. *)
Definition shuffles (c : Caller) : Prop := forall l, shuffle c l ≡ₚ l.

(** A test thread of a system with [n] processors. *)
Definition caller_ok (n : nat) (c : Caller) : Prop := num_cpus c = n /\ (thread_num c < n)%nat /\ shuffles c.

(** What the test threads rely on: the processors a schedule chooses exist. *)
Class ScheduleOk (S : Type) `{!DeviceSchedule S} (n : nat) := {
  sched_inv : S -> Prop;
  sched_inv_new : sched_inv new_schedule;
  sched_reschedule c s s' pins : caller_ok n c -> sched_inv s -> reschedule_to_next_device c s = Ret (s', pins) ->
    sched_inv s' /\ Forall (fun p => pin_cpu p < n)%nat pins;
  sched_finish c s s' pins : caller_ok n c -> sched_inv s -> finish_reschedule c s = Ret (s', pins) ->
    sched_inv s' /\ Forall (fun p => pin_cpu p < n)%nat pins;
}.

(** A run: the calls of all threads in the order in which they take effect. *)
Inductive call := Reschedule (c : Caller) | Finish (c : Caller).

Definition caller_of (k : call) : Caller := match k with Reschedule c | Finish c => c end.

Definition do_call {S} `{!DeviceSchedule S} (st : S * list pin) (k : call) : outcome (S * list pin) :=
  r ← match k with
      | Reschedule c => reschedule_to_next_device c st.1
      | Finish c => finish_reschedule c st.1
      end;
  Ret (r.1, st.2 ++ r.2).

Definition run_schedule {S} `{!DeviceSchedule S} (calls : list call) : outcome (S * list pin) :=
  fold_outcome do_call calls (new_schedule, []).

Lemma run_schedule_pins {S : Type} {n : nat} `{!DeviceSchedule S} `{!ScheduleOk S n} (calls : list call) s pins :
  Forall (fun k => caller_ok n (caller_of k)) calls ->
  run_schedule (S := S) calls = Ret (s, pins) -> Forall (fun p => pin_cpu p < n)%nat pins.
Proof.
  intros Hn H. rewrite Forall_forall in Hn.
  apply (fold_outcome_inv (fun st => sched_inv st.1 /\ Forall (fun p => pin_cpu p < n)%nat st.2)) in H as [_ Hp]; [done| |].
  - intros [s1 p1] k [s2 p2] Hk [Hi Hp1] E. specialize (Hn k Hk). unfold do_call in E.
    apply outcome_bind_ret in E as ([s3 p3] & E & E'). simpl in *. injection E' as <- <-.
    assert (sched_inv s3 /\ Forall (fun p => pin_cpu p < n)%nat p3) as [H1 H2].
    { destruct k; [by eapply sched_reschedule|by eapply sched_finish]. }
    split; [done|]. by apply Forall_app.
  - split; [apply sched_inv_new|constructor].
Qed.

(** * The random schedule *)

Record RandomDeviceSchedule := {}.

Definition random_reschedule (c : Caller) (s : RandomDeviceSchedule) : outcome (RandomDeviceSchedule * list pin) :=
  if (num_cpus c =? 0)%nat then Ub
  else Ret (s, [{| pin_tid := 0; pin_cpu := Z.to_nat (u32 (random c) mod Z.of_nat (num_cpus c)) |}]).

#[export] Instance RandomDeviceSchedule_schedule : DeviceSchedule RandomDeviceSchedule := {|
  new_schedule := Build_RandomDeviceSchedule;
  reschedule_to_next_device := random_reschedule;
  finish_reschedule c s := Ret (s, []);
|}.

#[export] Program Instance random_schedule_ok n : ScheduleOk RandomDeviceSchedule n := {| sched_inv s := True |}.
Next Obligation. done. Qed.
Next Obligation.
  intros n c s s' pins (<- & _) _ H. split; [done|]. simpl in H. unfold random_reschedule in H.
  destruct (Nat.eqb_spec (num_cpus c) 0); simplify_eq. repeat constructor. simpl.
  pose proof (Z.mod_pos_bound (u32 (random c)) (Z.of_nat (num_cpus c)) ltac:(lia)). lia.
Qed.
Next Obligation. intros n c s s' pins _ _ H. simpl in H. simplify_eq. split; [done|constructor]. Qed.

(** * The queue *)

Record QueueDeviceSchedule := { q_idx : nat; queue : list nat }.

(** shuffle_queue() *)
Definition shuffle_queue (c : Caller) (s : QueueDeviceSchedule) : QueueDeviceSchedule :=
  let q := match queue s with [] => seq 0 (num_cpus c) | q => q end in
  {| q_idx := q_idx s; queue := shuffle c q |}.

(** ++q_idx, back to 0 at the end of the queue. *)
Definition next_index (i len : nat) : nat := if (S i =? len)%nat then O else S i.

Definition queue_reschedule (c : Caller) (s : QueueDeviceSchedule) : outcome (QueueDeviceSchedule * list pin) :=
  let s := if (q_idx s =? 0)%nat then shuffle_queue c s else s in
  next_idx ← of_option (queue s !! q_idx s);
  Ret ({| q_idx := next_index (q_idx s) (length (queue s)); queue := queue s |}, [{| pin_tid := 0; pin_cpu := next_idx |}]).

#[export] Instance QueueDeviceSchedule_schedule : DeviceSchedule QueueDeviceSchedule := {|
  new_schedule := {| q_idx := 0; queue := [] |};
  reschedule_to_next_device := queue_reschedule;
  finish_reschedule c s := Ret (s, []);
|}.

(** * The barrier *)

Definition members_per_group : nat := 2.

(** struct GroupInfo: [arrived] and [expected] are the barrier's counts. *)
Record GroupInfo := { tid : list Z; next_cpu : list nat; arrived : nat; expected : nat }.
Abbreviation BarrierDeviceSchedule := (list GroupInfo).

Definition new_group (members : nat) : GroupInfo :=
  {| tid := replicate members 0; next_cpu := replicate members O; arrived := 0; expected := members |}.

(** on_completion(): std::rotate() by one needs an element. *)
Definition on_completion (g : GroupInfo) : outcome (GroupInfo * list pin) :=
  match next_cpu g with
  | [] => Ub
  | cpu :: cpus =>
      let next := cpus ++ [cpu] in
      pins ← of_option (mapM (fun '(i, t) => cpu ← next !! i; Some {| pin_tid := t; pin_cpu := cpu |}) (imap pair (tid g)));
      Ret ({| tid := tid g; next_cpu := next; arrived := 0; expected := expected g |}, pins)
  end.

(** The barrier after one more arrival: the phase completes when no member is
    missing. *)
Definition arrive (g : GroupInfo) : outcome (GroupInfo * list pin) :=
  if (arrived g =? expected g)%nat then on_completion g else Ret (g, []).

Definition init_groups (n : nat) : BarrierDeviceSchedule :=
  replicate (n / members_per_group) (new_group members_per_group) ++
  (if (0 <? n mod members_per_group)%nat then [new_group (n mod members_per_group)] else []).

(** reschedule_to_next_device() up to where the thread waits. *)
Definition barrier_reschedule (c : Caller) (groups : BarrierDeviceSchedule) : outcome (BarrierDeviceSchedule * list pin) :=
  let groups := match groups with [] => init_groups (num_cpus c) | _ => groups end in
  let g_idx := (thread_num c / members_per_group)%nat in
  let idx := (thread_num c mod members_per_group)%nat in
  g ← of_option (groups !! g_idx);
  t ← of_option (tid g !! idx);
  g ← (if t =? 0 then
         _ ← of_option (next_cpu g !! idx);
         Ret {| tid := <[idx := tid_of c (thread_num c)]> (tid g); next_cpu := <[idx := thread_num c]> (next_cpu g);
                arrived := arrived g; expected := expected g |}
       else Ret g);
  r ← arrive {| tid := tid g; next_cpu := next_cpu g; arrived := S (arrived g); expected := expected g |};
  Ret (<[g_idx := r.1]> groups, r.2).

(** finish_reschedule(): erasing at the end of a vector is undefined. *)
Definition barrier_finish (c : Caller) (groups : BarrierDeviceSchedule) : outcome (BarrierDeviceSchedule * list pin) :=
  match groups with
  | [] => Ret (groups, [])
  | _ =>
      let g_idx := (thread_num c / members_per_group)%nat in
      let idx := (thread_num c mod members_per_group)%nat in
      g ← of_option (groups !! g_idx);
      _ ← of_option (tid g !! idx);
      cpus ← (if has_failed c then _ ← of_option (next_cpu g !! idx); Ret (delete idx (next_cpu g)) else Ret (next_cpu g));
      r ← arrive {| tid := delete idx (tid g); next_cpu := cpus; arrived := arrived g; expected := expected g - 1 |};
      Ret (<[g_idx := r.1]> groups, r.2)
  end.

#[export] Instance BarrierDeviceSchedule_schedule : DeviceSchedule BarrierDeviceSchedule := {|
  new_schedule := [];
  reschedule_to_next_device := barrier_reschedule;
  finish_reschedule := barrier_finish;
|}.

(** ** The processors the schedules choose *)

(** The queue holds every processor once. *)
Definition queue_ok (n : nat) (s : QueueDeviceSchedule) : Prop :=
  (queue s = [] /\ q_idx s = 0%nat) \/ (queue s ≡ₚ seq 0 n /\ (q_idx s < length (queue s))%nat).

Lemma queue_reschedule_ok (c : Caller) s : shuffles c -> (0 < num_cpus c)%nat -> queue_ok (num_cpus c) s ->
  exists q cpu, queue_reschedule c s =
      Ret ({| q_idx := next_index (q_idx s) (num_cpus c); queue := q |}, [{| pin_tid := 0; pin_cpu := cpu |}]) /\
    q ≡ₚ seq 0 (num_cpus c) /\ q !! q_idx s = Some cpu /\ (q_idx s <> 0%nat -> q = queue s).
Proof.
  intros Hs Hn Hok. unfold queue_reschedule.
  set (s1 := if (q_idx s =? 0)%nat then shuffle_queue c s else s).
  assert (queue s1 ≡ₚ seq 0 (num_cpus c) /\ q_idx s1 = q_idx s /\ (q_idx s <> 0%nat -> queue s1 = queue s)) as (Hq & Hi & Hkeep).
  { unfold s1. destruct (Nat.eqb_spec (q_idx s) 0) as [E|E].
    - split; [|done]. simpl. etrans; [apply Hs|]. destruct Hok as [[-> _]|[Hp _]]; [done|]. by destruct (queue s).
    - split; [|done]. destruct Hok as [[_ ?]|[Hp _]]; done. }
  assert (length (queue s1) = num_cpus c) as Hlen by (rewrite Hq; apply length_seq).
  destruct (lookup_lt_is_Some_2 (queue s1) (q_idx s1)) as [cpu Hcpu].
  { rewrite Hlen, Hi. destruct Hok as [[_ ->]|[Hp Hlt]]; [done|]. rewrite Hp, length_seq in Hlt. done. }
  exists (queue s1), cpu. rewrite Hcpu, Hi, Hlen. rewrite <- Hi at 2. done.
Qed.

Lemma next_index_ok n s i : queue s ≡ₚ seq 0 n -> (i < n)%nat ->
  queue_ok n {| q_idx := next_index i n; queue := queue s |}.
Proof.
  intros Hq Hi. right. simpl. split; [done|]. rewrite Hq, length_seq. unfold next_index.
  destruct (Nat.eqb_spec (S i) n); lia.
Qed.

Lemma pinned_member (n : nat) (q : list nat) i cpu : q ≡ₚ seq 0 n -> q !! i = Some cpu -> (cpu < n)%nat.
Proof. intros Hq Hi. apply list_elem_of_lookup_2 in Hi. rewrite Hq in Hi. apply elem_of_seq in Hi. lia. Qed.

#[export] Program Instance queue_schedule_ok n : ScheduleOk QueueDeviceSchedule n := {| sched_inv s := queue_ok n s |}.
Next Obligation. intros n. by left. Qed.
Next Obligation.
  intros n c s s' pins (<- & Ht & Hs) Hi H. simpl in H.
  destruct (queue_reschedule_ok c s Hs) as (q & cpu & E & Hq & Hcpu & _); [lia|done|]. rewrite E in H. simplify_eq.
  pose proof (pinned_member _ _ _ _ Hq Hcpu). pose proof (lookup_lt_Some _ _ _ Hcpu) as Hlt. rewrite Hq, length_seq in Hlt.
  split; [|by repeat constructor]. by apply (next_index_ok (num_cpus c) {| q_idx := 0; queue := q |}).
Qed.
Next Obligation. intros n c s s' pins _ Hi H. simpl in H. simplify_eq. split; [done|constructor]. Qed.

(** A group has a processor for each of its threads. *)
Definition group_ok (n : nat) (g : GroupInfo) : Prop :=
  (length (tid g) <= length (next_cpu g))%nat /\ Forall (fun cpu => cpu < n)%nat (next_cpu g).

Lemma arrive_ok n g g' pins : group_ok n g -> arrive g = Ret (g', pins) ->
  group_ok n g' /\ Forall (fun p => pin_cpu p < n)%nat pins.
Proof.
  intros [Hl Hf] H. unfold arrive in H. destruct (_ =? _)%nat; [|simplify_eq; by split; [split|constructor]].
  unfold on_completion in H. destruct (next_cpu g) as [|cpu cpus] eqn:E; [done|].
  apply outcome_bind_ret in H as (ps & Hps & H). simplify_eq.
  assert (Forall (fun c => c < n)%nat (cpus ++ [cpu])) as Hf'.
  { apply Forall_cons in Hf as [? ?]. apply Forall_app. split; [done|by constructor]. }
  split; [split; [simpl in *; rewrite length_app; simpl; lia|done]|].
  destruct (mapM _ _) as [ps|] eqn:Em; [|done]. simpl in Hps. simplify_eq. apply mapM_Some_1 in Em.
  apply Forall_forall. intros p Hp. apply list_elem_of_lookup in Hp as [j Hj].
  destruct (Forall2_lookup_r _ _ _ _ _ Em Hj) as ([i t] & _ & Hit). simpl in Hit.
  destruct ((cpus ++ [cpu]) !! i) as [x|] eqn:Ex; simplify_eq/=. rewrite Forall_forall in Hf'. apply Hf'.
  by eapply list_elem_of_lookup_2.
Qed.

Lemma init_groups_ok n : (0 < n)%nat -> Forall (group_ok n) (init_groups n).
Proof.
  intros Hn. assert (forall m, group_ok n (new_group m)) as Hg.
  { intros m. split; simpl; [by rewrite !length_replicate|]. by apply Forall_replicate. }
  apply Forall_app. split; [by apply Forall_replicate|]. destruct (_ <? _)%nat; [by apply Forall_singleton|constructor].
Qed.

#[export] Program Instance barrier_schedule_ok n : ScheduleOk BarrierDeviceSchedule n := {| sched_inv s := Forall (group_ok n) s |}.
Next Obligation. constructor. Qed.
Next Obligation.
  intros n c s s' pins (Hn & Ht & _) Hi H. simpl in H. unfold barrier_reschedule in H.
  set (gs := match s with [] => init_groups (num_cpus c) | _ => s end) in H.
  assert (Forall (group_ok n) gs) as Hgs by (unfold gs; destruct s; [rewrite Hn; apply init_groups_ok; lia|done]).
  clearbody gs. apply outcome_bind_ret in H as (g & Hg & H). destruct (gs !! _) as [g'|] eqn:Eg; simplify_eq/=.
  assert (group_ok (num_cpus c) g) as [Hl Hf] by by eapply Forall_lookup_1.
  apply outcome_bind_ret in H as (t & _ & H). apply outcome_bind_ret in H as (g1 & Hg1 & H).
  assert (group_ok (num_cpus c) g1) as [Hl1 Hf1].
  { destruct (t =? 0); [|by simplify_eq]. apply outcome_bind_ret in Hg1 as (x & _ & Hg1). simplify_eq.
    split; simpl; [by rewrite !length_insert|]. by apply Forall_insert. }
  apply outcome_bind_ret in H as ([g2 ps] & H2 & H). simplify_eq/=.
  apply (arrive_ok (num_cpus c)) in H2 as [Hg2 Hp]; [|by split]. split; [|done]. by apply Forall_insert.
Qed.
Next Obligation.
  intros n c s s' pins (Hn & _ & _) Hi H. simpl in H. unfold barrier_finish in H.
  destruct s as [|g0 gs0]; [simplify_eq; split; constructor|]. set (gs := g0 :: gs0) in *. clearbody gs.
  apply outcome_bind_ret in H as (g & Hg & H). destruct (gs !! _) as [g'|] eqn:Eg; simplify_eq/=.
  assert (group_ok (num_cpus c) g) as [Hl Hf] by by eapply Forall_lookup_1.
  apply outcome_bind_ret in H as (t & Hti & H). destruct (tid g !! _) as [t'|] eqn:Et; simplify_eq/=.
  apply outcome_bind_ret in H as (cpus & Hc & H). apply outcome_bind_ret in H as ([g2 ps] & H2 & H). simplify_eq/=.
  apply (arrive_ok (num_cpus c)) in H2 as [Hg2 Hp]; [split; [|done]; by apply Forall_insert|].
  pose proof (length_delete (tid g) _ (mk_is_Some _ _ Et)) as Hd. unfold group_ok. simpl. rewrite Hd.
  destruct (has_failed c); [|simplify_eq; split; [lia|done]].
  apply outcome_bind_ret in Hc as (x & Hx & Hc). destruct (next_cpu g !! _) as [x'|] eqn:Ex; simplify_eq/=.
  rewrite (length_delete (next_cpu g) _ (mk_is_Some _ _ Ex)). split; [lia|]. by apply Forall_delete.
Qed.

(** ** The schedules that always answer *)

(** A call of a schedule in its invariant returns. *)
Class ScheduleTotal (S : Type) (n : nat) `{!DeviceSchedule S} `{!ScheduleOk S n} := {
  total_reschedule c s : caller_ok n c -> sched_inv s -> exists r, reschedule_to_next_device c s = Ret r;
  total_finish c s : caller_ok n c -> sched_inv s -> exists r, finish_reschedule c s = Ret r;
}.

#[export] Instance random_schedule_total n : ScheduleTotal RandomDeviceSchedule n.
Proof.
  split; intros c s (Hn & Ht & _) _; simpl; [|by eexists]. unfold random_reschedule.
  destruct (Nat.eqb_spec (num_cpus c) 0); [lia|by eexists].
Qed.

#[export] Instance queue_schedule_total n : ScheduleTotal QueueDeviceSchedule n.
Proof.
  split; intros c s (Hn & Ht & Hs) Hi; simpl in *; [|by eexists]. subst n.
  destruct (queue_reschedule_ok c s Hs) as (q & cpu & E & _); [lia|done|]. by eexists.
Qed.

Lemma run_schedule_total {S : Type} {n : nat} `{!DeviceSchedule S} `{!ScheduleOk S n} `{!ScheduleTotal S n} (calls : list call) :
  Forall (fun k => caller_ok n (caller_of k)) calls ->
  exists s pins, run_schedule (S := S) calls = Ret (s, pins) /\ Forall (fun p => pin_cpu p < n)%nat pins.
Proof.
  intros Hn. assert (forall st : S * list pin, sched_inv st.1 -> exists st', fold_outcome do_call calls st = Ret st') as H.
  { induction Hn as [|k calls Hk Hn IH]; intros [s pins] Hi; [by eexists|]. cbn [fold_outcome].
    assert (exists r, (match k with Reschedule c => reschedule_to_next_device c s | Finish c => finish_reschedule c s end) = Ret r /\
      sched_inv r.1) as ([s' pins'] & E & Hi').
    { destruct k as [c|c]; simpl in Hk.
      - destruct (total_reschedule c s Hk Hi) as [[s' p'] E]. exists (s', p'). split; [done|]. by eapply sched_reschedule.
      - destruct (total_finish c s Hk Hi) as [[s' p'] E]. exists (s', p'). split; [done|]. by eapply sched_finish. }
    unfold do_call at 2. cbn [fst snd]. rewrite E. cbn [mbind outcome_bind]. by apply IH. }
  destruct (H (new_schedule, []) sched_inv_new) as [[s pins] E]. exists s, pins. split; [done|]. by eapply run_schedule_pins.
Qed.

(** The processors the members of a group move to. *)
Lemma mapM_pins (ts : list Z) (cpus : list nat) : forall k, (length ts + k <= length cpus)%nat ->
  mapM (fun '(i, t) => cpu ← cpus !! i; Some {| pin_tid := t; pin_cpu := cpu |}) (imap (fun i t => ((k + i)%nat, t)) ts) =
  Some (zip_with Build_pin ts (drop k cpus)).
Proof.
  induction ts as [|t ts IH]; intros k Hk; [done|]. simpl in *. rewrite Nat.add_0_r.
  destruct (lookup_lt_is_Some_2 cpus k) as [cpu Hcpu]; [lia|]. rewrite Hcpu, (drop_S _ cpu) by done. simpl.
  rewrite (imap_ext _ (fun i t => ((S k + i)%nat, t))) by (intros; simpl; f_equal; lia).
  rewrite IH by lia. done.
Qed.


(** ** The barrier while no thread ends *)

(** The sizes of the groups' vectors, which only ends of threads change. *)
Definition shape (g : GroupInfo) : nat * nat := (length (tid g), length (next_cpu g)).
Definition full_groups (n : nat) (s : BarrierDeviceSchedule) : Prop := s = [] \/ map shape s = map shape (init_groups n).

Lemma init_groups_member n t : (t < n)%nat -> exists k, map shape (init_groups n) !! (t / members_per_group)%nat = Some (k, k) /\
  (t mod members_per_group < k)%nat.
Proof.
  intros Ht. unfold init_groups, members_per_group. rewrite map_app.
  change (map shape (replicate (n / 2) (new_group 2))) with (shape <$> replicate (n / 2) (new_group 2)). rewrite fmap_replicate.
  pose proof (Nat.div_mod_eq t 2). pose proof (Nat.div_mod_eq n 2). pose proof (Nat.mod_upper_bound t 2 ltac:(lia)). pose proof (Nat.mod_upper_bound n 2 ltac:(lia)).
  destruct (decide (t / 2 < n / 2)%nat) as [Hd|Hd].
  - exists 2%nat. split; [|done]. rewrite lookup_app_l by (by rewrite length_replicate). by rewrite lookup_replicate_2.
  - assert (t / 2 = n / 2)%nat as -> by lia. exists (n mod 2)%nat. rewrite lookup_app_r by (by rewrite length_replicate).
    rewrite length_replicate, Nat.sub_diag. destruct (Nat.ltb_spec 0 (n mod 2)); [|lia]. split; [|lia].
    simpl. unfold shape, new_group. simpl. by rewrite !length_replicate.
Qed.

Lemma arrive_total g k : shape g = (k, k) -> (0 < k)%nat -> exists g' pins, arrive g = Ret (g', pins) /\ shape g' = (k, k).
Proof.
  intros [= Ht Hc] Hk. unfold arrive. destruct (_ =? _)%nat; [|exists g, []; unfold shape; split; [done|congruence]].
  unfold on_completion. destruct (next_cpu g) as [|cpu cpus] eqn:E; [simpl in Hc; lia|].
  pose proof (mapM_pins (tid g) (cpus ++ [cpu]) 0) as Hm. rewrite length_app in Hm. simpl in Hc, Hm.
  change (imap (fun (i : nat) (t : Z) => (i, t)) (tid g)) with (imap pair (tid g)) in Hm. rewrite Hm by lia. cbn [mbind outcome_bind of_option].
  eexists _, _. split; [done|]. unfold shape. simpl. rewrite length_app. simpl. f_equal; lia.
Qed.

Lemma barrier_reschedule_total n c s : caller_ok n c -> full_groups n s ->
  exists s' pins, barrier_reschedule c s = Ret (s', pins) /\ full_groups n s'.
Proof.
  intros (Hn & Ht & _) Hs. unfold barrier_reschedule.
  set (gs := match s with [] => init_groups (num_cpus c) | _ => s end).
  assert (map shape gs = map shape (init_groups n)) as Hgs.
  { unfold gs. destruct Hs as [->|Hs]; [by rewrite Hn|]. by destruct s; [rewrite Hn|]. }
  clearbody gs. destruct (init_groups_member n (thread_num c) Ht) as (k & Hk & Hlt). rewrite <- Hgs in Hk.
  change (map shape gs) with (shape <$> gs) in Hk. rewrite list_lookup_fmap in Hk.
  destruct (gs !! (thread_num c / members_per_group)%nat) as [g|] eqn:Eg; [|done]. simpl in Hk. injection Hk as Htid Hcpu.
  cbn [of_option mbind outcome_bind]. set (idx := (thread_num c mod members_per_group)%nat) in *.
  destruct (lookup_lt_is_Some_2 (tid g) idx) as [t Et]; [lia|]. rewrite Et. cbn [of_option mbind outcome_bind].
  destruct (lookup_lt_is_Some_2 (next_cpu g) idx) as [cpu Ecpu]; [lia|]. rewrite Ecpu.
  set (r := if t =? 0 then _ else Ret g).
  assert (exists g1, r = Ret g1 /\ shape g1 = (k, k)) as (g1 & -> & Hg1).
  { unfold r. cbn [of_option mbind outcome_bind]. destruct (t =? 0); eexists; (split; [done|]); unfold shape; simpl; rewrite ?length_insert; congruence. }
  cbn [mbind outcome_bind]. edestruct (arrive_total {| tid := tid g1; next_cpu := next_cpu g1; arrived := S (arrived g1); expected := expected g1 |})
    as (g2 & pins & E & Hg2); [exact Hg1|lia|]. rewrite E. cbn [mbind outcome_bind fst snd]. eexists _, _. split; [done|]. right.
  rewrite <- Hgs. change (shape <$> <[(thread_num c / members_per_group)%nat := g2]> gs = shape <$> gs).
  rewrite list_fmap_insert. apply list_insert_id. rewrite list_lookup_fmap, Eg. simpl. unfold shape at 1. by rewrite Htid, Hcpu, Hg2.
Qed.

Definition is_reschedule (k : call) : bool := match k with Reschedule _ => true | Finish _ => false end.

Lemma barrier_run_total n (calls : list call) : Forall (fun k => caller_ok n (caller_of k)) calls -> Forall (fun k => is_reschedule k = true) calls ->
  exists (s : BarrierDeviceSchedule) pins, run_schedule calls = Ret (s, pins).
Proof.
  intros Hn Hr. assert (forall st : BarrierDeviceSchedule * list pin, full_groups n st.1 -> exists s pins, fold_outcome do_call calls st = Ret (s, pins)) as H.
  { induction Hn as [|k calls Hk Hn IH]; intros [s pins] Hi; [by eexists _, _|]. apply Forall_cons in Hr as [Hrk Hr]. specialize (IH Hr).
    destruct k as [c|c]; [|done]. simpl in Hk. destruct (barrier_reschedule_total n c s Hk Hi) as (s' & p' & E & Hi').
    cbn [fold_outcome]. unfold do_call at 2. cbn [fst snd]. change (reschedule_to_next_device c s) with (barrier_reschedule c s).
    rewrite E. cbn [mbind outcome_bind fst snd]. by apply IH. }
  apply H. by left.
Qed.

(** C38. Where the test threads are sent. The threads of a system with [n]
    processors ask for another processor and end in any order (shuffling only
    permutes). With the random and the queue schedule every such run returns, and
    every thread is sent to a processor that exists. So does the barrier schedule
    as long as no thread ends. When threads end, a run of the barrier schedule
    that returns sends them to processors that exist, but not every run does: the
    first of two members to end shifts the vectors of the group, and the second
    one's end then is undefined (theorem [barrier_second_finish_ub], Example
    [barrier_both_fail]). *)
Theorem schedules_pin_to_cpus (n : nat) (calls : list call) :
  Forall (fun k => caller_ok n (caller_of k)) calls ->
  let in_machine (pins : list pin) := Forall (fun p => pin_cpu p < n)%nat pins in
  (exists (s : RandomDeviceSchedule) pins, run_schedule calls = Ret (s, pins) /\ in_machine pins) /\
  (exists (s : QueueDeviceSchedule) pins, run_schedule calls = Ret (s, pins) /\ in_machine pins) /\
  (Forall (fun k => is_reschedule k = true) calls ->
   exists (s : BarrierDeviceSchedule) pins, run_schedule calls = Ret (s, pins) /\ in_machine pins) /\
  (forall (s : BarrierDeviceSchedule) pins, run_schedule calls = Ret (s, pins) -> in_machine pins).
Proof.
  intros H. split; [by apply run_schedule_total|]. split; [by apply run_schedule_total|]. split.
  - intros Hr. destruct (barrier_run_total n calls H Hr) as (s & pins & E). exists s, pins. split; [done|]. by eapply run_schedule_pins.
  - intros s pins. by apply run_schedule_pins.
Qed.

(** [k] calls in a row, the caller of each given. *)
Fixpoint queue_calls (cs : list Caller) (s : QueueDeviceSchedule) : outcome (QueueDeviceSchedule * list nat) :=
  match cs with
  | [] => Ret (s, [])
  | c :: cs =>
      r ← queue_reschedule c s;
      r' ← queue_calls cs r.1;
      Ret (r'.1, map pin_cpu r.2 ++ r'.2)
  end.

(** The rest of a round. *)
Lemma queue_round n (cs : list Caller) : forall s,
  Forall (fun c => num_cpus c = n /\ shuffles c) cs -> (0 < q_idx s < n)%nat -> queue s ≡ₚ seq 0 n ->
  (q_idx s + length cs)%nat = n ->
  queue_calls cs s = Ret ({| q_idx := 0; queue := queue s |}, drop (q_idx s) (queue s)).
Proof.
  induction cs as [|c cs IH]; intros s Hcs Hpos Hq Hlen; simpl in *; [lia|].
  apply Forall_cons in Hcs as [[Hn Hsh] Hcs]. subst n.
  assert (length (queue s) = num_cpus c) as Hl by (rewrite Hq; apply length_seq).
  destruct (queue_reschedule_ok c s Hsh) as (q & cpu & -> & Hperm & Hcpu & Hkeep); [lia|right; split; [done|lia]|].
  rewrite Hkeep in * by lia. simpl. rewrite (drop_S _ cpu) by done.
  unfold next_index. destruct (Nat.eqb_spec (S (q_idx s)) (num_cpus c)) as [E|E].
  - assert (cs = []) as -> by (destruct cs; [done|simpl in Hlen; lia]). simpl. by rewrite drop_ge by lia.
  - rewrite IH; [done|done|simpl; lia|done|simpl; lia].
Qed.

(** One whole round. *)
Lemma queue_whole_round n (cs : list Caller) s : (0 < n)%nat -> length cs = n ->
  Forall (fun c => num_cpus c = n /\ shuffles c) cs -> queue_ok n s -> q_idx s = 0%nat ->
  exists q, queue_calls cs s = Ret ({| q_idx := 0; queue := q |}, q) /\ q ≡ₚ seq 0 n.
Proof.
  intros Hpos Hlen Hcs Hok Hi. destruct cs as [|c cs]; [simpl in Hlen; lia|].
  apply Forall_cons in Hcs as [[Hn Hsh] Hcs].
  assert (S (length cs) = num_cpus c) as Hlen' by (simpl in Hlen; lia). clear Hlen. rename Hlen' into Hlen. subst n. simpl.
  destruct (queue_reschedule_ok c s Hsh) as (q & cpu & -> & Hperm & Hcpu & _); [lia|done|]. simpl.
  assert (length q = num_cpus c) as Hl by (rewrite Hperm; apply length_seq).
  rewrite Hi in *. exists q. split; [|done]. unfold next_index.
  destruct q as [|x q]; [done|]. simpl in Hcpu. simplify_eq.
  destruct (Nat.eqb_spec 1 (num_cpus c)) as [E|E].
  - assert (cs = []) as -> by (destruct cs; [done|simpl in Hlen; lia]). simpl.
    destruct q; [done|simpl in Hl; lia].
  - rewrite (queue_round (num_cpus c)); [done|done|simpl; lia|done|simpl; lia].
Qed.

Lemma queue_calls_app cs1 cs2 s :
  queue_calls (cs1 ++ cs2) s = (r ← queue_calls cs1 s; r' ← queue_calls cs2 r.1; Ret (r'.1, r.2 ++ r'.2)).
Proof.
  revert s. induction cs1 as [|c cs1 IH]; intros s; simpl.
  - by destruct (queue_calls cs2 s) as [[]| |].
  - destruct (queue_reschedule c s) as [[s1 p]| |]; simpl; [|done|done]. rewrite IH.
    destruct (queue_calls cs1 s1) as [[s2 l]| |]; simpl; [|done|done].
    destruct (queue_calls cs2 s2) as [[s3 l']| |]; simpl; [|done|done]. by rewrite app_assoc.
Qed.

Lemma queue_rounds n k : (0 < n)%nat -> forall cs s, length cs = (k * n)%nat ->
  Forall (fun c => num_cpus c = n /\ shuffles c) cs -> queue_ok n s -> q_idx s = 0%nat ->
  exists s' rounds, queue_calls cs s = Ret (s', concat rounds) /\ length rounds = k /\ Forall (fun q => q ≡ₚ seq 0 n) rounds.
Proof.
  intros Hpos. induction k as [|k IH]; intros cs s Hlen Hcs Hok Hi.
  - apply nil_length_inv in Hlen as ->. by exists s, [].
  - rewrite <- (take_drop n cs), queue_calls_app. simpl in Hlen.
    destruct (queue_whole_round n (take n cs) s) as (q & -> & Hq); [done|rewrite length_take; lia|by apply Forall_take|done|done|].
    simpl. destruct (IH (drop n cs) {| q_idx := 0; queue := q |}) as (s' & rounds & -> & Hlr & Hr).
    + rewrite length_drop. lia.
    + by apply Forall_drop.
    + right. simpl. by rewrite Hq, length_seq.
    + done.
    + exists s', (q :: rounds). simpl. by rewrite Hlr; repeat constructor.
Qed.

(** The queue schedule is fair: whatever threads call it and however the
    queue is shuffled, in each round of as many calls as there are processors
    every processor is chosen exactly once. *)
Theorem queue_schedule_fair (n k : nat) (cs : list Caller) :
  (0 < n)%nat -> length cs = (k * n)%nat -> Forall (fun c => num_cpus c = n /\ shuffles c) cs ->
  exists s' rounds, queue_calls cs new_schedule = Ret (s', concat rounds) /\ length rounds = k /\
    Forall (fun q => q ≡ₚ seq 0 n) rounds.
Proof. intros Hn Hlen Hcs. apply queue_rounds; [done|done|done|by left|done]. Qed.

Definition ex_caller (n t : nat) : Caller :=
  {| num_cpus := n; thread_num := t; tid_of := fun t => 1000 + Z.of_nat t; random := 0; shuffle := @rev nat; has_failed := false |}.

Lemma ex_caller_shuffles n t : shuffles (ex_caller n t).
Proof. intros l. symmetry. apply Permutation_rev. Qed.

Lemma queue_schedule_fair_witness :
  queue_calls (map (ex_caller 3) [0; 1; 2; 0; 1; 2]%nat) new_schedule =
    Ret ({| q_idx := 0; queue := [0; 1; 2]%nat |}, [2; 1; 0; 0; 1; 2]%nat) /\
  exists s' rounds, queue_calls (map (ex_caller 3) [0; 1; 2; 0; 1; 2]%nat) new_schedule = Ret (s', concat rounds) /\
    length rounds = 2%nat /\ Forall (fun q => q ≡ₚ seq 0 3) rounds.
Proof.
  split; [reflexivity|]. apply (queue_schedule_fair 3 2).
  - lia.
  - reflexivity.
  - repeat constructor; apply ex_caller_shuffles.
Defined.

Lemma schedules_pin_to_cpus_witness :
  let calls := map (fun t => Reschedule (ex_caller 4 t)) [0; 2; 1; 3]%nat in
  exists (s : BarrierDeviceSchedule) pins, run_schedule calls = Ret (s, pins) /\ Forall (fun p => pin_cpu p < 4)%nat pins.
Proof.
  intros calls. assert (Forall (fun k => caller_ok 4 (caller_of k)) calls) as H.
  { repeat constructor; simpl; try lia; apply ex_caller_shuffles. }
  destruct (schedules_pin_to_cpus 4 calls H) as (_ & _ & Hb & _). apply Hb. by repeat constructor.
Defined.

(** * The barrier's groups *)

(** When all members of a group have arrived, the barrier moves each of
    them to the next processor of the group: the members stay on distinct
    processors of the group. *)
Theorem barrier_rotates (g : GroupInfo) (cpu : nat) (cpus : list nat) :
  next_cpu g = cpu :: cpus -> length (tid g) = length (next_cpu g) -> NoDup (next_cpu g) ->
  exists g' pins, on_completion g = Ret (g', pins) /\ map pin_tid pins = tid g /\ map pin_cpu pins = cpus ++ [cpu] /\
    next_cpu g' = cpus ++ [cpu] /\ arrived g' = 0%nat /\ NoDup (map pin_cpu pins) /\ map pin_cpu pins ≡ₚ next_cpu g.
Proof.
  intros E Hl Hnd. unfold on_completion. rewrite E in *.
  pose proof (mapM_pins (tid g) (cpus ++ [cpu]) 0) as Hm. simpl in Hm.
  change (imap (fun i t => (i, t)) (tid g)) with (imap pair (tid g)) in Hm. rewrite drop_0 in Hm. rewrite Hm; [|rewrite length_app; simpl in *; lia].
  simpl. eexists _, _. split; [done|]. simpl.
  assert (length (cpus ++ [cpu]) = length (tid g)) as Hlen by (rewrite length_app; simpl in *; lia).
  assert (map pin_tid (zip_with Build_pin (tid g) (cpus ++ [cpu])) = tid g) as ->.
  { change (pin_tid <$> zip_with Build_pin (tid g) (cpus ++ [cpu]) = tid g). rewrite fmap_zip_with_l; [done|done|lia]. }
  assert (map pin_cpu (zip_with Build_pin (tid g) (cpus ++ [cpu])) = cpus ++ [cpu]) as ->.
  { change (pin_cpu <$> zip_with Build_pin (tid g) (cpus ++ [cpu]) = cpus ++ [cpu]). rewrite fmap_zip_with_r; [done|done|lia]. }
  assert (cpus ++ [cpu] ≡ₚ cpu :: cpus) as Hp by (symmetry; apply Permutation_cons_append).
  do 4 (split; [done|]). split; [by rewrite Hp|done].
Qed.

Lemma barrier_rotates_witness :
  exists g' pins, on_completion {| tid := [7; 8]; next_cpu := [4; 5]%nat; arrived := 2; expected := 2 |} = Ret (g', pins) /\
    map pin_cpu pins = [5; 4]%nat.
Proof.
  destruct (barrier_rotates {| tid := [7; 8]; next_cpu := [4; 5]%nat; arrived := 2; expected := 2 |} 4 [5%nat])
    as (g' & pins & H & _ & Hc & _).
  - reflexivity.
  - reflexivity.
  - apply (bool_decide_unpack _). by vm_compute.
  - by exists g', pins.
Defined.

(** The members of a group may not end in any order: when the first of two
    members has ended, the place of the second in the group's vectors is no
    longer the one computed from its number, and its own end erases past the
    end of a vector. *)
Theorem barrier_second_finish_ub (i : nat) (c1 c2 : Caller) (s s1 : BarrierDeviceSchedule) (g : GroupInfo) (pins : list pin) :
  thread_num c1 = (2 * i)%nat -> thread_num c2 = (2 * i + 1)%nat -> s !! i = Some g -> length (tid g) = 2%nat ->
  finish_reschedule c1 s = Ret (s1, pins) -> finish_reschedule c2 s1 = Ub.
Proof.
  intros H1 H2 Hg Hl H. change (barrier_finish c1 s = Ret (s1, pins)) in H. change (barrier_finish c2 s1 = Ub).
  unfold barrier_finish, members_per_group in *. rewrite H1 in H. rewrite H2.
  rewrite <- (Nat.div_unique (2 * i) 2 i 0), <- (Nat.mod_unique (2 * i) 2 i 0) in H by lia.
  rewrite <- (Nat.div_unique (2 * i + 1) 2 i 1), <- (Nat.mod_unique (2 * i + 1) 2 i 1) by lia.
  destruct s as [|g0 gs0]; [done|]. set (gs := g0 :: gs0) in *. rewrite Hg in H. simpl in H.
  apply outcome_bind_ret in H as (t & Ht & H). apply outcome_bind_ret in H as (cpus & _ & H).
  apply outcome_bind_ret in H as ([g2 ps] & H & E). injection E as <- <-. simpl.
  assert (tid g2 = delete 0%nat (tid g)) as Htid.
  { unfold arrive, on_completion in H. simpl in H. destruct (_ =? _)%nat; [|by simplify_eq].
    destruct cpus; [done|]. apply outcome_bind_ret in H as (? & _ & H). by simplify_eq. }
  pose proof (lookup_lt_Some _ _ _ Hg) as Hi.
  assert (<[i := g2]> gs !! i = Some g2) as Hlook by by apply list_lookup_insert_eq.
  destruct (<[i := g2]> gs) as [|x l] eqn:Ex; [done|]. rewrite Hlook. simpl. rewrite Htid.
  destruct (tid g) as [|a [|b [|]]]; done.
Qed.

Lemma barrier_second_finish_ub_witness :
  exists s pins s1 pins1,
    run_schedule (map (fun t => Reschedule (ex_caller 2 t)) [0; 1]%nat) = Ret (s, pins) /\
    barrier_finish (ex_caller 2 0) s = Ret (s1, pins1) /\ barrier_finish (ex_caller 2 1) s1 = Ub.
Proof.
  eexists _, _, _, _. split; [vm_compute; reflexivity|]. split; [vm_compute; reflexivity|].
  match goal with |- barrier_finish ?c ?s = Ub => change (finish_reschedule c s = Ub) end.
  refine (barrier_second_finish_ub 0 (ex_caller 2 0) (ex_caller 2 1)
    [{| tid := [1000; 1001]; next_cpu := [1; 0]%nat; arrived := 0; expected := 2 |}] _ _ _ _ _ _ _ _).
  - reflexivity.
  - reflexivity.
  - reflexivity.
  - reflexivity.
  - vm_compute. reflexivity.
Defined.

(** When both members fail, the last one's completion rotates an empty
    vector. *)
Example barrier_both_fail :
  let failed t := {| num_cpus := 2; thread_num := t; tid_of := fun t => 1000 + Z.of_nat t; random := 0; shuffle := id; has_failed := true |} in
  run_schedule (S := BarrierDeviceSchedule)
    [Reschedule (failed 0%nat); Reschedule (failed 1%nat); Finish (failed 1%nat); Finish (failed 0%nat)] = Ub.
Proof. reflexivity. Qed.
