(* ===== verification/Random.v ===== *)
(** The random numbers of the framework (random.cpp): three engines behind one
    interface, the seeding of the process and of every test thread, the text
    form of a seed, and the functions that tests call.

    An engine's state lives in a [thread_rng], a block of 64 bytes that is seen
    through several views; slot 0 of the vector is the global engine (thread
    number -1), slot [i + 1] belongs to test thread [i]. The AES instruction
    and whether the processor has it, the files and AT_RANDOM are parameters. *)

From S2P Require Import Prelude CStdlib Bytes CpuInfo.
From Stdlib Require Import QArith.
#[local] Open Scope Z_scope.

Definition EX_IOERR : Z := 74.

(** * The data *)

Abbreviation thread_rng := (list Z).
Definition sizeof_thread_rng : nat := 64.
Definition zero_rng : thread_rng := replicate sizeof_thread_rng 0.

Inductive EngineType := Constant | LCG | AESSequence.
#[export] Instance EngineType_eq_dec : EqDecision EngineType.
Proof. solve_decision. Defined.
Definition engine_types : list EngineType := [Constant; LCG; AESSequence].

(** SeedSequence: the 32-bit words that a seed is copied from. *)
Abbreviation SeedSequence := (list Z).

(** The virtual functions of struct RandomEngineWrapper, on the block they work
    on. *)
Record engine_ops := {
  stateSize : nat;
  globalState : thread_rng -> outcome str;
  reloadGlobalState : str -> thread_rng -> outcome thread_rng;
  seedGlobalEngine : SeedSequence -> thread_rng -> outcome thread_rng;
  (** the global block, the mixin, the thread's block *)
  seedThread : thread_rng -> Z -> thread_rng -> outcome thread_rng;
  generate32 : thread_rng -> outcome (Z * thread_rng);
  generate48 : thread_rng -> outcome (Z * thread_rng);
  generate64 : thread_rng -> outcome (Z * thread_rng);
  generateInt : thread_rng -> outcome (Z * thread_rng);
  generate128 : thread_rng -> outcome (Z * thread_rng);
}.

(** What an istringstream reads into an unsigned integer of [w] bits when its
    flags do not skip blanks (libstdc++): no number reads as 0, one that does
    not fit as the greatest value. *)
Definition istream_unsigned (w base : Z) (s : str) : Z :=
  match s with
  | c :: _ =>
      if isspace c then 0
      else match strto base s with
           | None => 0
           | Some (neg, m, _) =>
               if 2 ^ w - 1 <? m then 2 ^ w - 1 else wrap_u w (if neg then - m else m)
           end
  | [] => 0
  end.

(** * template EngineWrapper: what an engine has that does not override it

    The operands of | are evaluated from left to right here and below. *)
Section EngineWrapper.
Context (gen32 gen64 : thread_rng -> outcome (Z * thread_rng)).

Definition generic_generate48 (b : thread_rng) : outcome (Z * thread_rng) :=
  r ← gen64 b; Ret (Z.land r.1 (2 ^ 48 - 1), r.2).

Definition generic_generate64 (b : thread_rng) : outcome (Z * thread_rng) :=
  r ← gen32 b;
  r' ← gen32 r.2;
  Ret (Z.lor r.1 (Z.shiftl r'.1 32), r'.2).

Definition generic_generateInt (b : thread_rng) : outcome (Z * thread_rng) :=
  r ← gen32 b; Ret (Z.land r.1 0x7fffffff, r.2).

Definition generic_generate128 (b : thread_rng) : outcome (Z * thread_rng) :=
  r ← gen64 b;
  r' ← gen64 r.2;
  Ret (Z.lor r.1 (Z.shiftl r'.1 64), r'.2).
End EngineWrapper.

(** for (i...) buffer->u32[i] = global->u32[i] ^ mixin *)
Definition generic_seedThread (global : thread_rng) (mixin : Z) (buffer : thread_rng) : outcome thread_rng :=
  fold_outcome (fun buffer i =>
      g ← load 4 (4 * i) global;
      store 4 (4 * i) (Z.lxor g mixin) buffer) (seq 0 16) buffer.

(** * The constant engine *)

Definition constant_next (b : thread_rng) : outcome (Z * thread_rng) :=
  value ← load 4 0 b; Ret (value, b).

(** operator<<: decimal, hexadecimal with its prefix above 255. *)
Definition constant_print (value : Z) : str :=
  if 255 <? value then L "0x" ++ to_digits 16 value else to_digits 10 value.

(** operator>>: the base is found from the prefix. *)
Definition constant_read (s : str) : Z := istream_unsigned 32 0 s.

Definition constant_value_engine : engine_ops := {|
  stateSize := 4;
  globalState := fun b => constant_print <$> load 4 0 b;
  reloadGlobalState := fun s b => store 4 0 (constant_read s) b;
  seedGlobalEngine := fun seed b => v ← of_option (seed !! 0%nat); store 4 0 v b;
  seedThread := generic_seedThread;
  generate32 := constant_next;
  generate64 := generic_generate64 constant_next;
  generate48 := generic_generate48 (generic_generate64 constant_next);
  generateInt := generic_generateInt constant_next;
  generate128 := generic_generate128 (generic_generate64 constant_next);
|}.

(** * std::minstd_rand

    The state is a uint_fast32_t, eight bytes wide; the next state is a*x mod m
    with a = 48271, m = 2^31 - 1. *)
Definition minstd_m : Z := 2147483647.
Definition minstd_next (x : Z) : Z := u64 (48271 * x) mod minstd_m.

(** seed(s): 0 is no valid state. *)
Definition minstd_seed (s : Z) : Z := if s mod minstd_m =? 0 then 1 else s mod minstd_m.

Definition minstd_call (b : thread_rng) : outcome (Z * thread_rng) :=
  x ← load 8 0 b;
  b ← store 8 0 (minstd_next x) b;
  Ret (minstd_next x, b).

(** minstd_rand(sseq) asks for four words and takes the last one. *)
Definition minstd_seed_seq (seed : SeedSequence) (b : thread_rng) : outcome thread_rng :=
  _ ← of_option (seed !! 0%nat);
  _ ← of_option (seed !! 1%nat);
  _ ← of_option (seed !! 2%nat);
  w ← of_option (seed !! 3%nat);
  store 8 0 (minstd_seed w) b.

Definition minstd_seedThread (global : thread_rng) (mixin : Z) (generator : thread_rng) : outcome thread_rng :=
  let mixin := Z.land mixin 0x7ffffffe in
  x ← load 8 0 global;
  store 8 0 (minstd_seed (Z.lxor (minstd_next x) mixin)) generator.

Definition minstd_generate32 (b : thread_rng) : outcome (Z * thread_rng) :=
  r ← minstd_call b;
  r' ← minstd_call r.2;
  Ret (Z.lor (Z.land r.1 0xffff) (Z.shiftl (Z.land r'.1 0xffff) 16), r'.2).

Definition minstd_generate48 (b : thread_rng) : outcome (Z * thread_rng) :=
  r ← minstd_call b;
  r' ← minstd_call r.2;
  Ret (Z.lor (Z.land r.1 0xffffff) (Z.shiftl (Z.land r'.1 0xffffff) 24), r'.2).

Definition minstd_generate64 (b : thread_rng) : outcome (Z * thread_rng) :=
  r ← minstd_generate48 b;
  r' ← minstd_call r.2;
  Ret (Z.lor r.1 (u64 (Z.shiftl (Z.land r'.1 0xffffff) 48)), r'.2).

Definition minstd_rand : engine_ops := {|
  stateSize := 8;
  globalState := fun b => to_digits 10 <$> load 8 0 b;
  reloadGlobalState := fun s b => store 8 0 (istream_unsigned 64 10 s) b;
  seedGlobalEngine := minstd_seed_seq;
  seedThread := minstd_seedThread;
  generate32 := minstd_generate32;
  generate48 := minstd_generate48;
  generate64 := minstd_generate64;
  generateInt := minstd_call;
  generate128 := generic_generate128 minstd_generate64;
|}.

(** * The AES engine *)

Section Engines.
(** _mm_aesenc_si128(), on 128-bit numbers *)
Context (aesenc : Z -> Z -> Z).

Definition generateM128 (b : thread_rng) : outcome (Z * thread_rng) :=
  s0 ← load 16 0 b;
  s1 ← load 16 16 b;
  let v1 := wrap_u 128 (aesenc s0 s1) in
  b ← store 16 0 v1 b;
  Ret (v1, b).

Definition aes_seed (seed : SeedSequence) (b : thread_rng) : outcome thread_rng :=
  w0 ← of_option (seed !! 0%nat);
  w1 ← of_option (seed !! 1%nat);
  w2 ← of_option (seed !! 2%nat);
  w3 ← of_option (seed !! 3%nat);
  let pattern := le_value (le_bytes 4 w0 ++ le_bytes 4 w1 ++ le_bytes 4 w2 ++ le_bytes 4 w3) in
  b ← store 16 0 pattern b;
  store 16 16 (Z.lxor pattern (2 ^ 128 - 1)) b.

Definition hex_byte (v : Z) : str := [digit_char (Z.shiftr v 4); digit_char (Z.land v 0xf)].

Definition aes_globalState (state : thread_rng) : outcome str :=
  bs ← read_at 32 0 state; Ret (concat (hex_byte <$> bs)).

(** The value of a character, whatever it is. *)
Definition nibble (ch : ascii) : Z :=
  let c := code ch in
  u8 (if 97 <=? c then c - 97 + 10 else if 65 <=? c then c - 65 + 10 else c - 48).

Definition reload_nibble (state : thread_rng) '((i, ch) : nat * ascii) : outcome thread_rng :=
  b ← load 1 (i / 2) state;
  if (i mod 2 =? 0)%nat then store 1 (i / 2) (u8 (Z.shiftl (nibble ch) 4)) state
  else store 1 (i / 2) (Z.lor b (nibble ch)) state.

Definition aes_reloadGlobalState (ptr : str) (state : thread_rng) : outcome thread_rng :=
  fold_outcome reload_nibble (zip (seq 0 (length ptr)) ptr) state.

Definition aes_generate32 (b : thread_rng) : outcome (Z * thread_rng) :=
  r ← generateM128 b; Ret (u32 r.1, r.2).
Definition aes_generate64 (b : thread_rng) : outcome (Z * thread_rng) :=
  r ← generateM128 b; Ret (u64 r.1, r.2).
Definition aes_generate128 (b : thread_rng) : outcome (Z * thread_rng) :=
  r ← generateM128 b;
  let l := u64 r.1 in let h := Z.shiftr r.1 64 in
  Ret (Z.lor l (Z.shiftl h 64), r.2).

Definition aes_engine : engine_ops := {|
  stateSize := 32;
  globalState := aes_globalState;
  reloadGlobalState := aes_reloadGlobalState;
  seedGlobalEngine := aes_seed;
  seedThread := generic_seedThread;
  generate32 := aes_generate32;
  generate64 := aes_generate64;
  generate48 := generic_generate48 aes_generate64;
  generateInt := generic_generateInt aes_generate32;
  generate128 := aes_generate128;
|}.

(** * The global engine *)

Record RandomEngineWrapper := { per_thread : list thread_rng; engine_type : EngineType }.

Definition engine_of (t : EngineType) : engine_ops :=
  match t with Constant => constant_value_engine | LCG => minstd_rand | AESSequence => aes_engine end.

(** rng_for_thread(): the index of a thread's block, with the assertions. *)
Definition rng_for_thread (thread_num : Z) (e : RandomEngineWrapper) : outcome nat :=
  _ ← assertion (thread_num <? len (per_thread e) - 1);
  _ ← assertion (-1 <=? thread_num);
  Ret (Z.to_nat (thread_num + 1)).

(** A call on a thread's block. *)
Definition on_rng {A} (f : thread_rng -> outcome (A * thread_rng)) (thread_num : Z) (e : RandomEngineWrapper)
  : outcome (A * RandomEngineWrapper) :=
  i ← rng_for_thread thread_num e;
  b ← of_option (per_thread e !! i);
  r ← f b;
  Ret (r.1, {| per_thread := <[i := r.2]> (per_thread e); engine_type := engine_type e |}).

Definition engineNameFromType (t : EngineType) : str :=
  match t with Constant => L "Constant:" | LCG => L "LCG:" | AESSequence => L "AES:" end.

(** What is outside: the processor's AES, the build's restricted command line,
    what opening and reading a file gives ([None]: it cannot be opened),
    /dev/urandom, and the address and the 16 bytes of AT_RANDOM. *)
Record Env := {
  haveAes : bool; RestrictedCommandLine : bool;
  file : str -> option (list Z); urandom : option (list Z);
  at_random_address : Z; at_random : list Z;
}.

Definition starts_with (name s : str) : bool := bool_decide (take (length name) s = name).

Fixpoint engine_from (env : Env) (types : list EngineType) (argument : str) : outcome EngineType :=
  match types with
  | [] => Exit EX_USAGE
  | t :: types =>
      if starts_with (engineNameFromType t) argument
      then if bool_decide (t = AESSequence) && negb (haveAes env) then Exit EX_USAGE else Ret t
      else engine_from env types argument
  end.
Definition engineFromName (env : Env) (argument : str) : outcome EngineType := engine_from env engine_types argument.

Definition open_random_file (env : Env) (filename : option str) : option (list Z) :=
  match filename with
  | Some f => if RestrictedCommandLine env then urandom env else file env f
  | None => urandom env
  end.

Definition make_engine (num_cpus : nat) (t : EngineType) : RandomEngineWrapper :=
  {| per_thread := replicate (num_cpus + 1) zero_rng; engine_type := t |}.

(** Changing the global block. *)
Definition on_global (f : thread_rng -> outcome thread_rng) (e : RandomEngineWrapper) : outcome RandomEngineWrapper :=
  i ← rng_for_thread (-1) e;
  b ← of_option (per_thread e !! i);
  b ← f b;
  Ret {| per_thread := <[i := b]> (per_thread e); engine_type := engine_type e |}.

(** The words of a seed. *)
Definition words (bs : list Z) : SeedSequence := (fun i => le_value (take 4 (drop (4 * i) bs))) <$> seq 0 (length bs / 4).

(** read(): a short read ends the program. *)
Definition read_from_seed (n : nat) (fd : list Z) : outcome (list Z * list Z) :=
  if (n <=? length fd)%nat then Ret (take n fd, drop n fd) else Exit EX_IOERR.

(** strchr(s, ':') + 1 *)
Definition after_colon (s : str) : outcome str :=
  match (span (fun c => negb (char_eqb c ":"%char)) s).2 with _ :: rest => Ret rest | [] => Ub end.

Definition random_init_global (env : Env) (num_cpus : nat) (seed_from_user : option str) : outcome RandomEngineWrapper :=
  _ ← assertion (0 <? num_cpus)%nat;
  match open_random_file env seed_from_user, seed_from_user with
  | None, None =>
      let t := if haveAes env && negb (Z.land (at_random_address env) 0x80 =? 0) then AESSequence else LCG in
      on_global (seedGlobalEngine (engine_of t) (words (at_random env))) (make_engine num_cpus t)
  | None, Some seed =>
      t ← engineFromName env seed;
      ptr ← after_colon seed;
      on_global (reloadGlobalState (engine_of t) ptr) (make_engine num_cpus t)
  | Some fd, _ =>
      r ← (if haveAes env
           then r ← read_from_seed 1 fd;
                type ← of_option (r.1 !! 0%nat);
                Ret ((if negb (Z.land type 2 =? 0) then AESSequence else LCG), r.2)
           else Ret (LCG, fd));
      buffer ← read_from_seed sizeof_thread_rng r.2;
      on_global (seedGlobalEngine (engine_of r.1) (words buffer.1)) (make_engine num_cpus r.1)
  end.

Definition random_format_seed (e : RandomEngineWrapper) : outcome str :=
  b ← of_option (per_thread e !! 0%nat);
  s ← globalState (engine_of (engine_type e)) b;
  Ret (engineNameFromType (engine_type e) ++ s).

(** * The functions for tests and for the framework *)

Definition random32 (t : Z) (e : RandomEngineWrapper) := on_rng (generate32 (engine_of (engine_type e))) t e.
Definition random64 (t : Z) (e : RandomEngineWrapper) := on_rng (generate64 (engine_of (engine_type e))) t e.
Definition random128 (t : Z) (e : RandomEngineWrapper) := on_rng (generate128 (engine_of (engine_type e))) t e.
Definition random (t : Z) (e : RandomEngineWrapper) := on_rng (generateInt (engine_of (engine_type e))) t e.
(** RAND_MAX is INT_MAX. *)
Definition rand := random.
Definition lrand48 := random.
Definition mrand48 (t : Z) (e : RandomEngineWrapper) : outcome (Z * RandomEngineWrapper) :=
  r ← random32 t e; Ret (i32 r.1, r.2).

Definition random_advance_seed (e : RandomEngineWrapper) : outcome RandomEngineWrapper := snd <$> rand (-1) e.

(** random_init_thread(): the mixin of a thread depends on its place in the
    topology only. *)
Definition rotl (k n : Z) : Z := Z.lor (u32 (Z.shiftl k n)) (Z.shiftr k (32 - n)).
Definition scramble (k : Z) : Z := u32 (rotl (u32 (k * 0xcc9e2d51)) 15 * 0x1b873593).
Definition thread_pattern (thread_id : Z) : Z :=
  let n := Z.land thread_id 3 in
  if n =? 0 then 0 else if n =? 1 then 0x55555555 else if n =? 2 then 0xaaaaaaaa else 0xffffffff.
Definition mixin_of (info : cpu_info) : Z :=
  let mixin := scramble (u32 (core_id info)) in
  let mixin := rotl mixin 13 in
  let mixin := u32 (mixin * 5 + 0xe6546b64) in
  let mixin := Z.lxor mixin (scramble (u32 (package_id info))) in
  Z.lxor mixin (thread_pattern (thread_id info)).

Definition random_init_thread (cpus : list cpu_info) (thread_num : Z) (e : RandomEngineWrapper)
  : outcome RandomEngineWrapper :=
  info ← at_ cpus thread_num;
  global ← of_option (per_thread e !! 0%nat);
  snd <$> on_rng (fun b => b ← seedThread (engine_of (engine_type e)) global (mixin_of info) b; Ret ((), b)) thread_num e.

(** random_template<FP>(): the fraction that is multiplied with the scale, for a
    type with that many digits. The quotient is exact: the divisor is a power of
    two. *)
Definition random_fraction (digits : Z) (t : Z) (e : RandomEngineWrapper) : outcome (Q * RandomEngineWrapper) :=
  let extra_bits := Z.max (64 - digits) 0 in
  let mantissa_mask := Z.shiftr (2 ^ 64 - 1) extra_bits in
  r ← (if 32 <? digits then random64 t e else random32 t e);
  let mantissa := Z.land r.1 mantissa_mask in
  Ret (Qmake mantissa (Z.to_pos (2 ^ 64 / 2 ^ extra_bits)), r.2).

(** memset_random(): the loop copies 16 bytes at a time; the last copy ends where
    the buffer ends. *)
Fixpoint fill_random (fuel : nat) (t : Z) (ptr n : nat) (v : Z) (buf : list Z) (e : RandomEngineWrapper)
  : outcome (nat * Z * list Z * RandomEngineWrapper) :=
  match fuel with
  | O => Ub
  | S fuel =>
      if (16 <? n - ptr)%nat then
        buf ← write_at ptr (le_bytes 16 v) buf;
        r ← random128 t e;
        fill_random fuel t (ptr + 16) n r.1 buf r.2
      else Ret (ptr, v, buf, e)
  end.

Definition memset_random (t : Z) (buf : list Z) (n : nat) (e : RandomEngineWrapper) : outcome (list Z * RandomEngineWrapper) :=
  if (n <=? 8)%nat then
    if (4 <? n)%nat then
      r ← random64 t e; buf ← write_at 0 (take n (le_bytes 8 r.1)) buf; Ret (buf, r.2)
    else
      r ← random32 t e; buf ← write_at 0 (take n (le_bytes 4 r.1)) buf; Ret (buf, r.2)
  else
    r ← random128 t e;
    if (n <? 16)%nat then
      buf ← write_at 0 (take n (le_bytes 16 r.1)) buf; Ret (buf, r.2)
    else
      f ← fill_random (S (n / 16)) t 0 n r.1 buf r.2;
      let '(ptr, v, buf, e) := f in
      if (n - ptr =? 0)%nat then Ret (buf, e)
      else buf ← write_at (n - 16) (le_bytes 16 v) buf; Ret (buf, e).

(** set_random_bits(): an array of 64 positions; a 64-bit shift by 64 or more is
    undefined. *)
Definition shl1 (n : Z) : outcome Z := if n <? 64 then Ret (Z.shiftl 1 n) else Ub.

Fixpoint fill_positions (n : nat) (i : nat) (a : list Z) : outcome (list Z) :=
  match n with
  | O => Ret a
  | S n =>
      _ ← assertion (i <? length a)%nat;
      fill_positions n (S i) (<[i := Z.of_nat i]> a)
  end.

Fixpoint set_bits (num_bits_to_set : nat) (t : Z) (bit_positions : list Z) (num_unset_bits value : Z)
  (e : RandomEngineWrapper) : outcome (Z * RandomEngineWrapper) :=
  match num_bits_to_set with
  | O => Ret (value, e)
  | S n =>
      r ← random32 t e;
      _ ← assertion (negb (num_unset_bits =? 0));
      let idx_of_bit_to_set := r.1 mod num_unset_bits in
      bitpos_to_set ← at_ bit_positions idx_of_bit_to_set;
      bit ← shl1 bitpos_to_set;
      last ← (if idx_of_bit_to_set <? num_unset_bits - 1
              then x ← at_ bit_positions (num_unset_bits - 1); Ret (Some x)
              else Ret None);
      let bit_positions :=
        match last with Some x => <[Z.to_nat idx_of_bit_to_set := x]> bit_positions | None => bit_positions end in
      set_bits n t bit_positions (num_unset_bits - 1) (Z.lor value bit) r.2
  end.

Definition set_random_bits (t : Z) (num_bits_to_set bitwidth : nat) (e : RandomEngineWrapper)
  : outcome (Z * RandomEngineWrapper) :=
  if (64 <=? num_bits_to_set)%nat && (64 <=? bitwidth)%nat then Ret (0xFFFFFFFFFFFFFFFF, e)
  else if (bitwidth <=? num_bits_to_set)%nat || (64 <=? num_bits_to_set)%nat then
    x ← shl1 (Z.of_nat bitwidth); Ret (x - 1, e)
  else
    bit_positions ← fill_positions bitwidth 0 (replicate 64 0);
    set_bits num_bits_to_set t bit_positions (Z.of_nat bitwidth) 0 e.
End Engines.

(** * The generators

    [gives k f]: on every block of 64 bytes [f] returns a number of [k] bits and
    leaves a block of 64 bytes. *)
Definition rng_ok (b : thread_rng) : Prop := length b = sizeof_thread_rng /\ bytes_ok b.

Definition gives (k : Z) (f : thread_rng -> outcome (Z * thread_rng)) : Prop :=
  forall b, rng_ok b -> exists v b', f b = Ret (v, b') /\ in_u k v /\ rng_ok b'.

(** What the framework relies on of every engine. *)
Class EngineOk (ops : engine_ops) : Prop := {
  gives32 : gives 32 (generate32 ops);
  gives48 : gives 48 (generate48 ops);
  gives64 : gives 64 (generate64 ops);
  givesInt : gives 31 (generateInt ops);
  gives128 : gives 128 (generate128 ops);
  seedThread_ok g m b : rng_ok g -> rng_ok b -> in_u 32 m ->
    exists b', seedThread ops g m b = Ret b' /\ rng_ok b';
}.

Lemma load_rng n off b : rng_ok b -> (off + n <= sizeof_thread_rng)%nat ->
  exists z, load n off b = Ret z /\ 0 <= z < 2 ^ (8 * Z.of_nat n).
Proof. intros [Hl Hb] Hn. apply load_ret; [by rewrite Hl|done]. Qed.

Lemma store_rng n off z b : rng_ok b -> (off + n <= sizeof_thread_rng)%nat ->
  exists b', store n off z b = Ret b' /\ rng_ok b'.
Proof.
  intros [Hl Hb] Hn. destruct (store_ret n off z b) as (b' & H & Hl' & Hb'); [by rewrite Hl|done|].
  exists b'. split; [done|]. split; [congruence|done].
Qed.

Lemma lor_shift_range a b i j : 0 <= i -> 0 <= j -> in_u i a -> in_u j b -> in_u (i + j) (Z.lor a (Z.shiftl b i)).
Proof.
  intros Hi Hj [Ha1 Ha2] [Hb1 Hb2]. unfold in_u. rewrite Z.shiftl_mul_pow2 by done.
  assert (0 < 2 ^ i) by (apply Z.pow_pos_nonneg; lia). assert (0 < 2 ^ j) by (apply Z.pow_pos_nonneg; lia).
  apply lor_lt_pow2; [lia|..]; rewrite Z.pow_add_r by done; nia.
Qed.

Lemma land_mask_range a n : 0 <= n -> in_u n (Z.land a (2 ^ n - 1)).
Proof. intros. rewrite land_ones_mod by done. apply Z.mod_pos_bound, Z.pow_pos_nonneg; lia. Qed.

Lemma generic_gives64 f : gives 32 f -> gives 64 (generic_generate64 f).
Proof.
  intros H b Hb. unfold generic_generate64. destruct (H b Hb) as (v & b1 & E & Hv & Hb1). rewrite E. simpl.
  destruct (H b1 Hb1) as (v' & b2 & E' & Hv' & Hb2). rewrite E'. simpl. do 2 eexists. split; [done|].
  split; [|done]. by apply (lor_shift_range v v' 32 32).
Qed.

Lemma generic_gives128 f : gives 64 f -> gives 128 (generic_generate128 f).
Proof.
  intros H b Hb. unfold generic_generate128. destruct (H b Hb) as (v & b1 & E & Hv & Hb1). rewrite E. simpl.
  destruct (H b1 Hb1) as (v' & b2 & E' & Hv' & Hb2). rewrite E'. simpl. do 2 eexists. split; [done|].
  split; [|done]. by apply (lor_shift_range v v' 64 64).
Qed.

Lemma generic_gives48 f : gives 64 f -> gives 48 (generic_generate48 f).
Proof.
  intros H b Hb. unfold generic_generate48. destruct (H b Hb) as (v & b1 & E & Hv & Hb1). rewrite E. simpl.
  do 2 eexists. split; [done|]. split; [|done]. by apply (land_mask_range v 48).
Qed.

Lemma generic_givesInt f : gives 32 f -> gives 31 (generic_generateInt f).
Proof.
  intros H b Hb. unfold generic_generateInt. destruct (H b Hb) as (v & b1 & E & Hv & Hb1). rewrite E. simpl.
  do 2 eexists. split; [done|]. split; [|done]. by apply (land_mask_range v 31).
Qed.

Lemma generic_seedThread_ok g m b : rng_ok g -> rng_ok b -> exists b', generic_seedThread g m b = Ret b' /\ rng_ok b'.
Proof.
  intros Hg Hb. unfold generic_seedThread. assert (Forall (fun i => (i < 16)%nat) (seq 0 16)) as Hl by (by repeat constructor; lia).
  revert b Hb. induction Hl as [|i l Hi Hl IH]; intros b Hb; cbn [fold_outcome]; [by exists b|].
  destruct (load_rng 4 (4 * i) g) as (z & E & _); [done|unfold sizeof_thread_rng; lia|]. rewrite E. cbn [mbind outcome_bind].
  destruct (store_rng 4 (4 * i) (Z.lxor z m) b) as (b' & E' & Hb'); [done|unfold sizeof_thread_rng; lia|].
  rewrite E'. by apply IH.
Qed.

Lemma constant_gives : gives 32 constant_next.
Proof.
  intros b Hb. unfold constant_next. destruct (load_rng 4 0 b) as (z & E & Hz); [done|unfold sizeof_thread_rng; lia|].
  rewrite E. simpl. by exists z, b.
Qed.

#[export] Instance constant_ok : EngineOk constant_value_engine.
Proof.
  split; simpl; eauto using constant_gives, generic_gives64, generic_gives48, generic_givesInt, generic_gives128.
  intros. by apply generic_seedThread_ok.
Qed.

Lemma minstd_next_range x : 0 <= minstd_next x < minstd_m.
Proof. unfold minstd_next. apply Z.mod_pos_bound. done. Qed.

Lemma minstd_gives : gives 31 minstd_call.
Proof.
  intros b Hb. unfold minstd_call. destruct (load_rng 8 0 b) as (z & E & Hz); [done|unfold sizeof_thread_rng; lia|].
  rewrite E. simpl. destruct (store_rng 8 0 (minstd_next z) b) as (b' & E' & Hb'); [done|unfold sizeof_thread_rng; lia|].
  rewrite E'. simpl. do 2 eexists. split; [done|]. split; [|done].
  pose proof (minstd_next_range z). unfold minstd_m in *. unfold in_u. lia.
Qed.

(** Two samples of which some bits are taken. *)
Lemma minstd_two_samples k b : 0 < k -> rng_ok b ->
  exists v b', (r ← minstd_call b; r' ← minstd_call r.2;
    Ret (Z.lor (Z.land r.1 (2 ^ k - 1)) (Z.shiftl (Z.land r'.1 (2 ^ k - 1)) k), r'.2)) = Ret (v, b') /\
    in_u (k + k) v /\ rng_ok b'.
Proof.
  intros Hk Hb. destruct (minstd_gives b Hb) as (v & b1 & E & Hv & Hb1). rewrite E. simpl.
  destruct (minstd_gives b1 Hb1) as (v' & b2 & E' & Hv' & Hb2). rewrite E'. simpl.
  do 2 eexists. split; [done|]. split; [|done]. apply lor_shift_range; auto using land_mask_range with lia.
  all: apply land_mask_range; lia.
Qed.

Lemma minstd_gives48 : gives 48 minstd_generate48.
Proof. intros b Hb. by apply (minstd_two_samples 24 b). Qed.

Lemma minstd_gives64 : gives 64 minstd_generate64.
Proof.
  intros b Hb. unfold minstd_generate64. destruct (minstd_gives48 b Hb) as (v & b1 & E & Hv & Hb1). rewrite E. simpl.
  destruct (minstd_gives b1 Hb1) as (v' & b2 & E' & Hv' & Hb2). rewrite E'. simpl.
  do 2 eexists. split; [done|]. split; [|done]. unfold in_u in *.
  apply lor_lt_pow2; [lia|lia|]. by apply wrap_u_range.
Qed.

#[export] Instance minstd_ok : EngineOk minstd_rand.
Proof.
  split; simpl; eauto using minstd_gives, minstd_gives48, minstd_gives64, generic_gives128.
  - intros b Hb. by apply (minstd_two_samples 16 b).
  - intros g m b Hg Hb Hm. unfold minstd_seedThread.
    destruct (load_rng 8 0 g) as (z & E & Hz); [done|unfold sizeof_thread_rng; lia|]. rewrite E. simpl.
    apply store_rng; [done|unfold sizeof_thread_rng; lia].
Qed.

Section Aes.
Context (aesenc : Z -> Z -> Z).

Lemma generateM128_gives : gives 128 (generateM128 aesenc).
Proof using Type.
  intros b Hb. unfold generateM128.
  destruct (load_rng 16 0 b) as (z & E & _); [done|unfold sizeof_thread_rng; lia|]. rewrite E. simpl.
  destruct (load_rng 16 16 b) as (z' & E' & _); [done|unfold sizeof_thread_rng; lia|]. rewrite E'. simpl.
  destruct (store_rng 16 0 (wrap_u 128 (aesenc z z')) b) as (b' & E2 & Hb'); [done|unfold sizeof_thread_rng; lia|].
  rewrite E2. simpl. do 2 eexists. split; [done|]. split; [by apply wrap_u_range|done].
Qed.

Lemma aes_gives k (f : Z -> Z) : (forall v, in_u 128 v -> in_u k (f v)) ->
  gives k (fun b => r ← generateM128 aesenc b; Ret (f r.1, r.2)).
Proof using Type.
  intros Hf b Hb. destruct (generateM128_gives b Hb) as (v & b' & E & Hv & Hb'). rewrite E. simpl.
  do 2 eexists. eauto.
Qed.

#[export] Instance aes_ok : EngineOk (aes_engine aesenc).
Proof using Type.
  assert (gives 32 (aes_generate32 aesenc)) as H32 by (apply (aes_gives 32 u32); intros; by apply wrap_u_range).
  assert (gives 64 (aes_generate64 aesenc)) as H64 by (apply (aes_gives 64 u64); intros; by apply wrap_u_range).
  split; simpl; eauto using generic_gives48, generic_givesInt.
  - apply (aes_gives 128 (fun v => Z.lor (u64 v) (Z.shiftl (Z.shiftr v 64) 64))). intros v Hv.
    apply (lor_shift_range _ _ 64 64); [lia|lia|by apply wrap_u_range|].
    unfold in_u in *. rewrite Z.shiftr_div_pow2 by lia. split; [apply Z.div_pos; lia|].
    apply Z.div_lt_upper_bound; lia.
  - intros. by apply generic_seedThread_ok.
Qed.

#[export] Instance engine_of_ok t : EngineOk (engine_of aesenc t).
Proof using Type. destruct t; apply _. Qed.
End Aes.

(** * The vector of blocks *)

Definition wrapper_ok (n : nat) (e : RandomEngineWrapper) : Prop :=
  length (per_thread e) = S n /\ Forall rng_ok (per_thread e).

(** [e'] is [e] except for the block of thread [t]. *)
Definition same_but (t : Z) (e e' : RandomEngineWrapper) : Prop :=
  engine_type e' = engine_type e /\
  forall u, -1 <= u -> u <> t -> per_thread e' !! Z.to_nat (u + 1) = per_thread e !! Z.to_nat (u + 1).

(** A call of thread [t] in state [e] that returns a value with [P], leaving the
    vector well formed and the blocks of the other threads alone. *)
Definition yields {A} (n : nat) (t : Z) (P : A -> Prop) (r : outcome (A * RandomEngineWrapper)) (e : RandomEngineWrapper) : Prop :=
  exists v e', r = Ret (v, e') /\ P v /\ wrapper_ok n e' /\ same_but t e e'.

Lemma on_rng_ret {A} (P : A -> Prop) (f : thread_rng -> outcome (A * thread_rng)) n t e :
  (forall b, rng_ok b -> exists v b', f b = Ret (v, b') /\ P v /\ rng_ok b') ->
  wrapper_ok n e -> -1 <= t < Z.of_nat n ->
  yields n t P (on_rng f t e) e.
Proof.
  intros Hf [Hl He] Ht. unfold on_rng, rng_for_thread.
  rewrite (proj2 (Z.ltb_lt t _)) by (unfold len; lia). rewrite (proj2 (Z.leb_le (-1) t)) by lia. cbn [assertion mbind outcome_bind].
  destruct (lookup_lt_is_Some_2 (per_thread e) (Z.to_nat (t + 1))) as [b Hb]; [lia|]. rewrite Hb. cbn [of_option mbind outcome_bind].
  destruct (Hf b) as (v & b' & E & Hv & Hb'); [by eapply Forall_lookup_1|]. rewrite E. cbn [fst snd].
  do 2 eexists. split; [done|]. split; [done|]. split; [split; simpl|].
  - by rewrite length_insert.
  - by apply Forall_insert.
  - split; [done|]. intros u Hu Hne. simpl. apply list_lookup_insert_ne. lia.
Qed.

Section Numbers.
Context (aesenc : Z -> Z -> Z).

Lemma random32_ret n t e : wrapper_ok n e -> -1 <= t < Z.of_nat n ->
  yields n t (in_u 32) (random32 aesenc t e) e.
Proof using Type. apply on_rng_ret, gives32. Qed.

Lemma random64_ret n t e : wrapper_ok n e -> -1 <= t < Z.of_nat n ->
  yields n t (in_u 64) (random64 aesenc t e) e.
Proof using Type. apply on_rng_ret, gives64. Qed.

Lemma random128_ret n t e : wrapper_ok n e -> -1 <= t < Z.of_nat n ->
  yields n t (in_u 128) (random128 aesenc t e) e.
Proof using Type. apply on_rng_ret, gives128. Qed.

Lemma random_ret n t e : wrapper_ok n e -> -1 <= t < Z.of_nat n ->
  yields n t (in_u 31) (random aesenc t e) e.
Proof using Type. apply on_rng_ret, givesInt. Qed.

Lemma same_but_trans t e1 e2 e3 : same_but t e1 e2 -> same_but t e2 e3 -> same_but t e1 e3.
Proof using Type. intros [H1 H2] [H3 H4]. split; [congruence|]. intros u Hu Hne. by rewrite H4, H2. Qed.

Lemma same_but_refl t e : same_but t e e.
Proof using Type. done. Qed.

(** C36. Random numbers are well typed for every engine, every state of it and every
    test thread, the main thread (-1) included: random32(), random64() and
    random128() return a number of their width, random(), rand() and lrand48() one
    in [0, 2^31), mrand48() one in [-2^31, 2^31), frandom() a fraction in [0, 1);
    no call fails, and none changes the numbers that another thread will get. *)
Theorem random_numbers_well_typed (n : nat) (e : RandomEngineWrapper) (t : Z) :
  wrapper_ok n e -> -1 <= t < Z.of_nat n ->
  yields n t (in_u 32) (random32 aesenc t e) e /\ yields n t (in_u 64) (random64 aesenc t e) e /\
  yields n t (in_u 128) (random128 aesenc t e) e /\ yields n t (in_u 31) (random aesenc t e) e /\
  yields n t (in_u 31) (rand aesenc t e) e /\ yields n t (in_u 31) (lrand48 aesenc t e) e /\
  yields n t (in_s 32) (mrand48 aesenc t e) e /\
  forall digits, 0 < digits <= 64 ->
    yields n t (fun q => 0 <= Qnum q < Zpos (Qden q)) (random_fraction aesenc digits t e) e.
Proof using Type.
  intros He Ht. split; [by apply random32_ret|]. split; [by apply random64_ret|].
  split; [by apply random128_ret|]. do 3 (split; [by apply random_ret|]). split.
  - destruct (random32_ret n t e He Ht) as (v & e' & E & _ & He' & Hs). exists (i32 v), e'. unfold mrand48. rewrite E.
    split; [done|]. split; [by apply wrap_s_range|done].
  - intros digits Hd.
    assert (exists v e', (if 32 <? digits then random64 aesenc t e else random32 aesenc t e) = Ret (v, e') /\
      0 <= v /\ wrapper_ok n e' /\ same_but t e e') as (v & e' & E & Hv & He' & Hs).
    { destruct (Z.ltb_spec 32 digits).
      - destruct (random64_ret n t e He Ht) as (v & e' & ? & [? _] & ? & ?). by exists v, e'.
      - destruct (random32_ret n t e He Ht) as (v & e' & ? & [? _] & ? & ?). by exists v, e'. }
    unfold yields, random_fraction. rewrite E. cbn [mbind outcome_bind fst snd]. do 2 eexists. split; [done|]. split; [|done].
    cbn [Qnum Qden]. rewrite (Z.max_l (64 - digits) 0), Z.shiftr_div_pow2 by lia.
    assert (2 ^ 64 = 2 ^ digits * 2 ^ (64 - digits)) as Hp by (rewrite <- Z.pow_add_r by lia; f_equal; lia).
    assert (0 < 2 ^ digits) by (apply Z.pow_pos_nonneg; lia). assert (0 < 2 ^ (64 - digits)) by (apply Z.pow_pos_nonneg; lia).
    rewrite Hp, Z.div_mul by lia. rewrite Z2Pos.id by done.
    replace ((2 ^ digits * 2 ^ (64 - digits) - 1) / 2 ^ (64 - digits)) with (2 ^ digits - 1).
    + by apply land_mask_range; lia.
    + apply Z.div_unique with (2 ^ (64 - digits) - 1); lia.
Qed.

(** Setting bits: the unused positions are the first [u] entries of the array;
    the last of them takes the place of the one that was used. *)
Definition remove_position (a : list Z) (u i : nat) (x : Z) : list Z :=
  if (i <? u - 1)%nat then <[i := x]> a else a.

Lemma remove_position_perm (a : list Z) (u i : nat) (p x : Z) :
  (i < u <= length a)%nat -> a !! i = Some p -> a !! (u - 1)%nat = Some x ->
  p :: take (u - 1) (remove_position a u i x) ≡ₚ take u a.
Proof using Type.
  intros Hu Hp Hx. unfold remove_position.
  assert (take u a = take (u - 1) a ++ [x]) as -> by (rewrite <- take_S_r by done; f_equal; lia).
  destruct (Nat.ltb_spec i (u - 1)).
  - rewrite take_insert_lt by done. set (l := take (u - 1) a).
    assert (l !! i = Some p) as Hl by (unfold l; by rewrite lookup_take_lt by lia).
    assert (i < length l)%nat by by eapply lookup_lt_Some.
    rewrite insert_take_drop by done. rewrite <- (take_drop_middle l i p Hl) at 3.
    rewrite <- Permutation_cons_append, <- !Permutation_middle. apply perm_swap.
  - replace i with (u - 1)%nat in Hp by lia. simplify_eq. apply Permutation_cons_append.
Qed.

Lemma fill_positions_spec n i a : (i + n <= length a)%nat ->
  exists a', fill_positions n i a = Ret a' /\ length a' = length a /\
    (forall j, (j < i)%nat -> a' !! j = a !! j) /\ (forall j, (i <= j < i + n)%nat -> a' !! j = Some (Z.of_nat j)).
Proof using Type.
  revert i a. induction n as [|n IH]; intros i a Hn; simpl; [exists a; repeat split; [done..|lia]|].
  rewrite (proj2 (Nat.ltb_lt i (length a))) by lia. simpl.
  destruct (IH (S i) (<[i := Z.of_nat i]> a)) as (a' & E & Hl & Hlo & Hhi); [rewrite length_insert; lia|].
  rewrite length_insert in Hl. exists a'. split; [done|]. split; [done|]. split.
  - intros j Hj. rewrite Hlo by lia. apply list_lookup_insert_ne. lia.
  - intros j Hj. destruct (decide (j = i)) as [->|]; [|apply Hhi; lia].
    rewrite Hlo by lia. apply list_lookup_insert_eq. lia.
Qed.

(** The state of the loop: the positions left are distinct, below the width and
    clear in the value; [k] bits are set so far. *)
Definition bits_inv (bitwidth : Z) (a : list Z) (u : nat) (value : Z) (k : Z) : Prop :=
  length a = 64%nat /\ (u <= 64)%nat /\ NoDup (take u a) /\
  (forall p, p ∈ take u a -> 0 <= p < bitwidth /\ Z.testbit value p = false) /\
  popcount_upto 64 value = k /\ 0 <= value /\ (forall i, bitwidth <= i -> Z.testbit value i = false).

Lemma bits_inv_step bitwidth a u value k i p x : 0 <= bitwidth <= 64 -> bits_inv bitwidth a u value k ->
  (i < u)%nat -> a !! i = Some p -> a !! (u - 1)%nat = Some x ->
  bits_inv bitwidth (remove_position a u i x) (u - 1) (Z.lor value (Z.shiftl 1 p)) (k + 1).
Proof using Type.
  intros Hw (Hl & Hu & Hnd & Hpos & Hk & H0 & Hhi) Hi Hp Hx.
  pose proof (remove_position_perm a u i p x ltac:(lia) Hp Hx) as Hperm.
  assert (p ∈ take u a) as Hin by (apply list_elem_of_lookup_2 with i; by rewrite lookup_take_lt by lia).
  destruct (Hpos p Hin) as [Hpr Hpb]. rewrite <- Hperm in Hnd. apply NoDup_cons in Hnd as [Hnp Hnd].
  change (Z.lor value (Z.shiftl 1 p)) with (Z.setbit value p). repeat split.
  - unfold remove_position. case_match; [by rewrite length_insert|done].
  - lia.
  - done.
  - apply (Hpos p0). rewrite <- Hperm. by right.
  - apply (Hpos p0). rewrite <- Hperm. by right.
  - rewrite Z.setbit_neq; [apply (Hpos p0); rewrite <- Hperm; by right|lia|intros ->; done].
  - rewrite popcount_upto_setbit by (done || lia). by rewrite Hk.
  - apply Z.lor_nonneg. split; [done|]. apply Z.shiftl_nonneg. lia.
  - intros j Hj. rewrite Z.setbit_neq by lia. by apply Hhi.
Qed.

Lemma set_bits_spec n t bitwidth m : forall a u value k e,
  wrapper_ok n e -> -1 <= t < Z.of_nat n -> 0 <= bitwidth <= 64 -> bits_inv bitwidth a u value k -> (m <= u)%nat ->
  yields n t (fun v => popcount_upto 64 v = k + Z.of_nat m /\ 0 <= v /\ forall i, bitwidth <= i -> Z.testbit v i = false)
    (set_bits aesenc m t a (Z.of_nat u) value e) e.
Proof using Type.
  induction m as [|m IH]; intros a u value k e He Ht Hw Hinv Hm; cbn [set_bits].
  { destruct Hinv as (_ & _ & _ & _ & Hk & H0 & Hhi). exists value, e. repeat split; try done; try apply He. lia. }
  destruct (random32_ret n t e He Ht) as (r & e1 & E & Hr & He1 & Hs). rewrite E. cbn [mbind outcome_bind fst snd].
  rewrite (proj2 (Z.eqb_neq (Z.of_nat u) 0)) by lia. cbn [negb assertion mbind outcome_bind].
  set (i := r mod Z.of_nat u). assert (0 <= i < Z.of_nat u) as Hi by (apply Z.mod_pos_bound; lia).
  pose proof Hinv as (Hl & Hu & _ & Hpos & _).
  destruct (at_ret a i) as (p & Ep & Hp); [unfold len; lia|]. rewrite Ep. cbn [mbind outcome_bind].
  destruct (at_ret a (Z.of_nat u - 1)) as (x & Ex & Hx); [unfold len; lia|].
  replace (Z.to_nat (Z.of_nat u - 1)) with (u - 1)%nat in Hx by lia.
  destruct (Hpos p) as [Hpr _]; [apply list_elem_of_lookup_2 with (Z.to_nat i); by rewrite lookup_take_lt by lia|].
  unfold shl1. rewrite (proj2 (Z.ltb_lt p 64)) by lia. cbn [mbind outcome_bind].
  pose proof (bits_inv_step bitwidth a u value k (Z.to_nat i) p x Hw Hinv ltac:(lia) Hp Hx) as Hinv'.
  assert (forall a', a' = remove_position a u (Z.to_nat i) x ->
    yields n t (fun v => popcount_upto 64 v = k + Z.of_nat (S m) /\ 0 <= v /\ forall j, bitwidth <= j -> Z.testbit v j = false)
      (set_bits aesenc m t a' (Z.of_nat u - 1) (Z.lor value (Z.shiftl 1 p)) e1) e) as Hrec.
  { intros a' ->. replace (Z.of_nat u - 1) with (Z.of_nat (u - 1)) by lia.
    destruct (IH _ _ _ _ e1 He1 Ht Hw Hinv' ltac:(lia)) as (v & e2 & E2 & (Hv1 & Hv2) & He2 & Hs2).
    exists v, e2. split; [done|]. split; [split; [lia|done]|]. split; [done|]. by eapply same_but_trans. }
  destruct (Z.ltb_spec i (Z.of_nat u - 1)).
  - rewrite Ex. cbn [mbind outcome_bind]. apply Hrec. unfold remove_position. by rewrite (proj2 (Nat.ltb_lt _ _)) by lia.
  - cbn [mbind outcome_bind]. apply Hrec. unfold remove_position. by rewrite (proj2 (Nat.ltb_ge _ _)) by lia.
Qed.

Lemma popcount_ones n w : (w <= n)%nat -> popcount_upto n (2 ^ Z.of_nat w - 1) = Z.of_nat w.
Proof using Type.
  replace (2 ^ Z.of_nat w - 1) with (Z.ones (Z.of_nat w)) by (rewrite Z.ones_equiv; lia).
  revert w. induction n as [|n IH]; intros w Hw; [simpl; lia|]. cbn [popcount_upto].
  destruct (decide (w = S n)) as [->|].
  - rewrite Z.ones_spec_low by lia.
    rewrite (popcount_upto_ext n _ (Z.ones (Z.of_nat n))); [rewrite IH by lia; simpl Z.b2z; lia|].
    intros i Hi. by rewrite !Z.ones_spec_low by lia.
  - rewrite Z.ones_spec_high, IH by lia. simpl Z.b2z. lia.
Qed.

Lemma set_random_bits_loop n t k w e : wrapper_ok n e -> -1 <= t < Z.of_nat n -> (k < w <= 64)%nat ->
  yields n t (fun v => popcount_upto 64 v = Z.of_nat (k `min` w) /\ in_u (Z.of_nat w) v)
    (a ← fill_positions w 0 (replicate 64 0); set_bits aesenc k t a (Z.of_nat w) 0 e) e.
Proof using Type.
  intros He Ht Hk. destruct (fill_positions_spec w 0 (replicate 64 0)) as (a & E & Hl & _ & Ha); [rewrite length_replicate; lia|].
  rewrite length_replicate in Hl. rewrite E. cbn [mbind outcome_bind].
  assert (take w a = Z.of_nat <$> seq 0 w) as Htake.
  { apply list_eq_same_length with w; [by rewrite length_fmap, length_seq|rewrite length_take; lia|].
    intros i x y Hi. rewrite lookup_take_lt, list_lookup_fmap, lookup_seq_lt, Ha by lia. simpl. congruence. }
  destruct (set_bits_spec n t (Z.of_nat w) k a w 0 0 e He Ht) as (v & e' & Ev & (Hv1 & Hv2 & Hv3) & H'); [lia| |lia|].
  - repeat split; try done; try lia.
    + rewrite Htake. apply NoDup_fmap; [intros x y; lia|apply NoDup_seq].
    + rewrite Htake in H. apply list_elem_of_fmap in H as (j & -> & Hj). lia.
    + rewrite Htake in H. apply list_elem_of_fmap in H as (j & -> & Hj%elem_of_seq). lia.
    + apply Z.bits_0.
    + intros. apply Z.bits_0.
  - exists v, e'. split; [done|]. split; [|done]. split; [lia|]. split; [done|].
    destruct (decide (v = 0)) as [->|]; [apply Z.pow_pos_nonneg; lia|].
    apply Z.log2_lt_pow2; [lia|]. apply Z.nle_gt. intros Hlog. specialize (Hv3 (Z.log2 v) Hlog).
    rewrite Z.bit_log2 in Hv3; [done|lia].
Qed.

Lemma set_random_bits_ok (n : nat) (t : Z) (k w : nat) (e : RandomEngineWrapper) :
  wrapper_ok n e -> -1 <= t < Z.of_nat n -> (w <= 64)%nat ->
  yields n t (fun v => popcount_upto 64 v = Z.of_nat (k `min` w) /\ in_u (Z.of_nat w) v) (set_random_bits aesenc t k w e) e.
Proof using Type.
  intros He Ht Hw. unfold set_random_bits.
  assert (forall v, v = 2 ^ Z.of_nat w - 1 -> (w <= k)%nat ->
    yields n t (fun v => popcount_upto 64 v = Z.of_nat (k `min` w) /\ in_u (Z.of_nat w) v) (Ret (v, e)) e) as Hall.
  { intros v -> Hk. exists (2 ^ Z.of_nat w - 1), e. split; [done|]. split; [|done]. rewrite Nat.min_r, popcount_ones by lia.
    split; [done|]. unfold in_u. assert (0 < 2 ^ Z.of_nat w) by (apply Z.pow_pos_nonneg; lia). lia. }
  destruct (Nat.leb_spec 64 k); destruct (Nat.leb_spec 64 w); cbn [andb].
  - apply Hall; [|lia]. by replace w with 64%nat by lia.
  - rewrite orb_true_r. unfold shl1. rewrite (proj2 (Z.ltb_lt _ 64)) by lia. cbn [mbind outcome_bind].
    apply Hall; [|lia]. by rewrite Z.shiftl_1_l.
  - rewrite orb_false_r. rewrite (proj2 (Nat.leb_gt w k)) by lia. apply set_random_bits_loop; done || lia.
  - rewrite orb_false_r. destruct (Nat.leb_spec w k).
    + unfold shl1. rewrite (proj2 (Z.ltb_lt _ 64)) by lia. cbn [mbind outcome_bind]. apply Hall; [|lia]. by rewrite Z.shiftl_1_l.
    + apply set_random_bits_loop; done || lia.
Qed.

(** set_random_bits(k, w) sets what it promises: for a width of at most 64
    bits the result has exactly min(k, w) bits set, all of them among the lowest
    [w], for every engine and every state of it; the array of positions is never
    accessed out of bounds. *)
Theorem set_random_bits_spec (n : nat) (t : Z) (k w : nat) (e : RandomEngineWrapper) :
  wrapper_ok n e -> -1 <= t < Z.of_nat n -> (w <= 64)%nat ->
  yields n t (fun v => popcount_upto 64 v = Z.of_nat (k `min` w) /\ in_u (Z.of_nat w) v) (set_random_bits aesenc t k w e) e.
Proof using Type. apply set_random_bits_ok. Qed.

(** Filling memory: the chunks that the loop writes do not depend on what the
    buffer holds. *)
Lemma fill_random_spec m t n : -1 <= t < Z.of_nat m -> forall fuel ptr v e,
  wrapper_ok m e -> (ptr < n)%nat -> (n - ptr < 16 * fuel)%nat ->
  exists cs v' e', bytes_ok cs /\ (ptr + length cs < n <= ptr + length cs + 16)%nat /\ wrapper_ok m e' /\ same_but t e e' /\
    forall buf, (n <= length buf)%nat ->
      fill_random aesenc fuel t ptr n v buf e =
        Ret ((ptr + length cs)%nat, v', take ptr buf ++ cs ++ drop (ptr + length cs) buf, e').
Proof using Type.
  intros Ht. induction fuel as [|fuel IH]; intros ptr v e He Hp Hf; [lia|]. cbn [fill_random].
  destruct (Nat.ltb_spec 16 (n - ptr)).
  - destruct (random128_ret m t e He Ht) as (v1 & e1 & E & _ & He1 & Hs1). rewrite E.
    destruct (IH (ptr + 16)%nat v1 e1) as (cs & v' & e' & Hcs & Hlen & He' & Hs' & Hrec); [done|lia..|].
    exists (le_bytes 16 v ++ cs), v', e'. rewrite length_app, length_le_bytes.
    split; [apply bytes_ok_app; auto using le_bytes_ok|]. split; [lia|]. split; [done|].
    split; [by eapply same_but_trans|]. intros buf Hb.
    rewrite write_at_ret by (rewrite length_le_bytes; lia). cbn [mbind outcome_bind fst snd].
    rewrite length_le_bytes, Hrec by (rewrite !length_app, length_take, length_drop, length_le_bytes; lia).
    do 2 f_equal. f_equal; [f_equal; lia|]. rewrite (app_assoc (take ptr buf) (le_bytes 16 v) (drop (ptr + 16) buf)).
    rewrite take_app_length' by (rewrite length_app, length_take, length_le_bytes; lia).
    rewrite drop_app_ge by (rewrite length_app, length_take, length_le_bytes; lia).
    rewrite drop_drop, length_app, length_take, length_le_bytes, <- !app_assoc. do 4 f_equal. lia.
  - exists [], v, e. simpl. rewrite Nat.add_0_r. split; [constructor|]. split; [lia|]. split; [done|].
    split; [apply same_but_refl|]. intros buf Hb. by rewrite take_drop.
Qed.

(** memset_random() fills its buffer: for every size, every engine and every
    thread it writes [n] random bytes over the first [n] bytes, whatever was there
    before, and nothing beyond them. *)
Theorem memset_random_spec (m : nat) (t : Z) (n : nat) (e : RandomEngineWrapper) :
  wrapper_ok m e -> -1 <= t < Z.of_nat m ->
  exists bs e', length bs = n /\ bytes_ok bs /\ wrapper_ok m e' /\ same_but t e e' /\
    forall buf, (n <= length buf)%nat -> memset_random aesenc t buf n e = Ret (bs ++ drop n buf, e').
Proof using Type.
  intros He Ht. unfold memset_random.
  assert (forall k v e', (n <= k)%nat -> wrapper_ok m e' -> same_but t e e' ->
    exists bs e'', length bs = n /\ bytes_ok bs /\ wrapper_ok m e'' /\ same_but t e e'' /\
    forall buf, (n <= length buf)%nat -> (buf ← write_at 0 (take n (le_bytes k v)) buf; Ret (buf, e')) = Ret (bs ++ drop n buf, e'')) as Hone.
  { intros k v e' Hk He' Hs. exists (take n (le_bytes k v)), e'.
    assert (length (take n (le_bytes k v)) = n) as Hl by (rewrite length_take, length_le_bytes; lia).
    split; [done|]. split; [apply bytes_ok_take, le_bytes_ok|]. split; [done|]. split; [done|]. intros buf Hb.
    rewrite write_at_ret by (rewrite Hl; lia). by rewrite Hl. }
  destruct (Nat.leb_spec n 8); [destruct (Nat.ltb_spec 4 n)|].
  - destruct (random64_ret m t e He Ht) as (v & e1 & E & _ & He1 & Hs1). rewrite E. cbn [mbind outcome_bind fst snd]. apply Hone; [lia|done..].
  - destruct (random32_ret m t e He Ht) as (v & e1 & E & _ & He1 & Hs1). rewrite E. cbn [mbind outcome_bind fst snd]. apply Hone; [lia|done..].
  - destruct (random128_ret m t e He Ht) as (v & e1 & E & _ & He1 & Hs1). rewrite E. cbn [mbind outcome_bind fst snd].
    destruct (Nat.ltb_spec n 16); [apply Hone; [lia|done..]|].
    destruct (fill_random_spec m t n Ht (S (n / 16)) 0 v e1 He1) as (cs & v' & e' & Hcs & Hlen & He' & Hs' & Hrec); [lia| |].
    { pose proof (Nat.div_mod_eq n 16). pose proof (Nat.mod_upper_bound n 16). lia. }
    exists (take (n - 16) cs ++ le_bytes 16 v'), e'. split; [rewrite length_app, length_take, length_le_bytes; lia|].
    split; [apply bytes_ok_app; auto using bytes_ok_take, le_bytes_ok|]. split; [done|]. split; [by eapply same_but_trans|].
    intros buf Hb. rewrite Hrec by done. cbn [mbind outcome_bind]. rewrite take_0. cbn [app].
    rewrite (proj2 (Nat.eqb_neq _ 0)) by lia.
    rewrite write_at_ret by (rewrite length_le_bytes, length_app, length_drop; lia). cbn [mbind outcome_bind].
    rewrite length_le_bytes, take_app_le by lia. replace (n - 16 + 16)%nat with n by lia.
    rewrite drop_app_ge, drop_drop, <- app_assoc by lia. do 4 f_equal. simpl. f_equal. lia.
Qed.
End Numbers.

(** * Seeds

    Before the test threads start, the main process keeps the state of its engine
    in the first bytes of the global block; everything else in the vector is
    zero. *)
Section Seeds.
Context (aesenc : Z -> Z -> Z).

Definition global_form (t : EngineType) (g : thread_rng) : Prop :=
  rng_ok g /\ drop (stateSize (engine_of aesenc t)) g = replicate (sizeof_thread_rng - stateSize (engine_of aesenc t)) 0.

Definition parent_engine (n : nat) (e : RandomEngineWrapper) : Prop :=
  exists g, per_thread e = g :: replicate n zero_rng /\ global_form (engine_type e) g.

(** The text of an AES seed that fits in the state. *)
Definition short_seed (seed : option str) : Prop :=
  match seed with Some s => (length s <= 4 + 64)%nat | None => True end.

Lemma store_frame n off z g g' k : (off + n <= k)%nat -> store n off z g = Ret g' -> drop k g' = drop k g.
Proof using Type.
  unfold store, write_at. rewrite length_le_bytes. intros Hk. destruct (Nat.leb_spec (off + n) (length g)); [|done].
  intros [= <-]. rewrite drop_app_ge by (rewrite length_take; lia).
  rewrite drop_app_ge by (rewrite length_le_bytes, length_take; lia). rewrite drop_drop. f_equal.
  rewrite length_take, length_le_bytes. lia.
Qed.

Lemma store_form t n off z g g' : (off + n <= stateSize (engine_of aesenc t))%nat ->
  global_form t g -> store n off z g = Ret g' -> global_form t g'.
Proof using Type.
  intros Hn [[Hl Hb] Hd] E. split; [split|].
  - rewrite <- Hl. by eapply write_at_length.
  - eapply write_at_ok; [|exact Hb|exact E]. apply le_bytes_ok.
  - rewrite <- Hd. by eapply store_frame.
Qed.

Lemma zero_form t : global_form t zero_rng.
Proof using Type.
  split; [split; [done|apply bytes_ok_zero]|]. unfold zero_rng. by rewrite drop_replicate.
Qed.

Lemma seedGlobal_form t seed g g' : global_form t g -> seedGlobalEngine (engine_of aesenc t) seed g = Ret g' -> global_form t g'.
Proof using Type.
  intros Hg E. destruct t; simpl in E.
  - inv_ret. by eapply store_form; [|done|done]; simpl; lia.
  - unfold minstd_seed_seq in E. inv_ret. by eapply store_form; [|done|done]; simpl; lia.
  - unfold aes_seed in E. inv_ret. eapply store_form; [|eapply store_form; [|done|exact Ha3]|exact E]; simpl; lia.
Qed.

Lemma reload_form t ptr g g' : (length ptr <= 64)%nat -> global_form t g ->
  reloadGlobalState (engine_of aesenc t) ptr g = Ret g' -> global_form t g'.
Proof using Type.
  intros Hp Hg E. destruct t; simpl in E.
  - by eapply store_form; [|done|done]; simpl; lia.
  - by eapply store_form; [|done|done]; simpl; lia.
  - unfold aes_reloadGlobalState in E. eapply fold_outcome_inv; [|exact Hg|exact E].
    intros b [i ch] b' Hin Hb Hr. unfold reload_nibble in Hr. inv_ret.
    assert (i < 64)%nat as Hi by (apply elem_of_zip_l, elem_of_seq in Hin; lia).
    assert (i / 2 + 1 <= 32)%nat by (pose proof (Nat.Div0.div_lt_upper_bound i 2 32); lia).
    destruct (_ =? _)%nat; by eapply store_form; [|done|done].
Qed.

Lemma generateInt_form t g v g' : global_form t g -> generateInt (engine_of aesenc t) g = Ret (v, g') -> global_form t g'.
Proof using Type.
  intros Hg E. destruct t; simpl in E.
  - unfold generic_generateInt, constant_next in E. inv_ret. done.
  - unfold minstd_call in E. inv_ret. simplify_eq. by eapply store_form; [|done|done]; simpl; lia.
  - unfold generic_generateInt, aes_generate32, generateM128 in E. inv_ret. simplify_eq/=.
    by eapply store_form; [|done|done]; simpl; lia.
Qed.

Lemma rng_for_main g l t : rng_for_thread (-1) {| per_thread := g :: l; engine_type := t |} = Ret 0%nat.
Proof using Type. unfold rng_for_thread, len. cbn [per_thread length]. by rewrite (proj2 (Z.ltb_lt (-1) _)) by lia. Qed.

Lemma on_global_parent n t f e :
  (forall b b', global_form t b -> f b = Ret b' -> global_form t b') ->
  on_global f (make_engine n t) = Ret e -> parent_engine n e.
Proof using Type.
  intros Hf E. unfold on_global, make_engine in E. rewrite Nat.add_1_r in E. cbn [replicate] in E.
  rewrite rng_for_main in E. simpl in E. inv_ret. exists a. split; [done|]. eapply Hf; [|done]. apply zero_form.
Qed.

Lemma after_colon_length s r : after_colon s = Ret r -> (length r < length s)%nat.
Proof using Type.
  unfold after_colon. pose proof (span_length (fun c => negb (char_eqb c ":"%char)) s).
  destruct (span _ s).2; [done|]. intros. simplify_eq. simpl in *. lia.
Qed.

(** The name of an engine is found again in a seed, and cut off. *)
Lemma engineFromName_name env t s : (t = AESSequence -> haveAes env = true) ->
  engineFromName env (engineNameFromType t ++ s) = Ret t.
Proof using Type. intros Ha. destruct t; cbn; rewrite ?Ha by done; done. Qed.

Lemma after_colon_name t s : after_colon (engineNameFromType t ++ s) = Ret s.
Proof using Type. by destruct t. Qed.

Lemma engineFromName_aes env s ptr : engineFromName env s = Ret AESSequence -> after_colon s = Ret ptr -> length s = (4 + length ptr)%nat.
Proof using Type.
  unfold engineFromName. intros H. cbn [engine_from engine_types] in H.
  destruct (starts_with (engineNameFromType Constant) s); [done|].
  destruct (starts_with (engineNameFromType LCG) s); [done|].
  destruct (starts_with (engineNameFromType AESSequence) s) eqn:E; [|done].
  apply bool_decide_eq_true in E. intros Hc. rewrite <- (take_drop 4 s) in Hc |- *. cbn in E. rewrite E in *.
  change ["A"%char; "E"%char; "S"%char; ":"%char] with (engineNameFromType AESSequence) in Hc.
  rewrite after_colon_name in Hc. by simplify_eq.
Qed.

Lemma random_init_global_parent env n seed e : short_seed seed -> random_init_global aesenc env n seed = Ret e -> parent_engine n e.
Proof using Type.
  intros Hs E. unfold random_init_global in E. apply outcome_bind_ret in E as (? & _ & E).
  destruct (open_random_file env seed) as [fd|]; [|destruct seed as [s|]].
  - apply outcome_bind_ret in E as (r & _ & E). apply outcome_bind_ret in E as (b & _ & E).
    eapply on_global_parent; [|exact E]. intros. by eapply seedGlobal_form.
  - apply outcome_bind_ret in E as (t & Et & E). apply outcome_bind_ret in E as (ptr & Ep & E).
    eapply on_global_parent; [|exact E]. intros b b' Hb Hr. destruct (decide (t = AESSequence)) as [->|Hne].
    + pose proof (engineFromName_aes _ _ _ Et Ep). simpl in Hs. by apply (reload_form AESSequence ptr b); [lia|..].
    + destruct t; [..|done]; simpl in Hr; by (eapply store_form; [|done|done]; simpl; lia).
  - eapply on_global_parent; [|exact E]. intros. by eapply seedGlobal_form.
Qed.

Lemma random_advance_seed_parent n e : parent_engine n e -> exists e', random_advance_seed aesenc e = Ret e' /\ parent_engine n e' /\ engine_type e' = engine_type e.
Proof using Type.
  intros (g & Hg & Hf). unfold random_advance_seed, rand, random, on_rng, rng_for_thread. rewrite Hg. unfold len. cbn [length].
  rewrite (proj2 (Z.ltb_lt (-1) _)) by lia. cbn [assertion mbind outcome_bind Z.leb Z.compare Pos.compare].
  change (Z.to_nat (-1 + 1)) with 0%nat. simpl.
  destruct (givesInt (ops := engine_of aesenc (engine_type e)) g) as (v & g' & E & _ & _); [apply Hf|].
  rewrite E. simpl. eexists. split; [done|]. split; [|done]. exists g'. split; [done|]. simpl. by eapply generateInt_form.
Qed.

(** The texts of the states are read back. *)
Lemma istream_digits w base s v : strto base s = Some (false, v, []) ->
  match s with c :: _ => is_digit 10 c = true | [] => False end -> 0 <= v < 2 ^ w -> istream_unsigned w base s = v.
Proof using Type.
  intros E Hc Hv. unfold istream_unsigned. destruct s as [|c s]; [done|]. destruct (digit_head c s Hc) as [-> _].
  rewrite E. destruct (Z.ltb_spec (2 ^ w - 1) v); [lia|]. by apply wrap_u_small.
Qed.

Lemma to_digits10_head v : 0 <= v < 2 ^ 128 -> match to_digits 10 v with c :: _ => is_digit 10 c = true | [] => False end.
Proof using Type.
  intros Hv. pose proof (digits_fuel_digits 10 128 v ltac:(lia)) as H. pose proof (digits_fuel_ne 10 128 v ltac:(lia)) as Hne.
  unfold to_digits. destruct (digits_fuel 10 128 v []); [done|]. by apply Forall_inv in H.
Qed.

Lemma constant_print_read v : in_u 32 v -> constant_read (constant_print v) = v.
Proof using Type.
  intros Hv. unfold in_u in Hv. unfold constant_read, constant_print. destruct (Z.ltb_spec 255 v).
  - apply istream_digits; [apply (strto_hex false); lia|done|lia].
  - apply istream_digits; [apply (strto_decimal false); lia|apply to_digits10_head; lia|lia].
Qed.

Lemma minstd_print_read x : in_u 64 x -> istream_unsigned 64 10 (to_digits 10 x) = x.
Proof using Type.
  intros Hx. unfold in_u in Hx. apply istream_digits; [|apply to_digits10_head; lia|lia].
  rewrite <- (app_nil_r (to_digits 10 x)). rewrite strto_digits; [|apply digits_fuel_ne; lia|apply digits_fuel_digits; lia|done].
  by rewrite to_digits_value by lia.
Qed.

Lemma load_store1 pre b rest z :
  load 1 (length pre) (pre ++ b :: rest) = Ret b /\ store 1 (length pre) z (pre ++ b :: rest) = Ret (pre ++ z mod 256 :: rest).
Proof using Type.
  unfold load, store. rewrite read_at_ret by (rewrite length_app; simpl; lia).
  rewrite write_at_ret by (rewrite length_app; simpl; lia). split.
  - rewrite drop_app_length. simpl. by rewrite Z.add_0_r.
  - rewrite take_app_length, drop_app_ge by (simpl; lia). simpl.
    by replace (length pre + 1 - length pre)%nat with 1%nat by lia.
Qed.

Lemma nibble_digit d : 0 <= d < 16 -> nibble (digit_char d) = d.
Proof using Type.
  intros H. assert (forall d, 0 <= d < 0 + 16 -> (nibble (digit_char d) =? d) = true) as Hall by (apply forallb_range; by vm_compute).
  apply Z.eqb_eq, Hall. lia.
Qed.

Lemma reload_nibble_even pre b rest ch :
  reload_nibble (pre ++ b :: rest) ((2 * length pre)%nat, ch) = Ret (pre ++ u8 (Z.shiftl (nibble ch) 4) mod 256 :: rest).
Proof using Type.
  unfold reload_nibble. replace (2 * length pre / 2)%nat with (length pre) by (rewrite Nat.mul_comm, Nat.div_mul; lia).
  replace (2 * length pre mod 2)%nat with 0%nat by (rewrite Nat.mul_comm, Nat.Div0.mod_mul; lia).
  destruct (load_store1 pre b rest (u8 (Z.shiftl (nibble ch) 4))) as [H1 H2]. rewrite H1. exact H2.
Qed.

Lemma reload_nibble_odd pre b rest ch :
  reload_nibble (pre ++ b :: rest) (S (2 * length pre), ch) = Ret (pre ++ Z.lor b (nibble ch) mod 256 :: rest).
Proof using Type.
  unfold reload_nibble. replace (S (2 * length pre) / 2)%nat with (length pre)
    by (apply (Nat.div_unique (S (2 * length pre)) 2 (length pre) 1); lia).
  replace (S (2 * length pre) mod 2)%nat with 1%nat
    by (apply (Nat.mod_unique (S (2 * length pre)) 2 (length pre) 1); lia).
  destruct (load_store1 pre b rest (Z.lor b (nibble ch))) as [H1 H2]. rewrite H1. exact H2.
Qed.

Lemma reload_hex_bytes bs : bytes_ok bs -> forall pre k,
  fold_outcome reload_nibble (zip (seq (2 * length pre) (2 * length bs)) (concat (hex_byte <$> bs))) (pre ++ replicate (length bs + k) 0) =
  Ret (pre ++ bs ++ replicate k 0).
Proof using Type.
  induction 1 as [|b bs Hb Hbs IH]; intros pre k; [done|].
  replace (2 * length (b :: bs))%nat with (S (S (2 * length bs))) by (simpl; lia).
  cbn [seq fmap list_fmap concat hex_byte app zip zip_with fold_outcome length Nat.add replicate].
  unfold in_u in Hb. assert (0 <= Z.shiftr b 4 < 16) as Hhi.
  { rewrite Z.shiftr_div_pow2 by lia. split; [apply Z.div_pos; lia|apply Z.div_lt_upper_bound; lia]. }
  assert (0 <= Z.land b 0xf < 16) as Hlo by (apply (land_mask_range b 4); lia).
  rewrite reload_nibble_even. cbn [mbind outcome_bind]. rewrite reload_nibble_odd. cbn [mbind outcome_bind].
  rewrite !nibble_digit by done. set (hi := u8 _ mod 256).
  assert (Z.lor hi (Z.land b 0xf) mod 256 = b) as ->.
  { assert (forall c, 0 <= c < 0 + 256 -> (Z.lor (u8 (Z.shiftl (Z.shiftr c 4) 4) mod 256) (Z.land c 0xf) mod 256 =? c) = true) as Hall
      by (apply forallb_range; by vm_compute). apply Z.eqb_eq, (Hall b). lia. }
  specialize (IH (pre ++ [b]) k). rewrite length_app in IH. cbn [length] in IH.
  replace (2 * (length pre + 1))%nat with (S (S (2 * length pre))) in IH by lia.
  rewrite <- !app_assoc in IH. exact IH.
Qed.

Lemma length_hex bs : length (concat (hex_byte <$> bs)) = (2 * length bs)%nat.
Proof using Type. induction bs as [|b bs IH]; [done|]. rewrite fmap_cons. cbn [concat]. rewrite length_app, IH. simpl. lia. Qed.

Lemma form_prefix t g k : global_form t g -> k = stateSize (engine_of aesenc t) -> (k <= 64)%nat ->
  g = take k g ++ replicate (64 - k) 0 /\ bytes_ok (take k g) /\ length (take k g) = k.
Proof using Type.
  intros [[Hl Hb] Hd] -> Hk. unfold sizeof_thread_rng in Hd. rewrite <- Hd. split; [by rewrite take_drop|]. split; [by apply bytes_ok_take|].
  rewrite length_take, Hl. unfold sizeof_thread_rng. lia.
Qed.

(** Storing the number that a block starts with gives the block. *)
Lemma store_prefix t g k : global_form t g -> k = stateSize (engine_of aesenc t) -> (k <= 64)%nat ->
  load k 0 g = Ret (le_value (take k g)) /\ store k 0 (le_value (take k g)) zero_rng = Ret g.
Proof using Type.
  intros Hf Hk Hk'. destruct (form_prefix t g k Hf Hk Hk') as (Hg & Hb & Hl). split.
  - unfold load. rewrite read_at_ret; [done|]. destruct Hf as [[Hlg _] _]. rewrite Hlg. unfold sizeof_thread_rng. lia.
  - unfold store. rewrite <- Hl at 1. rewrite le_bytes_value by done.
    rewrite write_at_ret by (unfold zero_rng; rewrite length_replicate; unfold sizeof_thread_rng; lia).
    unfold zero_rng. rewrite drop_replicate, Hl, take_0. cbn [app]. f_equal. symmetry. by replace (sizeof_thread_rng - (0 + k))%nat with (64 - k)%nat by (unfold sizeof_thread_rng; lia).
Qed.

Lemma global_state_reload t g : global_form t g ->
  exists s, globalState (engine_of aesenc t) g = Ret s /\ reloadGlobalState (engine_of aesenc t) s zero_rng = Ret g.
Proof using Type.
  intros Hf. destruct t; cbn [globalState reloadGlobalState engine_of constant_value_engine minstd_rand aes_engine].
  - destruct (store_prefix Constant g 4 Hf eq_refl ltac:(lia)) as [Hld Hst]. rewrite Hld. eexists. split; [done|].
    destruct (form_prefix Constant g 4 Hf eq_refl ltac:(lia)) as (_ & Hb & Hl).
    pose proof (le_value_range _ Hb) as Hr. unfold len in Hr. rewrite Hl in Hr. by rewrite constant_print_read.
  - destruct (store_prefix LCG g 8 Hf eq_refl ltac:(lia)) as [Hld Hst]. rewrite Hld. eexists. split; [done|].
    destruct (form_prefix LCG g 8 Hf eq_refl ltac:(lia)) as (_ & Hb & Hl).
    pose proof (le_value_range _ Hb) as Hr. unfold len in Hr. rewrite Hl in Hr. by rewrite minstd_print_read.
  - destruct (form_prefix AESSequence g 32 Hf eq_refl ltac:(lia)) as (Hg & Hb & Hl). unfold aes_globalState.
    rewrite read_at_ret by (destruct Hf as [[Hlg _] _]; rewrite Hlg; unfold sizeof_thread_rng; lia).
    eexists. split; [done|]. rewrite drop_0. pose proof (reload_hex_bytes (take 32 g) Hb [] 32) as H.
    unfold aes_reloadGlobalState. rewrite Hl in H.
    assert (length (concat (hex_byte <$> take 32 g)) = 64%nat) as ->.
    { by rewrite length_hex, Hl. }
    unfold zero_rng. rewrite Hg at 2. exact H.
Qed.

(** C20. A run can be repeated from its seed: when the random engine was
    seeded from /dev/urandom, AT_RANDOM, a file, or a text of at most 68 characters (four and
    the 64 digits of an AES seed; the code takes longer texts and can be
    overrun by them: the Example aes_seed_too_long), after any number of
    tests that advance it, the seed that is logged, and that is passed to executed
    children, is a text from which random_init_global() makes exactly the same
    engine again. That second run must have as many processors, AES if the
    engine needs it, the full command line (the restricted one ignores the text), and no
    file with the seed's text for its name (it would be read instead). *)
Theorem seed_reproduces_engine (env env' : Env) (n k : nat) (seed : option str) (e : RandomEngineWrapper) :
  random_init_global aesenc env n seed = Ret e -> short_seed seed ->
  exists e' s, Nat.iter k (mbind (random_advance_seed aesenc)) (Ret e) = Ret e' /\
    random_format_seed aesenc e' = Ret s /\
    (RestrictedCommandLine env' = false -> file env' s = None ->
     (engine_type e = AESSequence -> haveAes env' = true) ->
     random_init_global aesenc env' n (Some s) = Ret e').
Proof using Type.
  intros Hi Hs. assert (0 < n)%nat as Hn.
  { unfold random_init_global in Hi. apply outcome_bind_ret in Hi as (? & Ha & _). inv_ret. by apply Nat.ltb_lt. }
  pose proof (random_init_global_parent _ _ _ _ Hs Hi) as Hp.
  assert (exists e', Nat.iter k (mbind (random_advance_seed aesenc)) (Ret e) = Ret e' /\ parent_engine n e' /\
    engine_type e' = engine_type e) as (e' & Hiter & Hp' & Ht).
  { clear Hi Hs. induction k as [|k (e1 & IH & Hp1 & Ht1)]; [by exists e|]. simpl. rewrite IH. simpl.
    destruct (random_advance_seed_parent n e1 Hp1) as (e2 & ? & ? & ?). exists e2. repeat split; [done..|congruence]. }
  destruct Hp' as (g & Hg & Hf). destruct (global_state_reload _ _ Hf) as (s & Hgs & Hrel).
  exists e', (engineNameFromType (engine_type e') ++ s). split; [done|].
  split; [unfold random_format_seed; rewrite Hg; simpl; by rewrite Hgs|]. intros Hr Hfile Haes.
  unfold random_init_global, open_random_file. rewrite (proj2 (Nat.ltb_lt 0 n) Hn), Hr, Hfile. cbn [assertion mbind outcome_bind].
  rewrite engineFromName_name by (rewrite Ht; done). cbn [mbind outcome_bind]. rewrite after_colon_name. cbn [mbind outcome_bind].
  unfold on_global, make_engine. rewrite Nat.add_1_r. cbn [replicate]. rewrite rng_for_main. simpl. rewrite Hrel. simpl.
  rewrite <- Hg. by destruct e'.
Qed.
End Seeds.

(** * The linear congruential engine never gets stuck on valid states *)

Lemma minstd_next_valid x : 1 <= x < minstd_m -> 1 <= minstd_next x < minstd_m.
Proof.
  intros Hx. pose proof (minstd_next_range x) as Hr. split; [|lia].
  destruct (Z.eq_dec (minstd_next x) 0) as [E|]; [|lia]. exfalso. unfold minstd_next in E.
  unfold wrap_u in E. rewrite (Z.mod_small (48271 * x)) in E by (unfold minstd_m in *; lia).
  apply Z.mod_divide in E; [|done]. apply Z.gauss in E; [|by vm_compute]. apply Z.divide_pos_le in E; lia.
Qed.

Lemma minstd_seed_valid s : 1 <= minstd_seed s < minstd_m.
Proof.
  unfold minstd_seed. pose proof (Z.mod_pos_bound s minstd_m). zcases; unfold minstd_m in *; lia.
Qed.

(** Seeded from a file or per thread, std::minstd_rand yields numbers from 1 to
    2^31 - 2 for ever. *)
Theorem minstd_numbers (s : Z) (k : nat) (b : thread_rng) : rng_ok b -> load 8 0 b = Ret (minstd_seed s) ->
  exists v b', Nat.iter (S k) (mbind (fun r => minstd_call r.2)) (Ret (0, b)) = Ret (v, b') /\ 1 <= v < minstd_m.
Proof.
  intros Hb Hl.
  assert (exists v b', Nat.iter (S k) (mbind (fun r => minstd_call r.2)) (Ret (0, b)) = Ret (v, b') /\
    1 <= v < minstd_m /\ rng_ok b' /\ load 8 0 b' = Ret v) as (v & b' & ? & ? & _); [|by exists v, b'].
  assert (forall x b, rng_ok b -> load 8 0 b = Ret x -> 1 <= x < minstd_m ->
    exists v b', minstd_call b = Ret (v, b') /\ 1 <= v < minstd_m /\ rng_ok b' /\ load 8 0 b' = Ret v) as Hstep.
  { intros x c Hc Hx Hv. unfold minstd_call. rewrite Hx. cbn [mbind outcome_bind].
    destruct (store_rng 8 0 (minstd_next x) c) as (c' & E & Hc'); [done|unfold sizeof_thread_rng; lia|].
    rewrite E. cbn [mbind outcome_bind]. pose proof (minstd_next_valid x Hv). do 2 eexists. repeat split; [lia..|apply Hc'|apply Hc'|].
    rewrite (load_store_same _ _ _ _ _ E). f_equal. apply Z.mod_small. unfold minstd_m in *. lia. }
  induction k as [|k (v & b1 & IH & Hv & Hb1 & Hl1)].
  - simpl. by apply (Hstep _ _ Hb Hl), minstd_seed_valid.
  - remember (S k) as k'. cbn [Nat.iter nat_rect]. unfold Nat.iter in IH |- *. simpl. rewrite IH. simpl. by apply (Hstep _ _ Hb1 Hl1).
Qed.

(** The text of a seed is not checked: with "LCG:0" every number is 0. *)
Example lcg_zero_seed (aesenc : Z -> Z -> Z) (env : Env) :
  RestrictedCommandLine env = false -> file env (L "LCG:0") = None ->
  exists e, random_init_global aesenc env 1 (Some (L "LCG:0")) = Ret e /\
    random aesenc (-1) e = Ret (0, e) /\ random32 aesenc (-1) e = Ret (0, e).
Proof.
  intros Hr Hf. unfold random_init_global, open_random_file. rewrite Hr, Hf. eexists. split; [reflexivity|]. by vm_compute.
Qed.

(** An AES seed of more than 128 digits is written past the end of the block. *)
Example aes_seed_too_long : aes_reloadGlobalState (replicate 129 "0"%char) zero_rng = Ub.
Proof. by vm_compute. Qed.

(** set_random_bits() with more than 64 positions writes past its array. *)
Example set_random_bits_too_wide (aesenc : Z -> Z -> Z) (e : RandomEngineWrapper) : set_random_bits aesenc 0 1 65 e = Ub.
Proof. by vm_compute. Qed.

(** * The mixins of the threads *)

Lemma u32_mul_inj c inv a b : u32 (c * inv) = 1 -> u32 (a * c) = u32 (b * c) -> u32 a = u32 b.
Proof.
  unfold wrap_u. intros Hc H. apply (f_equal (fun x => (x * inv) mod 2 ^ 32)) in H.
  rewrite !Z.mul_mod_idemp_l, <- !Z.mul_assoc in H by done.
  rewrite <- (Z.mul_mod_idemp_r a), <- (Z.mul_mod_idemp_r b), Hc, !Z.mul_1_r in H by done. done.
Qed.

Lemma u32_affine_inj c a b : u32 (a * 5 + c) = u32 (b * 5 + c) -> u32 a = u32 b.
Proof.
  intros H. apply (u32_mul_inj 5 0xcccccccd); [by vm_compute|]. unfold wrap_u in *.
  apply (f_equal (fun x => (x - c) mod 2 ^ 32)) in H. by rewrite !Zminus_mod_idemp_l, !Z.add_simpl_r in H.
Qed.

Lemma rotl_range k : in_u 32 k -> forall n, 0 <= n <= 32 -> in_u 32 (rotl k n).
Proof.
  intros [Hk1 Hk2] n Hn. apply lor_lt_pow2; [lia|by apply wrap_u_range|].
  rewrite Z.shiftr_div_pow2 by lia. assert (0 < 2 ^ (32 - n)) by (apply Z.pow_pos_nonneg; lia).
  split; [apply Z.div_pos; lia|]. apply Z.div_lt_upper_bound; nia.
Qed.

Lemma rotl_inj a b n : 0 < n < 32 -> in_u 32 a -> in_u 32 b -> rotl a n = rotl b n -> a = b.
Proof.
  intros Hn. assert (2 ^ 32 = 2 ^ n * 2 ^ (32 - n)) as Hp by (rewrite <- Z.pow_add_r by lia; f_equal; lia).
  assert (0 < 2 ^ n) by (apply Z.pow_pos_nonneg; lia). assert (0 < 2 ^ (32 - n)) by (apply Z.pow_pos_nonneg; lia).
  assert (forall k, in_u 32 k -> rotl k n = k / 2 ^ (32 - n) + 2 ^ n * (k mod 2 ^ (32 - n)) /\ 0 <= k / 2 ^ (32 - n) < 2 ^ n) as Hr.
  { intros k [Hk1 Hk2]. assert (0 <= k / 2 ^ (32 - n) < 2 ^ n) as Hq
      by (split; [apply Z.div_pos; lia|apply Z.div_lt_upper_bound; lia]). split; [|done].
    unfold rotl, wrap_u. rewrite Z.shiftl_mul_pow2, Z.shiftr_div_pow2 by lia. rewrite Hp at 1.
    rewrite (Z.mul_comm k), Z.mul_mod_distr_l by lia.
    pose proof (Z.add_lor_land (2 ^ n * (k mod 2 ^ (32 - n))) (k / 2 ^ (32 - n))) as Hadd.
    assert (Z.land (2 ^ n * (k mod 2 ^ (32 - n))) (k / 2 ^ (32 - n)) = 0) as Hz; [|lia].
    apply Z.bits_inj'. intros i Hi. rewrite Z.land_spec, Z.bits_0.
    destruct (Z.lt_ge_cases i n); [rewrite Z.mul_comm, Z.mul_pow2_bits_low by lia; done|].
    assert (Z.testbit (k / 2 ^ (32 - n)) i = false) as ->; [|apply andb_false_r].
    apply Z.testbit_false; [done|]. rewrite (Z.div_small _ (2 ^ i)); [done|]. pose proof (Z.pow_le_mono_r 2 n i). lia. }
  intros Ha Hb E. destruct (Hr a Ha) as [Ea Qa], (Hr b Hb) as [Eb Qb]. rewrite Ea, Eb in E.
  rewrite (Z.div_mod a (2 ^ (32 - n))), (Z.div_mod b (2 ^ (32 - n))) by lia. nia.
Qed.

Lemma scramble_inj a b : in_u 32 a -> in_u 32 b -> scramble a = scramble b -> a = b.
Proof.
  intros Ha Hb H. unfold scramble in H. apply (u32_mul_inj _ 0x56ed309b) in H; [|by vm_compute].
  rewrite !(wrap_u_small 32 (rotl _ _)) in H by (apply rotl_range; [by apply wrap_u_range|lia]). apply rotl_inj in H; [|lia|by apply wrap_u_range..].
  apply (u32_mul_inj _ 0xdee13bb1) in H; [|by vm_compute]. by rewrite !wrap_u_small in H.
Qed.

Lemma lxor_cancel_r a b c : Z.lxor a c = Z.lxor b c -> a = b.
Proof.
  intros H. apply (f_equal (fun x => Z.lxor x c)) in H. by rewrite !Z.lxor_assoc, Z.lxor_nilpotent, !Z.lxor_0_r in H.
Qed.

Lemma lxor_cancel_l a b c : Z.lxor c a = Z.lxor c b -> a = b.
Proof. rewrite !(Z.lxor_comm c). apply lxor_cancel_r. Qed.

Lemma u32_int16_inj a b : in_s 16 a -> in_s 16 b -> u32 a = u32 b -> a = b.
Proof.
  unfold in_s, wrap_u. intros Ha Hb H. pose proof (Z.mod_eq a (2 ^ 32)). pose proof (Z.mod_eq b (2 ^ 32)). simpl in *. lia.
Qed.

Lemma mixin_of_eq info : mixin_of info =
  Z.lxor (Z.lxor (u32 (rotl (scramble (u32 (core_id info))) 13 * 5 + 0xe6546b64)) (scramble (u32 (package_id info))))
    (thread_pattern (thread_id info)).
Proof. done. Qed.

(** The same core, package and thread: equal ids as the mixin sees them. *)
Definition place (info : cpu_info) : Z * Z * Z := (core_id info, package_id info, Z.land (thread_id info) 3).

(** Two processors that differ in one of their core, their package and their
    thread (of four) only have different mixins. *)
Theorem thread_mixins_differ (a b : cpu_info) :
  in_s 16 (core_id a) -> in_s 16 (core_id b) -> in_s 16 (package_id a) -> in_s 16 (package_id b) ->
  mixin_of a = mixin_of b ->
  ((place a).1 = (place b).1 -> (place a).2 = (place b).2) /\
  ((place a).2 = (place b).2 -> package_id a = package_id b -> core_id a = core_id b) /\
  ((place a).2 = (place b).2 -> core_id a = core_id b -> package_id a = package_id b).
Proof.
  intros Hca Hcb Hpa Hpb H. rewrite !mixin_of_eq in H. unfold place. cbn [fst snd].
  assert (Z.land (thread_id a) 3 = Z.land (thread_id b) 3 -> thread_pattern (thread_id a) = thread_pattern (thread_id b)) as Hpat
    by (unfold thread_pattern; by intros ->).
  split; [|split].
  - intros E. injection E as E1 E2. rewrite E1, E2 in H. apply lxor_cancel_l in H. unfold thread_pattern in H.
    pose proof (land_mask_range (thread_id a) 2 ltac:(lia)) as Ra. pose proof (land_mask_range (thread_id b) 2 ltac:(lia)) as Rb.
    unfold in_u in Ra, Rb. change (2 ^ 2 - 1) with 3 in Ra, Rb. change (2 ^ 2) with 4 in Ra, Rb.
    revert H. zcases; intros; lia.
  - intros E E1. rewrite (Hpat E), E1 in H. apply lxor_cancel_r, lxor_cancel_r, u32_affine_inj in H.
    rewrite !(wrap_u_small 32 (rotl _ _)) in H by (apply rotl_range; [by apply wrap_u_range|lia]).
    apply rotl_inj in H; [|lia|by apply wrap_u_range..]. apply scramble_inj in H; [|by apply wrap_u_range..].
    by apply u32_int16_inj.
  - intros E E1. rewrite (Hpat E), E1 in H. apply lxor_cancel_r, lxor_cancel_l in H.
    apply scramble_inj in H; [|by apply wrap_u_range..]. by apply u32_int16_inj.
Qed.

(** * Witnesses *)

Definition ex_env : Env :=
  {| haveAes := true; RestrictedCommandLine := false; file := fun _ => None; urandom := Some (2 :: seqZ 0 64);
     at_random_address := 0; at_random := seqZ 1 16 |}.
Definition ex_engine : RandomEngineWrapper := make_engine 2 LCG.

Lemma ex_engine_ok : wrapper_ok 2 ex_engine.
Proof. split; [done|]. apply Forall_replicate. split; [done|apply bytes_ok_zero]. Qed.

Lemma random_numbers_well_typed_witness : yields 2 1 (in_s 32) (mrand48 Z.lxor 1 ex_engine) ex_engine.
Proof. by apply (random_numbers_well_typed Z.lxor 2 ex_engine 1 ex_engine_ok). Defined.

Lemma set_random_bits_spec_witness :
  yields 2 0 (fun v => popcount_upto 64 v = 5 /\ in_u 12 v) (set_random_bits Z.lxor 0 5 12 ex_engine) ex_engine.
Proof. apply (set_random_bits_spec Z.lxor 2 0 5 12 ex_engine ex_engine_ok); lia. Defined.

Lemma memset_random_spec_witness :
  exists bs e', length bs = 20%nat /\ memset_random Z.lxor 0 (replicate 30 1) 20 ex_engine = Ret (bs ++ replicate 10 1, e').
Proof.
  destruct (memset_random_spec Z.lxor 2 0 20 ex_engine ex_engine_ok ltac:(lia)) as (bs & e' & Hl & _ & _ & _ & H).
  exists bs, e'. split; [done|]. apply (H (replicate 30 1)). rewrite length_replicate. lia.
Defined.

Lemma seed_reproduces_engine_witness :
  exists e s, random_format_seed Z.lxor e = Ret s /\ random_init_global Z.lxor ex_env 2 (Some s) = Ret e /\ engine_type e = AESSequence.
Proof.
  destruct (random_init_global Z.lxor ex_env 2 None) as [e0| |] eqn:E0; [|by vm_compute in E0..].
  destruct (seed_reproduces_engine Z.lxor ex_env ex_env 2 3 None e0 E0 I) as (e & s & He & Hs & H).
  exists e, s. split; [done|]. split; [apply H; done|].
  vm_compute in E0. injection E0 as <-. vm_compute in He. by injection He as <-.
Defined.

Lemma thread_mixins_differ_witness :
  mixin_of (set_thread_id 1 zero_cpu) <> mixin_of zero_cpu.
Proof.
  intros H. destruct (thread_mixins_differ (set_thread_id 1 zero_cpu) zero_cpu) as [Ht _];
    [by (split; vm_compute)..|exact H|]. by specialize (Ht eq_refl).
Defined.

Lemma minstd_numbers_witness : exists v b', Nat.iter 1 (mbind (fun r => minstd_call r.2)) (Ret (0, le_bytes 8 1 ++ replicate 56 0)) = Ret (v, b') /\ 1 <= v < minstd_m.
Proof. apply (minstd_numbers 1 0); [split; [done|apply bytes_ok_app; auto using le_bytes_ok, bytes_ok_zero]|by vm_compute]. Defined.
