(* ===== verification/Floats.v ===== *)
(** The floating-point types of the tests (fp_vectors/Floats.h, Floats.cpp) and
    the conversions between float and the two 16-bit formats
    (sandstone_data.cpp, sandstone_data.h).

    A float is its bit pattern, a number of 32 bits. The code that only x86
    compiles (quieting of NaNs) is included. *)

From S2P Require Import Prelude Bytes CpuInfo Random.

(** * The structures *)

(** What differs between Float16, BFloat16, Float32, Float64 and Float80: the
    widths of the bit fields, and the explicit integer bit of Float80. *)
Record layout := { exponent_bits : Z; mantissa_bits : Z; has_jbit : bool }.
Definition FLOAT16 : layout := {| exponent_bits := 5; mantissa_bits := 10; has_jbit := false |}.
Definition BFLOAT16 : layout := {| exponent_bits := 8; mantissa_bits := 7; has_jbit := false |}.
Definition FLOAT32 : layout := {| exponent_bits := 8; mantissa_bits := 23; has_jbit := false |}.
Definition FLOAT64 : layout := {| exponent_bits := 11; mantissa_bits := 52; has_jbit := false |}.
Definition FLOAT80 : layout := {| exponent_bits := 15; mantissa_bits := 63; has_jbit := true |}.

Record Float := { sign : Z; exponent : Z; jbit : Z; mantissa : Z }.

(** Assignments to bit fields keep the low bits: new_float16() and the others. *)
Definition new_float (l : layout) (s e j m : Z) : Float :=
  {| sign := wrap_u 1 s; exponent := wrap_u (exponent_bits l) e;
     jbit := if has_jbit l then wrap_u 1 j else 0; mantissa := wrap_u (mantissa_bits l) m |}.

(** The other view of the union, and the fields of a bit pattern. *)
Definition mantissa_end (l : layout) : Z := mantissa_bits l + (if has_jbit l then 1 else 0).
Definition as_hex (l : layout) (f : Float) : Z :=
  mantissa f + 2 ^ mantissa_bits l * (if has_jbit l then jbit f else 0) +
  2 ^ mantissa_end l * exponent f + 2 ^ (mantissa_end l + exponent_bits l) * sign f.
Definition of_hex (l : layout) (v : Z) : Float :=
  {| sign := wrap_u 1 (Z.shiftr v (mantissa_end l + exponent_bits l));
     exponent := wrap_u (exponent_bits l) (Z.shiftr v (mantissa_end l));
     jbit := if has_jbit l then wrap_u 1 (Z.shiftr v (mantissa_bits l)) else 0;
     mantissa := wrap_u (mantissa_bits l) v |}.

Definition float_ok (l : layout) (f : Float) : Prop :=
  in_u 1 (sign f) /\ in_u (exponent_bits l) (exponent f) /\
  (if has_jbit l then in_u 1 (jbit f) else jbit f = 0) /\ in_u (mantissa_bits l) (mantissa f).

(** The member functions of Float16 and BFloat16. *)
Definition NAN_EXPONENT (l : layout) : Z := 2 ^ exponent_bits l - 1.
Definition QUIET_NAN_MASK (l : layout) : Z := 2 ^ (mantissa_bits l - 1).
Definition is_negative (f : Float) : bool := negb (sign f =? 0).
Definition is_zero (f : Float) : bool := (exponent f =? 0) && (mantissa f =? 0).
Definition is_denormal (f : Float) : bool := (exponent f =? 0) && negb (mantissa f =? 0).
Definition is_inf (l : layout) (f : Float) : bool := (exponent f =? NAN_EXPONENT l) && (mantissa f =? 0).
Definition is_nan (l : layout) (f : Float) : bool := (exponent f =? NAN_EXPONENT l) && negb (mantissa f =? 0).
Definition is_snan (l : layout) (f : Float) : bool := is_nan l f && (Z.land (mantissa f) (QUIET_NAN_MASK l) =? 0).
Definition is_qnan (l : layout) (f : Float) : bool := is_nan l f && negb (Z.land (mantissa f) (QUIET_NAN_MASK l) =? 0).
Definition get_nan_payload (l : layout) (f : Float) : Z := Z.land (mantissa f) (Z.lnot (QUIET_NAN_MASK l)).

(** * Random values *)

(** new_random_float16() and the others; Float80 sets its integer bit. *)
Definition new_random_float (aesenc : Z -> Z -> Z) (l : layout) (t : Z) (e : RandomEngineWrapper)
  : outcome (Float * RandomEngineWrapper) :=
  s ← random32 aesenc t e;
  x ← random32 aesenc t s.2;
  n ← random32 aesenc t x.2;
  m ← set_random_bits aesenc t (Z.to_nat (n.1 mod (mantissa_bits l + 1))) (Z.to_nat (mantissa_bits l)) n.2;
  Ret (new_float l s.1 x.1 1 m.1, m.2).

(** * Conversions *)

(** ieee754_downconvert<float>(): digits are 24 and 11, the exponents range over
    -125..128 and -13..16. *)
Definition ieee754_downconvert (v : Z) : Z :=
  let sgn := Z.shiftr (Z.land v 0x80000000) 31 in
  let exp := Z.shiftr (Z.land v 0x7f800000) 23 in
  let mant := Z.shiftr (Z.land v 0x7fffff) (24 - 11) in
  let sgn := Z.shiftl sgn 15 in
  let exp := exp - 127 in
  let pack sgn exp mant := u16 (Z.lor (Z.lor sgn (Z.shiftl exp 10)) mant) in
  if exp =? 128 then
    pack sgn 31 (if mant =? 0 then mant else Z.lor mant (Z.shiftl 1 9))
  else if 16 <=? exp then u16 (Z.lor 0x7bff sgn)
  else if -14 <=? exp then pack sgn (exp + 15) mant
  else if -24 <=? exp then
    pack sgn 0 (Z.shiftr (Z.lor mant (Z.shiftl 1 10)) (- (exp - (-14))))
  else pack 0 0 0.

Definition tofp16_emulated (f : Z) : Z := ieee754_downconvert f.

(** to_bfloat16<float>(): digits are 24 and 8. *)
Definition to_bfloat16 (v : Z) : Z :=
  let sgn := Z.shiftr (Z.land v 0x80000000) 31 in
  let exp := Z.shiftr (Z.land v 0x7f800000) 23 in
  let mant := Z.shiftr (Z.land v 0x7fffff) (24 - 8) in
  let sgn := Z.shiftl sgn 15 in
  if exp =? 0 then u16 sgn
  else if exp =? 255 then
    let r := u16 (Z.shiftr v 16) in
    if mant =? 0 then r else Z.lor r (Z.shiftl 1 6)
  else
    let rounding_bias := 0x7fff + Z.land mant 1 in
    u16 (Z.shiftr (u32 (v + rounding_bias)) 16).

Definition tobf16_emulated (f : Z) : Z := to_bfloat16 f.

(** The float for m * 2^e, for a positive [m] of at most 24 bits and a result in
    the normal range: what ldexp() and the conversion to float give, exactly. *)
Definition float_of (m e : Z) : Z :=
  let k := Z.log2 m in
  (k + e + 127) * 2 ^ 23 + (Z.shiftl m (23 - k) - 2 ^ 23).

(** decode_half(), on numbers other than NaN. *)
Definition decode_half (half : Z) : Z :=
  let exp := Z.land (Z.shiftr half 10) 0x1f in
  let mant := Z.land half 0x3ff in
  let val := if exp =? 0 then (if mant =? 0 then 0 else float_of mant (-24))
             else if negb (exp =? 31) then float_of (mant + 1024) (exp - 25)
             else 0x7f800000 in
  if negb (Z.land half 0x8000 =? 0) then val + 2 ^ 31 else val.

Definition isnan (v : Z) : bool :=
  if (v =? 0x7c00) || (v =? 0xfc00) then false
  else if negb (Z.land v 0x7c00 =? 0x7c00) then false
  else true.

Definition fromfp16_emulated (f : Z) : Z :=
  if negb (isnan f) then decode_half f
  else
    let p := Z.land f (Z.lnot 0x7c00) in
    let p := Z.lor p (Z.shiftl 1 9) in
    let p := u32 (Z.shiftl p (24 - 11)) in
    Z.lor p 0x7f800000.

(** frombf16_emulated(): zero-extension, then f += 0, which quiets a signalling
    NaN and turns -0 into +0. *)
Definition add_zero (v : Z) : Z :=
  let f := of_hex FLOAT32 v in
  if is_nan FLOAT32 f then Z.lor v 0x400000 else if v =? 0x80000000 then 0 else v.
Definition frombf16_emulated (r : Z) : Z := add_zero (u32 (Z.shiftl r 16)).

(** * Values

    The value of a magnitude (a pattern without its sign) with [p] bits of
    mantissa, in units of the least positive number of its format. *)
Definition units (p mag : Z) : Z :=
  let E := mag / 2 ^ p in
  let m := mag mod 2 ^ p in
  if E =? 0 then m else (2 ^ p + m) * 2 ^ (E - 1).

(** In units of 2^-149, the least positive float. *)
Definition float_units (mag : Z) : Z := units 23 mag.
Definition half_units (mag : Z) : Z := units 10 mag * 2 ^ 125.

Lemma units_succ p mag : 0 <= p -> 0 <= mag -> units p (mag + 1) = units p mag + 2 ^ (Z.max (mag / 2 ^ p) 1 - 1).
Proof.
  intros Hp Hm. assert (0 < 2 ^ p) as H2 by (apply Z.pow_pos_nonneg; lia).
  pose proof (Z.div_mod mag (2 ^ p)) as Hd. pose proof (Z.mod_pos_bound mag (2 ^ p)) as Hb.
  assert (0 <= mag / 2 ^ p) as HE by (apply Z.div_pos; lia). unfold units.
  destruct (Z.eq_dec (mag mod 2 ^ p + 1) (2 ^ p)) as [Hc|Hc].
  - assert ((mag + 1) / 2 ^ p = mag / 2 ^ p + 1) as -> by (symmetry; apply Z.div_unique with 0; nia).
    assert ((mag + 1) mod 2 ^ p = 0) as -> by (symmetry; apply Z.mod_unique with (mag / 2 ^ p + 1); nia).
    destruct (Z.eqb_spec (mag / 2 ^ p + 1) 0); [lia|]. destruct (Z.eqb_spec (mag / 2 ^ p) 0) as [->|].
    + change (0 + 1 - 1) with 0. change (Z.max 0 1 - 1) with 0. rewrite Z.pow_0_r. lia.
    + rewrite Z.max_l by lia. replace (mag / 2 ^ p + 1 - 1) with (Z.succ (mag / 2 ^ p - 1)) by lia.
      rewrite Z.pow_succ_r by lia. nia.
  - assert ((mag + 1) / 2 ^ p = mag / 2 ^ p) as -> by (symmetry; apply Z.div_unique with (mag mod 2 ^ p + 1); lia).
    assert ((mag + 1) mod 2 ^ p = mag mod 2 ^ p + 1) as -> by (symmetry; apply Z.mod_unique with (mag / 2 ^ p); lia).
    destruct (Z.eqb_spec (mag / 2 ^ p) 0) as [->|]; [change (Z.max 0 1 - 1) with 0; rewrite Z.pow_0_r; lia|]. rewrite Z.max_l by lia. nia.
Qed.

Lemma units_lt p a b : 0 <= p -> 0 <= a < b -> units p a < units p b.
Proof.
  intros Hp [Ha Hab]. replace b with (a + 1 + Z.of_nat (Z.to_nat (b - a - 1))) by lia.
  induction (Z.to_nat (b - a - 1)) as [|n IH].
  - rewrite Z.add_0_r, units_succ by lia. assert (0 < 2 ^ (Z.max (a / 2 ^ p) 1 - 1)) by (apply Z.pow_pos_nonneg; lia). lia.
  - replace (a + 1 + Z.of_nat (S n)) with (a + 1 + Z.of_nat n + 1) by lia. rewrite units_succ by lia.
    assert (0 < 2 ^ (Z.max ((a + 1 + Z.of_nat n) / 2 ^ p) 1 - 1)) by (apply Z.pow_pos_nonneg; lia). lia.
Qed.

Lemma units_small p m : 0 <= m < 2 ^ p -> units p m = m.
Proof. intros H. unfold units. by rewrite Z.div_small, Z.mod_small. Qed.

Lemma units_normal p E m : 0 <= p -> 0 < E -> 0 <= m < 2 ^ p -> units p (E * 2 ^ p + m) = (2 ^ p + m) * 2 ^ (E - 1).
Proof.
  intros Hp HE Hm. unfold units. rewrite Z.add_comm.
  rewrite Z.div_add, Z.mod_add, Z.div_small, Z.mod_small, Z.add_0_l by lia. by destruct (Z.eqb_spec E 0); [lia|].
Qed.

(** * Fields of a pattern *)

Lemma lor_disjoint a b k : 0 <= k -> 0 <= b < 2 ^ k -> Z.lor (Z.shiftl a k) b = a * 2 ^ k + b.
Proof.
  intros Hk Hb. rewrite Z.shiftl_mul_pow2 by done. pose proof (Z.add_lor_land (a * 2 ^ k) b) as Ha.
  assert (Z.land (a * 2 ^ k) b = 0) as Hz; [|lia]. apply Z.bits_inj'. intros i Hi. rewrite Z.land_spec, Z.bits_0.
  destruct (Z.lt_ge_cases i k); [by rewrite Z.mul_pow2_bits_low|].
  assert (Z.testbit b i = false) as ->; [|apply andb_false_r].
  apply Z.testbit_false; [done|]. rewrite Z.div_small; [done|]. pose proof (Z.pow_le_mono_r 2 k i). lia.
Qed.

Lemma land_field v n k : 0 <= n -> 0 <= k -> Z.shiftr (Z.land v (Z.shiftl (2 ^ n - 1) k)) k = (v / 2 ^ k) mod 2 ^ n.
Proof.
  intros Hn Hk. rewrite Z.shiftr_land, Z.shiftr_shiftl_l, Z.sub_diag, Z.shiftl_0_r by lia.
  by rewrite land_ones_mod, Z.shiftr_div_pow2.
Qed.

(** Sign, exponent and mantissa of a float. *)
Lemma float_fields v : in_u 32 v ->
  Z.shiftr (Z.land v 0x80000000) 31 = v / 2 ^ 31 /\ Z.shiftr (Z.land v 0x7f800000) 23 = (v mod 2 ^ 31) / 2 ^ 23 /\
  Z.land v 0x7fffff = v mod 2 ^ 23 /\ 0 <= v / 2 ^ 31 <= 1 /\ 0 <= (v mod 2 ^ 31) / 2 ^ 23 <= 255.
Proof.
  intros [H1 H2]. pose proof (land_field v 1 31 ltac:(lia) ltac:(lia)) as Fs. pose proof (land_field v 8 23 ltac:(lia) ltac:(lia)) as Fe.
  pose proof (land_ones_mod v 23 ltac:(lia)) as Fm. vm_compute (Z.shiftl _ _) in Fs. vm_compute (Z.shiftl _ _) in Fe.
  vm_compute (2 ^ 23 - 1) in Fm. rewrite Fs, Fe, Fm.
  split; [|split; [|split; [done|]]]; Z.div_mod_to_equations; lia.
Qed.

(** * Truncation to half precision *)

(** ieee754_downconvert() by cases on the exponent field. *)
Lemma downconvert_cases v : in_u 32 v ->
  let s := v / 2 ^ 31 in let E := (v mod 2 ^ 31) / 2 ^ 23 in let m := v mod 2 ^ 23 in
  ieee754_downconvert v =
    if E =? 255 then s * 2 ^ 15 + 31 * 2 ^ 10 + (if m / 2 ^ 13 =? 0 then 0 else Z.lor (m / 2 ^ 13) 512)
    else if 143 <=? E then s * 2 ^ 15 + 0x7bff
    else if 113 <=? E then s * 2 ^ 15 + ((E - 112) * 2 ^ 10 + m / 2 ^ 13)
    else if 103 <=? E then s * 2 ^ 15 + (2 ^ 10 + m / 2 ^ 13) / 2 ^ (113 - E)
    else 0.
Proof.
  intros Hv s E m. destruct (float_fields v Hv) as (Fs & Fe & Fm & Rs & Re). unfold ieee754_downconvert.
  rewrite Fs, Fe, Fm. fold s E m. change (24 - 11) with 13. rewrite (Z.shiftr_div_pow2 m) by lia.
  assert (0 <= m / 2 ^ 13 < 2 ^ 10) as Hm.
  { assert (0 <= m < 2 ^ 23) by (apply Z.mod_pos_bound; lia).
    split; [apply Z.div_pos; lia|apply Z.div_lt_upper_bound; lia]. }
  assert (forall e x, 0 <= e < 2 ^ 5 -> 0 <= x < 2 ^ 10 ->
    u16 (Z.lor (Z.lor (Z.shiftl s 15) (Z.shiftl e 10)) x) = s * 2 ^ 15 + (e * 2 ^ 10 + x)) as Hpack.
  { intros e x He Hx. rewrite <- Z.lor_assoc, (lor_disjoint e x 10), lor_disjoint by lia. apply wrap_u_small. unfold in_u. lia. }
  replace (E - 127 =? 128) with (E =? 255) by (destruct (Z.eqb_spec E 255), (Z.eqb_spec (E - 127) 128); lia).
  destruct (Z.eqb_spec E 255).
  { rewrite Hpack; [|lia|].
    - destruct (Z.eqb_spec (m / 2 ^ 13) 0) as [E0|]; [rewrite E0; lia|]. change (Z.shiftl 1 9) with 512. lia.
    - destruct (Z.eqb_spec (m / 2 ^ 13) 0); [lia|]. apply lor_lt_pow2; [lia|lia|]. change (Z.shiftl 1 9) with 512. lia. }
  replace (16 <=? E - 127) with (143 <=? E) by (destruct (Z.leb_spec 143 E), (Z.leb_spec 16 (E - 127)); lia).
  destruct (Z.leb_spec 143 E).
  { rewrite Z.lor_comm, lor_disjoint by lia. apply wrap_u_small. unfold in_u. lia. }
  replace (-14 <=? E - 127) with (113 <=? E) by (destruct (Z.leb_spec 113 E), (Z.leb_spec (-14) (E - 127)); lia).
  destruct (Z.leb_spec 113 E); [rewrite Hpack by lia; lia|].
  replace (-24 <=? E - 127) with (103 <=? E) by (destruct (Z.leb_spec 103 E), (Z.leb_spec (-24) (E - 127)); lia).
  destruct (Z.leb_spec 103 E); [|done].
  rewrite (Z.lor_comm (m / 2 ^ 13)), (lor_disjoint 1 _ 10), Z.mul_1_l by lia. replace (- (E - 127 - -14)) with (113 - E) by lia.
  rewrite Z.shiftr_div_pow2 by lia. assert (2 ^ 1 <= 2 ^ (113 - E)) by (apply Z.pow_le_mono_r; lia).
  rewrite Hpack; [lia|lia|]. split; [apply Z.div_pos; lia|]. apply Z.div_lt_upper_bound; nia.
Qed.

(** The magnitude of a truncated number, by the exponent field [E] and the
    mantissa [m] of the float: the half on its grid below it. *)
Lemma truncated_normal E m : 113 <= E <= 142 -> 0 <= m < 2 ^ 23 ->
  let hm := (E - 112) * 2 ^ 10 + m / 2 ^ 13 in
  half_units hm <= float_units (E * 2 ^ 23 + m) < half_units (hm + 1).
Proof.
  intros HE Hm hm. assert (0 <= m / 2 ^ 13 < 2 ^ 10) as Hq by (split; [apply Z.div_pos; lia|apply Z.div_lt_upper_bound; lia]).
  unfold half_units, float_units. rewrite units_succ by (unfold hm; lia).
  assert (hm / 2 ^ 10 = E - 112) as -> by (symmetry; apply Z.div_unique with (m / 2 ^ 13); unfold hm; lia).
  unfold hm. rewrite !units_normal by lia. rewrite Z.max_l by lia. replace (E - 112 - 1) with (E - 113) by lia.
  replace (E - 1) with (E - 113 + 112) by lia. rewrite (Z.pow_add_r 2 (E - 113)) by lia.
  assert (0 < 2 ^ (E - 113)) as HP by (apply Z.pow_pos_nonneg; lia). pose proof (Z.div_mod m (2 ^ 13)). pose proof (Z.mod_pos_bound m (2 ^ 13)).
  change (2 ^ 125) with (2 ^ 13 * 2 ^ 112). generalize dependent (m / 2 ^ 13). intros q **.
  generalize dependent (2 ^ (E - 113)). intros P **. assert (0 < P * 2 ^ 112) by lia. split; nia.
Qed.

Lemma truncated_subnormal E m : 103 <= E <= 112 -> 0 <= m < 2 ^ 23 ->
  let hm := (2 ^ 10 + m / 2 ^ 13) / 2 ^ (113 - E) in
  0 < hm < 2 ^ 10 /\ half_units hm <= float_units (E * 2 ^ 23 + m) < half_units (hm + 1).
Proof.
  intros HE Hm hm. assert (0 <= m / 2 ^ 13 < 2 ^ 10) as Hq by (split; [apply Z.div_pos; lia|apply Z.div_lt_upper_bound; lia]).
  assert (2 ^ 1 <= 2 ^ (113 - E) <= 2 ^ 10) as HT by (split; apply Z.pow_le_mono_r; lia).
  assert (0 < hm < 2 ^ 10) as Hh.
  { unfold hm. split; [apply Z.div_str_pos; lia|apply Z.div_lt_upper_bound; nia]. }
  split; [done|]. unfold half_units, float_units. rewrite units_succ by lia. rewrite (Z.div_small hm) by lia. rewrite units_small by lia.
  change (2 ^ (Z.max 0 1 - 1)) with 1. rewrite units_normal by lia.
  pose proof (Z.div_mod (2 ^ 10 + m / 2 ^ 13) (2 ^ (113 - E))) as Hd. pose proof (Z.mod_pos_bound (2 ^ 10 + m / 2 ^ 13) (2 ^ (113 - E))) as Hmod.
  fold hm in Hd. assert (2 ^ 125 = 2 ^ 13 * 2 ^ (113 - E) * 2 ^ (E - 1)) as -> by (rewrite <- !Z.pow_add_r by lia; f_equal; lia).
  assert (0 < 2 ^ (E - 1)) as HP by (apply Z.pow_pos_nonneg; lia). pose proof (Z.div_mod m (2 ^ 13)). pose proof (Z.mod_pos_bound m (2 ^ 13)).
  generalize dependent (m / 2 ^ 13). intros q **. generalize dependent (2 ^ (113 - E)). intros T **.
  generalize dependent (2 ^ (E - 1)). intros P **.
  assert (2 ^ 13 * (hm * T) <= 2 ^ 23 + m < 2 ^ 13 * ((hm + 1) * T)) by nia. split; nia.
Qed.

Lemma truncated_underflow E m : 0 <= E < 103 -> 0 <= m < 2 ^ 23 -> 0 <= float_units (E * 2 ^ 23 + m) < 2 ^ 125.
Proof.
  intros HE Hm. unfold float_units. destruct (Z.eq_dec E 0) as [->|].
  - rewrite Z.mul_0_l, Z.add_0_l, units_small by lia. lia.
  - rewrite units_normal by lia. assert (0 < 2 ^ (E - 1) <= 2 ^ 101) by (split; [apply Z.pow_pos_nonneg|apply Z.pow_le_mono_r]; lia). nia.
Qed.

Lemma truncated_overflow E m : 143 <= E -> 0 <= m < 2 ^ 23 -> half_units 0x7bff <= float_units (E * 2 ^ 23 + m).
Proof.
  intros HE Hm. unfold float_units. rewrite units_normal by lia.
  assert (2 ^ 142 <= 2 ^ (E - 1)) by (apply Z.pow_le_mono_r; lia).
  assert (half_units 0x7bff <= 2 ^ 23 * 2 ^ 142) by (by vm_compute). nia.
Qed.

Lemma tofp16_floor (v : Z) : in_u 32 v ->
  let mag := v mod 2 ^ 31 in
  let h := tofp16_emulated v in
  let hm := h mod 2 ^ 15 in
  in_u 16 h /\
  (mag < 0x7f800000 -> hm <= 0x7bff /\ half_units hm <= float_units mag /\
    (hm = 0x7bff \/ float_units mag < half_units (hm + 1)) /\ h / 2 ^ 15 = (if hm =? 0 then 0 else v / 2 ^ 31)) /\
  (mag = 0x7f800000 -> h = v / 2 ^ 31 * 2 ^ 15 + 0x7c00).
Proof.
  intros Hv mag h hm. destruct (float_fields v Hv) as (_ & _ & _ & Hs & HE).
  pose proof (downconvert_cases v Hv) as Hd. cbv zeta in Hd. fold mag in Hd, HE. change (ieee754_downconvert v) with h in Hd.
  set (s := v / 2 ^ 31) in *. set (E := mag / 2 ^ 23) in *. set (m := v mod 2 ^ 23) in *.
  assert (0 <= m < 2 ^ 23) as Hm by (apply Z.mod_pos_bound; lia).
  assert (mag = E * 2 ^ 23 + m) as Hmag by (unfold mag, E, m; clear; Z.div_mod_to_equations; lia).
  assert (forall x, 0 <= x < 2 ^ 15 -> h = s * 2 ^ 15 + x -> in_u 16 h /\ hm = x /\ h / 2 ^ 15 = s) as Hh.
  { intros x Hx ->. unfold hm. split; [unfold in_u; lia|]. rewrite (Z.add_comm (s * 2 ^ 15)), Z.mod_add, Z.div_add, Z.mod_small, Z.div_small by lia. lia. }
  assert (0 <= m / 2 ^ 13 < 2 ^ 10) as Hq by (split; [apply Z.div_pos; lia|apply Z.div_lt_upper_bound; lia]).
  destruct (Z.eqb_spec E 255).
  - assert (0 <= (if m / 2 ^ 13 =? 0 then 0 else Z.lor (m / 2 ^ 13) 512) < 2 ^ 10) as Hl
      by (destruct (_ =? _); [lia|apply lor_lt_pow2; lia]).
    rewrite <- Z.add_assoc in Hd. destruct (fun H => Hh _ H Hd) as (Hin & _).
    { revert Hl. generalize (if m / 2 ^ 13 =? 0 then 0 else Z.lor (m / 2 ^ 13) 512). lia. }
    split; [done|]. split; [lia|]. intros Hi. assert (m = 0) as Em by lia. rewrite Em in Hd. rewrite Hd. done.
  - destruct (Z.leb_spec 143 E); [|destruct (Z.leb_spec 113 E); [|destruct (Z.leb_spec 103 E)]].
    + destruct (fun H => Hh _ H Hd) as (Hin & E1 & E2); [lia|]. rewrite E1, E2. split; [done|]. split; [|lia]. intros _. rewrite Hmag.
      split; [lia|]. split; [by apply truncated_overflow|]. split; [by left|done].
    + destruct (fun H => Hh _ H Hd) as (Hin & E1 & E2); [lia|]. rewrite E1, E2. split; [done|]. split; [|lia]. intros _. rewrite Hmag.
      destruct (truncated_normal E m) as [T1 T2]; [lia|done|]. split; [lia|]. split; [done|]. split; [by right|].
      by destruct (Z.eqb_spec ((E - 112) * 2 ^ 10 + m / 2 ^ 13) 0); [lia|].
    + destruct (truncated_subnormal E m) as (T0 & T1 & T2); [lia|done|].
      destruct (fun H => Hh _ H Hd) as (Hin & E1 & E2); [lia|]. rewrite E1, E2. split; [done|]. split; [|lia]. intros _. rewrite Hmag.
      split; [lia|]. split; [done|]. split; [by right|]. by destruct (Z.eqb_spec ((2 ^ 10 + m / 2 ^ 13) / 2 ^ (113 - E)) 0); [lia|].
    + unfold hm. rewrite Hd. split; [done|]. split; [|lia]. intros _. rewrite Hmag.
      pose proof (truncated_underflow E m ltac:(lia) Hm). split; [done|]. split; [by change (half_units (0 mod 2 ^ 15)) with 0; lia|].
      split; [right; by change (half_units (0 mod 2 ^ 15 + 1)) with (2 ^ 125); lia|done].
Qed.

(** float to half precision rounds toward zero: for every finite float the
    emulation returns the greatest half-precision magnitude that does not exceed
    it (the greatest finite one on overflow), with the float's sign unless the
    result is zero; infinities stay infinities. *)
Theorem tofp16_truncates (v : Z) : in_u 32 v ->
  let mag := v mod 2 ^ 31 in
  let h := tofp16_emulated v in
  let hm := h mod 2 ^ 15 in
  in_u 16 h /\
  (mag < 0x7f800000 -> hm <= 0x7bff /\ half_units hm <= float_units mag /\
    (hm = 0x7bff \/ float_units mag < half_units (hm + 1)) /\ h / 2 ^ 15 = (if hm =? 0 then 0 else v / 2 ^ 31)) /\
  (mag = 0x7f800000 -> h = v / 2 ^ 31 * 2 ^ 15 + 0x7c00).
Proof. apply tofp16_floor. Qed.

(** * Round trips *)

Lemma float_of_spec m e : 0 < m -> Z.log2 m <= 23 -> 1 <= Z.log2 m + e + 127 <= 254 ->
  0 <= float_of m e < 0x7f800000 /\ float_units (float_of m e) = m * 2 ^ (e + 149).
Proof.
  intros Hm Hk HE. unfold float_of, float_units. cbv zeta. pose proof (Z.log2_nonneg m). pose proof (Z.log2_spec m Hm) as [L1 L2].
  set (k := Z.log2 m) in *. rewrite Z.shiftl_mul_pow2 by lia.
  assert (2 ^ 23 <= m * 2 ^ (23 - k) < 2 ^ 24) as Hr.
  { replace (2 ^ 23) with (2 ^ k * 2 ^ (23 - k)) by (rewrite <- Z.pow_add_r by lia; f_equal; lia).
    replace (2 ^ 24) with (2 ^ Z.succ k * 2 ^ (23 - k)) by (rewrite <- Z.pow_add_r by lia; f_equal; lia).
    assert (0 < 2 ^ (23 - k)) by (apply Z.pow_pos_nonneg; lia). nia. }
  split; [lia|]. rewrite units_normal by lia. rewrite Zplus_minus, <- Z.mul_assoc, <- Z.pow_add_r by lia. do 2 f_equal. lia.
Qed.

Lemma half_fields h : in_u 16 h ->
  Z.land (Z.shiftr h 10) 0x1f = (h mod 2 ^ 15) / 2 ^ 10 /\ Z.land h 0x3ff = (h mod 2 ^ 15) mod 2 ^ 10 /\
  (Z.land h 0x8000 =? 0) = (h / 2 ^ 15 =? 0) /\ 0 <= h / 2 ^ 15 <= 1 /\ 0 <= (h mod 2 ^ 15) / 2 ^ 10 <= 31.
Proof.
  intros [H1 H2]. pose proof (land_ones_mod (Z.shiftr h 10) 5 ltac:(lia)) as Fe. pose proof (land_ones_mod h 10 ltac:(lia)) as Fm.
  rewrite Z.shiftr_div_pow2 in Fe by lia. vm_compute (2 ^ 5 - 1) in Fe. vm_compute (2 ^ 10 - 1) in Fm.
  rewrite Z.shiftr_div_pow2, Fe, Fm by lia. split; [Z.div_mod_to_equations; lia|]. split; [Z.div_mod_to_equations; lia|].
  assert (Z.land h 0x8000 = (h / 2 ^ 15) mod 2 * 2 ^ 15) as ->.
  { pose proof (land_field h 1 15 ltac:(lia) ltac:(lia)) as F. vm_compute (Z.shiftl _ _) in F. rewrite Z.shiftr_div_pow2 in F by lia.
    change (2 ^ 1) with 2 in F. rewrite <- F. assert (Z.divide (2 ^ 15) (Z.land h 0x8000)) as [q Hq].
    - apply Z.mod_divide; [lia|]. rewrite <- land_ones_mod, <- Z.land_assoc by lia. change (Z.land 0x8000 (2 ^ 15 - 1)) with 0. apply Z.land_0_r.
    - rewrite Hq, Z.div_mul; lia. }
  assert (0 <= h / 2 ^ 15 <= 1) as Hs by (Z.div_mod_to_equations; lia). rewrite (Z.mod_small (h / 2 ^ 15)) by lia.
  split; [destruct (Z.eqb_spec (h / 2 ^ 15 * 2 ^ 15) 0), (Z.eqb_spec (h / 2 ^ 15) 0); lia|].
  split; [done|]. Z.div_mod_to_equations; lia.
Qed.

Lemma decode_half_units h : in_u 16 h -> h mod 2 ^ 15 < 0x7c00 ->
  exists mag, decode_half h = h / 2 ^ 15 * 2 ^ 31 + mag /\ 0 <= mag < 0x7f800000 /\ float_units mag = half_units (h mod 2 ^ 15).
Proof.
  intros Hh Hm. destruct (half_fields h Hh) as (Fe & Fm & Fs & Rs & Re). unfold decode_half. rewrite Fe, Fm, Fs.
  assert (0 <= h mod 2 ^ 15) as H0 by (apply Z.mod_pos_bound; lia). set (hm := h mod 2 ^ 15) in *.
  set (E := hm / 2 ^ 10) in *. set (m := hm mod 2 ^ 10) in *.
  assert (0 <= m < 2 ^ 10) as Hmr by (apply Z.mod_pos_bound; lia).
  assert (hm = E * 2 ^ 10 + m) as Hhm by (unfold E, m; Z.div_mod_to_equations; lia).
  assert (exists mag, (if E =? 0 then (if m =? 0 then 0 else float_of m (-24)) else if negb (E =? 31) then float_of (m + 1024) (E - 25) else 0x7f800000) = mag
    /\ 0 <= mag < 0x7f800000 /\ float_units mag = half_units hm) as (mag & Emag & Rmag & Umag).
  { unfold half_units. rewrite Hhm. destruct (Z.eqb_spec E 0) as [->|HE].
    - rewrite Z.mul_0_l, Z.add_0_l, units_small by done. destruct (Z.eqb_spec m 0) as [->|]; [by exists 0|].
      assert (Z.log2 m <= 9) by (apply Z.lt_succ_r, Z.log2_lt_pow2; lia). pose proof (Z.log2_nonneg m).
      eexists. split; [done|]. apply (float_of_spec m (-24)); lia.
    - rewrite (proj2 (Z.eqb_neq E 31)) by lia. cbn [negb].
      assert (Z.log2 (m + 1024) = 10) as Hl by (apply Z.log2_unique; lia).
      destruct (float_of_spec (m + 1024) (E - 25)) as [R U]; [lia|rewrite Hl; lia..|]. eexists. split; [done|]. split; [done|].
      rewrite U, units_normal by lia. replace (E - 25 + 149) with (E - 1 + 125) by lia. rewrite Z.pow_add_r by lia. lia. }
  exists mag. rewrite Emag. split; [|done]. destruct (Z.eqb_spec (h / 2 ^ 15) 0) as [->|]; cbn [negb]; lia.
Qed.

Lemma isnan_finite h : in_u 16 h -> h mod 2 ^ 15 < 0x7c00 -> isnan h = false.
Proof.
  intros Hh Hm. unfold isnan. destruct (_ || _); [done|]. destruct (Z.eqb_spec (Z.land h 0x7c00) 0x7c00) as [E|]; [|done]. exfalso.
  pose proof (land_field h 5 10 ltac:(lia) ltac:(lia)) as F. vm_compute (Z.shiftl _ _) in F. rewrite E in F.
  change (Z.shiftr 31744 10) with 31 in F. unfold in_u in Hh. revert F Hm. Z.div_mod_to_equations. lia.
Qed.

Lemma fp16_roundtrip_number h : in_u 16 h -> isnan h = false -> h <> 0x8000 -> tofp16_emulated (fromfp16_emulated h) = h.
Proof.
  intros Hh Hn Hz. unfold fromfp16_emulated. rewrite Hn. cbn [negb].
  assert (h = h / 2 ^ 15 * 2 ^ 15 + h mod 2 ^ 15) as Hsplit by (Z.div_mod_to_equations; lia).
  destruct (Z.lt_ge_cases (h mod 2 ^ 15) 0x7c00) as [Hf|Hf].
  + destruct (decode_half_units h Hh Hf) as (mag & -> & Hmag & Hu).
    assert (0 <= h / 2 ^ 15 <= 1) as Hs by (unfold in_u in Hh; Z.div_mod_to_equations; lia).
    assert ((h / 2 ^ 15 * 2 ^ 31 + mag) mod 2 ^ 31 = mag) as Em by (rewrite Z.add_comm, Z.mod_add, Z.mod_small; lia).
    assert ((h / 2 ^ 15 * 2 ^ 31 + mag) / 2 ^ 31 = h / 2 ^ 15) as Es by (rewrite Z.add_comm, Z.div_add, Z.div_small; lia).
    destruct (tofp16_floor (h / 2 ^ 15 * 2 ^ 31 + mag)) as (Hin & Hfin & _); [unfold in_u; lia|].
    rewrite Em, Es in Hfin. destruct (Hfin ltac:(lia)) as (B1 & B2 & B3 & B4). set (r := tofp16_emulated _) in *.
    assert (0 <= r mod 2 ^ 15 < 2 ^ 15) as Rr by (apply Z.mod_pos_bound; lia). rewrite Hu in B2, B3. unfold half_units in B2, B3.
    assert (0 <= h mod 2 ^ 15) as R0 by (apply Z.mod_pos_bound; lia).
    assert (r mod 2 ^ 15 = h mod 2 ^ 15) as Er.
    { destruct (Z.lt_trichotomy (r mod 2 ^ 15) (h mod 2 ^ 15)) as [Hlt|[?|Hlt]]; [|done|].
      - destruct B3 as [B3|B3]; [lia|]. destruct (Z.eq_dec (r mod 2 ^ 15 + 1) (h mod 2 ^ 15)) as [E1|]; [rewrite E1 in B3; lia|].
        pose proof (units_lt 10 (r mod 2 ^ 15 + 1) (h mod 2 ^ 15)). lia.
      - pose proof (units_lt 10 (h mod 2 ^ 15) (r mod 2 ^ 15)). lia. }
    rewrite Er in B4. assert (r = r / 2 ^ 15 * 2 ^ 15 + r mod 2 ^ 15) as Hr by (Z.div_mod_to_equations; lia).
    destruct (Z.eqb_spec (h mod 2 ^ 15) 0); unfold in_u in Hh; lia.
  + assert (h = 0x7c00 \/ h = 0xfc00) as [-> | ->]; [|by vm_compute..].
    unfold isnan in Hn. destruct (Z.eqb_spec h 0x7c00), (Z.eqb_spec h 0xfc00); [lia|lia|lia|]. cbn [orb] in Hn.
    assert (Z.land h 0x7c00 = 0x7c00) as E7; [|by rewrite E7 in Hn].
    assert (forall h, 0x7c00 <= h < 0x7c00 + 2 ^ Z.of_nat 10 -> (Z.land h 0x7c00 =? 0x7c00) = true) as A1 by (apply forall_pow2_spec; by vm_compute).
    assert (forall h, 0xfc00 <= h < 0xfc00 + 2 ^ Z.of_nat 10 -> (Z.land h 0x7c00 =? 0x7c00) = true) as A2 by (apply forall_pow2_spec; by vm_compute).
    apply Z.eqb_eq. unfold in_u in Hh. destruct (Z.lt_ge_cases h (2 ^ 15)); [apply A1|apply A2]; Z.div_mod_to_equations; lia.
Qed.

Lemma fp16_roundtrip_nan h : in_u 16 h -> isnan h = true -> tofp16_emulated (fromfp16_emulated h) = Z.lor (h mod 2 ^ 15) 0x200.
Proof.
  intros Hh. set (good := fun h => negb (isnan h) || (tofp16_emulated (fromfp16_emulated h) =? Z.lor (h mod 2 ^ 15) 0x200)).
  assert (good h = true) as Hg; [|intros Hn; unfold good in Hg; rewrite Hn in Hg; by apply Z.eqb_eq].
  assert (forall h, 0x7c00 <= h < 0x7c00 + 2 ^ Z.of_nat 10 -> good h = true) as A1 by (apply forall_pow2_spec; by vm_compute).
  assert (forall h, 0xfc00 <= h < 0xfc00 + 2 ^ Z.of_nat 10 -> good h = true) as A2 by (apply forall_pow2_spec; by vm_compute).
  unfold in_u in Hh. destruct (Z.lt_ge_cases (h mod 2 ^ 15) 0x7c00) as [Hf|Hf].
  + unfold good. rewrite isnan_finite; done.
  + destruct (Z.lt_ge_cases h (2 ^ 15)); [apply A1|apply A2]; Z.div_mod_to_equations; lia.
Qed.

(** Half precision survives a trip through float: for every 16-bit pattern,
    converting to float and back gives the pattern again, except that -0 becomes
    +0 and that a NaN comes back quiet and without its sign. *)
Theorem fp16_roundtrip (h : Z) : in_u 16 h ->
  (isnan h = false -> h <> 0x8000 -> tofp16_emulated (fromfp16_emulated h) = h) /\
  tofp16_emulated (fromfp16_emulated 0x8000) = 0 /\
  (isnan h = true -> tofp16_emulated (fromfp16_emulated h) = Z.lor (h mod 2 ^ 15) 0x200).
Proof.
  intros Hh. split; [by apply fp16_roundtrip_number|]. split; [done|by apply fp16_roundtrip_nan].
Qed.

(** * Rounding to bfloat16 *)

(** Within a binade, its upper end included, the value is linear in the pattern. *)
Lemma float_units_linear E m : 1 <= E -> 0 <= m <= 2 ^ 23 -> float_units (E * 2 ^ 23 + m) = (2 ^ 23 + m) * 2 ^ (E - 1).
Proof.
  intros HE Hm. unfold float_units. destruct (Z.eq_dec m (2 ^ 23)) as [->|]; [|apply units_normal; lia].
  replace (E * 2 ^ 23 + 2 ^ 23) with ((E + 1) * 2 ^ 23 + 0) by lia. rewrite units_normal by lia.
  replace (E + 1 - 1) with (Z.succ (E - 1)) by lia. rewrite Z.pow_succ_r by lia. lia.
Qed.

(** The sum with the rounding bias, for a number that is [l] above a multiple of
    2^16. *)
Lemma rounding_bias_spec s lo l : 0 <= s <= 1 -> 0 <= lo < 0x7f80 -> 0 <= l < 2 ^ 16 ->
  u16 (Z.shiftr (u32 (s * 2 ^ 31 + (lo * 2 ^ 16 + l) + (0x7fff + lo mod 2))) 16) =
  s * 2 ^ 15 + lo + (if (2 ^ 15 <? l) || ((l =? 2 ^ 15) && (lo mod 2 =? 1)) then 1 else 0).
Proof.
  intros Hs Hlo Hl. assert (0 <= lo mod 2 < 2) as Hp by (apply Z.mod_pos_bound; lia).
  rewrite (wrap_u_small 32) by (unfold in_u; lia). rewrite Z.shiftr_div_pow2 by lia.
  assert ((s * 2 ^ 31 + (lo * 2 ^ 16 + l) + (0x7fff + lo mod 2)) / 2 ^ 16 =
    s * 2 ^ 15 + lo + (l + (0x7fff + lo mod 2)) / 2 ^ 16) as ->.
  { replace (s * 2 ^ 31 + (lo * 2 ^ 16 + l) + (0x7fff + lo mod 2)) with ((l + (0x7fff + lo mod 2)) + (s * 2 ^ 15 + lo) * 2 ^ 16) by lia.
    rewrite Z.div_add by lia. lia. }
  destruct (Z.ltb_spec (2 ^ 15) l); [|destruct (Z.eqb_spec l (2 ^ 15)); [destruct (Z.eqb_spec (lo mod 2) 1)|]]; cbn [orb andb].
  1,2: rewrite <- (Z.div_unique _ (2 ^ 16) 1 (l + (0x7fff + lo mod 2) - 2 ^ 16)) by lia; apply wrap_u_small; unfold in_u; lia.
  all: rewrite Z.div_small by lia; apply wrap_u_small; unfold in_u; lia.
Qed.

Lemma tobf16_nearest (v : Z) : in_u 32 v ->
  let mag := v mod 2 ^ 31 in
  let s := v / 2 ^ 31 * 2 ^ 15 in
  let lo := mag / 2 ^ 16 in
  let gap_lo := float_units mag - float_units (lo * 2 ^ 16) in
  let gap_hi := float_units ((lo + 1) * 2 ^ 16) - float_units mag in
  (mag < 0x00800000 -> tobf16_emulated v = s) /\
  (mag = 0x7f800000 -> tobf16_emulated v = s + 0x7f80) /\
  (0x00800000 <= mag < 0x7f800000 ->
    (gap_lo < gap_hi -> tobf16_emulated v = s + lo) /\
    (gap_hi < gap_lo -> tobf16_emulated v = s + (lo + 1)) /\
    (gap_lo = gap_hi -> tobf16_emulated v = s + lo + lo mod 2)).
Proof.
  intros Hv mag s lo gap_lo gap_hi. destruct (float_fields v Hv) as (Fs & Fe & Fm & Rs & Re).
  unfold tobf16_emulated, to_bfloat16. rewrite Fs, Fe, Fm. fold mag in Fe, Re |- *. set (E := mag / 2 ^ 23) in *. set (m := v mod 2 ^ 23) in *.
  assert (0 <= m < 2 ^ 23) as Hm by (apply Z.mod_pos_bound; lia).
  assert (mag = E * 2 ^ 23 + m) as Hmag by (unfold mag, E, m; clear; Z.div_mod_to_equations; lia).
  assert (v = v / 2 ^ 31 * 2 ^ 31 + mag) as Hvs by (unfold mag; clear; Z.div_mod_to_equations; lia).
  assert (Z.shiftl (v / 2 ^ 31) 15 = s) as -> by (rewrite Z.shiftl_mul_pow2; [done|lia]).
  assert (u16 s = s) as Hus by (apply wrap_u_small; unfold in_u, s; lia).
  split; [|split].
  - intros H. assert (E = 0) as -> by (unfold E; apply Z.div_small; lia). done.
  - intros H. assert (E = 255) as HE by lia. assert (m = 0) as -> by lia. rewrite HE. simpl (_ =? _). cbn iota zeta.
    simpl (Z.shiftr 0 _). cbn [Z.eqb]. rewrite Z.shiftr_div_pow2 by lia.
    assert (v / 2 ^ 16 = s + 0x7f80) as -> by (rewrite Hvs, H; unfold s; Z.div_mod_to_equations; lia).
    apply wrap_u_small. unfold in_u, s. lia.
  - intros H. assert (1 <= E <= 254) as HE by lia. rewrite (proj2 (Z.eqb_neq E 0)), (proj2 (Z.eqb_neq E 255)) by lia.
    cbv zeta. change (24 - 8) with 16. rewrite (Z.shiftr_div_pow2 m) by lia. set (q := m / 2 ^ 16). set (l := m mod 2 ^ 16).
    assert (0 <= l < 2 ^ 16) as Hl by (apply Z.mod_pos_bound; lia).
    assert (m = q * 2 ^ 16 + l /\ 0 <= q < 128) as [Hq Rq] by (unfold q, l; Z.div_mod_to_equations; lia).
    assert (lo = E * 2 ^ 7 + q) as Hlo by (symmetry; apply Z.div_unique with l; lia).
    assert (Z.land q 1 = lo mod 2) as ->.
    { change (Z.land q 1) with (Z.land q (2 ^ 1 - 1)). rewrite land_ones_mod, Hlo by lia. change (2 ^ 1) with 2.
      change (2 ^ 7) with (64 * 2). rewrite Z.mul_assoc, Z.add_comm, Z.mod_add by lia. done. }
    replace (v + (0x7fff + lo mod 2)) with (v / 2 ^ 31 * 2 ^ 31 + (lo * 2 ^ 16 + l) + (0x7fff + lo mod 2)) by lia.
    rewrite rounding_bias_spec by lia. fold s.
    assert (gap_lo = l * 2 ^ (E - 1) /\ gap_hi = (2 ^ 16 - l) * 2 ^ (E - 1)) as [-> ->].
    { unfold gap_lo, gap_hi. rewrite Hmag. replace (lo * 2 ^ 16) with (E * 2 ^ 23 + q * 2 ^ 16) by lia.
      replace ((lo + 1) * 2 ^ 16) with (E * 2 ^ 23 + (q + 1) * 2 ^ 16) by lia. rewrite !float_units_linear by lia. lia. }
    assert (0 < 2 ^ (E - 1)) as HP by (apply Z.pow_pos_nonneg; lia). assert (0 <= lo mod 2 < 2) as Hpar by (apply Z.mod_pos_bound; lia).
    generalize dependent (2 ^ (E - 1)). intros P **.
    destruct (Z.ltb_spec (2 ^ 15) l); [|destruct (Z.eqb_spec l (2 ^ 15)); [destruct (Z.eqb_spec (lo mod 2) 1)|]]; cbn [orb andb]; repeat split; intros; nia.
Qed.

(** C35. What the emulated conversion from float to bfloat16 computes: it rounds
    to nearest, ties to even. For every normal number, let [lo] be the float with
    the low half of its bits cleared and [hi] the next one of that kind; the
    result is the one nearer in value, and on a tie the one whose last bit is 0.
    Zeroes and denormal numbers become zero with the same sign; infinities stay.
    This is not what the class of the result says of itself: its round_style is
    round_toward_zero and its has_denorm is denorm_present
    (fp_vectors/Floats.h). *)
Theorem tobf16_rounds_to_nearest (v : Z) : in_u 32 v ->
  let mag := v mod 2 ^ 31 in
  let s := v / 2 ^ 31 * 2 ^ 15 in
  let lo := mag / 2 ^ 16 in
  let gap_lo := float_units mag - float_units (lo * 2 ^ 16) in
  let gap_hi := float_units ((lo + 1) * 2 ^ 16) - float_units mag in
  (mag < 0x00800000 -> tobf16_emulated v = s) /\
  (mag = 0x7f800000 -> tobf16_emulated v = s + 0x7f80) /\
  (0x00800000 <= mag < 0x7f800000 ->
    (gap_lo < gap_hi -> tobf16_emulated v = s + lo) /\
    (gap_hi < gap_lo -> tobf16_emulated v = s + (lo + 1)) /\
    (gap_lo = gap_hi -> tobf16_emulated v = s + lo + lo mod 2)).
Proof. apply tobf16_nearest. Qed.

(** A bfloat16 number other than a denormal one or a negative zero survives a
    trip through float. *)
Theorem bf16_roundtrip (b : Z) : in_u 16 b ->
  let f := of_hex BFLOAT16 b in
  1 <= exponent f <= 254 \/ is_inf BFLOAT16 f = true \/ b = 0 ->
  tobf16_emulated (frombf16_emulated b) = b.
Proof.
  intros Hb f Hf. unfold in_u in Hb.
  assert (exponent f = b mod 2 ^ 15 / 2 ^ 7) as He.
  { unfold f, of_hex, mantissa_end, wrap_u. cbn [exponent exponent_bits mantissa_bits has_jbit BFLOAT16].
    rewrite Z.shiftr_div_pow2 by lia. Z.div_mod_to_equations. lia. }
  destruct Hf as [Hf|[Hf|Hf]]; [|destruct (decide (b = 0x7f80)) as [->|]; [done|];
    destruct (decide (b = 0xff80)) as [->|]; [done|exfalso]|by subst].
  - assert (frombf16_emulated b = b * 2 ^ 16) as ->.
    { unfold frombf16_emulated. rewrite Z.shiftl_mul_pow2, wrap_u_small by (unfold in_u; lia). unfold add_zero.
      assert (is_nan FLOAT32 (of_hex FLOAT32 (b * 2 ^ 16)) = false) as ->.
      { unfold is_nan. replace (exponent (of_hex FLOAT32 (b * 2 ^ 16))) with (exponent f); [|].
        - change (NAN_EXPONENT FLOAT32) with 255. by rewrite (proj2 (Z.eqb_neq (exponent f) 255)) by lia.
        - rewrite He. unfold of_hex, mantissa_end, wrap_u. cbn [exponent exponent_bits mantissa_bits has_jbit FLOAT32].
          rewrite Z.shiftr_div_pow2 by lia. Z.div_mod_to_equations. lia. }
      destruct (Z.eqb_spec (b * 2 ^ 16) 0x80000000); [|done]. exfalso. rewrite He in Hf. replace b with (2 ^ 15) in Hf by lia. destruct Hf as [Hf _]. by vm_compute in Hf. }
    assert ((b * 2 ^ 16) mod 2 ^ 31 = b mod 2 ^ 15 * 2 ^ 16) as Em by (Z.div_mod_to_equations; lia).
    assert ((b * 2 ^ 16) / 2 ^ 31 = b / 2 ^ 15) as Es by (Z.div_mod_to_equations; lia).
    destruct (tobf16_nearest (b * 2 ^ 16)) as (_ & _ & Hr); [unfold in_u; lia|].
    rewrite Em, Es, Z.div_mul in Hr by lia. destruct Hr as (Hlo & _); [Z.div_mod_to_equations; lia|].
    rewrite Hlo; [Z.div_mod_to_equations; lia|]. rewrite Z.sub_diag. apply Z.lt_0_sub. unfold float_units. apply units_lt; [lia|].
    pose proof (Z.mod_pos_bound b (2 ^ 15)). lia.
  - unfold is_inf in Hf. apply andb_prop in Hf as [E1%Z.eqb_eq E2%Z.eqb_eq]. rewrite He in E1. change (NAN_EXPONENT BFLOAT16) with 255 in E1.
    unfold f, of_hex, wrap_u in E2. cbn [mantissa mantissa_bits BFLOAT16] in E2. Z.div_mod_to_equations. lia.
Qed.

(** * The structures hold what is put in them *)

Definition layouts : list layout := [FLOAT16; BFLOAT16; FLOAT32; FLOAT64; FLOAT80].

Lemma new_float_ok l s e j m : l ∈ layouts -> float_ok l (new_float l s e j m).
Proof.
  intros Hl. assert (0 < exponent_bits l /\ 0 < mantissa_bits l) as [? ?] by (repeat (apply elem_of_cons in Hl as [->|Hl]; [done|]); by apply not_elem_of_nil in Hl).
  split; [by apply wrap_u_range|]. split; [by apply wrap_u_range|]. split; [|by apply wrap_u_range].
  simpl. destruct (has_jbit l); [by apply wrap_u_range|done].
Qed.

(** Reading the fields back from the other view of the union. *)
Theorem float_views (l : layout) (f : Float) : l ∈ layouts -> float_ok l f -> of_hex l (as_hex l f) = f.
Proof.
  intros Hl (Hs & He & Hj & Hm). destruct f as [s e j m]. unfold as_hex, of_hex, float_ok, wrap_u, in_u in *. cbn [sign exponent jbit mantissa] in *.
  unfold mantissa_end. repeat (apply elem_of_cons in Hl as [->|Hl]; [|]); [..|by apply not_elem_of_nil in Hl];
    cbn [exponent_bits mantissa_bits has_jbit FLOAT16 BFLOAT16 FLOAT32 FLOAT64 FLOAT80] in *;
    rewrite !Z.shiftr_div_pow2 by lia; f_equal; try done; Z.div_mod_to_equations; lia.
Qed.

(** Random values are well formed: for every format and engine, the generators
    fill every field within its width. *)
Theorem new_random_float_ok (aesenc : Z -> Z -> Z) (l : layout) (n : nat) (t : Z) (e : RandomEngineWrapper) :
  l ∈ layouts -> wrapper_ok n e -> -1 <= t < Z.of_nat n ->
  yields n t (fun f => float_ok l f /\ (has_jbit l = true -> jbit f = 1)) (new_random_float aesenc l t e) e.
Proof.
  intros Hl He Ht. unfold new_random_float.
  destruct (random32_ret aesenc n t e He Ht) as (v1 & e1 & E1 & _ & He1 & S1). rewrite E1. cbn [mbind outcome_bind fst snd].
  destruct (random32_ret aesenc n t e1 He1 Ht) as (v2 & e2 & E2 & _ & He2 & S2). rewrite E2. cbn [mbind outcome_bind fst snd].
  destruct (random32_ret aesenc n t e2 He2 Ht) as (v3 & e3 & E3 & _ & He3 & S3). rewrite E3. cbn [mbind outcome_bind fst snd].
  assert (mantissa_bits l <= 63) as Hw by (clear -Hl; repeat (apply elem_of_cons in Hl as [->|Hl]; [done|]); by apply not_elem_of_nil in Hl).
  destruct (set_random_bits_ok aesenc n t (Z.to_nat (v3 mod (mantissa_bits l + 1))) (Z.to_nat (mantissa_bits l)) e3) as (v4 & e4 & E4 & _ & He4 & S4);
    [done|done|lia|]. rewrite E4. cbn [mbind outcome_bind fst snd]. do 2 eexists. split; [done|]. split; [split; [by apply new_float_ok|]|].
  - intros Hj. simpl. by rewrite Hj.
  - split; [done|]. by do 3 (eapply same_but_trans; [eassumption|]).
Qed.

(** * Not-a-number

    A NaN whose payload is in the low bits only becomes an infinity. *)
Example nan_becomes_infinity :
  is_nan FLOAT32 (of_hex FLOAT32 0x7f800001) = true /\
  tofp16_emulated 0x7f800001 = 0x7c00 /\ is_inf FLOAT16 (of_hex FLOAT16 0x7c00) = true /\
  tobf16_emulated 0x7f800001 = 0x7f80 /\ is_inf BFLOAT16 (of_hex BFLOAT16 0x7f80) = true.
Proof. by vm_compute. Qed.

(** Widening a NaN does not keep its sign. *)
Example nan_sign_lost : fromfp16_emulated 0xfe00 = 0x7fc00000.
Proof. by vm_compute. Qed.

(** A bfloat16 denormal number does not survive. *)
Example bf16_denormal_lost : tobf16_emulated (frombf16_emulated 0x0001) = 0.
Proof. by vm_compute. Qed.

(** * Witnesses *)

Lemma tofp16_truncates_witness : half_units (tofp16_emulated 0x3eaaaaab mod 2 ^ 15) <= float_units 0x3eaaaaab.
Proof. by apply (tofp16_truncates 0x3eaaaaab). Defined.

Lemma fp16_roundtrip_witness : tofp16_emulated (fromfp16_emulated 0x3555) = 0x3555.
Proof. by apply (fp16_roundtrip 0x3555). Defined.

Lemma tobf16_rounds_to_nearest_witness : tobf16_emulated 0x3f808000 = 0x3f80 /\ tobf16_emulated 0x3f818000 = 0x3f82.
Proof.
  split.
  - by apply (tobf16_rounds_to_nearest 0x3f808000).
  - by apply (tobf16_rounds_to_nearest 0x3f818000).
Defined.

Lemma bf16_roundtrip_witness : tobf16_emulated (frombf16_emulated 0x3fb5) = 0x3fb5.
Proof. apply (bf16_roundtrip 0x3fb5); [done|]. left. by vm_compute. Defined.

Lemma float_views_witness : of_hex FLOAT80 (as_hex FLOAT80 (new_float FLOAT80 0 11 33 22)) = new_float FLOAT80 0 11 33 22.
Proof. apply float_views; [repeat constructor|apply new_float_ok; repeat constructor]. Defined.

Lemma new_random_float_ok_witness :
  yields 2 0 (fun f => float_ok FLOAT64 f /\ (has_jbit FLOAT64 = true -> jbit f = 1)) (new_random_float Z.lxor FLOAT64 0 ex_engine) ex_engine.
Proof. apply new_random_float_ok; [repeat constructor|apply ex_engine_ok|lia]. Defined.
