(* ===== verification/DataTypes.v ===== *)
(** The types of the data that tests compare (enum DataType of sandstone_data.h)
    and the text of a value in a report (sandstone_utils.cpp).

    What printf("%a") writes for a floating-point number is a parameter. *)

From S2P Require Import Prelude CStdlib Bytes Floats.

(** * DataType *)

Inductive DataType :=
| UInt8Data | UInt16Data | UInt32Data | UInt64Data | UInt128Data
| Int8Data | Int16Data | Int32Data | Int64Data | Int128Data
| Float16Data | BFloat16Data | Float32Data | Float64Data | Float80Data | Float128Data.
#[export] Instance DataType_eq_dec : EqDecision DataType.
Proof. solve_decision. Defined.

(** The values of the enumerators: the size less one, a flag for signed and one
    for floating-point types. *)
Definition DataIsSigned : Z := 0x80.
Definition DataIsFloatingPoint : Z := 0x40.
Definition DataType_value (t : DataType) : Z :=
  match t with
  | UInt8Data => 0 | UInt16Data => 1 | UInt32Data => 3 | UInt64Data => 7 | UInt128Data => 15
  | Int8Data => Z.lor 0 DataIsSigned | Int16Data => Z.lor 1 DataIsSigned | Int32Data => Z.lor 3 DataIsSigned
  | Int64Data => Z.lor 7 DataIsSigned | Int128Data => Z.lor 15 DataIsSigned
  | Float16Data => Z.lor 1 DataIsFloatingPoint | BFloat16Data => Z.lor 2 DataIsFloatingPoint
  | Float32Data => Z.lor 3 DataIsFloatingPoint | Float64Data => Z.lor 7 DataIsFloatingPoint
  | Float80Data => Z.lor 9 DataIsFloatingPoint | Float128Data => Z.lor 15 DataIsFloatingPoint
  end.

Definition type_name (t : DataType) : str :=
  match t with
  | UInt8Data => L "uint8_t" | UInt16Data => L "uint16_t" | UInt32Data => L "uint32_t"
  | UInt64Data => L "uint64_t" | UInt128Data => L "uint128_t"
  | Int8Data => L "int8_t" | Int16Data => L "int16_t" | Int32Data => L "int32_t"
  | Int64Data => L "int64_t" | Int128Data => L "int128_t"
  | Float16Data => L "_Float16" | BFloat16Data => L "_BFloat16" | Float32Data => L "float"
  | Float64Data => L "double" | Float80Data => L "_Float64x" | Float128Data => L "_Float128"
  end.

Definition type_real_size (t : DataType) : Z :=
  if bool_decide (t = BFloat16Data) then 2 else Z.land (DataType_value t) 0x3f + 1.

(** sizeof(long double) is 16. *)
Definition type_size (t : DataType) : Z :=
  if bool_decide (t = Float80Data) then 16 else type_real_size t.
Definition type_alignment (t : DataType) : Z := type_size t.
Definition MaxDataTypeSize : Z := 16.

(** * format_single_type() *)

(** The digits of the bytes, the last byte first. *)
Definition hex_dump (data : list Z) : str := concat ((fun v => [digit_char (Z.shiftr v 4); digit_char (Z.land v 0xf)]) <$> reverse data).

(** format_int<T>(): [v] is the value of a type that is signed or not. sprintf()
    writes into the eight characters that were added, and a terminating NUL into
    the string's own. *)
Definition room : nat := length (L " (-4096)").
Definition sprintf_into (text : str) : outcome str := if (length text <=? room)%nat then Ret text else Ub.

Definition format_int (signed : bool) (v : Z) (buffer : str) : outcome str :=
  n ← (if v <=? 4096 then
         if signed then
           if -4096 <=? v then sprintf_into (L " (" ++ to_string (i64 v) ++ L ")") else Ret []
         else sprintf_into (L " (" ++ to_string (u64 v) ++ L ")")
       else Ret []);
  Ret (buffer ++ n).

(** The integer that the bytes hold. *)
Definition int_value (signed : bool) (data : list Z) : Z :=
  if signed then wrap_s (8 * len data) (le_value data) else le_value data.

Inductive kind := IntKind (signed : bool) | FloatKind | NoText.
Definition kind_of (t : DataType) : kind :=
  match t with
  | UInt8Data | UInt16Data | UInt32Data | UInt64Data | UInt128Data => IntKind false
  | Int8Data | Int16Data | Int32Data | Int64Data | Int128Data => IntKind true
  | Float16Data | BFloat16Data | Float32Data | Float64Data | Float80Data => FloatKind
  | Float128Data => NoText
  end.

Section Printf.
(** "%a" of a float or a double given by its bits, "%La" of the ten bytes of a
    long double. A float is promoted to double, which changes no value. *)
Context (print_float print_double print_long_double : Z -> str).

(** format_fp(): half precision goes through float, bfloat16 is the upper half of
    a float. *)
Definition format_fp (t : DataType) (data : list Z) : str :=
  L " (" ++
  match t with
  | Float16Data => print_float (fromfp16_emulated (le_value data))
  | BFloat16Data => print_float (Z.shiftl (le_value data) 16)
  | Float32Data => print_float (le_value data)
  | Float64Data => print_double (le_value data)
  | _ => print_long_double (le_value data)
  end ++ L ")".

Definition format_single_type (t : DataType) (typeSize : Z) (data : list Z) (detailed : bool) : outcome str :=
  bytes ← read_at (Z.to_nat typeSize) 0 data;
  let result := hex_dump bytes in
  if detailed then
    match kind_of t with
    | IntKind signed =>
        v ← read_at (Z.to_nat (type_real_size t)) 0 data;
        format_int signed (int_value signed v) result
    | FloatKind =>
        v ← read_at (Z.to_nat (type_real_size t)) 0 data;
        Ret (result ++ format_fp t v)
    | NoText => Ret result
    end
  else Ret result.
End Printf.

(** * vstdprintf()

    [text] is what the format and its arguments stand for, [None] when
    vsnprintf() fails (it then returns -1, a huge size). The string grows until
    the text fits. *)
Definition SIZE_MAX : Z := 2 ^ 64 - 1.
Definition initial_minsize (fmt : str) : Z :=
  let minsize := len fmt + 8 * len (filter (fun c => c = "%"%char) fmt) in
  if minsize <? 15 then 15 else minsize.

Definition vsnprintf (text : option str) (size : Z) : Z * str :=
  match text with
  | Some text => (len text, if size =? 0 then [] else take (Z.to_nat (size - 1)) text)
  | None => (SIZE_MAX, [])
  end.

Fixpoint vstdprintf_loop (fuel : nat) (text : option str) (minsize : Z) : option str :=
  match fuel with
  | O => None
  | S fuel =>
      let size := u64 (minsize + 1) in
      let '(minsize, result) := vsnprintf text size in
      if size <=? minsize then vstdprintf_loop fuel text minsize
      else Some result
  end.

Definition vstdprintf (fuel : nat) (fmt : str) (text : option str) : option str :=
  vstdprintf_loop fuel text (initial_minsize fmt).

(** * Facts *)

(** The sizes of the types are powers of two, so that an offset can be aligned
    with a mask, and fit in the largest one. *)
Theorem type_sizes (t : DataType) :
  (exists k, 0 <= k <= 4 /\ type_alignment t = 2 ^ k) /\ 0 < type_real_size t <= type_size t /\ type_size t <= MaxDataTypeSize.
Proof.
  split; [|by destruct t].
  destruct t; first [by exists 0|by exists 1|by exists 2|by exists 3|by exists 4].
Qed.

(** The digits of a number without sign: one more for every power of ten. *)
Lemma small_to_string_length v : 0 <= v <= 4096 -> (length (to_string v) <= 4)%nat.
Proof.
  intros H. assert (forall v, 0 <= v < 0 + 2 ^ Z.of_nat 12 -> (length (to_string v) <=? 4)%nat = true) as Hall
    by (apply forall_pow2_spec; by vm_compute).
  destruct (Z.eq_dec v 4096) as [->|]; [by vm_compute; lia|]. apply Nat.leb_le, Hall. simpl. lia.
Qed.

Definition decimal_text (v : Z) : str := if (-4096 <=? v) && (v <=? 4096) then L " (" ++ to_string v ++ L ")" else [].

Lemma format_int_ok signed v buffer : (signed = false -> 0 <= v) ->
  format_int signed v buffer = Ret (buffer ++ decimal_text v).
Proof.
  intros Hs. unfold format_int.
  assert (forall x, -4096 <= x <= 4096 -> sprintf_into (L " (" ++ to_string x ++ L ")") = Ret (L " (" ++ to_string x ++ L ")")) as Hfit.
  { intros x Hx. unfold sprintf_into. rewrite (proj2 (Nat.leb_le _ _)); [done|].
    rewrite !length_app. simpl (length (L _)). change room with 8%nat. unfold to_string. destruct (Z.ltb_spec x 0).
    - pose proof (small_to_string_length (- x) ltac:(lia)) as Hl. unfold to_string in Hl.
      rewrite (proj2 (Z.ltb_ge (- x) 0)) in Hl by lia. simpl. lia.
    - pose proof (small_to_string_length x ltac:(lia)) as Hl. unfold to_string in Hl.
      rewrite (proj2 (Z.ltb_ge x 0)) in Hl by lia. lia. }
  unfold decimal_text. destruct (Z.leb_spec v 4096); [destruct signed|]; rewrite ?andb_false_r, ?andb_true_r.
  - destruct (Z.leb_spec (-4096) v); [|done]. rewrite wrap_s_small by (unfold in_s; lia). by rewrite Hfit by lia.
  - specialize (Hs eq_refl). rewrite wrap_u_small by (unfold in_u; lia). rewrite Hfit by lia.
    by rewrite (proj2 (Z.leb_le (-4096) v)) by lia.
  - done.
Qed.

Lemma hex_dump_cons b data : hex_dump (b :: data) = hex_dump data ++ [digit_char (Z.shiftr b 4); digit_char (Z.land b 0xf)].
Proof. unfold hex_dump. rewrite reverse_cons, fmap_app, concat_app. simpl. done. Qed.

Lemma hex_dump_length data : length (hex_dump data) = (2 * length data)%nat.
Proof. induction data as [|b data IH]; [done|]. rewrite hex_dump_cons, length_app, IH. simpl. lia. Qed.

Lemma hex_dump_value data : bytes_ok data -> digits_value 16 (hex_dump data) = le_value data.
Proof.
  induction 1 as [|b data Hb Hd IH]; [done|]. rewrite hex_dump_cons. unfold in_u in Hb.
  change [?a; ?b] with ([a] ++ [b]). rewrite app_assoc, !digits_value_snoc, IH.
  assert (0 <= Z.land b 0xf < 16) by (change 0xf with (2 ^ 4 - 1); rewrite land_ones_mod by lia; apply Z.mod_pos_bound; lia).
  assert (0 <= Z.shiftr b 4 < 16) by (rewrite Z.shiftr_div_pow2 by lia; split; [apply Z.div_pos; lia|apply Z.div_lt_upper_bound; lia]).
  rewrite !digit_of_digit_char by done. cbn [le_value].
  change 0xf with (2 ^ 4 - 1). rewrite land_ones_mod, Z.shiftr_div_pow2 by lia. Z.div_mod_to_equations. lia.
Qed.

Lemma format_single_type_ok (pf pd pl : Z -> str) (t : DataType) (data : list Z) :
  bytes_ok data -> type_real_size t <= len data ->
  let bytes := take (Z.to_nat (type_real_size t)) data in
  exists digits rest,
    format_single_type pf pd pl t (type_real_size t) data true = Ret (digits ++ rest) /\
    format_single_type pf pd pl t (type_real_size t) data false = Ret digits /\
    len digits = 2 * type_real_size t /\ digits_value 16 digits = le_value bytes /\
    match kind_of t with
    | IntKind signed => rest = decimal_text (int_value signed bytes)
    | FloatKind => True
    | NoText => rest = []
    end.
Proof.
  intros Hd Hl bytes. destruct (type_sizes t) as (_ & [Hpos _] & _).
  assert (bytes_ok bytes) as Hb by by apply bytes_ok_take.
  assert (length bytes = Z.to_nat (type_real_size t)) as Hlb by (unfold bytes; rewrite length_take; unfold len in Hl; lia).
  unfold format_single_type. rewrite read_at_ret by (unfold len in Hl; lia). rewrite drop_0. fold bytes. cbn [mbind outcome_bind].
  exists (hex_dump bytes).
  assert (len (hex_dump bytes) = 2 * type_real_size t /\ digits_value 16 (hex_dump bytes) = le_value bytes) as Hh.
  { unfold len. rewrite hex_dump_length, Hlb. split; [lia|by apply hex_dump_value]. }
  destruct (kind_of t) as [signed| |] eqn:Hk.
  - pose proof (format_int_ok signed (int_value signed bytes) (hex_dump bytes)) as E.
    exists (decimal_text (int_value signed bytes)). split; [apply E; intros ->; by apply le_value_range|]. split; [done|]. split; [apply Hh|]. split; [apply Hh|done].
  - exists (format_fp pf pd pl t bytes). split; [done|]. split; [done|]. split; [apply Hh|]. split; [apply Hh|done].
  - exists []. rewrite app_nil_r. split; [done|]. split; [done|]. split; [apply Hh|]. split; [apply Hh|done].
Qed.

(** The text of a value in a report: for every type and every content of the
    memory, format_single_type() returns (its fixed buffer is never overrun) the
    hexadecimal digits of exactly that value, two for each byte, and for an integer
    from -4096 to 4096 also its decimal digits. *)
Theorem format_single_type_spec (pf pd pl : Z -> str) (t : DataType) (data : list Z) :
  bytes_ok data -> type_real_size t <= len data ->
  let bytes := take (Z.to_nat (type_real_size t)) data in
  exists digits rest,
    format_single_type pf pd pl t (type_real_size t) data true = Ret (digits ++ rest) /\
    format_single_type pf pd pl t (type_real_size t) data false = Ret digits /\
    len digits = 2 * type_real_size t /\ digits_value 16 digits = le_value bytes /\
    match kind_of t with
    | IntKind signed => rest = decimal_text (int_value signed bytes)
    | FloatKind => True
    | NoText => rest = []
    end.
Proof. apply format_single_type_ok. Qed.

Lemma format_single_type_spec_witness :
  exists digits rest, format_single_type (fun _ => []) (fun _ => []) (fun _ => []) Int16Data 2 [0xfe; 0xff; 0] true = Ret (digits ++ rest) /\ len digits = 4.
Proof.
  destruct (format_single_type_spec (fun _ => []) (fun _ => []) (fun _ => []) Int16Data [0xfe; 0xff; 0]) as (d & r & E & _ & Hl & _);
    [repeat (constructor; [done|]); constructor|done|]. by exists d, r.
Defined.

Example format_int16 : format_single_type (fun _ => []) (fun _ => []) (fun _ => []) Int16Data 2 [0xfe; 0xff] true = Ret (L "fffe (-2)").
Proof. by vm_compute. Qed.

(** Formatting ends: when vsnprintf() succeeds, the text is complete after at
    most two attempts. *)
Theorem vstdprintf_returns (fmt text : str) : len text < SIZE_MAX -> len fmt < 2 ^ 59 -> vstdprintf 2 fmt (Some text) = Some text.
Proof.
  intros Ht Hf. unfold vstdprintf. assert (0 <= initial_minsize fmt < 2 ^ 63) as Hi.
  { unfold initial_minsize. pose proof (length_filter (fun c => c = "%"%char) fmt). unfold len in *. zcases; lia. }
  assert (forall size, len text < size -> take (Z.to_nat (size - 1)) text = text) as Htake by (intros; apply take_ge; unfold len in *; lia).
  assert (0 <= len text) by (unfold len; lia). unfold SIZE_MAX in Ht.
  cbn [vstdprintf_loop vsnprintf]. rewrite wrap_u_small by (unfold in_u; lia).
  destruct (Z.leb_spec (initial_minsize fmt + 1) (len text)).
  - rewrite wrap_u_small by (unfold in_u; lia). rewrite (proj2 (Z.leb_gt _ _)) by lia.
    rewrite (proj2 (Z.eqb_neq (len text + 1) 0)) by lia. by rewrite Htake by lia.
  - rewrite (proj2 (Z.eqb_neq _ 0)) by lia. by rewrite Htake by lia.
Qed.

Lemma vstdprintf_returns_witness : vstdprintf 2 (L "%s") (Some (L "a text longer than the buffer")) = Some (L "a text longer than the buffer").
Proof. by apply vstdprintf_returns. Defined.

(** When vsnprintf() fails the loop never ends. *)
Theorem vstdprintf_error_loops (fuel : nat) (fmt : str) : vstdprintf fuel fmt None = None.
Proof.
  unfold vstdprintf. generalize (initial_minsize fmt). induction fuel as [|fuel IH]; intros m; [done|]. cbn [vstdprintf_loop vsnprintf].
  rewrite (proj2 (Z.leb_le _ _)); [apply IH|]. pose proof (wrap_u_range 64 ltac:(lia) (m + 1)) as [? ?]. unfold SIZE_MAX. lia.
Qed.
