(* ===== verification/Report.v ===== *)
(** What the program prints about a test (logging.cpp): logging_printf(), the
    three loggers (key-value, TAP, YAML) with the messages of the threads, the
    header of a run, and the truncation of the threads' logs afterwards.

    The functions run in a small state monad: a state [Out] with what was written
    to each file so far, the threads' shared data and the static variables of the
    source. The file that file_log_fd names may be the same as the standard
    output. The clocks, floating-point texts, signal names and what other
    components provide (the seed, the failure mask, the plans) are parameters. The
    clock of the progress bar is read apart from the one of the timestamps. *)

From S2P Require Import Prelude CStdlib Chrono Results ThreadData Logging CpuInfo.

(** * Sinks and state *)

Inductive Fd := LogFile | RealStdout | Stderr.
#[export] Instance Fd_eq_dec : EqDecision Fd.
Proof. solve_decision. Defined.

(** How much of "tests:" was printed (YamlLogger::print_tests_header). *)
Inductive HeaderState := NoHeader | LogFileOnly | Both.
#[export] Instance HeaderState_eq_dec : EqDecision HeaderState.
Proof. solve_decision. Defined.

Record Out := {
  log_file : str; std_out : str; std_err : str; syslog_lines : list str;
  shm : Shm;
  stderr_log : str;              (** the file behind stderr_fd *)
  ticks : nat;                   (** readings of the clock so far *)
  start_time : option (Z * Z);   (** elapsed_runtime()::start_time *)
  tests_header : HeaderState;
  warning_printed : bool;
  file_terminator : bool; stdout_terminator : bool;       (** TapFormatLogger *)
  file_header : bool; stdout_header : bool;               (** YamlLogger::*_printed_messages_header *)
  tty_out : str;                 (** what the terminal was sent *)
  progress_bar_needs_flush : Z;
  dot_ticks : nat;               (** readings of the clock by the progress bar *)
  last_dot_time : Z * Z;
}.
#[export] Instance eta_Out : Eta Out := fun s =>
  Build_Out (log_file s) (std_out s) (std_err s) (syslog_lines s) (shm s) (stderr_log s) (ticks s) (start_time s)
    (tests_header s) (warning_printed s) (file_terminator s) (stdout_terminator s) (file_header s) (stdout_header s)
    (tty_out s) (progress_bar_needs_flush s) (dot_ticks s) (last_dot_time s).

(** * The monad *)

Definition report (A : Type) : Type := Out -> outcome (A * Out).
#[export] Instance report_ret : MRet report := fun A a o => Ret (a, o).
#[export] Instance report_bind : MBind report := fun A B f m o => r ← m o; f r.1 r.2.

Definition get : report Out := fun o => Ret (o, o).
Definition modify (f : Out -> Out) : report () := fun o => Ret ((), f o).
Definition lift {A} (m : outcome A) : report A := fun o => a ← m; Ret (a, o).
Definition done_ : report () := mret ().
Definition when (b : bool) (m : report ()) : report () := if b then m else done_.

Fixpoint for_each {A} (f : A -> report ()) (l : list A) : report () :=
  match l with
  | [] => done_
  | x :: l => _ ← f x; for_each f l
  end.

(** write() to a file descriptor *)
Definition write (fd : Fd) (s : str) : report () :=
  modify (fun o => match fd with
                   | LogFile => o <| log_file := log_file o ++ s |>
                   | RealStdout => o <| std_out := std_out o ++ s |>
                   | Stderr => o <| std_err := std_err o ++ s |>
                   end).
Definition writeln (fd : Fd) (s : str) : report () := write fd (s ++ [newline]).

(** * printf conversions *)

Definition pad (c : ascii) (width : nat) (s : str) : str := replicate (width - length s) c ++ s.
(** %*d, %0*d of a number that is not negative, %0*x, %#x *)
Definition fmt_d (width : nat) (z : Z) : str := pad " "%char width (to_string z).
Definition fmt_0d (width : nat) (z : Z) : str := pad "0"%char width (to_string z).
Definition fmt_0x (width : nat) (z : Z) : str := pad "0"%char width (to_digits 16 z).
Definition fmt_alt_x (z : Z) : str := if z =? 0 then L "0" else L "0x" ++ to_digits 16 z.
(** %#02x: the prefix counts for the width *)
Definition fmt_alt_02x (z : Z) : str := if z =? 0 then L "00" else L "0x" ++ to_digits 16 z.
(** %#08x *)
Definition fmt_alt_08x (z : Z) : str := if z =? 0 then L "00000000" else L "0x" ++ fmt_0x 6 z.

(** * What the loggers know *)

Record TestInfo := { test_id : str; test_description : str; test_quality : Z }.

Record Host := {
  program_version : str;
  program_invocation_name : str;
  uname : option (str * str);    (** the system's name and release *)
  gnu_get_libc_version : str;
  StaticLink : bool;
  openssl_info : str;
  hypervisor : bool;
  (** what the monotonic and the real-time clock read, seconds and nanoseconds *)
  clock_at : nat -> Z * Z;
  dot_clock_at : nat -> Z * Z;
  realtime_at : nat -> Z * Z;
  tty : bool;                    (** the terminal is open *)
  is_dumb_terminal : bool;
  strsignal : Z -> str;
  (** printf("%.1f"): the percentage of failing threads, the average load of a
      slice and the frequencies; [None] when not finite (or zero) *)
  percent_text : Z -> Z -> str;
  cpuavg_text : Z -> Z -> str;
  thread_freq : Z -> option str;
  average_freq : option str;
}.

Record App := {
  a_cfg : LogCfg;
  verbosity : Z;
  file_log_fd : Fd;              (** LogFile, or RealStdout *)
  syslog_ident : bool;
  current_test_starttime : Z;
  now : Z;                       (** MonotonicTimePoint::clock::now() in YamlLogger::print() *)
  current_iteration_count : Z;
  seed : str;                    (** random_format_seed() *)
  failure_mask : outcome str;    (** Topology::build_falure_mask() *)
  cpus : list cpu_info;
}.

Section Loggers.
Context (host : Host) (app : App).
Abbreviation cfg := (a_cfg app).
Abbreviation file := (file_log_fd app).

Definition quality_string (t : TestInfo) : option str :=
  match current_output_format cfg with
  | key_value | yaml =>
      Some (if test_quality t <? 0 then L "alpha" else if test_quality t =? 0 then L "beta" else L "production")
  | tap => if test_quality t <? 0 then Some (L "(alpha test) ") else if test_quality t =? 0 then Some (L "(beta test) ") else None
  | no_output => None
  end.

Definition char_to_skip_category (val : Z) : str :=
  if val =? 1 then L "CpuNotSupported" else if val =? 6 then L "DeviceNotFound"
  else if val =? 7 then L "DeviceNotConfigured" else if val =? 8 then L "Unknown"
  else if val =? 10 then L "Runtime" else if val =? 12 then L "Selftest"
  else if val =? 5 then L "OsNotSupported" else if val =? 3 then L "TestResourceIssue"
  else if val =? 2 then L "CpuTopologyIssue" else if val =? 4 then L "OSResourceIssue"
  else if val =? 9 then L "IgnoredMceCategory" else if val =? 11 then L "TestObsolete"
  else L "NO CATEGORY PRESENT".

(** elapsed_runtime(): the first call sets the start. *)
Definition elapsed_runtime : report (Z * Z) :=
  o ← get;
  let now := clock_at host (ticks o) in
  let start := default now (start_time o) in
  _ ← modify (fun o => o <| ticks := S (ticks o) |> <| start_time := Some start |>);
  let secs := now.1 - start.1 in
  let nsecs := now.2 - start.2 in
  mret (if nsecs <? 0 then (secs - 1, nsecs + 1000000000) else (secs, nsecs)).

Definition log_timestamp : report str :=
  elapsed ← elapsed_runtime;
  mret (L "[" ++ fmt_d 5 elapsed.1 ++ L "." ++ fmt_0d 6 (Z.quot elapsed.2 1000) ++ L "] ").

(** gmtime_r(): the date of a number of seconds since 1970, in the calendar that
    repeats every 146097 days. *)
Record tm := { tm_year : Z; tm_mon : Z; tm_mday : Z; tm_hour : Z; tm_min : Z; tm_sec : Z }.
Definition gmtime (secs : Z) : tm :=
  let z := secs / 86400 + 719468 in
  let era := z / 146097 in
  let doe := z mod 146097 in
  let yoe := (doe - doe / 1460 + doe / 36524 - doe / 146096) / 365 in
  let doy := doe - (365 * yoe + yoe / 4 - yoe / 100) in
  let mp := (5 * doy + 2) / 153 in
  let mon := if mp <? 10 then mp + 3 else mp - 9 in
  let rest := secs mod 86400 in
  {| tm_year := yoe + era * 400 + (if mon <=? 2 then 1 else 0); tm_mon := mon; tm_mday := doy - (153 * mp + 2) / 5 + 1;
     tm_hour := rest / 3600; tm_min := rest / 60 mod 60; tm_sec := rest mod 60 |}.

(** iso8601_time_now() *)
Definition iso8601_time_now (with_ms filename_compatible : bool) : report str :=
  o ← get;
  _ ← modify (fun o => o <| ticks := S (ticks o) |>);
  let now := realtime_at host (ticks o) in
  let t := gmtime now.1 in
  let dash := if filename_compatible then [] else L "-" in
  let colon := if filename_compatible then [] else L ":" in
  mret (to_string (tm_year t) ++ dash ++ fmt_0d 2 (tm_mon t) ++ dash ++ fmt_0d 2 (tm_mday t) ++ L "T" ++
        fmt_0d 2 (tm_hour t) ++ colon ++ fmt_0d 2 (tm_min t) ++ colon ++ fmt_0d 2 (tm_sec t) ++
        (if with_ms then L "." ++ fmt_0d 6 (Z.quot now.2 1000) else []) ++ L "Z").

(** The progress bar. *)
Definition backspace : ascii := "008"%char.
Definition progress_bar_update : report () :=
  if negb (tty host) then done_
  else
    o ← get;
    _ ← modify (fun o => o <| dot_ticks := S (dot_ticks o) |>);
    let now := dot_clock_at host (dot_ticks o) in
    let printing_interval := 10 * 1000000000 in
    let interval := if 0 <=? (last_dot_time o).1
                    then ((now.1 - (last_dot_time o).1) * 1000000000 + (now.2 - (last_dot_time o).2)) else printing_interval in
    let flags := progress_bar_needs_flush o in
    let print (c : ascii) flags :=
      modify (fun o => o <| tty_out := tty_out o ++ (if Z.testbit (progress_bar_needs_flush o) 1 then [backspace; c] else [c]) |>
                         <| progress_bar_needs_flush := Z.lor flags 1 |>) in
    if printing_interval <=? interval then
      _ ← modify (fun o => o <| last_dot_time := now |>);
      print "."%char (Z.land flags (Z.lnot 2))
    else if is_dumb_terminal host then done_
    else
      c ← lift (at_ (L "-\|/") (Z.quot interval 1000000000 mod 4));
      print c (Z.lor flags 2).

Definition progress_bar_flush : report () :=
  o ← get;
  when (negb (progress_bar_needs_flush o =? 0))
    (modify (fun o => o <| progress_bar_needs_flush := 0 |>
       <| tty_out := tty_out o ++ (if is_dumb_terminal host then [newline] else ["013"; "027"; "["; "K"]%char) |>)).

Definition log_message_to_syslog (msg : str) : report () :=
  when (syslog_ident app) (modify (fun o => o <| syslog_lines := syslog_lines o ++ [msg] |>)).

(** logging_printf(), on the formatted text *)
Definition logging_printf (level : Z) (text : str) : report () :=
  let msg := create_filtered_message_string text in
  match msg with
  | [] => done_
  | _ =>
      _ ← when ((level <=? verbosity app) && bool_decide (file <> RealStdout))
            (_ ← progress_bar_flush; write (if level <? 0 then Stderr else RealStdout) (indent_spaces cfg ++ msg));
      let fd := if (level <? 0) && bool_decide (file = RealStdout) then Stderr else file in
      _ ← match current_output_format cfg with
          | yaml => write fd (indent_spaces cfg ++ msg)
          | _ => t ← log_timestamp; write fd (t ++ msg)
          end;
      when (level <? 0) (log_message_to_syslog msg)
  end.

Definition printf_line (level : Z) (text : str) : report () := logging_printf level (text ++ [newline]).

(** format_duration(MonotonicTimePoint): nothing for a time that is not set *)
Definition format_time_point (tp : Z) : outcome str :=
  if (tp =? 0) || (tp =? time_max) then Ret []
  else of_option (format_duration false (tp - current_test_starttime app)).

(** * The threads' logs *)

(** maybe_mmap_log() *)
Definition maybe_mmap_log (c : Common) : str := if messages_logged c =? 0 then [] else log_fd c.

(** munmap_and_truncate_log() *)
Definition clear_log (c : Common) : Common :=
  {| thread_state := thread_state c; log_fd := []; messages_logged := 0;
     data_bytes_logged := data_bytes_logged c; fail_time := fail_time c |}.
Definition munmap_and_truncate_log (thread : Z) (r : str) : report () :=
  match r with
  | [] => done_
  | _ => o ← get; s ← lift (update_thread thread clear_log (shm o)); modify (fun o => o <| shm := s |>)
  end.

(** The threads that a logger visits: the main threads of the slices, then the
    test threads. *)
Definition all_threads (nslices : Z) : report (list Z) :=
  o ← get; mret (snd <$> main_threads nslices (shm o) ++ test_threads (shm o)).

Definition thread_common (thread : Z) : report Common := o ← get; lift (thread_data thread (shm o)).

(** AbstractLogger::print_one_thread_messages(): the notice about test options
    also goes to the standard output. *)
Definition print_one_thread_messages (l : Logger) (fd : Fd) (r : str) (level : Z) : report Z :=
  o ← get;
  p ← lift (print_one_thread_messages cfg (skipInMainThread l) level r (warning_printed o));
  let '(text, lowest_level, warned) := p in
  _ ← write fd text;
  _ ← when (warned && negb (warning_printed o) && bool_decide (fd <> RealStdout)) (write RealStdout knobs_notice);
  _ ← modify (fun o => o <| warning_printed := warned |>);
  mret lowest_level.

(** doprint of print_thread_messages(), shared by the key-value and the TAP
    loggers: the header and the messages go to the log file, and what the
    verbosity allows to the standard output too. *)
Definition print_thread (header : Fd -> Z -> report ()) (stdout_header : Z -> report ())
    (messages : Fd -> str -> Z -> report Z) (thread : Z) : report () :=
  data ← thread_common thread;
  let r := maybe_mmap_log data in
  if bool_decide (r = []) && negb (has_failed data) && (verbosity app <? 3) then done_
  else
    _ ← header file thread;
    lowest_level ← messages file r INT_MAX;
    _ ← when ((lowest_level <=? verbosity app) && bool_decide (file <> RealStdout))
          (_ ← stdout_header thread; _ ← messages RealStdout r (verbosity app); done_);
    munmap_and_truncate_log thread r.

(** print_child_stderr_common() *)
Definition print_child_stderr_common (header : Fd -> report ()) : report () :=
  o ← get;
  let contents := stderr_log o in
  match contents with
  | [] => done_
  | _ =>
      _ ← header file;
      _ ← write file (print_content_indented cfg (L "    ") contents);
      _ ← when (bool_decide (file <> RealStdout) && (0 <? verbosity app))
            (_ ← header RealStdout; write RealStdout (print_content_indented cfg (L "    ") contents));
      modify (fun o => o <| stderr_log := [] |>)
  end.

(** get_skip_message(-1) *)
Definition init_skip_message : report str := c ← thread_common (-1); mret (get_skip_message (log_fd c)).

Definition cpu_at (cpu : Z) : report cpu_info := lift (at_ (cpus app) cpu).
Definition test_thread_at (cpu : Z) : report Test := o ← get; lift (at_ (tests (shm o)) cpu).

(** * KeyValuePairLogger *)

Section KeyValue.
Context (t : TestInfo) (l : Logger) (slices : list ChildExitStatus) (timestamp_prefix : str).

Definition kv_line (level : Z) (key value : str) : report () := printf_line level (test_id t ++ L "_" ++ key ++ L " = " ++ value).

(** print_thread_header(): the line of a main thread goes to the log file
    whatever [fd] is. *)
Definition kv_print_thread_header (prefix : str) (fd : Fd) (cpu : Z) : report () :=
  if cpu <? 0 then
    let cpu := - cpu - 1 in
    writeln file (timestamp_prefix ++ L "_messages_mainthread" ++ (if cpu =? 0 then [] else L "_" ++ to_string cpu) ++ L " = \")
  else
    info ← cpu_at cpu;
    thr ← test_thread_at cpu;
    time ← lift (format_time_point (fail_time (t_common thr)));
    let line key value := writeln fd (prefix ++ L "_" ++ key ++ value) in
    let thread := L "thread_" ++ to_string cpu in
    _ ← match time with
        | [] => line (thread ++ L "_loop_count = ") (to_string (inner_loop_count thr))
        | _ => _ ← line (thread ++ L "_fail_time = ") time;
               line (thread ++ L "_loop_count = ") (to_string (inner_loop_count_at_fail thr))
        end;
    let m := L "messages_" ++ thread in
    _ ← line (m ++ L "_cpu = ") (to_string (cpu_number info));
    _ ← line (m ++ L "_family_model_stepping = ")
          (fmt_0x 2 (family info) ++ L "-" ++ fmt_0x 2 (model info) ++ L "-" ++ fmt_0x 2 (stepping info));
    _ ← line (m ++ L "_topology = phys ")
          (to_string (package_id info) ++ L ", core " ++ to_string (core_id info) ++ L ", thr " ++ to_string (thread_id info));
    _ ← line (m ++ L "_microcode =") (if microcode info =? 0 then [] else L " 0x" ++ to_digits 16 (microcode info));
    _ ← line (m ++ L "_ppin =") (if ppin info =? 0 then [] else L " 0x" ++ to_digits 16 (ppin info));
    line m (L " = \").

(** format_and_print_message(fd, message, false) *)
Definition print_skip_reason (fd : Fd) (message : str) : report () :=
  text ← lift (of_option (format_and_print_message cfg message false)); write fd text.

Definition kv_print (tc : Z) : report () :=
  let q := LOG_LEVEL_QUIET in let v := LOG_LEVEL_VERBOSE in
  _ ← kv_line q (L "result") (match testResult l with Skipped => L "skip" | Passed => L "pass" | _ => L "fail" end);
  _ ← (if decide (testResult l = Skipped) then
         if negb (skipInMainThread l) then
           _ ← kv_line q (L "skip_category") (L "Runtime");
           kv_line q (L "skip_reason") (L "All CPUs skipped while executing 'test_run()' function, check log for details")
         else
           m ← init_skip_message;
           match m with
           | c :: message =>
               _ ← kv_line q (L "skip_category") (char_to_skip_category (i8 (code c)));
               _ ← logging_printf q (test_id t ++ L "_skip_reason = ");
               _ ← print_skip_reason RealStdout message;
               when (bool_decide (file <> RealStdout)) (print_skip_reason file message)
           | [] =>
               _ ← kv_line q (L "skip_category") (L "Unknown");
               kv_line q (L "skip_reason") (L "Unknown, check main thread message for details or use -vv option for more info")
           end
       else done_);
  _ ← kv_line (v 1) (L "seq") (to_string tc);
  _ ← kv_line (v 1) (L "quality") (default (L "(null)") (quality_string t));
  _ ← kv_line (v 1) (L "description") (test_description t);
  _ ← kv_line (v 1) (L "pass_count") (to_string (pc l));
  _ ← kv_line (v 2) (L "virtualized") (if hypervisor host then L "yes" else L "no");
  _ ← when (should_print_fail_info l)
        (_ ← kv_line (v 1) (L "fail_percent") (percent_text host (pc l) (len (cpus app)));
         _ ← kv_line (v 1) (L "random_generator_state") (seed app);
         mask ← lift (failure_mask app);
         _ ← kv_line (v 1) (L "fail_mask") mask;
         time ← lift (format_time_point (earliest_fail l));
         match time with [] => done_ | _ => kv_line (v 1) (L "earliest_fail_time") time end);
  threads ← all_threads (len slices);
  _ ← for_each (print_thread (kv_print_thread_header timestamp_prefix) (kv_print_thread_header (test_id t) RealStdout)
        (print_one_thread_messages l)) threads;
  print_child_stderr_common (fun fd =>
    writeln fd ((if decide (fd = file) then timestamp_prefix else test_id t) ++ L "_strerr = \")).
End KeyValue.

(** * TapFormatLogger *)

Section Tap.
Context (t : TestInfo) (l : Logger) (slices : list ChildExitStatus).

Definition crash_reason (st : ChildExitStatus) : str := strsignal host (extra st).

Definition sysexit_reason (st : ChildExitStatus) : str :=
  let e := extra st in
  if e =? 5 then L "the program is not installed." else if e =? 64 then L "command line usage error"
  else if e =? 65 then L "data format error" else if e =? 66 then L "cannot open input"
  else if e =? 67 then L "addressee unknown" else if e =? 68 then L "host name unknown"
  else if e =? 69 then L "service unavailable" else if e =? 70 then L "internal software error"
  else if e =? 71 then L "system error" else if e =? 72 then L "critical OS file missing"
  else if e =? 73 then L "can't create (user) output file" else if e =? 74 then L "input/output error"
  else if e =? 75 then L "temporary failure" else if e =? 76 then L "remote error in protocol"
  else if e =? 77 then L "permission denied" else if e =? 78 then L "configuration error"
  else if e =? 204 then L "failed to perform an action due to memory shortage."
  else L "unknown error".

Definition format_status_code : str :=
  let st := childExitStatus l in
  if decide (result st = OperatingSystemError) then sysexit_reason st
  else match crash_reason st with
       | [] => L "Child process died with signal " ++ to_string (extra st)
       | msg => msg
       end.

Definition fail_info_details : report str :=
  if negb (should_print_fail_info l) then mret []
  else
    time ← lift (format_time_point (earliest_fail l));
    mask ← lift (failure_mask app);
    let add_value (s separator : str) := match s with [] => L "null" | _ => separator ++ s ++ separator end in
    mret (L "  fail: { cpu-mask: " ++ add_value mask [quote] ++ L ", time-to-fail: " ++ add_value time [] ++
          L ", seed: " ++ add_value (seed app) [quote] ++ L "}" ++ [newline]).

Definition maybe_print_yaml_marker (fd : Fd) : report () :=
  o ← get;
  if (if decide (fd = file) then file_terminator o else stdout_terminator o) then done_
  else
    _ ← modify (fun o => if decide (fd = file) then o <| file_terminator := true |> else o <| stdout_terminator := true |>);
    date ← iso8601_time_now false false;
    _ ← writeln fd (L " ---" ++ [newline] ++ L "  info: {version: " ++ program_version host ++ L ", timestamp: " ++ date ++
          (if hypervisor host then L ", virtualized: true" else []) ++ L "}");
    fail_info ← fail_info_details;
    write fd fail_info.

(** print_thread_header(): the line of a main thread other than the first one
    has no newline. *)
Definition tap_print_thread_header (fd : Fd) (verbosity cpu : Z) : report () :=
  _ ← maybe_print_yaml_marker fd;
  if cpu <? 0 then
    let cpu := - cpu - 1 in
    if cpu =? 0 then writeln fd (L "  Main thread:") else write fd (L "  Main thread " ++ to_string cpu ++ L ":")
  else
    info ← cpu_at cpu;
    _ ← writeln fd (L "  Thread " ++ to_string cpu ++ L " on CPU " ++ to_string (cpu_number info) ++ L " (pkg " ++
          to_string (package_id info) ++ L ", core " ++ to_string (core_id info) ++ L ", thr " ++ to_string (thread_id info) ++
          L ", family/model/stepping " ++ fmt_0x 2 (family info) ++ L "-" ++ fmt_0x 2 (model info) ++ L "-" ++ fmt_0x 2 (stepping info) ++
          L ", microcode " ++ (if microcode info =? 0 then L "N/A" else fmt_alt_x (microcode info)) ++
          (if ppin info =? 0 then L ", PPIN N/A):" else L ", PPIN " ++ fmt_0x 16 (ppin info) ++ L "):"));
    when (1 <? verbosity)
      (thr ← test_thread_at cpu;
       time ← lift (format_time_point (fail_time (t_common thr)));
       match time with
       | [] => when (2 <? verbosity) (writeln fd (L "  - loop-count: " ++ to_string (inner_loop_count thr)))
       | _ => writeln fd (L "  - failed: { time: " ++ time ++ L ", loop-count: " ++ to_string (inner_loop_count_at_fail thr) ++ L " }")
       end).

(** The text after the name of the test. *)
Definition tap_extra : report str :=
  let qual := default [] (quality_string t) in
  match testResult l with
  | Skipped =>
      if skipInMainThread l then
        m ← init_skip_message;
        mret (qual ++ L "SKIP" ++ match m with
              | c :: message => L "(" ++ char_to_skip_category (i8 (code c)) ++ L " : " ++ message ++ L ")"
              | [] => L "(Unknown: check main thread message for details or use -vv option for more info)"
              end)
      else mret (qual ++ L "SKIP(Runtime: All CPUs skipped while executing 'test_run()' function, check log for details)")
  | Passed | Failed => mret qual
  | TimedOut => mret (qual ++ L "timed out")
  | CoreDumped => mret (qual ++ L "Core Dumped: " ++ format_status_code)
  | OutOfMemory | Killed => mret (qual ++ L "Killed: " ++ format_status_code)
  | Interrupted => mret (qual ++ L "Interrupted")
  | OperatingSystemError => mret (qual ++ L "Operating system error: " ++ format_status_code)
  end.

Definition okstring : str := match testResult l with Skipped | Passed => L "ok" | _ => L "not ok" end.

Definition tap_line (tc : Z) (extra : str) : str :=
  let line := okstring ++ L " " ++ fmt_d 3 tc ++ L " " ++ test_id t in
  match extra with
  | [] => line
  | _ => (if (length line <? 32)%nat then line ++ replicate (32 - length line) " "%char else line) ++ L " # " ++ extra
  end.

Definition tap_print (tc : Z) : report () :=
  extra ← tap_extra;
  _ ← printf_line (loglevel cfg l) (tap_line tc extra);
  threads ← all_threads (len slices);
  _ ← for_each (print_thread (fun fd => tap_print_thread_header fd INT_MAX) (tap_print_thread_header RealStdout (verbosity app))
        (print_one_thread_messages l)) threads;
  _ ← when (1 <=? verbosity app)
        (print_child_stderr_common (fun fd => _ ← maybe_print_yaml_marker fd; writeln fd (L "  stderr messages: |")));
  o ← get;
  _ ← when (file_terminator o) (writeln file (L " ---"));
  when (stdout_terminator o) (writeln RealStdout (L " ---")).
End Tap.

(** * YamlLogger *)

(** thread_core_spacing(): the widths of the columns. *)
Definition max_of (f : cpu_info -> Z) : Z := foldl (fun m c => if m <? f c then f c else m) 0 (cpus app).
Definition logical_spacing : nat :=
  1 + (if (9 <? max_of cpu_number)%Z then 1 else 0) + (if (99 <? max_of cpu_number)%Z then 1 else 0) +
  (if (999 <? max_of cpu_number)%Z then 1 else 0).
Definition core_spacing : nat :=
  1 + (if (9 <? max_of core_id)%Z then 1 else 0) + (if (99 <? max_of core_id)%Z then 1 else 0).

Definition thread_id_header (info : cpu_info) (verbosity : Z) : str :=
  let or_null (value : Z) (text : str) := if value =? 0 then L "null" else text in
  L "{ logical: " ++ fmt_d logical_spacing (cpu_number info) ++ L ", package: " ++ to_string (package_id info) ++
  L ", numa_node: " ++ to_string (numa_id info) ++ L ", module: " ++ fmt_d core_spacing (module_id info) ++
  L ", core: " ++ fmt_d core_spacing (core_id info) ++ L ", thread: " ++ to_string (thread_id info) ++
  (if 1 <? verbosity then
     L ", family: " ++ to_string (family info) ++ L ", model: " ++ fmt_alt_02x (model info) ++
     L ", stepping: " ++ to_string (stepping info) ++ L ", microcode: " ++ or_null (microcode info) (fmt_alt_x (microcode info)) ++
     L ", ppin: " ++ or_null (ppin info) (["034"%char] ++ fmt_0x 16 (ppin info) ++ ["034"%char])
   else []) ++ L " }".

Definition indented (s : str) : str := indent_spaces cfg ++ s.

Section Yaml.
Context (t : TestInfo) (l : Logger) (slices : list ChildExitStatus).

Definition maybe_print_messages_header (fd : Fd) : report () :=
  o ← get;
  if (if decide (fd = file) then file_header o else stdout_header o) then done_
  else
    _ ← writeln fd (indented (L "  threads:"));
    modify (fun o => if decide (fd = file) then o <| file_header := true |> else o <| stdout_header := true |>).

Definition maybe_print_slice_resource_usage (fd : Fd) (slice : Z) : report () :=
  st ← lift (at_ slices slice);
  let wanted := match result st with
                | Skipped | Passed | Failed | OperatingSystemError => 3 <=? verbosity app
                | Killed | CoreDumped | OutOfMemory | TimedOut | Interrupted => true
                end in
  when wanted
    (let runtime := endtime st - current_test_starttime app in
     let u := usage st in
     runtime_text ← lift (of_option (format_duration false runtime));
     _ ← writeln fd (indented (L "    runtime: " ++ runtime_text));
     utime ← lift (of_option (format_duration false (1000 * ru_utime u)));
     stime ← lift (of_option (format_duration false (1000 * ru_stime u)));
     writeln fd (indented (L "    resource-usage: { utime: " ++ utime ++ L ", stime: " ++ stime ++
       L ", cpuavg: " ++ cpuavg_text host (ru_utime u + ru_stime u) runtime ++ L ", maxrss: " ++ to_string (ru_maxrss u) ++
       L ", majflt: " ++ to_string (ru_majflt u) ++ L ", minflt: " ++ to_string (ru_minflt u) ++
       L ", voluntary-cs: " ++ to_string (ru_nvcsw u) ++ L ", involutary-cs: " ++ to_string (ru_nivcsw u) ++ L " }"))).

Definition yaml_print_thread_header (fd : Fd) (verbosity cpu : Z) : report () :=
  _ ← maybe_print_messages_header fd;
  _ ← (if cpu <? 0 then
         let cpu := - cpu - 1 in
         _ ← writeln fd (indented (L "  - thread: main" ++ (if cpu =? 0 then [] else L " " ++ to_string cpu)));
         maybe_print_slice_resource_usage fd cpu
       else
         info ← cpu_at cpu;
         _ ← writeln fd (indented (L "  - thread: " ++ to_string cpu));
         _ ← writeln fd (indented (L "    id: " ++ thread_id_header info verbosity));
         when (1 <? verbosity)
           (thr ← test_thread_at cpu;
            time ← lift (format_time_point (fail_time (t_common thr)));
            _ ← match time with
                | [] => when (2 <? verbosity) (writeln fd (indented (L "    loop-count: " ++ to_string (inner_loop_count thr))))
                | _ => _ ← writeln fd (indented (L "    state: failed"));
                       _ ← writeln fd (indented (L "    time-to-fail: " ++ time));
                       writeln fd (indented (L "    loop-count: " ++ to_string (inner_loop_count_at_fail thr)))
                end;
            match thread_freq host cpu with
            | Some freq => writeln fd (indented (L "    freq_mhz: " ++ freq))
            | None => done_
            end));
  writeln fd (indented (L "    messages:")).

(** print_test_knobs(): every key once; the number of records. *)
Fixpoint knob_lines (msgs : list (Z * str)) (seen : list str) : outcome (str * nat) :=
  match msgs with
  | [] => Ret ([], O)
  | (code, message) :: msgs =>
      if decide (log_type_from_code code = Some UsedKnobValue) then
        match span (fun c => negb (char_eqb c ":"%char)) message with
        | (key, _ :: _) =>
            if decide (key ∈ seen) then r ← knob_lines msgs seen; Ret (r.1, S r.2)
            else r ← knob_lines msgs (key :: seen); Ret (indented (L "    " ++ message ++ [newline]) ++ r.1, S r.2)
        | (_, []) => Ub
        end
      else knob_lines msgs seen
  end.
Definition print_test_knobs (fd : Fd) (r : str) : report nat :=
  k ← lift (knob_lines (read_messages r) []);
  _ ← match k.2 with O => done_ | S _ => write fd (indented (L "  test-options:" ++ [newline]) ++ k.1) end;
  mret k.2.

Definition yaml_format_and_print_message (level message : str) : option str :=
  if bool_decide (newline ∈ message) then
    let message := if decide (last message = Some newline) then take (length message - 1) message else message in
    Some (indented (L "    - level: " ++ level ++ [newline]) ++ indented (L "      text: |1" ++ [newline]) ++
          print_content_indented cfg (L "       ") message)
  else
    text ← print_content_single_line (L ", text: '") message (L "' }");
    Some (indented (L "    - { level: " ++ level) ++ text).

Definition format_and_print_skip_reason (fd : Fd) (message : str) : report () :=
  if bool_decide (newline ∈ message) then
    _ ← writeln fd (indented (L "  skip-reason: |1"));
    write fd (print_content_indented cfg (L "   ") message)
  else
    text ← lift (of_option (print_content_single_line (L "  skip-reason: '") message [quote]));
    write fd (indented text).

Definition levels : list str := [L "error"; L "warning"; L "info"; L "debug"].

(** print_one_thread_messages(): the text and the lowest level printed. *)
Fixpoint yaml_messages (level : Z) (msgs : list (Z * str)) (out : str) (lowest_level : Z) : outcome (str * Z) :=
  match msgs with
  | [] => Ret (out, lowest_level)
  | (code, message) :: msgs =>
      let message_level := level_from_code code in
      if (level <? message_level) || bool_decide (message = []) then yaml_messages level msgs out lowest_level
      else
        let lowest := if message_level <? lowest_level then message_level else lowest_level in
        match log_type_from_code code with
        | Some UserMessages =>
            name ← at_ levels message_level;
            text ← of_option (yaml_format_and_print_message name message);
            yaml_messages level msgs (out ++ text) lowest
        | Some Preformatted => yaml_messages level msgs (out ++ message) lowest
        | Some SkipMessages =>
            if skipInMainThread l then yaml_messages level msgs out lowest
            else
              m ← format_skip_message message;
              text ← of_option (yaml_format_and_print_message (L "skip") m);
              yaml_messages level msgs (out ++ text) lowest
        | Some UsedKnobValue =>
            _ ← assertion (log_test_knobs cfg);
            yaml_messages level msgs out lowest_level
        | None => yaml_messages level msgs out lowest
        end
  end.
Definition yaml_print_one_thread_messages (fd : Fd) (r : str) (level : Z) : report Z :=
  p ← lift (yaml_messages level (read_messages r) [] INT_MAX);
  _ ← write fd p.1;
  mret p.2.

Definition print_tests_header (at_start : bool) : report () :=
  o ← get;
  if decide (tests_header o = Both) then done_
  else
    _ ← when (bool_decide (tests_header o = NoHeader))
          (_ ← writeln file (indented (L "tests:")); modify (fun o => o <| tests_header := LogFileOnly |>));
    if at_start && (verbosity app =? 0) && bool_decide (file <> RealStdout) then done_
    else
      _ ← when (bool_decide (file <> RealStdout)) (writeln RealStdout (indented (L "tests:")));
      modify (fun o => o <| tests_header := Both |>).

(** print_result_line(): the bytes of the skip message of test_init(), when it
    was printed here. *)
Definition result_details (crashed coredumped : bool) (reason : str) : str :=
  let boolean (b : bool) := if b then L "true" else L "false" in
  let extra := u32 (extra (childExitStatus l)) in
  let code := if 4096 <? extra then fmt_alt_08x extra else to_string extra in
  L "  result-details: { crashed: " ++ boolean crashed ++ L ", core-dump: " ++ boolean coredumped ++
  L ", code: " ++ code ++ L ", reason: '" ++ reason ++ L "' }".

Definition print_result_line : report Z :=
  let level := loglevel cfg l in
  let result_line text := printf_line level (L "  result: " ++ text) in
  _ ← when ((level =? LOG_LEVEL_QUIET) && bool_decide (file <> RealStdout) && (verbosity app <? 1))
        (_ ← progress_bar_flush; _ ← print_tests_header false; writeln RealStdout (indented (L "- test: " ++ test_id t)));
  match testResult l with
  | Skipped =>
      _ ← result_line (L "skip");
      if negb (skipInMainThread l) then
        _ ← printf_line level (L "  skip-category: Runtime");
        _ ← printf_line level (L "  skip-reason: All CPUs skipped while executing 'test_run()' function, check log for details");
        mret 0
      else
        m ← init_skip_message;
        match m with
        | c :: message =>
            _ ← printf_line level (L "  skip-category: " ++ char_to_skip_category (i8 (code c)));
            _ ← when ((level <=? verbosity app) && bool_decide (file <> RealStdout)) (format_and_print_skip_reason RealStdout message);
            _ ← format_and_print_skip_reason file message;
            mret (len m + 2)
        | [] =>
            _ ← printf_line level (L "  skip-category: Unknown");
            _ ← printf_line level (L "  skip-reason: Unknown, check main thread message for details or use -vv option for more info");
            mret 0
        end
  | Passed => _ ← result_line (L "pass"); mret 0
  | Failed => _ ← result_line (L "fail"); mret 0
  | TimedOut => _ ← result_line (L "timed out"); mret 0
  | Interrupted => _ ← result_line (L "interrupted"); mret 0
  | OperatingSystemError =>
      _ ← result_line (L "operating system error");
      _ ← printf_line level (result_details false false (L "Operating system error: " ++ sysexit_reason (childExitStatus l)));
      mret 0
  | CoreDumped | OutOfMemory | Killed =>
      _ ← result_line (L "crash");
      _ ← printf_line level (result_details true (bool_decide (testResult l = CoreDumped)) (crash_reason (childExitStatus l)));
      mret 0
  end.

(** get_current_time() *)
Definition get_current_time : report str :=
  elapsed ← elapsed_runtime;
  let us := Z.quot (elapsed.1 * 1000000000 + elapsed.2) 1000 in
  let ms := Z.quot us 1000 in
  date ← iso8601_time_now false false;
  mret (L "{ elapsed: " ++ fmt_d 6 ms ++ L "." ++ fmt_0d 3 (us - ms * 1000) ++ L ", now: !!timestamp '" ++ date ++ L "' }").

(** doprint of print() *)
Definition yaml_print_thread (init_skip_message_bytes thread : Z) : report () :=
  data ← thread_common thread;
  let r := maybe_mmap_log data in
  if (len r - (if thread <? 0 then init_skip_message_bytes else 0) =? 0) && negb (has_failed data) && (verbosity app <? 3)
  then munmap_and_truncate_log thread r
  else
    _ ← yaml_print_thread_header file INT_MAX thread;
    lowest_level ← yaml_print_one_thread_messages file r INT_MAX;
    _ ← when ((lowest_level <=? verbosity app) && bool_decide (file <> RealStdout))
          (_ ← yaml_print_thread_header RealStdout (verbosity app) thread;
           _ ← yaml_print_one_thread_messages RealStdout r (verbosity app); done_);
    munmap_and_truncate_log thread r.

Definition yaml_print : report () :=
  init_skip_message_bytes ← print_result_line;
  _ ← when (should_print_fail_info l) (text ← fail_info_details l; logging_printf LOG_LEVEL_QUIET text);
  time ← get_current_time;
  _ ← printf_line (LOG_LEVEL_VERBOSE 1) (L "  time-at-end:   " ++ time);
  duration ← lift (of_option (format_duration false (now app - current_test_starttime app)));
  _ ← printf_line (LOG_LEVEL_VERBOSE 1) (L "  test-runtime: " ++ duration);
  _ ← match average_freq host with
      | Some freq => printf_line (LOG_LEVEL_VERBOSE 1) (L "  avg-freq-mhz: " ++ freq)
      | None => done_
      end;
  _ ← when (log_test_knobs cfg)
        (main ← thread_common (-1);
         match maybe_mmap_log main with
         | [] => done_
         | r => count ← print_test_knobs file r;
                when (negb (Nat.eqb count 0) && bool_decide (file <> RealStdout) && (1 <=? verbosity app))
                  (_ ← print_test_knobs RealStdout r; done_)
         end);
  threads ← all_threads (len slices);
  _ ← for_each (yaml_print_thread init_skip_message_bytes) threads;
  print_child_stderr_common (fun fd => writeln fd (indented (L "  stderr messages: |"))).
End Yaml.

(** * A test's output *)

(** logging_init(): before a test. *)
Definition logging_init (t : TestInfo) : report () :=
  let v := LOG_LEVEL_VERBOSE in
  _ ← when (verbosity app <=? 0) progress_bar_update;
  match current_output_format cfg with
  | key_value | tap =>
      _ ← printf_line (v 2) (L "# Executing test " ++ test_id t ++ L " '" ++ test_description t ++ L "'");
      printf_line (v 2) (L "# Seed: " ++ seed app ++ L " ")
  | yaml =>
      _ ← printf_line (v 1) (L "- test: " ++ test_id t);
      _ ← printf_line (v 3) (L "  details: { quality: " ++ default (L "(null)") (quality_string t) ++ L ", description: " ++
            ["034"%char] ++ test_description t ++ ["034"%char] ++ L " }");
      _ ← printf_line (v 3) (L "  state: { seed: '" ++ seed app ++ L "', iteration: " ++ to_string (Z.abs (current_iteration_count app)) ++
            L ", retry: " ++ (if current_iteration_count app <? 0 then L "true" else L "false") ++ L " }");
      time ← get_current_time;
      printf_line (v 2) (L "  time-at-start: " ++ time)
  | no_output => done_
  end.

(** logging_print_results(): the logger is built, prints, and gives the result.
    Its own flags start afresh. *)
Definition fresh_logger (o : Out) : Out :=
  o <| file_terminator := false |> <| stdout_terminator := false |> <| file_header := false |> <| stdout_header := false |>.

Definition print_results (t : TestInfo) (tc : Z) (status : list ChildExitStatus) : report TestResult :=
  o ← get;
  r ← lift (make_logger cfg (now app) status (shm o));
  let '(l, s) := r in
  _ ← modify (fun o => fresh_logger (o <| shm := s |>));
  _ ← match current_output_format cfg with
      | key_value => prefix ← log_timestamp; kv_print t l status (prefix ++ test_id t) tc
      | tap => tap_print t l status tc
      | yaml => yaml_print t l status
      | no_output => done_
      end;
  mret (testResult l).
End Loggers.
