(* ===== verification/ReportProofs.v ===== *)
(** What the loggers of Report.v guarantee: output is only ever appended, the
    verdict that is printed is the one that is returned, every thread's log is
    emptied, and the log file of a YAML run does not depend on the verbosity.

    The proofs go through one relation, [later], that every function of the
    loggers respects: text is appended and threads' logs are only cleared. *)

From S2P Require Import Prelude CStdlib Chrono Results ThreadData Logging CpuInfo Report.

(** * What every function preserves *)

Definition text_of (fd : Fd) (o : Out) : str :=
  match fd with LogFile => log_file o | RealStdout => std_out o | Stderr => std_err o end.

(** A thread's shared data before and after some output: unchanged but for the
    log, which may have been cleared. *)
Definition maybe_cleared (c c' : Common) : Prop := c' = c \/ c' = clear_log c.

Definition later (o o' : Out) : Prop :=
  (forall fd, text_of fd o `prefix_of` text_of fd o') /\
  (forall thread, match thread_data thread (shm o), thread_data thread (shm o') with
                  | Ret c, Ret c' => maybe_cleared c c'
                  | Ret _, _ | _, Ret _ => False
                  | _, _ => True
                  end).

Lemma maybe_cleared_trans a b c : maybe_cleared a b -> maybe_cleared b c -> maybe_cleared a c.
Proof. unfold maybe_cleared. intros [-> | ->] [-> | ->]; auto. Qed.

#[export] Instance later_preorder : PreOrder later.
Proof.
  split.
  - intros o. split; [done|]. intros thread. destruct (thread_data thread (shm o)); first [by left | done].
  - intros o1 o2 o3 [Ht1 Hc1] [Ht2 Hc2]. split; [intros fd; exact (transitivity (Ht1 fd) (Ht2 fd))|].
    intros thread. specialize (Hc1 thread). specialize (Hc2 thread).
    destruct (thread_data thread (shm o1)), (thread_data thread (shm o2)), (thread_data thread (shm o3));
      try done; eauto using maybe_cleared_trans.
Qed.

Lemma later_data thread o o' c :
  later o o' -> thread_data thread (shm o) = Ret c -> exists c', thread_data thread (shm o') = Ret c' /\ maybe_cleared c c'.
Proof.
  intros [_ H] Hc. specialize (H thread). rewrite Hc in H. destruct (thread_data thread (shm o')); try done; eauto.
Qed.

Lemma later_same o o' : log_file o' = log_file o -> std_out o' = std_out o -> std_err o' = std_err o -> shm o' = shm o -> later o o'.
Proof.
  intros Hl Ho He Hs. split.
  - intros []; simpl; by rewrite ?Hl, ?Ho, ?He.
  - intros thread. rewrite Hs. destruct (thread_data thread (shm o)); first [by left | done].
Qed.

(** * Running *)

Definition runs {A} (R : Out -> Out -> Prop) (m : report A) : Prop :=
  forall o a o', m o = Ret (a, o') -> R o o'.

Lemma report_bind_ret {A B} (m : report A) (f : A -> report B) o b o' :
  (m ≫= f) o = Ret (b, o') -> exists a o1, m o = Ret (a, o1) /\ f a o1 = Ret (b, o').
Proof. intros H. apply outcome_bind_ret in H as ([a o1] & Ha & H). eauto. Qed.

Create HintDb runs.

Section Runs.
Context (R : Out -> Out -> Prop) `{!PreOrder R}.

Lemma runs_ret {A} (a : A) : runs R (mret a).
Proof using All. intros o b o' [= <- <-]. reflexivity. Qed.
Lemma runs_done : runs R done_.
Proof using All. apply runs_ret. Qed.
Lemma runs_get : runs R get.
Proof using All. intros o b o' [= <- <-]. reflexivity. Qed.
Lemma runs_lift {A} (m : outcome A) : runs R (lift m).
Proof using All. intros o b o' H. unfold lift in H. inv_ret. reflexivity. Qed.
Lemma runs_modify f : (forall o, R o (f o)) -> runs R (modify f).
Proof using Type. intros H o b o' [= <- <-]. apply H. Qed.
Lemma runs_bind {A B} (m : report A) (f : A -> report B) : runs R m -> (forall a, runs R (f a)) -> runs R (m ≫= f).
Proof using All.
  intros Hm Hf o b o' H. apply report_bind_ret in H as (a & o1 & Ha & H). exact (transitivity (Hm _ _ _ Ha) (Hf _ _ _ _ H)).
Qed.
Lemma runs_when b m : runs R m -> runs R (when b m).
Proof using All. intros H. destruct b; [done|apply runs_done]. Qed.
Lemma runs_for_each {A} (f : A -> report ()) l : (forall x, runs R (f x)) -> runs R (for_each f l).
Proof using All. intros Hf. induction l; simpl; [apply runs_done|by apply runs_bind]. Qed.
End Runs.
#[export] Hint Resolve runs_ret runs_done runs_get runs_lift runs_when runs_for_each : runs.

(** Takes a report function apart, down to the functions with a lemma. *)
Ltac runs_tac :=
  repeat first
    [ progress intros
    | solve [eauto with runs typeclass_instances]
    | apply runs_bind; [exact _| |]
    | apply runs_when; [exact _|]
    | apply runs_for_each; [exact _|]
    | match goal with |- runs _ (match ?x with _ => _ end) => destruct x end
    | match goal with |- runs _ (let '_ := ?x in _) => destruct x end
    | progress cbv zeta beta ].

Lemma later_write fd s : runs later (write fd s).
Proof.
  apply runs_modify. intros o. split.
  - intros fd'. destruct fd, fd'; simpl; (done || by apply prefix_app_r).
  - intros thread. destruct fd; simpl; destruct (thread_data thread (shm o)); first [by left | done].
Qed.
#[export] Hint Resolve later_write : runs.
Lemma later_writeln fd s : runs later (writeln fd s).
Proof. apply later_write. Qed.
Lemma later_modify_same f :
  (forall o, log_file (f o) = log_file o /\ std_out (f o) = std_out o /\ std_err (f o) = std_err o /\ shm (f o) = shm o) ->
  runs later (modify f).
Proof. intros H. apply runs_modify. intros o. destruct (H o) as (?&?&?&?). by apply later_same. Qed.
#[export] Hint Resolve later_writeln : runs.
#[export] Hint Extern 2 (runs later (modify _)) =>
  apply later_modify_same; intros; simpl; repeat case_decide; done : runs.

Section Later.
Context (host : Host) (app : App).

Lemma later_log_timestamp : runs later (log_timestamp host).
Proof using Type. unfold log_timestamp, elapsed_runtime. runs_tac. Qed.
Hint Resolve later_log_timestamp : runs.

Lemma later_progress_bar_flush : runs later (progress_bar_flush host).
Proof using Type. unfold progress_bar_flush. runs_tac. Qed.
Lemma later_progress_bar_update : runs later (progress_bar_update host).
Proof using Type. unfold progress_bar_update. runs_tac. Qed.
Hint Resolve later_progress_bar_flush later_progress_bar_update : runs.

Lemma later_iso8601 b f : runs later (iso8601_time_now host b f).
Proof using Type. unfold iso8601_time_now. runs_tac. Qed.
Hint Resolve later_iso8601 : runs.

Lemma later_logging_printf level text : runs later (logging_printf host app level text).
Proof using Type. unfold logging_printf, log_message_to_syslog. runs_tac. Qed.
Hint Resolve later_logging_printf : runs.
Lemma later_printf_line level text : runs later (printf_line host app level text).
Proof using Type. apply later_logging_printf. Qed.
Hint Resolve later_printf_line : runs.

Lemma later_munmap thread r : runs later (munmap_and_truncate_log thread r).
Proof using Type.
  intros o a o' H. destruct r as [|c r]; [injection H as _ <-; reflexivity|]. simpl in H.
  apply report_bind_ret in H as (o1 & o2 & [= <- <-] & H). apply report_bind_ret in H as (s & o3 & Hs & H).
  unfold lift in Hs. inv_ret. injection H as <- <-.
  split; [by intros []|]. intros thread'. simpl. rewrite (thread_data_update _ thread' _ _ _ Ha).
  case_decide; [subst thread'|]; destruct (thread_data _ (shm o3)); simpl; first [by left | by right | done].
Qed.
Hint Resolve later_munmap : runs.

Lemma later_print_one l fd r level : runs later (print_one_thread_messages app l fd r level).
Proof using Type. unfold print_one_thread_messages. runs_tac. Qed.
Hint Resolve later_print_one : runs.

Lemma later_cpu_at cpu : runs later (cpu_at app cpu).
Proof using Type. unfold cpu_at. runs_tac. Qed.
Lemma later_test_thread_at cpu : runs later (test_thread_at cpu).
Proof using Type. unfold test_thread_at. runs_tac. Qed.
Lemma later_thread_common thread : runs later (thread_common thread).
Proof using Type. unfold thread_common. runs_tac. Qed.
Lemma later_all_threads n : runs later (all_threads n).
Proof using Type. unfold all_threads. runs_tac. Qed.
Hint Resolve later_cpu_at later_test_thread_at later_thread_common later_all_threads : runs.
Lemma later_init_skip_message : runs later init_skip_message.
Proof using Type. unfold init_skip_message. runs_tac. Qed.
Hint Resolve later_init_skip_message : runs.

Lemma later_print_thread header stdout_header messages thread :
  (forall fd thread, runs later (header fd thread)) -> (forall thread, runs later (stdout_header thread)) ->
  (forall fd r level, runs later (messages fd r level)) ->
  runs later (print_thread app header stdout_header messages thread).
Proof using Type. intros. unfold print_thread. runs_tac. Qed.

Lemma later_print_stderr header : (forall fd, runs later (header fd)) -> runs later (print_child_stderr_common app header).
Proof using Type. intros. unfold print_child_stderr_common. runs_tac. Qed.

Lemma later_kv_line t level key value : runs later (kv_line host app t level key value).
Proof using Type. apply later_logging_printf. Qed.
Lemma later_kv_header prefix p fd cpu : runs later (kv_print_thread_header app prefix p fd cpu).
Proof using Type. unfold kv_print_thread_header. runs_tac. Qed.
Lemma later_skip_reason fd m : runs later (print_skip_reason app fd m).
Proof using Type. unfold print_skip_reason. runs_tac. Qed.
Hint Resolve later_kv_line later_kv_header later_skip_reason : runs.

Lemma later_tap_marker l fd : runs later (maybe_print_yaml_marker host app l fd).
Proof using Type. unfold maybe_print_yaml_marker, fail_info_details. runs_tac. Qed.
Hint Resolve later_tap_marker : runs.
Lemma later_tap_header l fd v cpu : runs later (tap_print_thread_header host app l fd v cpu).
Proof using Type. unfold tap_print_thread_header. runs_tac. Qed.
Lemma later_tap_extra t l : runs later (tap_extra host app t l).
Proof using Type. unfold tap_extra. runs_tac. Qed.
Hint Resolve later_tap_header later_tap_extra : runs.

Lemma later_yaml_header slices fd v cpu : runs later (yaml_print_thread_header host app slices fd v cpu).
Proof using Type. unfold yaml_print_thread_header, maybe_print_messages_header, maybe_print_slice_resource_usage. runs_tac. Qed.
Lemma later_yaml_messages l fd r level : runs later (yaml_print_one_thread_messages app l fd r level).
Proof using Type. unfold yaml_print_one_thread_messages. runs_tac. Qed.
Lemma later_knobs fd r : runs later (print_test_knobs app fd r).
Proof using Type. unfold print_test_knobs. runs_tac. Qed.
Lemma later_yaml_skip_reason fd m : runs later (format_and_print_skip_reason app fd m).
Proof using Type. unfold format_and_print_skip_reason. runs_tac. Qed.
Lemma later_tests_header b : runs later (print_tests_header app b).
Proof using Type. unfold print_tests_header. runs_tac. Qed.
Lemma later_get_current_time : runs later (get_current_time host).
Proof using Type. unfold get_current_time, elapsed_runtime. runs_tac. Qed.
Lemma later_fail_info l : runs later (fail_info_details app l).
Proof using Type. unfold fail_info_details. runs_tac. Qed.
Hint Resolve later_yaml_header later_yaml_messages later_knobs later_yaml_skip_reason later_tests_header
  later_get_current_time later_fail_info : runs.
Lemma later_yaml_thread l slices n thread : runs later (yaml_print_thread host app l slices n thread).
Proof using Type. unfold yaml_print_thread. runs_tac. Qed.
Hint Resolve later_yaml_thread : runs.
End Later.
#[export] Hint Resolve later_progress_bar_flush later_progress_bar_update later_log_timestamp later_iso8601 later_logging_printf later_printf_line later_munmap later_print_one
  later_cpu_at later_test_thread_at later_thread_common later_all_threads later_init_skip_message later_print_thread
  later_print_stderr later_kv_line later_kv_header later_skip_reason later_tap_marker later_tap_header later_tap_extra
  later_yaml_header later_yaml_messages later_knobs later_yaml_skip_reason later_tests_header later_get_current_time
  later_fail_info later_yaml_thread : runs.

(** * The threads' logs are emptied *)

Definition emptied (thread : Z) (o : Out) : Prop := exists c, thread_data thread (shm o) = Ret c /\ log_fd c = [].
(** messages_logged tells whether there is a log to read. *)
Definition counted (thread : Z) (s : Shm) : Prop :=
  exists c, thread_data thread s = Ret c /\ (messages_logged c = 0 -> log_fd c = []).

Lemma emptied_later thread o o' : later o o' -> emptied thread o -> emptied thread o'.
Proof.
  intros Hl (c & Hc & He). destruct (later_data _ _ _ _ Hl Hc) as (c' & Hc' & [-> | ->]); [by exists c|].
  by eexists.
Qed.
Lemma counted_later thread o o' : later o o' -> counted thread (shm o) -> counted thread (shm o').
Proof.
  intros Hl (c & Hc & He). destruct (later_data _ _ _ _ Hl Hc) as (c' & Hc' & [-> | ->]); [by exists c|].
  by eexists.
Qed.

Lemma munmap_empties thread c r o a o' :
  thread_data thread (shm o) = Ret c -> (r = [] -> log_fd c = []) ->
  munmap_and_truncate_log thread r o = Ret (a, o') -> emptied thread o'.
Proof.
  intros Hc He H. destruct r as [|x r]; [injection H as _ <-; exists c; auto|]. simpl in H.
  apply report_bind_ret in H as (o1 & o2 & [= <- <-] & H). apply report_bind_ret in H as (s & o3 & Hs & H).
  unfold lift in Hs. inv_ret. injection H as <- <-. exists (clear_log c). split; [|done].
  simpl. by rewrite (thread_data_update _ thread _ _ _ Ha), decide_True, Hc by done.
Qed.

(** The end of doprint: whatever was printed for a thread, its log is empty. *)
Definition empties {A} (thread : Z) (r : str) (m : report A) : Prop :=
  forall o c a o', thread_data thread (shm o) = Ret c -> (r = [] -> log_fd c = []) -> m o = Ret (a, o') -> emptied thread o'.

Lemma empties_munmap thread r : empties thread r (munmap_and_truncate_log thread r).
Proof. intros o c a o' Hc He H. by eapply munmap_empties. Qed.
Lemma empties_done thread r : r = [] -> empties thread r done_.
Proof. intros -> o c a o' Hc He [= <- <-]. exists c. auto. Qed.
Lemma empties_bind {A B} thread r (m : report A) (f : A -> report B) :
  runs later m -> (forall a, empties thread r (f a)) -> empties thread r (m ≫= f).
Proof.
  intros Hm Hf o c b o' Hc He H. apply report_bind_ret in H as (a & o1 & Ha & H). apply Hm in Ha.
  destruct (later_data _ _ _ _ Ha Hc) as (c' & Hc' & Hcl). eapply Hf, H; [done|]. destruct Hcl as [-> | ->]; auto.
Qed.

Lemma empties_thread {A} (m : Common -> report A) thread o a o' :
  (forall c, empties thread (maybe_mmap_log c) (m c)) -> counted thread (shm o) ->
  (data ← thread_common thread; m data) o = Ret (a, o') -> emptied thread o'.
Proof.
  intros Hm (c & Hc & Hcount) H. apply report_bind_ret in H as (c' & o1 & Hd & H).
  apply report_bind_ret in Hd as (o2 & o3 & [= <- <-] & Hd). unfold lift in Hd. rewrite Hc in Hd. injection Hd as <- <-.
  eapply Hm, H; [done|]. unfold maybe_mmap_log. destruct (Z.eqb_spec (messages_logged c) 0); auto.
Qed.

Lemma for_each_empties (f : Z -> report ()) threads :
  (forall thread, runs later (f thread)) ->
  (forall thread o a o', counted thread (shm o) -> f thread o = Ret (a, o') -> emptied thread o') ->
  forall o a o', (forall thread, thread ∈ threads -> counted thread (shm o)) ->
  for_each f threads o = Ret (a, o') -> forall thread, thread ∈ threads -> emptied thread o'.
Proof.
  intros Hl He. induction threads as [|x threads IH]; intros o a o' Hc H thread Hin; [by apply not_elem_of_nil in Hin|].
  apply report_bind_ret in H as (b & o1 & Hx & H).
  apply elem_of_cons in Hin as [-> | Hin].
  - eapply emptied_later; [eapply (runs_for_each later f threads Hl), H|].
    eapply He; [|exact Hx]. apply Hc. set_solver.
  - eapply IH, Hin; [|exact H]. intros th Hth. eapply counted_later; [by eapply Hl|]. apply Hc. set_solver.
Qed.

Lemma all_threads_elem n s thread : 0 <= n ->
  thread ∈ snd <$> main_threads n s ++ test_threads s <-> valid_thread thread s /\ - n <= thread.
Proof.
  intros Hn0. rewrite fmap_app, elem_of_app. unfold main_threads, test_threads, valid_thread, len.
  rewrite !list_elem_of_fmap. split.
  - intros [([c t] & -> & H)|([c t] & -> & H)]; apply elem_of_lookup_imap in H as (i & x & [= -> ->] & H);
      [apply lookup_take_Some in H as [H ?]|]; apply lookup_lt_Some in H; simpl; lia.
  - intros [Hv Hn]. destruct (Z.ltb_spec thread 0).
    + left. destruct (lookup_lt_is_Some_2 (take (Z.to_nat n) (mains s)) (Z.to_nat (-1 - thread))) as [m Hm].
      { rewrite length_take. lia. }
      exists (m_common m, thread). split; [done|]. apply elem_of_lookup_imap. eexists _, _. split; [|exact Hm]. f_equal. lia.
    + right. destruct (lookup_lt_is_Some_2 (tests s) (Z.to_nat thread)) as [m Hm]; [lia|].
      exists (t_common m, thread). split; [done|]. apply elem_of_lookup_imap. eexists _, _. split; [|exact Hm]. f_equal. lia.
Qed.

(** What the loggers do with the threads: every visited thread's log is empty
    in the end. *)
Definition all_counted (s : Shm) : Prop := forall thread, valid_thread thread s -> counted thread s.
Definition visits {A} (n : Z) (m : report A) : Prop :=
  forall o a o', all_counted (shm o) -> m o = Ret (a, o') ->
  forall thread, valid_thread thread (shm o) -> - n <= thread -> emptied thread o'.

Lemma later_valid thread o o' : later o o' -> valid_thread thread (shm o) <-> valid_thread thread (shm o').
Proof.
  intros [_ H]. rewrite !thread_data_valid. specialize (H thread).
  destruct (thread_data thread (shm o)), (thread_data thread (shm o')); try done; split; eauto; by intros [].
Qed.

Lemma visits_bind {A B} n (m : report A) (f : A -> report B) :
  runs later m -> (forall a, visits n (f a)) -> visits n (m ≫= f).
Proof.
  intros Hm Hf o b o' Hc H thread Hv. apply report_bind_ret in H as (a & o1 & Ha & H). apply Hm in Ha.
  eapply Hf; [|exact H|by apply (later_valid _ _ _ Ha)].
  intros th Hth. eapply counted_later; [exact Ha|]. by apply Hc, (later_valid _ _ _ Ha).
Qed.

Lemma visits_threads n (f : Z -> report ()) {B} (after : report B) :
  0 <= n -> runs later after -> (forall thread, runs later (f thread)) ->
  (forall thread o u o', counted thread (shm o) -> f thread o = Ret (u, o') -> emptied thread o') ->
  visits n (threads ← all_threads n; _ ← for_each f threads; after).
Proof.
  intros Hn0 Ha Hf He o b o' Hc H thread Hv Hn.
  apply report_bind_ret in H as (threads & o2 & [= <- <-] & H).
  apply report_bind_ret in H as (u & o3 & Hu & H). apply Ha in H.
  eapply emptied_later; [exact H|].
  eapply (for_each_empties f); [by auto|by intros; eapply He| |exact Hu|].
  - intros th (Hth & _)%all_threads_elem; auto.
  - by apply all_threads_elem.
Qed.

Section Emptied.
Context (host : Host) (app : App).

Lemma print_thread_empties header stdout_header messages thread o u o' :
  (forall fd thread, runs later (header fd thread)) -> (forall thread, runs later (stdout_header thread)) ->
  (forall fd r level, runs later (messages fd r level)) ->
  counted thread (shm o) -> print_thread app header stdout_header messages thread o = Ret (u, o') -> emptied thread o'.
Proof using Type.
  intros Hh Hs Hm. apply empties_thread. intros c. case_match eqn:Hb.
  - apply empties_done. by apply andb_prop in Hb as [[Hb _]%andb_prop _]; apply bool_decide_eq_true in Hb.
  - repeat (apply empties_bind; [runs_tac|intros]). apply empties_munmap.
Qed.

Lemma yaml_print_thread_empties l slices n thread o u o' :
  counted thread (shm o) -> yaml_print_thread host app l slices n thread o = Ret (u, o') -> emptied thread o'.
Proof using Type.
  apply empties_thread. intros c. case_match; [apply empties_munmap|].
  repeat (apply empties_bind; [runs_tac|intros]). apply empties_munmap.
Qed.

Lemma kv_print_visits t l slices prefix tc : visits (len slices) (kv_print host app t l slices prefix tc).
Proof using Type.
  unfold kv_print. cbv zeta. do 8 (apply visits_bind; [runs_tac|intros ?]). apply visits_threads; [unfold len; lia| | |].
  - runs_tac.
  - runs_tac.
  - intros thread o u o'. apply print_thread_empties; runs_tac.
Qed.

Lemma tap_print_visits t l slices tc : visits (len slices) (tap_print host app t l slices tc).
Proof using Type.
  unfold tap_print. do 2 (apply visits_bind; [runs_tac|intros]). apply visits_threads; [unfold len; lia| | |].
  - runs_tac.
  - runs_tac.
  - intros thread o u o'. apply print_thread_empties; runs_tac.
Qed.

Lemma yaml_print_visits t l slices : visits (len slices) (yaml_print host app t l slices).
Proof using Type.
  unfold yaml_print, print_result_line. cbv zeta. do 8 (apply visits_bind; [runs_tac|intros ?]). apply visits_threads; [unfold len; lia| | |].
  - runs_tac.
  - runs_tac.
  - intros thread o u o'. apply yaml_print_thread_empties.
Qed.
End Emptied.

(** * The verdict *)

(** Somewhere in what was appended to the file there is this text. *)
Definition printed (fd : Fd) (text : str) (o o' : Out) : Prop :=
  exists pre post, text_of fd o' = text_of fd o ++ pre ++ text ++ post.

Definition prints {A} (fd : Fd) (text : str) (m : report A) : Prop :=
  forall o a o', m o = Ret (a, o') -> printed fd text o o'.

Lemma prints_before {A B} fd text (m : report A) (f : A -> report B) :
  prints fd text m -> (forall a, runs later (f a)) -> prints fd text (m ≫= f).
Proof.
  intros Hm Hf o b o' H. apply report_bind_ret in H as (a & o1 & Ha & H).
  destruct (Hm _ _ _ Ha) as (pre & post & Heq). apply Hf in H as [H _]. destruct (H fd) as [rest Hr].
  exists pre, (post ++ rest). by rewrite Hr, Heq, <- !app_assoc.
Qed.
Lemma prints_after {A B} fd text (m : report A) (f : A -> report B) :
  runs later m -> (forall a, prints fd text (f a)) -> prints fd text (m ≫= f).
Proof.
  intros Hm Hf o b o' H. apply report_bind_ret in H as (a & o1 & Ha & H).
  destruct (Hf _ _ _ _ H) as (pre & post & Heq). apply Hm in Ha as [Ha _]. destruct (Ha fd) as [rest Hr].
  exists (rest ++ pre), post. by rewrite Heq, Hr, <- !app_assoc.
Qed.

Definition filtered := create_filtered_message_string.

Lemma prints_write fd a b c : prints fd b (write fd (a ++ b ++ c)).
Proof. intros o u o' [= <- <-]. exists a, c. by destruct fd. Qed.

(** A line that is not an error message always goes to the log file. *)
Lemma prints_logging_printf host app level a b c :
  0 <= level -> b <> [] -> prints (file_log_fd app) (filtered b) (logging_printf host app level (a ++ b ++ c)).
Proof.
  intros Hl Hb. unfold logging_printf, filtered, create_filtered_message_string. rewrite !map_app.
  destruct (map filter_char a ++ map filter_char b ++ map filter_char c) as [|x m] eqn:E.
  { apply app_eq_nil in E as [_ E]. apply app_eq_nil in E as [E _]. by apply map_eq_nil in E. }
  rewrite <- E. clear E x m. rewrite (proj2 (Z.ltb_ge level 0) Hl). simpl.
  apply prints_after; [runs_tac|intros _]. apply prints_before; [|runs_tac].
  destruct (current_output_format _); try (apply prints_after; [runs_tac|intros ?]); rewrite app_assoc; apply prints_write.
Qed.

(** What each format says of a result. *)
Definition verdict_line (fmt : OutputFormat) (t : TestInfo) (tc : Z) (r : TestResult) : str :=
  match fmt with
  | key_value => test_id t ++ L "_result = " ++ match r with Skipped => L "skip" | Passed => L "pass" | _ => L "fail" end ++ [newline]
  | tap => match r with Skipped | Passed => L "ok" | _ => L "not ok" end ++ L " " ++ fmt_d 3 tc ++ L " " ++ test_id t
  | yaml => L "  result: " ++ match r with
            | Skipped => L "skip" | Passed => L "pass" | Failed => L "fail" | TimedOut => L "timed out"
            | Interrupted => L "interrupted" | OperatingSystemError => L "operating system error"
            | CoreDumped | OutOfMemory | Killed => L "crash"
            end ++ [newline]
  | no_output => []
  end.

Lemma loglevel_nonneg cfg l : 0 <= loglevel cfg l.
Proof. unfold loglevel, LOG_LEVEL_QUIET, LOG_LEVEL_VERBOSE. repeat case_match; lia. Qed.

Section Verdict.
Context (host : Host) (app : App) (t : TestInfo) (l : Logger) (slices : list ChildExitStatus) (tc : Z).
Abbreviation verdict fmt := (filtered (verdict_line fmt t tc (testResult l))).

Lemma prints_line level text : 0 <= level -> prints (file_log_fd app) (filtered (text ++ [newline])) (printf_line host app level text).
Proof using Type.
  intros Hl. pose proof (prints_logging_printf host app level [] (text ++ [newline]) [] Hl) as H.
  rewrite app_nil_r in H. apply H. by destruct text.
Qed.

Lemma kv_print_verdict prefix : prints (file_log_fd app) (verdict key_value) (kv_print host app t l slices prefix tc).
Proof using Type.
  unfold kv_print. cbv zeta. apply prints_before; [|runs_tac].
  unfold kv_line, verdict_line. intros o a o' H.
  destruct (prints_line LOG_LEVEL_QUIET _ ltac:(done) _ _ _ H) as (pre & post & Heq).
  exists pre, post. rewrite Heq. by rewrite <- !app_assoc.
Qed.

Lemma tap_print_verdict : prints (file_log_fd app) (verdict tap) (tap_print host app t l slices tc).
Proof using Type.
  unfold tap_print. apply prints_after; [runs_tac|intros extra]. apply prints_before; [|runs_tac].
  assert (exists rest, tap_line t l tc extra = verdict_line tap t tc (testResult l) ++ rest) as (rest & Heq).
  { unfold tap_line, okstring, verdict_line. destruct extra; [exists []; by rewrite app_nil_r|].
    case_match; eexists; by rewrite <- ?app_assoc. }
  unfold printf_line. rewrite Heq, <- app_assoc.
  apply (prints_logging_printf host app _ []); [apply loglevel_nonneg|]. unfold verdict_line. by destruct (testResult l).
Qed.

Lemma print_result_line_verdict : prints (file_log_fd app) (verdict yaml) (print_result_line host app t l).
Proof using Type.
  unfold print_result_line. cbv zeta. apply prints_after; [runs_tac|intros _].
  pose proof (loglevel_nonneg (a_cfg app) l).
  unfold verdict_line. destruct (testResult l); apply prints_before; try (runs_tac; fail);
    rewrite app_assoc; by apply prints_line.
Qed.

Lemma yaml_print_verdict : prints (file_log_fd app) (verdict yaml) (yaml_print host app t l slices).
Proof using Type. unfold yaml_print. apply prints_before; [apply print_result_line_verdict|runs_tac]. Qed.
End Verdict.

(** Splits print_results() into the logger it builds and what that prints. *)
Lemma print_results_inv host app t tc status o r o' :
  print_results host app t tc status o = Ret (r, o') ->
  exists l s, make_logger (a_cfg app) (now app) status (shm o) = Ret (l, s) /\ r = testResult l /\
    let o1 := fresh_logger (o <| shm := s |>) in
    exists u, (match current_output_format (a_cfg app) with
      | key_value => prefix ← log_timestamp host; kv_print host app t l status (prefix ++ test_id t) tc
      | tap => tap_print host app t l status tc
      | yaml => yaml_print host app t l status
      | no_output => done_
      end) o1 = Ret (u, o').
Proof.
  unfold print_results. intros H. apply report_bind_ret in H as (? & ? & [= <- <-] & H).
  apply report_bind_ret in H as ([l s] & o1 & Hm & H). unfold lift in Hm. inv_ret.
  apply report_bind_ret in H as ([] & o2 & [= <-] & H). apply report_bind_ret in H as (u & o3 & Hu & [= <- <-]).
  exists l, s. split; [done|]. split; [done|]. by exists u.
Qed.

(** C12. Printing the results of a test says in the log, in every format, what it
    returns to the runner, and both are the verdict of the logger: the line
    with the verdict is in what was appended to the log file. *)
Theorem printed_verdict_is_returned host app t tc status o r o' :
  print_results host app t tc status o = Ret (r, o') ->
  (exists s, logging_print_results (a_cfg app) (now app) status (shm o) = Ret (r, s)) /\
  printed (file_log_fd app) (filtered (verdict_line (current_output_format (a_cfg app)) t tc r)) o o'.
Proof.
  intros H. apply print_results_inv in H as (l & s & Hl & -> & u & Hu).
  split; [exists s; unfold logging_print_results; by rewrite Hl|].
  assert (forall fd, text_of fd (fresh_logger (o <| shm := s |>)) = text_of fd o) as Hsame by by intros [].
  unfold printed. setoid_rewrite <- Hsame. revert Hu. generalize (fresh_logger (o <| shm := s |>)). intros o1.
  destruct (current_output_format (a_cfg app)).
  - intros [= _ <-]. exists [], []. simpl. by rewrite app_nil_r.
  - apply tap_print_verdict.
  - apply prints_after; [runs_tac|intros]. apply kv_print_verdict.
  - apply yaml_print_verdict.
Qed.

(** After the results of a test were printed the log of every thread that took
    part is empty, so that the next test starts with empty logs, provided that
    a thread whose counter says that it logged nothing has an empty log. *)
Theorem print_results_empties_logs host app t tc status o r s o' :
  current_output_format (a_cfg app) <> no_output ->
  logging_print_results (a_cfg app) (now app) status (shm o) = Ret (r, s) -> all_counted s ->
  print_results host app t tc status o = Ret (r, o') ->
  forall thread, valid_thread thread s -> - len status <= thread -> emptied thread o'.
Proof.
  intros Hfmt Hs Hc H. apply print_results_inv in H as (l & s' & Hl & -> & u & Hu).
  unfold logging_print_results in Hs. rewrite Hl in Hs. injection Hs as ->.
  revert Hu. set (o1 := fresh_logger _). change s with (shm o1) in Hc |- *. clearbody o1. clear Hl.
  destruct (current_output_format (a_cfg app)); [done| | |]; intros Hu.
  - by eapply tap_print_visits.
  - refine (visits_bind _ _ _ _ _ o1 u o' Hc Hu); [runs_tac|intros; apply kv_print_visits].
  - by eapply yaml_print_visits.
Qed.

(** * A session

    What is printed about the tests of a run: each is announced, runs, which
    changes the threads' shared data, and its results are printed. *)
Record TestStep := { s_test : TestInfo; s_count : Z; s_run : Shm -> Shm; s_status : list ChildExitStatus }.

Fixpoint report_session (host : Host) (app : App) (tests : list TestStep) : report (list TestResult) :=
  match tests with
  | [] => mret []
  | s :: tests =>
      _ ← logging_init host app (s_test s);
      _ ← modify (fun o => o <| shm := s_run s (shm o) |>);
      r ← print_results host app (s_test s) (s_count s) (s_status s);
      rest ← report_session host app tests;
      mret (r :: rest)
  end.

(** * The log file of a YAML run and the verbosity *)

Definition with_verbosity (v : Z) (app : App) : App :=
  {| a_cfg := a_cfg app; verbosity := v; file_log_fd := file_log_fd app; syslog_ident := syslog_ident app;
     current_test_starttime := current_test_starttime app; now := now app;
     current_iteration_count := current_iteration_count app; seed := seed app; failure_mask := failure_mask app; cpus := cpus app |}.

(** The header of the run was printed, which print_header() does before the
    first test. *)
Definition started (o : Out) : Prop := tests_header o <> NoHeader.
(** All that is not output for the terminal. *)
Definition durable (o : Out) :=
  (log_file o, syslog_lines o, shm o, stderr_log o, (ticks o, start_time o, warning_printed o, file_header o, file_terminator o)).
Definition same (o1 o2 : Out) : Prop := started o1 /\ started o2 /\ durable o1 = durable o2.

(** Output for the terminal only. *)
Definition silent {A} (m : report A) : Prop := forall o a o', started o -> m o = Ret (a, o') -> same o o'.
(** Two runs that differ in what they send to the terminal only. *)
Definition agree {A} (m1 m2 : report A) : Prop :=
  forall o1 o2 a1 a2 o1' o2', same o1 o2 -> m1 o1 = Ret (a1, o1') -> m2 o2 = Ret (a2, o2') -> a1 = a2 /\ same o1' o2'.

Lemma same_sym o1 o2 : same o1 o2 -> same o2 o1.
Proof. unfold same. intuition. Qed.
Lemma same_trans o1 o2 o3 : same o1 o2 -> same o2 o3 -> same o1 o3.
Proof. unfold same. intuition congruence. Qed.

Lemma silent_ret {A} (a : A) : silent (mret a).
Proof. intros o b o' Ho [= <- <-]. done. Qed.
Lemma silent_modify f : (forall o, started o -> same o (f o)) -> silent (modify f).
Proof. intros Hf o b o' Ho [= <- <-]. auto. Qed.
Lemma silent_write fd s : fd <> LogFile -> silent (write fd s).
Proof. intros Hfd. apply silent_modify. intros o Ho. by destruct fd. Qed.
Lemma silent_get : silent get.
Proof. intros o b o' Ho [= <- <-]. done. Qed.
Lemma silent_lift {A} (m : outcome A) : silent (lift m).
Proof. intros o b o' Ho H. unfold lift in H. inv_ret. done. Qed.
Lemma silent_bind {A B} (m : report A) (f : A -> report B) : silent m -> (forall a, silent (f a)) -> silent (m ≫= f).
Proof.
  intros Hm Hf o b o' Ho H. apply report_bind_ret in H as (a & o1 & Ha & H).
  pose proof (Hm _ _ _ Ho Ha) as H1. eapply same_trans, Hf, H; [done|apply H1].
Qed.
Lemma silent_when b m : silent m -> silent (when b m).
Proof. intros H. destruct b; [done|apply silent_ret]. Qed.

Lemma agree_bind {A B} (m1 m2 : report A) (f1 f2 : A -> report B) :
  agree m1 m2 -> (forall a, agree (f1 a) (f2 a)) -> agree (m1 ≫= f1) (m2 ≫= f2).
Proof.
  intros Hm Hf o1 o2 b1 b2 o1' o2' Hs H1 H2.
  apply report_bind_ret in H1 as (a1 & p1 & Ha1 & H1). apply report_bind_ret in H2 as (a2 & p2 & Ha2 & H2).
  destruct (Hm _ _ _ _ _ _ Hs Ha1 Ha2) as [<- Hp]. by eapply Hf.
Qed.
Lemma agree_silent (m1 m2 : report ()) : silent m1 -> silent m2 -> agree m1 m2.
Proof.
  intros Hm1 Hm2 o1 o2 [] [] o1' o2' Hs H1 H2. split; [done|]. pose proof Hs as (Ho1 & Ho2 & _).
  exact (same_trans _ _ _ (same_sym _ _ (Hm1 _ _ _ Ho1 H1)) (same_trans _ _ _ Hs (Hm2 _ _ _ Ho2 H2))).
Qed.
Lemma agree_ret {A} (a : A) : agree (mret a) (mret a).
Proof. intros o1 o2 a1 a2 o1' o2' Hs [= <- <-] [= <- <-]. done. Qed.
Lemma agree_lift {A} (m : outcome A) : agree (lift m) (lift m).
Proof. intros o1 o2 a1 a2 o1' o2' Hs H1 H2. unfold lift in *. inv_ret. split; [congruence|done]. Qed.
Lemma agree_get {A} (f1 f2 : Out -> report A) :
  (forall o1 o2, same o1 o2 -> agree (f1 o1) (f2 o2)) -> agree (get ≫= f1) (get ≫= f2).
Proof. intros Hf o1 o2 a1 a2 o1' o2' Hs H1 H2. by eapply (Hf o1 o2). Qed.
Lemma agree_modify f1 f2 : (forall o1 o2, same o1 o2 -> same (f1 o1) (f2 o2)) -> agree (modify f1) (modify f2).
Proof. intros Hf o1 o2 a1 a2 o1' o2' Hs [= <- <-] [= <- <-]. auto. Qed.
Lemma agree_write s : agree (write LogFile s) (write LogFile s).
Proof. apply agree_modify. intros o1 o2 (?&?&Hd). unfold durable in Hd. simplify_eq. unfold same, durable, started. simpl. repeat split; congruence. Qed.
Lemma agree_when b m1 m2 : agree m1 m2 -> agree (when b m1) (when b m2).
Proof. intros H. destruct b; [done|apply agree_ret]. Qed.
Lemma agree_for_each {A} (f1 f2 : A -> report ()) l : (forall x, agree (f1 x) (f2 x)) -> agree (for_each f1 l) (for_each f2 l).
Proof. intros Hf. induction l; simpl; [apply agree_ret|]. by apply agree_bind. Qed.

Create HintDb agree.
#[export] Hint Resolve silent_ret silent_get silent_lift silent_when : agree.
#[export] Hint Resolve agree_ret agree_lift agree_write agree_when : agree.
#[export] Hint Extern 1 (silent (write _ _)) => apply silent_write; done : agree.
#[export] Hint Extern 1 (silent done_) => apply silent_ret : agree.
#[export] Hint Extern 1 (agree done_ done_) => apply agree_ret : agree.

Ltac agree_tac :=
  repeat first
    [ progress intros
    | solve [eauto with agree]
    | apply agree_get
    | apply agree_bind
    | apply silent_bind
    | apply silent_when
    | apply agree_when
    | apply agree_for_each
    | match goal with
      | |- silent (match ?x with _ => _ end) => destruct x
      | |- agree (match ?x with _ => _ end) (match ?x with _ => _ end) => destruct x
      | |- agree (when _ _) (when _ _) => solve [apply agree_silent; apply silent_when; agree_tac]
      end
    | progress cbv zeta beta ].

Section Verbosity.
Context (host : Host) (app : App) (v1 v2 : Z).
Context (Hfile : file_log_fd app = LogFile) (Hyaml : current_output_format (a_cfg app) = yaml) (Hv1 : v1 < 3) (Hv2 : v2 < 3).
Abbreviation app1 := (with_verbosity v1 app).
Abbreviation app2 := (with_verbosity v2 app).

Lemma same_shm o1 o2 : same o1 o2 -> shm o1 = shm o2 /\ stderr_log o1 = stderr_log o2 /\ file_header o1 = file_header o2 /\
  ticks o1 = ticks o2 /\ start_time o1 = start_time o2.
Proof using Type. intros (_ & _ & H). unfold durable in H. by simplify_eq. Qed.

Lemma agree_same_modify (f : Out -> Out) :
  (forall o, tests_header (f o) = tests_header o) -> (forall o1 o2, durable o1 = durable o2 -> durable (f o1) = durable (f o2)) ->
  agree (modify f) (modify f).
Proof using Type.
  intros Ht Hf. apply agree_modify. intros o1 o2 (H1 & H2 & Hd). unfold same, started. rewrite !Ht. auto.
Qed.
Hint Extern 2 (agree (modify _) (modify _)) =>
  apply agree_same_modify; [done|unfold durable; simpl; intros; simplify_eq; congruence] : agree.

Lemma silent_flush : silent (progress_bar_flush host).
Proof using Type.
  unfold progress_bar_flush. agree_tac. apply silent_modify. intros o Ho. by unfold same, started.
Qed.
Hint Resolve silent_flush : agree.

Lemma agree_logging_printf level text : agree (logging_printf host app1 level text) (logging_printf host app2 level text).
Proof using Hfile Hyaml.
  unfold logging_printf, log_message_to_syslog. simpl. rewrite Hfile, Hyaml. simpl. rewrite andb_false_r.
  destruct (create_filtered_message_string text); [apply agree_ret|]. apply agree_bind; [|agree_tac].
  apply agree_silent; agree_tac; by case_match; apply silent_write.
Qed.
Hint Resolve agree_logging_printf : agree.
Lemma agree_printf_line level text : agree (printf_line host app1 level text) (printf_line host app2 level text).
Proof using Hfile Hyaml. apply agree_logging_printf. Qed.
Hint Resolve agree_printf_line : agree.

Lemma agree_elapsed : agree (elapsed_runtime host) (elapsed_runtime host).
Proof using Type.
  unfold elapsed_runtime. apply agree_get. intros o1 o2 Hs. destruct (same_shm _ _ Hs) as (_ & _ & _ & Ht & Hst).
  rewrite Ht, Hst. agree_tac.
Qed.
Hint Resolve agree_elapsed : agree.
Lemma agree_iso b f : agree (iso8601_time_now host b f) (iso8601_time_now host b f).
Proof using Type.
  unfold iso8601_time_now. apply agree_get. intros o1 o2 Hs. destruct (same_shm _ _ Hs) as (_ & _ & _ & Ht & Hst).
  rewrite Ht. agree_tac.
Qed.
Hint Resolve agree_iso : agree.
Lemma agree_get_current_time : agree (get_current_time host) (get_current_time host).
Proof using Type. unfold get_current_time. agree_tac. Qed.
Hint Resolve agree_get_current_time : agree.

Lemma agree_thread_common thread : agree (thread_common thread) (thread_common thread).
Proof using Type. unfold thread_common. apply agree_get. intros o1 o2 Hs. destruct (same_shm _ _ Hs) as [-> _]. agree_tac. Qed.
Lemma agree_test_thread_at cpu : agree (test_thread_at cpu) (test_thread_at cpu).
Proof using Type. unfold test_thread_at. apply agree_get. intros o1 o2 Hs. destruct (same_shm _ _ Hs) as [-> _]. agree_tac. Qed.
Lemma agree_all_threads n : agree (all_threads n) (all_threads n).
Proof using Type. unfold all_threads. apply agree_get. intros o1 o2 Hs. destruct (same_shm _ _ Hs) as [-> _]. agree_tac. Qed.
Lemma agree_munmap thread r : agree (munmap_and_truncate_log thread r) (munmap_and_truncate_log thread r).
Proof using Type.
  unfold munmap_and_truncate_log. destruct r; [agree_tac|]. apply agree_get. intros o1 o2 Hs.
  destruct (same_shm _ _ Hs) as [-> _]. agree_tac.
Qed.
Hint Resolve agree_thread_common agree_test_thread_at agree_all_threads agree_munmap : agree.
Lemma agree_init_skip_message : agree init_skip_message init_skip_message.
Proof using Type. unfold init_skip_message. agree_tac. Qed.
Hint Resolve agree_init_skip_message : agree.

Hint Extern 1 (silent (writeln _ _)) => apply silent_write; done : agree.
Hint Extern 1 (agree (writeln _ _) (writeln _ _)) => apply agree_write : agree.

Lemma silent_messages_header a : file_log_fd a = LogFile -> silent (maybe_print_messages_header a RealStdout).
Proof using Type.
  intros Ha. unfold maybe_print_messages_header. rewrite Ha. simpl. agree_tac.
  apply silent_modify. intros o Ho. by unfold same, started.
Qed.
Lemma silent_thread_header slices a cpu v :
  file_log_fd a = LogFile -> silent (yaml_print_thread_header host a slices RealStdout v cpu).
Proof using Type.
  intros Ha. pose proof (silent_messages_header a Ha).
  unfold yaml_print_thread_header, maybe_print_slice_resource_usage, cpu_at, test_thread_at, writeln. agree_tac.
Qed.
Lemma silent_messages l r level a : silent (yaml_print_one_thread_messages a l RealStdout r level).
Proof using Type. unfold yaml_print_one_thread_messages. agree_tac. Qed.
Lemma silent_tests_header b a : file_log_fd a = LogFile -> silent (print_tests_header a b).
Proof using Type.
  intros Ha o x o' Ho H. unfold print_tests_header in H.
  apply report_bind_ret in H as (o1 & o2 & [= <- <-] & H). unfold started in Ho.
  case_decide; [by injection H as _ <-|]. rewrite (bool_decide_false (tests_header o = NoHeader) Ho) in H.
  simpl in H. apply report_bind_ret in H as ([] & o1 & [= <-] & H). rewrite Ha in H. simpl in H. rewrite andb_true_r in H.
  destruct (b && (verbosity a =? 0)); [by injection H as _ <-|]. apply report_bind_ret in H as ([] & o1 & [= <-] & [= _ <-]). done.
Qed.
Lemma silent_knobs r a : silent (_ ← print_test_knobs a RealStdout r; done_).
Proof using Type. unfold print_test_knobs. agree_tac. Qed.
Lemma silent_skip_reason a m : silent (format_and_print_skip_reason a RealStdout m).
Proof using Type. unfold format_and_print_skip_reason, writeln. agree_tac. Qed.
Hint Resolve silent_thread_header silent_messages silent_tests_header silent_knobs silent_skip_reason : agree.

Lemma agree_skip_reason m : agree (format_and_print_skip_reason app1 LogFile m) (format_and_print_skip_reason app2 LogFile m).
Proof using Type. unfold format_and_print_skip_reason, writeln, indented. simpl. agree_tac. Qed.
Lemma agree_knobs r : agree (print_test_knobs app1 LogFile r) (print_test_knobs app2 LogFile r).
Proof using Type. unfold print_test_knobs, indented. agree_tac. Qed.
Lemma agree_messages l r level :
  agree (yaml_print_one_thread_messages app1 l LogFile r level) (yaml_print_one_thread_messages app2 l LogFile r level).
Proof using Type. unfold yaml_print_one_thread_messages. agree_tac. Qed.
Lemma agree_messages_header : agree (maybe_print_messages_header app1 LogFile) (maybe_print_messages_header app2 LogFile).
Proof using Hfile.
  unfold maybe_print_messages_header. simpl. rewrite Hfile. simpl. apply agree_get. intros o1 o2 Hs.
  destruct (same_shm _ _ Hs) as (_ & _ & -> & _). agree_tac.
Qed.
Lemma agree_resource_usage slices slice :
  agree (maybe_print_slice_resource_usage host app1 slices LogFile slice) (maybe_print_slice_resource_usage host app2 slices LogFile slice).
Proof using Hv1 Hv2.
  unfold maybe_print_slice_resource_usage. simpl. rewrite !(proj2 (Z.leb_gt _ _)) by done. agree_tac.
Qed.
Hint Resolve agree_skip_reason agree_knobs agree_messages agree_messages_header agree_resource_usage : agree.
Lemma agree_thread_header slices v cpu :
  agree (yaml_print_thread_header host app1 slices LogFile v cpu) (yaml_print_thread_header host app2 slices LogFile v cpu).
Proof using Hfile Hv1 Hv2. unfold yaml_print_thread_header, cpu_at. cbn [cpus with_verbosity]. agree_tac. Qed.
Hint Resolve agree_thread_header : agree.

Lemma agree_yaml_thread l slices n thread :
  agree (yaml_print_thread host app1 l slices n thread) (yaml_print_thread host app2 l slices n thread).
Proof using Hfile Hv1 Hv2.
  unfold yaml_print_thread. cbn [verbosity file_log_fd with_verbosity]. rewrite Hfile, (proj2 (Z.ltb_lt v1 3) Hv1), (proj2 (Z.ltb_lt v2 3) Hv2). agree_tac.
Qed.

Lemma agree_print_result_line t l : agree (print_result_line host app1 t l) (print_result_line host app2 t l).
Proof using Hfile Hyaml.
  unfold print_result_line. cbn [verbosity file_log_fd a_cfg with_verbosity]. rewrite Hfile. agree_tac.
Qed.

Lemma agree_stderr s :
  agree (print_child_stderr_common app1 (fun fd => writeln fd s)) (print_child_stderr_common app2 (fun fd => writeln fd s)).
Proof using Hfile.
  unfold print_child_stderr_common. cbn [verbosity file_log_fd a_cfg with_verbosity]. rewrite Hfile.
  apply agree_get. intros o1 o2 Hs. destruct (same_shm _ _ Hs) as (_ & -> & _). agree_tac.
Qed.
Hint Resolve agree_yaml_thread agree_print_result_line agree_stderr : agree.

Lemma agree_yaml_print t l slices : agree (yaml_print host app1 t l slices) (yaml_print host app2 t l slices).
Proof using Hfile Hyaml Hv1 Hv2.
  unfold yaml_print, fail_info_details. cbn [verbosity file_log_fd a_cfg now current_test_starttime failure_mask seed with_verbosity].
  rewrite Hfile. agree_tac.
Qed.

Lemma agree_print_results t tc status : agree (print_results host app1 t tc status) (print_results host app2 t tc status).
Proof using Hfile Hyaml Hv1 Hv2.
  unfold print_results. cbn [a_cfg now with_verbosity]. rewrite Hyaml. apply agree_get. intros o1 o2 Hs.
  destruct (same_shm _ _ Hs) as (-> & _). apply agree_bind; [agree_tac|]. intros [l s].
  pose proof (agree_yaml_print t l status). agree_tac.
Qed.

Lemma silent_progress_bar_update : silent (progress_bar_update host).
Proof using Type.
  unfold progress_bar_update. agree_tac; apply silent_modify; intros o' Ho; by unfold same, started.
Qed.
Hint Resolve silent_progress_bar_update agree_print_results : agree.
Lemma agree_logging_init t : agree (logging_init host app1 t) (logging_init host app2 t).
Proof using Hfile Hyaml.
  unfold logging_init. cbn [a_cfg verbosity seed current_iteration_count with_verbosity]. rewrite Hyaml. cbv zeta.
  apply agree_bind; [apply agree_silent; agree_tac|]. unfold quality_string. cbn [a_cfg with_verbosity]. agree_tac.
Qed.
Hint Resolve agree_logging_init : agree.

Lemma agree_report_session tests : agree (report_session host app1 tests) (report_session host app2 tests).
Proof using Hfile Hyaml Hv1 Hv2.
  induction tests as [|s tests IH]; simpl; [apply agree_ret|]. agree_tac.
Qed.
End Verbosity.

(** The log file of a YAML run does not depend on the verbosity: below -vvv two
    sessions that differ in the verbosity only append the same text to the log
    file and the system log, give the same results and leave the same data. *)
Theorem yaml_log_ignores_verbosity host app v1 v2 tests o rs1 o1 rs2 o2 :
  file_log_fd app = LogFile -> current_output_format (a_cfg app) = yaml -> v1 < 3 -> v2 < 3 -> started o ->
  report_session host (with_verbosity v1 app) tests o = Ret (rs1, o1) ->
  report_session host (with_verbosity v2 app) tests o = Ret (rs2, o2) ->
  rs1 = rs2 /\ log_file o1 = log_file o2 /\ syslog_lines o1 = syslog_lines o2 /\ shm o1 = shm o2.
Proof.
  intros Hf Hy H1 H2 Ho Hr1 Hr2.
  destruct (agree_report_session host app v1 v2 Hf Hy H1 H2 tests o o _ _ _ _ ltac:(done) Hr1 Hr2) as (-> & _ & _ & Hd).
  unfold durable in Hd. by simplify_eq.
Qed.

(** * A concrete run *)

Definition host0 : Host :=
  {| program_version := L "1.0"; program_invocation_name := L "bin/opendcdiag"; uname := Some (L "Linux", L "6.1");
     gnu_get_libc_version := L "2.36"; StaticLink := false; openssl_info := []; hypervisor := false; clock_at := fun n => (Z.of_nat n, 0); dot_clock_at := fun n => (Z.of_nat n, 0);
     realtime_at := fun _ => (1704067200, 0); tty := true; is_dumb_terminal := false; strsignal := fun _ => L "Killed"; percent_text := fun _ _ => L "0.0";
     cpuavg_text := fun _ _ => L "0.0"; thread_freq := fun _ => None; average_freq := None |}.
Definition cpu0 : cpu_info := mk_cpu 0 0 0 0 0 0 0 0 0 0 [] 6 1 85.
Definition app0 (v : Z) : App :=
  {| a_cfg := {| NoLogging := false; Debug := false; output_format := yaml; output_yaml_indent := 0;
                 max_messages_per_thread := 5; max_logdata_per_thread := 128; log_test_knobs := false; fatal_skips := false |};
     verbosity := v; file_log_fd := LogFile; syslog_ident := false; current_test_starttime := 1000; now := 2000000;
     current_iteration_count := 1; seed := L "LCG:1"; failure_mask := Ret (L "X"); cpus := [cpu0; cpu0] |}.
(** The second thread failed with a message. *)
Definition failed_common : Common :=
  {| thread_state := thread_failed; log_fd := encode_message UserMessages 0 (L "E> wrong"); messages_logged := 1;
     data_bytes_logged := 0; fail_time := 5000 |}.
Definition shm0 : Shm :=
  {| mains := [{| m_common := idle_common; cpu_range := {| starting_cpu := 0; cpu_count := 2 |} |}];
     tests := [idle_test; {| t_common := failed_common; inner_loop_count := 3; inner_loop_count_at_fail := 2; tid := 0 |}] |}.
Definition out0 : Out :=
  {| log_file := []; std_out := []; std_err := []; syslog_lines := []; shm := shm0; stderr_log := []; ticks := 0;
     start_time := None; tests_header := LogFileOnly; warning_printed := false; file_terminator := false;
     stdout_terminator := false; file_header := false; stdout_header := false;
     tty_out := []; progress_bar_needs_flush := 0; dot_ticks := 0; last_dot_time := (-1, 0) |}.
Definition test0 : TestInfo := {| test_id := L "eigen"; test_description := L "matrices"; test_quality := 1 |}.
Definition status0 : list ChildExitStatus := [exit_status_of Passed].
Definition run0 (v : Z) : outcome (TestResult * Out) :=
  print_results host0 (app0 v) test0 1 status0 out0.
Definition after0 (v : Z) : Out := match run0 v with Ret (_, o) => o | _ => out0 end.

Lemma run0_ret v : 0 <= v < 3 -> print_results host0 (app0 v) test0 1 status0 out0 = Ret (Failed, after0 v).
Proof. intros H. assert (v = 0 \/ v = 1 \/ v = 2) as [-> | [-> | ->]] by lia; vm_compute; reflexivity. Qed.

Lemma printed_verdict_is_returned_witness :
  printed LogFile (L "  result: fail" ++ [newline]) out0 (after0 1).
Proof.
  pose proof (proj2 (printed_verdict_is_returned host0 (app0 1) test0 1 status0 out0 Failed (after0 1) (run0_ret 1 ltac:(lia)))) as H.
  exact H.
Defined.

Lemma print_results_empties_logs_witness : emptied 1 (after0 1).
Proof.
  refine (print_results_empties_logs host0 (app0 1) test0 1 status0 out0 Failed shm0 _ _ _ _ (run0_ret 1 _) 1 _ _);
    [done|vm_compute; done| |lia|done|done].
  intros thread Hv. unfold valid_thread in Hv. simpl in Hv. assert (thread = -1 \/ thread = 0 \/ thread = 1) as [-> | [-> | ->]] by (unfold len in Hv; simpl in Hv; lia);
    eexists; (split; [vm_compute; reflexivity|done]).
Defined.

Definition steps0 : list TestStep :=
  [{| s_test := test0; s_count := 1; s_run := fun s => s; s_status := status0 |};
   {| s_test := test0; s_count := 2; s_run := fun _ => shm0; s_status := status0 |}].
Definition session0 (v : Z) : Out := match report_session host0 (app0 v) steps0 out0 with Ret (_, o) => o | _ => out0 end.

Lemma session0_ret v : 0 <= v < 3 -> report_session host0 (app0 v) steps0 out0 = Ret ([Failed; Failed], session0 v).
Proof. intros H. assert (v = 0 \/ v = 1 \/ v = 2) as [-> | [-> | ->]] by lia; vm_compute; reflexivity. Qed.

Lemma yaml_log_ignores_verbosity_witness : log_file (session0 0) = log_file (session0 2) /\ std_out (session0 0) <> std_out (session0 2).
Proof.
  split; [|vm_compute; done].
  exact (proj1 (proj2 (yaml_log_ignores_verbosity host0 (app0 0) 0 2 steps0 out0 [Failed; Failed] (session0 0) [Failed; Failed] (session0 2)
    ltac:(done) ltac:(done) ltac:(lia) ltac:(lia) ltac:(done) (session0_ret 0 ltac:(lia)) (session0_ret 2 ltac:(lia))))).
Defined.
