(* ===== verification/LogSession.v ===== *)
(** The life of the log (logging.cpp): where it is opened, what is printed about
    the run before the first and after the last test, and how it is closed.

    Opening a file is a parameter: it gives the result of open() for a path. *)

From S2P Require Import Prelude CStdlib Chrono Results ThreadData Logging CpuInfo Report ReportProofs.

Definition EX_CANTCREAT : Z := 73.

(** * Opening *)

Inductive OpenResult := Opened | IsDirectory | OpenFailed.

(** Where the log goes: file_log_fd, the path and delete_log_on_success. *)
Inductive Destination := ToStdoutFileno | ToFile | ToRealStdout.
Record LogTarget := { destination : Destination; file_log_path : str; delete_log_on_success : bool }.

Section Open.
Context (host : Host) (cfg : LogCfg) (open_log : bool -> str -> OpenResult).

Definition should_log_to_file (path : str) : bool :=
  bool_decide (path <> L "-") && bool_decide (path <> L "/dev/stdout") && bool_decide (path <> L "stdout").

(** The part of the program's name from its last slash. *)
Fixpoint from_last_slash (s : str) : option str :=
  match s with
  | [] => None
  | c :: rest =>
      match from_last_slash rest with
      | Some r => Some r
      | None => if char_eqb c "/"%char then Some s else None
      end
  end.

Definition time_based_log_path (path : str) : report str :=
  let extension := match current_output_format cfg with yaml => L ".yaml" | _ => L ".log" end in
  _ ← lift (assertion (bool_decide (path <> [])));
  let toolname := program_invocation_name host in
  let path := path ++ match from_last_slash toolname with None => L "/" ++ toolname | Some rest => rest end in
  date ← iso8601_time_now host true true;
  mret (path ++ L "-" ++ date ++ extension).

(** logging_init_global(): a path that is a directory gives a new file in it. The
    first argument of [open_log] is O_EXCL. *)
Definition logging_init_global (path : str) : report LogTarget :=
  match current_output_format cfg with
  | no_output => mret {| destination := ToStdoutFileno; file_log_path := path; delete_log_on_success := false |}
  | _ =>
      if should_log_to_file path then
        let path := match path with [] => L "." | _ => path end in
        match open_log false path with
        | Opened => mret {| destination := ToFile; file_log_path := path; delete_log_on_success := false |}
        | IsDirectory =>
            path ← time_based_log_path path;
            match open_log true path with
            | Opened => mret {| destination := ToFile; file_log_path := path; delete_log_on_success := true |}
            | _ => lift (Exit EX_CANTCREAT)
            end
        | OpenFailed => lift (Exit EX_CANTCREAT)
        end
      else mret {| destination := ToRealStdout; file_log_path := path; delete_log_on_success := false |}
  end.
End Open.

(** * Header and footer *)

Section Header.
Context (host : Host) (app : App).
Abbreviation cfg := (a_cfg app).

Definition kernel_info : str := match uname host with Some (sysname, release) => sysname ++ L " " ++ release | None => [] end.
Definition libc_info : str :=
  L "glibc " ++ gnu_get_libc_version host ++ (if StaticLink host then L " (statically linked)" else []).

Definition os_info : str :=
  match kernel_info with
  | [] => L "<unknown>"
  | kernel =>
      kernel ++ match libc_info with [] => [] | libc => L ", " ++ libc end ++
      match openssl_info host with [] => [] | libssl => L ", " ++ libssl end
  end.

Definition print_reproduction_details : report () :=
  let line := printf_line host app in
  let q := LOG_LEVEL_QUIET in
  match current_output_format cfg with
  | key_value =>
      _ ← line q (L "version = " ++ program_version host);
      date ← iso8601_time_now host true false;
      _ ← line q (L "current_time = " ++ date);
      line (LOG_LEVEL_VERBOSE 1) (L "os = " ++ os_info)
  | tap =>
      _ ← line q (L "# Built from git commit: " ++ program_version host);
      date ← iso8601_time_now host true false;
      line q (L "# Current time: " ++ date)
  | yaml => line q (L "version: " ++ program_version host)
  | no_output => lift Ub
  end.

(** The command line: the program without its directory, and the arguments. *)
Fixpoint after_last_slash (s : str) : option str :=
  match s with
  | [] => None
  | c :: rest =>
      match after_last_slash rest with
      | Some r => Some r
      | None => if char_eqb c "/"%char then Some rest else None
      end
  end.
Definition command_line (argv : list str) : str :=
  match argv with
  | [] => []
  | program :: args => default program (after_last_slash program) ++ concat ((fun a => L " " ++ a) <$> args)
  end.

Fixpoint make_plan_string (plan : list CpuRange) : str :=
  match plan with
  | [] => []
  | r :: plan =>
      L "{ starting_cpu: " ++ to_string (starting_cpu r) ++ L ", count: " ++ to_string (cpu_count r) ++ L " }" ++
      match plan with [] => [] | _ => L ", " ++ make_plan_string plan end
  end.

(** YamlLogger::print_header(); durations are in nanoseconds. *)
Definition yaml_print_header (cmdline : str) (test_duration test_timeout : Z) (fullsocket heuristic : list CpuRange) : report () :=
  let line := printf_line host app in
  let q := LOG_LEVEL_QUIET in let v := LOG_LEVEL_VERBOSE 1 in
  _ ← line q (L "command-line: '" ++ cmdline ++ L "'");
  _ ← line q (L "version: " ++ program_version host);
  _ ← line v (L "os: " ++ kernel_info);
  _ ← line v (L "runtime: " ++ libc_info);
  _ ← line v (match openssl_info host with [] => L "openssl: null" | openssl => L "openssl: { version: " ++ openssl ++ L " }" end);
  duration ← lift (of_option (format_duration false test_duration));
  timeout ← lift (of_option (format_duration false test_timeout));
  _ ← line v (L "timing: { duration: " ++ duration ++ L ", timeout: " ++ timeout ++ L " }");
  _ ← line v (L "cpu-info:");
  _ ← for_each (fun '(i, info) => line v (L "- " ++ thread_id_header app info (LOG_LEVEL_VERBOSE 2) ++ L "   # " ++ to_string (Z.of_nat i)))
        (imap pair (cpus app));
  _ ← line v (L "test-plans:");
  _ ← line v (L "  fullsocket: [ " ++ make_plan_string fullsocket ++ L " ]");
  _ ← line v (L "  heuristic: [ " ++ make_plan_string heuristic ++ L " ]");
  print_tests_header app true.

Definition logging_print_header (argv : list str) (test_duration test_timeout : Z) (fullsocket heuristic : list CpuRange) : report () :=
  let line := printf_line host app in
  let cmdline := command_line argv in
  match current_output_format cfg with
  | key_value => _ ← line LOG_LEVEL_QUIET (L "command_line = " ++ cmdline); print_reproduction_details
  | tap =>
      _ ← line LOG_LEVEL_QUIET (L "# " ++ cmdline);
      _ ← line (LOG_LEVEL_VERBOSE 1) (L "# " ++ program_version host ++ L "; Operating system: " ++ os_info);
      duration ← lift (of_option (format_duration true test_duration));
      timeout ← lift (of_option (format_duration true test_timeout));
      line (LOG_LEVEL_VERBOSE 2) (L "# Target test duration is " ++ duration ++ L " per test, timeout " ++ timeout)
  | yaml => yaml_print_header cmdline test_duration test_timeout fullsocket heuristic
  | no_output => done_
  end.

Definition logging_print_iteration_start : report () :=
  match current_output_format cfg with
  | no_output => done_
  | _ => match output_format cfg with
         | key_value => printf_line host app LOG_LEVEL_QUIET (L "random_generator_state = " ++ seed app)
         | _ => done_
         end
  end.

Definition logging_print_footer : report () :=
  match current_output_format cfg with
  | key_value | tap => print_reproduction_details
  | yaml | no_output => done_
  end.

(** * Closing *)

Definition logging_print_log_file_name (target : LogTarget) : report () :=
  match destination target with
  | ToRealStdout | ToStdoutFileno => done_
  | ToFile =>
      match current_output_format cfg with
      | key_value | tap => writeln RealStdout (L "# More information logged to '" ++ file_log_path target ++ L "'")
      | yaml => writeln RealStdout (indent_spaces cfg ++ L "log_file: '" ++ file_log_path target ++ L "'")
      | no_output => done_
      end
  end.

(** logging_close_global(): the status, and the file that is removed. *)
Definition logging_close_global (target : LogTarget) (exitcode : Z) : report (Z * option str) :=
  _ ← progress_bar_flush host;
  _ ← when (negb (NoLogging cfg))
        (_ ← when (negb (exitcode =? EXIT_SUCCESS)) (logging_print_log_file_name target);
         match exit_line (verbosity app) exitcode with
         | Some line => printf_line host app LOG_LEVEL_QUIET (L "exit: " ++ line)
         | None => done_
         end);
  mret (exitcode, if (exitcode =? EXIT_SUCCESS) && delete_log_on_success target then Some (file_log_path target) else None).
End Header.

(** * Facts *)

Lemma time_based_log_path_ok host cfg path o : path <> [] ->
  exists path' o', time_based_log_path host cfg path o = Ret (path', o').
Proof. intros Hp. unfold time_based_log_path. rewrite bool_decide_true by done. by eexists _, _. Qed.

(** Opening the log: the program ends with EX_CANTCREAT or has a log, never
    anything else; and the only file that closing ever removes, on success, is one
    that this run created itself (O_EXCL) because the path is a directory. *)
Theorem only_own_log_removed host app open_log path o :
  match logging_init_global host (a_cfg app) open_log path o with
  | Ret (target, _) => forall exitcode o1 code f o2,
      logging_close_global host app target exitcode o1 = Ret ((code, Some f), o2) ->
      exitcode = EXIT_SUCCESS /\ code = exitcode /\ f = file_log_path target /\
      open_log true f = Opened /\ open_log false (match path with [] => L "." | _ => path end) = IsDirectory
  | Exit status => status = EX_CANTCREAT
  | Ub => False
  end.
Proof.
  assert (forall target exitcode o1 code f o2,
    logging_close_global host app target exitcode o1 = Ret ((code, Some f), o2) ->
    exitcode = EXIT_SUCCESS /\ code = exitcode /\ f = file_log_path target /\ delete_log_on_success target = true) as Hclose.
  { intros target exitcode o1 code f o2 H. unfold logging_close_global in H.
    apply report_bind_ret in H as (? & ? & _ & H). apply report_bind_ret in H as (? & ? & _ & H). injection H as <- H <-.
    destruct (Z.eqb_spec exitcode EXIT_SUCCESS), (delete_log_on_success target); simpl in H; by simplify_eq. }
  unfold logging_init_global. destruct (current_output_format (a_cfg app)) eqn:Hf.
  { simpl. intros ????? (?&?&?&?)%Hclose. done. }
  all: destruct (should_log_to_file path); [|simpl; intros ????? (?&?&?&?)%Hclose; done].
  all: set (p := match path with [] => L "." | _ => path end); assert (p <> []) as Hp by (by destruct path).
  all: destruct (open_log false p) eqn:Ho; [simpl; intros ????? (?&?&?&?)%Hclose; done| |done].
  all: destruct (time_based_log_path_ok host (a_cfg app) p o Hp) as (path' & o' & Ht).
  all: unfold mbind, report_bind; rewrite Ht; cbn; destruct (open_log true path') eqn:Hx; cbn; [|done|done].
  all: intros ????? (?&?&Hfile&?)%Hclose; simpl in Hfile; by rewrite Hfile.
Qed.

Lemma only_own_log_removed_witness :
  let open_log (excl : bool) (path : str) := if excl then Opened else IsDirectory in
  exists target o1 o2, logging_init_global host0 (a_cfg (app0 1)) open_log [] out0 = Ret (target, o1) /\
    logging_close_global host0 (app0 1) target 0 o1 = Ret ((0, Some (file_log_path target)), o2) /\
    file_log_path target = L "./opendcdiag-20240101T000000.000000Z.yaml" /\ open_log true (file_log_path target) = Opened.
Proof.
  intros open_log. eexists _, _, _. split; [vm_compute; reflexivity|]. split; [vm_compute; reflexivity|]. split; [done|].
  pose proof (only_own_log_removed host0 (app0 1) open_log [] out0) as H. vm_compute (logging_init_global _ _ _ _ _) in H.
  eapply H with (exitcode := 0) (o1 := out0). vm_compute. reflexivity.
Defined.
