(* ===== verification/Mismatch.v ===== *)
(** How a test reports that it failed (sandstone.cpp: report_fail, memcmp_offset,
    _memcmp_fail_report; logging.cpp: logging_format_data; sysdeps/linux:
    retrieve_physical_address).

    Buffers are lists of bytes with the address of the first one; the thread ends
    after a report, by cancellation or by an undefined instruction. What
    printf("%a") writes and the pagemap of the kernel are parameters. *)

From S2P Require Import Prelude CStdlib Bytes Results ThreadData Logging CpuInfo Floats DataTypes Report.

(** * Physical addresses *)

Definition PAGE_SIZE : Z := 4096.
Definition PAGE_SHIFT : Z := 12.

(** What reading the 64 bits at an offset of /proc/self/pagemap gives: an error,
    too few bytes, or the descriptor. *)
Inductive pread_result := PreadError | PreadShort | Pread (descriptor : Z).

(** retrieve_physical_address(); [None] for a pagemap that cannot be opened. Too
    few bytes leave the descriptor uninitialised. *)
Definition retrieve_physical_address (pagemap : option (Z -> pread_result)) (v : Z) : outcome Z :=
  if (v <? PAGE_SIZE) || (2 ^ 64 - 1 - PAGE_SIZE <? v) then Ret 0
  else match pagemap with
  | None => Ret 0
  | Some pread =>
      match pread (v / PAGE_SIZE * 8) with
      | PreadError => Ret 0
      | PreadShort => Ub
      | Pread descriptor =>
          if 0 <=? i64 descriptor then Ret 0
          else
            let descriptor := Z.land descriptor (2 ^ 54 - 1) in
            if descriptor =? 0 then Ret 0
            else Ret (u64 (u64 (Z.shiftl descriptor PAGE_SHIFT) + Z.land v (PAGE_SIZE - 1)))
      end
  end.

(** * Comparing *)

(** memcmp_offset(): the first position where the buffers differ, -1 if there is
    none; reading past the end of a buffer is undefined. *)
Fixpoint memcmp_loop (size : nat) (d1 d2 : list Z) (i : Z) : outcome Z :=
  match size with
  | O => Ret (-1)
  | S size =>
      match d1, d2 with
      | a :: d1, b :: d2 => if a =? b then memcmp_loop size d1 d2 (i + 1) else Ret i
      | _, _ => Ub
      end
  end.
Definition memcmp_offset (d1 d2 : list Z) (size : nat) : outcome Z := memcmp_loop size d1 d2 0.

(** * The report *)

Section Report.
Context (print_float print_double print_long_double : Z -> str).
Context (pagemap : option (Z -> pread_result)) (cfg : LogCfg).

(** %p, and %#012x: the prefix counts for the width *)
Definition fmt_p (z : Z) : str := if z =? 0 then L "(nil)" else L "0x" ++ to_digits 16 z.
Definition fmt_alt_012x (z : Z) : str := if z =? 0 then pad "0"%char 12 (L "0") else L "0x" ++ fmt_0x 10 z.

Definition formatAddresses (sp : str) (address : Z) : outcome str :=
  physaddr ← retrieve_physical_address pagemap address;
  Ret (sp ++ L "address:     '" ++ fmt_p address ++ L "'" ++ [newline] ++
       (if physaddr =? 0 then [] else sp ++ L "physical:    '" ++ fmt_alt_012x physaddr ++ L "'" ++ [newline])).

(** The element that holds the byte at [offset], and the bits that differ in it.
    The mask is an unsigned int: it has no bit above 2^31, and "&" extends it
    with zeros. *)
Definition aligned_offset (t : DataType) (offset : Z) : Z := Z.land offset (u32 (Z.lnot (u32 (type_alignment t - 1)))).
Definition xor_mask (t : DataType) (data1 data2 : list Z) (offset : Z) : outcome (list Z) :=
  a ← read_at (Z.to_nat (type_real_size t)) (Z.to_nat (aligned_offset t offset)) data1;
  b ← read_at (Z.to_nat (type_real_size t)) (Z.to_nat (aligned_offset t offset)) data2;
  _ ← assertion (type_real_size t <=? MaxDataTypeSize);
  Ret (zip_with Z.lxor a b).

(** logging_format_data(): the text, before it is written to the log. A type that
    is no enumerator is taken for bytes. *)
Definition logging_format_data (type : option DataType) (description : str) (address : Z) (data1 data2 : list Z) (offset : Z) : outcome str :=
  let sp := spaces (output_yaml_indent cfg + 7) in
  let sp3 := drop 3 sp in
  head ← match current_output_format cfg with
         | tap | key_value => Ret (L "  - data-miscompare:" ++ [newline])
         | yaml => Ret (sp3 ++ L "- level: error" ++ [newline] ++ sp3 ++ L "  data-miscompare:" ++ [newline])
         | no_output => Ub
         end;
  let t := default UInt8Data type in
  let line key value := sp ++ key ++ value ++ [newline] in
  let buffer := head ++ line (L "description: ") (L "'" ++ description ++ L "'") ++ line (L "type:        ") (type_name t) in
  if 0 <=? offset then
    let typeSize := type_real_size t in
    let alignedOffset := aligned_offset t offset in
    xormask ← xor_mask t data1 data2 offset;
    addresses ← formatAddresses sp (address + offset);
    let format := format_single_type print_float print_double print_long_double in
    actual ← format t typeSize (drop (Z.to_nat alignedOffset) data1) true;
    expected ← format t typeSize (drop (Z.to_nat alignedOffset) data2) true;
    mask ← format t typeSize xormask false;
    Ret (buffer ++ line (L "offset:      ") (L "[ " ++ to_string alignedOffset ++ L ", " ++ to_string (offset - alignedOffset) ++ L " ]") ++
         addresses ++
         line (L "actual:      ") (L "'0x" ++ actual ++ L "'") ++ line (L "expected:    ") (L "'0x" ++ expected ++ L "'") ++
         line (L "mask:        ") (L "'0x" ++ mask ++ L "'"))
  else
    addresses ← formatAddresses sp address;
    Ret (buffer ++ line (L "offset:      ") (L "null") ++ addresses ++ line (L "actual:      ") (L "null") ++
         line (L "expected:    ") (L "null") ++ line (L "mask:        ") (L "null") ++
         line (L "remark:      ") (L "'memcmp_offset() could not locate difference'")).

(** * The thread's end *)

Inductive thread_end := Trapped | Cancelled.

Definition report_fail_common (now thread : Z) (s : Shm) : outcome (Shm * thread_end) :=
  s ← logging_mark_thread_failed now thread s; Ret (s, Cancelled).

(** _report_fail(), _report_fail_msg(): [message] is the text after the line, if
    there is one. *)
Definition report_fail (ud_on_failure : bool) (now thread : Z) (file : str) (line : Z) (message : option str) (s : Shm)
  : outcome (Shm * thread_end) :=
  if ud_on_failure then Ret (s, Trapped)
  else
    s ← (if NoLogging cfg then Ret s
         else log_message cfg now thread (L "E> Failed at " ++ file ++ L ":" ++ to_string line ++
                match message with Some m => L ": " ++ m | None => [] end) s);
    report_fail_common now thread s.

(** _memcmp_fail_report(): [fmt] is the format of the description, [description]
    the text it gives. *)
Definition memcmp_fail_report (ud_on_failure : bool) (now thread : Z) (type : option DataType)
    (address : Z) (actual expected : list Z) (fmt : option str) (description : str) (s : Shm) : outcome (Shm * thread_end) :=
  if ud_on_failure then Ret (s, Trapped)
  else
    s ← (if NoLogging cfg then Ret s
         else
           _ ← assertion (match fmt with Some fmt => bool_decide (newline ∉ fmt) | None => true end);
           offset ← memcmp_offset actual expected (length actual);
           report ← match current_output_format cfg with
                    | no_output => Ret []
                    | _ =>
                        escaped ← of_option (escape_for_single_line (match fmt with Some (_ :: _) => description | _ => [] end));
                        logging_format_data type escaped address actual expected offset
                    end;
           logging_report_mismatched_data cfg now thread report actual expected offset s);
    report_fail_common now thread s.
End Report.

(** * Facts *)

Lemma memcmp_loop_spec size d1 d2 i :
  length d1 = size -> length d2 = size ->
  exists r, memcmp_loop size d1 d2 i = Ret r /\
    ((r = -1 /\ d1 = d2) \/
     (i <= r < i + Z.of_nat size /\ take (Z.to_nat (r - i)) d1 = take (Z.to_nat (r - i)) d2 /\
      exists a b, d1 !! Z.to_nat (r - i) = Some a /\ d2 !! Z.to_nat (r - i) = Some b /\ a <> b)).
Proof.
  revert d1 d2 i. induction size as [|size IH]; intros d1 d2 i H1 H2.
  { destruct d1, d2; try done. exists (-1). auto. }
  destruct d1 as [|a d1], d2 as [|b d2]; try done. simpl in *. destruct (Z.eqb_spec a b) as [->|Hne].
  - destruct (IH d1 d2 (i + 1)) as (r & Hr & Hcase); [lia|lia|]. exists r. split; [done|].
    destruct Hcase as [[-> ->]|(Hi & Ht & x & y & Hx & Hy & Hne)]; [by left|right].
    replace (Z.to_nat (r - i)) with (S (Z.to_nat (r - (i + 1)))) by lia. simpl. split; [lia|]. split; [by rewrite Ht|]. eauto.
  - exists i. split; [done|]. right. rewrite Z.sub_diag. simpl. split; [lia|]. split; [done|]. eauto.
Qed.

(** Comparing two buffers of the same size finds the first byte that differs, or
    says that there is none. *)
Lemma memcmp_offset_spec d1 d2 : length d1 = length d2 ->
  exists r, memcmp_offset d1 d2 (length d1) = Ret r /\
    ((r = -1 /\ d1 = d2) \/
     (0 <= r < len d1 /\ take (Z.to_nat r) d1 = take (Z.to_nat r) d2 /\
      exists a b, d1 !! Z.to_nat r = Some a /\ d2 !! Z.to_nat r = Some b /\ a <> b)).
Proof. intros H. destruct (memcmp_loop_spec (length d1) d1 d2 0) as (r & Hr & Hc); [done|done|]. exists r. by rewrite Z.sub_0_r in Hc. Qed.

Lemma lxor_byte a b : 0 <= a < 256 -> 0 <= b < 256 -> 0 <= Z.lxor a b < 256.
Proof.
  intros Ha Hb. assert (0 <= Z.lxor a b) by (apply Z.lxor_nonneg; split; lia). split; [done|].
  destruct (Z.eq_dec (Z.lxor a b) 0); [lia|]. change 256 with (2 ^ 8). apply Z.log2_lt_pow2; [lia|].
  pose proof (Z.log2_lxor a b ltac:(lia) ltac:(lia)).
  assert (forall c, 0 <= c < 256 -> Z.log2 c < 8) as Hlog.
  { intros c Hc. destruct (Z.eq_dec c 0) as [->|]; [simpl; lia|]. apply Z.log2_lt_pow2; simpl; lia. }
  pose proof (Hlog a Ha). pose proof (Hlog b Hb). lia.
Qed.

Lemma bytes_ok_lxor a b : bytes_ok a -> bytes_ok b -> bytes_ok (zip_with Z.lxor a b).
Proof.
  intros Ha. revert b. induction Ha as [|x a Hx Ha IH]; intros b Hb; [constructor|].
  destruct Hb as [|y b Hy Hb]; [constructor|]. simpl. constructor; [by apply lxor_byte|by apply IH].
Qed.

Lemma lxor_bytes a b x y : 0 <= a < 256 -> 0 <= b < 256 ->
  Z.lxor a b + 256 * Z.lxor x y = Z.lxor (a + 256 * x) (b + 256 * y).
Proof.
  intros Ha Hb. change 256 with (2 ^ 8). rewrite !(Z.mul_comm (2 ^ 8)), <- !Z.shiftl_mul_pow2 by lia.
  assert (forall c z, 0 <= c < 256 -> c + Z.shiftl z 8 = Z.lxor c (Z.shiftl z 8)) as Hadd.
  { intros c z Hc. apply Z.add_nocarry_lxor. apply Z.bits_inj'. intros n Hn. rewrite Z.land_spec, Z.bits_0.
    destruct (Z.ltb_spec n 8); [by rewrite Z.shiftl_spec_low, andb_false_r|].
    rewrite (Z.bits_above_log2 c); [done|lia|]. destruct (Z.eq_dec c 0) as [->|]; [simpl; lia|].
    apply Z.log2_lt_pow2; [lia|]. pose proof (Z.pow_le_mono_r 2 8 n). lia. }
  pose proof (lxor_byte a b Ha Hb).
  rewrite !Hadd, Z.shiftl_lxor by done.
  rewrite <- !Z.lxor_assoc. f_equal. rewrite !Z.lxor_assoc. f_equal. apply Z.lxor_comm.
Qed.

Lemma le_value_lxor a b : length a = length b -> bytes_ok a -> bytes_ok b ->
  le_value (zip_with Z.lxor a b) = Z.lxor (le_value a) (le_value b).
Proof.
  revert b. induction a as [|x a IH]; intros [|y b] Hl Ha Hb; try done.
  apply Forall_cons in Ha as [Hx Ha]. apply Forall_cons in Hb as [Hy Hb]. cbn [zip_with le_value].
  rewrite IH by (try done; simpl in Hl; lia). apply lxor_bytes; [exact Hx|exact Hy].
Qed.

Lemma le_value_inj a b : length a = length b -> bytes_ok a -> bytes_ok b -> le_value a = le_value b -> a = b.
Proof. intros Hl Ha Hb H. rewrite <- (le_bytes_value a), <- (le_bytes_value b) by done. by rewrite Hl, H. Qed.

(** Below 4 GiB the mask keeps what it should. *)
Lemma aligned_offset_spec t offset : 0 <= offset < 2 ^ 32 ->
  aligned_offset t offset = type_size t * (offset / type_size t) /\ 0 < type_size t.
Proof.
  intros Ho. destruct (type_sizes t) as ((k & Hk & Ha) & Hr & _).
  assert (type_size t <= 64) as H64 by (clear; destruct t; by vm_compute).
  assert (aligned_offset t offset = Z.land offset (Z.lnot (type_alignment t - 1))) as ->.
  { unfold aligned_offset, type_alignment in *. rewrite (wrap_u_small 32 (type_size t - 1)) by (unfold in_u; lia).
    unfold u32, wrap_u. rewrite <- land_ones_mod, (Z.land_comm _ (2 ^ 32 - 1)), Z.land_assoc, land_ones_mod by lia.
    by rewrite Z.mod_small by lia. }
  unfold type_alignment in *. assert (0 < 2 ^ k) by (apply Z.pow_pos_nonneg; lia). rewrite Ha.
  split; [|lia]. replace (Z.lnot (2 ^ k - 1)) with (Z.lnot (Z.ones k)) by (rewrite Z.ones_equiv; f_equal; lia).
  rewrite <- Z.ldiff_land, Z.ldiff_ones_r, Z.shiftl_mul_pow2, Z.shiftr_div_pow2 by lia. lia.
Qed.

(** The part of a buffer that one value of a type occupies. *)
Definition element (t : DataType) (offset : Z) (data : list Z) : list Z :=
  take (Z.to_nat (type_real_size t)) (drop (Z.to_nat (aligned_offset t offset)) data).

Lemma element_bounds t (data : list Z) offset :
  0 <= offset < len data -> len data <= 2 ^ 32 -> (type_size t | len data) ->
  let a := aligned_offset t offset in
  0 <= a /\ a <= offset < a + type_size t /\ a + type_size t <= len data /\ len (element t offset data) = type_real_size t.
Proof.
  intros Ho Hlen [q Hq] a. destruct (aligned_offset_spec t offset) as [Ha Hpos]; [lia|]. destruct (type_sizes t) as (_ & Hr & _).
  fold a in Ha. pose proof (Z_div_mod_eq_full offset (type_size t)). pose proof (Z.mod_pos_bound offset (type_size t) Hpos).
  assert (offset / type_size t < q) by (apply Z.div_lt_upper_bound; lia).
  assert (a + type_size t <= len data) by nia.
  assert (0 <= a) by (rewrite Ha; apply Z.mul_nonneg_nonneg; [lia|apply Z.div_pos; lia]).
  split; [done|]. split; [lia|]. split; [done|]. unfold element, len in *. fold a. rewrite length_take, length_drop. lia.
Qed.

Lemma mismatch_mask_ok t actual expected offset :
  length actual = length expected -> len actual <= 2 ^ 32 -> bytes_ok actual -> bytes_ok expected -> (type_size t | len actual) ->
  memcmp_offset actual expected (length actual) = Ret offset -> 0 <= offset ->
  let a := aligned_offset t offset in
  a <= offset < a + type_size t /\ a + type_size t <= len actual /\
  exists mask, xor_mask t actual expected offset = Ret mask /\ len mask = type_real_size t /\
    le_value mask = Z.lxor (le_value (element t offset actual)) (le_value (element t offset expected)) /\
    (offset - a < type_real_size t -> le_value mask <> 0).
Proof.
  intros Hl Hlen Hba Hbe Hdiv Hm Ho a.
  destruct (memcmp_offset_spec actual expected Hl) as (r & Hr & Hc). rewrite Hr in Hm. injection Hm as ->.
  destruct Hc as [[-> _]|(Hrange & _ & x & y & Hx & Hy & Hne)]; [done|].
  destruct (element_bounds t actual offset Hrange Hlen Hdiv) as (Ha0 & Hao & Hal & Hea).
  destruct (element_bounds t expected offset) as (_ & _ & _ & Hee); [unfold len in *; lia..|unfold len in *; by rewrite <- Hl|].
  fold a in Ha0, Hao, Hal. destruct (type_sizes t) as (_ & Hrs & Hms).
  split; [done|]. split; [done|]. exists (zip_with Z.lxor (element t offset actual) (element t offset expected)).
  assert (bytes_ok (element t offset actual) /\ bytes_ok (element t offset expected)) as [Hb1 Hb2]
    by (split; by apply bytes_ok_take, bytes_ok_drop).
  assert (length (element t offset actual) = length (element t offset expected)) as Hle by (unfold len in *; lia).
  split.
  { unfold xor_mask. fold a. unfold len in Hal, Hl. rewrite !read_at_ret by lia. cbn [mbind outcome_bind].
    unfold assertion. by rewrite (proj2 (Z.leb_le (type_real_size t) MaxDataTypeSize)) by lia. }
  split; [unfold len in *; rewrite length_zip_with; lia|]. rewrite le_value_lxor by done. split; [done|].
  intros Hin Hz%Z.lxor_eq. apply le_value_inj in Hz; [|done..].
  assert (forall d, element t offset d !! Z.to_nat (offset - a) = d !! Z.to_nat offset) as Hlook.
  { intros d. unfold element. fold a. rewrite lookup_take_lt by lia. rewrite lookup_drop. f_equal. lia. }
  pose proof (Hlook actual) as E1. rewrite Hz, Hlook, Hx, Hy in E1. by injection E1.
Qed.

(** A data mismatch report, on buffers of up to 4 GiB, shows the value that
    differs: the element that the
    first differing byte belongs to lies within the buffers, the mask that is
    printed is the exclusive or of the actual and the expected value, and is not
    zero unless the byte is padding of the type. *)
Theorem mismatch_mask_spec t actual expected offset :
  length actual = length expected -> len actual <= 2 ^ 32 -> bytes_ok actual -> bytes_ok expected -> (type_size t | len actual) ->
  memcmp_offset actual expected (length actual) = Ret offset -> 0 <= offset ->
  let a := aligned_offset t offset in
  a <= offset < a + type_size t /\ a + type_size t <= len actual /\
  exists mask, xor_mask t actual expected offset = Ret mask /\ len mask = type_real_size t /\
    le_value mask = Z.lxor (le_value (element t offset actual)) (le_value (element t offset expected)) /\
    (offset - a < type_real_size t -> le_value mask <> 0).
Proof. apply mismatch_mask_ok. Qed.

Lemma mismatch_mask_spec_witness :
  exists mask, xor_mask UInt16Data [1; 2; 3; 4] [1; 2; 3; 5] 3 = Ret mask /\ le_value mask <> 0.
Proof.
  destruct (mismatch_mask_spec UInt16Data [1; 2; 3; 4] [1; 2; 3; 5] 3) as (_ & _ & mask & Hm & _ & _ & Hn);
    [done|done|repeat (constructor; [done|]); constructor|repeat (constructor; [done|]); constructor|by exists 2|done|done|].
  exists mask. split; [done|]. apply Hn. vm_compute. done.
Defined.

(** Beyond 4 GiB the mask drops the upper half of the offset, so that the report
    shows another element. *)
Example mismatch_beyond_4GiB : aligned_offset UInt64Data (2 ^ 32 + 13) = 8.
Proof. by vm_compute. Qed.

(** Padding: the last six bytes of a long double are compared but not shown. *)
Example mismatch_in_padding :
  let data1 := replicate 16 0 in let data2 := replicate 12 0 ++ [1; 0; 0; 0] in
  memcmp_offset data1 data2 16 = Ret 12 /\ xor_mask Float80Data data1 data2 12 = Ret (replicate 10 0).
Proof. by vm_compute. Qed.

Lemma log_message_for_thread_ret thread t level msg s c :
  thread_data thread s = Ret c ->
  exists s', log_message_for_thread thread t level msg s = Ret s' /\
    thread_data thread s' = Ret (append_log (encode_message t level msg) c) /\
    (forall th, th <> thread -> thread_data th s' = thread_data th s).
Proof.
  intros Hc. unfold log_message_for_thread.
  destruct (update_thread_ret thread (append_log (encode_message t level msg)) s c Hc) as [s' Hs]. exists s'. split; [done|].
  split; [by rewrite (thread_data_update _ thread _ _ _ Hs), decide_True, Hc by done|].
  intros th Hth. by rewrite (thread_data_update _ th _ _ _ Hs), decide_False by done.
Qed.

(** The log of [thread] only grew from [s] to [s'], its failure was kept and no
    other thread was touched. *)
Definition log_grew (thread : Z) (s s' : Shm) : Prop :=
  (forall th, th <> thread -> thread_data th s' = thread_data th s) /\
  exists c c', thread_data thread s = Ret c /\ thread_data thread s' = Ret c' /\
    log_fd c `prefix_of` log_fd c' /\ has_failed c' = has_failed c.

Lemma log_grew_refl thread s c : thread_data thread s = Ret c -> log_grew thread s s.
Proof. intros Hc. split; [done|]. by exists c, c. Qed.
Lemma log_grew_trans thread s1 s2 s3 : log_grew thread s1 s2 -> log_grew thread s2 s3 -> log_grew thread s1 s3.
Proof.
  intros [Ho1 (c1 & c2 & H1 & H2 & Hp & Hf)] [Ho2 (c2' & c3 & H2' & H3 & Hp' & Hf')].
  rewrite H2 in H2'. injection H2' as <-. split; [intros th Hth; by rewrite Ho2, Ho1|].
  exists c1, c3. split; [done|]. split; [done|]. split; [by etrans|]. by rewrite Hf', Hf.
Qed.

Lemma log_message_grows thread t level msg s c : thread_data thread s = Ret c ->
  exists s', log_message_for_thread thread t level msg s = Ret s' /\ log_grew thread s s'.
Proof.
  intros Hc. destruct (log_message_for_thread_ret thread t level msg s c Hc) as (s' & Hs & Hd & Ho).
  exists s'. split; [done|]. split; [done|]. eexists _, _. split; [done|]. split; [done|]. split; [|done]. by apply prefix_app_r.
Qed.

Lemma log_data_common_grows cfg thread message data s c :
  current_output_format cfg <> no_output -> thread_data thread s = Ret c ->
  exists s', log_data_common cfg thread message data true s = Ret s' /\ log_grew thread s s'.
Proof.
  intros Hf Hc. unfold log_data_common. destruct (current_output_format cfg); [done|..]; by eapply log_message_grows.
Qed.

Lemma report_mismatched_grows cfg now thread report actual expected offset s c :
  current_output_format cfg <> no_output -> thread_data thread s = Ret c -> now < time_max ->
  exists s' c1 c', logging_report_mismatched_data cfg now thread report actual expected offset s = Ret s' /\
    thread_data thread s' = Ret c' /\ has_failed c' = true /\ log_fd c1 = log_fd c ++ encode_message Preformatted 0 report /\
    log_fd c1 `prefix_of` log_fd c' /\ (forall th, th <> thread -> thread_data th s' = thread_data th s).
Proof.
  intros Hfmt Hc Hnow. unfold logging_report_mismatched_data.
  destruct (mark_failed_data now thread s c Hc) as (s1 & Hs1 & Hd1 & Ho1). rewrite Hs1. cbn [mbind outcome_bind].
  set (c0 := if has_failed c then c else set_fail_time now c) in *.
  assert (has_failed c0 = true /\ log_fd c0 = log_fd c) as [Hf0 Hl0].
  { unfold c0. destruct (has_failed c) eqn:E; [done|]. split; [|done]. unfold has_failed. by apply Z.ltb_lt. }
  destruct (log_message_for_thread_ret thread Preformatted LOG_LEVEL_QUIET report s1 c0 Hd1) as (s2 & Hs2 & Hd2 & Ho2).
  set (c1 := append_log (encode_message Preformatted LOG_LEVEL_QUIET report) c0) in *.
  assert (exists s', (if offset <? 0 then Ret s2 else
      c ← thread_data thread s2;
      s ← update_thread thread (add_data_bytes (u32 (2 * len actual))) s2;
      let '(start, n) := mismatch_window (max_logdata_per_thread cfg) (data_bytes_logged c) (len actual) offset in
      let do_log_data name which s :=
        let message := match current_output_format cfg with
          | yaml => indent_spaces cfg ++ L "       " ++ name ++ L " data:"
          | _ => L "Bytes " ++ to_string start ++ L ".." ++ to_string (start + n - 1) ++ L " of " ++ name end in
        log_data_common cfg thread message (take (Z.to_nat n) (drop (Z.to_nat start) which)) true s in
      s ← do_log_data (L "actual") actual s;
      do_log_data (L "expected") expected s) = Ret s' /\ log_grew thread s2 s') as (s' & Hs' & Hg).
  { destruct (offset <? 0); [exists s2; split; [done|by eapply log_grew_refl]|]. rewrite Hd2. cbn [mbind outcome_bind].
    destruct (update_thread_ret thread (add_data_bytes (u32 (2 * len actual))) s2 _ Hd2) as [s3 Hs3]. rewrite Hs3. cbn [mbind outcome_bind].
    pose proof (fun th => thread_data_update thread th _ _ _ Hs3) as Hu.
    assert (thread_data thread s3 = Ret (add_data_bytes (u32 (2 * len actual)) c1)) as Hd3 by (by rewrite Hu, decide_True, Hd2).
    destruct (mismatch_window _ _ _ _) as [start n]. cbv zeta.
    edestruct log_data_common_grows as (s4 & Hs4 & Hg4); [exact Hfmt|exact Hd3|]. rewrite Hs4. cbn [mbind outcome_bind].
    pose proof Hg4 as (_ & _ & c4 & _ & Hd4 & _).
    edestruct log_data_common_grows as (s5 & Hs5 & Hg5); [exact Hfmt|exact Hd4|]. exists s5. split; [exact Hs5|].
    eapply log_grew_trans, log_grew_trans, Hg5; [|exact Hg4]. split; [intros th Hth; by rewrite Hu, decide_False|].
    eexists _, _. split; [exact Hd2|]. split; [exact Hd3|]. done. }
  destruct Hg as [Hoth (x & c' & Hx & Hc' & Hp & Hf')]. rewrite Hd2 in Hx. injection Hx as <-.
  exists s', c1, c'. split.
  { destruct (current_output_format cfg); [done|..]; rewrite Hs2; exact Hs'. }
  split; [done|]. split; [by rewrite Hf'|]. split; [simpl; by rewrite Hl0|]. split; [done|].
  intros th Hth. by rewrite Hoth, Ho2, Ho1.
Qed.

Lemma read_at_bytes_ok n off data bs : bytes_ok data -> read_at n off data = Ret bs -> bytes_ok bs.
Proof. unfold read_at. intros Hd. case_match; [|done]. intros [= <-]. by apply bytes_ok_take, bytes_ok_drop. Qed.
Lemma xor_mask_bytes_ok t data1 data2 offset mask :
  bytes_ok data1 -> bytes_ok data2 -> xor_mask t data1 data2 offset = Ret mask -> bytes_ok mask.
Proof. unfold xor_mask. intros H1 H2 H. inv_ret.
  apply bytes_ok_lxor; [exact (read_at_bytes_ok _ _ _ _ H1 Ha)|exact (read_at_bytes_ok _ _ _ _ H2 Ha0)].
Qed.

(** The kernel always gives the eight bytes of a descriptor, or an error. *)
Definition pagemap_whole (pagemap : option (Z -> pread_result)) : Prop :=
  forall pread off, pagemap = Some pread -> pread off <> PreadShort.

Lemma retrieve_physical_address_ret pagemap v : pagemap_whole pagemap -> exists r, retrieve_physical_address pagemap v = Ret r.
Proof.
  intros Hp. unfold retrieve_physical_address. case_match; [eauto|]. destruct pagemap as [pread|]; [|eauto].
  specialize (Hp pread (v / PAGE_SIZE * 8) eq_refl). destruct (pread _); [eauto|done|]. repeat case_match; eauto.
Qed.

Section Returns.
Context (pf pd pl : Z -> str) (pagemap : option (Z -> pread_result)) (cfg : LogCfg).
Context (Hpagemap : pagemap_whole pagemap) (Hfmt : current_output_format cfg <> no_output).

Lemma formatAddresses_ret sp address : exists text, formatAddresses pagemap sp address = Ret text.
Proof using Hpagemap.
  unfold formatAddresses. destruct (retrieve_physical_address_ret pagemap address Hpagemap) as (r & ->). eexists. reflexivity.
Qed.

(** logging_format_data() returns for every pair of buffers that holds whole
    values of the type; the digits of the mask are those of the mask. *)
Lemma format_data_ret type description address actual expected offset :
  let t := default UInt8Data type in
  length actual = length expected -> len actual <= 2 ^ 32 -> bytes_ok actual -> bytes_ok expected -> (type_size t | len actual) ->
  memcmp_offset actual expected (length actual) = Ret offset ->
  exists text, logging_format_data pf pd pl pagemap cfg type description address actual expected offset = Ret text.
Proof using Hpagemap Hfmt.
  intros t Hl Hlen Hba Hbe Hdiv Hm. unfold logging_format_data. fold t.
  assert (exists head, match current_output_format cfg with
    | tap | key_value => Ret (L "  - data-miscompare:" ++ [newline])
    | yaml => Ret (drop 3 (spaces (output_yaml_indent cfg + 7)) ++ L "- level: error" ++ [newline] ++
                   drop 3 (spaces (output_yaml_indent cfg + 7)) ++ L "  data-miscompare:" ++ [newline])
    | no_output => Ub end = Ret head) as [head Hhead] by (destruct (current_output_format cfg); eauto; done).
  rewrite Hhead. cbn [mbind outcome_bind]. destruct (Z.leb_spec 0 offset) as [Ho|Ho].
  - destruct (mismatch_mask_ok t actual expected offset Hl Hlen Hba Hbe Hdiv Hm Ho) as (Hao & Hal & mask & Hmask & Hlm & _).
    rewrite Hmask. cbn [mbind outcome_bind]. destruct (type_sizes t) as (_ & Hrs & _).
    assert (0 <= aligned_offset t offset) as Ha0.
    { destruct (aligned_offset_spec t offset) as [-> Hp]; [unfold len in *; lia|]. apply Z.mul_nonneg_nonneg; [lia|apply Z.div_pos; lia]. }
    destruct (formatAddresses_ret (spaces (output_yaml_indent cfg + 7)) (address + offset)) as [x ->]. cbn [mbind outcome_bind].
    assert (forall d detailed, bytes_ok d -> type_real_size t <= len d ->
      exists text, format_single_type pf pd pl t (type_real_size t) d detailed = Ret text) as Hfs.
    { intros d detailed Hb Hd. destruct (format_single_type_ok pf pd pl t d Hb Hd) as (dg & rest & E1 & E2 & _). destruct detailed; eauto. }
    pose proof (xor_mask_bytes_ok _ _ _ _ _ Hba Hbe Hmask) as Hbm.
    destruct (Hfs (drop (Z.to_nat (aligned_offset t offset)) actual) true) as [y ->];
      [by apply bytes_ok_drop|unfold len in *; rewrite length_drop; lia|]. cbn [mbind outcome_bind].
    destruct (Hfs (drop (Z.to_nat (aligned_offset t offset)) expected) true) as [z ->];
      [by apply bytes_ok_drop|unfold len in *; rewrite length_drop; lia|]. cbn [mbind outcome_bind].
    destruct (Hfs mask false) as [w ->]; [done|lia|]. eexists. reflexivity.
  - destruct (formatAddresses_ret (spaces (output_yaml_indent cfg + 7)) address) as [x ->]. eexists. reflexivity.
Qed.

(** C24. Reporting a data mismatch. The buffers have the same size, up to 4 GiB
    and a whole number of elements of the type; a log format is chosen, the
    program is built with logging and not told to trap on a failure, the format
    of the description has no newline, and the kernel answers reads of the
    pagemap with whole entries or an error. Then, wherever the buffers differ, if
    they do, the report returns: the calling thread ends and has failed, its log
    has grown by the description of the mismatch before anything else, and no
    other thread is touched. When there is a difference, the element described is
    the one that the first differing byte belongs to, it lies within the buffers,
    and its mask is the exclusive or of the actual and the expected value, not
    zero unless the byte is padding of the type. (The bounds are needed: beyond
    4 GiB another element is shown, Example [mismatch_beyond_4GiB]; a difference
    in padding shows as a zero mask, Example [mismatch_in_padding].) *)
Theorem memcmp_fail_report_spec now thread type address actual expected fmt description s c :
  let t := default UInt8Data type in
  length actual = length expected -> len actual <= 2 ^ 32 -> bytes_ok actual -> bytes_ok expected ->
  (type_size t | len actual) ->
  match fmt with Some f => newline ∉ f | None => True end ->
  NoLogging cfg = false -> thread_data thread s = Ret c -> now < time_max ->
  exists s' c' offset escaped report rest,
    memcmp_fail_report pf pd pl pagemap cfg false now thread type address actual expected fmt description s = Ret (s', Cancelled) /\
    memcmp_offset actual expected (length actual) = Ret offset /\
    logging_format_data pf pd pl pagemap cfg type escaped address actual expected offset = Ret report /\
    thread_data thread s' = Ret c' /\ has_failed c' = true /\
    log_fd c' = log_fd c ++ encode_message Preformatted 0 report ++ rest /\
    (forall th, th <> thread -> thread_data th s' = thread_data th s) /\
    if offset <? 0 then actual = expected
    else
      let a := aligned_offset t offset in
      a <= offset < a + type_size t /\ a + type_size t <= len actual /\
      exists mask, xor_mask t actual expected offset = Ret mask /\ len mask = type_real_size t /\
        le_value mask = Z.lxor (le_value (element t offset actual)) (le_value (element t offset expected)) /\
        (offset - a < type_real_size t -> le_value mask <> 0).
Proof using Hpagemap Hfmt.
  intros t Hl Hlen Hba Hbe Hdiv Hnl Hlog Hc Hnow. destruct (memcmp_offset_spec actual expected Hl) as (offset & Hoff & Hcase).
  set (escaped := double_quotes (match fmt with Some (_ :: _) => description | _ => [] end)).
  destruct (format_data_ret type escaped address actual expected offset Hl Hlen Hba Hbe Hdiv Hoff) as [report Hrep].
  destruct (report_mismatched_grows cfg now thread report actual expected offset s c Hfmt Hc Hnow) as (s1 & c1 & c' & Hs1 & Hc' & Hf & Hlog1 & [rest Hpre] & Hoth).
  destruct (mark_failed_data now thread s1 c' Hc') as (s2 & Hs2 & Hd2 & Ho2). rewrite Hf in Hd2.
  exists s2, c', offset, escaped, report, rest. split.
  { unfold memcmp_fail_report, report_fail_common. rewrite Hlog.
    assert (match fmt with Some f => bool_decide (newline ∉ f) | None => true end = true) as -> by (destruct fmt; [by apply bool_decide_eq_true|done]).
    rewrite Hoff. cbn [mbind outcome_bind assertion].
    rewrite escape_doubles. fold escaped. cbn [mbind outcome_bind of_option].
    destruct (current_output_format cfg) eqn:E; [done|..]; rewrite Hrep; cbn [mbind outcome_bind]; rewrite Hs1; cbn [mbind outcome_bind]; by rewrite Hs2. }
  split; [done|]. split; [done|]. split; [done|]. split; [done|]. split; [by rewrite Hpre, Hlog1, <- app_assoc|].
  split; [intros th Hth; by rewrite Ho2, Hoth|].
  destruct (Z.ltb_spec offset 0); [destruct Hcase as [[_ ?]|[? _]]; [done|lia]|].
  by apply mismatch_mask_ok.
Qed.
End Returns.

Lemma memcmp_fail_report_spec_witness :
  exists s', memcmp_fail_report (fun _ => []) (fun _ => []) (fun _ => []) None cfg0 false 5 1 (Some UInt16Data) 65536
      [1; 2; 3; 4] [1; 2; 3; 5] None [] (idle_shm 1 2) = Ret (s', Cancelled) /\
    (exists c', thread_data 1 s' = Ret c' /\ has_failed c' = true) /\ thread_data 0 s' = Ret idle_common.
Proof.
  destruct (memcmp_fail_report_spec (fun _ => []) (fun _ => []) (fun _ => []) None cfg0 ltac:(done) ltac:(done) 5 1 (Some UInt16Data) 65536
      [1; 2; 3; 4] [1; 2; 3; 5] None [] (idle_shm 1 2) idle_common) as (s' & c' & ? & ? & ? & ? & H & _ & _ & Hc & Hf & _ & Ho & _);
    [done|done|repeat (constructor; [done|]); constructor|repeat (constructor; [done|]); constructor|by exists 2|done|done|done|done|].
  exists s'. split; [exact H|]. split; [by exists c'|]. by rewrite (Ho 0).
Defined.

(** A physical address that is reported is that of the virtual one: the page is
    present, the position in the page is kept, and the page frame is the one the
    kernel gave, as far as 54 bits of it go. *)
Theorem physical_address_spec pagemap v r :
  0 <= v < 2 ^ 64 -> retrieve_physical_address pagemap v = Ret r -> r <> 0 ->
  exists pread d, pagemap = Some pread /\ pread (v / PAGE_SIZE * 8) = Pread d /\ i64 d < 0 /\
    PAGE_SIZE <= v < 2 ^ 64 - PAGE_SIZE /\
    r = PAGE_SIZE * (d mod 2 ^ 52) + v mod PAGE_SIZE /\ r mod PAGE_SIZE = v mod PAGE_SIZE.
Proof.
  intros Hv. unfold retrieve_physical_address, PAGE_SIZE, PAGE_SHIFT.
  destruct (Z.ltb_spec v 4096), (Z.ltb_spec (2 ^ 64 - 1 - 4096) v); simpl; try (by intros [= <-]).
  destruct pagemap as [pread|]; [|by intros [= <-]]. destruct (pread (v / 4096 * 8)) as [| |d] eqn:E; [by intros [= <-]|done|].
  destruct (Z.leb_spec 0 (i64 d)); [by intros [= <-]|]. case_match; [by intros [= <-]|]. intros [= Hr] Hnz.
  exists pread, d. split; [done|]. split; [done|]. split; [done|]. split; [lia|].
  change 4095 with (2 ^ 12 - 1) in Hr. change (4096 - 1) with (2 ^ 12 - 1) in Hr. rewrite !land_ones_mod in Hr by lia.
  rewrite Z.shiftl_mul_pow2 in Hr by lia. unfold u64, wrap_u in Hr.
  change (2 ^ 64) with (2 ^ 52 * 2 ^ 12) in Hr. rewrite Z.mul_mod_distr_r in Hr by lia.
  change (2 ^ 54) with (2 ^ 52 * 2 ^ 2) in Hr. rewrite (Z.rem_mul_r d) in Hr by lia.
  rewrite (Z.mul_comm (2 ^ 52) ((d / 2 ^ 52) mod 2 ^ 2)), Z_mod_plus_full, Zmod_mod in Hr.
  pose proof (Z.mod_pos_bound d (2 ^ 52) ltac:(lia)). pose proof (Z.mod_pos_bound v (2 ^ 12) ltac:(lia)).
  rewrite Z.mod_small in Hr by lia. change (2 ^ 12) with 4096 in *.
  split; [lia|]. rewrite <- Hr. rewrite Z.add_comm, Z_mod_plus_full, Zmod_mod. done.
Qed.

Lemma physical_address_spec_witness :
  exists pread d, Some (fun _ => Pread (2 ^ 63 + 7)) = Some pread /\ pread (0x12345 / PAGE_SIZE * 8) = Pread d /\ i64 d < 0 /\
    PAGE_SIZE <= 0x12345 < 2 ^ 64 - PAGE_SIZE /\ 0x7345 = PAGE_SIZE * (d mod 2 ^ 52) + 0x12345 mod PAGE_SIZE /\ 0x7345 mod PAGE_SIZE = 0x12345 mod PAGE_SIZE.
Proof. by apply (physical_address_spec (Some (fun _ => Pread (2 ^ 63 + 7))) 0x12345 0x7345). Defined.

(** The page frame number has 55 bits; its highest one is dropped. *)
Example page_frame_bit54 :
  retrieve_physical_address (Some (fun _ => Pread (2 ^ 63 + 2 ^ 54 + 1))) 0x12345 = Ret 0x1345.
Proof. by vm_compute. Qed.
