(* ===== verification/Background.v ===== *)
(** The background scan (sandstone.cpp): a service that runs tests all day, few
    at a time and when the system is idle.

    Times are nanoseconds of the monotonic clock. The code compares the load in
    single precision, which is computed here bit for bit with the Standard
    Library's [SpecFloat]. What the system does is a parameter: the readings of
    the clock and of /proc/loadavg and whether a sleep is interrupted, each
    numbered from the start of a wait, and the random deviation of each sleep. *)

From Stdlib Require Import SpecFloat.
From S2P Require Import Prelude.

(** * Single precision *)

Definition of_long (z : Z) : spec_float := binary_normalize 24 128 z 0 false.
Definition fadd : spec_float -> spec_float -> spec_float := SFadd 24 128.
Definition fmul : spec_float -> spec_float -> spec_float := SFmul 24 128.
Definition infinity : spec_float := S754_infinity false.

(** 0.2f, 0.05f and 0.8f *)
Definition load_idle_threshold_init : spec_float := binary_normalize 24 128 13421773 (-26) false.
Definition load_idle_threshold_inc_val : spec_float := binary_normalize 24 128 13421773 (-28) false.
Definition load_idle_threshold_max : spec_float := binary_normalize 24 128 13421773 (-24) false.

(** * Constants *)

Definition second : Z := 1000000000.
Definition MinimumDelayBetweenTests : Z := 300 * second.
Definition DelayBetweenTestBatch : Z := 24 * 3600 * second.
Definition MaximumDelayBetweenTests : Z := Z.quot DelayBetweenTestBatch 2.

(** * State *)

Record SandstoneBackgroundScan := { timestamp : list Z; load_idle_threshold : spec_float }.
Definition timestamps : nat := 24.

(** The block that holds the time stamps, of the file or anonymous. *)
Record FileLayout := { initialized : bool; file_timestamp : list Z }.

(** new (memblock) FileLayout: the default constructor of std::atomic gives it the
    value 0 (the build selects C++20); the array is left as it is. *)
Definition new_FileLayout (memblock : FileLayout) : FileLayout :=
  {| initialized := false; file_timestamp := file_timestamp memblock |}.

(** background_scan_init(), with the contents of the block that was mapped. *)
Definition background_scan_init (service : bool) (memblock : FileLayout) (now : Z) (b : SandstoneBackgroundScan)
  : SandstoneBackgroundScan * FileLayout :=
  if negb service then (b, memblock)
  else
    let file := new_FileLayout memblock in
    let ts := if initialized file then file_timestamp file else replicate timestamps (now - DelayBetweenTestBatch) in
    ({| timestamp := ts; load_idle_threshold := load_idle_threshold b |}, {| initialized := true; file_timestamp := ts |}).

(** background_scan_update_load_threshold(): more each hour, up to a limit. *)
Definition background_scan_update_load_threshold (now : Z) (b : SandstoneBackgroundScan) : outcome SandstoneBackgroundScan :=
  front ← of_option (head (timestamp b));
  let time_from_last_test := Z.quot (now - front) (3600 * second) in
  let threshold := fadd load_idle_threshold_init (fmul (of_long time_from_last_test) load_idle_threshold_inc_val) in
  Ret {| timestamp := timestamp b;
         load_idle_threshold := if SFltb load_idle_threshold_max threshold then load_idle_threshold_max else threshold |}.

(** * Waiting *)

Record World := {
  now_at : nat -> Z;                       (** the clock *)
  loadavg_at : nat -> option spec_float;   (** the second field of /proc/loadavg *)
  sleeps_at : nat -> bool;                 (** usleep() is not interrupted *)
  deviation_at : nat -> Z -> Z;            (** a random share of a number of microseconds, from -1.0 to 1.0 *)
}.

Section Wait.
Context (w : World).

Definition system_idle_load (n : nat) : spec_float := default infinity (loadavg_at w n).

(** The argument of usleep() in do_wait(): useconds_t has 32 bits. *)
Definition sleep_time (base_wait variable : Z) (n : nat) : Z :=
  u32 (Z.quot base_wait 1000 + deviation_at w n (Z.quot variable 1000)).

(** do_wait(): the number of microseconds slept, [None] when interrupted. *)
Definition do_wait (base_wait variable : Z) (n : nat) : option Z :=
  if sleeps_at w n then Some (sleep_time base_wait variable n) else None.

(** The loop, from the label skip_wait: whether a test may run, at which reading
    of the clock, and the state. *)
Fixpoint wait_loop (fuel n : nat) (b : SandstoneBackgroundScan) : option (outcome (bool * nat * SandstoneBackgroundScan)) :=
  match fuel with
  | O => None
  | S fuel =>
      let now := now_at w n in
      match background_scan_update_load_threshold now b, head (timestamp b) with
      | Ret b, Some front =>
          if SFltb (system_idle_load n) (load_idle_threshold b) then Some (Ret (true, n, b))
          else if front + MaximumDelayBetweenTests <? now then Some (Ret (true, n, b))
          else match do_wait MinimumDelayBetweenTests (Z.quot MinimumDelayBetweenTests 10) n with
               | None => Some (Ret (false, n, b))
               | Some _ => wait_loop fuel (S n) b
               end
      | _, _ => Some Ub
      end
  end.

(** std::move() of all but the last one, and the new one in front. *)
Definition push_timestamp (now : Z) (ts : list Z) : list Z := now :: take (length ts - 1) ts.

Definition background_scan_wait (fuel : nat) (b : SandstoneBackgroundScan) : option (outcome (bool * nat * SandstoneBackgroundScan)) :=
  let now := now_at w 0 in
  let b := {| timestamp := push_timestamp now (timestamp b); load_idle_threshold := load_idle_threshold b |} in
  match last (timestamp b) with
  | None => Some Ub
  | Some back =>
      let elapsed := now - back in
      let expected_start := DelayBetweenTestBatch - elapsed in
      let waited := if 0 <? expected_start
                    then do_wait (expected_start + MinimumDelayBetweenTests) MinimumDelayBetweenTests 0
                    else do_wait MinimumDelayBetweenTests (Z.quot MinimumDelayBetweenTests 10) 0 in
      match waited with
      | None => Some (Ret (false, O, b))
      | Some _ => wait_loop fuel 1 b
      end
  end.
End Wait.

(** * Facts *)

(** The clock advances by at least what was slept in the loop, and the deviation of a sleep is
    a share of its variable part. *)
Definition sleeps_long_enough (w : World) : Prop :=
  (forall n, now_at w n <= now_at w (S n)) /\
  (forall n t, (0 < n)%nat -> do_wait w MinimumDelayBetweenTests (Z.quot MinimumDelayBetweenTests 10) n = Some t ->
     now_at w n + 1000 * t <= now_at w (S n)).
Definition deviation_ok (w : World) : Prop := forall n v, 0 <= v -> - v <= deviation_at w n v <= v.

Lemma short_sleep w n : deviation_ok w ->
  270000000 <= sleep_time w MinimumDelayBetweenTests (Z.quot MinimumDelayBetweenTests 10) n.
Proof.
  intros Hd. unfold sleep_time. change (Z.quot MinimumDelayBetweenTests 1000) with 300000000.
  change (Z.quot (Z.quot MinimumDelayBetweenTests 10) 1000) with 30000000.
  pose proof (Hd n 30000000 ltac:(lia)). rewrite wrap_u_small by (unfold in_u; lia). lia.
Qed.

Lemma update_threshold_ret now b front : head (timestamp b) = Some front ->
  exists b', background_scan_update_load_threshold now b = Ret b' /\ timestamp b' = timestamp b.
Proof. intros Hf. unfold background_scan_update_load_threshold. rewrite Hf. by eexists. Qed.

(** However busy the system is: when the clock has passed 12 hours, a test runs. *)
Lemma wait_loop_ends w front : deviation_ok w -> sleeps_long_enough w ->
  forall fuel n b, (0 < n)%nat -> head (timestamp b) = Some front ->
  front + MaximumDelayBetweenTests < now_at w n + 270 * second * Z.of_nat fuel ->
  exists r n' b', wait_loop w (S fuel) n b = Some (Ret (r, n', b')) /\ timestamp b' = timestamp b /\ (n <= n' <= n + fuel)%nat.
Proof.
  intros Hd Hs. induction fuel as [|fuel IH]; intros n b Hpos Hf Hn; cbn [wait_loop];
    destruct (update_threshold_ret (now_at w n) b front Hf) as (b' & -> & Hb'); rewrite Hf.
  - destruct (SFltb _ _); [eexists _, _, _; split; [done|split; [done|lia]]|]. rewrite (proj2 (Z.ltb_lt _ _)) by lia.
    eexists _, _, _. split; [done|split; [done|lia]].
  - destruct (SFltb _ _); [eexists _, _, _; split; [done|split; [done|lia]]|].
    destruct (Z.ltb_spec (front + MaximumDelayBetweenTests) (now_at w n)); [eexists _, _, _; split; [done|split; [done|lia]]|].
    destruct (do_wait w _ _ n) as [t|] eqn:Ht; [|eexists _, _, _; split; [done|split; [done|lia]]].
    pose proof (proj2 Hs _ _ Hpos Ht) as Hadv. unfold do_wait in Ht. destruct (sleeps_at w n); [|done]. injection Ht as <-.
    pose proof (short_sleep w n Hd). destruct (IH (S n) b') as (r & n' & b'' & Hr & Hts & Hn').
    + lia.
    + by rewrite Hb'.
    + unfold second in *. lia.
    + exists r, n', b''. split; [exact Hr|]. split; [by rewrite Hts|lia].
Qed.

(** A wait between two tests of the background scan always ends, however busy
    the system stays, after at most 162 readings of the load: a test runs then, or
    the wait was interrupted. The time stamps are those of the last 24 waits. *)
Theorem background_scan_wait_ends w b :
  timestamp b <> [] -> deviation_ok w -> sleeps_long_enough w ->
  exists r n b', background_scan_wait w 162 b = Some (Ret (r, n, b')) /\ (n <= 162)%nat /\
    timestamp b' = now_at w 0 :: take (length (timestamp b) - 1) (timestamp b).
Proof.
  intros Hne Hd Hs. unfold background_scan_wait. cbn [timestamp].
  assert (exists back, last (push_timestamp (now_at w 0) (timestamp b)) = Some back) as [back ->].
  { unfold push_timestamp. rewrite last_cons. destruct (last (take _ _)); eauto. }
  match goal with |- context [match ?x with _ => _ end] => destruct x as [t|] end;
    [|by eexists _, _, _; split; [done|split; [lia|done]]].
  destruct (wait_loop_ends w (now_at w 0) Hd Hs 161 1
    {| timestamp := push_timestamp (now_at w 0) (timestamp b); load_idle_threshold := load_idle_threshold b |}) as (r & n & b' & Hr & Hts & Hn).
  - lia.
  - done.
  - pose proof (proj1 Hs 0%nat). change MaximumDelayBetweenTests with (43200 * second). unfold second. lia.
  - exists r, n, b'. split; [exact Hr|]. split; [lia|by rewrite Hts].
Qed.

(** A system that is never idle: the wait ends after 12 hours. *)
Definition busy_world : World :=
  {| now_at := fun n => 300 * second * Z.of_nat n; loadavg_at := fun _ => None; sleeps_at := fun _ => true; deviation_at := fun _ _ => 0 |}.

Lemma background_scan_wait_ends_witness :
  exists r n b', background_scan_wait busy_world 162 {| timestamp := replicate 24 (- DelayBetweenTestBatch); load_idle_threshold := infinity |}
    = Some (Ret (r, n, b')) /\ (n <= 162)%nat.
Proof.
  destruct (background_scan_wait_ends busy_world {| timestamp := replicate 24 (- DelayBetweenTestBatch); load_idle_threshold := infinity |})
    as (r & n & b' & H & Hn & _).
  - done.
  - intros n v Hv. simpl. lia.
  - split; [intros n; unfold busy_world, second; cbn [now_at]; lia|]. intros n t Hn [= <-]. unfold busy_world, second. cbn [now_at].
    vm_compute (sleep_time _ _ _ _). lia.
  - exists r, n, b'. split; [exact H|exact Hn].
Defined.

Lemma wait_loop_later w fuel n b r n' b' : (forall n, now_at w n <= now_at w (S n)) ->
  wait_loop w fuel n b = Some (Ret (r, n', b')) -> now_at w n <= now_at w n'.
Proof.
  intros Hmono. revert n b. induction fuel as [|fuel IH]; intros n b H; [done|]. cbn [wait_loop] in H.
  destruct (background_scan_update_load_threshold (now_at w n) b) as [b1| |]; [|done|done]. destruct (head (timestamp b)); [|done].
  destruct (SFltb _ _); [by simplify_eq|]. destruct (_ <? _); [by simplify_eq|]. destruct (do_wait w _ _ n); [|by simplify_eq].
  apply IH in H. pose proof (Hmono n). lia.
Qed.

(** The limit of 24 tests a day: if the oldest of the last 24 waits was at least 23
    hours ago, a test runs only when it was a full day ago, to the microsecond. *)
Theorem batch_limit_respected w fuel b n b' back :
  deviation_ok w -> (forall n, now_at w n <= now_at w (S n)) ->
  (forall t, do_wait w (DelayBetweenTestBatch - (now_at w 0 - back) + MinimumDelayBetweenTests) MinimumDelayBetweenTests 0 = Some t ->
     now_at w 0 + 1000 * t <= now_at w 1) ->
  last (push_timestamp (now_at w 0) (timestamp b)) = Some back -> DelayBetweenTestBatch - 3600 * second <= now_at w 0 - back ->
  background_scan_wait w fuel b = Some (Ret (true, n, b')) ->
  DelayBetweenTestBatch < now_at w n - back + 1000.
Proof.
  intros Hd Hmono Hs Hb He H. unfold background_scan_wait in H. cbn [timestamp] in H. rewrite Hb in H.
  destruct (Z.ltb_spec 0 (DelayBetweenTestBatch - (now_at w 0 - back))) as [Hp|Hp].
  - destruct (do_wait w _ _ 0) as [t|] eqn:Ht; [|done]. pose proof (Hs _ eq_refl) as Hadv. apply wait_loop_later in H; [|done].
    unfold do_wait in Ht. destruct (sleeps_at w 0); [|done]. injection Ht as <-. unfold sleep_time in Hadv.
    change (Z.quot MinimumDelayBetweenTests 1000) with 300000000 in Hadv. pose proof (Hd 0%nat 300000000 ltac:(lia)).
    set (e := DelayBetweenTestBatch - (now_at w 0 - back)) in *. rewrite Z.quot_div_nonneg in Hadv by (unfold MinimumDelayBetweenTests, second; lia).
    unfold MinimumDelayBetweenTests, second in *. rewrite wrap_u_small in Hadv by (unfold in_u; Z.div_mod_to_equations; lia).
    Z.div_mod_to_equations. lia.
  - clear Hs. destruct (do_wait w _ _ 0) as [t|]; [|done]. apply wait_loop_later in H; [|done]. pose proof (Hmono 0%nat). lia.
Qed.

(** A day's tests were run, the oldest wait 23 hours 30 minutes ago. *)
Definition idle_world : World :=
  {| now_at := fun n => 5000 * second * Z.of_nat n; loadavg_at := fun _ => Some (S754_zero false); sleeps_at := fun _ => true; deviation_at := fun _ _ => 0 |}.
Definition scan0 : SandstoneBackgroundScan := {| timestamp := replicate 24 (-84600 * second); load_idle_threshold := infinity |}.

Lemma batch_limit_respected_witness :
  exists n b', background_scan_wait idle_world 162 scan0 = Some (Ret (true, n, b')) /\ DelayBetweenTestBatch < now_at idle_world n + 84600 * second + 1000.
Proof.
  eexists _, _. split; [vm_compute; reflexivity|].
  assert (DelayBetweenTestBatch < now_at idle_world 1 - (-84600 * second) + 1000) as H; [|exact H].
  refine (batch_limit_respected idle_world 162 scan0 1 _ (-84600 * second) _ _ _ _ _ _).
  - intros n v Hv. simpl. lia.
  - intros n. unfold idle_world, second. cbn [now_at]. lia.
  - intros t Ht. vm_compute in Ht. injection Ht as <-. vm_compute. done.
  - vm_compute. done.
  - vm_compute. done.
  - vm_compute. reflexivity.
Defined.

(** usleep() takes 32 bits: a wait for the next day (24 hours and 5 minutes) lasts
    less than a quarter of an hour, and the limit of 24 tests is exceeded. *)
Example batch_sleep_truncated :
  sleep_time busy_world (DelayBetweenTestBatch + MinimumDelayBetweenTests) MinimumDelayBetweenTests 0 = 800654080.
Proof. by vm_compute. Qed.

(** The time stamps of an earlier run are never used. *)
Theorem saved_timestamps_lost memblock now b :
  timestamp (background_scan_init true memblock now b).1 = replicate timestamps (now - DelayBetweenTestBatch).
Proof. done. Qed.
