(* ===== verification/TestTests.v ===== *)
(** The mode that tests the tests (--test-tests, sandstone.cpp): it samples when
    each thread of a test runs its loop, and complains afterwards about tests that
    use too much memory or loop too fast or too slowly. Also the peak of memory
    use (sysdeps/linux/memfpt.cpp).

    Times are nanoseconds; a time of 0 is one that was never set. *)

From S2P Require Import Prelude CStdlib Chrono Results ThreadData Logging.

(** * Memory footprint *)

(** strstr(): what follows the first occurrence of [needle]. *)
Fixpoint after_first (needle s : str) : option str :=
  if bool_decide (take (length needle) s = needle) then Some (drop (length needle) s)
  else match s with [] => None | _ :: s => after_first needle s end.

(** memfpt_current_high_water_mark(): kB, 0 when it is not known. [status] is the
    content of /proc/self/status, which must leave room for a NUL. *)
Definition memfpt_current_high_water_mark (debug : bool) (status : option str) : outcome Z :=
  match debug, status with
  | true, Some buf =>
      _ ← assertion (len buf <? 4096);
      match after_first (newline :: L "VmHWM:") buf with
      | None => Ret 0
      | Some hwm => Ret (strtoull 10 hwm).1.1
      end
  | _, _ => Ret 0
  end.

(** * Constants and state *)

Definition ms : Z := 1000000.
Definition OverallTestTimeIgnore : Z := 100 * ms.
Definition MaximumLoopDuration : Z := 300 * ms.
Definition TargetLoopDuration : Z := 10 * ms.
Definition MinimumLoopDuration : Z := 1 * ms.
Definition MaxAcceptableMemoryUseKB : Z := 64 * 1024.
Definition DesiredIterations : Z := 4.

Definition test_flag_ignore_memory_use : Z := 0x0010.
Definition test_flag_ignore_test_overtime : Z := 0x0020.
Definition test_flag_ignore_test_undertime : Z := 0x0040.
Definition test_flag_ignore_loop_timing : Z := 0x0080.
Definition test_flag_ignore_do_while : Z := 0x0100.

(** PerThread::iteration_times of every thread. *)
Record test_the_test_data := { per_thread : list (list Z); hwm_at_start : Z; test_tests : bool }.

Record test_info := { is_mce_test : bool; flags : Z; desired_duration : Z }.

(** shouldTestTheTest() *)
Definition shouldTestTheTest (InterruptMonitorWorks : bool) (d : test_the_test_data) (t : test_info) : bool :=
  test_tests d && negb (InterruptMonitorWorks && is_mce_test t).

Section TestTests.
Context (works : bool) (cfg : LogCfg) (num_cpus : nat) (now current_test_starttime current_test_endtime : Z) (the_test : test_info).

Definition test_tests_init (hwm : Z) (d : test_the_test_data) : test_the_test_data :=
  if negb (shouldTestTheTest works d the_test) then d
  else {| per_thread := replicate num_cpus (replicate 4 0); hwm_at_start := hwm; test_tests := test_tests d |}.

(** test_tests_iteration() of the thread [cpu], in its iteration [n]. *)
Definition test_tests_iteration (cpu : nat) (n : Z) (d : test_the_test_data) : outcome test_the_test_data :=
  if negb (shouldTestTheTest works d the_test) then Ret d
  else if DesiredIterations <=? n then Ret d
  else
    me ← of_option (per_thread d !! cpu);
    _ ← of_option (me !! Z.to_nat n);
    Ret {| per_thread := <[cpu := <[Z.to_nat n := now]> me]> (per_thread d); hwm_at_start := hwm_at_start d; test_tests := test_tests d |}.

(** * test_tests_finish() *)

Definition log (thread : Z) (text : str) (s : Shm) : outcome Shm := log_message cfg now thread text s.
(** log_error() and the others, in the main thread *)
Definition log_error (text : str) : Shm -> outcome Shm := log (-1) (L "E> " ++ text).
Definition log_warning (text : str) : Shm -> outcome Shm := log (-1) (L "W> " ++ text).
Definition log_info (text : str) : Shm -> outcome Shm := log (-1) (L "I> " ++ text).

Definition maybe_log_error (flag : Z) (text : str) : Shm -> outcome Shm :=
  if negb (Z.land (flags the_test) flag =? 0) then log_warning text else log_error text.

Definition duration (ns : Z) : outcome str := of_option (format_duration true ns).

Definition memory_check (hwm current_hwm : Z) (s : Shm) : outcome Shm :=
  if negb (eqb (current_hwm =? 0) (hwm =? 0)) || (current_hwm <? hwm) then
    log_warning (L "High water mark memory footprinting failed (" ++ to_string hwm ++ L " kB at start, " ++ to_string current_hwm ++ L " kB now)") s
  else if negb (current_hwm =? 0) then
    _ ← assertion (0 <? Z.of_nat num_cpus);
    let per_thread_avg := (current_hwm - hwm) / Z.of_nat num_cpus in
    let sum := L "(" ++ to_string current_hwm ++ L " - " ++ to_string hwm ++ L ") / " ++ to_string (Z.of_nat num_cpus) ++
               L " = " ++ to_string per_thread_avg ++ L " kB" in
    if per_thread_avg <? MaxAcceptableMemoryUseKB then log_info (L "Test memory use: " ++ sum) s
    else maybe_log_error test_flag_ignore_memory_use (L "Test uses too much memory: " ++ sum) s
  else Ret s.

Definition any_failed (s : Shm) : bool :=
  existsb (fun m => has_failed (m_common m)) (mains s) || existsb (fun t => has_failed (t_common t)) (tests s).

Definition overall_time_check (s : Shm) : outcome Shm :=
  let expected_runtime := current_test_endtime - current_test_starttime in
  let min_expected_runtime := expected_runtime - Z.quot expected_runtime 4 in
  let max_expected_runtime := expected_runtime + Z.quot expected_runtime 4 in
  let actual_runtime := now - current_test_starttime in
  let difference := Z.abs (expected_runtime - actual_runtime) in
  actual ← duration actual_runtime;
  if ((min_expected_runtime <? actual_runtime) && (actual_runtime <? max_expected_runtime)) || (difference <? OverallTestTimeIgnore) then
    log_info (L "Overall time: " ++ actual) s
  else
    expected ← duration expected_runtime;
    if max_expected_runtime <? actual_runtime then
      max ← duration max_expected_runtime;
      maybe_log_error test_flag_ignore_test_overtime
        (L "Test ran for longer than expected: " ++ actual ++ L " (desired " ++ expected ++ L ", max " ++ max ++ L ")") s
    else
      min ← duration min_expected_runtime;
      maybe_log_error test_flag_ignore_test_undertime
        (L "Test ran shorter than expected: " ++ actual ++ L " (desired " ++ expected ++ L ", min " ++ min ++ L ")") s.

(** The times between the iterations that were sampled. *)
Fixpoint iteration_gaps (prev : Z) (times : list Z) : list Z :=
  match times with
  | [] => []
  | t :: times => if t =? 0 then [] else t - prev :: iteration_gaps t times
  end.

(** The sums over the threads. *)
Record Sampled := { average : Z; average_counts : Z; while_loops : Z }.

Definition sample_thread (a : Sampled) (cpu : nat) (thr : list Z) (s : Shm) : outcome (Sampled * Shm) :=
  first ← of_option (head thr);
  if first =? 0 then Ret (a, s)
  else
    let gaps := iteration_gaps first (tail thr) in
    let n := len gaps in
    let first_time := first - current_test_starttime in
    last ← of_option (thr !! Z.to_nat n);
    let this_average := Z.quot (last - first) n in
    let a := if negb (n =? 0)
             then {| average := average a + this_average; average_counts := average_counts a + 1;
                     while_loops := if (first_time <? ms) && (first_time * 4 <? this_average) then while_loops a + 1 else while_loops a |}
             else {| average := average a + first_time; average_counts := average_counts a + 1; while_loops := while_loops a |} in
    t0 ← duration first_time;
    t1 ← duration (default 0 (gaps !! 0%nat));
    t2 ← duration (default 0 (gaps !! 1%nat));
    t3 ← duration (default 0 (gaps !! 2%nat));
    s ← log (Z.of_nat cpu) (L "d> Sampled iteration timings: " ++ t0 ++ L ", " ++ t1 ++ L ", " ++ t2 ++ L ", " ++ t3) s;
    Ret (a, s).

Fixpoint sample_threads (cpu : nat) (threads : list (list Z)) (a : Sampled) (s : Shm) : outcome (Sampled * Shm) :=
  match threads with
  | [] => Ret (a, s)
  | thr :: threads => r ← sample_thread a cpu thr s; sample_threads (S cpu) threads r.1 r.2
  end.

Fixpoint warn_not_called (cpu : nat) (threads : list (list Z)) (s : Shm) : outcome Shm :=
  match threads with
  | [] => Ret s
  | thr :: threads =>
      first ← of_option (head thr);
      s ← (if first =? 0 then log (Z.of_nat cpu) (L "W> run() function did not call test_time_condition() in this thread") s else Ret s);
      warn_not_called (S cpu) threads s
  end.

Definition loop_timing_check (average : Z) (s : Shm) : outcome Shm :=
  if average <? 1000 then
    maybe_log_error test_flag_ignore_loop_timing (L "Inner loop is FAR too short, couldn't even get accurate timings") s
  else
    avg ← duration average;
    if average <? MinimumLoopDuration then
      maybe_log_error test_flag_ignore_loop_timing (L "Inner loop is too short (average " ++ avg ++ L ") -- suggest making the test " ++
        to_string (Z.quot TargetLoopDuration average) ++ L "x longer") s
    else if MaximumLoopDuration <? average then
      maybe_log_error test_flag_ignore_loop_timing (L "Inner loop is too long (average " ++ avg ++ L ") -- suggest making the test " ++
        to_string (Z.quot average TargetLoopDuration) ++ L "x shorter") s
    else log_info (L "Inner loop average duration: " ++ avg) s.

Definition test_tests_finish (current_hwm : Z) (d : test_the_test_data) (s : Shm) : outcome Shm :=
  if negb (shouldTestTheTest works d the_test) then Ret s
  else
    s ← memory_check (hwm_at_start d) current_hwm s;
    if any_failed s then Ret s
    else if (current_test_endtime =? time_max) || (desired_duration the_test <? 0) then Ret s
    else
      s ← overall_time_check s;
      let threads := take num_cpus (per_thread d) in
      _ ← assertion (Z.of_nat num_cpus <=? len (per_thread d));
      '(a, s) ← sample_threads 0 threads {| average := 0; average_counts := 0; while_loops := 0 |} s;
      if average_counts a =? 0 then log_error (L "run() function did not call test_time_condition() in any thread") s
      else
        s ← (if negb (while_loops a =? 0) then
               maybe_log_error test_flag_ignore_do_while
                 (L "run() function appears to use while (test_time_condition()) instead of do {} while") s
             else Ret s);
        s ← (if average_counts a =? Z.of_nat num_cpus then Ret s else warn_not_called 0 threads s);
        loop_timing_check (Z.quot (average a) (average_counts a)) s.
End TestTests.

(** * Facts *)

(** The threads' data after some messages were logged; when [errors] is false no
    thread has failed that had not before. *)
Definition logged (errors : bool) (s s' : Shm) : Prop :=
  forall th c, thread_data th s = Ret c ->
  exists c', thread_data th s' = Ret c' /\ (errors = false -> has_failed c' = has_failed c).

Lemma logged_refl e s : logged e s s.
Proof. intros th c Hc. by exists c. Qed.
Lemma logged_trans e s1 s2 s3 : logged e s1 s2 -> logged e s2 s3 -> logged e s1 s3.
Proof.
  intros H12 H23 th c Hc. destruct (H12 th c Hc) as (c2 & Hc2 & H2). destruct (H23 th c2 Hc2) as (c3 & Hc3 & H3).
  exists c3. split; [done|]. intros He. rewrite H3, H2 by done. done.
Qed.
Lemma logged_weaken s s' e : logged false s s' -> logged e s s'.
Proof. intros H th c Hc. destruct (H th c Hc) as (c' & Hc' & Hf). exists c'. auto. Qed.

(** [f] returns for every state in which the threads below [n] exist. *)
Definition threads_ok (n : nat) (s : Shm) : Prop := forall th, -1 <= th < Z.of_nat n -> exists c, thread_data th s = Ret c.
Definition logs (n : nat) (errors : bool) (f : Shm -> outcome Shm) : Prop :=
  forall s, threads_ok n s -> exists s', f s = Ret s' /\ logged errors s s'.

Lemma threads_ok_logged n e s s' : threads_ok n s -> logged e s s' -> threads_ok n s'.
Proof. intros Ht Hl th Hth. destruct (Ht th Hth) as [c Hc]. destruct (Hl th c Hc) as (c' & Hc' & _). eauto. Qed.

Lemma logs_bind n e f g : logs n e f -> logs n e g -> logs n e (fun s => s ← f s; g s).
Proof.
  intros Hf Hg s Hs. destruct (Hf s Hs) as (s1 & H1 & L1). destruct (Hg s1) as (s2 & H2 & L2); [by eapply threads_ok_logged|].
  exists s2. rewrite H1. split; [done|by eapply logged_trans].
Qed.
Lemma logs_ret n e : logs n e Ret.
Proof. intros s Hs. exists s. split; [done|apply logged_refl]. Qed.
Lemma logs_weaken n e f : logs n false f -> logs n e f.
Proof. intros H s Hs. destruct (H s Hs) as (s' & H1 & H2). exists s'. split; [done|by apply logged_weaken]. Qed.

Lemma mark_logged now thread s c : thread_data thread s = Ret c ->
  exists s', logging_mark_thread_failed now thread s = Ret s' /\ logged true s s'.
Proof.
  intros Hc. destruct (mark_failed_data now thread s c Hc) as (s' & Hs & Hd & Ho). exists s'. split; [done|].
  intros th c' Hc'. destruct (decide (th = thread)) as [->|Hne]; [eexists; by split|]. exists c'. by rewrite Ho.
Qed.

Lemma append_logged thread bytes s c : thread_data thread s = Ret c ->
  exists s', update_thread thread (append_log bytes) s = Ret s' /\ logged false s s'.
Proof.
  intros Hc. destruct (update_thread_ret thread (append_log bytes) s c Hc) as [s' Hs]. exists s'. split; [done|].
  intros th c' Hc'. rewrite (thread_data_update _ th _ _ _ Hs). case_decide as Ht; [|by exists c'].
  subst th. rewrite Hc'. eexists. by split.
Qed.

Definition letter (k : ascii) : Prop := k = "E"%char \/ k = "W"%char \/ k = "I"%char \/ k = "d"%char.

Lemma preformatted_logs cfg now n th k text : -1 <= th < Z.of_nat n ->
  logs n (char_eqb k "E") (log_message_preformatted cfg now th (k :: text)).
Proof.
  intros Hth s Hs. destruct (Hs th Hth) as [c Hc]. unfold log_message_preformatted. cbn [head mbind outcome_bind of_option].
  assert (exists s1, (if char_eqb k "E" then logging_mark_thread_failed now th s else Ret s) = Ret s1 /\ logged (char_eqb k "E") s s1)
    as (s1 & -> & L1) by (destruct (char_eqb k "E"); [by eapply mark_logged|exists s; split; [done|apply logged_refl]]).
  cbn [mbind outcome_bind]. unfold log_message_preformatted_level. destruct (L1 th c Hc) as (c1 & Hc1 & _).
  destruct (current_output_format cfg); [by exists s1|..]; rewrite Hc1; cbn [mbind outcome_bind].
  all: case_match; [by exists s1|].
  all: assert (exists m, strip_newline (k :: text) = Ret m) as [m ->]
    by (unfold strip_newline; destruct (last _) eqn:E; [eexists; reflexivity|apply last_None in E; done]).
  all: cbn [mbind outcome_bind]; unfold log_message_for_thread.
  all: destruct (append_logged th (encode_message UserMessages (status_level k) m) s1 c1 Hc1) as (s2 & -> & L2).
  all: exists s2; (split; [done|]); eapply logged_trans; [exact L1|by apply logged_weaken].
Qed.

Lemma filter_letter k : letter k -> filter_char k = k.
Proof. by intros [-> | [-> | [-> | ->]]]. Qed.
Lemma assert_letter k text : letter k -> assert_log_message (k :: ">"%char :: " "%char :: text) = true.
Proof. by intros [-> | [-> | [-> | ->]]]. Qed.

Lemma log_logs cfg now n th k text : -1 <= th < Z.of_nat n -> letter k ->
  logs n (char_eqb k "E") (log cfg now th (k :: ">"%char :: " "%char :: text)).
Proof.
  intros Hth Hk s Hs. unfold log, log_message. rewrite assert_letter by done.
  destruct (current_output_format cfg); [exists s; split; [done|apply logged_refl]|..].
  all: cbn [mbind outcome_bind assertion]; case_match; [exists s; split; [done|apply logged_refl]|].
  all: change (create_filtered_message_string (k :: ">"%char :: " "%char :: text))
         with (filter_char k :: ">"%char :: " "%char :: create_filtered_message_string text); rewrite (filter_letter k Hk).
  all: by apply (preformatted_logs cfg now n th k (">"%char :: " "%char :: create_filtered_message_string text)).
Qed.

Lemma platform_logs cfg now n k text : (0 < n)%nat -> letter k ->
  logs n (char_eqb k "E") (log_platform_message cfg now (k :: ">"%char :: " "%char :: text)).
Proof.
  intros Hn Hk s Hs. unfold log_platform_message. rewrite assert_letter by done.
  destruct (current_output_format cfg); [exists s; split; [done|apply logged_refl]|..].
  all: cbn [mbind outcome_bind assertion]; case_match; [exists s; split; [done|apply logged_refl]|].
  all: change (create_filtered_message_string (k :: ">"%char :: " "%char :: text))
         with (filter_char k :: ">"%char :: " "%char :: create_filtered_message_string text); rewrite (filter_letter k Hk).
  all: apply (preformatted_logs cfg now n (-1) k); [lia|done].
Qed.

Section Finish.
Context (works : bool) (cfg : LogCfg) (num_cpus : nat) (now start endtime : Z) (t : test_info).
Context (Hcpus : (0 < num_cpus)%nat) (Htime : 0 <= start <= now) (Hend : start <= endtime).

(** Errors are warnings when the test has all the flags of this mode. *)
Definition all_flags : Z := 0x1f0.
Definition strict : bool := negb (Z.land (flags t) all_flags =? all_flags).
Abbreviation ok := (logs num_cpus strict).

Lemma duration_ret ns : 0 <= ns -> exists text, duration ns = Ret text.
Proof using All. intros H. unfold duration. destruct (format_duration_ret true ns H) as [x ->]. by eexists. Qed.

Lemma note_logs th k text : -1 <= th < Z.of_nat num_cpus -> k = "W"%char \/ k = "I"%char \/ k = "d"%char ->
  ok (log cfg now th (k :: ">"%char :: " "%char :: text)).
Proof using All.
  intros Hth Hk. apply logs_weaken. pose proof (log_logs cfg now num_cpus th k text Hth) as H.
  destruct Hk as [-> | [-> | ->]]; apply H; unfold letter; auto.
Qed.

Lemma maybe_log_error_logs k text : 4 <= k <= 8 -> ok (maybe_log_error cfg now t (2 ^ k) text).
Proof using All.
  intros Hk. unfold maybe_log_error, log_warning, log_error. destruct (Z.land (flags t) (2 ^ k) =? 0) eqn:E; simpl.
  - assert (strict = true) as ->; [|apply (log_logs cfg now num_cpus (-1) "E"%char); [lia|by left]].
    unfold strict. apply negb_true_iff, Z.eqb_neq. intros Hf. apply Z.eqb_eq in E.
    assert (Z.testbit (flags t) k = true) as Hb.
    { apply (f_equal (fun z => Z.testbit z k)) in Hf. rewrite Z.land_spec in Hf.
      assert (Z.testbit all_flags k = true) as Hk'.
      { assert (k = 4 \/ k = 5 \/ k = 6 \/ k = 7 \/ k = 8) as [-> | [-> | [-> | [-> | ->]]]] by lia; done. }
      rewrite Hk', andb_true_r in Hf. done. }
    apply (f_equal (fun z => Z.testbit z k)) in E. rewrite Z.land_spec, Hb, Z.pow2_bits_true, Z.bits_0 in E by lia. done.
  - apply (note_logs (-1) "W"%char); [lia|auto].
Qed.

Lemma memory_check_logs hwm current : 0 <= hwm -> ok (memory_check cfg num_cpus now t hwm current).
Proof using All.
  intros Hh. unfold memory_check, log_warning, log_info. case_match; [apply (note_logs (-1) "W"%char); [lia|auto]|].
  case_match; [|apply logs_ret]. unfold assertion. rewrite (proj2 (Z.ltb_lt 0 (Z.of_nat num_cpus))) by lia.
  cbn [mbind outcome_bind]. case_match; [apply (note_logs (-1) "I"%char); [lia|auto]|]. apply (maybe_log_error_logs 4). lia.
Qed.

Lemma overall_time_check_logs : ok (overall_time_check cfg now start endtime t).
Proof using All.
  unfold overall_time_check. destruct (duration_ret (now - start)) as [x ->]; [lia|]. cbn [mbind outcome_bind].
  case_match; [apply (note_logs (-1) "I"%char); [lia|auto]|].
  destruct (duration_ret (endtime - start)) as [y ->]; [lia|]. cbn [mbind outcome_bind].
  rewrite Z.quot_div_nonneg by lia.
  case_match; [|].
  - destruct (duration_ret (endtime - start + (endtime - start) / 4)) as [z ->]; [Z.div_mod_to_equations; lia|].
    apply (maybe_log_error_logs 5). lia.
  - destruct (duration_ret (endtime - start - (endtime - start) / 4)) as [z ->]; [Z.div_mod_to_equations; lia|].
    apply (maybe_log_error_logs 6). lia.
Qed.

(** The times of a thread: iteration times are set in order, from the first one. *)
Fixpoint ordered (prev : Z) (times : list Z) : Prop :=
  match times with
  | [] => True
  | x :: times => x = 0 \/ (prev <= x /\ ordered x times)
  end.
Definition times_ok (thr : list Z) : Prop :=
  match thr with [x; y; z; u] => x = 0 \/ (start <= x /\ x <> 0 /\ ordered x [y; z; u]) | _ => False end.

Lemma gaps_nonneg prev times : ordered prev times -> Forall (fun g => 0 <= g) (iteration_gaps prev times).
Proof using All.
  revert prev. induction times as [|x times IH]; intros prev H; simpl; [constructor|].
  destruct (Z.eqb_spec x 0); [constructor|]. destruct H as [?|[? ?]]; [done|]. constructor; [lia|auto].
Qed.
Lemma gaps_length prev times : (length (iteration_gaps prev times) <= length times)%nat.
Proof using All. revert prev. induction times as [|x times IH]; intros prev; simpl; [lia|]. case_match; simpl; [lia|]. specialize (IH x). lia. Qed.

Lemma gap_duration (gaps : list Z) i : Forall (fun g => 0 <= g) gaps -> exists text, duration (default 0 (gaps !! i)) = Ret text.
Proof using All.
  intros Hg. apply duration_ret. destruct (gaps !! i) as [g|] eqn:E; [|done]. simpl. by apply (Forall_lookup_1 _ _ _ _ Hg E).
Qed.

Lemma sample_thread_logs a cpu thr s : (cpu < num_cpus)%nat -> times_ok thr -> threads_ok num_cpus s ->
  exists a' s', sample_thread cfg now start a cpu thr s = Ret (a', s') /\ logged strict s s' /\
    average_counts a <= average_counts a' /\ (head thr <> Some 0 -> average_counts a < average_counts a').
Proof using All.
  intros Hcpu Ht Hs. destruct thr as [|x [|y [|z [|u [|]]]]]; try done. unfold sample_thread. cbn [head mbind outcome_bind of_option].
  destruct (Z.eqb_spec x 0) as [->|Hx]; [exists a, s; split; [done|split; [apply logged_refl|split; [lia|done]]]|].
  destruct Ht as [?|(Hsx & _ & Ho)]; [done|]. cbn [tail].
  set (gaps := iteration_gaps x [y; z; u]).
  pose proof (gaps_nonneg x [y; z; u] Ho) as Hg. fold gaps in Hg. pose proof (gaps_length x [y; z; u]) as Hl. fold gaps in Hl. simpl in Hl.
  destruct (lookup_lt_is_Some_2 [x; y; z; u] (Z.to_nat (len gaps))) as [w Hw]; [simpl; unfold len; lia|].
  rewrite Hw. cbn [mbind outcome_bind of_option].
  destruct (duration_ret (x - start)) as [d0 ->]; [lia|]. cbn [mbind outcome_bind].
  destruct (gap_duration gaps 0 Hg) as [d1 ->]. cbn [mbind outcome_bind].
  destruct (gap_duration gaps 1 Hg) as [d2 ->]. cbn [mbind outcome_bind].
  destruct (gap_duration gaps 2 Hg) as [d3 ->]. cbn [mbind outcome_bind].
  match goal with |- context [log cfg now (Z.of_nat cpu) ?m s] =>
    assert (exists s', log cfg now (Z.of_nat cpu) m s = Ret s' /\ logged strict s s') as (s' & -> & Hlog)
      by (apply (note_logs (Z.of_nat cpu) "d"%char); [lia|auto|exact Hs]) end.
  cbn [mbind outcome_bind]. eexists _, s'. split; [reflexivity|]. split; [done|].
  destruct (len gaps =? 0); simpl; lia.
Qed.

Lemma sample_threads_logs cpu threads a s : (cpu + length threads <= num_cpus)%nat -> Forall times_ok threads -> threads_ok num_cpus s ->
  exists a' s', sample_threads cfg now start cpu threads a s = Ret (a', s') /\ logged strict s s' /\
    average_counts a <= average_counts a' /\ (Exists (fun thr => head thr <> Some 0) threads -> average_counts a < average_counts a').
Proof using All.
  revert cpu a s. induction threads as [|thr threads IH]; intros cpu a s Hl Ht Hs.
  { exists a, s. split; [done|]. split; [apply logged_refl|]. split; [lia|]. intros H. by apply Exists_nil in H. }
  apply Forall_cons in Ht as [Hthr Ht]. simpl in Hl.
  destruct (sample_thread_logs a cpu thr s) as (a1 & s1 & H1 & L1 & C1 & D1); [lia|done|done|].
  destruct (IH (S cpu) a1 s1) as (a2 & s2 & H2 & L2 & C2 & D2); [lia|done|by eapply threads_ok_logged|].
  cbn [sample_threads]. rewrite H1. cbn [mbind outcome_bind fst snd]. exists a2, s2. split; [done|]. split; [by eapply logged_trans|].
  split; [lia|]. intros [Hx|Hx]%Exists_cons; [specialize (D1 Hx); lia|specialize (D2 Hx); lia].
Qed.

Lemma warn_not_called_logs cpu threads s : (cpu + length threads <= num_cpus)%nat -> Forall times_ok threads -> threads_ok num_cpus s ->
  exists s', warn_not_called cfg now cpu threads s = Ret s' /\ logged strict s s'.
Proof using All.
  revert cpu s. induction threads as [|thr threads IH]; intros cpu s Hl Ht Hs; [exists s; split; [done|apply logged_refl]|].
  apply Forall_cons in Ht as [Hthr Ht]. simpl in Hl. cbn [warn_not_called].
  destruct thr as [|x thr]; [done|]. cbn [head mbind outcome_bind of_option].
  assert (exists s1, (if x =? 0 then log cfg now (Z.of_nat cpu) (L "W> run() function did not call test_time_condition() in this thread") s else Ret s)
    = Ret s1 /\ logged strict s s1) as (s1 & -> & L1).
  { destruct (x =? 0); [|exists s; split; [done|apply logged_refl]]. apply (note_logs (Z.of_nat cpu) "W"%char); [lia|auto|done]. }
  cbn [mbind outcome_bind]. destruct (IH (S cpu) s1) as (s2 & H2 & L2); [lia|done|by eapply threads_ok_logged|].
  exists s2. split; [done|by eapply logged_trans].
Qed.

Lemma loop_timing_check_logs avg : ok (loop_timing_check cfg now t avg).
Proof using All.
  unfold loop_timing_check. destruct (Z.ltb_spec avg 1000); [apply (maybe_log_error_logs 7); lia|].
  destruct (duration_ret avg) as [x ->]; [lia|]. cbn [mbind outcome_bind].
  case_match; [apply (maybe_log_error_logs 7); lia|]. case_match; [apply (maybe_log_error_logs 7); lia|].
  apply (note_logs (-1) "I"%char); [lia|auto].
Qed.

(** Testing a test never goes wrong itself, whatever was sampled: for sampled
    times in order it returns, without a division by zero or an access out of
    range. A test that has all the flags of this mode, and that called
    test_time_condition() in some thread, is never failed by it. *)
Theorem test_tests_finish_spec current_hwm d s :
  0 <= hwm_at_start d -> length (per_thread d) = num_cpus -> Forall times_ok (per_thread d) -> threads_ok num_cpus s ->
  exists s', test_tests_finish works cfg num_cpus now start endtime t current_hwm d s = Ret s' /\
    (Z.land (flags t) all_flags = all_flags -> Exists (fun thr => head thr <> Some 0) (per_thread d) ->
     forall th c, thread_data th s = Ret c -> exists c', thread_data th s' = Ret c' /\ has_failed c' = has_failed c).
Proof using All.
  intros Hhwm Hlen Ht Hs.
  assert (exists s', test_tests_finish works cfg num_cpus now start endtime t current_hwm d s = Ret s' /\
    (Exists (fun thr => head thr <> Some 0) (per_thread d) -> logged strict s s')) as (s' & H & HL).
  2:{ exists s'. split; [done|]. intros Hf Hx th c Hc. destruct (HL Hx th c Hc) as (c' & Hc' & Hq). exists c'. split; [done|].
      apply Hq. unfold strict. by rewrite Hf. }
  unfold test_tests_finish. case_match; [exists s; split; [done|]; intros _; apply logged_refl|].
  destruct (memory_check_logs (hwm_at_start d) current_hwm Hhwm s Hs) as (s1 & -> & L1). cbn [mbind outcome_bind].
  pose proof (threads_ok_logged _ _ _ _ Hs L1) as Hs1. case_match; [by exists s1|]. case_match; [by exists s1|].
  destruct (overall_time_check_logs s1 Hs1) as (s2 & -> & L2). cbn [mbind outcome_bind]. pose proof (threads_ok_logged _ _ _ _ Hs1 L2) as Hs2.
  pose proof (logged_trans _ _ _ _ L1 L2) as L12.
  unfold assertion. rewrite (proj2 (Z.leb_le (Z.of_nat num_cpus) (len (per_thread d)))) by (unfold len; lia). cbn [mbind outcome_bind].
  rewrite take_ge by lia.
  destruct (sample_threads_logs 0 (per_thread d) {| average := 0; average_counts := 0; while_loops := 0 |} s2) as (a & s3 & -> & L3 & C3 & D3);
    [lia|done|done|]. cbn [mbind outcome_bind]. simpl in C3, D3. pose proof (threads_ok_logged _ _ _ _ Hs2 L3) as Hs3.
  destruct (Z.eqb_spec (average_counts a) 0) as [Hz|Hz].
  { destruct (log_logs cfg now num_cpus (-1) "E"%char (L "run() function did not call test_time_condition() in any thread") ltac:(lia) ltac:(by left) s3 Hs3)
      as (s4 & H4 & _). exists s4. split; [exact H4|]. intros Hx%D3. lia. }
  assert (exists s4, (if negb (while_loops a =? 0) then maybe_log_error cfg now t test_flag_ignore_do_while
      (L "run() function appears to use while (test_time_condition()) instead of do {} while") s3 else Ret s3) = Ret s4 /\ logged strict s3 s4)
    as (s4 & -> & L4).
  { case_match; [apply (maybe_log_error_logs 8); [lia|done]|exists s3; split; [done|apply logged_refl]]. }
  cbn [mbind outcome_bind]. pose proof (threads_ok_logged _ _ _ _ Hs3 L4) as Hs4.
  assert (exists s5, (if average_counts a =? Z.of_nat num_cpus then Ret s4 else warn_not_called cfg now 0 (per_thread d) s4) = Ret s5 /\ logged strict s4 s5)
    as (s5 & -> & L5).
  { case_match; [exists s4; split; [done|apply logged_refl]|]. apply warn_not_called_logs; [lia|done|done]. }
  cbn [mbind outcome_bind]. destruct (loop_timing_check_logs (Z.quot (average a) (average_counts a)) s5) as (s6 & H6 & L6);
    [by eapply threads_ok_logged|]. exists s6. split; [done|]. intros _.
  eapply logged_trans; [exact L12|]. eapply logged_trans; [exact L3|]. eapply logged_trans; [exact L4|]. by eapply logged_trans.
Qed.
End Finish.

Definition quick_test : test_info := {| is_mce_test := false; flags := 0x1f0; desired_duration := 0 |}.
Definition quick_samples : test_the_test_data :=
  {| per_thread := [[100; 200; 300; 400]; [0; 0; 0; 0]]; hwm_at_start := 1000; test_tests := true |}.

Lemma test_tests_finish_spec_witness :
  exists s', test_tests_finish false cfg0 2 1000000 0 5000000000 quick_test 500000 quick_samples (idle_shm 1 2) = Ret s' /\
    exists c', thread_data (-1) s' = Ret c' /\ has_failed c' = false.
Proof.
  destruct (test_tests_finish_spec false cfg0 2 1000000 0 5000000000 quick_test ltac:(lia) ltac:(lia) ltac:(lia) 500000 quick_samples (idle_shm 1 2))
    as (s' & H & Hq).
  - simpl. lia.
  - done.
  - repeat (constructor; [simpl; lia|]). constructor.
  - intros th Hth. apply thread_data_valid. unfold valid_thread, len. simpl. lia.
  - exists s'. split; [exact H|]. apply (Hq eq_refl ltac:(by left) (-1) idle_common). done.
Defined.
