(* ===== verification/Frequency.v ===== *)
(** FrequencyManager (frequency_manager.hpp): runs tests at different core and
    uncore frequencies and writes back what it found.

    What the kernel makes of a value that is written to a file of /sys is not the
    program's: the kernel is any state with a way to read a file and one to write
    it. What the program reads and writes is recorded. *)

From stdpp Require Import gmap.
From S2P Require Import Prelude CStdlib Chrono Results CpuInfo.

Definition EX_IOERR : Z := 74.
Definition EXIT_NOPERMISSION : Z := 4.

(** * Files *)

(** The kernel behind the files of /sys: the content of a file, and what writing to one
    does ([None]: it cannot be opened). *)
Class Kernel (K : Type) := { content : K -> str -> option str; put : K -> str -> str -> option K }.

(** What the program did: it read a word (or a number) from a file, or wrote to one. *)
Inductive io := Read (path word : str) | Wrote (path line : str).
Record Sysfs (K : Type) := { kernel : K; ios : list io }.
Arguments kernel {K} _.
Arguments ios {K} _.

(** fscanf("%s"): the first word; without one the buffer keeps what it held, and
    a word of 100 characters or more overruns it. *)
Definition first_word (s : str) : str := (span (fun c => negb (isspace c)) (span isspace s).2).1.

Section Files.
Context {K : Type} `{Kernel K}.

Definition did (e : io) (fs : Sysfs K) : Sysfs K := {| kernel := kernel fs; ios := ios fs ++ [e] |}.

Definition read_file (path : str) (fs : Sysfs K) : outcome (str * Sysfs K) :=
  match content (kernel fs) path with
  | None => Exit EX_IOERR
  | Some text =>
      let line := first_word text in
      if (0 <? len line) && (len line <? 100) then Ret (line, did (Read path line) fs) else Ub
  end.

(** Whether fprintf() succeeds is not looked at. *)
Definition write_file (path line : str) (fs : Sysfs K) : outcome (Sysfs K) :=
  match put (kernel fs) path line with
  | None => Exit EXIT_NOPERMISSION
  | Some k => Ret (did (Wrote path line) {| kernel := k; ios := ios fs |})
  end.

(** fscanf("%d"): 0 when there is no number *)
Definition get_frequency_from_file (path : str) (fs : Sysfs K) : outcome (Z * Sysfs K) :=
  match content (kernel fs) path with
  | None => Exit EX_IOERR
  | Some text =>
      let frequency := match strto 10 text with Some (neg, m, _) => i32 (if neg then - m else m) | None => 0 end in
      Ret (frequency, did (Read path (to_string frequency)) fs)
  end.
End Files.

(** The words of a file. *)
Fixpoint words_fuel (fuel : nat) (s : str) : list str :=
  match fuel with
  | O => []
  | S fuel =>
      match span (fun c => negb (isspace c)) (span isspace s).2 with
      | ([], _) => []
      | (w, rest) => w :: words_fuel fuel rest
      end
  end.
Definition words (s : str) : list str := words_fuel (length s) s.

(** The loop of check_if_userspace_present(): a word of 100 characters or more
    overruns the buffer. *)
Fixpoint find_userspace (ws : list str) : outcome bool :=
  match ws with
  | [] => Ret false
  | w :: ws => if 100 <=? len w then Ub else if bool_decide (w = L "userspace") then Ret true else find_userspace ws
  end.

(** * The manager *)

Record FrequencyManager := {
  max_core_frequency_supported : Z; min_core_frequency_supported : Z;
  per_cpu_initial_scaling_governor : list str; per_cpu_initial_scaling_setspeed : list str;
  current_set_frequency : Z;
  core_frequency_levels : list Z; core_frequency_level_idx : Z; total_core_frequency_levels : Z;
  pstate_driver_initial_status : str;
  initial_uncore_frequency : list (Z * Z);
  uncore_frequency_levels : list (list Z);
  total_sockets : Z; uncore_frequency_level_idx : Z; total_uncore_frequency_levels : Z;
}.
#[export] Instance eta_FrequencyManager : Eta FrequencyManager := fun m =>
  Build_FrequencyManager (max_core_frequency_supported m) (min_core_frequency_supported m) (per_cpu_initial_scaling_governor m)
    (per_cpu_initial_scaling_setspeed m) (current_set_frequency m) (core_frequency_levels m) (core_frequency_level_idx m)
    (total_core_frequency_levels m) (pstate_driver_initial_status m) (initial_uncore_frequency m) (uncore_frequency_levels m)
    (total_sockets m) (uncore_frequency_level_idx m) (total_uncore_frequency_levels m).

Definition new_FrequencyManager : FrequencyManager :=
  {| max_core_frequency_supported := 0; min_core_frequency_supported := 0; per_cpu_initial_scaling_governor := [];
     per_cpu_initial_scaling_setspeed := []; current_set_frequency := 0; core_frequency_levels := []; core_frequency_level_idx := 0;
     total_core_frequency_levels := 0; pstate_driver_initial_status := []; initial_uncore_frequency := [];
     uncore_frequency_levels := []; total_sockets := 0; uncore_frequency_level_idx := 0; total_uncore_frequency_levels := 0 |}.

(** * Levels *)

(** std::sort() with std::greater *)
Definition desc (a b : Z) : Prop := b <= a.
#[export] Instance desc_dec : RelDecision desc.
Proof. unfold desc. intros a b. apply _. Defined.
Definition sort_desc (l : list Z) : list Z := merge_sort desc l.

(** The middle of neighbours; the sum of two ints must be one. *)
Fixpoint middles (l : list Z) : outcome (list Z) :=
  match l with
  | a :: (b :: _) as l' =>
      _ ← assertion (bool_decide (in_s 32 (b + a)));
      rest ← middles l';
      Ret (Z.quot (b + a) 2 :: rest)
  | _ => Ret []
  end.

(** The loop of populate_frequency_levels(); the comparison is of unsigned
    numbers. [None] when the fuel runs out. *)
Fixpoint populate_loop (fuel : nat) (total : Z) (levels tmp : list Z) : option (outcome (list Z)) :=
  if len levels <? u64 total then
    match fuel with
    | O => None
    | S fuel =>
        match middles (sort_desc tmp) with
        | Ret new => populate_loop fuel total (levels ++ new) (levels ++ new)
        | Exit e => Some (Exit e)
        | Ub => Some Ub
        end
    end
  else Some (Ret levels).

(** The fuel is enough for any number of levels that the callers ask for. *)
Definition populate_frequency_levels (min_max : Z * Z) (total : Z) : outcome (list Z) :=
  match populate_loop 4 total [min_max.2; min_max.1] [min_max.2; min_max.1] with
  | Some r => r
  | None => Ub
  end.

Definition scaling_available_governors : str := L "/sys/devices/system/cpu/cpu0/cpufreq/scaling_available_governors".
Definition pstate_driver_file : str := L "/sys/devices/system/cpu/intel_pstate/status".
Definition cpuinfo_max_freq_path : str := L "/sys/devices/system/cpu/cpu0/cpufreq/cpuinfo_max_freq".
Definition cpuinfo_min_freq_path : str := L "/sys/devices/system/cpu/cpu0/cpufreq/cpuinfo_min_freq".
Definition core_path (cpu_number : Z) (file : str) : str := L "/sys/devices/system/cpu/cpu" ++ to_string cpu_number ++ file.
Definition scaling_governor (n : Z) : str := core_path n (L "/cpufreq/scaling_governor").
Definition scaling_setspeed (n : Z) : str := core_path n (L "/cpufreq/scaling_setspeed").
Definition uncore_path (socket : nat) (file : str) : str :=
  L "/sys/devices/system/cpu/intel_uncore_frequency/package_0" ++ to_string (Z.of_nat socket) ++ L "_die_00/" ++ file.

Section Operations.
Context {K : Type} `{Kernel K}.

Definition check_if_userspace_present (fs : Sysfs K) : outcome bool :=
  match content (kernel fs) scaling_available_governors with
  | None => Exit EX_IOERR
  | Some text => find_userspace (words text)
  end.

Definition check_uncore_frequency_support (fs : Sysfs K) : outcome () :=
  match content (kernel fs) (L "/sys/devices/system/cpu/intel_uncore_frequency/package_00_die_00/initial_min_freq_khz") with
  | None => Exit EX_IOERR
  | Some _ => Ret ()
  end.

Definition enable_disable_userspace (should_enable : bool) (m : FrequencyManager) (fs : Sysfs K) : outcome (FrequencyManager * Sysfs K) :=
  if should_enable then
    '(status, fs) ← read_file pstate_driver_file fs;
    fs ← write_file pstate_driver_file (L "passive") fs;
    Ret (m <| pstate_driver_initial_status := status |>, fs)
  else
    fs ← write_file pstate_driver_file (pstate_driver_initial_status m) fs;
    Ret (m, fs).

Context (cpus : list cpu_info).

(** What is saved of one processor, which is then put in "userspace". *)
Definition save_cpu (r : FrequencyManager * Sysfs K) (c : cpu_info) : outcome (FrequencyManager * Sysfs K) :=
  let '(m, fs) := r in
  '(governor, fs) ← read_file (scaling_governor (cpu_number c)) fs;
  '(setspeed, fs) ← read_file (scaling_setspeed (cpu_number c)) fs;
  fs ← write_file (scaling_governor (cpu_number c)) (L "userspace") fs;
  Ret (m <| per_cpu_initial_scaling_governor := per_cpu_initial_scaling_governor m ++ [governor] |>
         <| per_cpu_initial_scaling_setspeed := per_cpu_initial_scaling_setspeed m ++ [setspeed] |>, fs).

Definition initial_core_frequency_setup (m : FrequencyManager) (fs : Sysfs K) : outcome (FrequencyManager * Sysfs K) :=
  present ← check_if_userspace_present fs;
  '(m, fs) ← (if (present : bool) then Ret (m, fs) else enable_disable_userspace true m fs);
  '(max, fs) ← get_frequency_from_file cpuinfo_max_freq_path fs;
  '(min, fs) ← get_frequency_from_file cpuinfo_min_freq_path fs;
  let total := Z.min 16 (Z.quot (max - min) 100000) in
  levels ← populate_frequency_levels (min, max) total;
  fold_outcome save_cpu cpus
    (m <| max_core_frequency_supported := max |> <| min_core_frequency_supported := min |>
       <| total_core_frequency_levels := total |> <| core_frequency_levels := levels |>, fs).

(** calculate_total_sockets() *)
Definition count_sockets : Z := u16 (len (remove_dups (package_id <$> cpus))).

Definition setup_socket (r : FrequencyManager * Sysfs K) (socket : nat) : outcome (FrequencyManager * Sysfs K) :=
  let '(m, fs) := r in
  '(min, fs) ← get_frequency_from_file (uncore_path socket (L "min_freq_khz")) fs;
  '(max, fs) ← get_frequency_from_file (uncore_path socket (L "max_freq_khz")) fs;
  let total := Z.min 8 (Z.quot (max - min) 100000) in
  levels ← populate_frequency_levels (min, max) total;
  Ret (m <| total_uncore_frequency_levels := total |>
         <| uncore_frequency_levels := uncore_frequency_levels m ++ [levels] |>
         <| initial_uncore_frequency := initial_uncore_frequency m ++ [(min, max)] |>, fs).

Definition sockets (m : FrequencyManager) : list nat := seq 0 (Z.to_nat (total_sockets m)).

Definition initial_uncore_frequency_setup (m : FrequencyManager) (fs : Sysfs K) : outcome (FrequencyManager * Sysfs K) :=
  _ ← check_uncore_frequency_support fs;
  let m := m <| total_sockets := count_sockets |> in
  fold_outcome setup_socket (sockets m) (m, fs).

(** i % n of ints: a division by zero is undefined. *)
Definition rem_int (i n : Z) : outcome Z := _ ← assertion (negb (n =? 0)); Ret (Z.rem i n).

Definition change_core_frequency (m : FrequencyManager) (fs : Sysfs K) : outcome (FrequencyManager * Sysfs K) :=
  i ← rem_int (core_frequency_level_idx m) (total_core_frequency_levels m);
  _ ← assertion (bool_decide (in_s 32 (core_frequency_level_idx m + 1)));
  freq ← at_ (core_frequency_levels m) i;
  fs ← fold_outcome (fun fs c => write_file (scaling_setspeed (cpu_number c)) (to_string freq) fs) cpus fs;
  Ret (m <| current_set_frequency := freq |> <| core_frequency_level_idx := core_frequency_level_idx m + 1 |>, fs).

Definition change_socket (r : FrequencyManager * Sysfs K) (socket : nat) : outcome (FrequencyManager * Sysfs K) :=
  let '(m, fs) := r in
  levels ← of_option (uncore_frequency_levels m !! socket);
  i ← rem_int (uncore_frequency_level_idx m) (total_uncore_frequency_levels m);
  _ ← assertion (bool_decide (in_s 32 (uncore_frequency_level_idx m + 1)));
  freq ← at_ levels i;
  fs ← write_file (uncore_path socket (L "min_freq_khz")) (to_string freq) fs;
  fs ← write_file (uncore_path socket (L "max_freq_khz")) (to_string freq) fs;
  Ret (m <| uncore_frequency_level_idx := uncore_frequency_level_idx m + 1 |>, fs).

Definition change_uncore_frequency (m : FrequencyManager) (fs : Sysfs K) : outcome (FrequencyManager * Sysfs K) :=
  fold_outcome change_socket (sockets m) (m, fs).

Definition restore_cpu (m : FrequencyManager) (fs : Sysfs K) (p : nat * cpu_info) : outcome (Sysfs K) :=
  governor ← of_option (per_cpu_initial_scaling_governor m !! p.1);
  fs ← write_file (scaling_governor (cpu_number p.2)) governor fs;
  setspeed ← of_option (per_cpu_initial_scaling_setspeed m !! p.1);
  write_file (scaling_setspeed (cpu_number p.2)) setspeed fs.

Definition restore_core_frequency_initial_state (m : FrequencyManager) (fs : Sysfs K) : outcome (FrequencyManager * Sysfs K) :=
  fs ← fold_outcome (restore_cpu m) (imap pair cpus) fs;
  if 0 <? len (pstate_driver_initial_status m) then enable_disable_userspace false m fs else Ret (m, fs).

Definition restore_socket (m : FrequencyManager) (fs : Sysfs K) (socket : nat) : outcome (Sysfs K) :=
  initial ← of_option (initial_uncore_frequency m !! socket);
  fs ← write_file (uncore_path socket (L "min_freq_khz")) (to_string initial.1) fs;
  write_file (uncore_path socket (L "max_freq_khz")) (to_string initial.2) fs.

Definition restore_uncore_frequency_initial_state (m : FrequencyManager) (fs : Sysfs K) : outcome (FrequencyManager * Sysfs K) :=
  fs ← fold_outcome (restore_socket m) (sockets m) fs; Ret (m, fs).

Definition reset_frequency_level_idx (m : FrequencyManager) : FrequencyManager :=
  m <| core_frequency_level_idx := 0 |> <| uncore_frequency_level_idx := 0 |>.
End Operations.

(** * Facts about the levels *)

Lemma middles_cons a b l : middles (a :: b :: l) =
  (_ ← assertion (bool_decide (in_s 32 (b + a))); rest ← middles (b :: l); Ret (Z.quot (b + a) 2 :: rest)).
Proof. done. Qed.

Lemma middles_ok (lo hi : Z) l : - 2 ^ 30 <= lo -> hi < 2 ^ 30 -> Forall (fun x => lo <= x <= hi) l ->
  exists new, middles l = Ret new /\ Forall (fun x => lo <= x <= hi) new /\ length new = (length l - 1)%nat.
Proof.
  intros Hlo Hhi. induction l as [|a l IH]; intros Hl; [by exists []|]. apply Forall_cons in Hl as [Ha Hl].
  destruct l as [|b l]; [by exists []|]. destruct (IH Hl) as (new & Hn & Hf & Hlen). apply Forall_cons in Hl as [Hb Hl].
  exists (Z.quot (b + a) 2 :: new). rewrite middles_cons. unfold assertion. rewrite bool_decide_true by (unfold in_s; lia).
  cbn [mbind outcome_bind]. rewrite Hn. split; [done|]. split; [|simpl in *; lia].
  constructor; [|done]. split.
  - pose proof (Z.quot_rem' (b + a) 2). pose proof (Z.rem_bound_abs (b + a) 2 ltac:(lia)). lia.
  - pose proof (Z.quot_rem' (b + a) 2). pose proof (Z.rem_bound_abs (b + a) 2 ltac:(lia)). lia.
Qed.

Lemma sort_desc_perm l : sort_desc l ≡ₚ l.
Proof. apply merge_sort_Permutation. Qed.

Lemma populate_loop_ok lo hi total : - 2 ^ 30 <= lo -> hi < 2 ^ 30 -> 0 <= total ->
  forall fuel levels, (1 <= length levels)%nat -> Forall (fun x => lo <= x <= hi) levels ->
  total <= (len levels - 1) * 2 ^ Z.of_nat fuel + 1 -> total < 2 ^ 64 ->
  exists levels', populate_loop fuel total levels levels = Some (Ret levels') /\ levels `prefix_of` levels' /\
    Forall (fun x => lo <= x <= hi) levels' /\ total <= len levels'.
Proof.
  intros Hlo Hhi Ht0. induction fuel as [|fuel IH]; intros levels Hne Hf Ht H64;
    cbn [populate_loop]; rewrite (wrap_u_small 64 total) by (unfold in_u; lia); destruct (Z.ltb_spec (len levels) total) as [Hlt|Hge];
    try (by exists levels; split; [|split; [|split; [|lia]]]).
  - simpl in Ht. lia.
  - destruct (middles_ok lo hi (sort_desc levels)) as (new & Hm & Hfn & Hln); [done|done|by rewrite sort_desc_perm|].
    rewrite Hm. rewrite (Permutation_length (sort_desc_perm levels)) in Hln.
    destruct (IH (levels ++ new)) as (levels' & Hl' & Hp & Hf' & Ht').
    + rewrite length_app. lia.
    + by apply Forall_app.
    + rewrite Nat2Z.inj_succ, Z.pow_succ_r in Ht by lia. unfold len in *. rewrite length_app, Hln. nia.
    + done.
    + exists levels'. split; [done|]. split; [|done]. etrans; [|exact Hp]. by apply prefix_app_r.
Qed.

(** The frequencies that tests run at: for a range of at least 0 and up to 16
    levels the list is built (the loop ends within four rounds), starts with the
    highest and the lowest frequency, is long enough, and stays in the range. *)
Theorem frequency_levels_ok min max total :
  - 2 ^ 30 <= min <= max -> max < 2 ^ 30 -> 0 <= total <= 16 ->
  exists levels, populate_frequency_levels (min, max) total = Ret levels /\ [max; min] `prefix_of` levels /\
    Forall (fun f => min <= f <= max) levels /\ total <= len levels.
Proof.
  intros Hmin Hmax Ht. unfold populate_frequency_levels. cbn [fst snd].
  destruct (populate_loop_ok min max total ltac:(lia) Hmax ltac:(lia) 4 [max; min]) as (levels & -> & H).
  - simpl. lia.
  - repeat (constructor; [lia|]). constructor.
  - unfold len. simpl. lia.
  - lia.
  - by exists levels.
Qed.

Lemma frequency_levels_ok_witness :
  exists levels, populate_frequency_levels (800000, 3500000) 16 = Ret levels /\ [3500000; 800000] `prefix_of` levels /\ 16 <= len levels.
Proof.
  destruct (frequency_levels_ok 800000 3500000 16) as (levels & H & Hp & _ & Hl); [lia..|]. by exists levels.
Defined.

(** A processor with one frequency only: no level is asked for, and the first
    change divides by zero. *)
Example one_frequency : populate_frequency_levels (800000, 800000) (Z.min 16 (Z.quot (800000 - 800000) 100000)) = Ret [800000; 800000] /\
  rem_int 0 (Z.min 16 (Z.quot (800000 - 800000) 100000)) = Ub.
Proof. by vm_compute. Qed.

(** The number of levels is the one of the last socket: a socket with a smaller
    range is read past its levels. *)
Definition two_sockets : FrequencyManager :=
  new_FrequencyManager <| total_sockets := 2 |> <| total_uncore_frequency_levels := 8 |> <| uncore_frequency_level_idx := 2 |>
    <| uncore_frequency_levels := [[1000000; 800000]; [2400000; 800000; 1600000; 2000000; 1200000; 2200000; 1800000; 1400000; 1000000]] |>.
Example short_socket_overrun {K} `{Kernel K} (fs : Sysfs K) : change_uncore_frequency two_sockets fs = Ub.
Proof. done. Qed.

(** * Putting the system back *)

(** Different files of different processors have different paths. *)
Lemma core_path_inj n m f g : in_s 32 n -> in_s 32 m ->
  core_path n ("/"%char :: f) = core_path m ("/"%char :: g) -> n = m /\ f = g.
Proof.
  intros Hn Hm H. unfold core_path in H. apply app_inv_head in H.
  pose proof (from_chars_to_string n ("/"%char :: f) Hn eq_refl) as H1. pose proof (from_chars_to_string m ("/"%char :: g) Hm eq_refl) as H2.
  rewrite H, H2 in H1. by injection H1 as -> ->.
Qed.
Lemma governor_inj n m : in_s 32 n -> in_s 32 m -> scaling_governor n = scaling_governor m -> n = m.
Proof. intros Hn Hm H. by apply (core_path_inj n m) in H as [-> _]. Qed.
Lemma setspeed_inj n m : in_s 32 n -> in_s 32 m -> scaling_setspeed n = scaling_setspeed m -> n = m.
Proof. intros Hn Hm H. by apply (core_path_inj n m) in H as [-> _]. Qed.
Lemma governor_not_setspeed n m : in_s 32 n -> in_s 32 m -> scaling_governor n <> scaling_setspeed m.
Proof. intros Hn Hm H. by apply (core_path_inj n m) in H as [_ H]. Qed.

(** What the program did with one file. *)
Definition path_of (e : io) : str := match e with Read p _ | Wrote p _ => p end.
Definition events_on (p : str) (l : list io) : list io := filter (fun e => path_of e = p) l.

Lemma events_on_app p l l' : events_on p (l ++ l') = events_on p l ++ events_on p l'.
Proof. apply filter_app. Qed.
Lemma events_on_none p l : (forall e, e ∈ l -> path_of e <> p) -> events_on p l = [].
Proof. intros H. apply elem_of_nil_inv. intros e [He Hin]%list_elem_of_filter. by apply (H e). Qed.

(** What is saved of some files: the first thing that was done to each of them was
    to read the word, and no other file was written. *)
Record saved (saves : list (str * str)) (l : list io) : Prop := {
  saved_first : forall p w, (p, w) ∈ saves -> head (events_on p l) = Some (Read p w);
  saved_all : forall p line, Wrote p line ∈ l -> p ∈ saves.*1 }.

Lemma saved_more saves saves' l es : saved saves l -> (forall x, x ∈ saves -> x ∈ saves') ->
  (forall p w, (p, w) ∈ saves' -> (p, w) ∈ saves \/ ((forall e, e ∈ l -> path_of e <> p) /\ head (events_on p es) = Some (Read p w))) ->
  (forall p line, Wrote p line ∈ es -> p ∈ saves'.*1) -> saved saves' (l ++ es).
Proof.
  intros [H1 H2] Hin Hnew Hes. split.
  - intros p w Hp. rewrite events_on_app. destruct (Hnew p w Hp) as [Hold|[Hfree Hhead]]; [|by rewrite events_on_none].
    specialize (H1 p w Hold). by destruct (events_on p l).
  - intros p line [Hp|Hp]%elem_of_app; [|by eapply Hes]. apply H2 in Hp. apply list_elem_of_fmap in Hp as (x & -> & Hx).
    apply list_elem_of_fmap. exists x. auto.
Qed.

Lemma saved_writes saves l es : saved saves l -> (forall e, e ∈ es -> exists p line, e = Wrote p line /\ p ∈ saves.*1) -> saved saves (l ++ es).
Proof.
  intros Hs Hes. apply (saved_more saves); try done; [by left|]. intros p line Hp. by destruct (Hes _ Hp) as (? & ? & [= <- <-] & ?).
Qed.

(** Writing back all that was saved. *)
Lemma saved_restored saves l p line : saved saves l -> NoDup saves.*1 ->
  let l' := l ++ ((fun x => Wrote x.1 x.2) <$> saves) in
  Wrote p line ∈ l' -> exists w, head (events_on p l') = Some (Read p w) /\ last (events_on p l') = Some (Wrote p w).
Proof.
  intros Hs Hnd l' Hp. assert (p ∈ saves.*1) as Hin.
  { apply elem_of_app in Hp as [Hp|Hp]; [by eapply saved_all|]. apply list_elem_of_fmap in Hp as (x & [= -> _] & Hx). apply list_elem_of_fmap. by exists x. }
  apply list_elem_of_fmap in Hin as ([p' w] & -> & Hin). simpl. exists w. pose proof (saved_first _ _ Hs _ _ Hin) as Hh. unfold l'.
  rewrite events_on_app. split; [by destruct (events_on p' l)|].
  assert (events_on p' ((fun x => Wrote x.1 x.2) <$> saves) = [Wrote p' w]) as ->; [|by rewrite last_snoc].
  clear Hh Hp Hs l'. induction saves as [|[q v] saves IH]; [by apply elem_of_nil in Hin|]. cbn in Hnd. apply NoDup_cons in Hnd as [Hq Hnd].
  unfold events_on. rewrite fmap_cons, filter_cons. simpl. apply elem_of_cons in Hin as [[= -> ->]|Hin].
  - rewrite decide_True by done. f_equal. apply (events_on_none q). intros e He E. apply Hq. apply list_elem_of_fmap in He as (x & -> & Hx).
    apply list_elem_of_fmap. by exists x.
  - rewrite decide_False; [by apply IH|]. intros ->. apply Hq, list_elem_of_fmap. by exists (p', w).
Qed.

(** What the manager has saved of the processors, and of the driver's mode. *)
Fixpoint cpu_saves (cs : list cpu_info) (gs ss : list str) : list (str * str) :=
  match cs, gs, ss with
  | c :: cs, g :: gs, s :: ss => (scaling_governor (cpu_number c), g) :: (scaling_setspeed (cpu_number c), s) :: cpu_saves cs gs ss
  | _, _, _ => []
  end.
Definition mode_saves (status : str) : list (str * str) := match status with [] => [] | w => [(pstate_driver_file, w)] end.
Definition saves_of (cpus : list cpu_info) (m : FrequencyManager) : list (str * str) :=
  cpu_saves cpus (per_cpu_initial_scaling_governor m) (per_cpu_initial_scaling_setspeed m) ++ mode_saves (pstate_driver_initial_status m).

Definition core_file (cs : list cpu_info) (p : str) : Prop :=
  exists c, c ∈ cs /\ (p = scaling_governor (cpu_number c) \/ p = scaling_setspeed (cpu_number c)).

Lemma cpu_saves_snoc cs gs ss c g s : length gs = length cs -> length ss = length cs ->
  cpu_saves (cs ++ [c]) (gs ++ [g]) (ss ++ [s]) = cpu_saves cs gs ss ++ [(scaling_governor (cpu_number c), g); (scaling_setspeed (cpu_number c), s)].
Proof.
  revert gs ss. induction cs as [|d cs IH]; intros [|x gs] [|y ss] Hg Hs; try done. simpl in *. rewrite IH by lia. done.
Qed.

Lemma cpu_saves_files cs gs ss p : p ∈ (cpu_saves cs gs ss).*1 -> core_file cs p.
Proof.
  revert gs ss. induction cs as [|c cs IH]; intros gs ss Hp; [by apply elem_of_nil in Hp|].
  destruct gs as [|g gs], ss as [|s ss]; try by apply elem_of_nil in Hp. cbn in Hp.
  apply elem_of_cons in Hp as [->|[->|Hp]%elem_of_cons]; [exists c; set_solver..|].
  destruct (IH _ _ Hp) as (d & Hd & H). exists d. set_solver.
Qed.

Lemma cpu_saves_all cs gs ss p : length gs = length cs -> length ss = length cs -> core_file cs p -> p ∈ (cpu_saves cs gs ss).*1.
Proof.
  revert gs ss. induction cs as [|c cs IH]; intros [|g gs] [|s ss] Hg Hs (d & Hd & Hp); try done; [by apply elem_of_nil in Hd|].
  cbn. apply elem_of_cons in Hd as [->|Hd]; [set_solver|]. rewrite !elem_of_cons. right; right. apply IH; [simpl in *; lia..|by exists d].
Qed.

Section Restore.
Context {K : Type} `{Kernel K} (cpus : list cpu_info).
Context (Hnodup : NoDup (cpu_number <$> cpus)) (Hrange : Forall (fun c => in_s 32 (cpu_number c)) cpus).

Lemma cpu_number_range c : c ∈ cpus -> in_s 32 (cpu_number c).
Proof using Hrange. intros Hc. by apply (proj1 (Forall_forall _ _) Hrange). Qed.

Lemma pstate_not_core cs : ~ core_file cs pstate_driver_file.
Proof using Type. by intros (c & _ & [E|E]). Qed.

Lemma cpu_saves_nodup cs gs ss : (forall c, c ∈ cs -> c ∈ cpus) -> NoDup (cpu_number <$> cs) -> NoDup (cpu_saves cs gs ss).*1.
Proof using Hnodup Hrange.
  revert gs ss. induction cs as [|c cs IH]; intros gs ss Hin Hnd; [apply NoDup_nil_2|]. destruct gs as [|g gs], ss as [|s ss]; try apply NoDup_nil_2.
  cbn in Hnd. apply NoDup_cons in Hnd as [Hc Hnd]. assert (c ∈ cpus) as Hcc by (apply Hin; set_solver). cbn.
  assert (forall p, p ∈ (cpu_saves cs gs ss).*1 -> p <> scaling_governor (cpu_number c) /\ p <> scaling_setspeed (cpu_number c)) as Hne.
  { intros p (d & Hd & Hp)%cpu_saves_files. assert (d ∈ cpus) as Hdd by (apply Hin; set_solver).
    assert (cpu_number d <> cpu_number c) as Hn by (intros E; apply Hc; rewrite <- E; apply list_elem_of_fmap; by exists d).
    destruct Hp as [-> | ->]; split; intros E.
    - by apply governor_inj in E; [|apply cpu_number_range..].
    - by apply governor_not_setspeed in E; [|apply cpu_number_range..].
    - symmetry in E. by apply governor_not_setspeed in E; [|apply cpu_number_range..].
    - by apply setspeed_inj in E; [|apply cpu_number_range..]. }
  apply NoDup_cons. split; [|apply NoDup_cons; split; [|by apply IH; [set_solver|]]].
  - intros [E|Hp]%elem_of_cons; [by apply governor_not_setspeed in E; [|apply cpu_number_range..]|]. by apply Hne in Hp as [? _].
  - intros Hp. by apply Hne in Hp as [_ ?].
Qed.

(** The files that were read or written before the processors [cs] are done. *)
Definition touched (cs : list cpu_info) (l : list io) : Prop :=
  forall e, e ∈ l -> path_of e ∈ [pstate_driver_file; cpuinfo_max_freq_path; cpuinfo_min_freq_path] \/ core_file cs (path_of e).

Lemma untouched cs l c : touched cs l -> (forall d, d ∈ cs -> d ∈ cpus) -> c ∈ cpus -> cpu_number c ∉ cpu_number <$> cs ->
  forall e, e ∈ l -> path_of e <> scaling_governor (cpu_number c) /\ path_of e <> scaling_setspeed (cpu_number c).
Proof using Hrange.
  intros Ht Hin Hc Hn e He. assert (in_s 32 0) as H0 by (unfold in_s; lia). destruct (Ht e He) as [Hp|(d & Hd & Hp)].
  - rewrite !elem_of_cons, elem_of_nil in Hp. destruct Hp as [->|[->|[->|[]]]]; [done|..]; split; intros E;
      (apply (core_path_inj 0 (cpu_number c)) in E as [_ E]; [done|done|by apply cpu_number_range]).
  - assert (cpu_number d <> cpu_number c) as Hne by (intros E; apply Hn; rewrite <- E; apply list_elem_of_fmap; by exists d).
    specialize (Hin d Hd). destruct Hp as [-> | ->]; split; intros E.
    + by apply governor_inj in E; [|apply cpu_number_range..].
    + by apply governor_not_setspeed in E; [|apply cpu_number_range..].
    + symmetry in E. by apply governor_not_setspeed in E; [|apply cpu_number_range..].
    + by apply setspeed_inj in E; [|apply cpu_number_range..].
Qed.

Lemma read_file_ret path (fs fs' : Sysfs K) line : read_file path fs = Ret (line, fs') -> ios fs' = ios fs ++ [Read path line] /\ line <> [].
Proof using Type.
  unfold read_file. destruct (content _ _) as [c|]; [|done]. destruct (_ && _) eqn:E; [|done]. intros [= <- <-].
  split; [done|]. apply andb_prop in E as [E _]. apply Z.ltb_lt in E. unfold len in E. by destruct (first_word c).
Qed.
Lemma write_file_ret path line (fs fs' : Sysfs K) : write_file path line fs = Ret fs' -> ios fs' = ios fs ++ [Wrote path line].
Proof using Type. unfold write_file. destruct (put _ _ _); [|done]. by intros [= <-]. Qed.
Lemma get_frequency_ret path (fs fs' : Sysfs K) f : get_frequency_from_file path fs = Ret (f, fs') -> ios fs' = ios fs ++ [Read path (to_string f)].
Proof using Type. unfold get_frequency_from_file. destruct (content _ _); [|done]. by intros [= <- <-]. Qed.

(** The state of the setup when the processors [cs] are done. *)
Record setup_ok (cs : list cpu_info) (m : FrequencyManager) (fs : Sysfs K) : Prop := {
  so_governors : length (per_cpu_initial_scaling_governor m) = length cs;
  so_setspeeds : length (per_cpu_initial_scaling_setspeed m) = length cs;
  so_touched : touched cs (ios fs);
  so_saved : saved (saves_of cs m) (ios fs) }.

Lemma save_cpu_ok cs c rest m fs m' fs' : cpus = cs ++ c :: rest -> setup_ok cs m fs -> save_cpu (m, fs) c = Ret (m', fs') -> setup_ok (cs ++ [c]) m' fs'.
Proof using Hnodup Hrange.
  intros Hcpus [Lg Ls Ht Hs] Hsave. unfold save_cpu in Hsave.
  apply outcome_bind_ret in Hsave as ([gov fsa] & Hgov & Hsave). apply outcome_bind_ret in Hsave as ([spd fsb] & Hspd & Hsave).
  apply outcome_bind_ret in Hsave as (fsc & Hw & Hsave). injection Hsave as <- <-.
  apply read_file_ret in Hgov as [Hgov _]. apply read_file_ret in Hspd as [Hspd _]. apply write_file_ret in Hw.
  set (G := scaling_governor (cpu_number c)) in *. set (S := scaling_setspeed (cpu_number c)) in *.
  assert (ios fsc = ios fs ++ [Read G gov; Read S spd; Wrote G (L "userspace")]) as Hios by (rewrite Hw, Hspd, Hgov, <- !app_assoc; done).
  assert (c ∈ cpus) as Hc by (rewrite Hcpus; set_solver).
  assert (G <> S) as HGS by (apply governor_not_setspeed; by apply cpu_number_range).
  pose proof (untouched cs (ios fs) c Ht ltac:(rewrite Hcpus; set_solver) Hc) as Hfree.
  assert (cpu_number c ∉ cpu_number <$> cs) as Hnew.
  { intros Hin. rewrite Hcpus, fmap_app in Hnodup. apply NoDup_app in Hnodup as (_ & Hd & _). apply (Hd _ Hin). cbn. by left. }
  specialize (Hfree Hnew). split; [simpl; rewrite !length_app; simpl; lia..| |].
  - rewrite Hios. intros e [He|He]%elem_of_app.
    + destruct (Ht e He) as [?|(d & Hd & ?)]; [by left|right; exists d; set_solver].
    + right. exists c. split; [set_solver|]. rewrite !elem_of_cons, elem_of_nil in He. destruct He as [->|[->|[->|[]]]]; simpl; auto.
  - rewrite Hios. unfold saves_of in *.
    match goal with |- saved (cpu_saves _ ?g ?s ++ ?st) _ =>
      change (saved (cpu_saves (cs ++ [c]) (per_cpu_initial_scaling_governor m ++ [gov]) (per_cpu_initial_scaling_setspeed m ++ [spd]) ++ st)
        (ios fs ++ [Read G gov; Read S spd; Wrote G (L "userspace")])) end.
    rewrite cpu_saves_snoc by done. fold G S. apply (saved_more _ _ _ _ Hs).
    + intros x. rewrite !elem_of_app. tauto.
    + intros p w. rewrite !elem_of_app, !elem_of_cons, elem_of_nil. intros [[?|[[= -> ->]|[[= -> ->]|[]]]]|?]; [by left; left| | |by left; right]; right;
        (split; [intros e He; by apply Hfree|]); unfold events_on; rewrite !filter_cons, filter_nil; cbn [path_of].
      * by rewrite decide_True.
      * by rewrite decide_False, decide_True.
    + intros p line Hp. rewrite !elem_of_cons, elem_of_nil in Hp. destruct Hp as [|[|[[= -> _]|[]]]]; [done..|].
      rewrite !fmap_app, !elem_of_app. left; right. cbn. by left.
Qed.

Lemma save_cpus_ok : forall rest cs m fs m' fs', cpus = cs ++ rest -> setup_ok cs m fs -> fold_outcome save_cpu rest (m, fs) = Ret (m', fs') ->
  setup_ok cpus m' fs'.
Proof using Hnodup Hrange.
  induction rest as [|c rest IH]; intros cs m fs m' fs' Hc Hs Hf; cbn [fold_outcome] in Hf.
  - injection Hf as <- <-. by rewrite Hc, app_nil_r.
  - apply outcome_bind_ret in Hf as ([m1 fs1] & Hsave & Hf). apply (IH (cs ++ [c]) m1 fs1); [by rewrite <- app_assoc| |done].
    by eapply save_cpu_ok.
Qed.

Lemma setup_saves k m fs : initial_core_frequency_setup cpus new_FrequencyManager {| kernel := k; ios := [] |} = Ret (m, fs) -> setup_ok cpus m fs.
Proof using Hnodup Hrange.
  intros Hset. unfold initial_core_frequency_setup in Hset.
  apply outcome_bind_ret in Hset as (present & _ & Hset). apply outcome_bind_ret in Hset as ([ma fsa] & Hus & Hset).
  apply outcome_bind_ret in Hset as ([max fsb] & Hmax & Hset). apply outcome_bind_ret in Hset as ([min fsc] & Hmin & Hset).
  apply outcome_bind_ret in Hset as (levels & _ & Hset). apply get_frequency_ret in Hmax, Hmin.
  assert (per_cpu_initial_scaling_governor ma = [] /\ per_cpu_initial_scaling_setspeed ma = [] /\
    exists es, ios fsa = es /\ (forall e, e ∈ es -> path_of e = pstate_driver_file) /\ saved (mode_saves (pstate_driver_initial_status ma)) es) as (Eg & Es & es & Hes & Hp & Hsv).
  { destruct present; [injection Hus as <- <-; split; [done|]; split; [done|]; exists []; split; [done|]; split; [by intros e He%elem_of_nil|];
      split; by intros p w Hin%elem_of_nil|].
    unfold enable_disable_userspace in Hus. apply outcome_bind_ret in Hus as ([st fs1] & Hr & Hus). apply outcome_bind_ret in Hus as (fs2 & Hw & Hus).
    injection Hus as <- <-. apply read_file_ret in Hr as [Hr Hne]. apply write_file_ret in Hw. split; [done|]. split; [done|]. eexists. split; [exact Hw|].
    rewrite Hr. cbn [ios Datatypes.app]. split; [intros e He; rewrite !elem_of_cons, elem_of_nil in He; destruct He as [->|[->|[]]]; done|].
    change (pstate_driver_initial_status (new_FrequencyManager <| pstate_driver_initial_status := st |>)) with st. destruct st as [|x st]; [done|]. split.
    - intros p w [= -> ->]%list_elem_of_singleton. unfold events_on. rewrite filter_cons, decide_True by done. done.
    - intros p line Hin. rewrite !elem_of_cons, elem_of_nil in Hin. destruct Hin as [|[[= -> _]|[]]]; [done|]. by left. }
  set (m0 := ma <| max_core_frequency_supported := max |> <| min_core_frequency_supported := min |>
    <| total_core_frequency_levels := Z.min 16 (Z.quot (max - min) 100000) |> <| core_frequency_levels := levels |>) in *.
  apply (save_cpus_ok cpus [] m0 fsc); [done| |done]. split; [by cbn; rewrite Eg|by cbn; rewrite Es| |].
  - rewrite Hmin, Hmax, Hes. intros e He. rewrite !elem_of_app, !list_elem_of_singleton in He. left.
    destruct He as [[He| ->]| ->]; [rewrite (Hp e He)|..]; cbn [path_of]; set_solver.
  - rewrite Hmin, Hmax, Hes, <- app_assoc. change (saves_of [] m0) with (mode_saves (pstate_driver_initial_status ma)).
    apply (saved_more _ _ _ _ Hsv); [done|by left|]. intros p line Hin. rewrite !elem_of_app, !list_elem_of_singleton in Hin. by destruct Hin.
Qed.

(** What a run does with the core frequency between setup and restoration. *)
Inductive core_op := ChangeCore | ResetIdx.
Definition core_step (r : FrequencyManager * Sysfs K) (op : core_op) : outcome (FrequencyManager * Sysfs K) :=
  match op with
  | ChangeCore => change_core_frequency cpus r.1 r.2
  | ResetIdx => Ret (reset_frequency_level_idx r.1, r.2)
  end.

Lemma write_all_ios line cs (fs fs' : Sysfs K) : (forall c, c ∈ cs -> c ∈ cpus) ->
  fold_outcome (fun fs c => write_file (scaling_setspeed (cpu_number c)) line fs) cs fs = Ret fs' ->
  exists es, ios fs' = ios fs ++ es /\ forall e, e ∈ es -> exists p line, e = Wrote p line /\ core_file cpus p.
Proof using All.
  revert fs. induction cs as [|c cs IH]; intros fs Hin Hf; cbn [fold_outcome] in Hf.
  - injection Hf as <-. exists []. split; [by rewrite app_nil_r|]. by intros e He%elem_of_nil.
  - apply outcome_bind_ret in Hf as (fs1 & Hw & Hf). apply write_file_ret in Hw. apply IH in Hf as (es & Hes & Hall); [|set_solver].
    eexists. split; [by rewrite Hes, Hw, <- app_assoc|]. intros e [->|He]%elem_of_cons; [|by apply Hall].
    eexists _, _. split; [done|]. exists c. split; [set_solver|by right].
Qed.

Lemma core_steps_ok ops m fs m' fs' : setup_ok cpus m fs -> fold_outcome core_step ops (m, fs) = Ret (m', fs') ->
  length (per_cpu_initial_scaling_governor m') = length cpus /\ length (per_cpu_initial_scaling_setspeed m') = length cpus /\
  saved (saves_of cpus m') (ios fs').
Proof using All.
  intros [Lg Ls _ Hs]. revert m fs Lg Ls Hs. induction ops as [|op ops IH]; intros m fs Lg Ls Hs Hf; cbn [fold_outcome] in Hf.
  - by injection Hf as <- <-.
  - apply outcome_bind_ret in Hf as ([m1 fs1] & Hstep & Hf). destruct op; cbn [core_step] in Hstep.
    + unfold change_core_frequency in Hstep. apply outcome_bind_ret in Hstep as (i & _ & Hstep). apply outcome_bind_ret in Hstep as (? & _ & Hstep).
      apply outcome_bind_ret in Hstep as (freq & _ & Hstep). apply outcome_bind_ret in Hstep as (fs2 & Hw & Hstep). injection Hstep as <- <-.
      apply write_all_ios in Hw as (es & Hes & Hall); [|done]. eapply IH; [| | |exact Hf]; [exact Lg|exact Ls|]. cbn [snd] in Hes. rewrite Hes.
      apply saved_writes; [exact Hs|]. intros e He. destruct (Hall e He) as (p & line & -> & Hp). eexists _, _. split; [done|].
      unfold saves_of. rewrite fmap_app. apply elem_of_app. left. by apply cpu_saves_all.
    + injection Hstep as <- <-. eapply IH; [| | |exact Hf]; [exact Lg|exact Ls|exact Hs].
Qed.

(** Writing a list of words to their files. *)
Definition write_all (saves : list (str * str)) (fs : Sysfs K) : outcome (Sysfs K) := fold_outcome (fun fs x => write_file x.1 x.2 fs) saves fs.

Lemma write_all_ends saves fs : (exists k p line, put k p line = None /\ write_all saves fs = Exit EXIT_NOPERMISSION) \/
  exists fs', write_all saves fs = Ret fs' /\ ios fs' = ios fs ++ ((fun x => Wrote x.1 x.2) <$> saves).
Proof using All.
  revert fs. induction saves as [|[p w] saves IH]; intros fs; [right; exists fs; split; [done|cbn; by rewrite app_nil_r]|].
  change (write_all ((p, w) :: saves) fs) with (fs ← write_file p w fs; write_all saves fs). unfold write_file.
  destruct (put (kernel fs) p w) as [k|] eqn:E; [|left; by exists (kernel fs), p, w]. cbn [mbind outcome_bind]. set (fs1 := did _ _).
  destruct (IH fs1) as [?|(fs' & -> & Hios)]; [by left|right]. exists fs'. split; [done|]. rewrite Hios. cbn. by rewrite <- app_assoc.
Qed.

Lemma restore_cpus_writes m : forall rest k gs ss, drop k (per_cpu_initial_scaling_governor m) = gs -> drop k (per_cpu_initial_scaling_setspeed m) = ss ->
  length gs = length rest -> length ss = length rest ->
  forall fs : Sysfs K, fold_outcome (restore_cpu m) (imap (fun i c => ((k + i)%nat, c)) rest) fs = write_all (cpu_saves rest gs ss) fs.
Proof using All.
  induction rest as [|c rest IH]; intros k gs ss Hg Hs Lg Ls fs; [by destruct gs|]. destruct gs as [|g gs], ss as [|s ss]; try done.
  rewrite imap_cons. cbn [fold_outcome]. rewrite Nat.add_0_r.
  assert (restore_cpu m fs (k, c) = (fs ← write_file (scaling_governor (cpu_number c)) g fs; write_file (scaling_setspeed (cpu_number c)) s fs)) as ->.
  { unfold restore_cpu. cbn [fst snd].
    assert (per_cpu_initial_scaling_governor m !! k = Some g) as -> by (rewrite <- (Nat.add_0_r k), <- lookup_drop, Hg; done).
    assert (per_cpu_initial_scaling_setspeed m !! k = Some s) as -> by (rewrite <- (Nat.add_0_r k), <- lookup_drop, Hs; done). done. }
  unfold write_all. cbn [cpu_saves fold_outcome fst snd]. destruct (write_file _ g fs) as [fs1| |]; [|done..].
  cbn [mbind outcome_bind]. destruct (write_file _ s fs1) as [fs2| |]; [|done..]. cbn [mbind outcome_bind].
  fold (write_all (cpu_saves rest gs ss) fs2).
  rewrite <- (IH (S k) gs ss); [f_equal; apply imap_ext; intros i x _; simpl; f_equal; lia| | |simpl in *; lia..].
  - replace (S k) with (k + 1)%nat by lia. by rewrite <- drop_drop, Hg.
  - replace (S k) with (k + 1)%nat by lia. by rewrite <- drop_drop, Hs.
Qed.

Lemma restore_writes m (fs : Sysfs K) : length (per_cpu_initial_scaling_governor m) = length cpus -> length (per_cpu_initial_scaling_setspeed m) = length cpus ->
  restore_core_frequency_initial_state cpus m fs = (fs ← write_all (saves_of cpus m) fs; Ret (m, fs)).
Proof using All.
  intros Lg Ls. unfold restore_core_frequency_initial_state. change (imap pair cpus) with (imap (fun i c => ((0 + i)%nat, c)) cpus).
  rewrite (restore_cpus_writes m cpus 0 _ _ eq_refl eq_refl Lg Ls). unfold saves_of, write_all. rewrite fold_outcome_app. cbn [drop].
  destruct (fold_outcome _ (cpu_saves _ _ _) fs) as [fs1| |]; [|done..]. cbn [mbind outcome_bind]. unfold enable_disable_userspace.
  destruct (pstate_driver_initial_status m) as [|x st]; [done|]. rewrite (proj2 (Z.ltb_lt 0 _)) by (unfold len; simpl; lia).
  cbn [mode_saves fold_outcome fst snd]. by destruct (write_file _ _ fs1).
Qed.

(** C21. The program writes back what it found when it varied the core frequency: after the
    setup and any sequence of changes, the restoration either ends
    the program with EXIT_NOPERMISSION, because a file could not be opened for writing, or
    succeeds; then for every file that was ever written, the first thing that
    the program did with it was to read a word from it, and the last to write that
    word. This holds for every kernel behind the files, and says what the
    program does and not what the kernel makes of it: writing the first mode
    back to intel_pstate/status comes last and may reset the rest, and the governors
    were read after that mode was switched to "passive". The processors have different
    numbers, which are ints. *)
Theorem core_frequency_restored k ops m1 fs1 m2 fs2 :
  initial_core_frequency_setup cpus new_FrequencyManager {| kernel := k; ios := [] |} = Ret (m1, fs1) ->
  fold_outcome core_step ops (m1, fs1) = Ret (m2, fs2) ->
  (restore_core_frequency_initial_state cpus m2 fs2 = Exit EXIT_NOPERMISSION /\ exists k p line, put k p line = None) \/
  exists fs3, restore_core_frequency_initial_state cpus m2 fs2 = Ret (m2, fs3) /\
    forall p line, Wrote p line ∈ ios fs3 ->
      exists w, head (events_on p (ios fs3)) = Some (Read p w) /\ last (events_on p (ios fs3)) = Some (Wrote p w).
Proof using All.
  intros Hset Hops. apply setup_saves in Hset. apply (core_steps_ok ops) in Hops as (Lg & Ls & Hs); [|done]. rewrite restore_writes by done.
  destruct (write_all_ends (saves_of cpus m2) fs2) as [(k' & p & line & Hput & ->)|(fs3 & -> & Hios)]; [left; split; [done|by eexists _, _, _]|right].
  exists fs3. split; [done|]. intros p line Hp. rewrite Hios in Hp |- *. eapply saved_restored; [exact Hs| |exact Hp].
  unfold saves_of. rewrite fmap_app. apply NoDup_app. split; [by apply cpu_saves_nodup|]. split.
  - intros q Hq Hq'. apply cpu_saves_files in Hq. destruct (pstate_driver_initial_status m2); [by apply elem_of_nil in Hq'|].
    apply list_elem_of_singleton in Hq' as ->. by apply pstate_not_core in Hq.
  - destruct (pstate_driver_initial_status m2); [apply NoDup_nil_2|apply NoDup_singleton].
Qed.
End Restore.

(** A kernel whose files keep what is written to them. *)
#[export] Instance map_kernel : Kernel (gmap str str) :=
  {| content := fun k p => k !! p; put := fun k p line => match k !! p with Some _ => Some (<[p := line]> k) | None => None end |}.

Definition one_cpu : list cpu_info := [mk_cpu 0 0 0 0 0 0 0 0 0 0 [] 6 1 85].
Definition files0 : gmap str str := list_to_map [
  (scaling_available_governors, L "performance powersave"); (pstate_driver_file, L "active");
  (cpuinfo_max_freq_path, L "3500000"); (cpuinfo_min_freq_path, L "800000");
  (scaling_governor 0, L "powersave"); (scaling_setspeed 0, L "<unsupported>")].
Definition sysfs0 : Sysfs (gmap str str) := {| kernel := files0; ios := [] |}.
Definition after_setup : FrequencyManager * Sysfs (gmap str str) :=
  match initial_core_frequency_setup one_cpu new_FrequencyManager sysfs0 with Ret r => r | _ => (new_FrequencyManager, sysfs0) end.
Definition after_changes : FrequencyManager * Sysfs (gmap str str) :=
  match fold_outcome (core_step one_cpu) [ChangeCore; ChangeCore] after_setup with Ret r => r | _ => after_setup end.

Definition returns {A} (m : outcome A) : bool := match m with Ret _ => true | _ => false end.
Lemma returns_value {A} (m : outcome A) d : returns m = true -> m = Ret (match m with Ret r => r | _ => d end).
Proof. by destruct m. Qed.

Lemma core_frequency_restored_witness :
  kernel after_changes.2 !! scaling_setspeed 0 = Some (L "800000") /\
  exists fs3, restore_core_frequency_initial_state one_cpu after_changes.1 after_changes.2 = Ret (after_changes.1, fs3) /\
    forall p line, Wrote p line ∈ ios fs3 ->
      exists w, head (events_on p (ios fs3)) = Some (Read p w) /\ last (events_on p (ios fs3)) = Some (Wrote p w).
Proof.
  split; [vm_compute; reflexivity|].
  assert (initial_core_frequency_setup one_cpu new_FrequencyManager {| kernel := files0; ios := [] |} = Ret (after_setup.1, after_setup.2)) as E1
    by (rewrite <- surjective_pairing; apply (returns_value _ (new_FrequencyManager, sysfs0)); vm_compute; reflexivity).
  assert (fold_outcome (core_step one_cpu) [ChangeCore; ChangeCore] (after_setup.1, after_setup.2) = Ret (after_changes.1, after_changes.2)) as E2
    by (rewrite <- !surjective_pairing; apply (returns_value _ after_setup); vm_compute; reflexivity).
  assert (returns (restore_core_frequency_initial_state one_cpu after_changes.1 after_changes.2) = true) as E3 by (vm_compute; reflexivity).
  assert (NoDup (cpu_number <$> one_cpu)) as N by apply NoDup_singleton.
  assert (Forall (fun c => in_s 32 (cpu_number c)) one_cpu) as R by (by repeat constructor).
  destruct (core_frequency_restored one_cpu N R files0 _ _ _ _ _ E1 E2) as [[E _]|E]; [|exact E]. rewrite E in E3. discriminate E3.
Defined.

(** The order of the writes: the driver's mode is the last to be restored, after the
    governor and the frequency that were read in the other mode. *)
Example mode_is_restored_last :
  (fun r => match r with Ret (_, fs) => drop (length (ios after_changes.2)) (ios fs) | _ => [] end)
    (restore_core_frequency_initial_state one_cpu after_changes.1 after_changes.2) =
  [Wrote (scaling_governor 0) (L "powersave"); Wrote (scaling_setspeed 0) (L "<unsupported>"); Wrote pstate_driver_file (L "active")] /\
  take 3 (ios after_setup.2) = [Read pstate_driver_file (L "active"); Wrote pstate_driver_file (L "passive"); Read cpuinfo_max_freq_path (L "3500000")].
Proof. split; vm_compute; reflexivity. Qed.
