(* ===== verification/Monitors.v ===== *)
(** What the program reads from the Linux kernel about the machine: temperatures
    (thermal_monitor.hpp), interrupt counts (interrupt_monitor.cpp) and the test
    that watches them (mce_check.cpp), model-specific registers (msr.c), and the
    affinity of threads (cpu_affinity.cpp).

    Files are given by their contents: lines, or what open() and read() give. *)

From stdpp Require Import gmap.
From S2P Require Import Prelude CStdlib Results ThreadData Logging CpuInfo CpuSet DataTypes Mismatch TestTests.

(** * Temperatures *)

Definition INVALID_TEMPERATURE : Z := -999999.

(** The digits at the end of a text. *)
Definition last_digits (line : str) : str := reverse (span (is_digit 10) (reverse line)).1.

(** get_last_int_from(): strtol() of digits, cast to int. *)
Definition get_last_int_from (line : str) : Z :=
  match last_digits line with
  | [] => INVALID_TEMPERATURE
  | digits => i32 (strtoll 10 digits).1.1
  end.

Section Thermal.
Context (first_line_of : str -> str).  (** empty for a file that cannot be read *)

Definition is_x86_package_zone (thermal_zone_dir : str) : bool :=
  bool_decide (first_line_of (thermal_zone_dir ++ L "/type") = L "x86_pkg_temp").

(** resize() to the larger of two sizes, as a size_t; a size that no vector has
    throws. Then the access is checked. *)
Definition add_socket_temperature_file (files : list str) (directory_path : str) : outcome (list str) :=
  let socket_num := get_last_int_from directory_path in
  let size := Z.max (i32 (socket_num + 1)) (len files) in
  let files := take (Z.to_nat size) files ++ replicate (Z.to_nat size - length files) [] in
  if (0 <=? socket_num) && (socket_num <? len files)
  then Ret (<[Z.to_nat socket_num := directory_path ++ L "/temp"]> files) else Ub.

Definition discover_socket_temperature_files (thermal_zone_dirs : list str) : outcome (list str) :=
  fold_outcome (fun files d => if is_x86_package_zone d then add_socket_temperature_file files d else Ret files) thermal_zone_dirs [].

Definition read_value_from_file (file : str) : Z := get_last_int_from (first_line_of file).

Definition get_socket_temperatures (files : list str) : list Z :=
  (fun f => match f with [] => INVALID_TEMPERATURE | _ => read_value_from_file f end) <$> files.
End Thermal.

(** * /proc/interrupts *)

Definition is_kernel_blank (c : ascii) : bool := char_eqb c " "%char || char_eqb c tab.
Definition skip_to_non_blank (s : str) : str := (span is_kernel_blank s).2.

(** strncmp() with a literal: what follows it. *)
Definition after_literal (name s : str) : option str :=
  if bool_decide (take (length name) s = name) then Some (drop (length name) s) else None.

(** The loop of parse_header(). *)
Fixpoint parse_cpus (fuel : nat) (s : str) (result : list Z) : list Z :=
  match fuel with
  | O => result
  | S fuel =>
      match after_literal (L "CPU") s with
      | None => result
      | Some s =>
          match strto 10 s with
          | None => result
          | Some _ => let '(n, rest, _) := strtoull 10 s in parse_cpus fuel (skip_to_non_blank rest) (result ++ [i32 n])
          end
      end
  end.

Record HeaderCache := { header_line : str; cached_result : list Z }.

(** parse_header(): [None] for a header that could not be read. The result of an
    earlier header is kept and added to. *)
Definition parse_header (line : option str) (c : HeaderCache) : HeaderCache :=
  match line with
  | None => {| header_line := []; cached_result := [] |}
  | Some line =>
      if bool_decide (header_line c = line) then c
      else {| header_line := line; cached_result := parse_cpus (length line) (skip_to_non_blank line) (cached_result c) |}
  end.

(** The numbers of a line, each put where the mapping says. *)
Fixpoint fill_counts (fuel : nat) (s : str) (i : nat) (mapping result : list Z) : outcome (list Z) :=
  match fuel with
  | O => Ret result
  | S fuel =>
      match s with
      | [] => Ret result
      | _ =>
          match strto 10 s with
          | None => Ret result
          | Some _ =>
              let '(n, rest, _) := strtoull 10 s in
              cpu ← of_option (mapping !! i);
              if (0 <=? cpu) && (cpu <? len result)
              then fill_counts fuel rest (S i) mapping (<[Z.to_nat cpu := u32 n]> result)
              else Ub
          end
      end
  end.

Fixpoint find_counts (hdr : str) (lines : list str) (mapping result : list Z) : outcome (list Z) :=
  match lines with
  | [] => Ret result
  | line :: lines =>
      match after_literal hdr (skip_to_non_blank line) with
      | None => find_counts hdr lines mapping result
      | Some rest => fill_counts (S (length rest)) rest 0 mapping result
      end
  end.

Inductive InterruptType := MCE | Thermal.
Definition interrupt_header (t : InterruptType) : str := match t with MCE => L "MCE:" | Thermal => L "TRM:" end.

(** get_interrupt_counts(): [lines] are those of /proc/interrupts, if it is open;
    a header that cannot be parsed closes it. *)
Definition get_interrupt_counts (t : InterruptType) (lines : option (list str)) (c : HeaderCache) : outcome (list Z * HeaderCache) :=
  match lines with
  | None => Ret ([], c)
  | Some lines =>
      let c := parse_header (head lines) c in
      match last (cached_result c) with
      | None => Ret ([], c)
      | Some back =>
          _ ← assertion (0 <=? back + 1);
          r ← find_counts (interrupt_header t) (tail lines) (cached_result c) (replicate (Z.to_nat (back + 1)) 0);
          Ret (r, c)
      end
  end.

Definition get_total_interrupt_counts (counts : list Z) : Z := foldl (fun total n => u64 (total + n)) 0 counts.

(** * The machine check test *)

Section MceCheck.
Context (cfg : LogCfg) (now : Z) (cpus : list cpu_info) (ud_on_failure : bool) (file : str) (line : Z).

Definition check_cpu (r : list Z * Z * Shm) (p : nat * cpu_info) : outcome (list Z * Z * Shm) :=
  let '(differences, errorcount, s) := r in
  let cpu := cpu_number p.2 in
  _ ← assertion ((0 <=? cpu) && (cpu <? len differences));
  d ← at_ differences cpu;
  if d =? 0 then Ret r
  else
    s ← log_message cfg now (Z.of_nat p.1) (L "E> MCE detected (" ++ to_string d ++ L " interrupts since start)") s;
    Ret (<[Z.to_nat cpu := 0]> differences, errorcount + 1, s).

Definition check_other (r : Z * Shm) (p : nat * Z) : outcome (Z * Shm) :=
  if p.2 =? 0 then Ret r
  else
    s ← log_message cfg now (-1) (L "E> MCE detected on OS CPU " ++ to_string (Z.of_nat p.1) ++ L " that wasn't part of the test set") r.2;
    Ret (r.1 + 1, s).

(** The fields of the application that mce_check_run() compares and updates. *)
Record MceCounts := { mce_counts_start : list Z; mce_count_last : Z; last_thermal_event_count : Z }.

(** mce_check_run(): [None] when the number of processors changed and the thread
    ends with a failure, else the number of processors with an error. The counts
    are read by thread 0 only. *)
Definition mce_check_run (cpu : Z) (counts : list Z) (thermal_now : Z) (m : MceCounts) (s : Shm) : outcome (option Z * MceCounts * Shm) :=
  if negb (cpu =? 0) then Ret (Some 0, m, s)
  else if negb (len counts =? len (mce_counts_start m)) then
    r ← report_fail cfg ud_on_failure now 0 file line (Some (L "Number of CPUs changed during execution, test is not valid.")) s;
    Ret (None, m, r.1)
  else
    let differences := zip_with (fun a b => u32 (a - b)) counts (mce_counts_start m) in
    '(differences, errorcount, s) ← fold_outcome check_cpu (imap pair cpus) (differences, 0, s);
    '(errorcount, s) ← fold_outcome check_other (imap pair differences) (errorcount, s);
    s ← (if negb (errorcount =? 0)
         then log_platform_message cfg now (L "E> MCE interrupts detected on " ++ to_string errorcount ++ L " CPUs") s else Ret s);
    let last := last_thermal_event_count m in
    s ← (if negb (thermal_now =? last)
         then log_platform_message cfg now (L "W> Thermal events detected (" ++ to_string (u64 (thermal_now - last)) ++ L " since start).") s
         else Ret s);
    Ret (Some errorcount,
         {| mce_counts_start := counts; mce_count_last := get_total_interrupt_counts counts; last_thermal_event_count := thermal_now |}, s).

(** smi_count_run(), in thread [cpu]; [smi] is count_smi_events(). *)
Definition smi_count_run (smi : Z -> option Z) (smi_counts_start : list Z) (cpu : Z) (s : Shm) : outcome Shm :=
  if cpu <? len smi_counts_start then
    info ← at_ cpus cpu;
    initial_count ← at_ smi_counts_start cpu;
    match smi (cpu_number info) with
    | None => Ret s
    | Some current_count =>
        let difference := u64 (current_count - initial_count) in
        if difference =? 0 then Ret s
        else log_platform_message cfg now (L "I> SMI count difference detected: " ++ to_string difference ++ L " new SMI detected on thread "
               ++ to_string cpu ++ L " cpu_number " ++ to_string (cpu_number info) ++ [newline]) s
    end
  else Ret s.
End MceCheck.

(** * Model-specific registers *)

(** What open() of /dev/cpu/<n>/msr gives, and the file: what an 8-byte read of a
    register gives, and whether an 8-byte write takes. *)
Inductive msr_open := Denied | NoFile | MsrFile (read : Z -> option Z) (write : Z -> Z -> bool).

(** msr_access_denied and [tried] of msr.c, and what the process did: modprobe runs
    and files opened. *)
Record MsrState := { msr_access_denied : bool; tried : bool; modprobes : nat; opens : nat }.

(** [module_present]: /sys/module/msr exists. *)
Definition try_load_kmod (module_present : bool) (st : MsrState) : MsrState :=
  if tried st then st
  else {| msr_access_denied := msr_access_denied st; tried := true;
          modprobes := if module_present then modprobes st else S (modprobes st); opens := opens st |}.

Definition open_msr (open : Z -> msr_open) (module_present : bool) (cpu : Z) (st : MsrState) : option ((Z -> option Z) * (Z -> Z -> bool)) * MsrState :=
  if msr_access_denied st then (None, st)
  else
    let st := try_load_kmod module_present st in
    let opened denied := {| msr_access_denied := denied; tried := tried st; modprobes := modprobes st; opens := S (opens st) |} in
    match open cpu with
    | Denied => (None, opened true)
    | NoFile => (None, opened false)
    | MsrFile read write => (Some (read, write), opened false)
    end.

Definition read_msr (open : Z -> msr_open) (module_present : bool) (cpu msr : Z) (st : MsrState) : option Z * MsrState :=
  let '(f, st) := open_msr open module_present cpu st in
  (match f with Some (read, _) => read msr | None => None end, st).

Definition write_msr (open : Z -> msr_open) (module_present : bool) (cpu msr value : Z) (st : MsrState) : bool * MsrState :=
  let '(f, st) := open_msr open module_present cpu st in
  (match f with Some (_, write) => write msr value | None => false end, st).

Definition MSR_SMI_COUNT : Z := 0x34.
Definition count_smi_events (open : Z -> msr_open) (module_present : bool) (cpu : Z) (st : MsrState) : option Z * MsrState :=
  read_msr open module_present cpu MSR_SMI_COUNT st.

(** initialize_smi_counts(); [smi] is what count_smi_events() gives. *)
Definition initialize_smi_counts (smi : Z -> option Z) (cpus : list cpu_info) (smi_counts_start : list Z) : outcome (list Z) :=
  match cpus with
  | [] => Ub
  | c :: cpus =>
      match smi (cpu_number c) with
      | None => Ret smi_counts_start
      | Some v => Ret (v :: ((fun c => default 0 (smi (cpu_number c))) <$> cpus))
      end
  end.

(** * Affinity *)

(** The words passed to sched_setaffinity() for one processor, and for a range;
    no call for the number -1. *)
Definition zero_words (n : Z) : LogicalProcessorSet := {| array := replicate (Z.to_nat (n / ProcessorsPerWord + 1)) 0 |}.

(** setInArray(): the word must exist. *)
Definition setInArray (n : Z) (s : LogicalProcessorSet) : outcome LogicalProcessorSet :=
  w ← of_option (array s !! Z.to_nat (word_index n));
  Ret {| array := <[Z.to_nat (word_index n) := Z.lor w (bitFor n)]> (array s) |}.

Definition pin_thread_to_logical_processor (n : Z) : outcome (option LogicalProcessorSet) :=
  if n =? -1 then Ret None else s ← setInArray n (zero_words n); Ret (Some s).

Definition pin_to_logical_processors (cpus : list cpu_info) (range : CpuRange) : outcome LogicalProcessorSet :=
  numbers ← fold_outcome (fun l i => c ← at_ cpus i; Ret (l ++ [cpu_number c]))
              (seqZ (starting_cpu range) (cpu_count range)) [];
  let n := foldl Z.max 0 numbers in
  fold_outcome (fun s lp => setInArray lp s) numbers (zero_words n).

(** ambient_logical_processor_set(): the set grows until the kernel accepts its
    size. [getaffinity] gives, for a number of words, the words, EINVAL or another
    error. *)
Inductive affinity_result := Affinity (words : list Z) | AffinityEinval | AffinityError.
Definition EX_OSERR : Z := 71.
Fixpoint ambient_loop (fuel : nat) (getaffinity : Z -> affinity_result) (size : Z) (s : LogicalProcessorSet) : option (outcome LogicalProcessorSet) :=
  match getaffinity (len (array s)) with
  | Affinity words => Some (Ret {| array := words ++ drop (length words) (array s) |})
  | AffinityError => Some (Exit EX_OSERR)
  | AffinityEinval =>
      match fuel with
      | O => None
      | S fuel =>
          let size := i32 (size * 2) in
          match unset_cpu (size - 1) s with
          | Ret s => ambient_loop fuel getaffinity size s
          | _ => Some Ub
          end
      end
  end.
Definition ambient_logical_processor_set (fuel : nat) (getaffinity : Z -> affinity_result) : option (outcome LogicalProcessorSet) :=
  ambient_loop fuel getaffinity 1024 (make_set 1024).

(** * Facts: /proc/interrupts *)

Definition blanks (k : nat) : str := replicate k " "%char.

(** The header of the file and a row, with any number of blanks between columns:
    a column of the header is a number and the blanks after it; one of a row, a
    count and the blanks before it (at least one). [tail] is the description at the
    end of a row. *)
Definition header_text (k : nat) (columns : list (Z * nat)) : str :=
  blanks k ++ concat ((fun c => L "CPU" ++ to_string c.1 ++ blanks c.2) <$> columns) ++ ["010"%char].
Definition counts_text (columns : list (Z * nat)) (tail : str) : str :=
  concat ((fun c => blanks (S c.2) ++ to_string c.1) <$> columns) ++ " "%char :: tail.
Definition row_text (t : InterruptType) (k : nat) (columns : list (Z * nat)) (tail : str) : str :=
  blanks k ++ interrupt_header t ++ counts_text columns tail.

Lemma skip_blanks k s : match s with [] => True | c :: _ => is_kernel_blank c = false end -> skip_to_non_blank (blanks k ++ s) = s.
Proof.
  intros Hs. unfold skip_to_non_blank. rewrite span_all; [done| |by destruct s].
  apply Forall_replicate. done.
Qed.

Lemma strto_blanks k s : strto 10 (blanks k ++ s) = strto 10 s.
Proof. induction k as [|k IH]; [done|]. unfold strto in *. cbn [blanks replicate app span]. change (isspace " "%char) with true. cbn iota. unfold blanks in IH. destruct (span isspace (replicate k _ ++ s)) eqn:E. exact IH. Qed.

Lemma strtoull_blanks k z rest : 0 <= z <= ULLONG_MAX ->
  match rest with [] => True | c :: _ => is_digit 10 c = false end ->
  strto 10 (blanks k ++ to_string z ++ rest) = Some (false, z, rest) /\
  strtoull 10 (blanks k ++ to_string z ++ rest) = (z, rest, false).
Proof.
  intros Hz Hr. unfold strtoull. rewrite strto_blanks. unfold to_string. destruct (Z.ltb_spec z 0); [lia|].
  rewrite strto_digits; [|by apply digits_fuel_ne; lia|by apply digits_fuel_digits|done].
  rewrite to_digits_value by (unfold ULLONG_MAX in *; lia). split; [done|].
  destruct (Z.ltb_spec ULLONG_MAX z); [lia|]. by rewrite wrap_u_small by (unfold in_u, ULLONG_MAX in *; lia).
Qed.

Lemma after_literal_app name s : after_literal name (name ++ s) = Some s.
Proof. unfold after_literal. by rewrite take_app_length, drop_app_length, bool_decide_true. Qed.

Definition cpu_columns (columns : list (Z * nat)) : Prop := Forall (fun c => 0 <= c.1 < 2 ^ 31) columns.

Lemma parse_cpus_ok columns : forall fuel result, cpu_columns columns -> (length columns < fuel)%nat ->
  parse_cpus fuel (concat ((fun c => L "CPU" ++ to_string c.1 ++ blanks c.2) <$> columns) ++ ["010"%char]) result = result ++ columns.*1.
Proof.
  induction columns as [|[c k] columns IH]; intros fuel result Hc Hf.
  { rewrite app_nil_r. destruct fuel; [done|]. done. }
  destruct fuel as [|fuel]; [simpl in Hf; lia|]. apply Forall_cons in Hc as [Hc Hrest]. simpl in Hc.
  rewrite !fmap_cons. cbn [concat parse_cpus fst snd]. rewrite <- !app_assoc, after_literal_app.
  set (rest := concat _ ++ _). assert (match rest with [] => True | x :: _ => is_kernel_blank x = false /\ is_digit 10 x = false end) as Hrest'
    by (unfold rest; destruct columns as [|[c' k'] ?]; done).
  destruct (strtoull_blanks 0 c (blanks k ++ rest)) as [H1 H2]; [unfold ULLONG_MAX; lia|destruct k; [destruct rest; [done|apply Hrest']|done]|].
  cbn [blanks replicate app] in H1, H2. rewrite H1, H2, skip_blanks by (destruct rest; [done|apply Hrest']).
  unfold rest. rewrite IH by (done || (simpl in Hf; lia)). rewrite <- app_assoc, wrap_s_small; [done|lia|unfold in_s; lia].
Qed.

Lemma header_columns k columns c : cpu_columns columns ->
  c = {| header_line := []; cached_result := [] |} \/ c = {| header_line := header_text k columns; cached_result := columns.*1 |} ->
  parse_header (Some (header_text k columns)) c = {| header_line := header_text k columns; cached_result := columns.*1 |}.
Proof.
  intros Hc [->| ->]; unfold parse_header; cbn [header_line cached_result]; [|by rewrite bool_decide_true].
  rewrite bool_decide_false by (unfold header_text; destruct k, columns as [|[? ?] ?]; done). f_equal.
  unfold header_text. rewrite skip_blanks by (destruct columns as [|[? ?] ?]; done).
  rewrite parse_cpus_ok; [done|done|]. rewrite !length_app. cbn [length].
  assert (length columns <= length (concat ((fun c => L "CPU" ++ to_string c.1 ++ blanks c.2) <$> columns)))%nat; [|lia].
  clear. induction columns as [|x l IH]; [simpl; lia|]. rewrite fmap_cons. cbn [concat length]. rewrite !length_app. change (length (L "CPU")) with 3%nat. lia.
Qed.

(** The counts put where the columns say. *)
Definition placed (columns : list Z) (counts : list Z) (result : list Z) : list Z :=
  foldl (fun r p => <[Z.to_nat p.1 := p.2]> r) result (zip columns counts).

Lemma fill_counts_ok tail cols counts : forall fuel i mapping result,
  strto 10 (" "%char :: tail) = None -> length counts = length cols -> drop i mapping = cols ->
  Forall (fun c => 0 <= c < len result) cols -> Forall (fun c => in_u 32 c.1) counts -> (length counts < fuel)%nat ->
  fill_counts fuel (counts_text counts tail) i mapping result = Ret (placed cols counts.*1 result).
Proof.
  revert cols. induction counts as [|[n k] counts IH]; intros [|c cols] fuel i mapping result Ht Hl Hd Hc Hn Hf; try done.
  { destruct fuel; [done|]. cbn [counts_text fmap list_fmap concat app fill_counts]. by rewrite Ht. }
  destruct fuel as [|fuel]; [simpl in Hf; lia|]. apply Forall_cons in Hc as [Hc Hcs], Hn as [Hn Hns]. simpl in Hn.
  assert (counts_text ((n, k) :: counts) tail = blanks (S k) ++ to_string n ++ counts_text counts tail) as ->
    by (unfold counts_text; rewrite fmap_cons; cbn [concat fst snd]; by rewrite <- !app_assoc).
  assert (match counts_text counts tail with [] => True | x :: _ => is_digit 10 x = false end) as Hh by (by destruct counts as [|[? ?] ?]).
  destruct (strtoull_blanks (S k) n (counts_text counts tail)) as [H1 H2]; [unfold in_u, ULLONG_MAX in *; lia|done|].
  cbn [fill_counts]. rewrite H1, H2. cbn [blanks replicate app].
  assert (mapping !! i = Some c) as Hi by (rewrite <- (Nat.add_0_r i), <- lookup_drop, Hd; done). rewrite Hi. cbn [of_option mbind outcome_bind].
  rewrite (proj2 (Z.leb_le 0 c)), (proj2 (Z.ltb_lt c _)) by lia. cbn [andb]. rewrite (wrap_u_small 32 n) by done.
  rewrite (IH cols); [done|done|by injection Hl| |unfold len in *; by rewrite length_insert|done|simpl in Hf; lia].
  rewrite (drop_S mapping c i Hi) in Hd. by injection Hd.
Qed.

Lemma placed_length cols counts : forall result, length (placed cols counts result) = length result.
Proof.
  revert counts. induction cols as [|c cols IH]; intros [|n counts] result; try done.
  unfold placed in *. cbn [zip_with foldl]. by rewrite IH, length_insert.
Qed.
Lemma placed_other cols counts j : forall result, Forall (fun c => 0 <= c) cols -> Z.of_nat j ∉ cols -> placed cols counts result !! j = result !! j.
Proof.
  revert counts. induction cols as [|c cols IH]; intros [|n counts] result Hc Hj; try done.
  apply Forall_cons in Hc as [Hc Hcs]. apply not_elem_of_cons in Hj as [Hj Hjs].
  unfold placed in *. cbn [zip_with foldl]. rewrite IH by done. simpl. apply list_lookup_insert_ne. lia.
Qed.
Lemma placed_column cols counts i c n : forall result, NoDup cols -> Forall (fun c => 0 <= c < len result) cols ->
  cols !! i = Some c -> counts !! i = Some n -> placed cols counts result !! Z.to_nat c = Some n.
Proof.
  revert counts i. induction cols as [|c' cols IH]; intros [|n' counts] [|i] result Hd Hc Hi Hn; try done; simpl in Hi, Hn; apply NoDup_cons in Hd as [Hnin Hd].
  - injection Hi as ->. injection Hn as ->. apply Forall_cons in Hc as [Hc Hcs].
    unfold placed. cbn [zip_with foldl fst snd]. fold (placed cols counts (<[Z.to_nat c := n]> result)).
    rewrite placed_other; [apply list_lookup_insert_eq; unfold len in Hc; lia|eapply Forall_impl; [exact Hcs|]; simpl; lia|].
    by rewrite Z2Nat.id by lia.
  - apply Forall_cons in Hc as [Hc Hcs]. unfold placed. cbn [zip_with foldl fst snd]. fold (placed cols counts (<[Z.to_nat c' := n']> result)).
    apply (IH counts i); [done| |done|done]. unfold len in *. by rewrite length_insert.
Qed.

Lemma counts_text_length counts tail_text : (length counts < S (length (counts_text counts tail_text)))%nat.
Proof.
  unfold counts_text. rewrite length_app. induction counts as [|x l IH]; [simpl; lia|].
  rewrite fmap_cons. cbn [concat]. rewrite !length_app. unfold blanks at 1. rewrite length_replicate. simpl length at 1. lia.
Qed.

Lemma increasing_NoDup l : StronglySorted Z.lt l -> NoDup l.
Proof.
  induction 1 as [|x l Hs IH Hx]; constructor; [|done]. rewrite Forall_forall in Hx. intros H%Hx. lia.
Qed.

Lemma skip_lines t rows row mapping result :
  Forall (fun l => after_literal (interrupt_header t) (skip_to_non_blank l) = None) rows ->
  find_counts (interrupt_header t) (rows ++ row) mapping result = find_counts (interrupt_header t) row mapping result.
Proof. induction 1 as [|l rows Hl Hrows IH]; [done|]. cbn [app find_counts]. by rewrite Hl. Qed.

(** Reading back what the kernel prints: with a header of increasing processor
    numbers and a row of as many counts, however they are aligned, the count of
    every processor of the header is at the index of its number, the other indices
    up to the last processor have zero, and the parsed header is kept for the next
    reading, which gives the same result. *)
Theorem interrupt_counts_roundtrip t k columns rows k' counts tail_text rest c :
  cpu_columns columns -> columns <> [] -> StronglySorted Z.lt columns.*1 ->
  length counts = length columns -> Forall (fun x => in_u 32 x.1) counts ->
  strto 10 (" "%char :: tail_text) = None ->
  Forall (fun l => after_literal (interrupt_header t) (skip_to_non_blank l) = None) rows ->
  c = {| header_line := []; cached_result := [] |} \/ c = {| header_line := header_text k columns; cached_result := columns.*1 |} ->
  exists result,
    get_interrupt_counts t (Some (header_text k columns :: rows ++ row_text t k' counts tail_text :: rest)) c
      = Ret (result, {| header_line := header_text k columns; cached_result := columns.*1 |}) /\
    Some (len result) = (fun m => m + 1) <$> last columns.*1 /\
    (forall i cpu n, columns.*1 !! i = Some cpu -> counts.*1 !! i = Some n -> result !! Z.to_nat cpu = Some n) /\
    (forall j, (j < length result)%nat -> Z.of_nat j ∉ columns.*1 -> result !! j = Some 0).
Proof.
  intros Hc Hne Hsort Hl Hn Ht Hrows Hcache. unfold get_interrupt_counts. cbn [head]. rewrite header_columns by done. cbn [cached_result].
  destruct (last columns.*1) as [m|] eqn:Em; [|by apply last_None, fmap_nil_inv in Em].
  assert (Forall (fun x => 0 <= x <= m) columns.*1) as Hm.
  { apply last_Some in Em as [l' El]. rewrite El in *. apply Forall_forall. intros x Hx. split.
    - assert (Forall (fun x => 0 <= x < 2 ^ 31) columns.*1) as H by by apply Forall_fmap. rewrite El, Forall_forall in H. apply H in Hx. lia.
    - apply elem_of_app in Hx as [Hx|Hx%list_elem_of_singleton]; [|lia].
      apply Z.lt_le_incl. eapply StronglySorted_app_1_elem_of; [exact Hsort|exact Hx|by left]. }
  assert (0 <= m) as Hm0. { apply last_Some_elem_of in Em. rewrite Forall_forall in Hm. apply Hm in Em. lia. }
  rewrite (proj2 (Z.leb_le 0 (m + 1))) by lia. cbn [assertion mbind outcome_bind tail].
  rewrite skip_lines by done. cbn [find_counts]. unfold row_text at 1.
  rewrite skip_blanks by by destruct t. rewrite after_literal_app.
  assert (len (replicate (Z.to_nat (m + 1)) 0) = m + 1) as Hlen by (unfold len; rewrite length_replicate; lia).
  rewrite (fill_counts_ok tail_text columns.*1 counts); [|done|by rewrite length_fmap|done| |done|].
  2: { rewrite Hlen. eapply Forall_impl; [exact Hm|]. simpl. lia. }
  2: apply counts_text_length.
  cbn [mbind outcome_bind]. eexists. split; [done|].
  split; [|split].
  - simpl. f_equal. unfold len in *. rewrite placed_length. lia.
  - intros i cpu n Hi Hin. apply (placed_column _ _ i cpu n); [|rewrite Hlen; eapply Forall_impl; [exact Hm|]; simpl; lia|done|done].
    by apply increasing_NoDup.
  - intros j Hj Hnin. rewrite placed_length, length_replicate in Hj. rewrite placed_other; [|eapply Forall_impl; [exact Hm|]; simpl; lia|done].
    by apply lookup_replicate_2.
Qed.


Lemma interrupt_counts_roundtrip_witness : exists result,
  get_interrupt_counts MCE (Some [header_text 11 [(0, 8%nat); (2, 8%nat)]; L " NMI:  5  6  Non-maskable interrupts";
      row_text MCE 1 [(3, 10%nat); (9, 10%nat)] (L "  Machine check exceptions")])
    {| header_line := []; cached_result := [] |}
  = Ret (result, {| header_line := header_text 11 [(0, 8%nat); (2, 8%nat)]; cached_result := [0; 2] |}) /\ result !! 2%nat = Some 9.
Proof.
  destruct (interrupt_counts_roundtrip MCE 11 [(0, 8%nat); (2, 8%nat)] [L " NMI:  5  6  Non-maskable interrupts"] 1
    [(3, 10%nat); (9, 10%nat)] (L "  Machine check exceptions") [] {| header_line := []; cached_result := [] |}) as (result & H & _ & Hv & _).
  - repeat (constructor; [simpl; lia|]). constructor.
  - done.
  - repeat constructor.
  - done.
  - repeat (constructor; [unfold in_u; simpl; lia|]). constructor.
  - reflexivity.
  - repeat constructor.
  - by left.
  - exists result. split; [exact H|]. by apply (Hv 1%nat 2 9).
Defined.

(** * Facts: machine checks *)

Definition nonzero (l : list Z) : Z := len (filter (fun d => d <> 0) l).

Lemma nonzero_cons d l : nonzero (d :: l) = (if d =? 0 then 0 else 1) + nonzero l.
Proof. unfold nonzero, len. rewrite filter_cons. destruct (Z.eqb_spec d 0); case_decide; simpl; try done; lia. Qed.
Lemma nonzero_insert l i d : l !! i = Some d -> d <> 0 -> nonzero (<[i := 0]> l) = nonzero l - 1.
Proof.
  revert i. induction l as [|x l IH]; intros [|i] Hi Hd; try done; simpl in *; rewrite !nonzero_cons.
  - injection Hi as ->. rewrite (proj2 (Z.eqb_neq d 0) Hd). simpl. lia.
  - rewrite (IH i) by done. lia.
Qed.

(** What a thread's data are after a message: an error fails the thread, and the
    message is in the log unless there are too many already. *)
Definition after_message (cfg : LogCfg) (now : Z) (c : Common) (text : str) : Common :=
  match current_output_format cfg with
  | no_output => c
  | _ =>
      let c := if bool_decide (head text = Some "E"%char) && negb (has_failed c) then set_fail_time now c else c in
      if max_messages_per_thread cfg <=? messages_logged c then c
      else append_log (encode_message UserMessages (status_level (default "d"%char (head text))) (create_filtered_message_string text)) c
  end.

(** The messages for one thread among those for all, and that these, in their
    order, are all that happened to the threads between two states. *)
Definition texts (th : Z) (ms : list (Z * str)) : list str := (filter (fun m => m.1 = th) ms).*2.
Definition told (cfg : LogCfg) (now : Z) (ms : list (Z * str)) (s s' : Shm) : Prop :=
  forall th c, thread_data th s = Ret c -> thread_data th s' = Ret (foldl (after_message cfg now) c (texts th ms)).

Section MceFacts.
Context (cfg : LogCfg) (now : Z) (cpus : list cpu_info) (ud : bool) (file : str) (line : Z).
Abbreviation n := (length cpus).

Lemma texts_app th ms1 ms2 : texts th (ms1 ++ ms2) = texts th ms1 ++ texts th ms2.
Proof using Type. unfold texts. by rewrite filter_app, fmap_app. Qed.

Lemma told_refl s : told cfg now [] s s.
Proof using Type. by intros th c Hc. Qed.
Lemma told_trans ms1 ms2 s1 s2 s3 : told cfg now ms1 s1 s2 -> told cfg now ms2 s2 s3 -> told cfg now (ms1 ++ ms2) s1 s3.
Proof using Type. intros H1 H2 th c Hc. rewrite texts_app, foldl_app. by apply H2, H1. Qed.
Lemma threads_ok_told ms s s' : threads_ok n s -> told cfg now ms s s' -> threads_ok n s'.
Proof using Type. intros Ht Hd th Hth. destruct (Ht th Hth) as [c Hc]. eexists. by apply Hd. Qed.

(** log_message() with an error or a warning that does not end in a newline. *)
Lemma log_message_told th k body s : k = "E"%char \/ k = "W"%char ->
  last (create_filtered_message_string body) <> Some newline -> body <> [] -> -1 <= th < Z.of_nat n -> threads_ok n s ->
  exists s', log_message cfg now th (k :: ">"%char :: " "%char :: body) s = Ret s' /\
    told cfg now [(th, k :: ">"%char :: " "%char :: body)] s s'.
Proof using Type.
  intros Hk Hlast Hne Hth Hs. destruct (Hs th Hth) as [c Hc]. set (text := k :: ">"%char :: " "%char :: body).
  assert (forall c, current_output_format cfg = no_output -> after_message cfg now c text = c) as Hno
    by (intros c' E; unfold after_message; by rewrite E).
  unfold log_message. destruct (current_output_format cfg) eqn:Ef.
  { exists s. split; [done|]. intros t c' Hc'. unfold texts. rewrite filter_cons. case_decide; cbn; by rewrite ?Hno. }
  all: assert (assert_log_message text = true) as -> by (by destruct Hk as [-> | ->]);
    assert (bool_decide (head text = Some "d"%char) = false) as -> by (by destruct Hk as [-> | ->]);
    rewrite andb_false_r; cbn [mbind outcome_bind assertion]; unfold log_message_preformatted;
    assert (create_filtered_message_string text = k :: ">"%char :: " "%char :: create_filtered_message_string body) as Et
      by (by destruct Hk as [-> | ->]); rewrite Et; cbn [head mbind outcome_bind of_option].
  all: set (c1 := if bool_decide (head text = Some "E"%char) && negb (has_failed c) then set_fail_time now c else c).
  all: assert (exists s1, (if char_eqb k "E" then logging_mark_thread_failed now th s else Ret s) = Ret s1 /\
         thread_data th s1 = Ret c1 /\ forall t, t <> th -> thread_data t s1 = thread_data t s) as (s1 & -> & Hd1 & Ho1)
    by (unfold c1; destruct Hk as [-> | ->]; [|by exists s];
        destruct (mark_failed_data now th s c Hc) as (s1 & -> & Hd & Ho); exists s1; split; [done|]; split; [|done];
        rewrite Hd; by destruct (has_failed c)).
  all: cbn [mbind outcome_bind]; unfold log_message_preformatted_level; rewrite Ef, Hd1; cbn [mbind outcome_bind].
  all: assert (after_message cfg now c text = if max_messages_per_thread cfg <=? messages_logged c1 then c1
         else append_log (encode_message UserMessages (status_level k) (create_filtered_message_string text)) c1) as Ha
    by (unfold after_message; rewrite Ef; reflexivity).
  all: assert (forall s', thread_data th s' = Ret (after_message cfg now c text) -> (forall t, t <> th -> thread_data t s' = thread_data t s) ->
         told cfg now [(th, text)] s s') as Htold
    by (intros s' H1 H2 t c' Hc'; unfold texts; rewrite filter_cons; case_decide as Ht; cbn in Ht |- *;
        [subst; rewrite Hc in Hc'; injection Hc' as <-; exact H1|by rewrite H2 by done]).
  all: destruct (max_messages_per_thread cfg <=? messages_logged c1);
    [exists s1; split; [done|]; apply Htold; [by rewrite Hd1, Ha|done]|].
  all: assert (strip_newline (k :: ">"%char :: " "%char :: create_filtered_message_string body)
         = Ret (create_filtered_message_string text)) as -> by
    (rewrite Et; unfold strip_newline; destruct (create_filtered_message_string body) as [|x r] eqn:Eb;
     [by destruct body|]; change (last (k :: ">"%char :: " "%char :: x :: r)) with (last (x :: r));
     destruct (last (x :: r)) as [z|] eqn:El; [|by apply last_None in El]; cbn [of_option mbind outcome_bind];
     unfold char_eqb; rewrite bool_decide_eq_false_2; [done|congruence]).
  all: cbn [mbind outcome_bind]; unfold log_message_for_thread;
    destruct (update_thread_ret th (append_log (encode_message UserMessages (status_level k) (create_filtered_message_string text))) s1 c1 Hd1) as [s2 Hs2];
    rewrite Hs2; exists s2; split; [done|]; apply Htold;
    [by rewrite (thread_data_update _ th _ _ _ Hs2), decide_True, Hd1, Ha by done
    |intros t Ht; rewrite (thread_data_update _ t _ _ _ Hs2), decide_False by done; by apply Ho1].
Qed.

(** log_platform_message() is a message of the main thread. *)
Lemma platform_message_is k body s : k = "E"%char \/ k = "W"%char ->
  log_platform_message cfg now (k :: ">"%char :: " "%char :: body) s =
  log_message cfg now (-1) (k :: ">"%char :: " "%char :: L "Platform issue: " ++ body) s.
Proof using Type. by intros [-> | ->]. Qed.

(** The counts of two readings that differ. *)
Definition changed (counts start : list Z) : Z := len (filter (fun p => p.1 <> p.2) (zip counts start)).

Lemma changed_cons a counts b start : changed (a :: counts) (b :: start) = (if a =? b then 0 else 1) + changed counts start.
Proof using Type.
  unfold changed, len. change (zip (a :: counts) (b :: start)) with ((a, b) :: zip counts start). rewrite filter_cons.
  destruct (Z.eqb_spec a b); case_decide; simpl in *; try done; lia.
Qed.

Lemma nonzero_changed counts start : Forall (in_u 32) counts -> Forall (in_u 32) start ->
  nonzero (zip_with (fun a b => u32 (a - b)) counts start) = changed counts start.
Proof using Type.
  intros Hc. revert start. induction Hc as [|a counts Ha Hc IH]; intros start Hs; [done|].
  destruct Hs as [|b start Hb Hs]; [done|]. cbn [zip_with]. rewrite nonzero_cons, changed_cons, IH by done. f_equal.
  destruct (Z.eqb_spec (u32 (a - b)) 0) as [E|E], (Z.eqb_spec a b) as [D|D]; try done.
  - destruct D. unfold in_u, u32, wrap_u in *. Z.div_mod_to_equations. lia.
  - destruct E. subst. by rewrite Z.sub_diag.
Qed.

Lemma changed_zero counts start : length counts = length start -> changed counts start = 0 <-> counts = start.
Proof using Type.
  revert start. induction counts as [|a counts IH]; intros [|b start] Hl; try done.
  rewrite changed_cons. simpl in Hl. specialize (IH start ltac:(lia)).
  assert (0 <= changed counts start) by (unfold changed, len; lia).
  destruct (Z.eqb_spec a b) as [->|D]; [|split; [lia|by intros [= -> ->]]].
  rewrite Z.add_0_l, IH. split; [by intros ->|by intros [= ->]].
Qed.

(** What the test says: to each thread whose processor's count changed, and to
    the main thread about the processors that run no thread. *)
Definition tested_text (d : Z) : str := L "E> MCE detected (" ++ to_string d ++ L " interrupts since start)".
Definition other_text (i : nat) : str :=
  L "E> MCE detected on OS CPU " ++ to_string (Z.of_nat i) ++ L " that wasn't part of the test set".

Definition tested_messages (k : nat) (todo : list cpu_info) (D : list Z) : list (Z * str) :=
  omap (fun p => d ← D !! Z.to_nat (cpu_number p.2); if d =? 0 then None else Some (Z.of_nat p.1, tested_text d))
    (imap (fun i c => ((k + i)%nat, c)) todo).
Definition other_messages (k : nat) (D : list Z) : list (Z * str) :=
  omap (fun p => if p.2 =? 0 then None else Some (-1, other_text p.1)) (imap (fun i d => ((k + i)%nat, d)) D).
(** The differences with those of the tested processors left out. *)
Definition untested (todo : list cpu_info) (D : list Z) : list Z :=
  imap (fun j d => if bool_decide (Z.of_nat j ∈ map cpu_number todo) then 0 else d) D.

Definition summary_message (errorcount : Z) : list (Z * str) :=
  if errorcount =? 0 then []
  else [(-1, L "E> Platform issue: MCE interrupts detected on " ++ to_string errorcount ++ L " CPUs")].
Definition thermal_message (last thermal_now : Z) : list (Z * str) :=
  if thermal_now =? last then []
  else [(-1, L "W> Platform issue: Thermal events detected (" ++ to_string (u64 (thermal_now - last)) ++ L " since start).")].

Definition mce_messages (counts start : list Z) (last thermal_now : Z) : list (Z * str) :=
  let D := zip_with (fun a b => u32 (a - b)) counts start in
  tested_messages 0 cpus D ++ other_messages 0 (untested cpus D) ++
  summary_message (changed counts start) ++ thermal_message last thermal_now.

Lemma imap_shift {A B} (f : nat -> A -> B) k (l : list A) : imap ((fun i c => f (k + i)%nat c) ∘ S) l = imap (fun i c => f (S k + i)%nat c) l.
Proof using Type. apply imap_ext. intros i x _. simpl. f_equal. lia. Qed.

Lemma tested_messages_cons k c todo D :
  tested_messages k (c :: todo) D =
  (if default 0 (D !! Z.to_nat (cpu_number c)) =? 0 then []
   else [(Z.of_nat k, tested_text (default 0 (D !! Z.to_nat (cpu_number c))))]) ++ tested_messages (S k) todo D.
Proof using Type.
  unfold tested_messages. rewrite imap_cons, (imap_shift pair). rewrite Nat.add_0_r. cbn [omap list_omap fst snd].
  destruct (D !! Z.to_nat (cpu_number c)) as [d|]; [|done]. cbn [mbind option_bind]. change (default 0 (Some d)) with d. by destruct (d =? 0).
Qed.

Lemma other_messages_cons k d D :
  other_messages k (d :: D) = (if d =? 0 then [] else [(-1, other_text k)]) ++ other_messages (S k) D.
Proof using Type.
  unfold other_messages. rewrite imap_cons, (imap_shift pair). rewrite Nat.add_0_r. cbn [omap list_omap fst snd].
  by destruct (d =? 0).
Qed.

(** A later count is not touched by setting an earlier one to zero. *)
Lemma tested_messages_insert todo j D : forall k, j ∉ (fun c => Z.to_nat (cpu_number c)) <$> todo ->
  tested_messages k todo (<[j := 0]> D) = tested_messages k todo D.
Proof using Type.
  induction todo as [|c todo IH]; intros k; [done|]. rewrite fmap_cons, not_elem_of_cons. intros [Hne Hj].
  by rewrite !tested_messages_cons, list_lookup_insert_ne, IH.
Qed.

Lemma last_text a (z : Z) b : last (create_filtered_message_string (a ++ to_string z ++ b ++ [")"%char])) <> Some newline.
Proof using Type. unfold create_filtered_message_string. rewrite !map_app, !last_app. done. Qed.


(** The loop over the tested processors. *)
Lemma check_cpus_told todo : NoDup (map cpu_number todo) -> forall k D errorcount s,
  (k + length todo <= n)%nat -> Forall (fun c => 0 <= cpu_number c < len D) todo -> threads_ok n s ->
  exists s', fold_outcome (check_cpu cfg now) (imap (fun i c => ((k + i)%nat, c)) todo) (D, errorcount, s)
    = Ret (untested todo D, errorcount + len (tested_messages k todo D), s') /\
    nonzero (untested todo D) + len (tested_messages k todo D) = nonzero D /\
    told cfg now (tested_messages k todo D) s s'.
Proof using Type.
  induction todo as [|c todo IH]; intros Hnd k D errorcount s Hk Hc Hs.
  { exists s. unfold untested. cbn [map]. assert (imap (fun j d => if bool_decide (Z.of_nat j ∈ []) then 0 else d) D = D) as ->.
    { apply list_eq. intros j. rewrite list_lookup_imap. destruct (D !! j); [|done]. simpl. by f_equal. }
    unfold len. simpl. rewrite !Z.add_0_r. repeat split. apply told_refl. }
  cbn [map] in Hnd. apply NoDup_cons in Hnd as [Hnin Hnd].
  apply Forall_cons in Hc as [Hc Hrest]. simpl in Hk. rewrite imap_cons, (imap_shift pair). cbn [fold_outcome]. rewrite Nat.add_0_r.
  unfold check_cpu at 2. cbn [fst snd]. unfold assertion. rewrite (proj2 (Z.leb_le 0 (cpu_number c))), (proj2 (Z.ltb_lt _ _)) by lia. cbn [andb mbind outcome_bind].
  destruct (at_ret D (cpu_number c) Hc) as (d & -> & Hd). cbn [mbind outcome_bind].
  assert (forall D', D' = <[Z.to_nat (cpu_number c) := 0]> D -> untested todo D' = untested (c :: todo) D) as Hu.
  { intros D' ->. apply list_eq. intros j. unfold untested. rewrite !list_lookup_imap.
    destruct (decide (j = Z.to_nat (cpu_number c))) as [->|Hne].
    - rewrite list_lookup_insert_eq, Hd by (unfold len in Hc; lia). simpl. f_equal.
      rewrite (bool_decide_eq_true_2 (_ ∈ cpu_number c :: _)) by (apply elem_of_cons; left; lia). by case_bool_decide.
    - rewrite list_lookup_insert_ne by done. destruct (D !! j) as [z|]; [|done]. simpl. f_equal.
      apply (f_equal (fun b : bool => if b then 0 else z)). apply bool_decide_ext. rewrite elem_of_cons.
      split; [auto|]. intros [E|?]; [|done]. exfalso. lia. }
  rewrite tested_messages_cons, Hd. change (default 0 (Some d)) with d.
  destruct (Z.eqb_spec d 0) as [->|Hnz].
  - destruct (IH Hnd (S k) D errorcount s) as (s' & H & Hsum & Ht); [lia|done|done|].
    rewrite Hu in H, Hsum by by rewrite list_insert_id. exists s'. done.
  - destruct (log_message_told (Z.of_nat k) "E" (L "MCE detected (" ++ to_string d ++ L " interrupts since start)") s)
      as (s1 & H1 & L1); [by left|apply (last_text (L "MCE detected (") d (L " interrupts since start"))|done|lia|done|].
    change ("E"%char :: ">"%char :: " "%char :: L "MCE detected (" ++ to_string d ++ L " interrupts since start)")
      with (tested_text d) in H1, L1. fold (tested_text d). rewrite H1. cbn [mbind outcome_bind].
    destruct (IH Hnd (S k) (<[Z.to_nat (cpu_number c) := 0]> D) (errorcount + 1) s1) as (s' & H & Hsum & Ht).
    + lia.
    + unfold len in *. by rewrite length_insert.
    + by eapply threads_ok_told.
    + rewrite Hu in H, Hsum by done. rewrite (nonzero_insert _ _ d) in Hsum by done.
      assert (tested_messages (S k) todo (<[Z.to_nat (cpu_number c) := 0]> D) = tested_messages (S k) todo D) as E.
      { apply tested_messages_insert. intros (c' & E & Hin)%list_elem_of_fmap. destruct Hnin.
        rewrite Forall_forall in Hrest. specialize (Hrest c' Hin). replace (cpu_number c) with (cpu_number c') by lia.
        change (cpu_number c' ∈ cpu_number <$> todo). by apply list_elem_of_fmap_2. }
      rewrite E in *. exists s'. rewrite H. unfold len in *. rewrite length_app. cbn [length].
      split; [do 3 f_equal; lia|]. split; [lia|]. by eapply told_trans.
Qed.

Lemma check_others_told D : forall k errorcount s, (0 < n)%nat -> threads_ok n s ->
  exists s', fold_outcome (check_other cfg now) (imap (fun i d => ((k + i)%nat, d)) D) (errorcount, s)
    = Ret (errorcount + nonzero D, s') /\ len (other_messages k D) = nonzero D /\ told cfg now (other_messages k D) s s'.
Proof using Type.
  induction D as [|d D IH]; intros k errorcount s Hn Hs.
  { exists s. unfold nonzero, len. simpl. rewrite Z.add_0_r. repeat split. apply told_refl. }
  rewrite imap_cons, (imap_shift pair), nonzero_cons, other_messages_cons. cbn [fold_outcome]. rewrite Nat.add_0_r.
  unfold check_other at 2. cbn [fst snd]. destruct (Z.eqb_spec d 0) as [->|Hnz].
  - cbn [mbind outcome_bind]. apply IH; done.
  - set (body := L "MCE detected on OS CPU " ++ to_string (Z.of_nat k) ++ L " that wasn't part of the test set").
    destruct (log_message_told (-1) "E" body s) as (s1 & H1 & L1); [by left| |done|lia|done|].
    { unfold body, create_filtered_message_string. rewrite !map_app, !last_app. done. }
    change ("E"%char :: ">"%char :: " "%char :: body) with (other_text k) in H1, L1. fold (other_text k). rewrite H1.
    cbn [mbind outcome_bind]. destruct (IH (S k) (errorcount + 1) s1 Hn) as (s' & H2 & Hlen & L2); [by eapply threads_ok_told|].
    exists s'. rewrite H2. unfold len in *. rewrite length_app. cbn [length].
    split; [do 2 f_equal; lia|]. split; [lia|]. by eapply told_trans.
Qed.

Definition is_error (text : str) : bool := bool_decide (head text = Some "E"%char).

(** A thread fails by the errors it is told. *)
Lemma after_messages_failed ms c : current_output_format cfg <> no_output -> now < time_max ->
  has_failed (foldl (after_message cfg now) c ms) = has_failed c || existsb is_error ms.
Proof using Type.
  intros Hf Hnow. revert c. induction ms as [|text ms IH]; intros c; cbn [foldl existsb]; [by rewrite orb_false_r|].
  rewrite IH, orb_assoc. f_equal. unfold after_message. fold (is_error text).
  assert (has_failed (set_fail_time now c) = true) as Ht by (apply Z.ltb_lt; simpl; lia).
  destruct (current_output_format cfg); [done|..]; case_match; destruct (is_error text), (has_failed c) eqn:E; done.
Qed.

Lemma texts_tested_before th k todo D : th < Z.of_nat k -> texts th (tested_messages k todo D) = [].
Proof using Type.
  revert k. induction todo as [|c todo IH]; intros k Hk; [done|]. rewrite tested_messages_cons, texts_app, IH by lia.
  rewrite app_nil_r. case_match; [done|]. unfold texts. rewrite filter_cons, decide_False by (simpl; lia). done.
Qed.

Lemma texts_tested todo D : forall k i c, todo !! i = Some c ->
  texts (Z.of_nat (k + i)) (tested_messages k todo D) =
    if default 0 (D !! Z.to_nat (cpu_number c)) =? 0 then [] else [tested_text (default 0 (D !! Z.to_nat (cpu_number c)))].
Proof using Type.
  induction todo as [|c' todo IH]; intros k [|i] c Hi; try done; simpl in Hi; rewrite tested_messages_cons, texts_app.
  - injection Hi as ->. rewrite (texts_tested_before _ (S k)), app_nil_r by lia. case_match; [done|].
    unfold texts. rewrite filter_cons, decide_True by (simpl; lia). done.
  - replace (Z.of_nat (k + S i)) with (Z.of_nat (S k + i)) by lia. rewrite (IH (S k) i c Hi).
    case_match; [done|]. unfold texts at 1. rewrite filter_cons, decide_False by (simpl; lia). done.
Qed.

(** The other messages are all for the main thread. *)
Definition main_only (ms : list (Z * str)) : Prop := Forall (fun m => m.1 = -1) ms.
Lemma main_only_texts ms : main_only ms -> texts (-1) ms = ms.*2 /\ forall th, th <> -1 -> texts th ms = [].
Proof using Type.
  induction 1 as [|[th text] ms Hm Hms [IH1 IH2]]; [done|]. simpl in Hm. subst. unfold texts in *. split.
  - rewrite filter_cons, decide_True by done. by rewrite !fmap_cons, IH1.
  - intros th Hth. rewrite filter_cons, decide_False by (simpl; lia). by apply IH2.
Qed.

Lemma other_main k D : main_only (other_messages k D).
Proof using Type.
  revert k. induction D as [|d D IH]; intros k; [constructor|]. rewrite other_messages_cons. apply Forall_app. split; [|apply IH].
  case_match; repeat constructor.
Qed.
Lemma summary_main z : main_only (summary_message z).
Proof using Type. unfold summary_message. case_match; repeat constructor. Qed.
Lemma thermal_main a b : main_only (thermal_message a b).
Proof using Type. unfold thermal_message. case_match; repeat constructor. Qed.

Lemma difference_lookup counts start i : Forall (in_u 32) counts -> Forall (in_u 32) start ->
  default 0 (zip_with (fun a b => u32 (a - b)) counts start !! i) =
    match counts !! i, start !! i with Some a, Some b => u32 (a - b) | _, _ => 0 end /\
  (default 0 (zip_with (fun a b => u32 (a - b)) counts start !! i) =? 0) =
    match counts !! i, start !! i with Some a, Some b => a =? b | _, _ => true end.
Proof using Type.
  intros Hc Hs. rewrite lookup_zip_with. destruct (counts !! i) as [a|] eqn:Ha; [|done]. simpl.
  destruct (start !! i) as [b|] eqn:Hb; [|done]. simpl. split; [done|].
  rewrite Forall_lookup in Hc, Hs. specialize (Hc i a Ha). specialize (Hs i b Hb).
  destruct (Z.eqb_spec (u32 (a - b)) 0) as [E|E], (Z.eqb_spec a b) as [D|D]; try done.
  - destruct D. unfold in_u, u32, wrap_u in *. Z.div_mod_to_equations. lia.
  - destruct E. subst. by rewrite Z.sub_diag.
Qed.

(** The end of the test: the two platform messages. *)
Lemma platform_told (cond : bool) k body s : k = "E"%char \/ k = "W"%char -> (0 < n)%nat -> threads_ok n s ->
  last (create_filtered_message_string (L "Platform issue: " ++ body)) <> Some newline ->
  exists s', (if negb cond then log_platform_message cfg now (k :: ">"%char :: " "%char :: body) s else Ret s) = Ret s' /\
    told cfg now (if cond then [] else [(-1, k :: ">"%char :: " "%char :: L "Platform issue: " ++ body)]) s s'.
Proof using Type.
  intros Hk Hn Hs Hl. destruct cond; cbn [negb]; [exists s; split; [done|apply told_refl]|].
  rewrite platform_message_is by done. by apply log_message_told; [..|lia|].
Qed.

(** The test says [mce_messages], and nothing else. *)
Lemma mce_check_told counts start thermal_now m s :
  mce_counts_start m = start ->
  length counts = length start -> Forall (in_u 32) counts -> Forall (in_u 32) start ->
  cpus <> [] -> NoDup (map cpu_number cpus) -> Forall (fun c => 0 <= cpu_number c < len counts) cpus -> threads_ok n s ->
  let D := zip_with (fun a b => u32 (a - b)) counts start in
  let ms := mce_messages counts start (last_thermal_event_count m) thermal_now in
  exists s', mce_check_run cfg now cpus ud file line 0 counts thermal_now m s
      = Ret (Some (changed counts start), {| mce_counts_start := counts; mce_count_last := get_total_interrupt_counts counts;
                                             last_thermal_event_count := thermal_now |}, s') /\
    told cfg now ms s s' /\
    len (tested_messages 0 cpus D) + len (other_messages 0 (untested cpus D)) = changed counts start.
Proof using Type.
  intros Hstart Hl Hc Hs Hne Hnd Hcpu Ht D ms. unfold mce_check_run. rewrite Z.eqb_refl, Hstart. cbn [negb].
  rewrite (proj2 (Z.eqb_eq (len counts) (len start))) by (unfold len; lia). simpl negb. cbn iota. cbn zeta. fold D.
  assert (0 < n)%nat as Hn by (destruct cpus; [done|simpl; lia]).
  assert (len D = len counts) as Hld by (unfold D, len; rewrite length_zip_with; lia).
  destruct (check_cpus_told cpus Hnd 0 D 0 s) as (s1 & H1 & Hsum & L1); [lia|by rewrite Hld|done|].
  change (imap pair cpus) with (imap (fun i c => ((0 + i)%nat, c)) cpus). rewrite H1. cbn [mbind outcome_bind].
  assert (threads_ok n s1) as Ht1 by by eapply threads_ok_told.
  destruct (check_others_told (untested cpus D) 0 (0 + len (tested_messages 0 cpus D)) s1 Hn Ht1) as (s2 & H2 & Hlen & L2).
  change (imap pair (untested cpus D)) with (imap (fun i (d : Z) => ((0 + i)%nat, d)) (untested cpus D)). rewrite H2. cbn [mbind outcome_bind].
  assert (threads_ok n s2) as Ht2 by by eapply threads_ok_told.
  assert (0 + len (tested_messages 0 cpus D) + nonzero (untested cpus D) = changed counts start) as ->
    by (rewrite <- nonzero_changed by done; fold D; lia).
  destruct (platform_told (changed counts start =? 0) "E" (L "MCE interrupts detected on " ++ to_string (changed counts start) ++ L " CPUs") s2)
    as (s3 & H3 & L3); [by left|done|done|unfold create_filtered_message_string; by rewrite !map_app, !last_app|].
  change (L "E> MCE interrupts detected on " ++ to_string (changed counts start) ++ L " CPUs") with
    ("E"%char :: ">"%char :: " "%char :: L "MCE interrupts detected on " ++ to_string (changed counts start) ++ L " CPUs").
  rewrite H3. cbn [mbind outcome_bind].
  destruct (platform_told (thermal_now =? last_thermal_event_count m) "W" (L "Thermal events detected (" ++ to_string (u64 (thermal_now - last_thermal_event_count m)) ++ L " since start).") s3)
    as (s4 & H4 & L4); [by right|done|by eapply threads_ok_told|unfold create_filtered_message_string; by rewrite !map_app, !last_app|].
  change (L "W> Thermal events detected (" ++ to_string (u64 (thermal_now - last_thermal_event_count m)) ++ L " since start).") with
    ("W"%char :: ">"%char :: " "%char :: L "Thermal events detected (" ++ to_string (u64 (thermal_now - last_thermal_event_count m)) ++ L " since start).").
  rewrite H4. cbn [mbind outcome_bind]. exists s4. split; [done|].
  assert (told cfg now ms s s4) as Htold by exact (told_trans _ _ _ _ _ L1 (told_trans _ _ _ _ _ L2 (told_trans _ _ _ _ _ L3 L4))).
  split; [done|]. rewrite <- nonzero_changed by done. fold D. lia.
Qed.

(** C25. The machine check test, in the thread that reads the counts. The
    processors of the tested threads are distinct and have a count, and both
    readings have as many counts. Then the test returns the number of processors
    whose count has changed since the start, and keeps the new counts. The
    messages [mce_messages] are all it does to the threads' data, in their order:
    a tested thread is told, once, the difference of its processor when that
    changed, and nothing otherwise; the main thread is told every other processor
    whose count changed, the number of changed processors if there are any, and
    new thermal events. With a log format chosen, exactly the threads that are
    told an error have failed afterwards, besides those that had before: a tested
    thread when its processor's count changed, the main thread when any did. *)
Theorem mce_check_spec counts start thermal_now m s :
  mce_counts_start m = start ->
  length counts = length start -> Forall (in_u 32) counts -> Forall (in_u 32) start ->
  cpus <> [] -> NoDup (map cpu_number cpus) -> Forall (fun c => 0 <= cpu_number c < len counts) cpus -> threads_ok n s ->
  let D := zip_with (fun a b => u32 (a - b)) counts start in
  let ms := mce_messages counts start (last_thermal_event_count m) thermal_now in
  exists s', mce_check_run cfg now cpus ud file line 0 counts thermal_now m s
      = Ret (Some (changed counts start), {| mce_counts_start := counts; mce_count_last := get_total_interrupt_counts counts;
                                             last_thermal_event_count := thermal_now |}, s') /\
    told cfg now ms s s' /\
    (forall i info, cpus !! i = Some info ->
      texts (Z.of_nat i) ms =
        match counts !! Z.to_nat (cpu_number info), start !! Z.to_nat (cpu_number info) with
        | Some a, Some b => if a =? b then [] else [tested_text (u32 (a - b))]
        | _, _ => []
        end) /\
    texts (-1) ms = (other_messages 0 (untested cpus D) ++ summary_message (changed counts start) ++
                     thermal_message (last_thermal_event_count m) thermal_now).*2 /\
    len (tested_messages 0 cpus D ++ other_messages 0 (untested cpus D)) = changed counts start /\
    (changed counts start = 0 <-> counts = start) /\
    (current_output_format cfg <> no_output -> now < time_max ->
     (forall th c, thread_data th s = Ret c ->
       exists c', thread_data th s' = Ret c' /\ has_failed c' = has_failed c || existsb is_error (texts th ms)) /\
     (existsb is_error (texts (-1) ms) = true <-> counts <> start)).
Proof using Type.
  intros Hstart Hl Hc Hs Hne Hnd Hcpu Ht D ms.
  destruct (mce_check_told counts start thermal_now m s Hstart Hl Hc Hs Hne Hnd Hcpu Ht) as (s4 & Hrun & Htold & Hlen).
  fold D in Hlen. exists s4. split; [exact Hrun|]. split; [exact Htold|].
  assert (main_only (other_messages 0 (untested cpus D) ++ summary_message (changed counts start) ++
            thermal_message (last_thermal_event_count m) thermal_now)) as Hmain
    by (apply Forall_app; split; [apply other_main|apply Forall_app; split; [apply summary_main|apply thermal_main]]).
  apply main_only_texts in Hmain as [Hm1 Hm2].
  assert (texts (-1) ms = (other_messages 0 (untested cpus D) ++ summary_message (changed counts start) ++
            thermal_message (last_thermal_event_count m) thermal_now).*2) as Hm
    by (unfold ms, mce_messages; fold D; by rewrite texts_app, texts_tested_before by lia).
  assert (changed counts start = 0 <-> counts = start) as Heq by apply changed_zero, Hl.
  split; [|split; [done|split; [|split; [done|]]]].
  - intros i info Hi. unfold ms, mce_messages. fold D. rewrite texts_app, (Hm2 (Z.of_nat i)), app_nil_r by lia.
    pose proof (texts_tested cpus D 0 i info Hi) as E0. change (0 + i)%nat with i in E0. rewrite E0. destruct (difference_lookup counts start (Z.to_nat (cpu_number info)) Hc Hs) as [E1 E2].
    unfold D. rewrite E2, E1. by repeat case_match.
  - unfold len in *. rewrite length_app. lia.
  - intros Hfmt Hnow. split.
    + intros th c Hth. eexists. split; [by apply Htold|]. by apply after_messages_failed.
    + rewrite Hm, !fmap_app, !existsb_app. rewrite <- Heq. assert (0 <= len (tested_messages 0 cpus D)) by (unfold len; lia).
      unfold summary_message. destruct (Z.eqb_spec (changed counts start) 0) as [E|E]; cbn.
      * assert (other_messages 0 (untested cpus D) = []) as -> by (apply nil_length_inv; unfold len in *; lia). unfold thermal_message. case_match; cbn; naive_solver.
      * rewrite orb_true_r. done.
Qed.
End MceFacts.

Definition mce_cpus : list cpu_info := (fun i => blank_cpu zero_cpu i) <$> [0; 2].

Definition mce_start : MceCounts := {| mce_counts_start := [3; 0; 7; 1]; mce_count_last := 11; last_thermal_event_count := 12 |}.

(** Threads 0 and 1 test processors 0 and 2; the counts of 2 and 3 have changed. *)
Lemma mce_check_spec_witness :
  exists m s' c', mce_check_run cfg0 5 mce_cpus false (L "mce_check.cpp") 60 0 [3; 0; 9; 2] 12 mce_start (idle_shm 1 2) = Ret (Some 2, m, s') /\
    thread_data 0 s' = Ret idle_common /\
    thread_data 1 s' = Ret c' /\ has_failed c' = true /\
    texts 1 (mce_messages mce_cpus [3; 0; 9; 2] [3; 0; 7; 1] 12 12) = [L "E> MCE detected (2 interrupts since start)"] /\
    texts (-1) (mce_messages mce_cpus [3; 0; 9; 2] [3; 0; 7; 1] 12 12) =
      [L "E> MCE detected on OS CPU 3 that wasn't part of the test set"; L "E> Platform issue: MCE interrupts detected on 2 CPUs"].
Proof.
  destruct (mce_check_spec cfg0 5 mce_cpus false (L "mce_check.cpp") 60 [3; 0; 9; 2] [3; 0; 7; 1] 12 mce_start (idle_shm 1 2))
    as (s' & H & Htold & Hth & Hmain & _ & _ & Hfail).
  - done.
  - done.
  - repeat (constructor; [unfold in_u; lia|]). constructor.
  - repeat (constructor; [unfold in_u; lia|]). constructor.
  - done.
  - apply (bool_decide_unpack _). by vm_compute.
  - repeat (constructor; [simpl; unfold len; simpl; lia|]). constructor.
  - intros th Hth. apply thread_data_valid. unfold valid_thread, len. simpl in *. lia.
  - destruct (Hfail ltac:(done) ltac:(done)) as [Hf _]. destruct (Hf 1 idle_common ltac:(done)) as (c' & Hc' & Hfc).
    exists {| mce_counts_start := [3; 0; 9; 2]; mce_count_last := 14; last_thermal_event_count := 12 |}, s', c'.
    split; [exact H|]. split; [by rewrite (Htold 0 idle_common)|]. split; [exact Hc'|]. split; [by rewrite Hfc|].
    split; [etransitivity; [exact (Hth 1%nat (blank_cpu zero_cpu 2) eq_refl)|by vm_compute]|by vm_compute].
Defined.

(** * Facts: model-specific registers *)

Inductive msr_call := ReadMsr (cpu msr : Z) | WriteMsr (cpu msr value : Z).
Definition msr_step (open : Z -> msr_open) (module_present : bool) (st : MsrState) (c : msr_call) : MsrState :=
  match c with
  | ReadMsr cpu msr => (read_msr open module_present cpu msr st).2
  | WriteMsr cpu msr value => (write_msr open module_present cpu msr value st).2
  end.

Lemma msr_step_open open present st c : exists cpu, msr_step open present st c = (open_msr open present cpu st).2.
Proof.
  destruct c as [cpu msr|cpu msr v]; exists cpu; simpl; unfold read_msr, write_msr; by destruct (open_msr _ _ _ _).
Qed.

Definition msr_fresh : MsrState := {| msr_access_denied := false; tried := false; modprobes := 0; opens := 0 |}.

Lemma msr_calls_ok open present calls : forall st,
  (modprobes st <= if tried st then 1 else 0)%nat ->
  let st' := foldl (msr_step open present) st calls in
  (modprobes st' <= if tried st' then 1 else 0)%nat /\ (msr_access_denied st = true -> st' = st).
Proof.
  induction calls as [|c calls IH]; intros st Hst; simpl; [done|].
  destruct (msr_step_open open present st c) as [cpu Hc]. rewrite Hc. unfold open_msr.
  destruct (msr_access_denied st) eqn:Ed; simpl.
  - destruct (IH st Hst) as [H1 H2]. split; [exact H1|]. intros _. by apply H2.
  - split; [|done]. unfold try_load_kmod.
    destruct (tried st) eqn:Et, (open cpu); simpl; apply IH; simpl; rewrite ?Et; try destruct present; simpl; lia.
Qed.

(** Whatever registers are read and written, in any order, modprobe is run at most
    once, and once a file could not be opened for lack of permission no call opens
    one again or runs modprobe. *)
Theorem msr_gives_up (open : Z -> msr_open) (present : bool) (before after : list msr_call) :
  let st := foldl (msr_step open present) msr_fresh before in
  let st' := foldl (msr_step open present) st after in
  (modprobes st' <= 1)%nat /\ (msr_access_denied st = true -> st' = st).
Proof.
  intros st st'. assert (modprobes st <= if tried st then 1 else 0)%nat as Hst by (apply msr_calls_ok; simpl; lia).
  destruct (msr_calls_ok open present after st Hst) as [H1 H2]. split; [|exact H2]. fold st' in H1. destruct (tried st'); lia.
Qed.

(** * Facts: affinity *)

Lemma setInArray_set_cpu n s : cpu_ok n -> n / 64 < len (array s) -> setInArray n s = set_cpu n s.
Proof.
  intros Hn Hl. assert (0 <= n / 64) by (unfold cpu_ok in Hn; apply Z.div_pos; lia).
  unfold setInArray, set_cpu, modify_word, ensureSize, ProcessorsPerWord. unfold cpu_ok in Hn.
  rewrite (wrap_u_small 64 n) by (unfold in_u; lia). rewrite (proj2 (Z.leb_gt _ _)) by lia.
  rewrite word_index_ok by done. destruct (at_ret (array s) (n / 64)) as (w & -> & Hw); [lia|]. by rewrite Hw.
Qed.

Lemma setInArray_abs n s : cpu_ok n -> set_ok s -> n / 64 < len (array s) ->
  exists s', setInArray n s = Ret s' /\ set_ok s' /\ abs s' = {[n]} ∪ abs s /\ len (array s') = len (array s).
Proof.
  intros Hn Hs Hl. destruct (set_cpu_abs n s Hn Hs) as (s' & H & Hs' & Ha). exists s'.
  rewrite <- (setInArray_set_cpu n s Hn Hl) in H. split; [done|]. split; [done|]. split; [done|].
  unfold setInArray in H. destruct (array s !! _); simpl in H; [|done]. injection H as <-. unfold len. simpl. by rewrite length_insert.
Qed.

Lemma foldl_max_le l : forall a, a <= foldl Z.max a l /\ Forall (fun x => x <= foldl Z.max a l) l.
Proof.
  induction l as [|x l IH]; intros a; simpl; [split; [lia|constructor]|]. destruct (IH (Z.max a x)) as [H1 H2].
  split; [lia|]. constructor; [lia|done].
Qed.
Lemma foldl_max_cpu_ok l : forall a, cpu_ok a -> Forall cpu_ok l -> cpu_ok (foldl Z.max a l).
Proof.
  induction l as [|x l IH]; intros a Ha Hl; simpl; [done|]. apply Forall_cons in Hl as [Hx Hl].
  apply IH; [|done]. unfold cpu_ok in *. lia.
Qed.

Lemma zero_words_ok n : cpu_ok n -> set_ok (zero_words n) /\ abs (zero_words n) = ∅ /\ len (array (zero_words n)) = n / 64 + 1.
Proof.
  intros Hn. pose proof (Z.div_pos n 64 ltac:(unfold cpu_ok in Hn; lia) ltac:(lia)).
  assert (len (array (zero_words n)) = n / 64 + 1) as Hl
    by (unfold len, zero_words, ProcessorsPerWord; simpl; rewrite length_replicate; lia).
  assert (set_ok (zero_words n)) as Hok.
  { split; [apply Forall_replicate; unfold in_u; lia|]. unfold set_small. rewrite Hl. unfold cpu_ok in Hn.
    pose proof (Z.mul_div_le n 64 ltac:(lia)). lia. }
  split; [done|]. split; [|done]. apply empty_abs; [done|]. apply forallb_forall. intros w Hw%list_elem_of_In.
  apply elem_of_replicate in Hw as [-> _]. done.
Qed.

Lemma set_all_abs l : forall s, set_ok s -> Forall (fun n => cpu_ok n /\ n / 64 < len (array s)) l ->
  exists s', fold_outcome (fun s lp => setInArray lp s) l s = Ret s' /\ abs s' = list_to_set l ∪ abs s /\ len (array s') = len (array s).
Proof.
  induction l as [|n l IH]; intros s Hs Hl; cbn [fold_outcome]; [exists s; split; [done|]; split; [set_solver|done]|].
  apply Forall_cons in Hl as [[Hn Hlt] Hl]. destruct (setInArray_abs n s Hn Hs Hlt) as (s1 & -> & Hs1 & Ha1 & Hl1). cbn [mbind outcome_bind].
  destruct (IH s1 Hs1) as (s' & H & Ha & Hl'); [by rewrite Hl1|]. exists s'. split; [done|].
  rewrite Ha, Ha1, Hl', Hl1. split; [set_solver|done].
Qed.

Definition range_cpus (cpus : list cpu_info) (range : CpuRange) : list cpu_info :=
  take (Z.to_nat (cpu_count range)) (drop (Z.to_nat (starting_cpu range)) cpus).

Lemma range_numbers cpus : forall m start acc, 0 <= start -> start + Z.of_nat m <= len cpus ->
  fold_outcome (fun l i => c ← at_ cpus i; Ret (l ++ [cpu_number c])) (seqZ start (Z.of_nat m)) acc
  = Ret (acc ++ (cpu_number <$> take m (drop (Z.to_nat start) cpus))).
Proof.
  induction m as [|m IH]; intros start acc H1 H2; [by rewrite app_nil_r|].
  rewrite seqZ_cons by lia. cbn [fold_outcome]. destruct (at_ret cpus start) as (c & -> & Hc); [lia|]. cbn [mbind outcome_bind].
  replace (Z.pred (Z.of_nat (S m))) with (Z.of_nat m) by lia. rewrite IH by lia.
  rewrite (drop_S cpus c (Z.to_nat start)) by done. replace (Z.to_nat (Z.succ start)) with (S (Z.to_nat start)) by lia.
  by rewrite <- app_assoc.
Qed.

(** A thread that is pinned to one processor is given the mask with this bit and no
    other; one that is pinned to a range is given the processor numbers of the
    range. The masks have as many words as the largest number needs, and nothing is
    written outside them. *)
Theorem affinity_masks (n : Z) (cpus : list cpu_info) (range : CpuRange) :
  cpu_ok n -> Forall (fun c => cpu_ok (cpu_number c)) cpus ->
  0 <= starting_cpu range -> 0 <= cpu_count range -> starting_cpu range + cpu_count range <= len cpus ->
  pin_thread_to_logical_processor (-1) = Ret None /\
  (exists s, pin_thread_to_logical_processor n = Ret (Some s) /\ abs s = {[n]} /\ len (array s) = n / 64 + 1) /\
  exists s, pin_to_logical_processors cpus range = Ret s /\
    abs s = list_to_set (cpu_number <$> range_cpus cpus range) /\
    len (array s) = foldl Z.max 0 (cpu_number <$> range_cpus cpus range) / 64 + 1.
Proof.
  intros Hn Hc H1 H2 H3. split; [done|]. split.
  - unfold pin_thread_to_logical_processor. rewrite (proj2 (Z.eqb_neq n (-1))) by (unfold cpu_ok in Hn; lia).
    destruct (zero_words_ok n Hn) as (Hz & Ha & Hl).
    destruct (setInArray_abs n (zero_words n) Hn Hz ltac:(lia)) as (s & -> & _ & Ha' & Hl'). exists s.
    split; [done|]. rewrite Ha', Ha, Hl', Hl. split; [set_solver|done].
  - unfold pin_to_logical_processors. rewrite <- (Z2Nat.id (cpu_count range)) by done. rewrite range_numbers by lia.
    cbn [mbind outcome_bind]. rewrite app_nil_l. fold (range_cpus cpus range). set (numbers := cpu_number <$> range_cpus cpus range).
    assert (Forall cpu_ok numbers) as Hok by (apply Forall_fmap; unfold range_cpus; by apply Forall_take, Forall_drop).
    assert (cpu_ok (foldl Z.max 0 numbers)) as Hm by (apply foldl_max_cpu_ok; [unfold cpu_ok; lia|done]).
    destruct (zero_words_ok _ Hm) as (Hz & Ha & Hl).
    destruct (set_all_abs numbers (zero_words (foldl Z.max 0 numbers)) Hz) as (s & -> & Ha' & Hl').
    + destruct (foldl_max_le numbers 0) as [_ Hle]. apply Forall_forall. intros x Hx.
      rewrite Forall_forall in Hok, Hle. split; [by apply Hok|]. rewrite Hl.
      pose proof (Z.div_le_mono x _ 64 ltac:(lia) (Hle x Hx)). lia.
    + exists s. split; [done|]. rewrite Ha', Ha, Hl', Hl. split; [set_solver|done].
Qed.

Lemma affinity_masks_witness :
  (exists s, pin_thread_to_logical_processor 70 = Ret (Some s) /\ abs s = {[70]} /\ len (array s) = 2) /\
  exists s, pin_to_logical_processors mce_cpus {| starting_cpu := 0; cpu_count := 2 |} = Ret s /\ abs s = {[0; 2]}.
Proof.
  destruct (affinity_masks 70 mce_cpus {| starting_cpu := 0; cpu_count := 2 |}) as (_ & H1 & s & H2 & H3 & _).
  - unfold cpu_ok. lia.
  - repeat (constructor; [unfold cpu_ok; simpl; lia|]). constructor.
  - simpl. lia.
  - simpl. lia.
  - unfold len. simpl. lia.
  - split; [exact H1|]. exists s. split; [exact H2|]. rewrite H3. set_solver.
Defined.

(** * Examples: inputs that are read wrongly *)

(** A negative temperature loses its sign. *)
Example negative_temperature : get_last_int_from (L "-5000") = 5000.
Proof. done. Qed.

(** A thermal zone whose name has no number: the index is that of an invalid
    temperature. *)
Example zone_without_number :
  discover_socket_temperature_files (fun _ => L "x86_pkg_temp") [L "/sys/class/thermal/thermal_zone"] = Ub.
Proof. done. Qed.

(** When a processor goes offline between two readings, the columns of the old
    header are kept and those of the new one follow: the counts are attributed to
    the old columns. *)
Example stale_header :
  get_interrupt_counts MCE (Some [L "  CPU0 CPU1 CPU2"; L "MCE: 1 2 3"]) {| header_line := []; cached_result := [] |}
    = Ret ([1; 2; 3], {| header_line := L "  CPU0 CPU1 CPU2"; cached_result := [0; 1; 2] |}) /\
  get_interrupt_counts MCE (Some [L "  CPU0 CPU2"; L "MCE: 1 3"]) {| header_line := L "  CPU0 CPU1 CPU2"; cached_result := [0; 1; 2] |}
    = Ret ([1; 3; 0], {| header_line := L "  CPU0 CPU2"; cached_result := [0; 1; 2; 0; 2] |}).
Proof. done. Qed.
