(* ===== verification/ContextDump.v ===== *)
(** The dump of a thread's registers after a crash (sandstone_context_dump.cpp) and
    the size of the context that is transferred (sandstone_child_debug_common.h).

    An XSAVE area is its bytes; reading past them is undefined. Leaf 0xd of the
    cpuid instruction, the symbol of an address and the text of a long double are
    parameters. *)

From S2P Require Import Prelude CStdlib Bytes Logging Report.

(** * The XSAVE area *)

Definition FXSAVE_SIZE : Z := 0x200.

(** enum XSaveBits, generated from simd.conf. *)
Definition XSave_X87 : Z := 0x0001.
Definition XSave_SseState : Z := 0x0002.
Definition XSave_Ymm_Hi128 : Z := 0x0004.
Definition XSave_OpMask : Z := 0x0020.
Definition XSave_Zmm_Hi256 : Z := 0x0040.
Definition XSave_Hi16_Zmm : Z := 0x0080.
Definition XSave_Xtilecfg : Z := 0x20000.
Definition XSave_Xtiledata : Z := 0x40000.
Definition XSave_ApxState : Z := 0x80000.
Definition XSave_AvxState : Z := Z.lor XSave_SseState XSave_Ymm_Hi128.
Definition XSave_Avx512State : Z := Z.lor (Z.lor (Z.lor XSave_AvxState XSave_OpMask) XSave_Zmm_Hi256) XSave_Hi16_Zmm.
Definition XSave_AmxState : Z := Z.lor XSave_Xtilecfg XSave_Xtiledata.

Definition has (mask bits : Z) : bool := negb (Z.land mask bits =? 0).

(** * Names *)

Definition eflags : list str := L <$>
  ["CF"; ""; "PF"; ""; "AF"; ""; "ZF"; "SF"; "TF"; "IF"; "DF"; "OF"; ""; ""; "NT"; ""; "RF"; "VM"; "AC"; "VIF"; "VIP"]%string.
Definition fsw : list str := L <$>
  ["IE"; "DE"; "ZE"; "OE"; "UE"; "PE"; "SF"; "ES"; "C0"; "C1"; "C2"; ""; ""; ""; "C3"]%string.
Definition mxcsr : list str := L <$>
  ["IE"; "DE"; "ZE"; "OE"; "UE"; "PE"; "DAZ"; "IM"; "DM"; "ZM"; "OM"; "UM"; "PM"; ""; ""; "FTZ"]%string.
Definition rounding_modes : list str := L <$> ["nearest"; "down"; "up"; "truncate"]%string.

(** "%-5s" *)
Definition pad_right (width : nat) (s : str) : str := s ++ replicate (width - length s) " "%char.

Definition print_flag_description (value : Z) (names : list str) : str :=
  concat (imap (fun i name => if Z.testbit value (Z.of_nat i) then match name with [] => [] | _ => name ++ L " " end else []) names).

(** The value is an int64_t. *)
Definition print_gpr (name : str) (value : Z) : str :=
  L " " ++ pad_right 5 name ++ L " = 0x" ++ fmt_0x 16 (u64 value)
    ++ (if (value <=? 4096) && (-4096 <=? value) then L " (" ++ to_string value ++ L ")" else []) ++ [newline].

Definition print_eflags (value : Z) : str :=
  L " flags = 0x" ++ fmt_0x 8 value ++ L " [ " ++ print_flag_description value eflags ++ L "]" ++ [newline].

(** dladdr(): the symbol at or before an address, and the distance from it. *)
Definition print_rip (dladdr : Z -> option (str * Z)) (rip : Z) : str :=
  L " " ++ pad_right 5 (L "rip") ++ L " = 0x" ++ fmt_0x 16 rip
    ++ match dladdr rip with Some (name, off) => L " <" ++ name ++ L "+" ++ fmt_alt_x off ++ L ">" | None => [] end ++ [newline].

(** The registers of mcontext_t on Linux, and their index in gregs. *)
Definition registers : list (str * Z) :=
  [(L "rax", 13); (L "rbx", 11); (L "rcx", 14); (L "rdx", 12); (L "rsi", 9); (L "rdi", 8); (L "rbp", 10); (L "rsp", 15);
   (L "r8", 0); (L "r9", 1); (L "r10", 2); (L "r11", 3); (L "r12", 4); (L "r13", 5); (L "r14", 6); (L "r15", 7)].
Definition REG_RIP : Z := 16.
Definition REG_EFL : Z := 17.

Definition dump_gprs (dladdr : Z -> option (str * Z)) (gregs : list Z) : outcome str :=
  f ← fold_outcome (fun f (reg : str * Z) => v ← at_ gregs reg.2; Ret (f ++ print_gpr reg.1 v)) registers [];
  rip ← at_ gregs REG_RIP;
  efl ← at_ gregs REG_EFL;
  Ret (f ++ print_rip dladdr (u64 rip) ++ print_eflags (u64 efl)).

(** * Dumping the area *)

Section Dump.
Context (leaf0d : Z -> Z * Z) (fmt_La : Z -> Z -> str) (area : list Z).

(** cpuid leaf 0xd: the size and the offset of a state. *)
Definition xsave_offset (bit : Z) : Z := (leaf0d (Z.log2 bit)).2.

Definition u_at (n : nat) (off : Z) : outcome Z := if off <? 0 then Ub else load n (Z.to_nat off) area.

(** for (int i = 0; i < n; ++i) f += body(i) *)
Fixpoint print_each (n : nat) (i : Z) (body : Z -> outcome str) : outcome str :=
  match n with
  | O => Ret []
  | S n => a ← body i; b ← print_each n (i + 1) body; Ret (a ++ b)
  end.

(** The digits of "r16", counted up. *)
Definition next_regname (c : ascii * ascii) : ascii * ascii :=
  if char_eqb c.2 "9"%char then (char_of (code c.1 + 1), "0"%char) else (c.1, char_of (code c.2 + 1)).

Fixpoint egprs (n : nat) (off : Z) (c : ascii * ascii) : outcome str :=
  match n with
  | O => Ret []
  | S n =>
      v ← u_at 8 off;
      rest ← egprs n (off + 8) (next_regname c);
      Ret (print_gpr ("r"%char :: c.1 :: [c.2]) (wrap_s 64 v) ++ rest)
  end.

Definition print_egprs : outcome str :=
  let offset := i32 (xsave_offset XSave_ApxState) in
  if u64 (offset + 16 * 8) <=? FXSAVE_SIZE then Ret [] else egprs 16 offset ("1"%char, "6"%char).

Definition print_x87mmx_registers : outcome str :=
  fcw ← u_at 2 0;
  fsw_value ← u_at 2 2;
  ftw ← u_at 2 4;
  let fptop := Z.land (Z.shiftr fsw_value 11) 7 in
  let head := L " fcw   = " ++ fmt_alt_x fcw ++ [newline] ++ L " fsw   = " ++ fmt_alt_x fsw_value ++ L " [ "
                ++ print_flag_description fsw_value fsw ++ L "top=" ++ to_string fptop ++ L " ]" ++ [newline]
                ++ L " ftw   = " ++ fmt_alt_x ftw ++ [newline] in
  if ftw =? 0 then Ret head
  else
    st ← print_each 8 0 (fun i =>
      low64 ← u_at 8 (32 + 16 * i);
      high16 ← u_at 2 (32 + 16 * i + 8);
      Ret (L " st(" ++ to_string i ++ L ") = " ++ fmt_0x 4 high16 ++ fmt_0x 16 low64 ++ L " (" ++ fmt_La low64 high16 ++ L ")" ++ [newline]));
    Ret (head ++ st).

Definition print_xmm_register (off : Z) : outcome str :=
  low ← u_at 8 off;
  high ← u_at 8 (off + 8);
  Ret (fmt_0x 16 high ++ L ":" ++ fmt_0x 16 low ++ L " ").

(** The offset of a state, if the mask has it and it is not in the legacy area. *)
Definition state_at (mask bit : Z) : option Z :=
  if has mask bit then
    let offset := i32 (xsave_offset bit) in if FXSAVE_SIZE <? offset then Some offset else None
  else None.

Definition print_opt (base : option Z) (off : Z) : outcome str :=
  match base with Some base => print_xmm_register (base + off) | None => Ret [] end.

Definition print_avx_registers (mask : Z) : outcome str :=
  csr ← u_at 4 24;
  rc ← of_option (rounding_modes !! Z.to_nat (Z.land csr 0x6000 / 0x2000));
  let head := L " mxcsr = 0x" ++ fmt_0x 8 csr ++ L " [ " ++ print_flag_description csr mxcsr ++ L "RC=" ++ rc ++ L " ]" ++ [newline] in
  let nameprefix := if has mask XSave_Zmm_Hi256 then L "z" else if has mask XSave_Ymm_Hi128 then L "y" else L "x" in
  let ymmhstate := state_at mask XSave_Ymm_Hi128 in
  let zmmhstate := state_at mask XSave_Zmm_Hi256 in
  let hizmmstate := state_at mask XSave_Hi16_Zmm in
  let opmaskstate := state_at mask XSave_OpMask in
  low ← print_each 16 0 (fun i =>
    z1 ← print_opt zmmhstate (32 * i + 16);
    z0 ← print_opt zmmhstate (32 * i);
    y ← print_opt ymmhstate (16 * i);
    x ← print_xmm_register (160 + 16 * i);
    Ret (L " " ++ nameprefix ++ L "mm" ++ pad_right 2 (to_string i) ++ L " = " ++ z1 ++ z0 ++ y ++ x ++ [newline]));
  high ← match hizmmstate with
         | None => Ret []
         | Some base => print_each 16 0 (fun i =>
             z3 ← print_xmm_register (base + 64 * i + 48);
             z2 ← print_xmm_register (base + 64 * i + 32);
             z1 ← print_xmm_register (base + 64 * i + 16);
             z0 ← print_xmm_register (base + 64 * i);
             Ret (L " zmm" ++ pad_right 2 (to_string (i + 16)) ++ L " = " ++ z3 ++ z2 ++ z1 ++ z0 ++ [newline]))
         end;
  k ← match opmaskstate with
      | None => Ret []
      | Some base => print_each 8 0 (fun i =>
          v ← u_at 8 (base + 8 * i);
          Ret (L "    k" ++ to_string i ++ L " = 0x" ++ fmt_0x 16 v ++ [newline]))
      end;
  Ret (head ++ low ++ high ++ k).

(** struct amx_tileconfig at [config]: colsb[i] and rows[i]. *)
Definition colsb (config i : Z) : outcome Z := u_at 2 (config + 16 + 2 * i).
Definition rows (config i : Z) : outcome Z := u_at 1 (config + 48 + i).

Definition print_amx_tiles_palette1 (config : Z) : outcome str :=
  let offset := i32 (xsave_offset XSave_Xtiledata) in
  if offset + 8192 <=? FXSAVE_SIZE then Ret []
  else print_each 8 0 (fun reg =>
    nrows ← rows config reg;
    let name := L " tmm" ++ pad_right 2 (to_string reg) ++ L " =" in
    if nrows =? 0 then Ret (name ++ L " <0 rows>" ++ [newline])
    else
      body ← print_each (Z.to_nat nrows) 0 (fun row =>
        cols ← colsb config reg;
        data ← print_each (Z.to_nat cols) 0 (fun i => b ← u_at 1 (offset + 1024 * reg + 64 * row + i); Ret (L " " ++ fmt_0x 2 b));
        Ret (L " " ++ to_string row ++ L ": {" ++ data ++ L " }" ++ [newline]));
      Ret (name ++ body)).

Definition print_amx_state (mask : Z) : outcome str :=
  let offset := i32 (xsave_offset XSave_Xtilecfg) in
  if u64 (offset + 64) <=? FXSAVE_SIZE then Ret []
  else
    palette ← u_at 1 offset;
    start_row ← u_at 1 (offset + 1);
    tiles ← print_each 16 0 (fun i =>
      c ← colsb offset i;
      r ← rows offset i;
      Ret (L "            tile" ++ pad_right 2 (to_string i) ++ L " { colsb: " ++ to_string c ++ L ", rows: " ++ to_string r ++ L " }" ++ [newline]));
    let head := L " xtilecfg = palette: " ++ to_string palette ++ L ", start_row: " ++ to_string start_row ++ [newline] ++ tiles in
    if has mask XSave_Xtiledata && (palette =? 1) then data ← print_amx_tiles_palette1 offset; Ret (head ++ data) else Ret head.

(** dump_xsave() for a mask of 64 bits; [xcr0] is what xgetbv gives on a processor
    with AVX. *)
Definition dump_xsave (xcr0 : option Z) (xsave_dump_mask : Z) : outcome str :=
  let print mask :=
    a ← (if has mask XSave_ApxState then print_egprs else Ret []);
    b ← (if has mask XSave_X87 then print_x87mmx_registers else Ret []);
    c ← (if has mask XSave_Avx512State then print_avx_registers mask else Ret []);
    d ← (if has mask XSave_AmxState then print_amx_state mask else Ret []);
    Ret (a ++ b ++ c ++ d) in
  if len area <? FXSAVE_SIZE then Ret []
  else if FXSAVE_SIZE <? len area then
    if len area <? FXSAVE_SIZE + 64 then Ret []
    else
      xsave_bv ← u_at 8 FXSAVE_SIZE;
      let xgetbv0 := default (Z.lor XSave_X87 XSave_SseState) xcr0 in
      if negb (Z.land xsave_bv (u64 (Z.lnot xgetbv0)) =? 0) then Ret []
      else print (Z.land xsave_dump_mask xsave_bv)
  else print (Z.land xsave_dump_mask (Z.lor XSave_X87 XSave_SseState)).
End Dump.

(** * The size of a context *)

(** The loop over the bits of the vector, from bit [bit]; [leaf0d] gives the sizes
    and offsets. *)
Fixpoint highest_end (n : nat) (leaf0d : Z -> Z * Z) (bit xsave_bv xsave_size : Z) : Z :=
  match n with
  | O => xsave_size
  | S n =>
      if xsave_bv =? 0 then xsave_size
      else if negb (Z.testbit xsave_bv bit) then highest_end n leaf0d (bit + 1) xsave_bv xsave_size
      else
        let '(size, offset) := leaf0d bit in
        highest_end n leaf0d (bit + 1) (Z.ldiff xsave_bv (Z.shiftl 1 bit)) (Z.max xsave_size (i32 size + i32 offset))
  end.

(** [leaf]: subleaf 0, if the processor has it: the supported states and the size
    for those that are enabled. *)
Definition xsave_size_for_bitvector (leaf : option (Z * Z)) (leaf0d : Z -> Z * Z) (xsave_bv : Z) : Z :=
  match leaf with
  | None => FXSAVE_SIZE
  | Some (cpuid_bv, enabled_size) =>
      if negb (Z.ldiff cpuid_bv xsave_bv =? 0)
      then highest_end 62 leaf0d 2 (Z.ldiff xsave_bv (Z.lor XSave_SseState XSave_X87)) FXSAVE_SIZE
      else i32 enabled_size
  end.

Definition get_xsave_size (leaf : option (Z * Z)) (leaf0d : Z -> Z * Z) : Z := xsave_size_for_bitvector leaf leaf0d (2 ^ 64 - 1).

(** * Facts *)

Definition returns {A} (m : outcome A) : Prop := exists v, m = Ret v.

Lemma returns_bind {A B} (m : outcome A) (f : A -> outcome B) : returns m -> (forall v, m = Ret v -> returns (f v)) -> returns (m ≫= f).
Proof. intros [v ->] H. by apply H. Qed.
Lemma returns_ret {A} (v : A) : returns (Ret v).
Proof. by exists v. Qed.
Create HintDb returns_db.
#[export] Hint Resolve returns_ret : returns_db.

(** Goes through a function that only reads, prints and returns. *)
Ltac step_returns :=
  repeat first [apply returns_ret | apply returns_bind; [|intros ? ?] | progress auto with returns_db].

Lemma print_each_returns n : forall i body, (forall j, i <= j < i + Z.of_nat n -> returns (body j)) -> returns (print_each n i body).
Proof.
  induction n as [|n IH]; intros i body H; cbn [print_each]; [apply returns_ret|].
  apply returns_bind; [apply H; lia|]. intros a _. apply returns_bind; [apply IH; intros j Hj; apply H; lia|]. intros; apply returns_ret.
Qed.

Lemma has_bit m n : 0 <= n -> has m (2 ^ n) = Z.testbit m n.
Proof.
  intros Hn. unfold has. destruct (Z.testbit m n) eqn:E.
  - destruct (Z.eqb_spec (Z.land m (2 ^ n)) 0) as [H|]; [|done]. assert (Z.testbit (Z.land m (2 ^ n)) n = false) as Hb by (rewrite H; apply Z.bits_0).
    rewrite Z.land_spec, E, Z.pow2_bits_true in Hb by done. done.
  - destruct (Z.eqb_spec (Z.land m (2 ^ n)) 0) as [|H]; [done|]. destruct H. apply Z.bits_inj'. intros i Hi. rewrite Z.land_spec, Z.bits_0.
    destruct (Z.eq_dec i n) as [->|]; [by rewrite E|]. rewrite Z.pow2_bits_false by lia. by rewrite andb_false_r.
Qed.

(** The states that are printed from outside of the legacy area: number and bytes
    that are read. *)
Definition printed_states : list (Z * Z) := [(2, 256); (5, 64); (6, 512); (7, 1024); (17, 64); (18, 8192); (19, 128)].

Ltac printed := apply (bool_decide_unpack _); reflexivity.

Section DumpFacts.
Context (leaf0d : Z -> Z * Z) (fmt_La : Z -> Z -> str) (area : list Z).
Context (Hlegacy : FXSAVE_SIZE <= len area).

Definition state_in (n size : Z) : Prop := 0 <= (leaf0d n).2 /\ (leaf0d n).2 + size <= len area /\ (leaf0d n).2 < 2 ^ 31.

Lemma u_at_returns n off : 0 <= off -> off + Z.of_nat n <= len area -> returns (u_at area n off).
Proof using Type.
  intros H1 H2. unfold u_at. rewrite (proj2 (Z.ltb_ge off 0)) by done. unfold len in H2. unfold load, read_at.
  rewrite (proj2 (Nat.leb_le _ _)) by lia. eexists. reflexivity.
Qed.

Lemma xmm_returns off : 0 <= off -> off + 16 <= len area -> returns (print_xmm_register area off).
Proof using Type. intros. unfold print_xmm_register. step_returns; apply u_at_returns; lia. Qed.

Lemma offset_i32 n size : state_in n size -> i32 (xsave_offset leaf0d (2 ^ n)) = (leaf0d n).2 \/ n < 0.
Proof using Type.
  intros (H1 & H2 & H3). destruct (Z.lt_ge_cases n 0); [by right|]. left. unfold xsave_offset. rewrite Z.log2_pow2 by done.
  apply wrap_s_small; [lia|]. unfold in_s. lia.
Qed.

Lemma egprs_returns n : forall off c, 0 <= off -> off + 8 * Z.of_nat n <= len area -> returns (egprs area n off c).
Proof using Type.
  induction n as [|n IH]; intros off c H1 H2; cbn [egprs]; [apply returns_ret|].
  apply returns_bind; [apply u_at_returns; lia|]. intros v _. apply returns_bind; [apply IH; lia|]. intros; apply returns_ret.
Qed.

Lemma x87_returns : returns (print_x87mmx_registers fmt_La area).
Proof using All.
  unfold print_x87mmx_registers, FXSAVE_SIZE in *. apply returns_bind; [apply u_at_returns; lia|]. intros fcw _.
  apply returns_bind; [apply u_at_returns; lia|]. intros fs _. apply returns_bind; [apply u_at_returns; lia|]. intros ftw _. cbn zeta.
  case_match; [apply returns_ret|]. apply returns_bind; [|intros; apply returns_ret]. apply print_each_returns. intros j Hj.
  step_returns; apply u_at_returns; lia.
Qed.

Lemma rounding_returns csr : returns (of_option (rounding_modes !! Z.to_nat (Z.land csr 0x6000 / 0x2000))).
Proof using Type.
  assert (Z.land csr 0x6000 / 0x2000 = (csr / 2 ^ 13) mod 2 ^ 2) as ->.
  { change 0x2000 with (2 ^ 13). rewrite <- !Z.shiftr_div_pow2, <- Z.land_ones by done. change 0x6000 with (Z.shiftl (Z.ones 2) 13).
    rewrite Z.shiftr_land. f_equal. }
  pose proof (Z.mod_pos_bound (csr / 2 ^ 13) (2 ^ 2) ltac:(lia)) as H. set (m := _ mod _) in *.
  assert (m = 0 \/ m = 1 \/ m = 2 \/ m = 3) as [->|[->|[->| ->]]] by lia; eexists; reflexivity.
Qed.

(** Where the states of the mask are. *)
Definition states_in (mask : Z) : Prop := forall n size, (n, size) ∈ printed_states -> Z.testbit mask n = true -> state_in n size.

Lemma state_at_in mask n size : states_in mask -> (n, size) ∈ printed_states ->
  match state_at leaf0d mask (2 ^ n) with Some base => 0 <= base /\ base + size <= len area | None => True end.
Proof using Type.
  intros Hs Hn. assert (0 <= n) by (repeat (apply elem_of_cons in Hn as [[= -> ->]|Hn]; [done|]); by apply not_elem_of_nil in Hn).
  unfold state_at. rewrite has_bit by done. destruct (Z.testbit mask n) eqn:E; [|done]. cbn zeta. specialize (Hs n size Hn E).
  destruct (offset_i32 n size Hs) as [->|]; [|lia]. destruct (FXSAVE_SIZE <? _); [|done]. destruct Hs as (? & ? & _). lia.
Qed.

Lemma print_opt_returns base off : 0 <= off -> match base with Some b => 0 <= b /\ b + off + 16 <= len area | None => True end ->
  returns (print_opt area base off).
Proof using Type. intros Ho H. destruct base; simpl; [apply xmm_returns; lia|apply returns_ret]. Qed.

Lemma avx_returns mask : states_in mask -> returns (print_avx_registers leaf0d area mask).
Proof using All.
  intros Hs. unfold print_avx_registers, FXSAVE_SIZE in *.
  pose proof (state_at_in mask 2 256 Hs ltac:(printed)) as Hy. pose proof (state_at_in mask 6 512 Hs ltac:(printed)) as Hz.
  pose proof (state_at_in mask 7 1024 Hs ltac:(printed)) as Hh. pose proof (state_at_in mask 5 64 Hs ltac:(printed)) as Hk.
  change (2 ^ 2) with XSave_Ymm_Hi128 in Hy. change (2 ^ 6) with XSave_Zmm_Hi256 in Hz. change (2 ^ 7) with XSave_Hi16_Zmm in Hh. change (2 ^ 5) with XSave_OpMask in Hk.
  apply returns_bind; [apply u_at_returns; lia|]. intros csr _. apply returns_bind; [apply rounding_returns|]. intros rc _. cbn zeta.
  apply returns_bind.
  { apply print_each_returns. intros j Hj.
    apply returns_bind; [apply print_opt_returns; [lia|destruct (state_at _ _ XSave_Zmm_Hi256); lia]|intros ? _].
    apply returns_bind; [apply print_opt_returns; [lia|destruct (state_at _ _ XSave_Zmm_Hi256); lia]|intros ? _].
    apply returns_bind; [apply print_opt_returns; [lia|destruct (state_at _ _ XSave_Ymm_Hi128); lia]|intros ? _].
    apply returns_bind; [apply xmm_returns; lia|intros; apply returns_ret]. }
  intros low _. apply returns_bind.
  { destruct (state_at _ _ XSave_Hi16_Zmm) as [base|]; [|apply returns_ret]. apply print_each_returns. intros j Hj.
    do 4 (apply returns_bind; [apply xmm_returns; lia|intros ? _]). apply returns_ret. }
  intros high _. apply returns_bind; [|intros; apply returns_ret].
  destruct (state_at _ _ XSave_OpMask) as [base|]; [|apply returns_ret]. apply print_each_returns. intros j Hj. step_returns; apply u_at_returns; lia.
Qed.

(** A tile configuration of at most 16 rows of 64 bytes. *)
Definition tiles_ok : Prop := forall reg r c, 0 <= reg < 8 ->
  rows area (leaf0d 17).2 reg = Ret r -> colsb area (leaf0d 17).2 reg = Ret c -> r <= 16 /\ c <= 64.

Lemma amx_returns mask : states_in mask -> state_in 17 64 -> tiles_ok ->
  returns (print_amx_state leaf0d area mask).
Proof using All.
  intros Hs Hc Htiles. unfold print_amx_state, FXSAVE_SIZE in *.
  change XSave_Xtilecfg with (2 ^ 17). destruct (offset_i32 17 64 Hc) as [->|]; [|lia]. destruct Hc as (C1 & C2 & C3).
  case_match; [apply returns_ret|]. clear H. set (config := (leaf0d 17).2) in *.
  apply returns_bind; [apply u_at_returns; lia|]. intros palette _. apply returns_bind; [apply u_at_returns; lia|]. intros start _.
  apply returns_bind; [apply print_each_returns; intros j Hj; unfold colsb, rows; step_returns; apply u_at_returns; lia|]. intros tiles _. cbn zeta.
  change XSave_Xtiledata with (2 ^ 18). rewrite has_bit by lia. destruct (Z.testbit mask 18) eqn:E18; cbn [andb]; [|apply returns_ret].
  case_match; [|apply returns_ret]. apply returns_bind; [|intros; apply returns_ret].
  pose proof (Hs 18 8192 ltac:(printed) E18) as Hd. unfold print_amx_tiles_palette1. change XSave_Xtiledata with (2 ^ 18).
  destruct (offset_i32 18 8192 Hd) as [->|]; [|lia]. destruct Hd as (D1 & D2 & D3). case_match; [apply returns_ret|].
  apply print_each_returns. intros reg Hreg.
  destruct (u_at_returns 1 (config + 48 + reg)) as [r Hr]; [lia|lia|]. destruct (u_at_returns 2 (config + 16 + 2 * reg)) as [c Hcol]; [lia|lia|].
  destruct (Htiles reg r c ltac:(lia) Hr Hcol) as [Hr16 Hc64]. unfold rows, colsb. rewrite Hr. cbn [mbind outcome_bind]. cbn zeta.
  case_match; [apply returns_ret|]. apply returns_bind; [|intros; apply returns_ret]. apply print_each_returns. intros row Hrow.
  rewrite Hcol. cbn [mbind outcome_bind]. apply returns_bind; [|intros; apply returns_ret]. apply print_each_returns. intros i Hi.
  apply returns_bind; [apply u_at_returns; lia|intros; apply returns_ret].
Qed.
End DumpFacts.

Lemma dump_returns leaf0d fmt_La area xcr0 mask :
  (forall bv, FXSAVE_SIZE + 64 <= len area -> u_at area 8 FXSAVE_SIZE = Ret bv -> Z.land bv (u64 (Z.lnot (default 3 xcr0))) = 0 ->
     states_in leaf0d area (Z.land mask bv) /\ (has (Z.land mask bv) XSave_AmxState = true -> state_in leaf0d area 17 64 /\ tiles_ok leaf0d area)) ->
  returns (dump_xsave leaf0d fmt_La area xcr0 mask).
Proof.
  intros H. unfold dump_xsave. destruct (Z.ltb_spec (len area) FXSAVE_SIZE) as [Hs|Hs]; [apply returns_ret|].
  assert (forall m, states_in leaf0d area m -> (has m XSave_ApxState = true -> Z.testbit m 19 = true) ->
    (has m XSave_AmxState = true -> state_in leaf0d area 17 64 /\ tiles_ok leaf0d area) ->
    returns (a ← (if has m XSave_ApxState then print_egprs leaf0d area else Ret []);
      b ← (if has m XSave_X87 then print_x87mmx_registers fmt_La area else Ret []);
      c ← (if has m XSave_Avx512State then print_avx_registers leaf0d area m else Ret []);
      d ← (if has m XSave_AmxState then print_amx_state leaf0d area m else Ret []); Ret (a ++ b ++ c ++ d))) as Hprint.
  { intros m Hm Hapx Hamx. apply returns_bind.
    { destruct (has m XSave_ApxState); [|apply returns_ret]. pose proof (Hm 19 128 ltac:(printed) (Hapx eq_refl)) as Ha.
      unfold print_egprs. change XSave_ApxState with (2 ^ 19). destruct (offset_i32 leaf0d area 19 128 Ha) as [->|]; [|lia].
      destruct Ha as (A1 & A2 & A3). case_match; [apply returns_ret|]. apply egprs_returns; lia. }
    intros a _. apply returns_bind; [destruct (has m XSave_X87); [by apply x87_returns|apply returns_ret]|]. intros b _.
    apply returns_bind; [destruct (has m XSave_Avx512State); [by apply avx_returns|apply returns_ret]|]. intros c _.
    apply returns_bind; [|intros; apply returns_ret]. destruct (has m XSave_AmxState); [|apply returns_ret].
    destruct (Hamx eq_refl). by apply amx_returns. }
  destruct (Z.ltb_spec FXSAVE_SIZE (len area)) as [Hl|Hl].
  - destruct (Z.ltb_spec (len area) (FXSAVE_SIZE + 64)); [apply returns_ret|].
    destruct (u_at_returns area 8 FXSAVE_SIZE) as [bv Hbv]; [done|lia|]. rewrite Hbv. cbn [mbind outcome_bind]. cbn zeta.
    change (Z.lor XSave_X87 XSave_SseState) with 3. destruct (Z.eqb_spec (Z.land bv (u64 (Z.lnot (default 3 xcr0)))) 0) as [E|E]; cbn [negb]; [|apply returns_ret].
    destruct (H bv ltac:(lia) Hbv E) as [H1 H2]. apply Hprint; [done| |done]. intros Hh. change XSave_ApxState with (2 ^ 19) in Hh. by rewrite has_bit in Hh by lia.
  - set (m := Z.land mask (Z.lor XSave_X87 XSave_SseState)).
    assert (forall n, 2 <= n -> Z.testbit m n = false) as Hm.
    { intros n Hn. unfold m. change (Z.lor XSave_X87 XSave_SseState) with (Z.ones 2). rewrite Z.land_spec, Z.testbit_ones_nonneg, (proj2 (Z.ltb_ge n 2)) by lia.
      apply andb_false_r. }
    assert (has m XSave_AmxState = false) as Ha.
    { unfold has. destruct (Z.eqb_spec (Z.land m XSave_AmxState) 0) as [|Hne]; [done|]. destruct Hne. unfold m.
      change (Z.lor XSave_X87 XSave_SseState) with 3. change XSave_AmxState with 0x60000. rewrite <- Z.land_assoc. change (Z.land 3 0x60000) with 0. apply Z.land_0_r. }
    apply Hprint.
    + intros n size Hn Hb. rewrite Hm in Hb; [done|]. repeat (apply elem_of_cons in Hn as [[= -> ->]|Hn]; [done|]). by apply not_elem_of_nil in Hn.
    + change XSave_ApxState with (2 ^ 19). by rewrite has_bit by lia.
    + by rewrite Ha.
Qed.

Lemma highest_end_ok leaf0d n : forall bit bv size,
  (forall k, 0 <= (leaf0d k).1 /\ 0 <= (leaf0d k).2 /\ (leaf0d k).1 + (leaf0d k).2 < 2 ^ 31) -> 0 <= bit ->
  size <= highest_end n leaf0d bit bv size /\
  forall k, bit <= k < bit + Z.of_nat n -> Z.testbit bv k = true -> (leaf0d k).1 + (leaf0d k).2 <= highest_end n leaf0d bit bv size.
Proof.
  induction n as [|n IH]; intros bit bv size Hw Hbit; cbn [highest_end]; [split; [lia|lia]|].
  destruct (Z.eqb_spec bv 0) as [->|Hbv]; [split; [lia|]; intros k _; by rewrite Z.bits_0|].
  destruct (Z.testbit bv bit) eqn:Eb; cbn [negb].
  - destruct (leaf0d bit) as [sz off] eqn:El. destruct (IH (bit + 1) (Z.ldiff bv (Z.shiftl 1 bit)) (Z.max size (i32 sz + i32 off)) Hw ltac:(lia)) as [H1 H2].
    specialize (Hw bit) as Hwb. rewrite El in Hwb. simpl in Hwb. rewrite !wrap_s_small in * by (lia || (unfold in_s; lia)).
    split; [lia|]. intros k Hk Hkb. destruct (Z.eq_dec k bit) as [->|Hne]; [rewrite El; simpl; lia|]. apply H2; [lia|].
    rewrite Z.ldiff_spec, Hkb, Z.shiftl_spec by lia. simpl. change 1 with (2 ^ 0). rewrite Z.pow2_bits_false by lia. done.
  - destruct (IH (bit + 1) bv size Hw ltac:(lia)) as [H1 H2]. split; [done|]. intros k Hk Hkb.
    destruct (Z.eq_dec k bit) as [->|]; [congruence|]. apply H2; [lia|done].
Qed.

(** What the processor guarantees: sizes and offsets of states are those of the
    architecture, the size for the enabled states holds each of them, and the tile
    configuration comes before the tiles. *)
Definition cpuid_ok (cpuid_bv enabled_size xcr0 : Z) (leaf0d : Z -> Z * Z) : Prop :=
  (forall k, 0 <= (leaf0d k).1 /\ 0 <= (leaf0d k).2 /\ (leaf0d k).1 + (leaf0d k).2 < 2 ^ 31) /\ 0 <= enabled_size < 2 ^ 31 /\
  (forall k, 2 <= k < 64 -> Z.testbit xcr0 k = true -> Z.testbit cpuid_bv k = true /\ (leaf0d k).1 + (leaf0d k).2 <= enabled_size) /\
  (forall n size, (n, size) ∈ printed_states -> Z.testbit xcr0 n = true -> size <= (leaf0d n).1) /\
  (Z.testbit xcr0 18 = true -> (leaf0d 17).2 + 64 <= (leaf0d 18).2).

Lemma ldiff_bit a b k : 0 <= k -> Z.ldiff a b = 0 -> Z.testbit a k = true -> Z.testbit b k = true.
Proof.
  intros Hk H Ha. assert (Z.testbit (Z.ldiff a b) k = false) as Hb by (rewrite H; apply Z.bits_0). rewrite Z.ldiff_spec, Ha in Hb by done.
  by destruct (Z.testbit b k).
Qed.

Lemma has_amx m : has m XSave_AmxState = true -> Z.testbit m 17 = true \/ Z.testbit m 18 = true.
Proof.
  unfold has. change XSave_AmxState with (Z.lor (2 ^ 17) (2 ^ 18)). rewrite Z.land_lor_distr_r. intros H.
  destruct (Z.testbit m 17) eqn:E1; [by left|]. destruct (Z.testbit m 18) eqn:E2; [by right|].
  rewrite <- has_bit in E1, E2 by lia. unfold has in E1, E2. apply negb_false_iff in E1, E2. apply Z.eqb_eq in E1, E2. by rewrite E1, E2 in H.
Qed.

(** A state that was transferred is in the area. *)
Lemma transferred_state cpuid_bv enabled_size xcr0 leaf0d bv n size (area : list Z) :
  cpuid_ok cpuid_bv enabled_size xcr0 leaf0d ->
  len area = xsave_size_for_bitvector (Some (cpuid_bv, enabled_size)) leaf0d bv ->
  (n, size) ∈ printed_states -> Z.testbit xcr0 n = true -> Z.testbit bv n = true -> state_in leaf0d area n size.
Proof.
  intros (Hw & He & Hx & Hs & _) Hl Hn Hxn Hbn. assert (2 <= n < 64) as Hr by (repeat (apply elem_of_cons in Hn as [[= -> ->]|Hn]; [done|]); by apply not_elem_of_nil in Hn).
  pose proof (Hw n) as (W1 & W2 & W3). pose proof (Hs n size Hn Hxn). destruct (Hx n Hr Hxn) as [_ Hen].
  split; [done|]. split; [|lia]. rewrite Hl. unfold xsave_size_for_bitvector. destruct (negb _).
  - destruct (highest_end_ok leaf0d 62 2 (Z.ldiff bv (Z.lor XSave_SseState XSave_X87)) FXSAVE_SIZE) as [_ Hh]; [exact Hw|done|].
    enough ((leaf0d n).1 + (leaf0d n).2 <= highest_end 62 leaf0d 2 (Z.ldiff bv (Z.lor XSave_SseState XSave_X87)) FXSAVE_SIZE) by lia.
    apply Hh; [lia|]. change (Z.lor XSave_SseState XSave_X87) with (Z.ones 2). rewrite Z.ldiff_spec, Hbn, Z.testbit_ones_nonneg, (proj2 (Z.ltb_ge n 2)) by lia. done.
  - rewrite wrap_s_small by (lia || (unfold in_s; lia)). lia.
Qed.

(** The context of a crashed thread is dumped without reading past it: when the
    area has the size that was computed for a bit vector and the states saved in it
    are among those of the vector, on a processor that follows the architecture,
    every mask gives a dump. *)
Theorem transferred_context_dumped cpuid_bv enabled_size xcr0 leaf0d fmt_La bv mask area :
  cpuid_ok cpuid_bv enabled_size xcr0 leaf0d ->
  len area = xsave_size_for_bitvector (Some (cpuid_bv, enabled_size)) leaf0d bv ->
  (forall header, u_at area 8 FXSAVE_SIZE = Ret header -> Z.ldiff header bv = 0) -> tiles_ok leaf0d area ->
  exists dump, dump_xsave leaf0d fmt_La area (Some xcr0) mask = Ret dump.
Proof.
  intros Hok Hl Hheader Htiles. apply dump_returns. intros header Hsize Hh Hinvalid. change (default 3 (Some xcr0)) with xcr0 in Hinvalid. specialize (Hheader header Hh).
  assert (forall n, 0 <= n < 64 -> Z.testbit (Z.land mask header) n = true -> Z.testbit xcr0 n = true /\ Z.testbit bv n = true) as Hbits.
  { intros n Hn Hb. rewrite Z.land_spec in Hb. apply andb_true_iff in Hb as [_ Hb]. split; [|by eapply ldiff_bit; [|exact Hheader|]; lia || done].
    assert (Z.testbit (Z.land header (u64 (Z.lnot xcr0))) n = false) as Hz by (rewrite Hinvalid; apply Z.bits_0). unfold wrap_u in Hz.
    rewrite Z.land_spec, Hb, Z.testbit_mod_pow2, (proj2 (Z.ltb_lt n 64)), Z.lnot_spec in Hz by lia. simpl in Hz. by destruct (Z.testbit xcr0 n). }
  split.
  - intros n size Hn Hb. assert (0 <= n < 64) as Hr by (repeat (apply elem_of_cons in Hn as [[= -> ->]|Hn]; [done|]); by apply not_elem_of_nil in Hn).
    destruct (Hbits n Hr Hb). by eapply transferred_state.
  - intros Ha. split; [|done]. apply has_amx in Ha as [Ha|Ha].
    + destruct (Hbits 17 ltac:(lia) Ha). eapply transferred_state; [done|done|printed|done|done].
    + destruct (Hbits 18 ltac:(lia) Ha) as [Hx Hb].
      destruct (transferred_state cpuid_bv enabled_size xcr0 leaf0d bv 18 8192 area Hok Hl ltac:(printed) Hx Hb) as (S1 & S2 & S3).
      destruct Hok as (Hw & _ & _ & _ & Hord). specialize (Hord Hx). destruct (Hw 17) as (? & ? & ?). unfold state_in. lia.
Qed.

(** A processor with AVX: two legacy states and the upper halves of 16 registers. *)
Definition avx_leaf0d (n : Z) : Z * Z := if n =? 2 then (256, 576) else (0, 0).
Definition avx_area : list Z := replicate 512 0 ++ [7] ++ replicate 319 0.

Lemma avx_cpuid_ok : cpuid_ok 0x17 832 7 avx_leaf0d.
Proof.
  split; [intros k; unfold avx_leaf0d; destruct (k =? 2); simpl; lia|]. split; [lia|]. split; [|split].
  - intros k Hk Hb. destruct (Z.eq_dec k 2) as [->|Hne]; [done|]. change 7 with (Z.ones 3) in Hb. rewrite Z.testbit_ones_nonneg in Hb by lia.
    apply Z.ltb_lt in Hb. lia.
  - intros n size Hn. repeat (apply elem_of_cons in Hn as [[= -> ->]|Hn]; [vm_compute; done|]). by apply not_elem_of_nil in Hn.
  - done.
Qed.

Lemma avx_tiles_ok : tiles_ok avx_leaf0d avx_area.
Proof.
  intros reg r c Hreg Hr Hc. unfold rows, colsb in *. change (avx_leaf0d 17).2 with 0 in *.
  assert (reg = 0 \/ reg = 1 \/ reg = 2 \/ reg = 3 \/ reg = 4 \/ reg = 5 \/ reg = 6 \/ reg = 7) as E by lia.
  repeat destruct E as [->|E]; try subst reg; injection Hr as <-; injection Hc as <-; done.
Qed.

Lemma transferred_context_dumped_witness :
  exists dump, dump_xsave avx_leaf0d (fun _ _ => L "0x0p+0") avx_area (Some 7) (2 ^ 32 - 1) = Ret dump.
Proof.
  apply (transferred_context_dumped 0x17 832 7 avx_leaf0d _ 7).
  - apply avx_cpuid_ok.
  - reflexivity.
  - intros header Hh. injection Hh as <-. reflexivity.
  - apply avx_tiles_ok.
Defined.

(** Without the bit vector's size nothing is checked: an area that is too short for
    the states it names is read past its end. *)
Example short_area_overrun : dump_xsave avx_leaf0d (fun _ _ => []) (replicate 512 0 ++ [7] ++ replicate 63 0) (Some 7) (2 ^ 32 - 1) = Ub.
Proof. reflexivity. Qed.
