(* ===== verification/Kvm.v ===== *)
(** Tests in virtual machines (src/framework/sysdeps/linux/kvm.c): the memory of the
    guest with its page tables, descriptors and payload, and the loop that runs it.

    The memory of a guest is a finite map from physical addresses to bytes, zero
    where nothing was written. What the kernel's ioctl() calls return is given. *)

From stdpp Require Import gmap.
From S2P Require Import Prelude CStdlib Bytes Logging Report.

(** * Guest memory *)

Record guest := { mem_size : Z; mem : gmap Z Z }.

Definition byte_at (g : guest) (a : Z) : Z := default 0 (mem g !! a).

(** memcpy() and stores through a pointer into the memory. *)
Fixpoint put_bytes (a : Z) (bs : list Z) (m : gmap Z Z) : gmap Z Z :=
  match bs with [] => m | b :: bs => put_bytes (a + 1) bs (<[a := b]> m) end.

Definition write_bytes (a : Z) (bs : list Z) (g : guest) : outcome guest :=
  if (0 <=? a) && (a + len bs <=? mem_size g) then Ret {| mem_size := mem_size g; mem := put_bytes a bs (mem g) |} else Ub.

Definition write64 (a v : Z) (g : guest) : outcome guest := write_bytes a (le_bytes 8 v) g.
Definition read_bytes (a : Z) (n : nat) (g : guest) : list Z := byte_at g <$> seqZ a (Z.of_nat n).
Definition read64 (a : Z) (g : guest) : Z := le_value (read_bytes a 8 g).

(** memset() to zero from an address to the end. *)
Definition clear_from (a : Z) (g : guest) : guest :=
  {| mem_size := mem_size g; mem := filter (fun p => p.1 < a) (mem g) |}.

(** * Layout *)

Definition PAYLOAD_GUEST_ENTRY : Z := 0x1000.
Definition DEFAULT_RAM_SIZE : Z := 2 * 1024 * 1024.
Definition GUEST_PAGE_BITS : Z := 21.
Definition GUEST_PAGE_SIZE : Z := Z.shiftl 1 GUEST_PAGE_BITS.
Definition GUEST_PAGE_MAX_NUM : Z := 512.
Definition GUEST_PAGE_RESERVED : Z := 2.
Definition GUEST_MEM_PROT64_RESERVED : Z := Z.shiftl GUEST_PAGE_RESERVED GUEST_PAGE_BITS.
Definition BOOT_GDT : Z := GUEST_PAGE_SIZE.
Definition PML4_ADDR : Z := GUEST_PAGE_SIZE + 0x1000.
Definition PDPT_0_ADDR : Z := GUEST_PAGE_SIZE + 0x2000.
Definition PDT_0_ADDR : Z := GUEST_PAGE_SIZE + 0x3000.
Definition PAYLOAD_ADDR_PROT64 : Z := GUEST_PAGE_SIZE + Z.quot GUEST_PAGE_SIZE 2.

(** * Segments *)

Definition GDT_ENTRY (flags base limit : Z) : Z :=
  Z.lor (Z.lor (Z.lor (Z.lor
    (Z.shiftl (Z.land base 0xff000000) (56 - 24))
    (Z.shiftl (Z.land flags 0xf0ff) 40))
    (Z.shiftl (Z.land limit 0xf0000) (48 - 16)))
    (Z.shiftl (Z.land base 0xffffff) 16))
    (Z.land limit 0xffff).

Definition GDT_GET_BASE (x : Z) : Z :=
  Z.lor (Z.lor (Z.shiftr (Z.land x 0xFF00000000000000) 32) (Z.shiftr (Z.land x 0x000000FF00000000) 16))
    (Z.shiftr (Z.land x 0x00000000FFFF0000) 16).
Definition GDT_GET_LIMIT (x : Z) : Z := u32 (Z.lor (Z.shiftr (Z.land x 0x000F000000000000) 32) (Z.land x 0xFFFF)).
Definition GDT_GET_G (x : Z) : Z := u8 (Z.shiftr (Z.land x 0x0080000000000000) 55).
Definition GDT_GET_DB (x : Z) : Z := u8 (Z.shiftr (Z.land x 0x0040000000000000) 54).
Definition GDT_GET_L (x : Z) : Z := u8 (Z.shiftr (Z.land x 0x0020000000000000) 53).
Definition GDT_GET_AVL (x : Z) : Z := u8 (Z.shiftr (Z.land x 0x0010000000000000) 52).
Definition GDT_GET_P (x : Z) : Z := u8 (Z.shiftr (Z.land x 0x0000800000000000) 47).
Definition GDT_GET_DPL (x : Z) : Z := u8 (Z.shiftr (Z.land x 0x0000600000000000) 45).
Definition GDT_GET_S (x : Z) : Z := u8 (Z.shiftr (Z.land x 0x0000100000000000) 44).
Definition GDT_GET_TYPE (x : Z) : Z := u8 (Z.shiftr (Z.land x 0x00000F0000000000) 40).

(** struct kvm_segment, struct kvm_dtable and the fields of struct kvm_sregs that
    are used. *)
Record kvm_segment := {
  seg_base : Z; seg_limit : Z; selector : Z; seg_type : Z; present : Z; dpl : Z; db : Z; seg_s : Z; seg_l : Z; seg_g : Z; avl : Z }.
Record kvm_dtable := { dt_base : Z; dt_limit : Z }.
Record kvm_sregs := {
  cs : kvm_segment; ds : kvm_segment; es : kvm_segment; fs : kvm_segment; gs : kvm_segment; ss : kvm_segment;
  gdt : kvm_dtable; ldt : kvm_dtable; cr0 : Z; cr2 : Z; cr3 : Z; cr4 : Z; efer : Z }.
#[export] Instance eta_kvm_sregs : Eta kvm_sregs := fun r =>
  (Build_kvm_sregs (cs r) (ds r) (es r) (fs r) (gs r) (ss r) (gdt r) (ldt r) (cr0 r) (cr2 r) (cr3 r) (cr4 r) (efer r)).

(** * Setting up a guest in 64-bit mode *)

Definition gdt_to_kvm_segment (gdt_table : list Z) (sel : Z) : outcome kvm_segment :=
  gdt_ent ← at_ gdt_table sel;
  Ret {| seg_base := GDT_GET_BASE gdt_ent; seg_limit := GDT_GET_LIMIT gdt_ent; selector := u16 (sel * 8);
         seg_type := GDT_GET_TYPE gdt_ent; present := GDT_GET_P gdt_ent; dpl := GDT_GET_DPL gdt_ent; db := GDT_GET_DB gdt_ent;
         seg_s := GDT_GET_S gdt_ent; seg_l := GDT_GET_L gdt_ent; seg_g := GDT_GET_G gdt_ent; avl := GDT_GET_AVL gdt_ent |}.

Definition BOOT_GDT_CODE : Z := 1.
Definition BOOT_GDT_DATA : Z := 2.
Definition boot_gdt : list Z := [GDT_ENTRY 0 0 0; GDT_ENTRY 0xA09B 0 0xFFFFF; GDT_ENTRY 0xC093 0 0xFFFFF].

Definition kvm_prot64_setup_segmentation (sregs : kvm_sregs) (g : guest) : outcome (kvm_sregs * guest) :=
  code_seg ← gdt_to_kvm_segment boot_gdt BOOT_GDT_CODE;
  data_seg ← gdt_to_kvm_segment boot_gdt BOOT_GDT_DATA;
  g ← write_bytes BOOT_GDT (concat (le_bytes 8 <$> boot_gdt)) g;
  Ret (sregs <| gdt := {| dt_base := BOOT_GDT; dt_limit := 8 * len boot_gdt - 1 |} |>
             <| cs := code_seg |> <| ds := data_seg |> <| es := data_seg |> <| ss := data_seg |>, g).

Definition X86_CR0_PE : Z := 0x1.
Definition X86_CR0_PG : Z := 0x80000000.
Definition X86_CR4_PAE : Z := 0x20.
Definition X86_CR4_OSFXSR : Z := 0x200.
Definition X86_CR4_OSXMMEXCPT : Z := 0x400.
Definition X86_CR4_OSXSAVE : Z := 0x40000.
Definition EFER_LME : Z := Z.shiftl 1 8.
Definition EFER_LMA : Z := Z.shiftl 1 10.

(** The loop over the page directory: [n] entries from entry [i]. *)
Fixpoint map_pages (n : nat) (i flags : Z) (g : guest) : outcome guest :=
  match n with
  | O => Ret g
  | S n => g ← write64 (PDT_0_ADDR + 8 * i) (Z.lor (i * GUEST_PAGE_SIZE) flags) g; map_pages n (i + 1) flags g
  end.

Definition kvm_prot64_setup_paging (sregs : kvm_sregs) (g : guest) : outcome (kvm_sregs * guest) :=
  let guest_page_num := Z.shiftr (mem_size g) GUEST_PAGE_BITS in
  g ← write64 PML4_ADDR (Z.lor PDPT_0_ADDR 3) g;
  g ← write64 PDPT_0_ADDR (Z.lor PDT_0_ADDR 3) g;
  g ← map_pages (Z.to_nat GUEST_PAGE_RESERVED) 0 0x81 g;
  g ← map_pages (Z.to_nat (guest_page_num - GUEST_PAGE_RESERVED)) GUEST_PAGE_RESERVED 0x83 g;
  Ret (sregs <| cr3 := PML4_ADDR |> <| cr0 := Z.lor (cr0 sregs) X86_CR0_PG |> <| cr4 := Z.lor (cr4 sregs) X86_CR4_PAE |>, g).

(** The registers that kvm_prot64_setup_sregs() passes to KVM_SET_SREGS. *)
Definition kvm_prot64_sregs (sregs : kvm_sregs) : kvm_sregs :=
  sregs <| cr0 := Z.lor (cr0 sregs) X86_CR0_PE |>
        <| cr4 := Z.lor (Z.lor (Z.lor (cr4 sregs) X86_CR4_OSFXSR) X86_CR4_OSXMMEXCPT) X86_CR4_OSXSAVE |>
        <| efer := Z.lor (Z.lor (efer sregs) EFER_LMA) EFER_LME |>.

(** The size of the memory, with the warnings that are logged. *)
Definition kvm_prot64_check_ram_size (config_ram_size : Z) : Z * list str :=
  let ret := config_ram_size in
  let guest_page_num := Z.shiftr ret GUEST_PAGE_BITS in
  if guest_page_num =? 0 then (u64 (Z.shiftl (GUEST_PAGE_RESERVED + 1) GUEST_PAGE_BITS), [])
  else
    let '(guest_page_num, ret, warnings) :=
      if (GUEST_PAGE_MAX_NUM <=? guest_page_num) || (guest_page_num <=? GUEST_PAGE_RESERVED) then
        let guest_page_num := GUEST_PAGE_RESERVED + 1 in
        (guest_page_num, u64 (Z.shiftl guest_page_num GUEST_PAGE_BITS),
         [L "W> Invalid config: 'ram_size' is either too big (>= 1GB) or too small (<= " ++ to_string (GUEST_PAGE_RESERVED * 2) ++ L "MB). "
            ++ [newline] ++ L "Now using default RAM size of " ++ to_string (guest_page_num * 2) ++ L "MB." ++ [newline]])
      else (guest_page_num, ret, []) in
    if negb (Z.land ret (GUEST_PAGE_SIZE - 1) =? 0) then
      let guest_page_num := guest_page_num + 1 in
      (u64 (Z.shiftl guest_page_num GUEST_PAGE_BITS),
       warnings ++ [L "W> Invalid config: 'ram_size' is rounded-up to be a multiple of 2MB for prot64 mode." ++ [newline]
                      ++ L "Now using RAM size of " ++ to_string (guest_page_num * 2) ++ L "MB." ++ [newline]])
    else (ret, warnings).

(** The payload must fit; [None] when it does not. *)
Definition kvm_prot64_setup_payload (payload : list Z) (g : guest) : outcome (option guest) :=
  if mem_size g <? len payload + PAYLOAD_ADDR_PROT64 then Ret None
  else g ← write_bytes PAYLOAD_ADDR_PROT64 payload g; Ret (Some g).

(** * CPUID *)

Inductive kvm_addr_mode_t := KVM_ADDR_MODE_REAL_16BIT | KVM_ADDR_MODE_PROTECTED_64BIT | UnsupportedMode (mode : Z).

Record kvm_cpuid_entry2 := { function : Z; entry_index : Z; eax : Z; ebx : Z; ecx : Z; edx : Z }.
Definition Xsave : Z := Z.shiftl 1 26.
Definition OsXSave : Z := Z.shiftl 1 27.

Definition interesting_leaves : list Z := [0x01; 0x07; 0x0d; 0x1d; 0x1e; 0x24; 0x80000001].

Definition with_osxsave (mode : kvm_addr_mode_t) (e : kvm_cpuid_entry2) : kvm_cpuid_entry2 :=
  match mode with
  | KVM_ADDR_MODE_REAL_16BIT =>
      if (function e =? 0x01) && negb (Z.land (ecx e) Xsave =? 0)
      then {| function := function e; entry_index := entry_index e; eax := eax e; ebx := ebx e; ecx := Z.lor (ecx e) OsXSave; edx := edx e |}
      else e
  | _ => e
  end.

(** The leaves that the guest is given. *)
Definition kvm_generic_setup_cpuid (mode : kvm_addr_mode_t) (entries : list kvm_cpuid_entry2) : list kvm_cpuid_entry2 :=
  with_osxsave mode <$> filter (fun e => function e ∈ interesting_leaves) entries.

(** * Registers *)

Record kvm_regs := {
  rax : Z; rbx : Z; rcx : Z; rdx : Z; rsi : Z; rdi : Z; rsp : Z; rbp : Z;
  r8 : Z; r9 : Z; r10 : Z; r11 : Z; r12 : Z; r13 : Z; r14 : Z; r15 : Z; rip : Z; rflags : Z }.
#[export] Instance eta_kvm_regs : Eta kvm_regs := fun r =>
  Build_kvm_regs (rax r) (rbx r) (rcx r) (rdx r) (rsi r) (rdi r) (rsp r) (rbp r)
    (r8 r) (r9 r) (r10 r) (r11 r) (r12 r) (r13 r) (r14 r) (r15 r) (rip r) (rflags r).

(** kvm_generic_reset_vcpu(): [None] in a mode that is not supported. *)
Definition kvm_generic_reset_vcpu (mode : kvm_addr_mode_t) (regs : kvm_regs) (g : guest) : outcome (option (kvm_regs * guest)) :=
  let regs := regs <| rflags := 0x2 |> <| rdx := 0x600 |> in
  match mode with
  | KVM_ADDR_MODE_REAL_16BIT => Ret (Some (regs <| rip := PAYLOAD_GUEST_ENTRY |>, g))
  | KVM_ADDR_MODE_PROTECTED_64BIT =>
      let rsp_value := u64 (u32 (mem_size g - 0x1000)) in
      let regs := regs <| rip := PAYLOAD_ADDR_PROT64 |> <| rsp := rsp_value |> <| rbp := rsp_value |> in
      _ ← assertion (GUEST_MEM_PROT64_RESERVED <=? mem_size g);
      Ret (Some (regs, clear_from GUEST_MEM_PROT64_RESERVED g))
  | UnsupportedMode _ => Ret None
  end.

(** * Setting up a virtual processor *)

Record kvm_config := { addr_mode : kvm_addr_mode_t; ram_size : Z; payload : list Z }.

(** What the kernel answers while a virtual processor is set up: the value that is
    read, or the errno; [None] for a call that succeeds without one. *)
Record setup_answers := {
  supported_cpuid : Z + list kvm_cpuid_entry2; set_cpuid2 : option Z; get_sregs : Z + kvm_sregs;
  map_ram : bool; set_memory_region : option Z; set_sregs : option Z;
  has_avx : bool; get_xcrs : option Z; set_xcrs : option Z }.

(** The result of kvm_generic_setup_vcpu(): what it returns, whether it set the
    memory in the context and to what, whether memory was mapped, the registers and leaves passed to the
    kernel, and the messages. *)
Record setup_result := {
  code : Z; ram_assigned : bool; ctx_ram : option guest; mapped : bool; given_sregs : option kvm_sregs;
  given_cpuid : option (list kvm_cpuid_entry2); messages : list str }.
#[export] Instance eta_setup_result : Eta setup_result := fun r =>
  Build_setup_result (code r) (ram_assigned r) (ctx_ram r) (mapped r) (given_sregs r) (given_cpuid r) (messages r).

Definition zero_guest (sz : Z) : guest := {| mem_size := sz; mem := ∅ |}.

Definition kvm_real16_setup_sregs (sregs : kvm_sregs) : kvm_sregs :=
  sregs <| cs := {| seg_base := 0; seg_limit := seg_limit (cs sregs); selector := 0; seg_type := seg_type (cs sregs);
                    present := present (cs sregs); dpl := dpl (cs sregs); db := db (cs sregs); seg_s := seg_s (cs sregs);
                    seg_l := seg_l (cs sregs); seg_g := seg_g (cs sregs); avl := avl (cs sregs) |} |>
        <| ss := ds sregs |>.

Definition setup_real16 (c : kvm_config) (a : setup_answers) (sregs : kvm_sregs) (r : setup_result) : outcome setup_result :=
  let ram_sz := u32 (ram_size c) in
  let ram_sz := if ram_sz =? 0 then DEFAULT_RAM_SIZE else ram_sz in
  if negb (map_ram a) then Ret (r <| code := EXIT_FAILURE |>)
  else
    let r := r <| ctx_ram := Some (zero_guest ram_sz) |> <| mapped := true |> in
    match set_memory_region a with
    | Some _ => Ret (r <| code := EXIT_FAILURE |>)
    | None =>
        g ← write_bytes PAYLOAD_GUEST_ENTRY (payload c) (zero_guest ram_sz);
        let r := r <| ctx_ram := Some g |> <| given_sregs := Some (kvm_real16_setup_sregs sregs) |> in
        Ret (r <| code := match set_sregs a with Some _ => EXIT_FAILURE | None => EXIT_SUCCESS end |>)
    end.

(** kvm_prot64_setup_ram() returns NULL, and the mapping is forgotten, when the
    kernel does not take it. *)
Definition setup_prot64 (c : kvm_config) (a : setup_answers) (sregs : kvm_sregs) (r : setup_result) : outcome setup_result :=
  let '(ram_sz, warnings) := kvm_prot64_check_ram_size (ram_size c) in
  let ram_sz := u32 ram_sz in
  let r := r <| messages := messages r ++ warnings |> in
  let warn (r : setup_result) (text : str) := r <| messages := messages r ++ [L "W> " ++ text] |> in
  if negb (map_ram a) then Ret ((warn r (L "kvm_prot64_setup_ram(): mmap failed" ++ [newline])) <| code := EXIT_FAILURE |>)
  else
    let r := r <| mapped := true |> in
    match set_memory_region a with
    | Some _ => Ret ((warn r (L "kvm_prot64_setup_ram(): KVM_SET_USER_MEMORY_REGION failed" ++ [newline])) <| code := EXIT_FAILURE |>)
    | None =>
        '(sregs, g) ← kvm_prot64_setup_paging sregs (zero_guest ram_sz);
        '(sregs, g) ← kvm_prot64_setup_segmentation sregs g;
        let sregs := kvm_prot64_sregs sregs in
        let r := r <| ctx_ram := Some g |> <| given_sregs := Some sregs |> in
        match set_sregs a with
        | Some _ => Ret ((warn r (L "kvm_prot64_setup_sregs: KVM_SET_SREGS failed")) <| code := EXIT_FAILURE |>)
        | None =>
            if has_avx a && (bool_decide (get_xcrs a <> None) || bool_decide (set_xcrs a <> None))
            then Ret (r <| code := EXIT_FAILURE |>)
            else
              p ← kvm_prot64_setup_payload (payload c) g;
              match p with
              | None => Ret ((warn r (L "kvm_prot64_setup_payload(): invalid input" ++ [newline])) <| code := EXIT_FAILURE |>)
              | Some g => Ret (r <| ctx_ram := Some g |> <| code := EXIT_SUCCESS |>)
              end
        end
    end.

Definition kvm_generic_setup_vcpu (c : kvm_config) (a : setup_answers) : outcome setup_result :=
  let r := {| code := EXIT_FAILURE; ram_assigned := false; ctx_ram := None; mapped := false; given_sregs := None; given_cpuid := None; messages := [] |} in
  match supported_cpuid a with
  | inl _ => Ret r
  | inr entries =>
      let r := r <| given_cpuid := Some (kvm_generic_setup_cpuid (addr_mode c) entries) |> in
      match set_cpuid2 a with
      | Some _ => Ret r
      | None =>
          match get_sregs a with
          | inl errno => Ret (r <| code := - errno |>)
          | inr sregs =>
              match addr_mode c with
              | KVM_ADDR_MODE_REAL_16BIT => setup_real16 c a sregs (r <| ram_assigned := true |>)
              | KVM_ADDR_MODE_PROTECTED_64BIT => setup_prot64 c a sregs (r <| ram_assigned := true |>)
              | UnsupportedMode mode =>
                  Ret (r <| messages := messages r ++ [L "W> Unsupported vcpu mode in KVM test " ++ to_string mode ++ L "." ++ [newline]] |>)
              end
          end
      end
  end.

(** * Facts: bits of descriptors *)

Lemma in_u_bits w x i : in_u w x -> 0 <= w <= i -> Z.testbit x i = false.
Proof.
  intros [H1 H2] [Hw Hi]. destruct (Z.eq_dec x 0) as [->|Hx]; [apply Z.bits_0|]. apply Z.bits_above_log2; [done|].
  apply Z.log2_lt_pow2; [lia|]. eapply Z.lt_le_trans; [exact H2|]. apply Z.pow_le_mono_r; lia.
Qed.

(** A field of [n] bits from bit [k], moved by [s] bits up. *)
Lemma shl_field x n k s i : 0 <= k -> 0 <= n -> 0 <= s -> 0 <= i ->
  Z.testbit (Z.shiftl (Z.land x (Z.shiftl (Z.ones n) k)) s) i = (k + s <=? i) && (i <? k + s + n) && Z.testbit x (i - s).
Proof.
  intros Hk Hn Hs Hi. rewrite Z.shiftl_spec, Z.land_spec by done. destruct (Z.lt_ge_cases (i - s) k) as [Hlt|Hge].
  - rewrite (proj2 (Z.leb_gt (k + s) i)) by lia. destruct (Z.lt_ge_cases (i - s) 0); [by rewrite !Z.testbit_neg_r by lia|].
    rewrite Z.shiftl_spec, (Z.testbit_neg_r (Z.ones n)) by lia. by rewrite andb_false_r.
  - rewrite Z.shiftl_spec, Z.testbit_ones_nonneg, (proj2 (Z.leb_le (k + s) i)) by lia. rewrite andb_comm. simpl. f_equal.
    destruct (Z.ltb_spec (i - s - k) n), (Z.ltb_spec i (k + s + n)); done || lia.
Qed.

(** The same, moved down. *)
Lemma shr_field x n k s i : 0 <= s <= k -> 0 <= n -> 0 <= i ->
  Z.testbit (Z.shiftr (Z.land x (Z.shiftl (Z.ones n) k)) s) i = (k - s <=? i) && (i <? k - s + n) && Z.testbit x (i + s).
Proof.
  intros Hk Hn Hi. rewrite Z.shiftr_spec, Z.land_spec by done. rewrite Z.shiftl_spec by lia.
  destruct (Z.lt_ge_cases (i + s) k) as [Hlt|Hge].
  - rewrite (proj2 (Z.leb_gt (k - s) i)) by lia. rewrite (Z.testbit_neg_r (Z.ones n)) by lia. by rewrite andb_false_r.
  - rewrite Z.testbit_ones_nonneg, (proj2 (Z.leb_le (k - s) i)) by lia. rewrite andb_comm. simpl. f_equal.
    destruct (Z.ltb_spec (i + s - k) n), (Z.ltb_spec i (k - s + n)); done || lia.
Qed.

Ltac split_ranges :=
  repeat (match goal with
  | |- context [?a <=? ?b] => destruct (Z.leb_spec a b)
  | |- context [?a <? ?b] => destruct (Z.ltb_spec a b)
  end; try lia); cbn [andb orb]; rewrite ?orb_false_r.

(** The bits of a descriptor. *)
Lemma gdt_bit flags base limit i : 0 <= i ->
  Z.testbit (GDT_ENTRY flags base limit) i =
    if i <? 16 then Z.testbit limit i
    else if i <? 40 then Z.testbit base (i - 16)
    else if i <? 48 then Z.testbit flags (i - 40)
    else if i <? 52 then Z.testbit limit (i - 32)
    else if i <? 56 then Z.testbit flags (i - 40)
    else if i <? 64 then Z.testbit base (i - 32)
    else false.
Proof.
  intros Hi. unfold GDT_ENTRY. rewrite <- (Z.shiftl_0_r (Z.land limit 0xffff)).
  change 0xff000000 with (Z.shiftl (Z.ones 8) 24). change 0xf0ff with (Z.lor (Z.shiftl (Z.ones 8) 0) (Z.shiftl (Z.ones 4) 12)).
  change 0xf0000 with (Z.shiftl (Z.ones 4) 16). change 0xffffff with (Z.shiftl (Z.ones 24) 0). change 0xffff with (Z.shiftl (Z.ones 16) 0).
  change (56 - 24) with 32. change (48 - 16) with 32.
  rewrite Z.land_lor_distr_r, Z.shiftl_lor, !Z.lor_spec, !shl_field by lia. split_ranges; done || (do 2 f_equal; lia).
Qed.

(** A number is recovered from its bits. *)
Lemma eq_of_bits w x y : 0 <= w -> in_u w x -> in_u w y -> (forall i, 0 <= i < w -> Z.testbit x i = Z.testbit y i) -> x = y.
Proof.
  intros Hw Hx Hy H. apply Z.bits_inj'. intros i Hi. destruct (Z.lt_ge_cases i w); [by apply H|].
  by rewrite (in_u_bits w x), (in_u_bits w y).
Qed.

Lemma wrap_bit w x i : 0 <= w -> 0 <= i -> Z.testbit (wrap_u w x) i = (i <? w) && Z.testbit x i.
Proof. intros Hw Hi. apply Z.testbit_mod_pow2. done. Qed.

(** The field of [n] bits of [x] from bit [k]. *)
Definition field (x k n : Z) : Z := Z.land (Z.shiftr x k) (Z.ones n).
Lemma field_bit x k n i : 0 <= k -> 0 <= n -> 0 <= i -> Z.testbit (field x k n) i = (i <? n) && Z.testbit x (i + k).
Proof. intros. unfold field. rewrite Z.land_spec, Z.shiftr_spec, Z.testbit_ones_nonneg by done. apply andb_comm. Qed.

Lemma get_field x k n j m y : 0 <= k -> 0 <= n <= 8 -> 0 <= j -> m = Z.shiftl (Z.ones n) k ->
  (forall i, 0 <= i < n -> Z.testbit x (i + k) = Z.testbit y (i + j)) ->
  u8 (Z.shiftr (Z.land x m) k) = field y j n.
Proof.
  intros Hk Hn Hj -> H. apply Z.bits_inj'. intros i Hi. rewrite wrap_bit, shr_field, field_bit by lia.
  split_ranges; [by apply H|done..].
Qed.

(** A descriptor gives back its base, limit and flags: the segment registers of the
    guest describe the entries of its table. *)
Theorem gdt_roundtrip flags base limit : in_u 32 base -> in_u 20 limit ->
  let d := GDT_ENTRY flags base limit in
  in_u 64 d /\ GDT_GET_BASE d = base /\ GDT_GET_LIMIT d = limit /\
  GDT_GET_TYPE d = field flags 0 4 /\ GDT_GET_S d = field flags 4 1 /\ GDT_GET_DPL d = field flags 5 2 /\
  GDT_GET_P d = field flags 7 1 /\ GDT_GET_AVL d = field flags 12 1 /\ GDT_GET_L d = field flags 13 1 /\
  GDT_GET_DB d = field flags 14 1 /\ GDT_GET_G d = field flags 15 1.
Proof.
  intros Hb Hl d. assert (forall i, 0 <= i -> Z.testbit d i = _) as Hd by (intros i Hi; exact (gdt_bit flags base limit i Hi)).
  assert (0 <= d) as H0.
  { apply Z.bits_iff_nonneg_ex. exists 64. intros i Hi. rewrite Hd by lia. split_ranges. }
  split.
  { split; [done|]. destruct (Z.eq_dec d 0) as [->|Hnz]; [lia|]. apply Z.log2_lt_pow2; [lia|].
    destruct (Z.lt_ge_cases (Z.log2 d) 64) as [|Hge]; [done|]. exfalso. assert (0 < d) as Hp by lia.
    pose proof (Z.bit_log2 d Hp) as Ht. rewrite Hd in Ht by (apply Z.log2_nonneg). revert Ht. split_ranges. }
  split.
  { apply Z.bits_inj'. intros i Hi. unfold GDT_GET_BASE.
    change 0xFF00000000000000 with (Z.shiftl (Z.ones 8) 56). change 0x000000FF00000000 with (Z.shiftl (Z.ones 8) 32).
    change 0x00000000FFFF0000 with (Z.shiftl (Z.ones 16) 16).
    rewrite !Z.lor_spec, !shr_field, !Hd by lia. split_ranges; try (f_equal; lia); symmetry; apply (in_u_bits 32); (done || lia). }
  split.
  { apply Z.bits_inj'. intros i Hi. unfold GDT_GET_LIMIT. rewrite <- (Z.shiftr_0_r (Z.land d 0xFFFF)).
    change 0x000F000000000000 with (Z.shiftl (Z.ones 4) 48). change 0xFFFF with (Z.shiftl (Z.ones 16) 0).
    rewrite wrap_bit, Z.lor_spec, !shr_field, !Hd by lia. split_ranges; try (f_equal; lia); symmetry; apply (in_u_bits 20); (done || lia). }
  repeat split; (apply get_field; [lia|lia|lia|done|]; intros i Hi; rewrite Hd by lia; split_ranges; f_equal; lia).
Qed.

Lemma gdt_roundtrip_witness :
  GDT_GET_BASE (GDT_ENTRY 0xA09B 0x12345678 0xFFFFF) = 0x12345678 /\ GDT_GET_LIMIT (GDT_ENTRY 0xA09B 0x12345678 0xFFFFF) = 0xFFFFF /\
  GDT_GET_TYPE (GDT_ENTRY 0xA09B 0x12345678 0xFFFFF) = 0xB.
Proof.
  destruct (gdt_roundtrip 0xA09B 0x12345678 0xFFFFF) as (_ & H1 & H2 & H3 & _); [unfold in_u; lia|unfold in_u; lia|].
  split; [exact H1|]. split; [exact H2|exact H3].
Defined.

(** * Facts: memory *)

Lemma put_bytes_lookup bs : forall a m x,
  put_bytes a bs m !! x = if decide (a <= x < a + len bs) then bs !! Z.to_nat (x - a) else m !! x.
Proof.
  induction bs as [|b bs IH]; intros a m x; simpl.
  { rewrite decide_False by (unfold len; simpl; lia). done. }
  rewrite IH. unfold len in *. simpl length. destruct (Z.eq_dec x a) as [->|Hne].
  - rewrite decide_False, decide_True by lia. rewrite lookup_insert_eq, Z.sub_diag. done.
  - case_decide; [rewrite decide_True by lia|case_decide; [lia|by rewrite lookup_insert_ne by lia]].
    replace (Z.to_nat (x - a)) with (S (Z.to_nat (x - (a + 1)))) by lia. done.
Qed.

Lemma write_bytes_ret a bs g : 0 <= a -> a + len bs <= mem_size g ->
  exists g', write_bytes a bs g = Ret g' /\ mem_size g' = mem_size g /\
    forall x, byte_at g' x = if decide (a <= x < a + len bs) then default 0 (bs !! Z.to_nat (x - a)) else byte_at g x.
Proof.
  intros H1 H2. unfold write_bytes. rewrite (proj2 (Z.leb_le 0 a)), (proj2 (Z.leb_le _ _)) by lia. eexists. split; [done|].
  split; [done|]. intros x. unfold byte_at. simpl. rewrite put_bytes_lookup. by case_decide.
Qed.

(** Two memories agree on a range. *)
Definition same_on (a b : Z) (g g' : guest) : Prop := forall x, a <= x < b -> byte_at g x = byte_at g' x.

Lemma read_bytes_same a n g g' : same_on a (a + Z.of_nat n) g g' -> read_bytes a n g = read_bytes a n g'.
Proof.
  intros H. unfold read_bytes. apply list_fmap_ext. intros i x Hx. apply lookup_seqZ in Hx as [-> Hi]. apply H. lia.
Qed.
Lemma read64_same a g g' : same_on a (a + 8) g g' -> read64 a g = read64 a g'.
Proof. intros H. unfold read64. by rewrite (read_bytes_same a 8 g g'). Qed.

Lemma read_bytes_written a bs g g' : write_bytes a bs g = Ret g' -> read_bytes a (length bs) g' = bs.
Proof.
  unfold write_bytes. intros H. case_match; [|done]. injection H as <-. apply list_eq. intros i.
  unfold read_bytes. rewrite list_lookup_fmap. destruct (decide (i < length bs)%nat) as [Hi|Hi].
  - rewrite lookup_seqZ_lt by lia. simpl. unfold byte_at. simpl. rewrite put_bytes_lookup, decide_True by (unfold len; lia).
    replace (Z.to_nat (a + Z.of_nat i - a)) with i by lia. destruct (bs !! i) eqn:E; [done|]. apply lookup_ge_None in E. lia.
  - rewrite lookup_seqZ_ge by lia. symmetry. apply lookup_ge_None. lia.
Qed.

Lemma write64_ret a v g : 0 <= a -> a + 8 <= mem_size g -> in_u 64 v ->
  exists g', write64 a v g = Ret g' /\ mem_size g' = mem_size g /\ read64 a g' = v /\
    forall x, x < a \/ a + 8 <= x -> byte_at g' x = byte_at g x.
Proof.
  intros H1 H2 Hv. destruct (write_bytes_ret a (le_bytes 8 v) g) as (g' & H & Hs & Hb); [done|by rewrite len_le_bytes || (unfold len; rewrite length_le_bytes; lia)|].
  exists g'. split; [done|]. split; [done|]. split.
  - unfold read64. pose proof (read_bytes_written _ _ _ _ H) as Hr. rewrite length_le_bytes in Hr. rewrite Hr.
    apply le_value_bytes_small. done.
  - intros x Hx. rewrite Hb, decide_False; [done|]. unfold len. rewrite length_le_bytes. lia.
Qed.

(** * Facts: paging *)

(** The translation of an address by the processor in 64-bit mode with 4-level
    paging: the physical address and whether every level allows writes; [None] is a
    page fault. *)
Definition PAGE_MASK (bits : Z) : Z := Z.shiftl (Z.ones (52 - bits)) bits.
Definition walk (g : guest) (cr3 va : Z) : option (Z * bool) :=
  let entry table shift := read64 (Z.land table (PAGE_MASK 12) + 8 * field va shift 9) g in
  let leaf e bits rw := Some (Z.land e (PAGE_MASK bits) + field va 0 bits, rw && Z.testbit e 1) in
  let pml4e := entry cr3 39 in
  if negb (Z.testbit pml4e 0) then None
  else
    let pdpte := entry pml4e 30 in
    let rw := Z.testbit pml4e 1 in
    if negb (Z.testbit pdpte 0) then None
    else if Z.testbit pdpte 7 then leaf pdpte 30 rw
    else
      let pde := entry pdpte 21 in
      let rw := rw && Z.testbit pdpte 1 in
      if negb (Z.testbit pde 0) then None
      else if Z.testbit pde 7 then leaf pde 21 rw
      else
        let pte := entry pde 12 in
        if negb (Z.testbit pte 0) then None else leaf pte 12 (rw && Z.testbit pde 1).

(** Tables that map the first [n] large pages to themselves, the reserved ones
    without the right to write. *)
Definition identity_tables (n : Z) (g : guest) : Prop :=
  read64 PML4_ADDR g = Z.lor PDPT_0_ADDR 3 /\ read64 PDPT_0_ADDR g = Z.lor PDT_0_ADDR 3 /\
  (forall i, 0 <= i < 512 -> read64 (PDT_0_ADDR + 8 * i) g =
     if i <? n then Z.lor (i * GUEST_PAGE_SIZE) (if i <? GUEST_PAGE_RESERVED then 0x81 else 0x83) else 0) /\
  (forall i, 1 <= i < 512 -> read64 (PML4_ADDR + 8 * i) g = 0 /\ read64 (PDPT_0_ADDR + 8 * i) g = 0).

Lemma page_size : GUEST_PAGE_SIZE = 2 ^ 21.
Proof. reflexivity. Qed.

Lemma in_u_of_bits w x : 0 <= w -> 0 <= x -> (forall i, w <= i -> Z.testbit x i = false) -> in_u w x.
Proof.
  intros Hw Hx H. split; [done|]. destruct (Z.eq_dec x 0) as [->|Hnz]; [lia|]. apply Z.log2_lt_pow2; [lia|].
  destruct (Z.lt_ge_cases (Z.log2 x) w) as [|Hge]; [done|]. pose proof (Z.bit_log2 x ltac:(lia)). rewrite H in *; done.
Qed.

(** An entry of the page directory. *)
Lemma entry_bit i flags b : 0 <= b -> Z.testbit (Z.lor (i * GUEST_PAGE_SIZE) flags) b = (21 <=? b) && Z.testbit i (b - 21) || Z.testbit flags b.
Proof.
  intros Hb. rewrite page_size, <- Z.shiftl_mul_pow2, Z.lor_spec, Z.shiftl_spec by lia. f_equal.
  destruct (Z.leb_spec 21 b); [done|]. by rewrite Z.testbit_neg_r by lia.
Qed.
Lemma entry_fields i flags : 0 <= i < 512 -> in_u 8 flags ->
  let e := Z.lor (i * GUEST_PAGE_SIZE) flags in
  in_u 64 e /\ Z.land e (PAGE_MASK 21) = i * GUEST_PAGE_SIZE /\ (forall b, 0 <= b < 8 -> Z.testbit e b = Z.testbit flags b).
Proof.
  intros Hi Hf e. assert (in_u 9 i) as Hi9 by (unfold in_u; lia).
  split; [|split].
  - apply in_u_of_bits; [lia|unfold e; apply Z.lor_nonneg; rewrite page_size; unfold in_u in Hf; lia|].
    intros b Hb. unfold e. rewrite entry_bit, (in_u_bits 9 i), (in_u_bits 8 flags) by (done || lia). by rewrite andb_false_r.
  - apply Z.bits_inj'. intros b Hb. unfold PAGE_MASK. rewrite Z.land_spec. unfold e. rewrite entry_bit by done.
    rewrite page_size, <- (Z.shiftl_mul_pow2 i), (Z.shiftl_spec i) by lia. rewrite Z.shiftl_spec by done.
    destruct (Z.leb_spec 21 b) as [H|H].
    + rewrite (in_u_bits 8 flags), orb_false_r, Z.testbit_ones_nonneg by (done || lia). simpl.
      destruct (Z.ltb_spec (b - 21) (52 - 21)); [by rewrite andb_true_r|]. rewrite (in_u_bits 9 i) by (done || lia). done.
    + rewrite (Z.testbit_neg_r (Z.ones _)), (Z.testbit_neg_r i) by lia. by rewrite andb_false_r.
  - intros b Hb. unfold e. rewrite entry_bit by lia. destruct (Z.leb_spec 21 b); [lia|done].
Qed.

Lemma map_pages_ok n : forall i flags g, 0 <= i -> i + Z.of_nat n <= 512 -> in_u 8 flags -> PDT_0_ADDR + 0x1000 <= mem_size g ->
  exists g', map_pages n i flags g = Ret g' /\ mem_size g' = mem_size g /\
    (forall j, i <= j < i + Z.of_nat n -> read64 (PDT_0_ADDR + 8 * j) g' = Z.lor (j * GUEST_PAGE_SIZE) flags) /\
    (forall x, x < PDT_0_ADDR + 8 * i \/ PDT_0_ADDR + 8 * (i + Z.of_nat n) <= x -> byte_at g' x = byte_at g x).
Proof.
  assert (0 < PDT_0_ADDR) as Hp by done.
  induction n as [|n IH]; intros i flags g Hi Hn Hf Hs.
  { exists g. split; [done|]. split; [done|]. split; [lia|done]. }
  cbn [map_pages]. destruct (write64_ret (PDT_0_ADDR + 8 * i) (Z.lor (i * GUEST_PAGE_SIZE) flags) g) as (g1 & -> & Hs1 & Hv1 & Ho1);
    [lia|lia|apply entry_fields; [lia|done]|]. cbn [mbind outcome_bind].
  destruct (IH (i + 1) flags g1) as (g' & -> & Hs' & Hv' & Ho'); [lia|lia|done|lia|]. exists g'. split; [done|]. split; [lia|]. split.
  - intros j Hj. destruct (Z.eq_dec j i) as [->|Hne]; [|apply Hv'; lia].
    rewrite (read64_same _ g' g1); [done|]. intros x Hx. apply Ho'. lia.
  - intros x Hx. rewrite Ho' by lia. apply Ho1. lia.
Qed.

Lemma read64_zero a g : (forall x, a <= x < a + 8 -> byte_at g x = 0) -> read64 a g = 0.
Proof.
  intros H. rewrite (read64_same a g (zero_guest 0)); [done|]. intros x Hx. rewrite H by done. done.
Qed.

(** The tables that kvm_prot64_setup_paging() writes into an empty memory. *)
Lemma setup_paging_ok sregs sz n : sz = n * GUEST_PAGE_SIZE -> 3 <= n <= 512 ->
  exists g, kvm_prot64_setup_paging sregs (zero_guest sz) =
      Ret (sregs <| cr3 := PML4_ADDR |> <| cr0 := Z.lor (cr0 sregs) X86_CR0_PG |> <| cr4 := Z.lor (cr4 sregs) X86_CR4_PAE |>, g) /\
    mem_size g = sz /\ identity_tables n g /\ (forall x, x < PML4_ADDR \/ PDT_0_ADDR + 0x1000 <= x -> byte_at g x = 0).
Proof.
  intros Hsz Hn. unfold kvm_prot64_setup_paging.
  assert (PDT_0_ADDR + 0x1000 <= sz) as Hbig by (rewrite Hsz, page_size; unfold PDT_0_ADDR; rewrite page_size; lia).
  assert (PML4_ADDR = 2 ^ 21 + 0x1000 /\ PDPT_0_ADDR = 2 ^ 21 + 0x2000 /\ PDT_0_ADDR = 2 ^ 21 + 0x3000) as (HA & HB & HC) by done.
  assert (Z.shiftr sz GUEST_PAGE_BITS = n) as Hpages.
  { rewrite Hsz. change GUEST_PAGE_SIZE with (2 ^ 21). rewrite Z.shiftr_div_pow2 by done. apply Z.div_mul. done. }
  change (mem_size (zero_guest sz)) with sz. rewrite Hpages.
  destruct (write64_ret PML4_ADDR (Z.lor PDPT_0_ADDR 3) (zero_guest sz)) as (g1 & -> & S1 & V1 & O1); [lia|simpl; lia|done|]. cbn [mbind outcome_bind].
  destruct (write64_ret PDPT_0_ADDR (Z.lor PDT_0_ADDR 3) g1) as (g2 & -> & S2 & V2 & O2); [lia|simpl in *; lia|done|]. cbn [mbind outcome_bind].
  destruct (map_pages_ok (Z.to_nat GUEST_PAGE_RESERVED) 0 0x81 g2) as (g3 & -> & S3 & V3 & O3); [lia|done|done|simpl in *; lia|]. cbn [mbind outcome_bind].
  destruct (map_pages_ok (Z.to_nat (n - GUEST_PAGE_RESERVED)) GUEST_PAGE_RESERVED 0x83 g3) as (g4 & -> & S4 & V4 & O4);
    [done|unfold GUEST_PAGE_RESERVED in *; lia|done|simpl in *; lia|]. cbn [mbind outcome_bind].
  change (Z.of_nat (Z.to_nat GUEST_PAGE_RESERVED)) with 2 in *. change GUEST_PAGE_RESERVED with 2 in *. rewrite Z2Nat.id in V4, O4 by lia.
  assert (forall x, x < PDT_0_ADDR \/ PDT_0_ADDR + 8 * n <= x -> byte_at g4 x = byte_at g2 x) as Hlow
    by (intros x Hx; rewrite O4, O3 by lia; done).
  assert (forall x, byte_at (zero_guest sz) x = 0) as Hz by done.
  exists g4. split; [done|]. split; [simpl in *; lia|]. split; [split; [|split; [|split]]|].
  - rewrite (read64_same _ g4 g1); [done|]. intros x Hx. rewrite Hlow, O2 by lia. done.
  - rewrite (read64_same _ g4 g2); [done|]. intros x Hx. apply Hlow. lia.
  - intros i Hi. destruct (Z.ltb_spec i n); [|apply read64_zero; intros x Hx; rewrite Hlow, O2, O1 by lia; apply Hz].
    change GUEST_PAGE_RESERVED with 2. destruct (Z.ltb_spec i 2); [|apply V4; lia]. rewrite (read64_same _ g4 g3); [apply V3; lia|]. intros x Hx. apply O4. lia.
  - intros i Hi. split; apply read64_zero; intros x Hx; rewrite Hlow, O2, O1 by lia; apply Hz.
  - intros x Hx. rewrite Hlow, O2, O1 by lia. apply Hz.
Qed.

Lemma field_div x k n : 0 <= k -> 0 <= n -> field x k n = (x / 2 ^ k) mod 2 ^ n.
Proof. intros. unfold field. by rewrite Z.land_ones, Z.shiftr_div_pow2. Qed.

Lemma walk_identity n g va : identity_tables n g -> 3 <= n <= 512 -> 0 <= va < 2 ^ 48 ->
  walk g PML4_ADDR va = if va <? n * GUEST_PAGE_SIZE then Some (va, GUEST_MEM_PROT64_RESERVED <=? va) else None.
Proof.
  intros (H4 & H3 & H2 & Hz) Hn Hva. unfold walk. rewrite page_size, !field_div by lia.
  change (Z.land PML4_ADDR (PAGE_MASK 12)) with PML4_ADDR. rewrite (Z.mod_small (va / 2 ^ 39)) by (split; [apply Z.div_pos|apply Z.div_lt_upper_bound]; lia).
  destruct (Z.eq_dec (va / 2 ^ 39) 0) as [E4|E4].
  2: { assert (1 <= va / 2 ^ 39 < 512) as Hi by (Z.div_mod_to_equations; lia). rewrite (proj1 (Hz _ Hi)).
       destruct (Z.ltb_spec va (n * 2 ^ 21)); [Z.div_mod_to_equations; lia|done]. }
  rewrite E4, Z.mul_0_r, Z.add_0_r, H4. change (Z.testbit (Z.lor PDPT_0_ADDR 3) 0) with true. cbn [negb].
  change (Z.land (Z.lor PDPT_0_ADDR 3) (PAGE_MASK 12)) with PDPT_0_ADDR.
  rewrite (Z.mod_small (va / 2 ^ 30)) by (Z.div_mod_to_equations; lia).
  destruct (Z.eq_dec (va / 2 ^ 30) 0) as [E3|E3].
  2: { assert (1 <= va / 2 ^ 30 < 512) as Hi by (Z.div_mod_to_equations; lia). rewrite (proj2 (Hz _ Hi)).
       destruct (Z.ltb_spec va (n * 2 ^ 21)); [Z.div_mod_to_equations; lia|done]. }
  rewrite E3, Z.mul_0_r, Z.add_0_r, H3. change (Z.testbit (Z.lor PDT_0_ADDR 3) 0) with true. change (Z.testbit (Z.lor PDT_0_ADDR 3) 7) with false. cbn [negb].
  change (Z.land (Z.lor PDT_0_ADDR 3) (PAGE_MASK 12)) with PDT_0_ADDR.
  rewrite (Z.mod_small (va / 2 ^ 21)) by (Z.div_mod_to_equations; lia).
  set (i := va / 2 ^ 21). assert (0 <= i < 512) as Hi by (unfold i; Z.div_mod_to_equations; lia). rewrite (H2 i Hi).
  assert (i < n <-> va < n * 2 ^ 21) as Hlt by (unfold i; clear; Z.div_mod_to_equations; lia).
  destruct (Z.ltb_spec i n), (Z.ltb_spec va (n * 2 ^ 21)); try lia; [|done].
  destruct (entry_fields i (if i <? GUEST_PAGE_RESERVED then 0x81 else 0x83) Hi) as (_ & Hm & Hb); [by destruct (i <? _)|].
  rewrite !Hb, Hm by lia. rewrite page_size.
  assert (i < 2 <-> va < GUEST_MEM_PROT64_RESERVED) as Hrw by (change GUEST_MEM_PROT64_RESERVED with (2 * 2 ^ 21); unfold i; clear; Z.div_mod_to_equations; lia).
  change GUEST_PAGE_RESERVED with 2. rewrite Z.div_1_r.
  destruct (Z.ltb_spec i 2), (Z.leb_spec GUEST_MEM_PROT64_RESERVED va); try lia; cbn -[Z.modulo]; do 2 f_equal; unfold i; Z.div_mod_to_equations; lia.
Qed.

(** * Facts: the guest *)

Lemma ram_size_ok c : in_u 64 c ->
  exists n, (kvm_prot64_check_ram_size c).1 = n * GUEST_PAGE_SIZE /\ 3 <= n <= 512 /\
    (3 * GUEST_PAGE_SIZE <= c < 512 * GUEST_PAGE_SIZE -> c <= n * GUEST_PAGE_SIZE < c + GUEST_PAGE_SIZE).
Proof.
  intros Hc. unfold kvm_prot64_check_ram_size. rewrite !Z.shiftl_mul_pow2, Z.shiftr_div_pow2 by done. rewrite page_size.
  change GUEST_PAGE_BITS with 21. change (2 ^ 21 - 1) with (Z.ones 21). change GUEST_PAGE_RESERVED with 2. change GUEST_PAGE_MAX_NUM with 512.
  set (p := c / 2 ^ 21). assert (0 <= p /\ p * 2 ^ 21 <= c < (p + 1) * 2 ^ 21) as Hp by (unfold p, in_u in *; Z.div_mod_to_equations; lia).
  destruct (Z.eqb_spec p 0) as [E|E]; [exists 3; split; [done|lia]|].
  assert (u64 ((2 + 1) * 2 ^ 21) = 3 * 2 ^ 21) as H3 by done.
  destruct (Z.leb_spec 512 p), (Z.leb_spec p 2); cbn [orb]; try (exists 3; split; [done|lia]).
  rewrite Z.land_ones, Z.shiftl_mul_pow2 by done. destruct (Z.eqb_spec (c mod 2 ^ 21) 0) as [Hm|Hm]; cbn [negb].
  - assert (c = p * 2 ^ 21) as Hcp by (unfold p; Z.div_mod_to_equations; lia). exists p. split; [exact Hcp|lia].
  - exists (p + 1). split; [cbn [fst]; apply wrap_u_small; unfold in_u; lia|]. split; [lia|]. intros _.
    assert (c <> p * 2 ^ 21) by (intros E'; apply Hm; rewrite E'; by apply Z.mod_mul). lia.
Qed.

(** A memory where the guest can run: its page tables, the table of descriptors for
    the segment registers, and the payload. *)
Record guest_ready (n : Z) (payload : list Z) (sregs : kvm_sregs) (g : guest) : Prop := {
  ready_size : mem_size g = n * GUEST_PAGE_SIZE;
  ready_paging : forall va, 0 <= va < 2 ^ 48 ->
    walk g (cr3 sregs) va = if va <? mem_size g then Some (va, GUEST_MEM_PROT64_RESERVED <=? va) else None;
  ready_segments : forall seg, seg ∈ [cs sregs; ds sregs; es sregs; ss sregs] ->
    selector seg + 7 <= dt_limit (gdt sregs) /\
    gdt_to_kvm_segment (read64 (dt_base (gdt sregs)) g :: read64 (dt_base (gdt sregs) + 8) g :: [read64 (dt_base (gdt sregs) + 16) g])
      (selector seg / 8) = Ret seg;
  ready_payload : read_bytes PAYLOAD_ADDR_PROT64 (length payload) g = payload;
  ready_mode : Z.testbit (cr0 sregs) 0 = true /\ Z.testbit (cr0 sregs) 31 = true /\ Z.testbit (cr4 sregs) 5 = true /\
    Z.testbit (efer sregs) 8 = true /\ Z.testbit (efer sregs) 10 = true;
}.

(** Reading a number back from a sequence of numbers that was copied to memory. *)
Lemma read64_table a vs g g' i v : write_bytes a (concat (le_bytes 8 <$> vs)) g = Ret g' -> vs !! i = Some v -> in_u 64 v ->
  read64 (a + 8 * Z.of_nat i) g' = v.
Proof.
  intros H Hi Hv. pose proof (read_bytes_written _ _ _ _ H) as Hr.
  apply list_elem_of_split_length in Hi as (l1 & l2 & -> & Hl). rewrite fmap_app, fmap_cons, concat_app in Hr. cbn [concat] in Hr.
  assert (length (concat (le_bytes 8 <$> l1)) = 8 * i)%nat as Hlen.
  { subst i. clear. induction l1 as [|x l IH]; [done|]. rewrite fmap_cons. cbn [concat]. rewrite length_app, IH, length_le_bytes. simpl. lia. }
  unfold read_bytes in Hr. rewrite !length_app, length_le_bytes, Hlen, !Nat2Z.inj_add, !seqZ_app, !fmap_app in Hr by lia.
  apply app_inj_1 in Hr as [_ Hr]; [|by rewrite length_fmap, length_seqZ, Hlen, Nat2Z.id].
  apply app_inj_1 in Hr as [Hr _]; [|done].
  unfold read64, read_bytes. replace (a + 8 * Z.of_nat i) with (a + Z.of_nat (8 * i)) by lia. rewrite Hr. by apply le_value_bytes_small.
Qed.

Lemma clear_from_byte a g x : byte_at (clear_from a g) x = if decide (x < a) then byte_at g x else 0.
Proof.
  unfold byte_at, clear_from. simpl. destruct (mem g !! x) as [b|] eqn:E.
  - case_decide as Hx; [rewrite (map_lookup_filter_Some_2 _ _ x b); done|]. rewrite map_lookup_filter_None_2; [done|]. right. intros b' _. exact Hx.
  - rewrite map_lookup_filter_None_2 by by left. by case_decide.
Qed.

Lemma identity_tables_same n g g' : same_on 0 GUEST_MEM_PROT64_RESERVED g g' -> identity_tables n g -> identity_tables n g'.
Proof.
  assert (PML4_ADDR = 2 ^ 21 + 0x1000 /\ PDPT_0_ADDR = 2 ^ 21 + 0x2000 /\ PDT_0_ADDR = 2 ^ 21 + 0x3000 /\ GUEST_MEM_PROT64_RESERVED = 2 * 2 ^ 21)
    as (HA & HB & HC & HD) by done.
  intros Hs (H4 & H3 & H2 & Hz). assert (forall a, 0 <= a <= 2 ^ 21 + 0x4000 -> read64 a g' = read64 a g) as Hr.
  { intros a Ha. symmetry. apply read64_same. intros x Hx. apply Hs. lia. }
  split; [|split; [|split]].
  - by rewrite Hr by lia.
  - by rewrite Hr by lia.
  - intros i Hi. rewrite Hr by lia. by apply H2.
  - intros i Hi. rewrite !Hr by lia. by apply Hz.
Qed.

(** What the loader has put into the reserved pages. *)
Record loaded (n : Z) (payload : list Z) (sregs : kvm_sregs) (g : guest) : Prop := {
  loaded_size : mem_size g = n * GUEST_PAGE_SIZE;
  loaded_tables : identity_tables n g;
  loaded_gdt : forall i v, boot_gdt !! i = Some v -> read64 (BOOT_GDT + 8 * Z.of_nat i) g = v;
  loaded_payload : read_bytes PAYLOAD_ADDR_PROT64 (length payload) g = payload;
  loaded_sregs : exists sregs0 code_seg data_seg,
    gdt_to_kvm_segment boot_gdt BOOT_GDT_CODE = Ret code_seg /\ gdt_to_kvm_segment boot_gdt BOOT_GDT_DATA = Ret data_seg /\
    sregs = kvm_prot64_sregs (sregs0 <| cr3 := PML4_ADDR |> <| cr0 := Z.lor (cr0 sregs0) X86_CR0_PG |> <| cr4 := Z.lor (cr4 sregs0) X86_CR4_PAE |>
      <| gdt := {| dt_base := BOOT_GDT; dt_limit := 8 * len boot_gdt - 1 |} |> <| cs := code_seg |> <| ds := data_seg |> <| es := data_seg |> <| ss := data_seg |>);
}.

Lemma loaded_same n payload sregs g g' : len payload <= 0x100000 -> mem_size g' = mem_size g -> same_on 0 GUEST_MEM_PROT64_RESERVED g g' ->
  loaded n payload sregs g -> loaded n payload sregs g'.
Proof.
  intros Hp Hsz Hs [H1 H2 H3 H4 H5]. split; [lia|by eapply identity_tables_same| | |done].
  - intros i v Hv. rewrite <- (H3 i v Hv). symmetry. apply read64_same. intros x Hx. apply Hs. apply lookup_lt_Some in Hv.
    change (length boot_gdt) with 3%nat in Hv. change BOOT_GDT with (2 ^ 21) in Hx. change GUEST_MEM_PROT64_RESERVED with (2 * 2 ^ 21). lia.
  - etransitivity; [|exact H4]. symmetry. apply read_bytes_same. intros x Hx. apply Hs. unfold len in Hp.
    change PAYLOAD_ADDR_PROT64 with (2 ^ 21 + 2 ^ 20) in Hx. change GUEST_MEM_PROT64_RESERVED with (2 * 2 ^ 21). lia.
Qed.

Lemma loaded_ready n payload sregs g : 3 <= n <= 512 -> loaded n payload sregs g -> guest_ready n payload sregs g.
Proof.
  intros Hn [H1 H2 H3 H4 (sregs0 & code_seg & data_seg & Hc & Hd & ->)]. split; [done| | |done|].
  - intros va Hva. rewrite H1. by apply walk_identity.
  - intros seg Hseg.
    change (dt_base (gdt (kvm_prot64_sregs _))) with BOOT_GDT.
    pose proof (H3 0%nat _ eq_refl) as E0. pose proof (H3 1%nat _ eq_refl) as E1. pose proof (H3 2%nat _ eq_refl) as E2.
    change (BOOT_GDT + 8 * Z.of_nat 0) with BOOT_GDT in E0. change (8 * Z.of_nat 1) with 8 in E1. change (8 * Z.of_nat 2) with 16 in E2.
    rewrite E0, E1, E2.
    assert (seg = code_seg \/ seg = data_seg) as [-> | ->].
    { unfold kvm_prot64_sregs in Hseg. simpl in Hseg. repeat (apply elem_of_cons in Hseg as [->|Hseg]; [by auto|]). by apply not_elem_of_nil in Hseg. }
    + assert (selector code_seg = 8) as Hs by (unfold gdt_to_kvm_segment in Hc; simpl in Hc; by injection Hc as <-). rewrite Hs. split; [done|]. exact Hc.
    + assert (selector data_seg = 16) as Hs by (unfold gdt_to_kvm_segment in Hd; simpl in Hd; by injection Hd as <-). rewrite Hs. split; [done|]. exact Hd.
  - unfold kvm_prot64_sregs. cbn -[Z.testbit Z.lor X86_CR0_PE X86_CR0_PG X86_CR4_PAE EFER_LME EFER_LMA]. rewrite !Z.lor_spec.
    change (Z.testbit X86_CR0_PE 0) with true. change (Z.testbit X86_CR0_PG 31) with true. change (Z.testbit X86_CR4_PAE 5) with true.
    change (Z.testbit EFER_LME 8) with true. change (Z.testbit EFER_LMA 10) with true. rewrite !orb_true_r. done.
Qed.

Lemma prot64_loaded c sregs n : (kvm_prot64_check_ram_size (ram_size c)).1 = n * GUEST_PAGE_SIZE -> 3 <= n <= 512 -> len (payload c) <= 0x100000 ->
  exists g2 g3 sregs1 sregs2, kvm_prot64_setup_paging sregs (zero_guest (n * GUEST_PAGE_SIZE)) = Ret (sregs1, g2) /\
    kvm_prot64_setup_segmentation sregs1 g2 = Ret (sregs2, g3) /\
    exists g, kvm_prot64_setup_payload (payload c) g3 = Ret (Some g) /\ loaded n (payload c) (kvm_prot64_sregs sregs2) g.
Proof.
  intros Hsz Hn Hp. assert (PML4_ADDR = 2 ^ 21 + 0x1000 /\ PDT_0_ADDR = 2 ^ 21 + 0x3000 /\ BOOT_GDT = 2 ^ 21 /\ PAYLOAD_ADDR_PROT64 = 2 ^ 21 + 2 ^ 20)
    as (HA & HC & HG & HP) by done.
  destruct (setup_paging_ok sregs (n * GUEST_PAGE_SIZE) n eq_refl Hn) as (g2 & H2 & S2 & T2 & _). rewrite page_size in S2.
  destruct (gdt_to_kvm_segment boot_gdt BOOT_GDT_CODE) as [code_seg| |] eqn:Ec; [|done..].
  destruct (gdt_to_kvm_segment boot_gdt BOOT_GDT_DATA) as [data_seg| |] eqn:Ed; [|done..].
  set (table := concat (le_bytes 8 <$> boot_gdt)). assert (len table = 24) as Ht by (clear; vm_compute; done).
  destruct (write_bytes_ret BOOT_GDT table g2) as (g3 & H3 & S3 & B3); [lia|lia|].
  destruct (write_bytes_ret PAYLOAD_ADDR_PROT64 (payload c) g3) as (g & Hg & Sg & Bg); [lia|lia|].
  exists g2, g3. do 2 eexists. split; [exact H2|]. split; [unfold kvm_prot64_setup_segmentation; rewrite Ec, Ed; cbn [mbind outcome_bind]; fold table; rewrite H3; reflexivity|].
  exists g. split; [unfold kvm_prot64_setup_payload; rewrite (proj2 (Z.ltb_ge _ _)) by lia; by rewrite Hg|].
  assert (forall x, x < BOOT_GDT \/ BOOT_GDT + 24 <= x -> x < PAYLOAD_ADDR_PROT64 -> byte_at g x = byte_at g2 x) as Hb.
  { intros x Hx Hx'. rewrite Bg, decide_False by lia. rewrite B3, decide_False by lia. done. }
  split.
  - rewrite Sg, S3, S2. done.
  - destruct T2 as (T4 & T3 & T2 & Tz). assert (forall a, PML4_ADDR <= a <= PDT_0_ADDR + 0x1000 -> read64 a g = read64 a g2) as Hr
      by (intros a Ha; apply read64_same; intros x Hx; apply Hb; lia).
    change PDPT_0_ADDR with (2 ^ 21 + 0x2000) in *. split; [|split; [|split]].
    + rewrite Hr by lia. done.
    + change PDPT_0_ADDR with (2 ^ 21 + 0x2000). rewrite Hr by lia. done.
    + intros i Hi. rewrite Hr by lia. by apply T2.
    + intros i Hi. change PDPT_0_ADDR with (2 ^ 21 + 0x2000). rewrite !Hr by lia. by apply Tz.
  - intros i v Hv. assert (in_u 64 v) as Hv64 by (apply list_elem_of_lookup_2 in Hv; repeat (apply elem_of_cons in Hv as [->|Hv]; [done|]); by apply not_elem_of_nil in Hv).
    rewrite <- (read64_table BOOT_GDT boot_gdt g2 g3 i v H3 Hv Hv64). apply read64_same. intros x Hx. rewrite Bg, decide_False; [done|].
    apply lookup_lt_Some in Hv. change (length boot_gdt) with 3%nat in Hv. lia.
  - exact (read_bytes_written _ _ _ _ Hg).
  - exists sregs, code_seg, data_seg. done.
Qed.

(** C15. A guest in 64-bit mode is ready to run: whatever size is configured, when the
    kernel accepts the setup and the payload has at most 1 MB, the memory is between
    6 MB and 1 GB and in whole pages; and before every run (after any writes of the
    guest outside the reserved pages) every address of the memory is mapped to
    itself and no other is mapped, the reserved pages without the right to write;
    the segment registers are those of the table in memory; the payload is where
    the execution starts; the stack is inside the writable memory; and the rest of
    the memory is zero. *)
Theorem guest_is_ready c a entries sregs :
  addr_mode c = KVM_ADDR_MODE_PROTECTED_64BIT -> in_u 64 (ram_size c) -> len (payload c) <= 0x100000 ->
  supported_cpuid a = inr entries -> set_cpuid2 a = None -> get_sregs a = inr sregs -> map_ram a = true ->
  set_memory_region a = None -> set_sregs a = None -> get_xcrs a = None -> set_xcrs a = None ->
  exists r g sregs' n, kvm_generic_setup_vcpu c a = Ret r /\ code r = EXIT_SUCCESS /\ ctx_ram r = Some g /\ given_sregs r = Some sregs' /\
    3 <= n <= 512 /\ mem_size g = n * GUEST_PAGE_SIZE /\
    forall g1 regs, mem_size g1 = mem_size g -> same_on 0 GUEST_MEM_PROT64_RESERVED g g1 ->
    exists regs' g2, kvm_generic_reset_vcpu KVM_ADDR_MODE_PROTECTED_64BIT regs g1 = Ret (Some (regs', g2)) /\
      guest_ready n (payload c) sregs' g2 /\ rip regs' = PAYLOAD_ADDR_PROT64 /\ rsp regs' = mem_size g2 - 0x1000 /\ rbp regs' = rsp regs' /\
      GUEST_MEM_PROT64_RESERVED <= rsp regs' /\ (forall x, GUEST_MEM_PROT64_RESERVED <= x -> byte_at g2 x = 0).
Proof.
  intros Hmode Hram Hp Ecp Esc Egs Em Er Es Eg Ex.
  destruct (ram_size_ok (ram_size c) Hram) as (n & Hsz & Hn & _).
  destruct (prot64_loaded c sregs n Hsz Hn Hp) as (g2 & g3 & sregs1 & sregs2 & H2 & H3 & g & Hg & Hl).
  unfold kvm_generic_setup_vcpu. rewrite Ecp, Esc, Egs, Hmode. unfold setup_prot64.
  destruct (kvm_prot64_check_ram_size (ram_size c)) as [sz warnings]. simpl in Hsz. subst sz.
  assert (u32 (n * GUEST_PAGE_SIZE) = n * GUEST_PAGE_SIZE) as Hu by (rewrite page_size; apply wrap_u_small; unfold in_u; lia).
  rewrite Em, Er, Hu, H2. cbn [negb mbind outcome_bind]. rewrite H3. cbn [mbind outcome_bind]. rewrite Es, Eg, Ex, andb_false_r, Hg. cbn [mbind outcome_bind].
  do 2 eexists. exists (kvm_prot64_sregs sregs2), n. split; [reflexivity|]. split; [done|]. split; [reflexivity|]. split; [reflexivity|]. split; [done|].
  split; [apply Hl|]. intros g1 regs Hs1 Hsame.
  assert (GUEST_MEM_PROT64_RESERVED = 2 * 2 ^ 21) as HD by done. pose proof (loaded_size _ _ _ _ Hl) as Hsize. rewrite page_size in Hsize.
  unfold kvm_generic_reset_vcpu. rewrite (proj2 (Z.leb_le GUEST_MEM_PROT64_RESERVED (mem_size g1))) by lia. cbn [assertion mbind outcome_bind].
  assert (u64 (u32 (mem_size g1 - 0x1000)) = mem_size g1 - 0x1000) as -> by (rewrite (wrap_u_small 32 (mem_size g1 - 0x1000)), wrap_u_small by (unfold in_u; lia); done).
  do 2 eexists. split; [reflexivity|]. split.
  - apply loaded_ready; [done|]. apply (loaded_same n (payload c) _ g); [done|simpl; lia| |done]. intros x Hx. rewrite Hsame by done.
    rewrite clear_from_byte, decide_True by lia. done.
  - split; [done|]. split; [done|]. split; [done|]. split; [cbn -[Z.sub]; lia|]. intros x Hx. rewrite clear_from_byte, decide_False by lia. done.
Qed.

Definition zero_segment : kvm_segment :=
  {| seg_base := 0; seg_limit := 0; selector := 0; seg_type := 0; present := 0; dpl := 0; db := 0; seg_s := 0; seg_l := 0; seg_g := 0; avl := 0 |}.
Definition zero_sregs : kvm_sregs :=
  {| cs := zero_segment; ds := zero_segment; es := zero_segment; fs := zero_segment; gs := zero_segment; ss := zero_segment;
     gdt := {| dt_base := 0; dt_limit := 0 |}; ldt := {| dt_base := 0; dt_limit := 0 |}; cr0 := 0x60000010; cr2 := 0; cr3 := 0; cr4 := 0; efer := 0 |}.
Definition zero_regs : kvm_regs := Build_kvm_regs 0 0 0 0 0 0 0 0 0 0 0 0 0 0 0 0 0 0.
Definition accepting : setup_answers :=
  {| supported_cpuid := inr []; set_cpuid2 := None; get_sregs := inr zero_sregs; map_ram := true; set_memory_region := None; set_sregs := None;
     has_avx := true; get_xcrs := None; set_xcrs := None |}.
Definition halting : kvm_config := {| addr_mode := KVM_ADDR_MODE_PROTECTED_64BIT; ram_size := 0; payload := [0x31; 0xc0; 0xf4] |}.

Lemma guest_is_ready_witness : exists r g sregs' n, kvm_generic_setup_vcpu halting accepting = Ret r /\ ctx_ram r = Some g /\ 3 <= n <= 512 /\
  exists regs' g2, kvm_generic_reset_vcpu KVM_ADDR_MODE_PROTECTED_64BIT zero_regs g = Ret (Some (regs', g2)) /\ guest_ready n [0x31; 0xc0; 0xf4] sregs' g2.
Proof.
  destruct (guest_is_ready halting accepting [] zero_sregs) as (r & g & sregs' & n & H & _ & Hg & _ & Hn & _ & Hr);
    [done|unfold in_u; simpl; lia|unfold len; simpl; lia|done|done|done|done|done|done|done|done|].
  exists r, g, sregs', n. split; [exact H|]. split; [exact Hg|]. split; [exact Hn|].
  destruct (Hr g zero_regs eq_refl ltac:(done)) as (regs' & g2 & H2 & Hready & _). exists regs', g2. split; [exact H2|exact Hready].
Defined.

(** The first page, reserved to detect null pointers, is mapped. *)
Lemma null_page_mapped n payload sregs g : guest_ready n payload sregs g -> 3 <= n -> walk g (cr3 sregs) 0 = Some (0, false).
Proof.
  intros [H1 H2 _ _ _] Hn. rewrite H2 by lia. rewrite (proj2 (Z.ltb_lt _ _)) by (rewrite H1, page_size; lia). done.
Qed.

(** A payload of more than 1 MB is accepted, and the part beyond is cleared before
    the first run. *)
Lemma large_payload_cleared g p b : write_bytes PAYLOAD_ADDR_PROT64 (p ++ [b]) (zero_guest (3 * GUEST_PAGE_SIZE)) = Ret g -> len p = 0x100000 ->
  forall regs, exists regs' g', kvm_generic_reset_vcpu KVM_ADDR_MODE_PROTECTED_64BIT regs g = Ret (Some (regs', g')) /\
    byte_at g' (PAYLOAD_ADDR_PROT64 + len p) = 0.
Proof.
  intros Hg Hp regs. unfold write_bytes in Hg. case_match; [|done]. injection Hg as <-. unfold kvm_generic_reset_vcpu. simpl mem_size.
  change (assertion (GUEST_MEM_PROT64_RESERVED <=? 3 * GUEST_PAGE_SIZE)) with (Ret ()). cbn [mbind outcome_bind].
  do 2 eexists. split; [reflexivity|]. rewrite clear_from_byte, decide_False; [done|]. rewrite Hp. done.
Qed.

(** In 16-bit mode nothing checks that the payload fits into the memory. *)
Example real16_payload_overrun :
  kvm_generic_setup_vcpu {| addr_mode := KVM_ADDR_MODE_REAL_16BIT; ram_size := 4096; payload := [0xf4] |} accepting = Ub.
Proof. reflexivity. Qed.

