(* ===== verification/KvmRun.v ===== *)
(** Running a test in a virtual machine (kvm_generic_run() of
    src/framework/sysdeps/linux/kvm.c): the loop that creates machines, runs them
    and reacts to their exits, the messages it logs, and what it holds open. *)

From S2P Require Import Prelude CStdlib Bytes Logging Report Runner ContextDump Kvm.

(** * Exits *)

(** What a virtual machine stops with: the members of struct kvm_run for the reasons
    that are told apart on x86. *)
Inductive kvm_exit :=
| KVM_EXIT_UNKNOWN (hardware_exit_reason : Z)
| KVM_EXIT_EXCEPTION (exception error_code : Z)
| KVM_EXIT_IO (direction size port count data_offset : Z)
| KVM_EXIT_HYPERCALL (nr ret : Z)
| KVM_EXIT_DEBUG (exception pad pc dr6 dr7 : Z)
| KVM_EXIT_HLT
| KVM_EXIT_MMIO (phys_addr len is_write : Z)
| KVM_EXIT_FAIL_ENTRY (hardware_entry_failure_reason cpu : Z)
| KVM_EXIT_TPR_ACCESS (rip is_write pad : Z)
| KVM_EXIT_DCR (dcrn data is_write : Z)
| KVM_EXIT_INTERNAL_ERROR (suberror ndata : Z)
| KVM_EXIT_OSI
| KVM_EXIT_SYSTEM_EVENT (type : Z)
| KVM_EXIT_HYPERV (type : Z)
| KVM_EXIT_X86_RDMSR (error reason : Z)
| KVM_EXIT_X86_WRMSR (error reason : Z)
| KVM_EXIT_XEN (type : Z)
| KVM_EXIT_NOTIFY (flags : Z)
| KVM_EXIT_OTHER (exit_reason : Z).

Definition exit_reason (e : kvm_exit) : Z :=
  match e with
  | KVM_EXIT_UNKNOWN _ => 0 | KVM_EXIT_EXCEPTION _ _ => 1 | KVM_EXIT_IO _ _ _ _ _ => 2 | KVM_EXIT_HYPERCALL _ _ => 3
  | KVM_EXIT_DEBUG _ _ _ _ _ => 4 | KVM_EXIT_HLT => 5 | KVM_EXIT_MMIO _ _ _ => 6 | KVM_EXIT_FAIL_ENTRY _ _ => 9
  | KVM_EXIT_TPR_ACCESS _ _ _ => 12 | KVM_EXIT_DCR _ _ _ => 15 | KVM_EXIT_INTERNAL_ERROR _ _ => 17 | KVM_EXIT_OSI => 18
  | KVM_EXIT_SYSTEM_EVENT _ => 24 | KVM_EXIT_HYPERV _ => 27 | KVM_EXIT_X86_RDMSR _ _ => 29 | KVM_EXIT_X86_WRMSR _ _ => 30
  | KVM_EXIT_XEN _ => 34 | KVM_EXIT_NOTIFY _ => 37 | KVM_EXIT_OTHER r => r
  end.

Definition code_to_string : list str := L <$>
  ["KVM_EXIT_UNKNOWN"; "KVM_EXIT_EXCEPTION"; "KVM_EXIT_IO"; "KVM_EXIT_HYPERCALL"; "KVM_EXIT_DEBUG"; "KVM_EXIT_HLT"; "KVM_EXIT_MMIO";
   "KVM_EXIT_IRQ_WINDOW_OPEN"; "KVM_EXIT_SHUTDOWN"; "KVM_EXIT_FAIL_ENTRY"; "KVM_EXIT_INTR"; "KVM_EXIT_SET_TPR"; "KVM_EXIT_TPR_ACCESS";
   "KVM_EXIT_S390_SIEIC"; "KVM_EXIT_S390_RESET"; "KVM_EXIT_DCR"; "KVM_EXIT_NMI"; "KVM_EXIT_INTERNAL_ERROR"; "KVM_EXIT_OSI";
   "KVM_EXIT_PAPR_HCALL"; "KVM_EXIT_S390_UCONTROL"; "KVM_EXIT_WATCHDOG"; "KVM_EXIT_S390_TSCH"; "KVM_EXIT_EPR"; "KVM_EXIT_SYSTEM_EVENT";
   "KVM_EXIT_S390_STSI"; "KVM_EXIT_IOAPIC_EOI"; "KVM_EXIT_HYPERV"; "KVM_EXIT_ARM_NISV"; "KVM_EXIT_X86_RDMSR"; "KVM_EXIT_X86_WRMSR";
   "KVM_EXIT_DIRTY_RING_FULL"; "KVM_EXIT_AP_RESET_HOLD"; "KVM_EXIT_X86_BUS_LOCK"; "KVM_EXIT_XEN"; "KVM_EXIT_RISCV_SBI"; "KVM_EXIT_RISCV_CSR";
   "KVM_EXIT_NOTIFY"]%string.

Definition convert_kvm_exit_code_to_string (kvm_exit_code : Z) : str :=
  if (0 <=? kvm_exit_code) && (kvm_exit_code <? len code_to_string)
  then default [] (code_to_string !! Z.to_nat kvm_exit_code) else L "UNKNOWN_KVM_EXIT".

(** "0x%x" and "%u". *)
Definition hex (z : Z) : str := L "0x" ++ to_digits 16 z.

(** The error that is logged for an exit; a halt with zero in rax is the end of a
    successful run. *)
Definition exit_message (e : kvm_exit) (rax_value : Z) : option str :=
  let reason rest := Some (L "KVM exit reason: " ++ convert_kvm_exit_code_to_string (exit_reason e) ++ rest) in
  match e with
  | KVM_EXIT_HLT => if rax_value =? 0 then None else Some (L "KVM test reported exit code " ++ to_string (wrap_s 64 rax_value))
  | KVM_EXIT_UNKNOWN hw => reason (L ", Hardware exit reason: " ++ hex hw)
  | KVM_EXIT_FAIL_ENTRY hw cpu => reason (L ", Hardware entry exit reason: " ++ hex hw ++ L ", cpu:" ++ to_string cpu)
  | KVM_EXIT_EXCEPTION ex err => reason (L ", Exception code: " ++ hex ex ++ L ", error_code: " ++ hex err)
  | KVM_EXIT_IO dir size port count off =>
      reason (L ", io.direction: " ++ hex dir ++ L ", io.size: " ++ hex size ++ L ", io.port: io." ++ hex port
              ++ L ", io.count: " ++ hex count ++ L ", io.data_offset: " ++ hex off)
  | KVM_EXIT_DEBUG ex pad pc dr6 dr7 =>
      reason (L ", debug.arch.exception: " ++ hex ex ++ L ", debug.arch.pad: " ++ hex pad ++ L ", debug.arch.pc: " ++ hex pc
              ++ L ", debug.arch.dr6: " ++ hex dr6 ++ L ", debug.arch.dr7: " ++ hex dr7)
  | KVM_EXIT_X86_RDMSR err why | KVM_EXIT_X86_WRMSR err why => reason (L ", msr.error: " ++ hex err ++ L ", msr.reason: " ++ hex why)
  | KVM_EXIT_MMIO addr n w => reason (L ", mmio.phys_addr: " ++ hex addr ++ L ", mmio.len: " ++ hex n ++ L ", mmio.is_write: " ++ hex w)
  | KVM_EXIT_HYPERCALL nr ret => reason (L ", hypercall.nr: " ++ hex nr ++ L ", hypercall.ret: " ++ hex ret)
  | KVM_EXIT_TPR_ACCESS ip w pad => reason (L ", tpr_access.rip: " ++ hex ip ++ L ", tpr_access.is_write: " ++ hex w ++ L " tpr_access.pad: " ++ hex pad)
  | KVM_EXIT_DCR n d w => reason (L ", dcr.dcrn: " ++ hex n ++ L ", dcr.data: " ++ hex d ++ L ", dcr.is_write: " ++ hex w)
  | KVM_EXIT_INTERNAL_ERROR s n => reason (L ", internal.suberror: " ++ hex s ++ L ", internal.ndata: " ++ hex n)
  | KVM_EXIT_OSI => reason (L ", Please have a look at GPRs")
  | KVM_EXIT_SYSTEM_EVENT t => reason (L ", system_event.type: " ++ hex t)
  | KVM_EXIT_HYPERV t => reason (L ", hyperv.type: " ++ hex t)
  | KVM_EXIT_XEN t => reason (L ", xen.type: " ++ hex t)
  | KVM_EXIT_NOTIFY f => reason (L ", notify.flags: " ++ hex f)
  | KVM_EXIT_OTHER r => Some (L "Unexpected exit reason: " ++ to_string r ++ L "." ++ [newline])
  end.

(** * Registers in the log *)

Definition segment_type (seg : kvm_segment) : str :=
  let bit b := negb (Z.land (seg_type seg) b =? 0) in
  if seg_s seg =? 0 then hex (seg_type seg)
  else (if bit 8 then (if bit 2 then L "R" else L "-") ++ L "-X" ++ (if bit 4 then L "c" else [])
        else L "R" ++ (if bit 2 then L "W" else L "-") ++ L "-" ++ (if bit 4 then L "e" else []))
       ++ (if bit 1 then L "a" else []).

Definition kvm_log_segment (seg : kvm_segment) : str :=
  L "0x" ++ fmt_0x 4 (selector seg) ++ L " base = 0x" ++ fmt_0x 12 (seg_base seg) ++ L " limit = 0x" ++ fmt_0x 8 (seg_limit seg)
    ++ L " s=" ++ to_string (seg_s seg) ++ L " type=" ++ segment_type seg ++ L " dpl=" ++ to_string (dpl seg) ++ L " db=" ++ to_string (db seg)
    ++ L " g=" ++ to_string (seg_g seg) ++ L " l=" ++ to_string (seg_l seg) ++ L " " ++ (if present seg =? 0 then [] else L "present").

Definition flag_mapping : list (Z * str) :=
  [(0x1, L "CF"); (0x4, L "PF"); (0x10, L "AF"); (0x40, L "ZF"); (0x80, L "SF"); (0x400, L "DF"); (0x800, L "OF"); (0x40000, L "AC")].
Definition flags_text (rflags_value : Z) : str :=
  let names := (fun p => p.2) <$> filter (fun p => Z.land rflags_value p.1 <> 0) flag_mapping in
  match names with [] => [] | n :: ns => n ++ concat ((fun n => L " " ++ n) <$> ns) end.

(** What the kernel answers after an exit: the exit, the registers, and for the dump
    the size of the XSAVE area, the area, and whether the legacy state can be read. *)
Record run_answer := {
  run_exit : option kvm_exit; regs_after : Z + kvm_regs; sregs_after : option kvm_sregs; xcr0_after : option Z;
  check_xsave2 : Z; xsave_area : option (list Z); get_fpu : bool; memory_after : guest -> guest }.

(** The part of the dump for the floating point and vector registers. KVM_GET_FPU is
    given the address of the pointer instead of the area. *)
Definition xsave_text (leaf0d : Z -> Z * Z) (fmt_La : Z -> Z -> str) (host_xcr0 : option Z) (a : run_answer) : outcome str :=
  if check_xsave2 a <? 0 then Ub
  else
    area ← match xsave_area a with
           | Some area => Ret area
           | None => if get_fpu a then Ub else Ret []
           end;
    dump ← dump_xsave leaf0d fmt_La area host_xcr0 (2 ^ 32 - 1);
    Ret (match dump with [] => [] | _ => newline :: dump end).

Definition kvm_log_registers (leaf0d : Z -> Z * Z) (fmt_La : Z -> Z -> str) (host_xcr0 : option Z) (r : kvm_regs) (a : run_answer) : outcome str :=
  let x16 name v := L name ++ L " = 0x" ++ fmt_0x 16 v in
  extra ← match sregs_after a with
          | None => Ret (newline :: L "<KVM_GET_SREGS failed>")
          | Some s =>
              xsave ← xsave_text leaf0d fmt_La host_xcr0 a;
              let seg name v := newline :: L name ++ L " = " ++ kvm_log_segment v in
              Ret (seg " cs "%string (cs s) ++ seg " ds "%string (ds s) ++ seg " es "%string (es s) ++ seg " fs "%string (fs s)
                   ++ seg " gs "%string (gs s) ++ seg " ss "%string (ss s)
                   ++ newline :: L " cr0 = 0x" ++ fmt_0x 8 (cr0 s) ++ L " cr2 = " ++ fmt_alt_x (cr2 s) ++ L " cr3 = 0x" ++ fmt_0x 16 (cr3 s)
                   ++ L " cr4 = 0x" ++ fmt_0x 8 (cr4 s) ++ L " efer = 0x" ++ fmt_0x 3 (efer s) ++ L " xcr0 = 0x" ++ fmt_0x 6 (default 0 (xcr0_after a))
                   ++ newline :: L " gdt: base = 0x" ++ fmt_0x 16 (dt_base (gdt s)) ++ L " limit = 0x" ++ fmt_0x 4 (dt_limit (gdt s))
                   ++ newline :: L " ldt: base = 0x" ++ fmt_0x 16 (dt_base (ldt s)) ++ L " limit = 0x" ++ fmt_0x 4 (dt_limit (ldt s)) ++ xsave)
          end;
  Ret (L "I> Register dump:" ++ [newline]
    ++ x16 " rax"%string (rax r) ++ x16 " rbx"%string (rbx r) ++ x16 " rcx"%string (rcx r) ++ x16 " rdx"%string (rdx r) ++ [newline]
    ++ x16 " rsi"%string (rsi r) ++ x16 " rdi"%string (rdi r) ++ x16 " rsp"%string (rsp r) ++ x16 " rbp"%string (rbp r) ++ [newline]
    ++ x16 " r8 "%string (r8 r) ++ x16 " r9 "%string (r9 r) ++ x16 " rcx"%string (rcx r) ++ x16 " r11"%string (r11 r) ++ [newline]
    ++ x16 " r12"%string (r12 r) ++ x16 " r13"%string (r13 r) ++ x16 " r14"%string (r14 r) ++ x16 " r15"%string (r15 r) ++ [newline]
    ++ x16 " rip"%string (rip r) ++ x16 " rflags"%string (rflags r) ++ L " [" ++ flags_text (rflags r) ++ L "]" ++ extra).

(** * The loop *)

Inductive kvm_exit_code_t := KVM_EXIT_HANDLED | KVM_EXIT_UNHANDLED | KVM_EXIT_FAILURE.
Inductive vm_answer := VmCreated | VmBusy | VmFailed.

(** The kernel, for each machine that is created and for each call of KVM_RUN; the
    handlers of the test; and test_time_condition(). *)
Record kvm_world := {
  create_vm_at : nat -> vm_answer; mmap_size_at : nat -> bool; create_vcpu_at : nat -> bool; map_runs_at : nat -> bool;
  setup_at : nat -> setup_answers; init_regs_at : nat -> Z + kvm_regs; set_regs_at : nat -> option Z; run_at : nat -> run_answer;
  setup_handler : option (nat -> guest -> Z * guest); exit_handler : option (nat -> kvm_exit_code_t); check_handler : option (nat -> Z);
  time_at : nat -> bool; leaf0d_of : Z -> Z * Z; fmt_La_of : Z -> Z -> str; host_xcr0 : option Z }.

(** File descriptors and mappings, of the n-th machine. *)
Inductive resource := VmFd (n : nat) | CpuFd (n : nat) | RunMap (n : nat) | RamMap (n : nat).
#[export] Instance resource_eq_dec : EqDecision resource.
Proof. solve_decision. Defined.

(** struct kvm_ctx and the variables of the loop; [live] is what the process holds,
    [vms], [runs_done], [resets] and [checks] count the calls. *)
Record kvm_state := {
  vm_fd : option nat; cpu_fd : option nat; runs : option nat; ram : option (nat * guest);
  init_regs : kvm_regs; live : list resource; vms : nat; runs_done : nat; resets : nat; checks : nat; log : list str }.
#[export] Instance eta_kvm_state : Eta kvm_state := fun s =>
  Build_kvm_state (vm_fd s) (cpu_fd s) (runs s) (ram s) (init_regs s) (live s) (vms s) (runs_done s) (resets s) (checks s) (log s).

Definition add_log (m : list str) (s : kvm_state) : kvm_state := s <| log := log s ++ m |>.
(** close() or munmap(); releasing what is not held is an error. *)
Definition release (r : option resource) (s : kvm_state) : outcome kvm_state :=
  match r with
  | Some r => _ ← assertion (bool_decide (r ∈ live s)); Ret (s <| live := filter (fun r' => r' <> r) (live s) |>)
  | None => Ret s
  end.
Definition hold (r : resource) (s : kvm_state) : kvm_state := s <| live := r :: live s |>.

(** close() and munmap() of what the context has. *)
Definition release_all (s : kvm_state) : outcome kvm_state :=
  s ← release (VmFd <$> vm_fd s) s;
  s ← release (CpuFd <$> cpu_fd s) s;
  s ← release (RunMap <$> runs s) s;
  release (RamMap <$> (fst <$> ram s)) s.

(** How a part of the loop ends: goto epilogue, return from the function, or go on. *)
Inductive flow := Epilogue (result : Z) | Return (result : Z) | Next.

Section Run.
Context (w : kvm_world) (c : kvm_config).

(** kvm_generic_add_vcpu() *)
Definition kvm_generic_add_vcpu (n : nat) (s : kvm_state) : kvm_state :=
  if negb (mmap_size_at w n) || negb (create_vcpu_at w n) then s <| cpu_fd := None |>
  else if negb (map_runs_at w n) then s <| cpu_fd := None |> <| runs := None |>
  else hold (RunMap n) (hold (CpuFd n) (s <| cpu_fd := Some n |> <| runs := Some n |>)).

(** A new machine; the old one is closed except in the first round. *)
Definition recycle (count : Z) (s : kvm_state) : outcome (flow * kvm_state) :=
  s ← (if count =? 0 then Ret s
       else s ← release_all s; Ret (s <| vm_fd := None |> <| cpu_fd := None |> <| runs := None |> <| ram := None |>));
  let n := vms s in
  let s := s <| vms := S n |> in
  match create_vm_at w n with
  | VmBusy => Ret (Epilogue EXIT_SKIP, add_log [L "skip: Cannot create VM: device busy"] (s <| vm_fd := None |>))
  | VmFailed => Ret (Epilogue EXIT_FAILURE, s <| vm_fd := None |>)
  | VmCreated =>
      let s := kvm_generic_add_vcpu n (hold (VmFd n) (s <| vm_fd := Some n |>)) in
      match cpu_fd s with
      | None => Ret (Epilogue EXIT_FAILURE, s)
      | Some _ =>
          r ← kvm_generic_setup_vcpu c (setup_at w n);
          let s := add_log (messages r) s in
          let s := if ram_assigned r then s <| ram := pair n <$> ctx_ram r |> else s in
          let s := if mapped r then hold (RamMap n) s else s in
          if negb (code r =? EXIT_SUCCESS) then Ret (Epilogue (code r), s)
          else
            match init_regs_at w n with
            | inl errno => Ret (Return (- errno), s)
            | inr regs => Ret (Next, s <| init_regs := regs |>)
            end
      end
  end.

(** kvm_generic_workaround_kernel_cache_bug() *)
Definition cache_bug (a : run_answer) : bool :=
  match run_exit a, sregs_after a with
  | Some (KVM_EXIT_FAIL_ENTRY reason _), Some sregs => (reason =? Z.lor 0x80000000 33) && (seg_s (ss sregs) =? 0)
  | _, _ => false
  end.

(** The end of the inner loop. *)
Inductive run_end := Leave (f : flow) | Retry | Stopped (result : Z).

Fixpoint run_loop (fuel : nat) (s : kvm_state) : option (outcome (run_end * kvm_state)) :=
  match fuel with
  | O => None
  | S fuel =>
      let j := runs_done s in
      let a := run_at w j in
      let s := s <| runs_done := S j |> in
      match run_exit a with
      | None => Some (Ret (Leave (Epilogue EXIT_FAILURE), s))
      | Some e =>
          let s := s <| ram := prod_map id (memory_after a) <$> ram s |> in
          if cache_bug a then Some (Ret (Retry, add_log [L "d> Working around KVM/VMX bug in caching VMCS"] s))
          else
            match default KVM_EXIT_UNHANDLED ((fun h => h j) <$> exit_handler w) with
            | KVM_EXIT_FAILURE =>
                Some (Ret (Leave (Epilogue EXIT_FAILURE), add_log [L "E> KVM exit handler for VM-Exit " ++ to_string (exit_reason e) ++ L " failed"] s))
            | KVM_EXIT_HANDLED => run_loop fuel s
            | KVM_EXIT_UNHANDLED =>
                match regs_after a with
                | inl errno => Some (Ret (Leave (Return (- errno)), s))
                | inr regs =>
                    match exit_message e (rax regs) with
                    | None => Some (Ret (Stopped EXIT_SUCCESS, s))
                    | Some m => Some (dump ← kvm_log_registers (leaf0d_of w) (fmt_La_of w) (host_xcr0 w) regs a;
                                      Ret (Stopped EXIT_FAILURE, add_log [L "E> " ++ m; dump] s))
                    end
                end
            end
      end
  end.

(** kvm_generic_reset_vcpu() with the registers of the new machine. *)
Definition reset (s : kvm_state) : outcome (bool * kvm_state) :=
  let n := resets s in
  let s := s <| resets := S n |> in
  '(k, g) ← of_option (ram s);
  r ← kvm_generic_reset_vcpu (addr_mode c) (init_regs s) g;
  match r with
  | None => Ret (false, match addr_mode c with
                        | UnsupportedMode mode => add_log [L "W> Unsupported vcpu mode in KVM test " ++ to_string mode ++ L "." ++ [newline]] s
                        | _ => s end)
  | Some (regs, g) =>
      let s := s <| init_regs := regs |> <| ram := Some (k, g) |> in
      Ret (match set_regs_at w n with Some _ => false | None => true end, s)
  end.

(** One round of the outer loop: the result, or that the machine must be run again. *)
Definition round (fuel : nat) (count : Z) (retry : bool) (s : kvm_state) : option (outcome (run_end * kvm_state)) :=
  match (if Z.rem count 127 =? 0 then recycle count s else Ret (Next, s)) with
  | Ret (Next, s) =>
      match reset s with
      | Ret (false, s) => Some (Ret (Leave (Epilogue EXIT_FAILURE), s))
      | Ret (true, s) =>
          let '(result, s) :=
            if retry then (EXIT_SUCCESS, s)
            else match setup_handler w, ram s with
                 | Some h, Some (k, g) => let '(result, g) := h (resets s) g in (result, s <| ram := Some (k, g) |>)
                 | _, _ => (EXIT_SUCCESS, s)
                 end in
          if negb (result =? EXIT_SUCCESS) then Some (Ret (Leave (Epilogue result), s)) else run_loop fuel s
      | Exit e => Some (Exit e)
      | Ub => Some Ub
      end
  | Ret (f, s) => Some (Ret (Leave f, s))
  | Exit e => Some (Exit e)
  | Ub => Some Ub
  end.

(** The outer loop; [n] counts the calls of test_time_condition(). *)
Fixpoint outer_loop (fuel inner : nat) (n : nat) (count : Z) (retry : bool) (s : kvm_state) : option (outcome (flow * kvm_state)) :=
  match fuel with
  | O => None
  | S fuel =>
      match round inner count retry s with
      | None => None
      | Some (Exit e) => Some (Exit e)
      | Some Ub => Some Ub
      | Some (Ret (Leave f, s)) => Some (Ret (f, s))
      | Some (Ret (Retry, s)) => if time_at w n then outer_loop fuel inner (S n) count true s else Some (Ret (Epilogue EXIT_SUCCESS, s))
      | Some (Ret (Stopped result, s)) =>
          let '(result, s) :=
            if result =? EXIT_SUCCESS
            then match check_handler w with Some h => (h (checks s), s <| checks := S (checks s) |>) | None => (result, s) end
            else (result, s) in
          if negb (count <? INT_MAX) then Some Ub
          else if negb (result =? EXIT_SUCCESS) then Some (Ret (Epilogue result, s))
          else if time_at w n then outer_loop fuel inner (S n) (count + 1) false s else Some (Ret (Epilogue EXIT_SUCCESS, s))
      end
  end.

Definition kvm_start : kvm_state :=
  {| vm_fd := None; cpu_fd := None; runs := None; ram := None; init_regs := zero_regs; live := []; vms := 0; runs_done := 0; resets := 0;
     checks := 0; log := [] |}.

(** kvm_generic_run() of a test with a payload. *)
Definition kvm_generic_run (fuel inner : nat) : option (outcome (Z * kvm_state)) :=
  match outer_loop fuel inner 0 0 false kvm_start with
  | None => None
  | Some (Exit e) => Some (Exit e)
  | Some Ub => Some Ub
  | Some (Ret (Return result, s)) => Some (Ret (result, s))
  | Some (Ret (Epilogue result, s)) => Some (s ← release_all s; Ret (result, s))
  | Some (Ret (Next, s)) => Some Ub
  end.
End Run.

(** kvm_generic_init(): what open(), KVM_GET_API_VERSION and KVM_CHECK_EXTENSION
    give (a value or the errno), and errno as it is when no call has failed; the
    result, and whether /dev/kvm stays open. *)
Definition kvm_generic_init (has_config : bool) (kvm_fd version user_memory : Z + Z) (stale_errno : Z) : Z * bool :=
  if negb has_config then (EXIT_FAILURE, false)
  else
    match kvm_fd with
    | inl errno => (- errno, false)
    | inr _ =>
        match version with
        | inl errno => (- errno, false)
        | inr v =>
            if negb (v =? 12) then (- stale_errno, false)
            else
              match user_memory with
              | inl errno => (- errno, false)
              | inr 0 => (EXIT_SKIP, false)
              | inr _ => (EXIT_SUCCESS, true)
              end
        end
    end.

(** kvm_generic_cleanup(): the result, and whether /dev/kvm stays open. *)
Definition kvm_generic_cleanup (kvm_fd : option Z) : Z * option Z := (EXIT_SUCCESS, None).

(** * Facts: what is held *)

(** The context has a resource. *)
Definition held (s : kvm_state) (x : resource) : Prop :=
  match x with
  | VmFd n => vm_fd s = Some n | CpuFd n => cpu_fd s = Some n | RunMap n => runs s = Some n | RamMap n => fst <$> ram s = Some n
  end.

(** The process holds exactly what the context has. *)
Definition res_ok (s : kvm_state) : Prop := forall x, x ∈ live s <-> held s x.

Lemma release_ok r s : (forall x, r = Some x -> x ∈ live s) ->
  exists l, release r s = Ret (s <| live := l |>) /\ forall x, x ∈ l <-> x ∈ live s /\ Some x <> r.
Proof.
  intros H. destruct r as [y|]; simpl.
  - rewrite bool_decide_true by by apply H. eexists. split; [reflexivity|]. intros x. rewrite list_elem_of_filter. split.
    + intros [? ?]. split; [done|congruence].
    + intros [? ?]. split; [congruence|done].
  - exists (live s). split; [by destruct s|]. intros x. split; [by intros ?|by intros [? _]].
Qed.

Lemma release_all_ok s : res_ok s -> release_all s = Ret (s <| live := [] |>).
Proof.
  intros Hs. unfold release_all.
  destruct (release_ok (VmFd <$> vm_fd s) s) as (l1 & -> & H1).
  { intros x (n & Hn & ->)%fmap_Some. by apply Hs. }
  cbn [mbind outcome_bind]. destruct (release_ok (CpuFd <$> cpu_fd s) (s <| live := l1 |>)) as (l2 & H & H2).
  { intros x (n & Hn & ->)%fmap_Some. apply H1. split; [by apply Hs|]. by intros (? & _ & ?)%eq_sym%fmap_Some. }
  change (cpu_fd s <| live := l1 |>) with (cpu_fd s). rewrite H. clear H. cbn [mbind outcome_bind].
  change (live s <| live := l1 |>) with l1 in H2. change (s <| live := l1 |> <| live := l2 |>) with (s <| live := l2 |>).
  destruct (release_ok (RunMap <$> runs s) (s <| live := l2 |>)) as (l3 & H & H3).
  { intros x (n & Hn & ->)%fmap_Some. apply H2. split; [apply H1; split; [by apply Hs|]|]; by intros (? & _ & ?)%eq_sym%fmap_Some. }
  change (runs s <| live := l2 |>) with (runs s). rewrite H. clear H. cbn [mbind outcome_bind].
  change (live s <| live := l2 |>) with l2 in H3. change (s <| live := l2 |> <| live := l3 |>) with (s <| live := l3 |>).
  destruct (release_ok (RamMap <$> (fst <$> ram s)) (s <| live := l3 |>)) as (l4 & H & H4).
  { intros x (n & Hn & ->)%fmap_Some. apply H3. split; [apply H2; split; [apply H1; split; [by apply Hs|]|]|]; by intros (? & _ & ?)%eq_sym%fmap_Some. }
  change (live s <| live := l3 |>) with l3 in H4. change (ram s <| live := l3 |>) with (ram s). rewrite H.
  change (s <| live := l3 |> <| live := l4 |>) with (s <| live := l4 |>). do 2 f_equal. apply elem_of_nil_inv. intros x Hx.
  apply H4 in Hx as [Hx N4]. apply H3 in Hx as [Hx N3]. apply H2 in Hx as [Hx N2]. apply H1 in Hx as [Hx N1].
  apply Hs in Hx. destruct x; simpl in Hx; [destruct N1|destruct N2|destruct N3|destruct N4]; by rewrite Hx.
Qed.

(** * Facts: the setup *)

(** A payload for 16-bit mode fits into the memory; the size for 64-bit mode is a
    size_t. *)
Definition config_ok (c : kvm_config) : Prop :=
  match addr_mode c with
  | KVM_ADDR_MODE_REAL_16BIT => PAYLOAD_GUEST_ENTRY + len (payload c) <= (if u32 (ram_size c) =? 0 then DEFAULT_RAM_SIZE else u32 (ram_size c))
  | KVM_ADDR_MODE_PROTECTED_64BIT => in_u 64 (ram_size c)
  | UnsupportedMode _ => True
  end.

(** errno is positive, and the kernel takes the memory in 64-bit mode. *)
Definition answers_ok (c : kvm_config) (a : setup_answers) : Prop :=
  (forall errno, get_sregs a = inl errno -> 0 < errno) /\
  (addr_mode c = KVM_ADDR_MODE_PROTECTED_64BIT -> set_memory_region a = None).

(** The memory has the part that is reserved in 64-bit mode. *)
Definition large (c : kvm_config) (g : guest) : Prop :=
  addr_mode c = KVM_ADDR_MODE_PROTECTED_64BIT -> GUEST_MEM_PROT64_RESERVED <= mem_size g.

Definition setup_ok (c : kvm_config) (r : setup_result) : Prop :=
  (mapped r = true <-> ctx_ram r <> None) /\ (ctx_ram r <> None -> ram_assigned r = true) /\
  (code r = EXIT_SUCCESS -> exists g, ctx_ram r = Some g /\ large c g).

Lemma setup_real16_ok c a sregs r : addr_mode c = KVM_ADDR_MODE_REAL_16BIT -> config_ok c -> ctx_ram r = None -> mapped r = false -> ram_assigned r = true ->
  exists r', setup_real16 c a sregs r = Ret r' /\ setup_ok c r'.
Proof.
  intros Hm Hc H1 H2 H3. unfold config_ok in Hc. rewrite Hm in Hc. unfold setup_real16. set (sz := if _ =? 0 then _ else _) in *.
  destruct (map_ram a); cbn [negb].
  - destruct (set_memory_region a); [eexists; split; [reflexivity|]; unfold setup_ok; by cbn|].
    destruct (write_bytes_ret PAYLOAD_GUEST_ENTRY (payload c) (zero_guest sz)) as (g & -> & _); [done|done|]. cbn [mbind outcome_bind].
    eexists. split; [reflexivity|]. unfold setup_ok, large. cbn. rewrite Hm. split; [done|]. split; [done|]. intros _. by eexists.
  - eexists. split; [reflexivity|]. unfold setup_ok. cbn. rewrite H1, H2. done.
Qed.

Lemma setup_prot64_ok c a sregs r : in_u 64 (ram_size c) -> set_memory_region a = None -> ctx_ram r = None -> mapped r = false -> ram_assigned r = true ->
  exists r', setup_prot64 c a sregs r = Ret r' /\ setup_ok c r'.
Proof.
  intros Hc Hr H1 H2 H3. unfold setup_prot64. destruct (ram_size_ok (ram_size c) Hc) as (n & Hsz & Hn & _).
  destruct (kvm_prot64_check_ram_size (ram_size c)) as [sz warnings]. simpl in Hsz. subst sz.
  assert (u32 (n * GUEST_PAGE_SIZE) = n * GUEST_PAGE_SIZE) as Hu by (rewrite page_size; apply wrap_u_small; unfold in_u; lia).
  rewrite Hu, Hr. destruct (map_ram a); cbn [negb]; [|eexists; split; [reflexivity|]; unfold setup_ok; cbn; by rewrite H1, H2].
  destruct (setup_paging_ok sregs (n * GUEST_PAGE_SIZE) n eq_refl Hn) as (g2 & -> & S2 & _ & _). cbn [mbind outcome_bind]. rewrite page_size in S2.
  unfold kvm_prot64_setup_segmentation.
  destruct (gdt_to_kvm_segment boot_gdt BOOT_GDT_CODE) as [code_seg| |] eqn:Ec; [|done..].
  destruct (gdt_to_kvm_segment boot_gdt BOOT_GDT_DATA) as [data_seg| |] eqn:Ed; [|done..]. cbn [mbind outcome_bind].
  set (table := concat (le_bytes 8 <$> boot_gdt)). assert (len table = 24) as Ht by (clear; vm_compute; done).
  assert (BOOT_GDT = 2 ^ 21 /\ PAYLOAD_ADDR_PROT64 = 2 ^ 21 + 2 ^ 20) as [HG HP] by done.
  destruct (write_bytes_ret BOOT_GDT table g2) as (g3 & -> & S3 & _); [lia|lia|]. cbn [mbind outcome_bind].
  destruct (set_sregs a); [eexists; split; [reflexivity|]; unfold setup_ok; by cbn|].
  case_match; [eexists; split; [reflexivity|]; unfold setup_ok; by cbn|].
  unfold kvm_prot64_setup_payload. destruct (Z.ltb_spec (mem_size g3) (len (payload c) + PAYLOAD_ADDR_PROT64)).
  - cbn [mbind outcome_bind]. eexists. split; [reflexivity|]. unfold setup_ok. by cbn.
  - destruct (write_bytes_ret PAYLOAD_ADDR_PROT64 (payload c) g3) as (g & -> & S4 & _); [lia|lia|]. cbn [mbind outcome_bind].
    eexists. split; [reflexivity|]. unfold setup_ok. cbn. split; [done|]. split; [done|]. intros _. exists g. split; [done|]. intros _.
    rewrite S4, S3, S2. change GUEST_MEM_PROT64_RESERVED with (2 ^ 22). lia.
Qed.

Lemma setup_vcpu_ok c a : config_ok c -> answers_ok c a -> exists r, kvm_generic_setup_vcpu c a = Ret r /\ setup_ok c r.
Proof.
  intros Hc [He Hr]. unfold kvm_generic_setup_vcpu. destruct (supported_cpuid a); [eexists; split; [reflexivity|]; by cbn|].
  destruct (set_cpuid2 a); [eexists; split; [reflexivity|]; by cbn|].
  destruct (get_sregs a) as [errno|sregs]; [eexists; split; [reflexivity|]; unfold setup_ok; cbn; specialize (He _ eq_refl); unfold EXIT_SUCCESS; split; [done|split; [done|lia]]|].
  unfold config_ok in Hc. destruct (addr_mode c) eqn:Em.
  - apply setup_real16_ok; [done|unfold config_ok; by rewrite Em|done..].
  - apply setup_prot64_ok; [done|by apply Hr|done..].
  - eexists. split; [reflexivity|]. by cbn.
Qed.

(** * Facts: the loop *)

Section RunFacts.
Context (w : kvm_world) (c : kvm_config).
Context (Hconfig : config_ok c) (Hanswers : forall n, answers_ok c (setup_at w n)).
Context (Hinit : forall n errno, init_regs_at w n = inl errno -> 0 < errno).
Context (Hregs : forall j errno, regs_after (run_at w j) = inl errno -> 0 < errno).
Context (Hmem : forall j g, mem_size (memory_after (run_at w j) g) = mem_size g).
Context (Hhandler : forall h j g, setup_handler w = Some h -> mem_size (h j g).2 = mem_size g).
Context (Hdump : forall j regs, exists text, kvm_log_registers (leaf0d_of w) (fmt_La_of w) (host_xcr0 w) regs (run_at w j) = Ret text).

(** The test's handler took the exit of the j-th run, and the machine goes on. *)
Definition handled (j : nat) : bool :=
  match run_exit (run_at w j) with
  | Some _ => negb (cache_bug (run_at w j)) &&
      match exit_handler w with Some h => match h j with KVM_EXIT_HANDLED => true | _ => false end | None => false end
  | None => false
  end.

(** A run that is fine: its exit was handled, the kernel's bug made it be repeated,
    or the guest halted with zero in rax. *)
Definition run_fine (j : nat) : Prop :=
  handled j = true \/ cache_bug (run_at w j) = true \/
  (run_exit (run_at w j) = Some KVM_EXIT_HLT /\ exists regs, regs_after (run_at w j) = inr regs /\ rax regs = 0).

(** The registers of a machine could not be read, before it ran or after a run. *)
Definition get_regs_failed (result : Z) : Prop :=
  exists errno, result = - errno /\ ((exists n, init_regs_at w n = inl errno) \/ exists j, regs_after (run_at w j) = inl errno).

(** The machine has its memory. *)
Definition room (s : kvm_state) : Prop := exists k g, ram s = Some (k, g) /\ large c g.

Lemma recycle_ok count s : res_ok s -> (count = 0 -> forall x, ~ held s x) ->
  exists f s', recycle w c count s = Ret (f, s') /\ res_ok s' /\ runs_done s' = runs_done s /\ checks s' = checks s /\
    match f with Next => room s' | Epilogue r => r <> EXIT_SUCCESS | Return r => get_regs_failed r end.
Proof using All.
  intros Hs H0. unfold recycle.
  assert (exists s0, (if count =? 0 then Ret s else s ← release_all s; Ret (s <| vm_fd := None |> <| cpu_fd := None |> <| runs := None |> <| ram := None |>)) = Ret s0 /\
    live s0 = [] /\ vm_fd s0 = None /\ cpu_fd s0 = None /\ runs s0 = None /\ ram s0 = None /\ runs_done s0 = runs_done s /\ checks s0 = checks s)
    as (s0 & -> & L0 & V0 & C0 & R0 & M0 & D0 & K0).
  { destruct (Z.eqb_spec count 0) as [E|E].
    - specialize (H0 E). exists s. split; [done|]. split; [apply elem_of_nil_inv; intros x Hx%Hs; by apply (H0 x)|].
      split; [destruct (vm_fd s) as [n|] eqn:E1; [by destruct (H0 (VmFd n))|done]|].
      split; [destruct (cpu_fd s) as [n|] eqn:E1; [by destruct (H0 (CpuFd n))|done]|].
      split; [destruct (runs s) as [n|] eqn:E1; [by destruct (H0 (RunMap n))|done]|].
      split; [destruct (ram s) as [[n g]|] eqn:E1; [by destruct (H0 (RamMap n)); simpl; rewrite E1|done]|done].
    - rewrite (release_all_ok s Hs). cbn [mbind outcome_bind]. eexists. split; [reflexivity|]. by cbn. }
  cbn [mbind outcome_bind]. set (n := vms s0). destruct s0 as [vm0 cpu0 runs0 ram0 regs0 live0 vms0 done0 resets0 checks0 log0]. simpl in *. subst.
  destruct (create_vm_at w n).
  2: { eexists _, _. split; [reflexivity|]. split; [intros x; cbn; rewrite elem_of_nil; by destruct x|]. by cbn. }
  2: { eexists _, _. split; [reflexivity|]. split; [intros x; cbn; rewrite elem_of_nil; by destruct x|]. by cbn. }
  unfold kvm_generic_add_vcpu. destruct (mmap_size_at w n); cbn [negb orb].
  2: { eexists _, _. split; [reflexivity|]. split; [intros x; cbn; rewrite list_elem_of_singleton; destruct x; split; by intros [= ->]|]. by cbn. }
  destruct (create_vcpu_at w n); cbn [negb orb].
  2: { eexists _, _. split; [reflexivity|]. split; [intros x; cbn; rewrite list_elem_of_singleton; destruct x; split; by intros [= ->]|]. by cbn. }
  destruct (map_runs_at w n); cbn [negb orb].
  2: { eexists _, _. split; [reflexivity|]. split; [intros x; cbn; rewrite list_elem_of_singleton; destruct x; split; by intros [= ->]|]. by cbn. }
  destruct (setup_vcpu_ok c (setup_at w n) Hconfig (Hanswers n)) as (r & Hr & Hmap & Hasg & Hcode). cbn. rewrite Hr. cbn [mbind outcome_bind].
  destruct (ctx_ram r) as [g|] eqn:Eg.
  - rewrite (Hasg ltac:(done)), (proj2 Hmap ltac:(done)). cbn.
    assert (res_ok {| vm_fd := Some n; cpu_fd := Some n; runs := Some n; ram := Some (n, g); init_regs := regs0; live := [RamMap n; RunMap n; CpuFd n; VmFd n];
      vms := S vms0; runs_done := runs_done s; resets := resets0; checks := checks s; log := log0 ++ messages r |}) as Hok.
    { intros x. cbn. rewrite !elem_of_cons, elem_of_nil. destruct x; naive_solver. }
    destruct (Z.eqb_spec (code r) EXIT_SUCCESS) as [E|E]; cbn; [|eexists _, _; split; [reflexivity|]; split; [exact Hok|]; by cbn].
    destruct (init_regs_at w n) as [errno|regs] eqn:Ei.
    { eexists _, _. split; [reflexivity|]. split; [exact Hok|]. split; [done|]. split; [done|]. exists errno. split; [done|]. left. by exists n. }
    eexists _, _. split; [reflexivity|]. split; [exact Hok|]. cbn. do 2 (split; [done|]).
    destruct (Hcode E) as (g' & [= <-] & Hg). by exists n, g.
  - assert (mapped r = false) as -> by (destruct (mapped r); [by destruct (proj1 Hmap eq_refl)|done]).
    destruct (Z.eqb_spec (code r) EXIT_SUCCESS) as [E|E]; [by destruct (Hcode E) as (? & ? & _)|]. cbn.
    eexists _, _. split; [reflexivity|]. split; [|by destruct (ram_assigned r)].
    intros x. destruct (ram_assigned r); cbn; rewrite !elem_of_cons, elem_of_nil; destruct x; naive_solver.
Qed.

(** Running the machine changes nothing that is held. *)
Definition same_res (s s' : kvm_state) : Prop :=
  live s' = live s /\ checks s' = checks s /\ (forall x, held s' x <-> held s x) /\ (room s -> room s').

Lemma same_res_trans s1 s2 s3 : same_res s1 s2 -> same_res s2 s3 -> same_res s1 s3.
Proof using Type. intros (A1 & A2 & A3 & A4) (B1 & B2 & B3 & B4). split; [congruence|]. split; [congruence|]. split; [intros x; by rewrite B3|auto]. Qed.
Lemma same_res_ok s s' : same_res s s' -> res_ok s -> res_ok s'.
Proof using Type. intros (A1 & _ & A3 & _) H x. rewrite A1, A3. apply H. Qed.

Lemma run_loop_ok fuel : forall s, (exists i, (i < fuel)%nat /\ handled (runs_done s + i) = false) ->
  exists e s' j, run_loop w fuel s = Some (Ret (e, s')) /\ same_res s s' /\ runs_done s' = S j /\ (runs_done s <= j)%nat /\
    (forall k, (runs_done s <= k < j)%nat -> handled k = true) /\ handled j = false /\
    match e with
    | Leave (Epilogue r) => r <> EXIT_SUCCESS
    | Leave (Return r) => get_regs_failed r
    | Leave Next => False
    | Retry => cache_bug (run_at w j) = true
    | Stopped r => r = EXIT_SUCCESS -> run_fine j
    end.
Proof using All.
  induction fuel as [|fuel IH]; intros s (i & Hi & Hh); [lia|]. cbn [run_loop]. set (j := runs_done s) in *.
  destruct (run_exit (run_at w j)) as [e|] eqn:Ee.
  2: { eexists _, _, j. split; [reflexivity|]. split; [by cbn|]. split; [done|]. split; [done|]. split; [lia|]. split; [unfold handled; by rewrite Ee|done]. }
  assert (forall m, same_res s (add_log m ((s <| runs_done := S j |>) <| ram := prod_map id (memory_after (run_at w j)) <$> ram s |>))) as Hsame.
  { intros m. split; [done|]. split; [done|]. split; [intros []; cbn; by destruct (ram s) as [[]|]|]. intros (k & g & Hg & Hl). cbn. rewrite Hg. exists k, (memory_after (run_at w j) g). split; [done|]. intros Hm. rewrite Hmem. auto. }
  destruct (cache_bug (run_at w j)) eqn:Eb.
  { eexists _, _, j. split; [reflexivity|]. split; [apply Hsame|]. split; [done|]. split; [done|]. split; [lia|]. split; [unfold handled; by rewrite Ee, Eb|done]. }
  destruct (default KVM_EXIT_UNHANDLED ((fun h => h j) <$> exit_handler w)) eqn:Eh.
  - assert (handled j = true) as Hj by (unfold handled; rewrite Ee, Eb; destruct (exit_handler w) as [h|]; simpl in *; [by rewrite Eh|done]).
    destruct i as [|i]; [rewrite Nat.add_0_r in Hh; congruence|].
    destruct (IH (s <| runs_done := S j |> <| ram := prod_map id (memory_after (run_at w j)) <$> ram s |>)) as (e' & s' & j' & H1 & H2 & H3 & H4 & H5 & H6);
      [exists i; split; [lia|]; cbn; replace (S (j + i)) with (j + S i)%nat by lia; done|].
    exists e', s', j'. split; [exact H1|]. cbn in H4, H5. split; [eapply same_res_trans; [|exact H2]; specialize (Hsame []); unfold add_log in Hsame; cbn in *; by rewrite app_nil_r in Hsame|].
    split; [done|]. split; [lia|]. split; [|done]. intros k Hk. destruct (decide (k = j)) as [->|]; [done|]. apply H5. lia.
  - assert (handled j = false) as Hj by (unfold handled; rewrite Ee, Eb; destruct (exit_handler w) as [h|]; simpl in *; [by rewrite Eh|done]).
    destruct (regs_after (run_at w j)) as [errno|regs] eqn:Er.
    { eexists _, _, j. split; [reflexivity|]. split; [specialize (Hsame []); unfold add_log in Hsame; cbn in *; by rewrite app_nil_r in Hsame|].
      split; [done|]. split; [done|]. split; [lia|]. split; [done|]. exists errno. split; [done|]. right. by exists j. }
    destruct (exit_message e (rax regs)) as [m|] eqn:Em.
    + destruct (Hdump j regs) as [text ->]. cbn [mbind outcome_bind].
      eexists _, _, j. split; [reflexivity|]. split; [apply Hsame|]. split; [done|]. split; [done|]. split; [lia|]. done.
    + eexists _, _, j. split; [reflexivity|].
      split; [specialize (Hsame []); unfold add_log in Hsame; cbn in *; by rewrite app_nil_r in Hsame|]. split; [done|]. split; [done|]. split; [lia|].
      split; [done|]. intros _. right; right. unfold exit_message in Em. destruct e; try discriminate Em. rewrite Ee. split; [done|]. exists regs.
      destruct (Z.eqb_spec (rax regs) 0); done.
  - assert (handled j = false) as Hj by (unfold handled; rewrite Ee, Eb; destruct (exit_handler w) as [h|]; simpl in *; [by rewrite Eh|done]).
    eexists _, _, j. split; [reflexivity|]. split; [apply Hsame|]. split; [done|]. split; [done|]. split; [lia|]. done.
Qed.
(** Resetting the processor keeps what is held. *)
Lemma reset_ok s : room s -> exists b s', reset w c s = Ret (b, s') /\ same_res s s' /\ runs_done s' = runs_done s.
Proof using All.
  intros (k & g & Hg & Hl). unfold reset. cbn [resets]. change (ram (s <| resets := S (resets s) |>)) with (ram s). rewrite Hg. cbn [of_option mbind outcome_bind].
  assert (forall m, same_res s (add_log m (s <| resets := S (resets s) |>))) as Hlog.
  { intros m. split; [done|]; split; [done|]; split; [by intros []|]; intros; by exists k, g. }
  unfold kvm_generic_reset_vcpu. destruct (addr_mode c) eqn:Em.
  3: { cbn [mbind outcome_bind]. eexists _, _. split; [reflexivity|]. split; [exact (Hlog _)|done]. }
  2: rewrite (proj2 (Z.leb_le _ _) (Hl Em)); cbn [assertion].
  all: cbn [mbind outcome_bind]; eexists _, _; split; [reflexivity|]; split; [|done]; split; [done|]; split; [done|];
    split; [intros []; simpl; by rewrite ?Hg|]; intros _; eexists _, _; (split; [reflexivity|]); intros Hm; try congruence; by apply Hl.
Qed.

(** What the end of a round says of its runs. *)
Definition round_end (s s' : kvm_state) (e : run_end) : Prop :=
  match e with
  | Leave (Epilogue r) => r <> EXIT_SUCCESS
  | Leave (Return r) => get_regs_failed r
  | Leave Next => False
  | Retry => room s' /\ (forall j, runs_done s <= j < runs_done s' -> run_fine j)%nat /\
      (exists j, (runs_done s <= j)%nat /\ cache_bug (run_at w j) = true /\ forall k, (runs_done s <= k < j)%nat -> handled k = true)
  | Stopped r => room s' /\ (r = EXIT_SUCCESS -> forall j, runs_done s <= j < runs_done s' -> run_fine j)%nat
  end.

Lemma run_loop_end fuel s s0 : res_ok s -> room s -> checks s = checks s0 -> runs_done s = runs_done s0 ->
  (exists i, (i < fuel)%nat /\ handled (runs_done s0 + i) = false) ->
  exists e s', run_loop w fuel s = Some (Ret (e, s')) /\ res_ok s' /\ checks s' = checks s0 /\ (runs_done s0 <= runs_done s')%nat /\ round_end s0 s' e.
Proof using All.
  intros Hs Hroom Hc Hd Hi. destruct (run_loop_ok fuel s ltac:(by rewrite Hd)) as (e & s' & j & -> & Hsame & Hj & Hle & Hbefore & _ & He). rewrite Hd in *.
  exists e, s'. split; [done|]. split; [by eapply same_res_ok|]. pose proof Hsame as (_ & -> & _ & Hr). split; [done|]. split; [lia|].
  destruct e as [[]| |r]; cbn; [done..| |].
  - split; [auto|]. split; [|by exists j]. intros i Hij. destruct (decide (i = j)) as [->|]; [by right; left|]. left. apply Hbefore. lia.
  - split; [auto|]. intros Hr0 i Hij. destruct (decide (i = j)) as [->|]; [auto|]. left. apply Hbefore. lia.
Qed.

Lemma round_ok fuel count retry s : res_ok s -> (count = 0 -> forall x, ~ held s x) -> (Z.rem count 127 <> 0 -> room s) ->
  (exists i, (i < fuel)%nat /\ handled (runs_done s + i) = false) ->
  exists e s', round w c fuel count retry s = Some (Ret (e, s')) /\ res_ok s' /\ checks s' = checks s /\ (runs_done s <= runs_done s')%nat /\ round_end s s' e.
Proof using All.
  intros Hs H0 Hroom Hi. unfold round.
  assert (exists f s1, (if Z.rem count 127 =? 0 then recycle w c count s else Ret (Next, s)) = Ret (f, s1) /\ res_ok s1 /\ runs_done s1 = runs_done s /\
    checks s1 = checks s /\ match f with Next => room s1 | Epilogue r => r <> EXIT_SUCCESS | Return r => get_regs_failed r end) as (f & s1 & -> & R1 & D1 & C1 & F1).
  { destruct (Z.eqb_spec (Z.rem count 127) 0) as [E|E]; [by apply recycle_ok|]. eexists _, _. split; [reflexivity|]. auto. }
  destruct f as [r|r|]; [eexists _, _; split; [reflexivity|]; split; [done|]; split; [done|]; split; [lia|done]..|].
  destruct (reset_ok s1 F1) as (b & s2 & -> & Hsame & D2). pose proof (same_res_ok _ _ Hsame R1) as R2. destruct Hsame as (_ & C2 & _ & M2). specialize (M2 F1).
  destruct b; [|eexists _, _; split; [reflexivity|]; split; [done|]; split; [congruence|]; split; [lia|done]].
  assert (exists r s3, (if retry then (EXIT_SUCCESS, s2) else match setup_handler w, ram s2 with
      | Some h, Some (k, g) => let '(result, g) := h (resets s2) g in (result, s2 <| ram := Some (k, g) |>) | _, _ => (EXIT_SUCCESS, s2) end) = (r, s3) /\
      res_ok s3 /\ room s3 /\ checks s3 = checks s2 /\ runs_done s3 = runs_done s2) as (r & s3 & -> & R3 & M3 & C3 & D3).
  { destruct retry; [by eexists _, _|]. destruct (setup_handler w) as [h|] eqn:Eh; [|by eexists _, _]. destruct M2 as (k & g & Eg & Hg). rewrite Eg.
    pose proof (Hhandler h (resets s2) g ltac:(done)) as Hm. destruct (h (resets s2) g) as [r g']. eexists _, _. split; [reflexivity|].
    split; [intros x; cbn; rewrite (R2 x); destruct x; simpl; by rewrite ?Eg|]. split; [|done]. exists k, g'. split; [done|]. simpl in Hm. unfold large. rewrite Hm. done. }
  destruct (Z.eqb_spec r EXIT_SUCCESS) as [E|E]; cbn [negb]; [|eexists _, _; split; [reflexivity|]; split; [done|]; split; [congruence|]; split; [lia|done]].
  apply run_loop_end; [done|done|congruence|congruence|done].
Qed.

(** The loop ends when the time is over, and everything it reports is fine. *)
Context (N H : nat) (Hsmall : Z.of_nat N < INT_MAX) (Htime : time_at w N = false).
Context (Hguest : forall j, exists i, (i <= H)%nat /\ handled (j + i) = false).
Context (Hfirst : forall j, cache_bug (run_at w j) = true -> exists i, (i < j)%nat /\ handled i = false).

Definition all_fine (s : kvm_state) : Prop :=
  (forall j, (j < runs_done s)%nat -> run_fine j) /\ (forall h k, check_handler w = Some h -> (k < checks s)%nat -> h k = EXIT_SUCCESS).

Lemma outer_loop_ok fuel : forall n count retry s, (n + fuel = S N)%nat -> 0 <= count <= Z.of_nat n -> res_ok s ->
  (count = 0 -> runs_done s = 0%nat /\ forall x, ~ held s x) -> (Z.rem count 127 <> 0 -> room s) -> all_fine s ->
  (n <= N)%nat ->
  exists f s', outer_loop w c fuel (S H) n count retry s = Some (Ret (f, s')) /\ res_ok s' /\
    match f with Epilogue r => r = EXIT_SUCCESS -> all_fine s' | Return r => get_regs_failed r | Next => False end.
Proof using All.
  induction fuel as [|fuel IH]; intros n count retry s Hn Hcount Hs H0 Hroom [Hfine Hchecks] HnN; [lia|]. cbn [outer_loop].
  destruct (Hguest (runs_done s)) as (i & Hi & Hh).
  destruct (round_ok (S H) count retry s Hs ltac:(apply H0) Hroom ltac:(exists i; split; [lia|done])) as (e & s1 & -> & R1 & C1 & D1 & He).
  assert ((n = N /\ time_at w n = false) \/ (n < N)%nat) as Hend by (destruct (decide (n = N)) as [->|]; [by left|right; lia]).
  assert (forall j, (j < runs_done s1)%nat -> (forall j, (runs_done s <= j < runs_done s1)%nat -> run_fine j) -> run_fine j) as Hjoin.
  { intros j Hj Hnew. destruct (decide (j < runs_done s)%nat); [by apply Hfine|apply Hnew; lia]. }
  destruct e as [[r|r|]| |r]; cbn in He; [eexists _, _; split; [reflexivity|]; done|eexists _, _; split; [reflexivity|]; done|done| |].
  - destruct He as (M1 & Hnew & j & Hj & Hb & Hbefore).
    assert (count <> 0) as Hc. { intros ->. destruct (H0 eq_refl) as [Hz _]. destruct (Hfirst j Hb) as (k & Hk & E). rewrite Hbefore in E by lia. done. }
    assert (all_fine s1) as Hall by (split; [auto|rewrite C1; exact Hchecks]).
    destruct Hend as [[-> ->]|Hlt]; [eexists _, _; split; [reflexivity|]; done|]. destruct (time_at w n); [|eexists _, _; split; [reflexivity|]; done].
    apply IH; [lia|lia|done|by intros ->|done|done|lia].
  - destruct He as [M1 Hnew]. rewrite (proj2 (Z.ltb_lt count INT_MAX)) by lia. cbn [negb]. destruct (Z.eqb_spec r EXIT_SUCCESS) as [->|E].
    2: { destruct (Z.eqb_spec r EXIT_SUCCESS); [done|]. eexists _, _. split; [reflexivity|]. done. }
    assert (exists r2 s2, match check_handler w with Some h => (h (checks s1), s1 <| checks := S (checks s1) |>) | None => (EXIT_SUCCESS, s1) end = (r2, s2) /\
      res_ok s2 /\ room s2 /\ (r2 = EXIT_SUCCESS -> all_fine s2)) as (r2 & s2 & -> & R2 & M2 & F2).
    { destruct (check_handler w) as [h|] eqn:Eh; eexists _, _; (split; [reflexivity|]); split; [done| |done|]; (split; [done|]).
      - intros Er. split; [auto|]. intros h' k. rewrite Eh. intros [= <-] Hk. cbn in Hk. destruct (decide (k = checks s1)) as [->|]; [done|].
        apply Hchecks; [done|lia].
      - intros _. split; [auto|rewrite Eh; done]. }
    destruct (Z.eqb_spec r2 EXIT_SUCCESS) as [->|E]; cbn [negb]; [|eexists _, _; split; [reflexivity|]; done].
    destruct Hend as [[-> ->]|Hlt]; [eexists _, _; split; [reflexivity|]; auto|]. destruct (time_at w n); [|eexists _, _; split; [reflexivity|]; auto].
    apply IH; [lia|lia|done|lia|auto|auto|lia].
Qed.

(** C7. A test in a virtual machine comes to its end as soon as the time is over; it
    passes only when every run of a machine was fine and every check of the test
    succeeded, and it releases everything it holds, each thing once, unless the
    kernel could not read the registers of a machine: then it returns that error and
    releases nothing (the Example get_regs_failure_leaks). The conditions: the payload fits
    into the memory; errno is positive when a call fails; the kernel takes the memory of a
    64-bit guest; the handlers of the test and the guest do not change its size; a
    machine comes to an exit that the test does not handle within H further runs;
    the time is over within N rounds, fewer than INT_MAX; the dump of the registers
    of a machine that failed stays within the area it reads (kvm_log_registers() is defined on what the
    kernel answers); and the kernel's bug that makes a round be repeated does not
    show in the first round (the Example first_round_retry_leaks says what
    happens then: the first machine is never closed). *)
Theorem kvm_run_ends :
  exists result s, kvm_generic_run w c (S N) (S H) = Some (Ret (result, s)) /\
    (live s = [] \/ (get_regs_failed result /\ result <> EXIT_SUCCESS /\ forall x, x ∈ live s <-> held s x)) /\
    (result = EXIT_SUCCESS -> (forall j, (j < runs_done s)%nat -> run_fine j) /\
                              (forall h k, check_handler w = Some h -> (k < checks s)%nat -> h k = EXIT_SUCCESS)).
Proof using All.
  destruct (outer_loop_ok (S N) 0 0 false kvm_start) as (f & s & Hloop & Hs & Hr);
    [done|lia|intros []; simpl; by rewrite elem_of_nil|by split; [|intros [] ?]|done|by split; intros; simpl in *; lia|lia|].
  unfold kvm_generic_run. rewrite Hloop. destruct f as [r|r|]; [rewrite (release_all_ok s Hs); cbn [mbind outcome_bind]| |done].
  - eexists _, _. split; [reflexivity|]. split; [by left|]. exact Hr.
  - assert (r <> EXIT_SUCCESS) as Hne.
    { destruct Hr as (errno & -> & [(n & Hn%Hinit)|(j & Hj%Hregs)]); unfold EXIT_SUCCESS; lia. }
    eexists _, _. split; [reflexivity|]. split; [by right|done].
Qed.
End RunFacts.

(** * Worlds *)

(** The n-th run ends with the exit [e n], with zero in rax. *)
Definition world (e : nat -> kvm_exit) (sregs : option kvm_sregs) (regs : Z + kvm_regs) (handler : option (nat -> kvm_exit_code_t)) (time : nat -> bool) : kvm_world :=
  {| create_vm_at := fun _ => VmCreated; mmap_size_at := fun _ => true; create_vcpu_at := fun _ => true; map_runs_at := fun _ => true;
     setup_at := fun _ => accepting; init_regs_at := fun _ => inr zero_regs; set_regs_at := fun _ => None;
     run_at := fun j => {| run_exit := Some (e j); regs_after := regs; sregs_after := sregs; xcr0_after := None; check_xsave2 := 0; xsave_area := None;
                           get_fpu := false; memory_after := id |};
     setup_handler := Some (fun _ g => (EXIT_SUCCESS, g)); exit_handler := handler; check_handler := Some (fun _ => EXIT_SUCCESS);
     time_at := time; leaf0d_of := fun _ => (0, 0); fmt_La_of := fun _ _ => []; host_xcr0 := None |}.

(** Each machine writes to a port, which the test handles, and then halts. *)
Definition port_then_halt (rounds : nat) : kvm_world :=
  world (fun j => if Nat.even j then KVM_EXIT_IO 1 1 0x80 1 0 else KVM_EXIT_HLT) None (inr zero_regs)
        (Some (fun j => if Nat.even j then KVM_EXIT_HANDLED else KVM_EXIT_UNHANDLED)) (fun n => (n <? rounds)%nat).

Lemma kvm_run_ends_witness :
  exists result s, kvm_generic_run (port_then_halt 2) halting 3 2 = Some (Ret (result, s)) /\
    (live s = [] \/ (get_regs_failed (port_then_halt 2) result /\ result <> EXIT_SUCCESS /\ forall x, x ∈ live s <-> held s x)) /\
    (result = EXIT_SUCCESS -> (forall j, (j < runs_done s)%nat -> run_fine (port_then_halt 2) j) /\
                              (forall h k, check_handler (port_then_halt 2) = Some h -> (k < checks s)%nat -> h k = EXIT_SUCCESS)).
Proof.
  apply (kvm_run_ends (port_then_halt 2) halting).
  - unfold config_ok, in_u. simpl. lia.
  - intros n. by split.
  - done.
  - done.
  - done.
  - by intros h j g [= <-].
  - intros j regs. eexists. reflexivity.
  - unfold INT_MAX. lia.
  - reflexivity.
  - intros j. destruct (Nat.even j) eqn:E; [exists 1%nat|exists 0%nat]; (split; [lia|]); unfold handled; simpl; rewrite ?Nat.add_0_r, ?E; [|done].
    by rewrite Nat.add_1_r, Nat.even_succ, <- Nat.negb_even, E.
  - intros j. unfold cache_bug. simpl. by destruct (Nat.even j).
Defined.

(** That machine in 16-bit mode: two handled exits and two halts in two rounds, and
    the test passes. *)
Definition halting16 : kvm_config := {| addr_mode := KVM_ADDR_MODE_REAL_16BIT; ram_size := 0; payload := [0xf4] |}.
Example two_rounds_pass :
  (fun o => match o with Some (Ret (r, s)) => Some (r, live s, vms s, runs_done s, checks s) | _ => None end)
    (kvm_generic_run (port_then_halt 1) halting16 2 2) = Some (EXIT_SUCCESS, [], 1%nat, 4%nat, 2%nat).
Proof. vm_compute. reflexivity. Qed.

(** When the kernel's bug shows in the first round, the round is repeated with the
    count still at zero: a second machine is created and the first is never closed. *)
Example first_round_retry_leaks :
  (fun o => match o with Some (Ret (r, s)) => Some (r, live s) | _ => None end)
    (kvm_generic_run (world (fun j => match j with O => KVM_EXIT_FAIL_ENTRY (Z.lor 0x80000000 33) 0 | _ => KVM_EXIT_HLT end) (Some zero_sregs) (inr zero_regs) None
                            (fun n => (n <? 1)%nat)) halting16 2 1)
  = Some (EXIT_SUCCESS, [RamMap 0; RunMap 0; CpuFd 0; VmFd 0]).
Proof. vm_compute. reflexivity. Qed.

(** When the registers cannot be read, the function returns without releasing
    anything. *)
Example get_regs_failure_leaks :
  (fun o => match o with Some (Ret (r, s)) => Some (r, live s) | _ => None end)
    (kvm_generic_run (world (fun _ => KVM_EXIT_HLT) None (inl 5) None (fun _ => false)) halting16 1 1)
  = Some (-5, [RamMap 0; RunMap 0; CpuFd 0; VmFd 0]).
Proof. vm_compute. reflexivity. Qed.

(** Another version of the interface than 12 gives "- errno" although no call has
    failed: with errno at zero the test goes on, and /dev/kvm is closed. *)
Lemma wrong_version_accepted v um : v <> 12 -> kvm_generic_init true (inr 3) (inr v) um 0 = (EXIT_SUCCESS, false).
Proof. intros Hv. unfold kvm_generic_init. simpl. by rewrite (proj2 (Z.eqb_neq _ _) Hv). Qed.
