(* ===== verification/Ifs.v ===== *)
(** The In-Field Scan tests (src/tests/ifs/ifs.c and sandstone_ifs.c): choosing the
    image the kernel's driver loads, starting a scan and reading its verdict.

    The driver is a parameter: a type of device states with the calls on the files of
    its directory in /sys. errno is part of the state, because the code looks at it
    after calls that did not fail. *)

From S2P Require Import Prelude CStdlib Logging Knobs Report Runner.

Definition OSResourceIssueSkipCategory : Z := 4.
Definition OsNotSupportedSkipCategory : Z := 5.
Definition ENOENT : Z := 2.
Definition EAGAIN : Z := 11.
Definition ERANGE : Z := 34.
Definition DEFAULT_TEST_ID : Z := 1.
Definition BUFLEN : nat := 256.
Definition IFS_SW_TIMEOUT : Z := 0xFD.
Definition IFS_SW_PARTIAL_COMPLETION : Z := 0xFE.
Definition IFS_SW_SCAN_CANNOT_START : Z := 0x6.

(** * The driver *)

Inductive ifs_file := status | details | image_version_file | current_batch | run_test.
Inductive open_flags := O_RDONLY | O_WRONLY | O_RDWR.
(** What write() gives: all of it written, an error, or less than all. *)
Inductive write_result := Written | WriteError (errno : Z) | WriteShort.

Record Driver (D : Type) := {
  open_dir : D -> option Z;  (** the errno when it fails *)
  modprobe : D -> D;
  open_of : D -> ifs_file -> open_flags -> option Z;
  read_of : D -> ifs_file -> Z + str;
  write_of : D -> ifs_file -> str -> write_result * D }.
Arguments open_dir {D} d.
Arguments modprobe {D} d.
Arguments open_of {D} d.
Arguments read_of {D} d.
Arguments write_of {D} d.

(** * Buffers *)

Definition NUL_char : ascii := char_of 0.
Definition quote_char : ascii := char_of 34.
Abbreviation buffer := (list ascii) (only parsing).

(** The string in a buffer; without a terminator the functions that take a string
    read past its end. *)
Definition cstring (buf : buffer) : outcome str :=
  match span (fun c => negb (char_eqb c NUL_char)) buf with
  | (s, _ :: _) => Ret s
  | (_, []) => Ub
  end.
(** sprintf() and strncpy() into a buffer, and memcmp() with the text of a literal. *)
Definition put_string (s : str) (buf : buffer) : buffer := s ++ NUL_char :: drop (S (length s)) buf.
Definition strncpy (s : str) : buffer := s ++ replicate (BUFLEN - length s) NUL_char.
Definition begins (literal : str) (buf : buffer) : bool := bool_decide (take (length literal) buf = literal).

(** The loop of read_file_fd(). *)
Fixpoint trim_newlines (n : nat) (buf : buffer) : nat * buffer :=
  match n with
  | O => (O, buf)
  | S k => if bool_decide (buf !! k = Some newline) then trim_newlines k (<[k := NUL_char]> buf) else (n, buf)
  end.

(** compare_error_codes() *)
Definition compare_error_codes (code expected : Z) : bool := Z.land (Z.shiftr code 32) 0xFF =? expected.

(** sscanf(result, "%llx", &code) == 1, and the code: "0x" needs a digit after it. *)
Definition sscanf_llx (s : str) : option Z :=
  let s1 := (span isspace s).2 in
  let s2 := match s1 with "-"%char :: r | "+"%char :: r => r | _ => s1 end in
  let bare := match s2 with
              | "0"%char :: x :: r => ((code x =? 120) || (code x =? 88)) && negb (match r with d :: _ => is_digit 16 d | [] => false end)
              | _ => false
              end in
  if bare then None else (fun _ => (strtoull 16 s).1.1) <$> strto 16 s.

(** * The state of a test *)

Inductive ifs_log := LogSkip (category : Z) (msg : str) | LogInfo (msg : str) | LogDebug (msg : str) | LogError (msg : str).
Inductive ifs_fd := DirFd | BatchFd.
#[export] Instance ifs_fd_eq_dec : EqDecision ifs_fd.
Proof. solve_decision. Defined.

(** ifs_test_t in memory that malloc() gave, errno, the device, the messages, and the
    descriptors that are open. *)
Record ifs_state (D : Type) := {
  errno : Z; dev : D; image_support : bool; image_id : buffer; image_version : buffer; msgs : list ifs_log; fds : list ifs_fd }.
Arguments errno {D} i.
Arguments dev {D} i.
Arguments image_support {D} i.
Arguments image_id {D} i.
Arguments image_version {D} i.
Arguments msgs {D} i.
Arguments fds {D} i.
#[export] Instance eta_ifs_state {D} : Eta (ifs_state D) := fun s =>
  Build_ifs_state D (errno s) (dev s) (image_support s) (image_id s) (image_version s) (msgs s) (fds s).

Section Ifs.
Context {D : Type} (drv : Driver D) (strerror : Z -> str).
Context (knobs : Knobs) (test_id : str) (sys_dir : str) (is_retry : bool).

Definition say (m : ifs_log) (s : ifs_state D) : ifs_state D := s <| msgs := msgs s ++ [m] |>.
Definition open_fd (f : ifs_fd) (s : ifs_state D) : ifs_state D := s <| fds := f :: fds s |>.
Definition close_fd (f : ifs_fd) (s : ifs_state D) : ifs_state D := s <| fds := filter (fun g => g <> f) (fds s) |>.

(** get_testspecific_knob_value_int(), which clears errno when the option is set. *)
Definition knob_int (k : str) (value_if_not_present : Z) (s : ifs_state D) : Z * ifs_state D :=
  let s := match get_knob (test_key (Some test_id) k) knobs with
           | Some text => s <| errno := if (strtoull 0 text).2 then ERANGE else 0 |>
           | None => s
           end in
  (i32 (get_testspecific_knob_value_int (Some test_id) k value_if_not_present knobs).1, s).

(** write_file() *)
Definition write_file (f : ifs_file) (value : str) (s : ifs_state D) : bool * ifs_state D :=
  match open_of drv (dev s) f O_WRONLY with
  | Some e => (false, s <| errno := e |>)
  | None =>
      let '(r, d) := write_of drv (dev s) f value in
      let s := s <| dev := d |> in
      match r with
      | Written => (true, s)
      | WriteError e => (false, s <| errno := e |>)
      | WriteShort => (false, s)
      end
  end.

(** read_file_fd() into a buffer: what it returns, and the buffer. *)
Definition read_file_fd (f : ifs_file) (buf : buffer) (s : ifs_state D) : Z * buffer * ifs_state D :=
  match read_of drv (dev s) f with
  | inl e => (-1, buf, s <| errno := e |>)
  | inr text =>
      let data := take BUFLEN text in
      let '(n, buf) := trim_newlines (length data) (data ++ drop (length data) buf) in
      (Z.of_nat n, buf, s)
  end.

(** read_file() *)
Definition read_file (f : ifs_file) (buf : buffer) (s : ifs_state D) : Z * buffer * ifs_state D :=
  match open_of drv (dev s) f O_RDONLY with
  | Some e => (-1, buf, s <| errno := e |>)
  | None => read_file_fd f buf s
  end.

(** open_sysfs_ifs_base(): whether the directory is open. *)
Definition open_sysfs_ifs_base (s : ifs_state D) : bool * ifs_state D :=
  match open_dir drv (dev s) with
  | None => (true, open_fd DirFd s)
  | Some e =>
      let s := s <| errno := e |> <| dev := modprobe drv (dev s) |> in
      match open_dir drv (dev s) with
      | None => (true, open_fd DirFd s)
      | Some e => (false, s <| errno := e |>)
      end
  end.

(** load_test_file() *)
Definition next_test (status_buf : buffer) (s : ifs_state D) : outcome (option Z * ifs_state D) :=
  let '(next, s) := knob_int (L "test_file") (-1) s in
  if negb (next =? -1) then Ret (Some next, s)
  else if begins (L "none") (image_id s) then Ret (Some DEFAULT_TEST_ID, s)
  else
    id ← cstring (image_id s);
    let '(v, rest, overflow) := strtoull 16 id in
    let current := i32 v in
    let s := if overflow then s <| errno := ERANGE |> else s in
    if negb (bool_decide (rest = [])) || (errno s =? ERANGE) then Ret (None, say (LogInfo (L "Cannot parse current_batch value: " ++ id)) s)
    else if begins (L "untested") status_buf then Ret (Some current, say (LogInfo (L "Test file " ++ id ++ L " remains untested, so try again")) s)
    else if current <? INT_MAX then Ret (Some (current + 1), s)
    else Ub.

Definition load_test_file (status_buf : buffer) (s : ifs_state D) : outcome (bool * ifs_state D) :=
  let '(_, buf, s) := read_file_fd current_batch (image_id s) s in
  let s := close_fd BatchFd (s <| image_id := buf |>) in
  if is_retry then id ← cstring (image_id s); Ret (true, say (LogDebug (L "IFS retesting with same image: " ++ id)) s)
  else
    '(next, s) ← next_test status_buf s;
    match next with
    | None => Ret (false, s)
    | Some next =>
        let id := fmt_alt_x (u32 next) in
        let s := s <| image_id := put_string id (image_id s) |> in
        let '(ok, s) := write_file current_batch id s in
        if ok then Ret (true, s)
        else if errno s =? ENOENT then
          if next =? DEFAULT_TEST_ID then
            Ret (false, say (LogInfo (L "There are no images available for this system or they are not located in the right directory")) s)
          else
            let s := say (LogInfo (L "Test file " ++ id ++ L ", does not exist. Starting over from 0x1")) s in
            let id := fmt_alt_x DEFAULT_TEST_ID in
            let s := s <| image_id := put_string id (image_id s) |> in
            Ret (write_file current_batch id s)
        else Ret (false, s)
    end.

(** scan_common_init() *)
Definition scan_common_init (s : ifs_state D) : outcome (Z * ifs_state D) :=
  let '(ok, s) := open_sysfs_ifs_base s in
  if negb ok then
    Ret (- errno s, say (LogSkip OsNotSupportedSkipCategory (L "could not find IFS control files in " ++ sys_dir
      ++ L ": either IFS is not supported on this system or this kernel does not support IFS (" ++ strerror (errno s) ++ L ")")) s)
  else
    let '(_, status_buf, s) := read_file status (replicate BUFLEN NUL_char) s in
    let '(enforce_run, s) := knob_int (L "enforce_run") (if is_retry then 1 else 0) s in
    if begins (L "fail") status_buf && negb (enforce_run =? 1) then
      Ret (EXIT_SKIP, say (LogSkip TestResourceIssueSkipCategory
        (L "Previous run failure found! This test will skip until enforced adding flag: -O " ++ test_id ++ L ".enforce_run=1")) s)
    else
      match open_of drv (dev s) run_test O_WRONLY with
      | Some e =>
          Ret (- e, say (LogSkip OSResourceIssueSkipCategory (L "could not open " ++ sys_dir ++ L "/run_test for writing (not running as root?): " ++ strerror e)) (s <| errno := e |>))
      | None =>
          let opened := open_of drv (dev s) current_batch O_RDWR in
          let s := match opened with Some e => s <| errno := e |> | None => open_fd BatchFd s end in
          let saved_errno := errno s in
          if saved_errno =? ENOENT then
            Ret (EXIT_SUCCESS, close_fd DirFd (s <| image_support := false |> <| image_id := strncpy (L "NA") |> <| image_version := strncpy (L "NA") |>))
          else
            let s := s <| image_support := true |> in
            match opened with
            | Some _ =>
                Ret (- saved_errno, say (LogSkip OSResourceIssueSkipCategory
                  (L "could not open " ++ sys_dir ++ L "/current_batch for writing (not running as root?): " ++ strerror saved_errno)) s)
            | None =>
                '(loaded, s) ← load_test_file status_buf s;
                if negb loaded then Ret (EXIT_SKIP, say (LogSkip TestResourceIssueSkipCategory (L "cannot load test file")) s)
                else
                  let '(n, version, s) := read_file image_version_file (image_version s) s in
                  let version := if n <=? 0 then strncpy (L "unknown") else version in
                  let s := s <| image_version := version |> in
                  id ← cstring (image_id s);
                  version ← cstring (image_version s);
                  Ret (EXIT_SUCCESS, close_fd DirFd (say (LogInfo (L "Test image ID: " ++ id ++ L " version: " ++ version)) s))
            end
      end.

(** scan_run() on a processor: its number, and whether it is the first of its core. *)
Definition scan_run (cpu_number thread_id : Z) (s : ifs_state D) : outcome (Z * ifs_state D) :=
  let test := L "Test " ++ [quote_char] ++ sys_dir ++ [quote_char] in
  let skipped category text s := say (LogSkip category (text ++ L " for " ++ [quote_char] ++ sys_dir ++ [quote_char] ++ L ": " ++ strerror (errno s))) s in
  if negb (thread_id =? 0) then Ret (EXIT_SKIP, s)
  else
    match open_dir drv (dev s) with
    | Some e => Ret (EXIT_SKIP, skipped OSResourceIssueSkipCategory (L "Could not start test") (s <| errno := e |>))
    | None =>
        let s := open_fd DirFd s in
        let '(started, s) := write_file run_test (to_string cpu_number ++ [newline]) s in
        if negb started then Ret (EXIT_SKIP, close_fd DirFd (skipped OSResourceIssueSkipCategory (L "Could not start test") s))
        else
          let '(n, result, s) := read_file status (replicate BUFLEN NUL_char) s in
          if n <? 0 then Ret (EXIT_SKIP, close_fd DirFd (skipped OSResourceIssueSkipCategory (L "Could not obtain result") s))
          else
            let image text := id ← cstring (image_id s); version ← cstring (image_version s); Ret (text ++ id ++ L " version: " ++ version) in
            if begins (L "fail") result then
              let '(n, result, s) := read_file details result s in
              let s := close_fd DirFd s in
              if n <? 0 then
                id ← cstring (image_id s); version ← cstring (image_version s);
                Ret (EXIT_FAILURE, say (LogError (test ++ L " failed but could not retrieve error condition. Image ID: " ++ id ++ L "  version: " ++ version)) s)
              else
                text ← cstring result;
                let incomplete := match sscanf_llx text with
                                  | Some code => compare_error_codes code IFS_SW_TIMEOUT || compare_error_codes code IFS_SW_PARTIAL_COMPLETION
                                  | None => false
                                  end in
                if incomplete then
                  m ← image (test ++ L " did not run to completion, code: " ++ text ++ L " image ID: ");
                  Ret (EXIT_SKIP, say (LogSkip TestResourceIssueSkipCategory m) s)
                else
                  m ← image (test ++ L " failed with condition: " ++ text ++ L " image: ");
                  Ret (EXIT_FAILURE, say (LogError m) s)
            else if begins (L "untested") result then
              let '(n, result, s) := read_file details result s in
              m ← (if n <? 0 then m ← image (test ++ L " remains untested, code: unknown image ID: "); Ret (LogSkip OSResourceIssueSkipCategory m)
                   else
                     text ← cstring result;
                     let cannot_start := match sscanf_llx text with Some code => compare_error_codes code IFS_SW_SCAN_CANNOT_START | None => false end in
                     m ← image (test ++ (if cannot_start then L " cannot be started at the moment, code: " else L " did not complete scanning, code: ")
                                ++ text ++ L " image ID: ");
                     Ret (LogSkip TestResourceIssueSkipCategory m));
              Ret (- EAGAIN, say m s)
            else
              let s := if begins (L "pass") result then say (LogDebug (test ++ L " passed")) s else s in
              Ret (EXIT_SUCCESS, close_fd DirFd s)
    end.
End Ifs.

(** scan_preinit(): the shortest time, in milliseconds. *)
Definition scan_preinit (num_cpus : Z) : Z := num_cpus * 200.
(** The directories of scan_saf_init(), scan_array_init() and scan_sbaf_init(). *)
Definition scan_dirs : list str := [L "intel_ifs_0"; L "intel_ifs_1"; L "intel_ifs_2"].

(** * Facts: lines and numbers *)

(** The text of a line: no terminator, no newline. *)
Definition line_text (s : str) : Prop := Forall (fun c => c <> NUL_char /\ c <> newline) s.

Lemma cstring_put (s rest : str) : line_text s -> cstring (s ++ NUL_char :: rest) = Ret s.
Proof.
  intros Hs. unfold cstring. induction Hs as [|c s [Hc _] _ IH]; [done|]. cbn [app span].
  assert (negb (char_eqb c NUL_char) = true) as -> by (unfold char_eqb; by rewrite bool_decide_eq_false_2).
  destruct (span _ (s ++ NUL_char :: rest)) as [a [|b l]]; [done|]. by injection IH as ->.
Qed.

Lemma trim_line (s rest : str) : line_text s -> trim_newlines (S (length s)) (s ++ newline :: rest) = (length s, s ++ NUL_char :: rest).
Proof.
  intros Hs. cbn [trim_newlines]. rewrite list_lookup_middle, bool_decide_eq_true_2 by done.
  replace (<[length s:=NUL_char]> (s ++ newline :: rest)) with (s ++ NUL_char :: rest)
    by (rewrite <- (Nat.add_0_r (length s)), insert_app_r; done).
  destruct s as [|c s] using rev_ind; [done|]. clear IHs. rewrite length_app, Nat.add_1_r. cbn [trim_newlines].
  rewrite <- app_assoc. cbn [app]. rewrite list_lookup_middle by done. apply Forall_app in Hs as [_ Hc%Forall_inv].
  rewrite bool_decide_eq_false_2; [done|]. intros [= ->]. by destruct Hc.
Qed.

Lemma hex_digit_text c : is_digit 16 c = true -> c <> NUL_char /\ c <> newline.
Proof. intros H. split; intros ->; vm_compute in H; done. Qed.

Lemma fmt_alt_x_text v : 0 <= v < 2 ^ 128 -> line_text (fmt_alt_x v).
Proof.
  intros Hv. unfold fmt_alt_x, line_text. destruct (Z.eqb_spec v 0); [by repeat constructor|]. apply Forall_app. split; [by repeat constructor|].
  eapply Forall_impl; [apply (digits_fuel_digits 16 128 v); lia|]. apply hex_digit_text.
Qed.

Lemma fmt_alt_x_length v : (length (fmt_alt_x v) <= 130)%nat.
Proof.
  unfold fmt_alt_x. destruct (v =? 0); [vm_compute; lia|]. rewrite length_app. unfold to_digits.
  assert (forall f z acc, (length (digits_fuel 16 f z acc) <= f + length acc)%nat) as H.
  { induction f as [|f IH]; intros z acc; cbn [digits_fuel]; [simpl; lia|]. destruct (_ =? 0); [simpl; lia|]. specialize (IH (z / 16) (digit_char (z mod 16) :: acc)). simpl in *. lia. }
  specialize (H 128%nat v []). change (length (L "0x")) with 2%nat. cbn [length] in H. lia.
Qed.

(** The number the driver shows is read back. *)
Lemma image_id_roundtrip v : 0 < v < 2 ^ 64 -> strtoull 16 (fmt_alt_x v) = (v, [], false).
Proof.
  intros Hv. unfold fmt_alt_x. rewrite (proj2 (Z.eqb_neq v 0)) by lia. unfold strtoull, strto.
  change ((span isspace (L "0x" ++ to_digits 16 v)).2) with (L "0x" ++ to_digits 16 v). cbn [L String.list_ascii_of_string app].
  destruct (to_digits_head 16 v) as (c & r & E & Hdig & Hh); [lia..|].
  assert (strto_prefix 16 ("0"%char :: "x"%char :: to_digits 16 v) = (16, to_digits 16 v)) as -> by (rewrite E; unfold strto_prefix; simpl; by rewrite Hdig).
  rewrite <- (app_nil_r (to_digits 16 v)) at 1. rewrite span_all by first [done|apply digits_fuel_digits; lia].
  rewrite E, <- E, to_digits_value by lia. unfold ULLONG_MAX. rewrite (proj2 (Z.ltb_ge _ _)) by lia. rewrite wrap_u_small by (unfold in_u; lia). done.
Qed.

(** * Facts: the images are loaded in turn *)

Section Rotation.
Context {D : Type} (drv : Driver D) (strerror : Z -> str) (knobs : Knobs) (test_id sys_dir : str).
Context (N : Z) (HN : 1 <= N < 0xff).
Context (Hno_file : get_knob (test_key (Some test_id) (L "test_file")) knobs = None).
Context (Hno_enforce : get_knob (test_key (Some test_id) (L "enforce_run")) knobs = None).

(** The text "current_batch" shows for an image: a hexadecimal number with its prefix. *)
Definition shows (i : Z) (text : str) : Prop :=
  line_text text /\ (length text < 256)%nat /\
  if i =? 0 then text = L "none" else head text = Some "0"%char /\ strtoull 16 text = (i, [], false).

(** What the driver does (Documentation/ABI/testing/sysfs-platform-intel-ifs): it has
    the images 1 to N, where 0xff is the last number there can be; "current_batch" shows the image that is loaded (zero: none) and
    loads the one that is written to it; the first file that is missing gives ENOENT. And what the
    theorem is about: the driver is loaded, its files open, and the
    scans that were made with the image have passed. *)
Record has_images (ok : D -> Prop) (img : D -> Z) : Prop := {
  img_range : forall d, ok d -> 0 <= img d <= N;
  dir_opens : forall d, ok d -> open_dir drv d = None;
  file_opens : forall d f flags, ok d -> open_of drv d f flags = None;
  status_shown : forall d, ok d -> read_of drv d status = inr (L (if img d =? 0 then "untested" else "pass") ++ [newline]);
  version_shown : forall d, ok d -> exists v, 0 <= v < 2 ^ 32 /\ read_of drv d image_version_file = inr (fmt_alt_x v ++ [newline]);
  image_shown : forall d, ok d -> exists text, read_of drv d current_batch = inr (text ++ [newline]) /\ shows (img d) text;
  image_loaded : forall d i, ok d -> 1 <= i <= N -> exists d', write_of drv d current_batch (fmt_alt_x i) = (Written, d') /\ ok d' /\ img d' = i;
  image_missing : forall d, ok d -> write_of drv d current_batch (fmt_alt_x (N + 1)) = (WriteError ENOENT, d) }.

Context (ok : D -> Prop) (img : D -> Z) (Himages : has_images ok img).

Lemma read_line f (text : str) buf (s : ifs_state D) : line_text text -> (length text < 256)%nat -> read_of drv (dev s) f = inr (text ++ [newline]) ->
  read_file_fd drv f buf s = (len text, text ++ NUL_char :: drop (S (length text)) buf, s).
Proof using Type.
  intros Ht Hl Hr. unfold read_file_fd. rewrite Hr.
  rewrite take_ge by (rewrite length_app; simpl; unfold BUFLEN; lia). rewrite length_app, Nat.add_1_r. rewrite <- app_assoc. cbn [app].
  by rewrite trim_line.
Qed.

Lemma read_file_line f (text : str) buf (s : ifs_state D) : ok (dev s) -> line_text text -> (length text < 256)%nat ->
  read_of drv (dev s) f = inr (text ++ [newline]) -> read_file drv f buf s = (len text, text ++ NUL_char :: drop (S (length text)) buf, s).
Proof using Himages. intros Hok Ht Hl Hr. unfold read_file. rewrite (file_opens _ _ Himages) by done. by apply read_line. Qed.

Lemma knob_unset k v (s : ifs_state D) : get_knob (test_key (Some test_id) k) knobs = None -> knob_int knobs test_id k v s = (i32 v, s).
Proof using Type. intros H. unfold knob_int, get_testspecific_knob_value_int, knob_value_integer. by rewrite H. Qed.

(** The image after the one that is loaded. *)
Definition next_image (i : Z) : Z := if i <? N then i + 1 else 1.

Lemma next_image_range i : 0 <= i <= N -> 1 <= next_image i <= N.
Proof using HN. unfold next_image. zcases; lia. Qed.

Lemma begins_text (l text rest : str) : (length l <= length text)%nat -> begins l (text ++ rest) = begins l text.
Proof using Type. intros H. unfold begins. by rewrite take_app_le. Qed.

Lemma next_test_ok (s : ifs_state D) status_buf text rest i : errno s <> ERANGE -> 0 <= i <= N -> shows i text -> image_id s = text ++ NUL_char :: rest ->
  begins (L "untested") status_buf = (i =? 0) -> next_test knobs test_id status_buf s = Ret (Some (i + 1), s).
Proof using HN Hno_file.
  intros He Hi (Ht & _ & Htext) Hid Hst. unfold INT_MAX in *. unfold next_test. rewrite knob_unset by done. change (i32 (-1) =? -1) with true. cbn [negb]. rewrite Hid, Hst.
  destruct (Z.eqb_spec i 0) as [->|E]; [by rewrite Htext|]. destruct Htext as [Hhead Hnum]. destruct text as [|c text]; [done|]. injection Hhead as ->.
  change (begins (L "none") (("0"%char :: text) ++ NUL_char :: rest)) with false. cbn iota.
  rewrite cstring_put by done. cbn [mbind outcome_bind]. rewrite Hnum.
  rewrite bool_decide_eq_true_2 by done. cbn [negb orb]. rewrite (proj2 (Z.eqb_neq _ _) He). rewrite wrap_s_small by (unfold in_s; lia).
  unfold INT_MAX. by rewrite (proj2 (Z.ltb_lt _ _)) by lia.
Qed.

Lemma write_image i (s : ifs_state D) : ok (dev s) -> 1 <= i <= N -> exists d, ok d /\ img d = i /\ write_file drv current_batch (fmt_alt_x i) s = (true, s <| dev := d |>).
Proof using Himages.
  intros Hok Hi. destruct (image_loaded _ _ Himages (dev s) i Hok Hi) as (d & Hd & Hd' & Hi'). exists d. split; [done|]. split; [done|].
  unfold write_file. by rewrite (file_opens _ _ Himages), Hd by done.
Qed.

Lemma load_test_file_ok (s : ifs_state D) status_buf : ok (dev s) -> errno s <> ERANGE -> begins (L "untested") status_buf = (img (dev s) =? 0) ->
  exists s', load_test_file drv knobs test_id false status_buf s = Ret (true, s') /\ ok (dev s') /\ img (dev s') = next_image (img (dev s)) /\
    (exists rest, image_id s' = fmt_alt_x (next_image (img (dev s))) ++ NUL_char :: rest) /\ image_version s' = image_version s /\ image_support s' = image_support s /\
    fds s' = filter (fun g => g <> BatchFd) (fds s).
Proof using HN Hno_file Himages.
  intros Hok He Hst. unfold load_test_file. pose proof (img_range _ _ Himages _ Hok) as Hr. destruct (image_shown _ _ Himages _ Hok) as (text & Hread & Hshows).
  rewrite (read_line current_batch text) by (try done; apply Hshows).
  set (i := img (dev s)) in *. rewrite (next_test_ok _ status_buf text (drop (S (length text)) (image_id s)) i) by done. cbn [mbind outcome_bind].
  assert (u32 (i + 1) = i + 1) as -> by (apply wrap_u_small; unfold in_u, INT_MAX in *; lia).
  match goal with |- context [write_file drv current_batch (fmt_alt_x (i + 1)) ?s0] => set (s1 := s0) end.
  assert (ok (dev s1)) as Hok1 by done. unfold next_image. destruct (Z.ltb_spec i N) as [Hlt|Hge].
  - destruct (write_image (i + 1) s1 Hok1) as (d & Hd & Hi & ->); [lia|]. eexists. split; [reflexivity|]. split; [done|]. split; [done|].
    split; [by eexists|]. done.
  - assert (i = N) as -> by lia. unfold write_file at 1. rewrite (file_opens _ _ Himages), (image_missing _ _ Himages) by (first [done|lia]).
    change (errno (s1 <| dev := dev s1 |> <| errno := ENOENT |>) =? ENOENT) with true. cbn [negb].
    assert ((N + 1 =? DEFAULT_TEST_ID) = false) as -> by (apply Z.eqb_neq; unfold DEFAULT_TEST_ID; lia). unfold DEFAULT_TEST_ID.
    match goal with |- context [write_file drv current_batch (fmt_alt_x 1) ?s0] => set (s2 := s0) end.
    destruct (write_image 1 s2) as (d & Hd & Hi & ->); [done|lia|]. eexists. split; [reflexivity|]. split; [done|]. split; [done|]. split; [by eexists|]. done.
Qed.

(** The state of the test when test_init() is called. *)
Definition fresh (e : Z) (id version : buffer) (d : D) : ifs_state D :=
  {| errno := e; dev := d; image_support := false; image_id := id; image_version := version; msgs := []; fds := [] |}.

Lemma init_loads_next e id version d : e <> ENOENT -> e <> ERANGE -> ok d ->
  exists s', scan_common_init drv strerror knobs test_id sys_dir false (fresh e id version d) = Ret (EXIT_SUCCESS, s') /\
    ok (dev s') /\ img (dev s') = next_image (img d) /\ image_support s' = true /\ cstring (image_id s') = Ret (fmt_alt_x (next_image (img d))) /\ fds s' = [].
Proof using HN Hno_file Hno_enforce Himages.
  intros He1 He2 Hok. unfold scan_common_init, open_sysfs_ifs_base. cbn [fresh dev]. rewrite (dir_opens _ _ Himages) by done. cbn [negb].
  set (s0 := open_fd DirFd (fresh e id version d)). pose proof (img_range _ _ Himages _ Hok) as Hr.
  set (text := L (if img d =? 0 then "untested"%string else "pass"%string)).
  rewrite (read_file_line status text); [|done|by unfold text; destruct (img d =? 0); repeat constructor|unfold text; destruct (img d =? 0); simpl; lia|by apply (status_shown _ _ Himages)].
  rewrite knob_unset by done. set (buf := text ++ _). assert (begins (L "fail") buf = false) as -> by (unfold buf, text; by destruct (img d =? 0)).
  cbn [andb]. change (dev s0) with d. rewrite !(file_opens _ _ Himages) by done.
  change (errno (open_fd BatchFd s0)) with e. rewrite (proj2 (Z.eqb_neq _ _) He1).
  set (s1 := (open_fd BatchFd s0) <| image_support := true |>).
  destruct (load_test_file_ok s1 buf) as (s2 & -> & Hok2 & Hi2 & (rest & Hid) & Hver & Hsup & Hfds);
    [done|done|unfold buf, text; change (dev s1) with d; by destruct (img d =? 0)|].
  cbn [mbind outcome_bind negb]. destruct (version_shown _ _ Himages _ Hok2) as (v & Hv & Hread). pose proof (fmt_alt_x_length v) as Hl.
  rewrite (read_file_line image_version_file (fmt_alt_x v)); [|done|apply fmt_alt_x_text; lia|lia|done].
  assert ((len (fmt_alt_x v) <=? 0) = false) as ->. { apply Z.leb_gt. unfold len, fmt_alt_x. destruct (v =? 0); simpl; lia. }
  change (image_id (s2 <| image_version := _ |>)) with (image_id s2). rewrite Hid.
  change (dev s1) with d in *. pose proof (next_image_range _ Hr) as Hn.
  rewrite cstring_put by (apply fmt_alt_x_text; unfold INT_MAX in *; lia). cbn [mbind outcome_bind].
  change (image_version (s2 <| image_version := ?v |>)) with v. rewrite cstring_put by (apply fmt_alt_x_text; lia). cbn [mbind outcome_bind].
  eexists. split; [reflexivity|]. split; [done|]. split; [done|]. split; [by cbn; rewrite Hsup|]. split; [|by cbn; rewrite Hfds].
  change (image_id (close_fd DirFd (say ?m ?s))) with (image_id s). change (image_id (s2 <| image_version := _ |>)) with (image_id s2). rewrite Hid.
  apply cstring_put, fmt_alt_x_text. unfold INT_MAX in *. lia.
Qed.

(** Sessions in sequence: each initializes the test with the device as the session
    before left it, and [work] is what its scans do to the device; the images that
    were loaded. *)
Context (work : nat -> D -> D) (Hwork : forall k d, ok d -> ok (work k d) /\ img (work k d) = img d).
Context (start : nat -> Z * buffer * buffer) (Hstart : forall k, (start k).1.1 <> ENOENT /\ (start k).1.1 <> ERANGE).

Fixpoint sessions (n k : nat) (d : D) : outcome (list Z) :=
  match n with
  | O => Ret []
  | S n =>
      '(result, s) ← scan_common_init drv strerror knobs test_id sys_dir false (fresh (start k).1.1 (start k).1.2 (start k).2 d);
      if result =? EXIT_SUCCESS then ids ← sessions n (S k) (work k (dev s)); Ret (img (dev s) :: ids) else Ret []
  end.

Lemma next_image_mod i : 0 <= i <= N -> next_image i = 1 + i mod N.
Proof using HN.
  intros Hi. unfold next_image. zcases; [rewrite Z.mod_small by lia; lia|]. assert (i = N) as -> by lia. by rewrite Z.mod_same by lia.
Qed.

Lemma sessions_ids n : forall k d, ok d -> sessions n k d = Ret ((fun j => 1 + (img d + j) mod N) <$> seqZ 0 (Z.of_nat n)).
Proof using All.
  induction n as [|n IH]; intros k d Hok; [done|]. cbn [sessions]. destruct (Hstart k) as [H1 H2].
  destruct (init_loads_next (start k).1.1 (start k).1.2 (start k).2 d H1 H2 Hok) as (s & -> & Hs & Hi & _). cbn [mbind outcome_bind].
  destruct (Hwork k (dev s) Hs) as [Hw Hwi]. rewrite (IH (S k) _ Hw). cbn [mbind outcome_bind Z.eqb EXIT_SUCCESS].
  pose proof (img_range _ _ Himages _ Hok) as Hr. rewrite Hwi, Hi, next_image_mod by done.
  rewrite Nat2Z.inj_succ, (seqZ_cons 0 (Z.succ (Z.of_nat n))) by lia. rewrite Z.pred_succ. cbn [fmap list_fmap]. rewrite Z.add_0_r. f_equal. f_equal.
  rewrite <- (fmap_add_seqZ 1 0), <- list_fmap_compose. apply list_fmap_ext. intros _ j _. unfold compose. f_equal.
  replace (1 + img d mod N + j) with (img d mod N + (1 + j)) by lia. rewrite Z.add_mod_idemp_l by lia. done.
Qed.

(** C17. The sessions of the program load the images one after the other, starting over
    after the last one, so that N sessions in sequence test every image, under these
    conditions: the driver is loaded and has the images 1 to N, fewer than its
    documentation allows; every scan so far has passed (or none was made), and what a session's
    scans do leaves it so; no test_file and no enforce_run option is set, and the test is not one that is
    tried again after a failure (is_retry); and errno
    is neither ENOENT nor ERANGE when a session starts. The last one is an accident of the code,
    which looks at errno after calls that have not failed: see the Example
    stale_errno_disables_images. *)
Theorem images_in_turn n d : ok d ->
  exists ids, sessions n 0 d = Ret ids /\ length ids = n /\
    (forall k id, ids !! k = Some id -> id = 1 + (img d + Z.of_nat k) mod N) /\
    (forall k i, (k + Z.to_nat N <= n)%nat -> 1 <= i <= N -> i ∈ take (Z.to_nat N) (drop k ids)).
Proof using All.
  intros Hok. eexists. split; [by apply sessions_ids|]. split; [by rewrite length_fmap, length_seqZ, Nat2Z.id|].
  assert (forall k, (k < n)%nat -> ((fun j => 1 + (img d + j) mod N) <$> seqZ 0 (Z.of_nat n)) !! k = Some (1 + (img d + Z.of_nat k) mod N)) as Hl.
  { intros k Hk. rewrite list_lookup_fmap, lookup_seqZ_lt by lia. done. }
  split; [intros k id Hk; pose proof (lookup_lt_Some _ _ _ Hk) as Hlt; rewrite length_fmap, length_seqZ, Nat2Z.id in Hlt; rewrite Hl in Hk by done; congruence|].
  intros k i Hk Hi. apply list_elem_of_lookup. set (j := (i - 1 - img d - Z.of_nat k) mod N). assert (0 <= j < N) as Hj by (apply Z.mod_pos_bound; lia).
  exists (Z.to_nat j). rewrite lookup_take_lt by lia. rewrite lookup_drop, Hl by lia. f_equal. rewrite Nat2Z.inj_add, Z2Nat.id by lia.
  replace (img d + (Z.of_nat k + j)) with (j + (img d + Z.of_nat k)) by lia. unfold j. rewrite Z.add_mod_idemp_l by lia.
  replace (i - 1 - img d - Z.of_nat k + (img d + Z.of_nat k)) with (i - 1) by lia. rewrite Z.mod_small by lia. lia.
Qed.
End Rotation.

(** * Facts: the verdict *)

Lemma sscanf_code v : 0 <= v < 2 ^ 64 -> sscanf_llx (fmt_alt_x v) = Some v.
Proof.
  intros Hv. destruct (Z.eq_dec v 0) as [->|Hnz]; [done|]. pose proof (image_id_roundtrip v ltac:(lia)) as Hr. unfold sscanf_llx. rewrite Hr.
  unfold strtoull in Hr. destruct (strto 16 (fmt_alt_x v)) as [[[neg m] rest]|]; [|by injection Hr; intros; subst].
  unfold fmt_alt_x. rewrite (proj2 (Z.eqb_neq v 0) Hnz). change ((span isspace (L "0x" ++ to_digits 16 v)).2) with (L "0x" ++ to_digits 16 v).
  cbn [L String.list_ascii_of_string app]. destruct (to_digits_head 16 v) as (c & r & -> & Hdig & _); [lia..|]. by rewrite Hdig.
Qed.

Lemma compare_error_codes_spec code expected : 0 <= code -> compare_error_codes code expected = ((code / 2 ^ 32) mod 2 ^ 8 =? expected).
Proof. intros Hc. unfold compare_error_codes. rewrite Z.shiftr_div_pow2 by lia. change 0xFF with (Z.ones 8). by rewrite Z.land_ones. Qed.

Inductive scan_verdict := ScanPass | ScanFail | ScanUntested.
Definition verdict_text (v : scan_verdict) : str := L (match v with ScanPass => "pass" | ScanFail => "fail" | ScanUntested => "untested" end).

Lemma verdict_line v : line_text (verdict_text v) /\ (length (verdict_text v) < 256)%nat.
Proof. destruct v; (split; [repeat constructor; done|simpl; lia]). Qed.

(** A core is reported as failed exactly when the driver says that its scan failed
    and the code in bits 39:32 of the details does not say that the scan was cut
    short; a scan that did not start is to be tried again. The processor's number is
    what the driver was given. *)
Theorem scan_run_verdict {D} (drv : Driver D) strerror sys_dir cpu_number (s : ifs_state D) d verdict code id version :
  (forall d f flags, open_of drv d f flags = None) -> open_dir drv (dev s) = None ->
  write_of drv (dev s) run_test (to_string cpu_number ++ [newline]) = (Written, d) ->
  read_of drv d status = inr (verdict_text verdict ++ [newline]) ->
  0 <= code < 2 ^ 64 -> read_of drv d details = inr (fmt_alt_x code ++ [newline]) ->
  cstring (image_id s) = Ret id -> cstring (image_version s) = Ret version ->
  let short := bool_decide ((code / 2 ^ 32) mod 2 ^ 8 ∈ [IFS_SW_TIMEOUT; IFS_SW_PARTIAL_COMPLETION]) in
  exists s', scan_run drv strerror sys_dir cpu_number 0 s =
    Ret (match verdict with
         | ScanPass => EXIT_SUCCESS
         | ScanFail => if short then EXIT_SKIP else EXIT_FAILURE
         | ScanUntested => - EAGAIN
         end, s') /\ dev s' = d /\
    (forall m, LogError m ∈ msgs s' -> LogError m ∈ msgs s \/ (verdict = ScanFail /\ short = false)).
Proof.
  intros Hopen Hdir Hw Hst Hcode Hdet Hid Hver short.
  unfold scan_run. rewrite Z.eqb_refl. cbn [negb]. rewrite Hdir. unfold write_file. rewrite Hopen.
  change (dev (open_fd DirFd s)) with (dev s). rewrite Hw. cbn [negb]. unfold read_file. rewrite Hopen.
  destruct (verdict_line verdict) as [Hvt Hvl]. set (s1 := (open_fd DirFd s) <| dev := d |>).
  rewrite (read_line drv status (verdict_text verdict)) by done.
  assert ((len (verdict_text verdict) <? 0) = false) as -> by (apply Z.ltb_ge; unfold len; lia).
  assert (forall buf s2, dev s2 = d -> read_file_fd drv details buf s2 = (len (fmt_alt_x code), fmt_alt_x code ++ NUL_char :: drop (S (length (fmt_alt_x code))) buf, s2)) as Hread.
  { intros buf s2 E. apply read_line; [apply fmt_alt_x_text; lia| |by rewrite E]. pose proof (fmt_alt_x_length code). lia. }
  assert ((len (fmt_alt_x code) <? 0) = false) as Hlen by (apply Z.ltb_ge; unfold len; lia).
  assert (forall buf, cstring (fmt_alt_x code ++ NUL_char :: drop (S (length (fmt_alt_x code))) buf) = Ret (fmt_alt_x code)) as Htext
    by (intros; apply cstring_put, fmt_alt_x_text; lia).
  assert (cstring (image_id s1) = Ret id /\ cstring (image_version s1) = Ret version) as [Hid1 Hver1] by done.
  assert (forall ms m, LogError m ∈ msgs s ++ ms -> LogError m ∉ ms -> LogError m ∈ msgs s) as Hlog
    by (intros ms m Hm Hn; apply elem_of_app in Hm as [|]; done).
  destruct verdict.
  - change (begins (L "fail") (verdict_text ScanPass ++ ?r)) with false. change (begins (L "untested") (verdict_text ScanPass ++ ?r)) with false.
    change (begins (L "pass") (verdict_text ScanPass ++ ?r)) with true. cbn iota. eexists. split; [reflexivity|]. split; [done|].
    intros m Hm. left. eapply Hlog; [exact Hm|]. by intros ?%list_elem_of_singleton.
  - change (begins (L "fail") (verdict_text ScanFail ++ ?r)) with true. cbn iota. rewrite Hopen, Hread by done. rewrite Hlen, Htext. cbn [mbind outcome_bind].
    rewrite sscanf_code by done. rewrite !compare_error_codes_spec by lia.
    assert (((code / 2 ^ 32) mod 2 ^ 8 =? IFS_SW_TIMEOUT) || ((code / 2 ^ 32) mod 2 ^ 8 =? IFS_SW_PARTIAL_COMPLETION) = short) as ->.
    { unfold short. apply Bool.eq_true_iff_eq. rewrite orb_true_iff, !Z.eqb_eq, bool_decide_eq_true, elem_of_cons, list_elem_of_singleton. done. }
    rewrite Hid1, Hver1. destruct short; cbn [mbind outcome_bind]; (eexists; split; [reflexivity|]); (split; [done|]); intros m Hm; [left|by right].
    eapply Hlog; [exact Hm|]. by intros ?%list_elem_of_singleton.
  - change (begins (L "fail") (verdict_text ScanUntested ++ ?r)) with false. change (begins (L "untested") (verdict_text ScanUntested ++ ?r)) with true. cbn iota.
    rewrite Hopen, Hread by done. rewrite Hlen, Htext. cbn [mbind outcome_bind]. rewrite Hid1, Hver1. cbn [mbind outcome_bind].
    eexists. split; [reflexivity|]. split; [done|]. intros m Hm. left. eapply Hlog; [exact Hm|]. by intros ?%list_elem_of_singleton.
Qed.

(** * A driver *)

(** A driver with images 1 to 3; its state is the image that is loaded. *)
Definition three_images : Driver Z := {|
  open_dir := fun _ => None; modprobe := id; open_of := fun _ _ _ => None;
  read_of := fun d f => inr match f with
    | status => L (if d =? 0 then "untested" else "pass") ++ [newline]
    | details => L "0" ++ [newline]
    | image_version_file => fmt_alt_x 0x171 ++ [newline]
    | current_batch => (if d =? 0 then L "none" else fmt_alt_x d) ++ [newline]
    | run_test => []
    end;
  write_of := fun d f text =>
    match f with
    | current_batch => let i := (strtoull 16 text).1.1 in if (1 <=? i) && (i <=? 3) then (Written, i) else (WriteError ENOENT, d)
    | _ => (Written, d)
    end |}.

Lemma three_images_ok : has_images three_images 3 (fun d => 0 <= d <= 3) id.
Proof.
  constructor; try done.
  - intros d Hd. by exists 0x171.
  - intros d Hd. eexists. split; [reflexivity|]. unfold shows, id. destruct (Z.eqb_spec d 0) as [->|E]; [split; [repeat constructor; done|]; split; [simpl; lia|done]|].
    split; [apply fmt_alt_x_text; lia|]. split; [pose proof (fmt_alt_x_length d); lia|]. split; [unfold fmt_alt_x; by rewrite (proj2 (Z.eqb_neq d 0) E)|].
    apply image_id_roundtrip. lia.
  - intros d i _ Hi. exists i. cbn [three_images write_of]. rewrite image_id_roundtrip by lia. cbn [fst].
    rewrite (proj2 (Z.leb_le 1 i)), (proj2 (Z.leb_le i 3)) by lia. split; [done|]. split; [lia|done].
Qed.

Definition no_buffer : nat -> Z * buffer * buffer := fun _ => (0, replicate BUFLEN NUL_char, replicate BUFLEN NUL_char).

Lemma images_in_turn_witness :
  exists ids, sessions three_images (fun _ => []) [] (L "ifs") (L "intel_ifs_0") id (fun _ d => d) no_buffer 7 0 0 = Ret ids /\ length ids = 7%nat /\
    (forall k id, ids !! k = Some id -> id = 1 + (0 + Z.of_nat k) mod 3).
Proof.
  destruct (images_in_turn three_images (fun _ => []) [] (L "ifs") (L "intel_ifs_0") 3 ltac:(lia) eq_refl eq_refl
    (fun d => 0 <= d <= 3) id three_images_ok (fun _ d => d) ltac:(done) no_buffer ltac:(done) 7 0 ltac:(cbn beta; lia)) as (ids & H1 & H2 & H3 & _).
  exists ids. split; [exact H1|]. split; [exact H2|exact H3].
Defined.

Lemma scan_run_verdict_witness :
  exists s', scan_run three_images (fun _ => []) (L "intel_ifs_0") 4 0 (fresh 0 (strncpy (L "0x1")) (strncpy (L "0x171")) 1) = Ret (EXIT_SUCCESS, s') /\ dev s' = 1.
Proof.
  destruct (scan_run_verdict three_images (fun _ => []) (L "intel_ifs_0") 4 (fresh 0 (strncpy (L "0x1")) (strncpy (L "0x171")) 1) 1 ScanPass 0 (L "0x1") (L "0x171"))
    as (s' & H & Hd & _); [done|reflexivity|reflexivity|reflexivity|lia|reflexivity|reflexivity|reflexivity|].
  exists s'. split; [exact H|exact Hd].
Defined.

(** A value of ENOENT that an earlier call left in errno (here: the module had to be
    loaded first) makes the test run without images although they are there, and
    leaves the descriptor of "current_batch" open. *)
Example stale_errno_disables_images :
  let after_modprobe := {| open_dir := fun d => if d =? -1 then Some ENOENT else None; modprobe := fun _ => 0; open_of := open_of three_images;
                           read_of := read_of three_images; write_of := write_of three_images |} in
  match scan_common_init after_modprobe (fun _ => []) [] (L "ifs") (L "intel_ifs_0") false (fresh 0 [] [] (-1)) with
  | Ret (r, s) => (r, image_support s, dev s, fds s) = (EXIT_SUCCESS, false, 0, [BatchFd])
  | _ => False
  end.
Proof. vm_compute. reflexivity. Qed.

(** A scan that is to be tried again leaves the directory open, and a status that is
    none of the three passes without a message. *)
Definition answering (text : str) : Driver Z := {|
  open_dir := open_dir three_images; modprobe := modprobe three_images; open_of := open_of three_images;
  read_of := fun d f => inr match f with status => text | _ => L "0x600000000" ++ [newline] end; write_of := write_of three_images |}.
Definition scanned (text : str) : option (Z * list ifs_fd * nat) :=
  match scan_run (answering text) (fun _ => []) (L "intel_ifs_0") 4 0 (fresh 0 (strncpy (L "0x1")) (strncpy (L "0x171")) 1) with
  | Ret (r, s) => Some (r, fds s, length (msgs s))
  | _ => None
  end.
Example untested_leaks : scanned (L "untested" ++ [newline]) = Some (- EAGAIN, [DirFd], 1%nat).
Proof. vm_compute. reflexivity. Qed.
Example unknown_status_passes : scanned (L "timeout" ++ [newline]) = Some (EXIT_SUCCESS, [], 0%nat).
Proof. vm_compute. reflexivity. Qed.
