(* ===== verification/Forkfd.v ===== *)
(** forkfd() on top of fork() and SIGCHLD (src/framework/forkfd/forkfd.c): the table
    of child processes that threads and signal handlers share without locks.

    Every access to shared memory and every system call is one step. An agent is a
    thread inside forkfd_fork_fallback() or a signal handler inside
    reapChildProcesses(), and its program counter says which step comes next, with the
    local variables that are still used. Agents take their steps in any order; a
    handler that interrupts a thread is one more agent. Memory is sequentially
    consistent here: the orderings that the atomic operations name are not modelled. *)

From stdpp Require Import gmap.
From S2P Require Import Prelude Results.

(** * Statuses *)

Definition WTERMSIG (status : Z) : Z := Z.land status 0x7f.
Definition WIFEXITED (status : Z) : bool := WTERMSIG status =? 0.
Definition WEXITSTATUS (status : Z) : Z := Z.shiftr (Z.land status 0xff00) 8.
Definition WIFSIGNALED (status : Z) : bool := 0 <? Z.shiftr (wrap_s 8 (Z.land status 0x7f + 1)) 1.
Definition WCOREDUMP (status : Z) : bool := negb (Z.land status 0x80 =? 0).

(** convertStatusToForkfdInfo() *)
Definition convertStatusToForkfdInfo (status : Z) (info : forkfd_info) : forkfd_info :=
  if WIFEXITED status then {| fi_code := CLD_EXITED; fi_status := WEXITSTATUS status |}
  else if WIFSIGNALED status then
    {| fi_code := if WCOREDUMP status then CLD_DUMPED else CLD_KILLED; fi_status := WTERMSIG status |}
  else info.

(** struct pipe_payload *)
Definition pipe_payload : Type := forkfd_info * rusage.

(** * Shared memory and the kernel *)

(** A place in the table: the array, and the entry in it. *)
Abbreviation loc := (nat * nat)%type (only parsing).

(** ProcessInfo: zero for an entry that is free, -1 while an agent works on it, and
    otherwise the child. *)
Record ProcessInfo := { pid : Z; deathPipe : option nat }.
(** Header with its entries; [nextArray] is null for the last array of the list. *)
Record Section_ := { busyCount : Z; entries : list ProcessInfo }.
#[export] Instance eta_section : Eta Section_ := fun s => Build_Section_ (busyCount s) (entries s).

Definition CHILDREN_IN_SMALL_ARRAY : nat := 16.
Definition CHILDREN_IN_BIG_ARRAY : nat := 256.
Definition new_array (n : nat) : Section_ := {| busyCount := 0; entries := replicate n {| pid := 0; deathPipe := None |} |}.

(** A child that the kernel knows: waiting for the all clear, running, or ended with a
    status and a usage but not waited for. Its place in the table and its pipe are
    those of the call of forkfd() that made it. *)
Inductive ProcState := Held | Running | Zombie (status : Z) (usage : rusage).
Record Proc := { state : ProcState; home : loc; pipe_of : nat }.

(** A child that was waited for: the kernel has forgotten it, and may use its number
    again. What it was, and what wait4() said of it. *)
Record Gone := { gone_pid : Z; gone_home : loc; gone_pipe : nat; gone_payload : pipe_payload }.

(** A pipe: who created it, what was written to it, and whether the end for writing is
    open. The end for reading is the descriptor forkfd() returns. *)
Record Pipe := { maker : loc; written : list pipe_payload; writable : bool }.

(** The numbers of the pipes are their positions. [procs] has the children of
    forkfd() that the kernel knows, by number, [gone] those that were waited for, in
    that order, and [others] the other children of the process. *)
Record Shared := { children : list Section_; procs : gmap Z Proc; gone : list Gone; pipes : list Pipe; others : gset Z }.
#[export] Instance eta_shared : Eta Shared := fun s => Build_Shared (children s) (procs s) (gone s) (pipes s) (others s).

Definition entry_at (l : loc) (s : Shared) : option ProcessInfo := sec ← children s !! l.1; entries sec !! l.2.
Definition pid_at (l : loc) (s : Shared) : option Z := pid <$> entry_at l s.
Definition set_entry (f : ProcessInfo -> ProcessInfo) (l : loc) (s : Shared) : Shared :=
  s <| children := alter (fun sec => sec <| entries := alter f l.2 (entries sec) |>) l.1 (children s) |>.
Definition set_pid (p : Z) : loc -> Shared -> Shared := set_entry (fun e => {| pid := p; deathPipe := deathPipe e |}).
Definition set_deathPipe (w : option nat) : loc -> Shared -> Shared := set_entry (fun e => {| pid := pid e; deathPipe := w |}).
Definition add_busy (d : Z) (k : nat) (s : Shared) : Shared :=
  s <| children := alter (fun sec => sec <| busyCount := busyCount sec + d |>) k (children s) |>.
Definition set_state (st : ProcState) (p : Z) (s : Shared) : Shared :=
  s <| procs := alter (fun q => {| state := st; home := home q; pipe_of := pipe_of q |}) p (procs s) |>.
Definition set_pipe (f : Pipe -> Pipe) (w : nat) (s : Shared) : Shared := s <| pipes := alter f w (pipes s) |>.
Definition size_at (k : nat) (s : Shared) : nat := default 0%nat (length ∘ entries <$> children s !! k).

(** * Program counters *)

(** What comes after an entry was freed: look for the next child, go on in the walk
    over all entries, or return an error from forkfd(). *)
Inductive After := Again | Onward (l : loc) | Fail.

Inductive Pc :=
| Idle
| Return (fd : option nat)
(** tryAllocateInSection() and allocateInfo() *)
| TryAdd (k : nat) | TryTake (l : loc) | TryUndo (k : nat) | NextLoad (k : nat) | NextLink (k : nat)
(** forkfd_fork_fallback() *)
| MakePipe (l : loc) | MakeSync (l : loc) (w : nat) | Fork (l : loc) (w : nat) | ClosePipes (l : loc) (w : nat)
| StorePipe (l : loc) (p : Z) (w : nat) | StorePid (l : loc) (p : Z) (w : nat) | Release (p : Z) (w : nat)
(** reapChildProcesses() *)
| Peek | Search (p : Z) (l : loc) | Walk (l : loc) | CheckReady (l : loc) (p : Z) | Lock (l : loc) (p : Z)
| Reap (l : loc) (p : Z) (next : After)
(** notifyAndFreeInfo() and freeInfo() *)
| Notify (l : loc) (p : Z) (payload : pipe_payload) (next : After) | Close (l : loc) (next : After)
| FreePipe (l : loc) (next : After) | FreePid (l : loc) (next : After) | FreeCount (k : nat) (next : After).

(** What the kernel and the allocator answer to a step: the child that waitid(P_ALL)
    shows, whether calloc(), the pipe and the eventfd are to be had, and the number
    of the process fork() makes. *)
Record Answer := { peeked : option Z; calloc_ok : bool; pipe_ok : bool; sync_ok : bool; forked : option Z }.

Definition resume (next : After) : Pc :=
  match next with Again => Peek | Onward (k, i) => Walk (k, S i) | Fail => Return None end.

(** tryAllocateInSection(): a place is taken by exchanging 0 for -1. *)
Definition step_tryAllocateInSection (a : Pc) (s : Shared) : option (Pc * Shared) :=
  match a with
  | TryAdd k =>
      sec ← children s !! k;
      let s := add_busy 1 k s in
      if busyCount sec + 1 <=? len (entries sec) then Some (TryTake (k, O), s) else Some (TryUndo k, s)
  | TryTake (k, i) =>
      if (i <? size_at k s)%nat then
        if bool_decide (pid_at (k, i) s = Some 0) then Some (MakePipe (k, i), set_pid (-1) (k, i) s) else Some (TryTake (k, S i), s)
      else Some (TryUndo k, s)
  | TryUndo k => Some (NextLoad k, add_busy (-1) k s)
  | _ => None
  end.

(** allocateInfo(): the arrays after the first. *)
Definition step_allocateInfo (c : Answer) (a : Pc) (s : Shared) : option (Pc * Shared) :=
  match a with
  | NextLoad k =>
      if (S k <? length (children s))%nat then Some (TryAdd (S k), s)
      else if calloc_ok c then Some (NextLink k, s) else Some (Return None, s)
  | NextLink k =>
      if (S k <? length (children s))%nat then Some (TryAdd (S k), s)
      else Some (TryAdd (S k), s <| children := children s ++ [new_array CHILDREN_IN_BIG_ARRAY] |>)
  | _ => None
  end.

(** forkfd_fork_fallback() in the parent. *)
Definition step_forkfd_fork_fallback (c : Answer) (a : Pc) (s : Shared) : option (Pc * Shared) :=
  match a with
  | MakePipe l =>
      if pipe_ok c
      then Some (MakeSync l (length (pipes s)), s <| pipes := pipes s ++ [{| maker := l; written := []; writable := true |}] |>)
      else Some (FreePipe l Fail, s)
  | MakeSync l w => if sync_ok c then Some (Fork l w, s) else Some (ClosePipes l w, s)
  | Fork l w =>
      match forked c with
      | Some p => Some (StorePipe l p w, s <| procs := <[p := {| state := Held; home := l; pipe_of := w |}]> (procs s) |>)
      | None => Some (ClosePipes l w, s)
      end
  | ClosePipes l w => Some (FreePipe l Fail, set_pipe (fun q => {| maker := maker q; written := written q; writable := false |}) w s)
  | StorePipe l p w => Some (StorePid l p w, set_deathPipe (Some w) l s)
  | StorePid l p w => Some (Release p w, set_pid p l s)
  | Release p w =>
      Some (Return (Some w), match state <$> procs s !! p with Some Held => set_state Running p s | _ => s end)
  | _ => None
  end.

(** wait4() has a child's status: the kernel forgets the child. *)
Definition wait_for (p : Z) (q : Proc) (payload : pipe_payload) (s : Shared) : Shared :=
  s <| procs := delete p (procs s) |>
    <| gone := gone s ++ [{| gone_pid := p; gone_home := home q; gone_pipe := pipe_of q; gone_payload := payload |}] |>.

(** What is reported of a child that ended with this status and usage. *)
Definition payload_of (status : Z) (usage : rusage) : pipe_payload :=
  (convertStatusToForkfdInfo status {| fi_code := CLD_EXITED; fi_status := 0 |}, usage).

(** tryReaping(): wait4() for one child. *)
Definition tryReaping (p : Z) (s : Shared) : option (pipe_payload * Shared) :=
  match procs s !! p with
  | Some q =>
      match state q with
      | Zombie status usage => Some (payload_of status usage, wait_for p q (payload_of status usage) s)
      | _ => None
      end
  | None => None
  end.

(** isChildReady() *)
Definition isChildReady (p : Z) (s : Shared) : bool :=
  match state <$> procs s !! p with Some (Zombie _ _) => true | _ => false end.

(** notifyAndFreeInfo() and freeInfo(): the assertion is that the count is not
    negative. *)
Definition step_notifyAndFreeInfo (a : Pc) (s : Shared) : option (outcome (Pc * Shared)) :=
  match a with
  | Notify l p payload next =>
      w ← deathPipe <$> entry_at l s;
      Some (Ret (Close l next,
        match w with
        | Some w => set_pipe (fun q => if writable q then {| maker := maker q; written := written q ++ [payload]; writable := true |} else q) w s
        | None => s
        end))
  | Close l next =>
      w ← deathPipe <$> entry_at l s;
      Some (Ret (FreePipe l next,
        match w with Some w => set_pipe (fun q => {| maker := maker q; written := written q; writable := false |}) w s | None => s end))
  | FreePipe l next => Some (Ret (FreePid l next, set_deathPipe None l s))
  | FreePid l next => Some (Ret (FreeCount l.1 next, set_pid 0 l s))
  | FreeCount k next =>
      sec ← children s !! k;
      Some (_ ← assertion (0 <=? busyCount sec - 1); Ret (resume next, add_busy (-1) k s))
  | _ => None
  end.

(** reapChildProcesses() *)
Definition step_reapChildProcesses (c : Answer) (a : Pc) (s : Shared) : option (Pc * Shared) :=
  match a with
  | Peek => Some (match peeked c with Some p => Search p (O, O) | None => Idle end, s)
  | Search p (k, i) =>
      if (i <? size_at k s)%nat then
        if bool_decide (pid_at (k, i) s = Some p) then Some (Reap (k, i) p Again, set_pid (-1) (k, i) s) else Some (Search p (k, S i), s)
      else if (S k <? length (children s))%nat then Some (Search p (S k, O), s) else Some (Walk (O, O), s)
  | Reap l p next =>
      match tryReaping p s with
      | Some (payload, s) => Some (Notify l p payload next, s)
      | None => Some (resume next, s)
      end
  | Walk (k, i) =>
      if (i <? size_at k s)%nat then
        p ← pid_at (k, i) s;
        if p <=? 0 then Some (Walk (k, S i), s) else Some (CheckReady (k, i) p, s)
      else if (S k <? length (children s))%nat then Some (Walk (S k, O), s) else Some (Idle, s)
  | CheckReady (k, i) p => if isChildReady p s then Some (Lock (k, i) p, s) else Some (Walk (k, S i), s)
  | Lock (k, i) p =>
      if bool_decide (pid_at (k, i) s = Some p) then Some (Reap (k, i) p (Onward (k, i)), set_pid (-1) (k, i) s) else Some (Walk (k, S i), s)
  | _ => None
  end.

(** One step of an agent; [Ub] is a failed assertion or an access outside the table. *)
Definition agent_step (c : Answer) (a : Pc) (s : Shared) : outcome (Pc * Shared) :=
  match a with
  | Idle => Ret (Idle, s)
  | Return _ => Ret (Idle, s)
  | TryAdd _ | TryTake _ | TryUndo _ => of_option (step_tryAllocateInSection a s)
  | NextLoad _ | NextLink _ => of_option (step_allocateInfo c a s)
  | MakePipe _ | MakeSync _ _ | Fork _ _ | ClosePipes _ _ | StorePipe _ _ _ | StorePid _ _ _ | Release _ _ =>
      of_option (step_forkfd_fork_fallback c a s)
  | Peek | Search _ _ | Walk _ | CheckReady _ _ | Lock _ _ | Reap _ _ _ => of_option (step_reapChildProcesses c a s)
  | Notify _ _ _ _ | Close _ _ | FreePipe _ _ | FreePid _ _ | FreeCount _ _ =>
      match step_notifyAndFreeInfo a s with Some r => r | None => Ub end
  end.

(** * The system *)

(** What the kernel answers: waitid(P_ALL) shows a child that has ended, or nothing
    when there is none; fork() gives a number that no child has that is still there
    (one that has not been waited for); the number of a child that was waited for may
    be used again at once. *)
Definition is_zombie (st : ProcState) : bool := match st with Zombie _ _ => true | _ => false end.
Record valid (c : Answer) (s : Shared) : Prop := {
  valid_some : forall p, peeked c = Some p -> (exists q, procs s !! p = Some q /\ is_zombie (state q) = true) \/ p ∈ others s;
  valid_none : peeked c = None -> forall p q, procs s !! p = Some q -> is_zombie (state q) = false;
  valid_fork : forall p, forked c = Some p -> 0 < p /\ procs s !! p = None /\ p ∉ others s }.

Record System := { agents : list Pc; shared : Shared }.

Inductive step : System -> System -> Prop :=
| step_agent t c a a' ags s s' :
    ags !! t = Some a -> valid c s -> agent_step c a s = Ret (a', s') ->
    step {| agents := ags; shared := s |} {| agents := <[t := a']> ags; shared := s' |}
| step_call t ags s : (** a thread calls forkfd() *)
    ags !! t = Some Idle -> step {| agents := ags; shared := s |} {| agents := <[t := TryAdd 0]> ags; shared := s |}
| step_signal t ags s : (** SIGCHLD is delivered *)
    ags !! t = Some Idle -> step {| agents := ags; shared := s |} {| agents := <[t := Peek]> ags; shared := s |}
| step_exit p q status usage ags s : (** a child ends *)
    procs s !! p = Some q -> state q = Running ->
    step {| agents := ags; shared := s |} {| agents := ags; shared := set_state (Zombie status usage) p s |}
| step_other p ags s : (** the process has another child *)
    0 < p -> procs s !! p = None -> step {| agents := ags; shared := s |} {| agents := ags; shared := s <| others := {[p]} ∪ others s |> |}
| step_other_gone p ags s : (** ... which is waited for elsewhere *)
    step {| agents := ags; shared := s |} {| agents := ags; shared := s <| others := others s ∖ {[p]} |> |}.

(** A signal handler has seen that the child with the number [p] has ended, and has yet
    to lock its entry. *)
Definition holds (a : Pc) (p : Z) : bool := match a with Search p' _ | Lock _ p' => p' =? p | _ => false end.

(** A step in which no child gets a number that a handler holds. The code does not
    guard against the others: see reused_number_loses_child in ForkfdReap.v. *)
Definition unraced_step (sys sys' : System) : Prop :=
  step sys sys' /\
  forall p, procs (shared sys) !! p = None -> is_Some (procs (shared sys') !! p) ->
    forall t a, agents sys !! t = Some a -> holds a p = false.

Definition start (threads : nat) : System :=
  {| agents := replicate threads Idle;
     shared := {| children := [new_array CHILDREN_IN_SMALL_ARRAY]; procs := ∅; gone := []; pipes := []; others := ∅ |} |}.

(** The call of reapChildProcesses() by one agent that is not interrupted: [pick] is
    what waitid(P_ALL) shows. *)
Fixpoint run_alone (fuel : nat) (pick : Shared -> option Z) (a : Pc) (s : Shared) : option (outcome Shared) :=
  match fuel with
  | O => None
  | S fuel =>
      match a with
      | Idle => Some (Ret s)
      | _ =>
          match agent_step {| peeked := pick s; calloc_ok := false; pipe_ok := false; sync_ok := false; forked := None |} a s with
          | Ret (a, s) => run_alone fuel pick a s
          | Exit e => Some (Exit e)
          | Ub => Some Ub
          end
      end
  end.
