(* ===== verification/ForkfdProofs.v ===== *)
(** The table of forkfd() (src/framework/forkfd/forkfd.c) under every interleaving of
    threads and signal handlers: the invariant of the system of Forkfd.v, and what
    follows from it. *)

From stdpp Require Import gmap.
From S2P Require Import Prelude Results Forkfd.

(** * Sums *)

Fixpoint total {A} (f : A -> Z) (l : list A) : Z := match l with [] => 0 | x :: l => f x + total f l end.

Lemma total_alter {A} (f : A -> Z) (g : A -> A) i x l : l !! i = Some x -> total f (alter g i l) = total f l - f x + f (g x).
Proof.
  revert i. induction l as [|y l IH]; intros i Hi; [done|]. destruct i as [|i]; [injection Hi as ->; simpl; lia|].
  change (alter g (S i) (y :: l)) with (y :: alter g i l). cbn [total]. rewrite (IH i Hi). lia.
Qed.

Lemma alter_none {A} (g : A -> A) (i : nat) (l : list A) : l !! i = None -> alter g i l = l.
Proof. revert i. induction l as [|y l IH]; intros [|i] Hi; [done..|]. change (alter g (S i) (y :: l)) with (y :: alter g i l). by rewrite IH. Qed.

Lemma total_insert {A} (f : A -> Z) i x y l : l !! i = Some x -> total f (<[i := y]> l) = total f l - f x + f y.
Proof. revert i. induction l as [|z l IH]; intros i Hi; [done|]. destruct i as [|i]; simpl in *; [injection Hi as ->; lia|rewrite (IH i Hi); lia]. Qed.

Lemma total_filter {A} (P : A -> Prop) `{forall x, Decision (P x)} l : len (filter P l) = total (fun x => if decide (P x) then 1 else 0) l.
Proof. unfold len. induction l as [|x l IH]; [done|]. rewrite filter_cons. cbn [total]. rewrite <- IH. case_decide; simpl; lia. Qed.

Lemma total_ext {A} (f g : A -> Z) l : (forall x, f x = g x) -> total f l = total g l.
Proof. intros H. induction l as [|x l IH]; simpl; [done|]. by rewrite H, IH. Qed.

Section Nonneg.
Context {A : Type} (f : A -> Z) (Hf : forall x, 0 <= f x).
Lemma children_total_nonneg l : 0 <= total f l.
Proof using Hf. induction l as [|x l IH]; simpl; [done|]. specialize (Hf x). lia. Qed.

Lemma total_member l i x : l !! i = Some x -> f x <= total f l.
Proof using Hf.
  revert i. induction l as [|y l IH]; intros i Hi; [done|]. simpl. pose proof (children_total_nonneg l).
  destruct i as [|i]; [injection Hi as ->; lia|]. specialize (IH i Hi). specialize (Hf y). lia.
Qed.

Lemma children_total_members l i j x y : i <> j -> l !! i = Some x -> l !! j = Some y -> f x + f y <= total f l.
Proof using Hf.
  revert i j. induction l as [|z l IH]; intros i j Hij Hi Hj; [done|]. simpl. destruct i as [|i], j as [|j]; [done| | |].
  - injection Hi as ->. pose proof (total_member l j y Hj). lia.
  - injection Hj as ->. pose proof (total_member l i x Hi). lia.
  - pose proof (IH i j ltac:(congruence) Hi Hj). specialize (Hf z). lia.
Qed.
End Nonneg.

(** * The table *)

Definition dp_at (l : nat * nat) (s : Shared) : option nat := entry_at l s ≫= deathPipe.
Definition busy_at (k : nat) (s : Shared) : Z := default 0 (busyCount <$> children s !! k).
Definition used (e : ProcessInfo) : Z := if pid e =? 0 then 0 else 1.
Definition used_at (k : nat) (s : Shared) : Z := default 0 ((fun sec => total used (entries sec)) <$> children s !! k).

Lemma entry_at_set_entry f l l' s : entry_at l (set_entry f l' s) = if decide (l = l') then f <$> entry_at l s else entry_at l s.
Proof.
  destruct l as [k i], l' as [k' i']. unfold entry_at, set_entry. simpl. destruct (decide (k = k')) as [->|Hk].
  - rewrite list_lookup_alter_eq. destruct (children s !! k') as [sec|]; simpl; [|by case_decide]. destruct (decide (i = i')) as [->|Hi].
    + rewrite list_lookup_alter_eq. by rewrite decide_True.
    + rewrite list_lookup_alter_ne by done. rewrite decide_False by congruence. done.
  - rewrite list_lookup_alter_ne by done. rewrite decide_False by congruence. done.
Qed.

Lemma pid_at_set_pid p l l' s : pid_at l (set_pid p l' s) = if decide (l = l') then (fun _ => p) <$> pid_at l s else pid_at l s.
Proof. unfold pid_at, set_pid. rewrite entry_at_set_entry. case_decide; [|done]. by destruct (entry_at l s). Qed.
Lemma dp_at_set_pid p l l' s : dp_at l (set_pid p l' s) = dp_at l s.
Proof. unfold dp_at, set_pid. rewrite entry_at_set_entry. case_decide; [|done]. by destruct (entry_at l s). Qed.
Lemma pid_at_set_deathPipe w l l' s : pid_at l (set_deathPipe w l' s) = pid_at l s.
Proof. unfold pid_at, set_deathPipe. rewrite entry_at_set_entry. case_decide; [|done]. by destruct (entry_at l s). Qed.
Lemma dp_at_set_deathPipe w l l' s : dp_at l (set_deathPipe w l' s) = if decide (l = l') then (entry_at l s ≫= fun _ => w) else dp_at l s.
Proof. unfold dp_at, set_deathPipe. rewrite entry_at_set_entry. case_decide; [|done]. by destruct (entry_at l s). Qed.

Lemma entry_at_add_busy d k l s : entry_at l (add_busy d k s) = entry_at l s.
Proof.
  unfold entry_at, add_busy. simpl. destruct (decide (l.1 = k)) as [<-|Hk]; [|by rewrite list_lookup_alter_ne].
  rewrite list_lookup_alter_eq. by destruct (children s !! l.1).
Qed.

Lemma busy_at_set_entry f l k s : busy_at k (set_entry f l s) = busy_at k s.
Proof.
  unfold busy_at, set_entry. simpl. destruct (decide (l.1 = k)) as [<-|Hk]; [|by rewrite list_lookup_alter_ne].
  rewrite list_lookup_alter_eq. by destruct (children s !! l.1).
Qed.

Lemma busy_at_add_busy d k k' s : (k < length (children s))%nat -> busy_at k' (add_busy d k s) = busy_at k' s + if decide (k = k') then d else 0.
Proof.
  intros Hk. unfold busy_at, add_busy. simpl. case_decide as E; [subst k'|rewrite list_lookup_alter_ne by done; lia].
  rewrite list_lookup_alter_eq. destruct (lookup_lt_is_Some_2 _ _ Hk) as [sec ->]. done.
Qed.

Lemma used_at_add_busy d k k' s : used_at k' (add_busy d k s) = used_at k' s.
Proof.
  unfold used_at, add_busy. simpl. destruct (decide (k = k')) as [<-|Hk]; [|by rewrite list_lookup_alter_ne].
  rewrite list_lookup_alter_eq. by destruct (children s !! k).
Qed.

Lemma used_at_set_deathPipe w l k s : used_at k (set_deathPipe w l s) = used_at k s.
Proof.
  unfold used_at, set_deathPipe, set_entry. simpl. destruct (decide (l.1 = k)) as [<-|Hk]; [|by rewrite list_lookup_alter_ne].
  rewrite list_lookup_alter_eq. destruct (children s !! l.1) as [sec|]; [|done]. simpl. destruct (entries sec !! l.2) as [e|] eqn:E.
  - rewrite (total_alter used _ _ e) by done. unfold used. simpl. lia.
  - by rewrite alter_none.
Qed.

Lemma used_at_set_pid p l k s old : pid_at l s = Some old ->
  used_at k (set_pid p l s) = used_at k s + if decide (l.1 = k) then (if p =? 0 then 0 else 1) - (if old =? 0 then 0 else 1) else 0.
Proof.
  intros Hl. unfold used_at, set_pid, set_entry. simpl. case_decide as E; [subst k|rewrite list_lookup_alter_ne by done; lia].
  rewrite list_lookup_alter_eq. unfold pid_at, entry_at in Hl. destruct (children s !! l.1) as [sec|]; [|done]. simpl in *.
  destruct (entries sec !! l.2) as [e|] eqn:E; [|done]. injection Hl as <-. rewrite (total_alter used _ _ e) by done. unfold used. simpl. lia.
Qed.

(** * The invariant *)

(** The entry an agent works on, and the array whose count it has raised without
    having an entry. *)
Definition owned (a : Pc) : option (nat * nat) :=
  match a with
  | MakePipe l | MakeSync l _ | Fork l _ | ClosePipes l _ | StorePipe l _ _ | StorePid l _ _ | Reap l _ _ | Notify l _ _ _ | Close l _
  | FreePipe l _ | FreePid l _ => Some l
  | _ => None
  end.
Definition transit (a : Pc) : option nat :=
  match a with TryTake (k, _) | TryUndo k | FreeCount k _ => Some k | _ => None end.
Definition owns (l : nat * nat) (a : Pc) : Z := if decide (owned a = Some l) then 1 else 0.
Definition transits (k : nat) (a : Pc) : Z := if decide (transit a = Some k) then 1 else 0.

(** The number is not that of a child that still runs. *)
Definition seen (p : Z) (s : Shared) : Prop := forall q, procs s !! p = Some q -> is_zombie (state q) = true.

(** A pipe is that of a child, of one that is still there or of one that is gone. *)
Definition taken (w : nat) (s : Shared) : Prop :=
  (exists p q, procs s !! p = Some q /\ pipe_of q = w) \/ exists g, g ∈ gone s /\ gone_pipe g = w.

(** A pipe that was made for an entry and that no child has yet. *)
Definition spare (l : nat * nat) (w : nat) (s : Shared) : Prop :=
  (exists b, pipes s !! w = Some {| maker := l; written := []; writable := b |}) /\ ~ taken w s.

(** The child that is gone and whose entry is still locked. *)
Definition leaves (l : nat * nat) (g : Gone) (s : Shared) : Prop := g ∈ gone s /\ gone_home g = l /\ dp_at l s = Some (gone_pipe g).

(** What an agent relies on. *)
Definition pc_ok (a : Pc) (s : Shared) : Prop :=
  match a with
  | TryAdd k | TryTake (k, _) | TryUndo k | NextLoad k | NextLink k | FreeCount k _ => (k < length (children s))%nat
  | MakeSync l w | Fork l w => spare l w s /\ writable <$> pipes s !! w = Some true
  | ClosePipes l w => spare l w s
  | StorePipe l p w => 0 < p /\ procs s !! p = Some {| state := Held; home := l; pipe_of := w |}
  | StorePid l p w => 0 < p /\ procs s !! p = Some {| state := Held; home := l; pipe_of := w |} /\ dp_at l s = Some w
  | Release p w => exists q, procs s !! p = Some q /\ state q = Held /\ pid_at (home q) s = Some p
  | Search p _ | Lock _ p => 0 < p /\ seen p s
  | CheckReady _ p => 0 < p
  | Reap l p _ => exists q, procs s !! p = Some q /\ is_zombie (state q) = true /\ home q = l /\ dp_at l s = Some (pipe_of q)
  | Notify l p payload _ => exists g, leaves l g s /\ gone_pid g = p /\ gone_payload g = payload /\
      pipes s !! gone_pipe g = Some {| maker := l; written := []; writable := true |}
  | Close l _ => exists g pipe, leaves l g s /\ pipes s !! gone_pipe g = Some pipe /\ maker pipe = l /\ written pipe = [gone_payload g]
  | _ => True
  end.

(** What holds of a child of forkfd(): its pipe is empty and open, and when it was
    released it is in the table, or an agent that has locked its entry is about to
    wait for it. *)
Definition proc_ok (ags : list Pc) (s : Shared) (p : Z) (q : Proc) : Prop :=
  0 < p /\ pipes s !! pipe_of q = Some {| maker := home q; written := []; writable := true |} /\
  (state q = Held \/ pid_at (home q) s = Some p \/ exists t next, ags !! t = Some (Reap (home q) p next)).

(** What holds of one that is gone: its status is in its pipe, unless the agent that
    waited for it is about to write it. *)
Definition gone_ok (ags : list Pc) (s : Shared) (g : Gone) : Prop :=
  exists pipe, pipes s !! gone_pipe g = Some pipe /\ maker pipe = gone_home g /\
  (written pipe = [gone_payload g] \/
   exists t next, ags !! t = Some (Notify (gone_home g) (gone_pid g) (gone_payload g) next) /\
     dp_at (gone_home g) s = Some (gone_pipe g) /\ written pipe = []).

(** No two children have one pipe. *)
Record own_pipes (s : Shared) : Prop := {
  own_procs : forall p p' q q', procs s !! p = Some q -> procs s !! p' = Some q' -> pipe_of q = pipe_of q' -> p = p';
  own_gone : NoDup (gone_pipe <$> gone s);
  own_both : forall p q g, procs s !! p = Some q -> g ∈ gone s -> pipe_of q <> gone_pipe g }.

Record inv (ags : list Pc) (s : Shared) : Prop := {
  inv_first : (0 < length (children s))%nat;
  inv_own : forall l, total (owns l) ags = if decide (pid_at l s = Some (-1)) then 1 else 0;
  inv_busy : forall k, busy_at k s = used_at k s + total (transits k) ags;
  inv_pids : forall l p, pid_at l s = Some p -> p = -1 \/ p = 0 \/
    (0 < p /\ exists q, procs s !! p = Some q /\ home q = l /\ dp_at l s = Some (pipe_of q));
  inv_proc : forall p q, procs s !! p = Some q -> proc_ok ags s p q;
  inv_gone : forall g, g ∈ gone s -> gone_ok ags s g;
  inv_inj : own_pipes s;
  inv_others : forall p, p ∈ others s -> 0 < p /\ procs s !! p = None;
  inv_rel : forall t t' p w w', ags !! t = Some (Release p w) -> ags !! t' = Some (Release p w') -> t = t';
  inv_pc : forall t a, ags !! t = Some a -> pc_ok a s }.

Lemma unused_array n : total used (replicate n {| pid := 0; deathPipe := None |}) = 0.
Proof. induction n as [|n IH]; [done|]. cbn [replicate total]. by rewrite IH. Qed.

Lemma owns_nonneg l a : 0 <= owns l a.
Proof. unfold owns. case_decide; lia. Qed.
Lemma transits_nonneg k a : 0 <= transits k a.
Proof. unfold transits. case_decide; lia. Qed.
Lemma used_nonneg e : 0 <= used e.
Proof. unfold used. case_match; lia. Qed.

Section Facts.
Context (ags : list Pc) (s : Shared) (I : inv ags s).

Lemma owner_pid t a l : ags !! t = Some a -> owned a = Some l -> pid_at l s = Some (-1).
Proof using I.
  intros Ht Ho. pose proof (total_member _ (owns_nonneg l) ags t a Ht) as H. rewrite (inv_own _ _ I) in H. unfold owns in H. rewrite decide_True in H by done.
  case_decide; [done|lia].
Qed.

Lemma owner_unique t t' a a' l : ags !! t = Some a -> ags !! t' = Some a' -> owned a = Some l -> owned a' = Some l -> t = t'.
Proof using I.
  intros Ht Ht' Ho Ho'. destruct (decide (t = t')) as [|Hne]; [done|]. pose proof (children_total_members _ (owns_nonneg l) ags t t' a a' Hne Ht Ht') as H.
  rewrite (inv_own _ _ I) in H. unfold owns in H. rewrite !decide_True in H by done. case_decide; lia.
Qed.

Lemma registered l p : pid_at l s = Some p -> 0 < p ->
  exists q, procs s !! p = Some q /\ home q = l /\ dp_at l s = Some (pipe_of q).
Proof using I. intros Hl Hp. destruct (inv_pids _ _ I l p Hl) as [->|[->|[_ H]]]; [lia|lia|done]. Qed.

Lemma used_at_nonneg k : 0 <= used_at k s.
Proof using Type. unfold used_at. destruct (children s !! k) as [sec|]; simpl; [apply children_total_nonneg, used_nonneg|lia]. Qed.

Lemma transit_count t a k : ags !! t = Some a -> transit a = Some k -> 1 <= busy_at k s.
Proof using I.
  intros Ht Hk. pose proof (total_member _ (transits_nonneg k) ags t a Ht) as H. unfold transits at 1 in H. rewrite decide_True in H by done.
  rewrite (inv_busy _ _ I). pose proof (used_at_nonneg k). lia.
Qed.
End Facts.

(** * Steps keep the invariant *)

(** What a step must leave alone for another agent. *)
Record stable (b : Pc) (s s' : Shared) : Prop := {
  st_length : (length (children s) <= length (children s'))%nat;
  st_owned : forall p q, procs s !! p = Some q -> owned b = Some (home q) -> procs s' !! p = Some q;
  st_held : forall p w q, b = Release p w -> procs s !! p = Some q -> state q = Held -> procs s' !! p = Some q;
  st_new : forall p q', procs s' !! p = Some q' ->
    (exists q, procs s !! p = Some q /\ pipe_of q = pipe_of q' /\ (is_zombie (state q) = true -> is_zombie (state q') = true)) \/
    (holds b p = false /\ exists x, pipes s !! pipe_of q' = Some x /\ owned b <> Some (maker x));
  st_gone : forall g, g ∈ gone s -> g ∈ gone s';
  st_gone_new : forall g, g ∈ gone s' -> taken (gone_pipe g) s;
  st_dp : forall l, owned b = Some l -> dp_at l s' = dp_at l s;
  st_pid : forall p q, procs s !! p = Some q -> state q = Held -> pid_at (home q) s = Some p -> pid_at (home q) s' = Some p;
  st_pipes : forall w x, pipes s !! w = Some x -> owned b = Some (maker x) -> pipes s' !! w = Some x }.

Lemma seen_stable b p s s' : stable b s s' -> holds b p = true -> seen p s -> seen p s'.
Proof.
  intros S Hb Hs q' Hq'. destruct (st_new _ _ _ S p q' Hq') as [(q & Hq & _ & Hz)|[Hf _]]; [by apply Hz, Hs|congruence].
Qed.

Lemma spare_stable b l w s s' : stable b s s' -> owned b = Some l -> spare l w s -> spare l w s' /\ pipes s' !! w = pipes s !! w.
Proof.
  intros S Ho ((x & Hx) & Hn). pose proof (st_pipes _ _ _ S _ _ Hx Ho) as Hx'. rewrite Hx, Hx'. split; [|done]. split; [by eexists|].
  intros [(p & q' & Hq' & Hw)|(g & Hg & <-)]; [|by apply Hn, (st_gone_new _ _ _ S)].
  destruct (st_new _ _ _ S p q' Hq') as [(q & Hq & E & _)|(_ & y & Hy & Hy')].
  - apply Hn. left. exists p, q. split; [done|congruence].
  - rewrite Hw, Hx in Hy. injection Hy as <-. done.
Qed.

Lemma leaves_stable b l g s s' : stable b s s' -> owned b = Some l -> leaves l g s -> leaves l g s'.
Proof. intros S Ho (Hg & Hh & Hd). split; [by apply (st_gone _ _ _ S)|]. split; [done|]. by rewrite (st_dp _ _ _ S). Qed.

Lemma pc_ok_stable b s s' : stable b s s' -> pc_ok b s -> pc_ok b s'.
Proof.
  intros S. pose proof (st_length _ _ _ S) as Hlen.
  destruct b as [|fd|k|[k i]|k|k|k|l|l w|l w|l w|l p w|l p w|p w| |p l|l|l p|l p|l p next|l p payload next|l next|l next|l next|k next]; cbn [pc_ok]; try done; try lia.
  - intros [Hs Hw]. destruct (spare_stable _ l w _ _ S eq_refl Hs) as [Hs' ->]. done.
  - intros [Hs Hw]. destruct (spare_stable _ l w _ _ S eq_refl Hs) as [Hs' ->]. done.
  - intros Hs. apply (spare_stable _ l w _ _ S eq_refl Hs).
  - intros [Hp Hq]. split; [done|]. by apply (st_owned _ _ _ S).
  - intros (Hp & Hq & Hd). split; [done|]. split; [by apply (st_owned _ _ _ S)|]. by rewrite (st_dp _ _ _ S).
  - intros (q & Hq & Hh & Hl). exists q. split; [by apply (st_held _ _ _ S p w)|]. split; [done|]. by apply (st_pid _ _ _ S).
  - intros [Hp Hs]. split; [done|]. apply (seen_stable _ _ _ _ S); [apply Z.eqb_refl|done].
  - intros [Hp Hs]. split; [done|]. apply (seen_stable _ _ _ _ S); [apply Z.eqb_refl|done].
  - intros (q & Hq & Hz & Hh & Hd). exists q. rewrite (st_dp _ _ _ S) by done. rewrite (st_owned _ _ _ S p q) by (simpl; congruence). done.
  - intros (g & Hg & Hp & Hl & Hw). exists g. split; [by apply (leaves_stable _ _ _ _ _ S)|]. by rewrite (st_pipes _ _ _ S _ _ Hw).
  - intros (g & x & Hg & Hx & Hm & Hw). exists g, x. split; [by apply (leaves_stable _ _ _ _ _ S)|]. rewrite (st_pipes _ _ _ S _ _ Hx); [done|by rewrite Hm].
Qed.

(** An agent that waits for a child or notifies of it is still there after another
    one has moved. *)
Lemma agent_stays (F : After -> Pc) (ags : list Pc) (t : nat) a a' : ags !! t = Some a -> (forall next, a <> F next) ->
  (exists t' next, ags !! t' = Some (F next)) -> exists t' next, <[t := a']> ags !! t' = Some (F next).
Proof.
  intros Ht Hne (t' & next & Ht'). exists t', next. rewrite list_lookup_insert_ne; [done|]. intros ->. rewrite Ht in Ht'. injection Ht' as ->. by apply (Hne next).
Qed.

Lemma proc_ok_stable ags ags' s s' p q : proc_ok ags s p q -> pipes s' !! pipe_of q = pipes s !! pipe_of q ->
  (pid_at (home q) s = Some p -> state q = Held \/ pid_at (home q) s' = Some p \/ exists t next, ags' !! t = Some (Reap (home q) p next)) ->
  ((exists t next, ags !! t = Some (Reap (home q) p next)) -> exists t next, ags' !! t = Some (Reap (home q) p next)) ->
  proc_ok ags' s' p q.
Proof. intros (Hp & Hx & Hst) Hw Hpid Hreap. split; [done|]. split; [by rewrite Hw|]. destruct Hst as [H|[H|H]]; auto. Qed.

Lemma gone_ok_stable ags ags' s s' g : gone_ok ags s g -> pipes s' !! gone_pipe g = pipes s !! gone_pipe g ->
  (forall t next, ags !! t = Some (Notify (gone_home g) (gone_pid g) (gone_payload g) next) -> dp_at (gone_home g) s = Some (gone_pipe g) ->
     ags' !! t = Some (Notify (gone_home g) (gone_pid g) (gone_payload g) next) /\ dp_at (gone_home g) s' = dp_at (gone_home g) s) ->
  gone_ok ags' s' g.
Proof.
  intros (x & Hx & Hm & Hst) Hw Hn. exists x. split; [congruence|]. split; [done|]. destruct Hst as [H|(t & next & Ht & Hd & H)]; [by left|right].
  exists t, next. destruct (Hn t next Ht Hd) as [Ht' Hd']. split; [done|]. split; [congruence|done].
Qed.

(** The children stay as they are. *)
Lemma stable_same b s s' : procs s' = procs s -> gone s' = gone s -> (length (children s) <= length (children s'))%nat ->
  (forall l, owned b = Some l -> dp_at l s' = dp_at l s) ->
  (forall p q, procs s !! p = Some q -> state q = Held -> pid_at (home q) s = Some p -> pid_at (home q) s' = Some p) ->
  (forall w x, pipes s !! w = Some x -> owned b = Some (maker x) -> pipes s' !! w = Some x) -> stable b s s'.
Proof.
  intros Hp Hg Hl Hd Hpid Hw. constructor; rewrite ?Hp, ?Hg; try done.
  - intros p q' Hq. left. by exists q'.
  - intros g Hin. right. by exists g.
Qed.

Lemma own_pipes_same s s' : procs s' = procs s -> gone s' = gone s -> own_pipes s -> own_pipes s'.
Proof. intros Hp Hg [H1 H2 H3]. constructor; rewrite ?Hp, ?Hg; done. Qed.

(** The pipe says which child it was. *)
Lemma gone_same (gs : list Gone) g g' : NoDup (gone_pipe <$> gs) -> g ∈ gs -> g' ∈ gs -> gone_pipe g = gone_pipe g' -> g = g'.
Proof.
  intros Hn [i Hi]%list_elem_of_lookup [j Hj]%list_elem_of_lookup E.
  assert (i = j) as -> by (eapply (NoDup_lookup _ _ _ (gone_pipe g) Hn); rewrite list_lookup_fmap; [by rewrite Hi|rewrite Hj; simpl; congruence]). congruence.
Qed.

Section Update.
Context (ags : list Pc) (s : Shared) (I : inv ags s) (t : nat) (a : Pc) (Ht : ags !! t = Some a).

(** The agent does not get to the call of forkfd() that lets a child go on. *)
Definition quiet (a' : Pc) : Prop := match a' with Release _ _ => False | _ => True end.

Lemma inv_update a' s' :
  (forall l, (if decide (pid_at l s' = Some (-1)) then 1 else 0) = (if decide (pid_at l s = Some (-1)) then 1 else 0) - owns l a + owns l a') ->
  (forall k, busy_at k s' - used_at k s' = busy_at k s - used_at k s - transits k a + transits k a') ->
  (forall l p, pid_at l s' = Some p -> p = -1 \/ p = 0 \/
    (0 < p /\ exists q, procs s' !! p = Some q /\ home q = l /\ dp_at l s' = Some (pipe_of q))) ->
  (forall p q, procs s' !! p = Some q -> proc_ok (<[t := a']> ags) s' p q) ->
  (forall g, g ∈ gone s' -> gone_ok (<[t := a']> ags) s' g) ->
  own_pipes s' ->
  (forall p, p ∈ others s' -> 0 < p /\ procs s' !! p = None) ->
  quiet a' \/ (forall p w t' w', a' = Release p w -> t' <> t -> ags !! t' <> Some (Release p w')) ->
  pc_ok a' s' -> (forall t' b, t' <> t -> ags !! t' = Some b -> stable b s s') -> (0 < length (children s'))%nat -> inv (<[t := a']> ags) s'.
Proof using I Ht.
  intros Hown Hbusy Hpids Hproc Hgone Hinj Hoth Hrel Hpc Hst Hfirst. pose proof (lookup_lt_Some _ _ _ Ht) as Hlt. constructor; try done.
  - intros l. rewrite (total_insert _ _ a), (inv_own _ _ I), Hown by done. done.
  - intros k. rewrite (total_insert _ _ a) by done. pose proof (inv_busy _ _ I k). specialize (Hbusy k). lia.
  - assert (forall t1 t2 p w w', t1 = t -> t2 <> t -> <[t := a']> ags !! t1 = Some (Release p w) -> <[t := a']> ags !! t2 = Some (Release p w') -> False) as Hx.
    { intros t1 t2 p w w' -> Hne H1 H2. rewrite list_lookup_insert_eq in H1 by done. rewrite list_lookup_insert_ne in H2 by done. injection H1 as ->.
      destruct Hrel as [Hq|Hrel]; [done|]. by eapply (Hrel p w t2 w'). }
    intros t1 t2 p w w' H1 H2. destruct (decide (t1 = t)) as [E1|N1], (decide (t2 = t)) as [E2|N2]; [congruence|by destruct (Hx _ _ _ _ _ E1 N2 H1 H2)|
      by destruct (Hx _ _ _ _ _ E2 N1 H2 H1)|]. rewrite list_lookup_insert_ne in H1, H2 by done. by apply (inv_rel _ _ I t1 t2 p w w').
  - intros t' b Hb. destruct (decide (t' = t)) as [->|Hne].
    + rewrite list_lookup_insert_eq in Hb by done. by injection Hb as <-.
    + rewrite list_lookup_insert_ne in Hb by done. eapply pc_ok_stable; [by eapply Hst|]. by apply (inv_pc _ _ I t').
Qed.

(** The agent is not one that waits for a child or notifies of it. *)
Definition plain : Prop := match a with Reap _ _ _ | Notify _ _ _ _ => False | _ => True end.

Lemma proc_ok_plain a' s' p q : plain -> pipes s' !! pipe_of q = pipes s !! pipe_of q ->
  (forall l, pid_at l s = Some p -> pid_at l s' = Some p) -> proc_ok ags s p q -> proc_ok (<[t := a']> ags) s' p q.
Proof using Ht.
  intros Hpl Hw Hpid Hq. eapply proc_ok_stable; [exact Hq|done|intros Hh; right; left; by apply Hpid|].
  apply (agent_stays _ ags t a a' Ht). intros next E. unfold plain in Hpl. by rewrite E in Hpl.
Qed.

Lemma gone_ok_plain a' s' g : plain -> pipes s' !! gone_pipe g = pipes s !! gone_pipe g ->
  (forall t' b l, t' <> t -> ags !! t' = Some b -> owned b = Some l -> dp_at l s' = dp_at l s) -> gone_ok ags s g -> gone_ok (<[t := a']> ags) s' g.
Proof using Ht.
  intros Hpl Hw Hdp Hg. eapply gone_ok_stable; [exact Hg|done|]. intros t' next Ht' _. assert (t' <> t) as Hne.
  { intros ->. rewrite Ht in Ht'. unfold plain in Hpl. injection Ht' as E. by rewrite E in Hpl. }
  split; [by rewrite list_lookup_insert_ne|]. by apply (Hdp t' _ _ Hne Ht').
Qed.

(** Only the program counter moves, or a count with it. *)
Lemma inv_move a' s' : plain -> quiet a' -> pc_ok a' s' -> procs s' = procs s -> gone s' = gone s -> pipes s' = pipes s -> others s' = others s ->
  length (children s') = length (children s) -> (forall l, entry_at l s' = entry_at l s) -> owned a' = owned a ->
  (forall k, busy_at k s' - used_at k s' = busy_at k s - used_at k s - transits k a + transits k a') -> inv (<[t := a']> ags) s'.
Proof using I Ht.
  intros Hpl Hqu Hpc Hp Hg Hw Ho Hl He Hown Hbusy.
  assert (forall l, pid_at l s' = pid_at l s) as Hpid by (intros l; unfold pid_at; by rewrite He).
  assert (forall l, dp_at l s' = dp_at l s) as Hdp by (intros l; unfold dp_at; by rewrite He).
  apply inv_update; try done.
  - intros l. rewrite Hpid. unfold owns. rewrite Hown. lia.
  - intros l p. rewrite Hpid, Hdp, Hp. apply (inv_pids _ _ I).
  - intros p q. rewrite Hp. intros Hq. apply proc_ok_plain; [done|by rewrite Hw|intros; by rewrite Hpid|by apply (inv_proc _ _ I)].
  - intros g. rewrite Hg. intros Hin. apply gone_ok_plain; [done|by rewrite Hw|done|by apply (inv_gone _ _ I)].
  - by apply (own_pipes_same s), (inv_inj _ _ I).
  - rewrite Hp, Ho. apply (inv_others _ _ I).
  - by left.
  - intros t' b _ _. apply stable_same; rewrite ?Hw, ?Hl; intros; rewrite ?Hpid, ?Hdp; done.
  - rewrite Hl. apply (inv_first _ _ I).
Qed.

Lemma inv_pure a' : plain -> quiet a' -> pc_ok a' s -> owned a' = owned a -> transit a' = transit a -> inv (<[t := a']> ags) s.
Proof using I Ht. intros Hpl Hqu Hpc Ho Hk. apply inv_move; try done. intros k. unfold transits. rewrite Hk. lia. Qed.

Lemma inv_count a' k d : plain -> quiet a' -> (k < length (children s))%nat -> pc_ok a' s -> owned a' = owned a ->
  (forall k', transits k' a' = transits k' a + if decide (k = k') then d else 0) -> inv (<[t := a']> ags) (add_busy d k s).
Proof using I Ht.
  intros Hpl Hqu Hk Hpc Ho Htr.
  assert (stable a' s (add_busy d k s)) as St.
  { apply stable_same; try done; [simpl; by rewrite length_alter|..]; intros.
    - unfold dp_at. by rewrite entry_at_add_busy.
    - unfold pid_at in *. by rewrite entry_at_add_busy. }
  apply inv_move; try done.
  - by apply (pc_ok_stable _ _ _ St).
  - simpl. by rewrite length_alter.
  - intros. apply entry_at_add_busy.
  - intros k'. rewrite busy_at_add_busy, used_at_add_busy, Htr by done. lia.
Qed.

(** An entry changes hands. *)
Lemma inv_pid a' l old v : pid_at l s = Some old -> plain ->
  quiet a' \/ (forall p w t' w', a' = Release p w -> t' <> t -> ags !! t' <> Some (Release p w')) -> pc_ok a' (set_pid v l s) ->
  (forall l', owns l' a' - owns l' a = (if decide (l' = l) then (if decide (v = -1) then 1 else 0) - (if decide (old = -1) then 1 else 0) else 0)) ->
  (forall k, transits k a' - transits k a = (if decide (l.1 = k) then (if old =? 0 then 0 else 1) - (if v =? 0 then 0 else 1) else 0)) ->
  (v = -1 \/ v = 0 \/ (0 < v /\ exists q, procs s !! v = Some q /\ home q = l /\ dp_at l s = Some (pipe_of q))) ->
  (0 < old -> v = -1 /\ exists next, a' = Reap l old next) ->
  (forall q, procs s !! old = Some q -> state q <> Held) -> inv (<[t := a']> ags) (set_pid v l s).
Proof using I Ht.
  intros Hl Hpl Hqu Hpc Hown Htr Hv Hold Hheld.
  assert (forall t' b, t' <> t -> ags !! t' = Some b -> stable b s (set_pid v l s)) as Hst.
  { intros t' b Hne Hb. apply stable_same; try done; [simpl; by rewrite length_alter|..]; intros.
    - by rewrite dp_at_set_pid.
    - rewrite pid_at_set_pid. destruct (decide (home q = l)) as [E|]; [|done]. rewrite E, Hl in *. simplify_eq.
      match goal with Hq : procs s !! _ = Some q |- _ => by destruct (Hheld q Hq) end. }
  apply inv_update; try done.
  - intros l'. rewrite pid_at_set_pid. specialize (Hown l'). destruct (decide (l' = l)) as [->|]; [|lia]. rewrite Hl. simpl.
    repeat case_decide; simplify_eq; try lia.
  - intros k. unfold set_pid at 1. rewrite busy_at_set_entry, (used_at_set_pid _ _ _ _ old) by done. specialize (Htr k). case_decide; lia.
  - intros l' p. rewrite pid_at_set_pid, dp_at_set_pid. destruct (decide (l' = l)) as [->|]; [|by apply (inv_pids _ _ I)].
    rewrite Hl. intros [= <-]. done.
  - intros p q Hq. eapply proc_ok_stable; [by apply (inv_proc _ _ I)|done| |].
    + intros Hh. right. rewrite pid_at_set_pid. destruct (decide (home q = l)) as [E|]; [|by left]. rewrite E, Hl in Hh. injection Hh as ->.
      right. destruct (inv_proc _ _ I p q Hq) as [Hp0 _]. destruct (Hold Hp0) as (_ & next & ->). exists t, next. rewrite E. apply list_lookup_insert_eq.
      by eapply lookup_lt_Some.
    + apply (agent_stays _ ags t a a' Ht). intros next E. unfold plain in Hpl. by rewrite E in Hpl.
  - intros g Hg. apply gone_ok_plain; [done|done|intros; by rewrite dp_at_set_pid|by apply (inv_gone _ _ I)].
  - by apply (own_pipes_same s), (inv_inj _ _ I).
  - apply (inv_others _ _ I).
  - simpl. rewrite length_alter. apply (inv_first _ _ I).
Qed.

(** Another agent does not work on the entry of this one. *)
Lemma not_owned t' b l : t' <> t -> ags !! t' = Some b -> owned a = Some l -> owned b <> Some l.
Proof using I Ht. intros Hne Hb Ha Hbl. apply Hne. by eapply owner_unique. Qed.

Lemma owner_quiet a' l : owned a' = Some l -> quiet a'.
Proof using Type. by destruct a'. Qed.

(** The owner of an entry sets its pipe; no child has the entry. *)
Lemma inv_dp a' l w : plain -> owned a = Some l -> owned a' = Some l -> transit a' = transit a -> pc_ok a' (set_deathPipe w l s) ->
  inv (<[t := a']> ags) (set_deathPipe w l s).
Proof using I Ht.
  intros Hpl Ha Ha' Htr Hpc. pose proof (owner_pid _ _ I t a l Ht Ha) as Hl.
  assert (forall t' b l', t' <> t -> ags !! t' = Some b -> owned b = Some l' -> dp_at l' (set_deathPipe w l s) = dp_at l' s) as Hdp.
  { intros t' b l' Hne Hb Ho. rewrite dp_at_set_deathPipe, decide_False; [done|]. intros ->. by apply (not_owned t' b l). }
  apply inv_update; try done.
  - intros l'. rewrite pid_at_set_deathPipe. unfold owns. rewrite Ha, Ha'. lia.
  - intros k. unfold set_deathPipe at 1. rewrite busy_at_set_entry, used_at_set_deathPipe. unfold transits. rewrite Htr. lia.
  - intros l' p. rewrite pid_at_set_deathPipe, dp_at_set_deathPipe. destruct (decide (l' = l)) as [->|]; [|apply (inv_pids _ _ I)].
    rewrite Hl. intros [= <-]. by left.
  - intros p q Hq. apply proc_ok_plain; [done|done|intros; by rewrite pid_at_set_deathPipe|by apply (inv_proc _ _ I)].
  - intros g Hg. apply gone_ok_plain; [done|done|by apply Hdp|by apply (inv_gone _ _ I)].
  - by apply (own_pipes_same s), (inv_inj _ _ I).
  - apply (inv_others _ _ I).
  - left. by eapply owner_quiet.
  - intros t' b Hne Hb. apply stable_same; try done; [simpl; by rewrite length_alter|..]; intros; [by apply (Hdp t' b)|by rewrite pid_at_set_deathPipe].
  - simpl. rewrite length_alter. apply (inv_first _ _ I).
Qed.

(** An array is added. *)
Lemma inv_link a' n : plain -> quiet a' -> owned a = None -> owned a' = None -> transit a = None -> transit a' = None ->
  let s' := s <| children := children s ++ [new_array n] |> in pc_ok a' s' -> inv (<[t := a']> ags) s'.
Proof using I Ht.
  intros Hpl Hqu Ha Ha' Hk Hk' s' Hpc.
  assert (forall l, entry_at l s' = entry_at l s \/ (entry_at l s = None /\ pid_at l s' = Some 0 /\ dp_at l s' = None)) as He.
  { intros [k i]. unfold pid_at, dp_at, entry_at. simpl. destruct (lt_eq_lt_dec k (length (children s))) as [[H| ->]|H].
    - left. by rewrite lookup_app_l.
    - rewrite list_lookup_middle by done. rewrite (lookup_ge_None_2 (children s)) by done. simpl.
      destruct (replicate n _ !! i) as [e|] eqn:E; [|by left]. apply lookup_replicate in E as [-> _]. by right.
    - left. rewrite lookup_app_r, !(lookup_ge_None_2) by (simpl; lia). done. }
  assert (forall l p, pid_at l s = Some p -> pid_at l s' = Some p /\ dp_at l s' = dp_at l s) as Hkeep.
  { intros l p. unfold pid_at, dp_at. destruct (He l) as [->|(-> & _)]; done. }
  assert (forall k, busy_at k s' - used_at k s' = busy_at k s - used_at k s) as Hbusy.
  { intros k. unfold busy_at, used_at. simpl. destruct (lt_eq_lt_dec k (length (children s))) as [[H| ->]|H].
    - by rewrite lookup_app_l.
    - rewrite list_lookup_middle by done. rewrite (lookup_ge_None_2 (children s)) by done. simpl.
      by rewrite unused_array.
    - rewrite lookup_app_r, !(lookup_ge_None_2) by (simpl; lia). done. }
  assert (forall t' b l, t' <> t -> ags !! t' = Some b -> owned b = Some l -> dp_at l s' = dp_at l s) as Hdp.
  { intros t' b l _ Hb Ho. pose proof (owner_pid _ _ I t' b l Hb Ho) as Hl. by apply Hkeep in Hl as [_ ->]. }
  apply inv_update; try done.
  - intros l. unfold owns. rewrite Ha, Ha'. destruct (He l) as [E|(E & E' & _)].
    + unfold pid_at. rewrite E. lia.
    + rewrite E'. unfold pid_at. rewrite E. simpl. lia.
  - intros k. rewrite Hbusy. unfold transits. rewrite Hk, Hk'. lia.
  - intros l p Hp. destruct (He l) as [E|(E & E' & _)]; [|right; left; congruence]. unfold pid_at in Hp. rewrite E in Hp. destruct (Hkeep l p Hp) as [_ ->].
    by apply (inv_pids _ _ I).
  - intros p q Hq. apply proc_ok_plain; [done|done|intros l Hl; by apply Hkeep|by apply (inv_proc _ _ I)].
  - intros g Hg. apply gone_ok_plain; [done|done|by apply Hdp|by apply (inv_gone _ _ I)].
  - by apply (own_pipes_same s), (inv_inj _ _ I).
  - apply (inv_others _ _ I).
  - by left.
  - intros t' b Hne Hb. apply stable_same; try done; [simpl; rewrite length_app; lia|..]; intros; [by apply (Hdp t' b)|by apply Hkeep].
  - simpl. rewrite length_app. pose proof (inv_first _ _ I). lia.
Qed.

(** Pipes change that no child has. *)
Lemma inv_pipes a' l ps : plain -> owned a = Some l -> owned a' = Some l -> transit a' = transit a ->
  (forall w, taken w s -> ps !! w = pipes s !! w) ->
  (forall w x, pipes s !! w = Some x -> maker x <> l -> ps !! w = Some x) ->
  pc_ok a' (s <| pipes := ps |>) -> inv (<[t := a']> ags) (s <| pipes := ps |>).
Proof using I Ht.
  intros Hpl Ha Ha' Htr Hps Hother Hpc. apply inv_update; try done.
  - intros l'. change (pid_at l' (s <| pipes := ps |>)) with (pid_at l' s). unfold owns. rewrite Ha, Ha'. lia.
  - intros k. unfold transits. rewrite Htr. change (busy_at k (s <| pipes := ps |>)) with (busy_at k s). change (used_at k (s <| pipes := ps |>)) with (used_at k s). lia.
  - apply (inv_pids _ _ I).
  - intros p q Hq. apply proc_ok_plain; [done|apply Hps; left; by exists p, q|done|by apply (inv_proc _ _ I)].
  - intros g Hg. apply gone_ok_plain; [done|apply Hps; right; by exists g|done|by apply (inv_gone _ _ I)].
  - by apply (own_pipes_same s), (inv_inj _ _ I).
  - apply (inv_others _ _ I).
  - left. by eapply owner_quiet.
  - intros t' b Hne Hb. apply stable_same; try done. intros w x Hx Ho. apply (Hother w x Hx). intros Hm. apply (not_owned t' b l Hne Hb Ha). congruence.
  - apply (inv_first _ _ I).
Qed.

(** fork() makes a child. *)
Lemma inv_fork l w p : a = Fork l w -> 0 < p -> procs s !! p = None -> p ∉ others s ->
  (forall t' b, ags !! t' = Some b -> holds b p = false) ->
  inv (<[t := StorePipe l p w]> ags) (s <| procs := <[p := {| state := Held; home := l; pipe_of := w |}]> (procs s) |>).
Proof using I Ht.
  intros Ea Hp Hnone Hoth Hhold. set (q0 := {| state := Held; home := l; pipe_of := w |}). set (s' := s <| procs := <[p := q0]> (procs s) |>).
  assert (owned a = Some l) as Ha by (by rewrite Ea). assert (plain) as Hpl by (unfold plain; by rewrite Ea).
  pose proof (inv_pc _ _ I t a Ht) as Hok. rewrite Ea in Hok. destruct Hok as (((x & Hx) & Hfree) & Hwr). rewrite Hx in Hwr. simpl in Hwr. injection Hwr as ->.
  assert (forall p' q, procs s !! p' = Some q -> procs s' !! p' = Some q) as Hkeep.
  { intros p' q Hq. simpl. rewrite lookup_insert_ne; [done|]. intros <-. congruence. }
  assert (forall p' q, procs s !! p' = Some q -> pipe_of q <> w) as Hfree1 by (intros p' q Hq E; apply Hfree; left; by exists p', q).
  assert (forall g, g ∈ gone s -> gone_pipe g <> w) as Hfree2 by (intros g Hg E; apply Hfree; right; by exists g).
  apply inv_update; try done.
  - intros l'. change (pid_at l' s') with (pid_at l' s). unfold owns. rewrite Ha. simpl. lia.
  - intros k. unfold transits. rewrite Ea. simpl. change (busy_at k s') with (busy_at k s). change (used_at k s') with (used_at k s). lia.
  - intros l' p' Hl. destruct (inv_pids _ _ I l' p' Hl) as [?|[?|(Hp' & q & Hq & H)]]; [by left|by right; left|]. right; right. split; [done|]. exists q. by rewrite (Hkeep _ _ Hq).
  - intros p' q Hq. simpl in Hq. destruct (decide (p' = p)) as [->|Hne].
    + rewrite lookup_insert_eq in Hq. injection Hq as <-. split; [done|]. split; [done|by left].
    + rewrite lookup_insert_ne in Hq by done. apply proc_ok_plain; [done|done|done|by apply (inv_proc _ _ I)].
  - intros g Hg. apply gone_ok_plain; [done|done|done|by apply (inv_gone _ _ I)].
  - destruct (inv_inj _ _ I) as [J1 J2 J3]. constructor; [|done|].
    + intros p1 p2 q1 q2 H1 H2 E. simpl in H1, H2. destruct (decide (p1 = p)) as [->|N1], (decide (p2 = p)) as [->|N2]; [done|..].
      * rewrite lookup_insert_eq in H1. rewrite lookup_insert_ne in H2 by done. injection H1 as <-. by destruct (Hfree1 p2 q2 H2).
      * rewrite lookup_insert_eq in H2. rewrite lookup_insert_ne in H1 by done. injection H2 as <-. by destruct (Hfree1 p1 q1 H1).
      * rewrite lookup_insert_ne in H1, H2 by done. by apply (J1 p1 p2 q1 q2).
    + intros p1 q1 g H1 Hg. simpl in H1. destruct (decide (p1 = p)) as [->|N1].
      * rewrite lookup_insert_eq in H1. injection H1 as <-. apply not_eq_sym. by apply Hfree2.
      * rewrite lookup_insert_ne in H1 by done. by apply (J3 p1).
  - intros p' Hp'. destruct (inv_others _ _ I p' Hp') as [H1 H2]. split; [done|]. simpl. rewrite lookup_insert_ne; [done|]. intros <-. done.
  - by left.
  - cbn [pc_ok]. split; [done|]. simpl. by rewrite lookup_insert_eq.
  - intros t' b Hne Hb. constructor; try done; [by intros; apply Hkeep|by intros; apply Hkeep| |].
    + intros p' q' Hq'. simpl in Hq'. destruct (decide (p' = p)) as [->|N].
      * rewrite lookup_insert_eq in Hq'. injection Hq' as <-. right. split; [by apply (Hhold t')|]. eexists. split; [exact Hx|]. simpl. by apply (not_owned t' b l).
      * rewrite lookup_insert_ne in Hq' by done. left. by exists q'.
    + intros g Hg. right. by exists g.
  - apply (inv_first _ _ I).
Qed.
End Update.

(** * Children change their state *)

Lemma lookup_set_state st p p' s q : procs s !! p = Some q ->
  procs (set_state st p s) !! p' = if decide (p' = p) then Some {| state := st; home := home q; pipe_of := pipe_of q |} else procs s !! p'.
Proof.
  intros Hq. unfold set_state. simpl. case_decide as E; [subst; by rewrite lookup_alter_eq, Hq|by rewrite lookup_alter_ne].
Qed.

Lemma stable_set_state b st p q s : procs s !! p = Some q -> owned b <> Some (home q) -> (is_zombie (state q) = true -> is_zombie st = true) ->
  (forall w, b = Release p w -> state q <> Held) -> stable b s (set_state st p s).
Proof.
  intros Hq Ho He Hst. constructor; try done.
  - intros p' q' Hq' Ho'. rewrite (lookup_set_state st p p' s q Hq). case_decide as E; [|done]. subst p'. rewrite Hq in Hq'. injection Hq' as <-. done.
  - intros p' w q' Hb Hq' Hh. rewrite (lookup_set_state st p p' s q Hq). case_decide as E; [|done]. subst p'. rewrite Hq in Hq'. injection Hq' as <-.
    by destruct (Hst w Hb).
  - intros p' q'. rewrite (lookup_set_state st p p' s q Hq). case_decide as E; [|by left; exists q'].
    subst p'. intros [= <-]. left. by exists q.
  - intros g Hg. right. by exists g.
Qed.

Lemma inv_state ags ags' s p q st : inv ags s -> procs s !! p = Some q ->
  (forall l, total (owns l) ags' = total (owns l) ags) -> (forall k, total (transits k) ags' = total (transits k) ags) ->
  (forall t p w, ags' !! t = Some (Release p w) -> ags !! t = Some (Release p w)) ->
  (forall t l p payload next, ags !! t = Some (Notify l p payload next) -> ags' !! t = Some (Notify l p payload next)) ->
  (forall t l p next, ags !! t = Some (Reap l p next) -> ags' !! t = Some (Reap l p next)) ->
  (forall t b, ags' !! t = Some b -> pc_ok b (set_state st p s)) -> (pid_at (home q) s = Some p \/ st = Held) ->
  inv ags' (set_state st p s).
Proof.
  intros I Hq Hown Htr Hrel Hnot Hreap Hpc Hp.
  assert (forall p0 q0, procs (set_state st p s) !! p0 = Some q0 ->
    exists q', procs s !! p0 = Some q' /\ home q' = home q0 /\ pipe_of q' = pipe_of q0 /\ (p0 <> p -> q' = q0) /\ (p0 = p -> state q0 = st /\ q' = q)) as Hold.
  { intros p0 q0. rewrite (lookup_set_state st p p0 s q Hq). case_decide as E; [|intros; exists q0; naive_solver]. intros [= <-]. exists q. subst. naive_solver. }
  constructor.
  - apply (inv_first _ _ I).
  - intros l. rewrite Hown. apply (inv_own _ _ I).
  - intros k. rewrite Htr. apply (inv_busy _ _ I).
  - intros l p0 Hl. destruct (inv_pids _ _ I l p0 Hl) as [?|[?|(H0 & q0 & Hq0 & Hh & Hd)]]; [by left|by right; left|]. right; right. split; [done|].
    rewrite (lookup_set_state st p p0 s q Hq). case_decide as E; [|by exists q0]. subst p0. rewrite Hq in Hq0. injection Hq0 as <-. by eexists.
  - intros p0 q0 H0. destruct (Hold _ _ H0) as (q' & Hq' & E1 & E2 & E3 & E4). destruct (inv_proc _ _ I p0 q' Hq') as (Hpos & Hx & Hst).
    split; [done|]. rewrite <- E1, <- E2. split; [done|]. destruct (decide (p0 = p)) as [E|E].
    + destruct (E4 E) as [Es Eq]. subst q' p0. destruct Hp as [Hp|Hp]; [right; by left|left; congruence].
    + rewrite <- (E3 E). destruct Hst as [?|[?|(t & next & Ht)]]; [by left|right; by left|right; right; exists t, next; by apply Hreap].
  - intros g Hg. eapply gone_ok_stable; [by apply (inv_gone _ _ I)|done|]. intros t next Ht _. split; [by apply Hnot|done].
  - destruct (inv_inj _ _ I) as [J1 J2 J3]. constructor; [|done|].
    + intros p1 p2 q1 q2 H1 H2 E. destruct (Hold _ _ H1) as (q1' & H1' & _ & E1 & _), (Hold _ _ H2) as (q2' & H2' & _ & E2 & _). apply (J1 p1 p2 q1' q2'); congruence.
    + intros p1 q1 g H1 Hg. destruct (Hold _ _ H1) as (q1' & H1' & _ & E1 & _). rewrite <- E1. by apply (J3 p1).
  - intros p0 H0. destruct (inv_others _ _ I p0 H0) as [H1 H2]. split; [done|]. rewrite (lookup_set_state st p p0 s q Hq). case_decide; [congruence|done].
  - intros t t' p0 w w' H1%Hrel H2%Hrel. by apply (inv_rel _ _ I t t' p0 w w').
  - done.
Qed.

(** No agent works on the entry of a child that runs. *)
Lemma running_unowned ags s p q t b : inv ags s -> procs s !! p = Some q -> state q = Running -> ags !! t = Some b -> owned b <> Some (home q).
Proof.
  intros I Hq Hr Hb Ho. pose proof (owner_pid _ _ I t b _ Hb Ho) as Hm. destruct (inv_proc _ _ I p q Hq) as (H0 & _ & [Hst|[Hpid|(t' & next & Ht')]]).
  - congruence.
  - rewrite Hm in Hpid. injection Hpid as <-. lia.
  - pose proof (inv_pc _ _ I t' _ Ht') as (q' & Hq' & Hz & _). rewrite Hq in Hq'. injection Hq' as <-. by rewrite Hr in Hz.
Qed.

Lemma running_registered ags s p q : inv ags s -> procs s !! p = Some q -> state q = Running -> pid_at (home q) s = Some p.
Proof.
  intros I Hq Hr. destruct (inv_proc _ _ I p q Hq) as (H0 & _ & [Hst|[Hpid|(t' & next & Ht')]]); [congruence|done|].
  pose proof (inv_pc _ _ I t' _ Ht') as (q' & Hq' & Hz & _). rewrite Hq in Hq'. injection Hq' as <-. by rewrite Hr in Hz.
Qed.

Lemma inv_exit ags s p q status usage : inv ags s -> procs s !! p = Some q -> state q = Running -> inv ags (set_state (Zombie status usage) p s).
Proof.
  intros I Hq Hr. apply (inv_state ags ags s p q); try done.
  - intros t b Hb. eapply pc_ok_stable; [|by apply (inv_pc _ _ I t)]. apply (stable_set_state b _ p q s Hq); [by eapply running_unowned|done|by rewrite Hr].
  - left. by eapply running_registered.
Qed.

(** * The steps of an agent *)

(** wait4() forgets a child: its entry is locked by the agent that waits for it. *)
Lemma stable_wait_for b p q payload s : procs s !! p = Some q -> owned b <> Some (home q) -> state q <> Held ->
  stable b s (wait_for p q payload s).
Proof.
  intros Hq Ho Hst. constructor; try done.
  - intros p' q' Hq' Ho'. simpl. rewrite lookup_delete_ne; [done|]. intros <-. rewrite Hq in Hq'. by injection Hq' as <-.
  - intros p' w q' _ Hq' Hh. simpl. rewrite lookup_delete_ne; [done|]. intros <-. rewrite Hq in Hq'. injection Hq' as <-. done.
  - intros p' q' Hq'. simpl in Hq'. apply lookup_delete_Some in Hq' as [_ Hq']. left. by exists q'.
  - intros g Hg. simpl. set_solver.
  - intros g Hg. simpl in Hg. apply elem_of_app in Hg as [Hg|Hg%list_elem_of_singleton]; [right; by exists g|]. left. exists p, q. by subst g.
Qed.

Section AgentStep.
Context (ags : list Pc) (s : Shared) (I : inv ags s) (t : nat).

(** The other agents are where they were. *)
Lemma others_stay a' t' b : ags !! t' = Some b -> t' <> t -> <[t := a']> ags !! t' = Some b.
Proof using Type. intros H Hne. by rewrite list_lookup_insert_ne. Qed.

Lemma inv_release p w : ags !! t = Some (Release p w) ->
  inv (<[t := Return (Some w)]> ags) (match state <$> procs s !! p with Some Held => set_state Running p s | _ => s end).
Proof using I.
  intros Ht. pose proof (inv_pc _ _ I t _ Ht) as (q & Hq & E & Hpid). rewrite Hq. simpl. rewrite E.
  assert (forall t' b, ags !! t' = Some b -> (forall p' w', b <> Release p' w') -> <[t := Return (Some w)]> ags !! t' = Some b) as Hstay.
  { intros t' b Hb Hne. apply others_stay; [done|]. intros ->. rewrite Ht in Hb. injection Hb as <-. by eapply Hne. }
  apply (inv_state ags _ s p q); try done.
  - intros l. rewrite (total_insert _ _ _ _ _ Ht). unfold owns. simpl. lia.
  - intros k. rewrite (total_insert _ _ _ _ _ Ht). unfold transits. simpl. lia.
  - intros t' p' w' H. destruct (decide (t' = t)) as [->|Hne]; [by rewrite list_lookup_insert_eq in H by (by eapply lookup_lt_Some)|].
    by rewrite list_lookup_insert_ne in H.
  - intros; by apply Hstay.
  - intros; by apply Hstay.
  - intros t' b Hb. destruct (decide (t' = t)) as [->|Hne]; [rewrite list_lookup_insert_eq in Hb by (by eapply lookup_lt_Some); by injection Hb as <-|].
    rewrite list_lookup_insert_ne in Hb by done. eapply pc_ok_stable; [|by apply (inv_pc _ _ I t')]. apply (stable_set_state b _ p q s Hq); [|by rewrite E|].
    + intros Ho. pose proof (owner_pid _ _ I t' b _ Hb Ho) as Hown. rewrite Hpid in Hown. injection Hown as ->. destruct (inv_proc _ _ I (-1) q Hq) as [? _]. lia.
    + intros w' ->. destruct Hne. by apply (inv_rel _ _ I t' t p w' w).
  - by left.
Qed.

Lemma inv_reap l p next : ags !! t = Some (Reap l p next) ->
  exists payload s', tryReaping p s = Some (payload, s') /\ inv (<[t := Notify l p payload next]> ags) s'.
Proof using I.
  intros Ht. pose proof (inv_pc _ _ I t _ Ht) as (q & Hq & Hz & Hh & Hd). unfold tryReaping. rewrite Hq. destruct (state q) as [| |status usage] eqn:E; try done.
  eexists _, _. split; [reflexivity|]. set (payload := payload_of status usage). set (s' := wait_for p q payload s).
  pose proof (owner_pid _ _ I t _ l Ht eq_refl) as Hown. destruct (inv_proc _ _ I p q Hq) as (H0 & Hx & _). rewrite Hh in Hx.
  pose proof (lookup_lt_Some _ _ _ Ht) as Hlt. set (g0 := {| gone_pid := p; gone_home := home q; gone_pipe := pipe_of q; gone_payload := payload |}).
  assert (gone s' = gone s ++ [g0]) as Hgs by done. destruct (inv_inj _ _ I) as [J1 J2 J3].
  apply (inv_update ags s I t _ Ht); try done.
  - intros l'. change (pid_at l' s') with (pid_at l' s). unfold owns. simpl. lia.
  - intros k. unfold transits. simpl. change (busy_at k s') with (busy_at k s). change (used_at k s') with (used_at k s). lia.
  - intros l' p' Hl. destruct (inv_pids _ _ I l' p' Hl) as [?|[?|(H1 & q' & Hq' & Hh' & Hd')]]; [by left|by right; left|]. right; right. split; [done|]. exists q'.
    split; [|done]. simpl. rewrite lookup_delete_ne; [done|]. intros <-. rewrite Hq in Hq'. injection Hq' as <-. rewrite <- Hh', Hh in Hl.
    change (pid_at l s = Some p) in Hl. rewrite Hown in Hl. injection Hl as <-. lia.
  - intros p' q' Hq'. simpl in Hq'. apply lookup_delete_Some in Hq' as [Hne Hq']. eapply proc_ok_stable; [by apply (inv_proc _ _ I)|done|by auto|].
    apply (agent_stays _ ags t _ _ Ht). intros n [= _ E' _]. done.
  - intros g. rewrite Hgs. intros [Hg| ->%list_elem_of_singleton]%elem_of_app.
    + eapply gone_ok_stable; [by apply (inv_gone _ _ I)|done|]. intros t' n Ht' _. split; [|done]. apply others_stay; [done|]. intros ->. congruence.
    + exists {| maker := l; written := []; writable := true |}. simpl. split; [done|]. split; [done|]. right. exists t, next.
      rewrite Hh. split; [by apply list_lookup_insert_eq|done].
  - constructor.
    + intros p1 p2 q1 q2 H1 H2. simpl in H1, H2. apply lookup_delete_Some in H1 as [_ H1], H2 as [_ H2]. by apply J1.
    + rewrite Hgs, fmap_app. apply NoDup_app. split; [done|]. split; [|apply NoDup_singleton]. intros w (g & -> & Hg)%list_elem_of_fmap.
      intros Hw%list_elem_of_singleton. simpl in Hw. by apply (J3 p q g Hq Hg).
    + intros p1 q1 g H1. simpl in H1. apply lookup_delete_Some in H1 as [Hne H1]. rewrite Hgs. intros [Hg| ->%list_elem_of_singleton]%elem_of_app; [by apply (J3 p1)|].
      simpl. intros Ew. apply Hne. by apply (J1 p p1 q q1).
  - intros p' Hp'. destruct (inv_others _ _ I p' Hp') as [H1 H2]. split; [done|]. simpl. apply lookup_delete_None. by right.
  - by left.
  - cbn [pc_ok]. exists g0. split; [|done]. split; [rewrite Hgs; set_solver|done].
  - intros t' b Hne Hb. apply stable_wait_for; [done| |by rewrite E]. rewrite Hh. by apply (not_owned ags s I t _ Ht t' b l).
  - apply (inv_first _ _ I).
Qed.

(** The owner of the entry of a child that is gone changes the child's pipe. *)
Lemma inv_own_pipe a a' l g f : ags !! t = Some a -> owned a = Some l -> owned a' = Some l -> transit a = None -> transit a' = None ->
  leaves l g s -> (forall l' p' next, a <> Reap l' p' next) ->
  (forall x, pipes s !! gone_pipe g = Some x -> maker x = l -> maker (f x) = l /\ written (f x) = [gone_payload g]) ->
  pc_ok a' (set_pipe f (gone_pipe g) s) -> inv (<[t := a']> ags) (set_pipe f (gone_pipe g) s).
Proof using I.
  intros Ht Ha Ha' Hk Hk' (Hg & Hh & Hd) Hnr Hf Hpc. set (w := gone_pipe g) in *. destruct (inv_inj _ _ I) as [J1 J2 J3].
  destruct (inv_gone _ _ I g Hg) as (x & Hx & Hm & _). rewrite Hh in Hm. destruct (Hf x Hx Hm) as [Hf1 Hf2].
  apply (inv_update ags s I t a Ht); try done.
  - intros l'. change (pid_at l' (set_pipe f w s)) with (pid_at l' s). unfold owns. rewrite Ha, Ha'. lia.
  - intros k. unfold transits. rewrite Hk, Hk'. change (busy_at k (set_pipe f w s)) with (busy_at k s). change (used_at k (set_pipe f w s)) with (used_at k s). lia.
  - apply (inv_pids _ _ I).
  - intros p' q' Hq'. change (procs (set_pipe f w s)) with (procs s) in Hq'.
    eapply proc_ok_stable; [by apply (inv_proc _ _ I)|simpl; rewrite list_lookup_alter_ne by (apply not_eq_sym, (J3 p' q' g Hq' Hg)); done|by auto|].
    apply (agent_stays _ ags t _ _ Ht). intros n ->. by eapply Hnr.
  - intros g' Hg'. change (gone (set_pipe f w s)) with (gone s) in Hg'. destruct (decide (gone_pipe g' = w)) as [E|E].
    + assert (g' = g) as -> by (by apply (gone_same (gone s))). exists (f x). split; [simpl; unfold w; rewrite list_lookup_alter_eq; by rewrite Hx|].
      split; [congruence|by left].
    + eapply gone_ok_stable; [by apply (inv_gone _ _ I)|simpl; by rewrite list_lookup_alter_ne by (by apply not_eq_sym)|]. intros t' n Ht' Hd'.
      split; [|done]. apply others_stay; [done|]. intros ->. rewrite Ht in Ht'. injection Ht' as ->. simpl in Ha. injection Ha as Ha.
      rewrite Ha, Hd in Hd'. injection Hd' as Hd'. done.
  - apply (inv_others _ _ I).
  - left. by eapply owner_quiet.
  - intros t' b Hne Hb. apply stable_same; try done. intros w' x' Hx' Ho. simpl. rewrite list_lookup_alter_ne; [done|]. intros <-.
    apply (not_owned ags s I t a Ht t' b l Hne Hb Ha). change (pipes s !! gone_pipe g = Some x') in Hx'. rewrite Hx in Hx'. injection Hx' as <-. congruence.
  - apply (inv_first _ _ I).
Qed.

Lemma inv_notify l p payload next : ags !! t = Some (Notify l p payload next) ->
  exists s', step_notifyAndFreeInfo (Notify l p payload next) s = Some (Ret (Close l next, s')) /\ inv (<[t := Close l next]> ags) s'.
Proof using I.
  intros Ht. pose proof (inv_pc _ _ I t _ Ht) as (g & Hg & _ & Hpl & Hw). pose proof Hg as (_ & _ & Hd). cbn [step_notifyAndFreeInfo].
  unfold dp_at in Hd. destruct (entry_at l s) as [e|] eqn:Ee; [|done]. simpl in Hd. simpl. rewrite Hd. eexists. split; [reflexivity|].
  apply (inv_own_pipe (Notify l p payload next) (Close l next) l g); try done.
  - intros x. rewrite Hw. intros [= <-] _. split; [done|]. simpl. by rewrite Hpl.
  - cbn [pc_ok]. exists g, {| maker := l; written := [payload]; writable := true |}. split; [exact Hg|]. split; [|by rewrite Hpl].
    simpl. by rewrite list_lookup_alter_eq, Hw.
Qed.

Lemma inv_close l next : ags !! t = Some (Close l next) ->
  exists s', step_notifyAndFreeInfo (Close l next) s = Some (Ret (FreePipe l next, s')) /\ inv (<[t := FreePipe l next]> ags) s'.
Proof using I.
  intros Ht. pose proof (inv_pc _ _ I t _ Ht) as (g & x & Hg & Hx & Hm & Hw). pose proof Hg as (_ & _ & Hd). cbn [step_notifyAndFreeInfo].
  unfold dp_at in Hd. destruct (entry_at l s) as [e|] eqn:Ee; [|done]. simpl in Hd. simpl. rewrite Hd. eexists. split; [reflexivity|].
  apply (inv_own_pipe (Close l next) (FreePipe l next) l g); try done.
  intros y Hy _. rewrite Hx in Hy. injection Hy as <-. done.
Qed.

Lemma size_lookup k i : (i < size_at k s)%nat -> exists p, pid_at (k, i) s = Some p.
Proof using Type.
  intros Hi. unfold size_at in Hi. unfold pid_at, entry_at. simpl. destruct (children s !! k) as [sec|]; simpl in *; [|lia].
  destruct (lookup_lt_is_Some_2 (entries sec) i Hi) as [e ->]. by eexists.
Qed.

(** Locking the entry of a child that was seen to have ended. *)
Lemma inv_lock a k i p next : ags !! t = Some a -> (a = Search p (k, i) \/ a = Lock (k, i) p) -> pid_at (k, i) s = Some p ->
  inv (<[t := Reap (k, i) p next]> ags) (set_pid (-1) (k, i) s).
Proof using I.
  intros Ht Ha Hl. assert (0 < p /\ seen p s) as [Hp Hseen] by (pose proof (inv_pc _ _ I t a Ht) as Hok; by destruct Ha as [->| ->]).
  destruct (registered _ _ I _ _ Hl Hp) as (q & Hq & Hh & Hd).
  pose proof (Hseen q Hq) as Hz.
  apply (inv_pid ags s I t a Ht (Reap (k, i) p next) (k, i) p (-1)); try done.
  - unfold plain. by destruct Ha as [->| ->].
  - by left.
  - cbn [pc_ok]. exists q. by rewrite dp_at_set_pid.
  - intros l'. assert (owns l' a = 0) as -> by (by destruct Ha as [->| ->]). unfold owns. cbn [owned]. rewrite (decide_False (P := p = -1)) by lia.
    repeat case_decide; simplify_eq; lia.
  - intros k'. assert (transits k' a = 0) as -> by (by destruct Ha as [->| ->]). unfold transits. cbn [transit]. rewrite (proj2 (Z.eqb_neq p 0)) by lia.
    simpl. case_decide; done.
  - by left.
  - intros _. split; [done|]. by exists next.
  - intros q' Hq'. rewrite Hq in Hq'. injection Hq' as <-. intros E. by rewrite E in Hz.
Qed.

Lemma taken_lt w : taken w s -> (w < length (pipes s))%nat.
Proof using I.
  intros [(p & q & Hq & <-)|(g & Hg & <-)]; [destruct (inv_proc _ _ I p q Hq) as (_ & Hx & _)|destruct (inv_gone _ _ I g Hg) as (x & Hx & _)];
    by eapply lookup_lt_Some.
Qed.

(** A step of an agent is always possible, and keeps the invariant unless it makes a
    child with a number that a handler holds. *)
Lemma inv_agent_step c a : ags !! t = Some a -> valid c s ->
  (forall l w p, a = Fork l w -> forked c = Some p -> forall t' b, ags !! t' = Some b -> holds b p = false) -> exists a' s', agent_step c a s = Ret (a', s') /\ inv (<[t := a']> ags) s'.
Proof using I.
  intros Ht Hc Hcare. pose proof (inv_pc _ _ I t a Ht) as Hok. pose proof (inv_first _ _ I) as Hfirst.
  destruct a as [|fd|k|[k i]|k|k|k|l|l w|l w|l w|l p w|l p w|p w| |p [k i]|[k i]|[k i] p|[k i] p|l p next|l p payload next|l next|l next|l next|k next];
    cbn [agent_step step_tryAllocateInSection step_allocateInfo step_forkfd_fork_fallback step_reapChildProcesses of_option]; cbn [pc_ok] in Hok.
  - eexists _, _. split; [reflexivity|]. by apply (inv_pure ags s I t _ Ht).
  - eexists _, _. split; [reflexivity|]. by apply (inv_pure ags s I t _ Ht).
  - destruct (lookup_lt_is_Some_2 _ _ Hok) as [sec Hs]. rewrite Hs. simpl.
    destruct (busyCount sec + 1 <=? len (entries sec)); eexists _, _; (split; [reflexivity|]); apply (inv_count ags s I t _ Ht); try done;
      intros k'; unfold transits; simpl; repeat case_decide; simplify_eq; lia.
  - case_match eqn:Ei; [|eexists _, _; split; [reflexivity|]; by apply (inv_pure ags s I t _ Ht)].
    case_bool_decide as Hp; [|eexists _, _; split; [reflexivity|]; by apply (inv_pure ags s I t _ Ht)].
    eexists _, _. split; [reflexivity|]. apply (inv_pid ags s I t _ Ht _ (k, i) 0 (-1)); try done.
    + by left.
    + intros l'. unfold owns. simpl. repeat case_decide; simplify_eq; lia.
    + intros k'. unfold transits. simpl. repeat case_decide; simplify_eq; lia.
    + by left.
    + intros q Hq. destruct (inv_proc _ _ I 0 q Hq) as [H0 _]. lia.
  - eexists _, _. split; [reflexivity|]. apply (inv_count ags s I t _ Ht); try done. intros k'. unfold transits. simpl. repeat case_decide; simplify_eq; lia.
  - case_match eqn:Ek; [|destruct (calloc_ok c)]; eexists _, _; (split; [reflexivity|]); apply (inv_pure ags s I t _ Ht); try done. by apply Nat.ltb_lt.
  - case_match eqn:Ek; eexists _, _; (split; [reflexivity|]); [apply (inv_pure ags s I t _ Ht); try done; by apply Nat.ltb_lt|].
    apply (inv_link ags s I t _ Ht); try done. cbn [pc_ok]. simpl. rewrite length_app. simpl. lia.
  - destruct (pipe_ok c); eexists _, _; (split; [reflexivity|]); [|by apply (inv_pure ags s I t _ Ht)]. apply (inv_pipes ags s I t _ Ht _ l); try done.
    + intros w Hw. rewrite lookup_app_l; [done|]. by apply taken_lt.
    + intros w x Hx _. rewrite lookup_app_l; [done|]. by eapply lookup_lt_Some.
    + cbn [pc_ok]. unfold spare. simpl. rewrite list_lookup_middle by done. split; [|done]. split; [by eexists|].
      intros Hw%taken_lt. lia.
  - destruct (sync_ok c); eexists _, _; (split; [reflexivity|]); apply (inv_pure ags s I t _ Ht); try done. apply Hok.
  - destruct (forked c) as [p|] eqn:Ef; eexists _, _; (split; [reflexivity|]).
    + destruct (valid_fork _ _ Hc p Ef) as (H1 & H2 & H3). apply (inv_fork ags s I t _ Ht); try done. by eapply Hcare.
    + apply (inv_pure ags s I t _ Ht); try done. apply Hok.
  - eexists _, _. split; [reflexivity|]. destruct Hok as ((x & Hx) & Hfree). apply (inv_pipes ags s I t _ Ht _ l); try done.
    + intros w' Hw'. rewrite list_lookup_alter_ne; [done|]. by intros <-.
    + intros w' y Hy Hm. rewrite list_lookup_alter_ne; [done|]. intros <-. rewrite Hx in Hy. by injection Hy as <-.
  - eexists _, _. split; [reflexivity|]. destruct Hok as [Hp Hq]. apply (inv_dp ags s I t _ Ht); try done. cbn [pc_ok]. split; [done|]. split; [done|].
    rewrite dp_at_set_deathPipe, decide_True by done. pose proof (owner_pid _ _ I t _ l Ht eq_refl) as Hl. unfold pid_at in Hl. by destruct (entry_at l s).
  - eexists _, _. split; [reflexivity|]. destruct Hok as (Hp & Hq & Hd). pose proof (owner_pid _ _ I t _ l Ht eq_refl) as Hl.
    apply (inv_pid ags s I t _ Ht _ l (-1) p); try done.
    + right. intros p' w1 t' w2 [= -> ->] Hne Ht'. pose proof (inv_pc _ _ I t' _ Ht') as (q' & Hq' & _ & Hl'). rewrite Hq in Hq'. injection Hq' as <-.
      simpl in Hl'. rewrite Hl in Hl'. injection Hl' as <-. lia.
    + cbn [pc_ok]. eexists. split; [exact Hq|]. split; [done|]. simpl. by rewrite pid_at_set_pid, decide_True, Hl.
    + intros l'. unfold owns. simpl. rewrite (decide_False (P := p = -1)) by lia. repeat case_decide; simplify_eq; lia.
    + intros k. unfold transits. simpl. rewrite (proj2 (Z.eqb_neq p 0)) by lia. case_decide; done.
    + right; right. split; [done|]. eexists. split; [exact Hq|]. done.
    + intros q Hq' _. destruct (inv_proc _ _ I (-1) q Hq') as [H0 _]. lia.
  - eexists _, _. split; [reflexivity|]. by apply inv_release.
  - eexists _, _. split; [reflexivity|]. destruct (peeked c) as [p|] eqn:Ep; apply (inv_pure ags s I t _ Ht); try done. cbn [pc_ok].
    destruct (valid_some _ _ Hc p Ep) as [(q & Hq & Hz)|Ho].
    + destruct (inv_proc _ _ I p q Hq) as [H0 _]. split; [done|]. intros q' Hq'. rewrite Hq in Hq'. by injection Hq' as <-.
    + destruct (inv_others _ _ I p Ho) as [H0 Hn]. split; [done|]. intros q' Hq'. congruence.
  - case_match eqn:Ei; [case_bool_decide as Hp|case_match]; eexists _, _; (split; [reflexivity|]); try (by apply (inv_pure ags s I t _ Ht)).
    apply (inv_lock (Search p (k, i))); auto.
  - case_match eqn:Ei; [|case_match; eexists _, _; (split; [reflexivity|]); by apply (inv_pure ags s I t _ Ht)].
    apply Nat.ltb_lt in Ei. destruct (size_lookup k i Ei) as [p Hp]. rewrite Hp. simpl.
    destruct (Z.leb_spec p 0); eexists _, _; (split; [reflexivity|]); by apply (inv_pure ags s I t _ Ht).
  - destruct (isChildReady p s) eqn:Er; eexists _, _; (split; [reflexivity|]); apply (inv_pure ags s I t _ Ht); try done. cbn [pc_ok]. split; [done|].
    unfold isChildReady in Er. intros q Hq. rewrite Hq in Er. simpl in Er. by destruct (state q).
  - case_bool_decide as Hp; eexists _, _; (split; [reflexivity|]); [|by apply (inv_pure ags s I t _ Ht)]. apply (inv_lock (Lock (k, i) p)); auto.
  - destruct (inv_reap l p next Ht) as (payload & s' & -> & Hi). eexists _, _. split; [reflexivity|]. done.
  - destruct (inv_notify l p payload next Ht) as (s' & -> & Hi). eexists _, _. split; [reflexivity|]. done.
  - destruct (inv_close l next Ht) as (s' & -> & Hi). eexists _, _. split; [reflexivity|]. done.
  - eexists _, _. split; [reflexivity|]. by apply (inv_dp ags s I t _ Ht).
  - eexists _, _. split; [reflexivity|]. pose proof (owner_pid _ _ I t _ l Ht eq_refl) as Hl. apply (inv_pid ags s I t _ Ht _ l (-1) 0); try done.
    + by left.
    + cbn [pc_ok]. simpl. rewrite length_alter. unfold pid_at, entry_at in Hl. destruct (children s !! l.1) eqn:E; [by eapply lookup_lt_Some|done].
    + intros l'. unfold owns. simpl. repeat case_decide; simplify_eq; lia.
    + intros k. unfold transits. simpl. repeat case_decide; simplify_eq; lia.
    + by right; left.
    + intros q Hq' _. destruct (inv_proc _ _ I (-1) q Hq') as [H0 _]. lia.
  - destruct (lookup_lt_is_Some_2 _ _ Hok) as [sec Hs]. pose proof (transit_count _ _ I t _ k Ht eq_refl) as Hb. unfold busy_at in Hb. simpl. rewrite Hs in *. simpl in *.
    rewrite (proj2 (Z.leb_le 0 (busyCount sec - 1))) by lia. eexists _, _. split; [reflexivity|].
    apply (inv_count ags s I t _ Ht); [done|by destruct next as [|[]|]|done|by destruct next as [|[]|]|by destruct next as [|[]|]|].
    intros k'. assert (transits k' (resume next) = 0) as -> by (by destruct next as [|[]|]). unfold transits. simpl. repeat case_decide; simplify_eq; lia.
Qed.
End AgentStep.

(** The other children of the process come and go. *)
Lemma inv_set_others ags s os : inv ags s -> (forall p, p ∈ os -> 0 < p /\ procs s !! p = None) -> inv ags (s <| others := os |>).
Proof.
  intros I Ho. assert (forall t a, ags !! t = Some a -> pc_ok a (s <| others := os |>)) as Hpc.
  { intros t a Ht. eapply pc_ok_stable; [|by apply (inv_pc _ _ I t)]. by apply stable_same. }
  destruct I as [? ? ? ? ? ? Hown ? Hrel ?]. constructor; try done. by apply (own_pipes_same s).
Qed.

(** * What holds in every state the system reaches *)

Lemma forkfd_inv_start n : inv (agents (start n)) (shared (start n)).
Proof.
  unfold start. cbn [agents shared].
  assert (forall (f : Pc -> Z), f Idle = 0 -> total f (replicate n Idle) = 0) as H0.
  { intros f Hf. induction n as [|n IH]; [done|]. cbn [replicate total]. by rewrite Hf, IH. }
  assert (forall l p, pid_at l {| children := [new_array CHILDREN_IN_SMALL_ARRAY]; procs := ∅; gone := []; pipes := []; others := ∅ |} = Some p -> p = 0) as Hz.
  { intros [k i] p. unfold pid_at, entry_at. cbn [children]. destruct k as [|k]; [|by destruct k]. set (es := entries (new_array CHILDREN_IN_SMALL_ARRAY)).
    change (pid <$> es !! i = Some p -> p = 0). destruct (es !! i) as [e|] eqn:E; [|done]. apply lookup_replicate in E as [-> _]. by intros [= <-]. }
  constructor; try done.
  - simpl. lia.
  - intros l. rewrite H0 by done. case_decide as E; [|done]. by apply Hz in E.
  - intros k. rewrite H0 by done. unfold busy_at, used_at. cbn [children]. destruct k as [|k]; [|by destruct k]. cbn [lookup list_lookup fmap option_fmap option_map default new_array busyCount entries].
    by rewrite unused_array.
  - intros l p Hp%Hz. by right; left.
  - intros g Hg. by apply elem_of_nil in Hg.
  - constructor; [done|apply NoDup_nil_2|done].
  - intros t t' p w w' Ht _. by apply lookup_replicate in Ht as [? _].
  - intros t a Ht. apply lookup_replicate in Ht as [-> _]. done.
Qed.

Lemma inv_step sys sys' : unraced_step sys sys' -> inv (agents sys) (shared sys) -> inv (agents sys') (shared sys').
Proof.
  intros [Hstep Hcare] I. destruct Hstep as [t c a a' ags s s' Ht Hc Hs|t ags s Ht|t ags s Ht|p q status usage ags s Hq Hr|p ags s Hp Hn|p ags s];
    cbn [agents shared] in *.
  - destruct (inv_agent_step ags s I t c a Ht Hc) as (a1 & s1 & H1 & HI); [|rewrite Hs in H1; by injection H1 as -> ->].
    intros l w p -> Hf. apply Hcare; [by apply (valid_fork _ _ Hc)|]. cbn [agent_step step_forkfd_fork_fallback] in Hs. rewrite Hf in Hs.
    injection Hs as _ <-. simpl. rewrite lookup_insert_eq. by eexists.
  - apply (inv_pure ags s I t _ Ht); try done. apply (inv_first _ _ I).
  - by apply (inv_pure ags s I t _ Ht).
  - by eapply inv_exit.
  - apply (inv_set_others ags s _ I). intros p' [->%elem_of_singleton|Hp']%elem_of_union; [done|]. by apply (inv_others _ _ I).
  - apply (inv_set_others ags s _ I). intros p' [Hp' _]%elem_of_difference. by apply (inv_others _ _ I).
Qed.

Lemma inv_reachable n sys : rtc unraced_step (start n) sys -> inv (agents sys) (shared sys).
Proof. intros H. pose proof (forkfd_inv_start n) as I. induction H; [done|]. by eapply IHrtc, inv_step. Qed.

(** C5. The threads that call forkfd() and the signal handlers, in any number and in
    any interleaving of their steps, with children that end at any time after they
    were released and with other children that the process has, under this condition
    on the kernel: it may use the number of a child again once the child was waited
    for, but not while a handler that has seen the child's end has yet to lock its
    entry. Then every child that the kernel still knows has an empty pipe that is open
    for writing, and when it has ended and no agent is about to wait for it, it is in
    the table, where the next handler finds it. Every child that was waited for has
    the status that wait4() gave in its pipe, exactly once, as soon as the agent that
    waited for it has gone on. No two children have one pipe. Without the condition
    a child can be lost: see the Example reused_number_loses_child, which is a race
    of the code. *)
Theorem children_reported_once n sys : rtc unraced_step (start n) sys ->
  let s := shared sys in
  (forall p q, procs s !! p = Some q ->
    (exists pipe, pipes s !! pipe_of q = Some pipe /\ written pipe = [] /\ writable pipe = true) /\
    (is_zombie (state q) = true -> (forall t next, agents sys !! t <> Some (Reap (home q) p next)) -> pid_at (home q) s = Some p)) /\
  (forall g, g ∈ gone s -> exists pipe, pipes s !! gone_pipe g = Some pipe /\ (written pipe = [] \/ written pipe = [gone_payload g]) /\
    ((forall t next, agents sys !! t <> Some (Notify (gone_home g) (gone_pid g) (gone_payload g) next)) -> written pipe = [gone_payload g])) /\
  (forall p p' q q', procs s !! p = Some q -> procs s !! p' = Some q' -> pipe_of q = pipe_of q' -> p = p') /\
  (forall p q g, procs s !! p = Some q -> g ∈ gone s -> pipe_of q <> gone_pipe g) /\
  (forall g g', g ∈ gone s -> g' ∈ gone s -> gone_pipe g = gone_pipe g' -> g = g').
Proof.
  intros Hr s. pose proof (inv_reachable n sys Hr) as I. fold s in I. destruct (inv_inj _ _ I) as [J1 J2 J3].
  split; [|split; [|split; [done|split; [done|]]]].
  - intros p q Hq. destruct (inv_proc _ _ I p q Hq) as (_ & Hx & Hst). split; [by eexists|]. intros Hz Hn.
    destruct Hst as [E|[H|(t & next & Ht)]]; [by rewrite E in Hz|done|by destruct (Hn t next)].
  - intros g Hg. destruct (inv_gone _ _ I g Hg) as (x & Hx & _ & [Hw|(t & next & Ht & _ & Hw)]); exists x; (split; [done|]); [by auto|].
    split; [by left|]. intros Hn. by destruct (Hn t next).
  - intros g g' Hg Hg'. by apply (gone_same (gone s)).
Qed.

(** C14. The table itself, in every state such a run reaches (the kernel uses no number
    again while a handler holds it): no two agents work on the same entry, an
    entry is locked exactly while an agent works on it, the count of an array is
    the number of its entries in use plus the number of the agents that have
    raised it without having an entry or have freed an entry without having lowered
    it, no child is in two entries, and no assertion fails and nothing outside the
    table is accessed by the next step of any agent, whatever the kernel answers. *)
Theorem table_is_consistent n sys : rtc unraced_step (start n) sys ->
  let s := shared sys in
  (forall t t' a a' l, agents sys !! t = Some a -> agents sys !! t' = Some a' -> owned a = Some l -> owned a' = Some l -> t = t') /\
  (forall l, pid_at l s = Some (-1) <-> exists t a, agents sys !! t = Some a /\ owned a = Some l) /\
  (forall k sec, children s !! k = Some sec ->
    busyCount sec = len (filter (fun e => pid e <> 0) (entries sec)) + len (filter (fun a => transit a = Some k) (agents sys))) /\
  (forall l l' p, 0 < p -> pid_at l s = Some p -> pid_at l' s = Some p -> l = l') /\
  (forall t c a, agents sys !! t = Some a -> valid c s -> exists a' s', agent_step c a s = Ret (a', s')).
Proof.
  intros Hr s. pose proof (inv_reachable n sys Hr) as I. fold s in I. split; [intros; by eapply owner_unique|]. split; [|split; [|split]].
  - intros l. split; [|intros (t & a & Ht & Ha); by eapply owner_pid]. intros Hl. pose proof (inv_own _ _ I l) as Ho. rewrite decide_True in Ho by done.
    clear -Ho. induction (agents sys) as [|a ags IH]; [done|]. cbn [total] in Ho. unfold owns at 1 in Ho. case_decide as E; [by exists 0%nat, a|].
    destruct (IH Ho) as (t & b & Ht & Hb). by exists (S t), b.
  - intros k sec Hk. pose proof (inv_busy _ _ I k) as Hb. unfold busy_at, used_at in Hb. rewrite Hk in Hb. simpl in Hb. rewrite Hb.
    f_equal; rewrite total_filter; apply total_ext; intros x; unfold used, transits; [destruct (Z.eqb_spec (pid x) 0)|]; by repeat case_decide.
  - intros l l' p Hp H1 H2. destruct (registered _ _ I l p H1 Hp) as (q & Hq & Hh & _), (registered _ _ I l' p H2 Hp) as (q' & Hq' & Hh' & _). congruence.
  - intros t c a Ht Hc. assert ((exists l w, a = Fork l w) \/ forall l w, a <> Fork l w) as [(l & w & ->)|Hne] by (destruct a; try (by right); left; by eexists _, _).
    + cbn [agent_step step_forkfd_fork_fallback]. destruct (forked c); by eexists _, _.
    + destruct (inv_agent_step _ _ I t c a Ht Hc) as (a' & s' & H & _); [intros l w p E; by destruct (Hne l w)|by eexists _, _].
Qed.
