(* ===== verification/ForkfdReap.v ===== *)
(** A signal handler that is not interrupted (reapChildProcesses() of
    src/framework/forkfd/forkfd.c) reports every child that has ended, wherever the
    other threads have stopped; and runs of the system that show what the table does
    and what it does not guard against. *)

From stdpp Require Import gmap.
From S2P Require Import Prelude Results Forkfd ForkfdProofs.

Section Alone.
Context (pick : Shared -> option Z).

Definition answer (s : Shared) : Answer := {| peeked := pick s; calloc_ok := false; pipe_ok := false; sync_ok := false; forked := None |}.
Context (Hpick : forall s, valid (answer s) s).
Context (ags : list Pc) (t : nat) (Ht : (t < length ags)%nat).

(** The system when the handler is at [a]. *)
Definition at_pc (a : Pc) (s : Shared) : Prop := inv (<[t := a]> ags) s.

(** The handler gets from one place to another. *)
Definition gets (a : Pc) (s : Shared) (a' : Pc) (s' : Shared) : Prop :=
  exists n, forall fuel, run_alone (n + fuel) pick a s = run_alone fuel pick a' s'.

Lemma gets_refl a s : gets a s a s.
Proof using Type. by exists 0%nat. Qed.
Lemma gets_trans a1 s1 a2 s2 a3 s3 : gets a1 s1 a2 s2 -> gets a2 s2 a3 s3 -> gets a1 s1 a3 s3.
Proof using Type. intros (n & H) (m & H'). exists (n + m)%nat. intros fuel. rewrite <- Nat.add_assoc, H. apply H'. Qed.

Lemma gets_step a s a' s' : a <> Idle -> agent_step (answer s) a s = Ret (a', s') -> gets a s a' s'.
Proof using Type. intros Ha Hs. exists 1%nat. intros fuel. cbn [run_alone Nat.add]. unfold answer in Hs. destruct a; [done|..]; by rewrite Hs. Qed.

(** One step, and the invariant after it. *)
Lemma step_at a s : a <> Idle -> at_pc a s -> exists a' s', agent_step (answer s) a s = Ret (a', s') /\ gets a s a' s' /\ at_pc a' s'.
Proof using Hpick Ht.
  intros Ha I. destruct (inv_agent_step _ s I t (answer s) a) as (a' & s' & H & I'); [by apply list_lookup_insert_eq|done|done|].
  exists a', s'. split; [done|]. split; [by apply gets_step|]. unfold at_pc in *. by rewrite list_insert_insert_eq in I'.
Qed.

Lemma advance a s a' s' : a <> Idle -> at_pc a s -> agent_step (answer s) a s = Ret (a', s') -> gets a s a' s' /\ at_pc a' s'.
Proof using Hpick Ht. intros Ha I Hs. destruct (step_at a s Ha I) as (a1 & s1 & H1 & H2 & H3). rewrite Hs in H1. by injection H1 as -> ->. Qed.

Lemma pc_at a s : at_pc a s -> pc_ok a s.
Proof using Ht. intros I. apply (inv_pc _ _ I t). by apply list_lookup_insert_eq. Qed.

(** What the rest of the table keeps while one child is reported. *)
Record kept (l : nat * nat) (p : Z) (s s' : Shared) : Prop := {
  kept_length : length (children s') = length (children s);
  kept_size : forall k, size_at k s' = size_at k s;
  kept_pid : forall l', l' <> l -> pid_at l' s' = pid_at l' s;
  kept_procs : forall p', p' <> p -> procs s' !! p' = procs s !! p';
  kept_gone : forall g, g ∈ gone s -> g ∈ gone s' }.

Lemma size_at_set_entry f l k s : size_at k (set_entry f l s) = size_at k s.
Proof using Type.
  unfold size_at, set_entry. simpl. destruct (decide (l.1 = k)) as [<-|Hk]; [|by rewrite list_lookup_alter_ne].
  rewrite list_lookup_alter_eq. destruct (children s !! l.1); [|done]. simpl. by rewrite length_alter.
Qed.
Lemma size_at_add_busy d k k' s : size_at k' (add_busy d k s) = size_at k' s.
Proof using Type.
  unfold size_at, add_busy. simpl. destruct (decide (k = k')) as [<-|Hk]; [|by rewrite list_lookup_alter_ne].
  rewrite list_lookup_alter_eq. by destruct (children s !! k).
Qed.

(** A child that has ended, and one that was waited for, with its status. *)
Definition zombie (p : Z) (q : Proc) (s : Shared) : Prop := procs s !! p = Some q /\ is_zombie (state q) = true.
Definition dead (p : Z) (q : Proc) (s : Shared) : Prop :=
  exists g status usage, g ∈ gone s /\ gone_pid g = p /\ gone_home g = home q /\ gone_pipe g = pipe_of q /\
    state q = Zombie status usage /\ gone_payload g = payload_of status usage.

(** A child was waited for between two states. *)
Definition reaped (p : Z) (s s' : Shared) : Prop := procs s' !! p = None /\ exists q, zombie p q s /\ dead p q s'.

Lemma kept_trans l p s1 s2 s3 : kept l p s1 s2 -> kept l p s2 s3 -> kept l p s1 s3.
Proof using Type.
  intros [A1 A2 A3 A4 A5] [B1 B2 B3 B4 B5]. constructor; [congruence|intros; by rewrite B2|intros; by rewrite B3, A3|intros; by rewrite B4, A4|].
  intros g Hg. by apply B5, A5.
Qed.

Lemma kept_set_entry l p f s : kept l p s (set_entry f l s).
Proof using Type.
  constructor; [simpl; by rewrite length_alter|intros; apply size_at_set_entry| |done|by eauto].
  intros l' Hne. unfold pid_at. by rewrite entry_at_set_entry, decide_False.
Qed.
Lemma kept_add_busy l p d k s : kept l p s (add_busy d k s).
Proof using Type.
  constructor; [simpl; by rewrite length_alter|intros; apply size_at_add_busy|intros; unfold pid_at; by rewrite entry_at_add_busy|done|by eauto].
Qed.
Lemma kept_set_pipe l p f w s : kept l p s (set_pipe f w s).
Proof using Type. constructor; by eauto. Qed.
Lemma kept_refl l p s : kept l p s s.
Proof using Type. constructor; by eauto. Qed.

(** Freeing an entry. *)
Lemma free_entry l next p s : at_pc (FreePipe l next) s -> exists s', gets (FreePipe l next) s (resume next) s' /\ at_pc (resume next) s' /\ kept l p s s' /\ procs s' = procs s /\ gone s' = gone s.
Proof using Hpick Ht.
  intros I0. destruct (advance (FreePipe l next) s (FreePid l next) (set_deathPipe None l s) ltac:(done) I0 eq_refl) as [G1 I1].
  destruct (advance (FreePid l next) (set_deathPipe None l s) (FreeCount l.1 next) (set_pid 0 l (set_deathPipe None l s)) ltac:(done) I1 eq_refl) as [G2 I2]. set (s2 := set_pid 0 l _) in *.
  destruct (step_at (FreeCount l.1 next) s2 ltac:(done) I2) as (a3 & s3 & H3 & G3 & I3).
  assert (a3 = resume next /\ s3 = add_busy (-1) l.1 s2) as [-> ->].
  { cbn [agent_step step_notifyAndFreeInfo] in H3. destruct (children s2 !! l.1) as [sec|]; [|done]. cbn [mbind option_bind] in H3.
    destruct (0 <=? busyCount sec - 1); [|done]. cbn [assertion mbind outcome_bind] in H3. by injection H3 as <- <-. }
  exists (add_busy (-1) l.1 s2). split; [by eapply gets_trans, gets_trans|]. split; [done|]. split; [|done].
  eapply kept_trans; [apply kept_set_entry|]. eapply kept_trans; [apply kept_set_entry|apply kept_add_busy].
Qed.

(** Waiting for a child, reporting it and freeing its entry. *)
Lemma reap_entry l p next s : at_pc (Reap l p next) s ->
  exists s', gets (Reap l p next) s (resume next) s' /\ at_pc (resume next) s' /\ kept l p s s' /\ reaped p s s'.
Proof using Hpick Ht.
  intros I0. pose proof (pc_at _ _ I0) as (q & Hq & Hz & _). destruct (step_at (Reap l p next) s ltac:(done) I0) as (a1 & s1 & H1 & G1 & I1).
  cbn [agent_step step_reapChildProcesses of_option] in H1. unfold tryReaping in H1. rewrite Hq in H1.
  destruct (state q) as [| |status usage] eqn:Es; try done. injection H1 as <- <-. set (payload := payload_of status usage) in *.
  set (s1 := wait_for p q payload s) in *.
  destruct (step_at (Notify l p payload next) s1 ltac:(done) I1) as (a2 & s2 & H2 & G2 & I2). cbn [agent_step step_notifyAndFreeInfo] in H2.
  destruct (entry_at l s1) as [e|]; [|done]. cbn [fmap option_fmap option_map mbind option_bind] in H2. injection H2 as <- E2.
  destruct (step_at (Close l next) s2 ltac:(done) I2) as (a3 & s3 & H3 & G3 & I3). cbn [agent_step step_notifyAndFreeInfo] in H3.
  destruct (entry_at l s2) as [e2|]; [|done]. cbn [fmap option_fmap option_map mbind option_bind] in H3. injection H3 as <- E3.
  destruct (free_entry l next p s3 I3) as (s4 & G4 & I4 & K4 & P4 & Q4).
  assert (kept l p s s1) as K1.
  { constructor; [done..|intros p' Hne; simpl; by rewrite lookup_delete_ne by congruence|]. intros g Hg. simpl. apply elem_of_app. by left. }
  assert (kept l p s1 s2 /\ procs s2 = procs s1 /\ gone s2 = gone s1) as (K2 & P2 & Q2)
    by (rewrite <- E2; destruct (deathPipe e); (split; [first [apply kept_set_pipe|apply kept_refl]|done])).
  assert (kept l p s2 s3 /\ procs s3 = procs s2 /\ gone s3 = gone s2) as (K3 & P3 & Q3)
    by (rewrite <- E3; destruct (deathPipe e2); (split; [first [apply kept_set_pipe|apply kept_refl]|done])).
  exists s4. split; [by eapply gets_trans, gets_trans, gets_trans|]. split; [done|]. split; [by eapply kept_trans, kept_trans, kept_trans|].
  split; [rewrite P4, P3, P2; apply lookup_delete_eq|]. exists q. split; [split; [done|by rewrite Es]|].
  eexists _, status, usage. rewrite Q4, Q3, Q2. split; [apply elem_of_app; right; by apply list_elem_of_singleton|done].
Qed.

(** * The walk over the table *)

Definition from (k i : nat) (l : nat * nat) : Prop := (k < l.1)%nat \/ (l.1 = k /\ (i <= l.2)%nat).

Lemma pid_at_bounds l p s : pid_at l s = Some p -> (l.1 < length (children s))%nat /\ (l.2 < size_at l.1 s)%nat.
Proof using Type.
  unfold pid_at, entry_at, size_at. destruct (children s !! l.1) as [sec|] eqn:E; [|done]. simpl. destruct (entries sec !! l.2) eqn:E2; [|done].
  intros _. split; by eapply lookup_lt_Some.
Qed.

(** Between two states of the walk: those that are gone stay so, and the children
    that were not reported are as they were. *)
Record progress (s s' : Shared) : Prop := {
  pr_length : length (children s') = length (children s);
  pr_size : forall k, size_at k s' = size_at k s;
  pr_gone : forall g, g ∈ gone s -> g ∈ gone s';
  pr_zombie : forall p q, zombie p q s -> zombie p q s' \/ dead p q s' }.

Lemma pr_dead s s' p q : progress s s' -> dead p q s -> dead p q s'.
Proof using Type. intros P (g & status & usage & Hg & H). exists g, status, usage. split; [by apply (pr_gone _ _ P)|done]. Qed.

Lemma progress_refl s : progress s s.
Proof using Type. constructor; by eauto. Qed.
Lemma progress_trans s1 s2 s3 : progress s1 s2 -> progress s2 s3 -> progress s1 s3.
Proof using Type.
  intros P1 P2. constructor.
  - by rewrite (pr_length _ _ P2), (pr_length _ _ P1).
  - intros k. by rewrite (pr_size _ _ P2), (pr_size _ _ P1).
  - intros g Hg. by apply (pr_gone _ _ P2), (pr_gone _ _ P1).
  - intros p q Hz. destruct (pr_zombie _ _ P1 p q Hz) as [Hz1|Hd]; [by apply (pr_zombie _ _ P2)|right; by eapply pr_dead].
Qed.
Lemma kept_progress l p s s' : kept l p s s' -> reaped p s s' -> progress s s'.
Proof using Type.
  intros [A1 A2 A3 A4 A5] (_ & q & [Hq _] & Hd). constructor; [done|done|done|]. intros p' q' [Hq' Hz].
  destruct (decide (p' = p)) as [->|Hne]; [right; rewrite Hq in Hq'; by injection Hq' as <-|left]. split; [by rewrite A4|done].
Qed.
Lemma reaped_dead p q s s' : reaped p s s' -> zombie p q s -> dead p q s'.
Proof using Type. intros (_ & q' & [Hq' _] & Hd) [Hq _]. rewrite Hq in Hq'. by injection Hq' as <-. Qed.

Definition reported (k i : nat) (s s' : Shared) : Prop := forall l p q, from k i l -> pid_at l s = Some p -> zombie p q s -> dead p q s'.

(** Locking and reporting one child. *)
Lemma report_entry a k i p next s : (a = Search p (k, i) \/ a = Lock (k, i) p) -> at_pc a s -> pid_at (k, i) s = Some p ->
  agent_step (answer s) a s = Ret (Reap (k, i) p next, set_pid (-1) (k, i) s) ->
  exists s', gets a s (resume next) s' /\ at_pc (resume next) s' /\ kept (k, i) p s s' /\ reaped p s s'.
Proof using Hpick Ht.
  intros Ha I Hp Hs. destruct (advance a s _ _ ltac:(by destruct Ha as [->| ->]) I Hs) as [G1 I1].
  destruct (reap_entry _ _ _ _ I1) as (s' & G2 & I2 & K2 & N2 & q & D). exists s'. split; [by eapply gets_trans|]. split; [done|]. split; [eapply kept_trans; [apply kept_set_entry|exact K2]|].
  split; [done|]. exists q. exact D.
Qed.

(** One entry of the walk. *)
Lemma walk_entry k i s : at_pc (Walk (k, i)) s -> (i < size_at k s)%nat ->
  exists s', gets (Walk (k, i)) s (Walk (k, S i)) s' /\ at_pc (Walk (k, S i)) s' /\ progress s s' /\
    (forall p q, pid_at (k, i) s = Some p -> zombie p q s -> dead p q s') /\ (forall l, l <> (k, i) -> pid_at l s' = pid_at l s).
Proof using Hpick Ht.
  intros I0 Hi. destruct (size_lookup s k i Hi) as [p Hp]. pose proof (proj2 (Nat.ltb_lt _ _) Hi) as Hi'.
  assert (agent_step (answer s) (Walk (k, i)) s = Ret (if p <=? 0 then Walk (k, S i) else CheckReady (k, i) p, s)) as H1.
  { cbn [agent_step step_reapChildProcesses]. rewrite Hi', Hp. cbn [mbind option_bind of_option]. by destruct (p <=? 0). }
  destruct (advance (Walk (k, i)) s _ _ ltac:(done) I0 H1) as [G1 I1]. destruct (Z.leb_spec p 0) as [Hle|Hgt].
  { exists s. split; [done|]. split; [done|]. split; [apply progress_refl|]. split; [|done]. intros p' q. rewrite Hp. intros [= <-] [Hq _].
    destruct (inv_proc _ _ I0 p q Hq) as [H0 _]. lia. }
  assert (agent_step (answer s) (CheckReady (k, i) p) s = Ret (if isChildReady p s then Lock (k, i) p else Walk (k, S i), s)) as H2
    by (cbn [agent_step step_reapChildProcesses]; by destruct (isChildReady p s)).
  destruct (advance (CheckReady (k, i) p) s _ _ ltac:(done) I1 H2) as [G2 I2]. destruct (isChildReady p s) eqn:Er.
  2: { exists s. split; [by eapply gets_trans|]. split; [done|]. split; [apply progress_refl|]. split; [|done]. intros p' q. rewrite Hp. intros [= <-] [Hq Hz].
    unfold isChildReady in Er. rewrite Hq in Er. simpl in Er. by destruct (state q). }
  destruct (report_entry (Lock (k, i) p) k i p (Onward (k, i)) s) as (s' & G3 & I3 & K3 & D3); [by right|done|done| |].
  { cbn [agent_step step_reapChildProcesses]. by rewrite bool_decide_eq_true_2. }
  exists s'. split; [by eapply gets_trans, gets_trans|]. split; [done|]. split; [by eapply kept_progress|]. split; [|apply (kept_pid _ _ _ _ K3)].
  intros p' q. rewrite Hp. intros [= <-]. by apply reaped_dead.
Qed.

Lemma walk_array k : forall e i s, e = (size_at k s - i)%nat -> (i <= size_at k s)%nat -> at_pc (Walk (k, i)) s ->
  exists s', gets (Walk (k, i)) s (Walk (k, size_at k s)) s' /\ at_pc (Walk (k, size_at k s)) s' /\ progress s s' /\
    (forall l p q, l.1 = k -> (i <= l.2)%nat -> pid_at l s = Some p -> zombie p q s -> dead p q s') /\ (forall l, l.1 <> k -> pid_at l s' = pid_at l s).
Proof using Hpick Ht.
  induction e as [|e IH]; intros i s He Hi I0.
  { assert (i = size_at k s) as -> by lia. exists s. split; [apply gets_refl|]. split; [done|]. split; [apply progress_refl|]. split; [|done].
    intros l p q <- Hl Hp. apply pid_at_bounds in Hp as [_ ?]. lia. }
  destruct (walk_entry k i s I0 ltac:(lia)) as (s1 & G1 & I1 & P1 & R1 & K1). pose proof (pr_size _ _ P1 k) as Hsz.
  destruct (IH (S i) s1) as (s2 & G2 & I2 & P2 & R2 & K2); [lia|lia|done|]. rewrite Hsz in *.
  exists s2. split; [by eapply gets_trans|]. split; [done|]. split; [by eapply progress_trans|]. split.
  - intros l p q Hl Hle Hp Hz. destruct (decide (l = (k, i))) as [->|Hne]; [by apply (pr_dead _ _ _ _ P2), R1|].
    destruct (pr_zombie _ _ P1 p q Hz) as [Hz1|Hd1]; [|by apply (pr_dead _ _ _ _ P2)]. apply (R2 l p q Hl); [|by rewrite K1|done].
    destruct l as [k' i']. simpl in *. subst k'. destruct (decide (i' = i)) as [->|]; [done|lia].
  - intros l Hl. rewrite K2, K1 by (try done; intros ->; done). done.
Qed.

Lemma walk_rest : forall d k s, d = (length (children s) - k)%nat -> (k < length (children s))%nat -> at_pc (Walk (k, O)) s ->
  exists s', gets (Walk (k, O)) s Idle s' /\ at_pc Idle s' /\ progress s s' /\ reported k 0 s s'.
Proof using Hpick Ht.
  induction d as [|d IH]; intros k s Hd Hk I0; [lia|].
  destruct (walk_array k (size_at k s) 0 s ltac:(lia) ltac:(lia) I0) as (s1 & G1 & I1 & P1 & R1 & K1).
  assert (agent_step (answer s1) (Walk (k, size_at k s)) s1 = Ret (if (S k <? length (children s1))%nat then Walk (S k, O) else Idle, s1)) as H2.
  { cbn [agent_step step_reapChildProcesses]. rewrite (pr_size _ _ P1), Nat.ltb_irrefl. by destruct (S k <? length (children s1))%nat. }
  destruct (advance (Walk (k, size_at k s)) s1 _ _ ltac:(done) I1 H2) as [G2 I2]. destruct (Nat.ltb_spec (S k) (length (children s1))) as [Hlt|Hge].
  - destruct (IH (S k) s1) as (s2 & G3 & I3 & P3 & R3); [rewrite (pr_length _ _ P1); lia|done|done|].
    exists s2. split; [by eapply gets_trans, gets_trans|]. split; [done|]. split; [by eapply progress_trans|].
    intros l p q [Hl|[Hl Hi]] Hp Hz.
    + destruct (pr_zombie _ _ P1 p q Hz) as [Hz1|Hd1]; [|by apply (pr_dead _ _ _ _ P3)]. apply (R3 l p q); [|by rewrite K1 by lia|done].
      destruct (decide (l.1 = S k)); [right; split; [done|lia]|left; lia].
    + apply (pr_dead _ _ _ _ P3). by apply (R1 l p q).
  - exists s1. split; [by eapply gets_trans|]. split; [done|]. split; [done|]. intros l p q [Hl|[Hl Hi]] Hp Hz; [|by apply (R1 l p q)].
    apply pid_at_bounds in Hp as [? _]. rewrite (pr_length _ _ P1) in Hge. lia.
Qed.

(** * The search for one child *)

(** The handler found the child, reported it and looks for the next one. *)
Definition found (p : Z) (s s' : Shared) : Prop :=
  (exists l, pid_at l s = Some p) /\ progress s s' /\ reaped p s s' /\ (forall p', p' <> p -> procs s' !! p' = procs s !! p') /\
  forall l p', p' <> p -> pid_at l s = Some p' -> pid_at l s' = Some p'.

Lemma search_array p k : forall e i s, e = (size_at k s - i)%nat -> (i <= size_at k s)%nat -> at_pc (Search p (k, i)) s ->
  (exists s', gets (Search p (k, i)) s Peek s' /\ at_pc Peek s' /\ found p s s') \/
  (gets (Search p (k, i)) s (Search p (k, size_at k s)) s /\ at_pc (Search p (k, size_at k s)) s).
Proof using Hpick Ht.
  induction e as [|e IH]; intros i s He Hi I0; [right; assert (i = size_at k s) as -> by lia; by split; [apply gets_refl|]|].
  pose proof (proj2 (Nat.ltb_lt i (size_at k s)) ltac:(lia)) as Hlt. destruct (decide (pid_at (k, i) s = Some p)) as [Hp|Hp].
  - left. destruct (report_entry (Search p (k, i)) k i p Again s) as (s' & G & I' & K & Hd); [by left|done|done| |].
    { cbn [agent_step step_reapChildProcesses]. by rewrite Hlt, bool_decide_eq_true_2. }
    exists s'. split; [done|]. split; [done|]. split; [by exists (k, i)|]. split; [by eapply kept_progress|]. split; [done|]. split; [apply K|].
    intros l p' Hne Hl. rewrite (kept_pid _ _ _ _ K); [done|]. intros ->. congruence.
  - assert (agent_step (answer s) (Search p (k, i)) s = Ret (Search p (k, S i), s)) as H1
      by (cbn [agent_step step_reapChildProcesses]; by rewrite Hlt, bool_decide_eq_false_2).
    destruct (advance (Search p (k, i)) s _ _ ltac:(done) I0 H1) as [G1 I1].
    destruct (IH (S i) s ltac:(lia) ltac:(lia) I1) as [(s' & G2 & H2)|[G2 I2]]; [left; exists s'; split; [by eapply gets_trans|done]|].
    right. split; [by eapply gets_trans|done].
Qed.

Lemma search_rest p : forall d k s, d = (length (children s) - k)%nat -> (k < length (children s))%nat -> at_pc (Search p (k, O)) s ->
  (exists s', gets (Search p (k, O)) s Peek s' /\ at_pc Peek s' /\ found p s s') \/ (gets (Search p (k, O)) s (Walk (O, O)) s /\ at_pc (Walk (O, O)) s).
Proof using Hpick Ht.
  induction d as [|d IH]; intros k s Hd Hk I0; [lia|].
  destruct (search_array p k (size_at k s) 0 s ltac:(lia) ltac:(lia) I0) as [H|[G1 I1]]; [by left|].
  assert (agent_step (answer s) (Search p (k, size_at k s)) s = Ret (if (S k <? length (children s))%nat then Search p (S k, O) else Walk (O, O), s)) as H2.
  { cbn [agent_step step_reapChildProcesses]. rewrite Nat.ltb_irrefl. by destruct (S k <? length (children s))%nat. }
  destruct (advance (Search p (k, size_at k s)) s _ _ ltac:(done) I1 H2) as [G2 I2]. destruct (Nat.ltb_spec (S k) (length (children s))) as [Hlt|Hge].
  - destruct (IH (S k) s ltac:(lia) Hlt I2) as [(s' & G3 & H3)|[G3 I3]].
    + left. exists s'. split; [by eapply gets_trans, gets_trans|done].
    + right. split; [by eapply gets_trans, gets_trans|done].
  - right. split; [by eapply gets_trans|done].
Qed.

(** * All of them *)

Definition zombies (s : Shared) : gmap Z Proc := filter (fun x => is_zombie (state x.2) = true) (procs s).

Lemma zombies_fewer p s s' : reaped p s s' -> (forall p', p' <> p -> procs s' !! p' = procs s !! p') -> (size (zombies s') < size (zombies s))%nat.
Proof using Ht.
  intros (Hn & q & [Hq Hz] & _) Hsame.
  assert (zombies s' = delete p (zombies s)) as ->.
  { apply map_eq. intros p'. destruct (decide (p' = p)) as [->|Hne].
    - rewrite lookup_delete_eq. apply map_lookup_filter_None_2. by left.
    - rewrite lookup_delete_ne by done. unfold zombies. rewrite !map_lookup_filter. by rewrite Hsame. }
  assert (zombies s !! p = Some q) as Hin by (by apply map_lookup_filter_Some_2).
  rewrite map_size_delete_Some by (by eexists). assert (size (zombies s) <> 0)%nat; [|lia]. intros E. apply map_size_empty_inv in E. by rewrite E in Hin.
Qed.

Lemma reap_all : forall n s, (size (zombies s) <= n)%nat -> at_pc Peek s ->
  exists s', gets Peek s Idle s' /\ at_pc Idle s' /\ progress s s' /\ forall l p q, pid_at l s = Some p -> zombie p q s -> dead p q s'.
Proof using Hpick Ht.
  induction n as [|n IH]; intros s Hn I0; pose proof (Hpick s) as Hv; pose proof (inv_first _ _ I0) as Hlen;
    (destruct (advance Peek s (match pick s with Some p => Search p (O, O) | None => Idle end) s ltac:(done) I0 eq_refl) as [G1 I1]);
    (destruct (pick s) as [p|] eqn:Ep;
     [|exists s; split; [done|]; split; [done|]; split; [apply progress_refl|]; intros l p q _ [Hq Hz]; by rewrite (valid_none _ _ Hv Ep p q Hq) in Hz]);
    (destruct (search_rest p (length (children s)) 0 s ltac:(lia) Hlen I1) as [(s' & G2 & I2 & (l0 & Hl0) & P2 & D2 & Hsame & Hregs)|[G2 I2]];
     [|destruct (walk_rest (length (children s)) 0 s ltac:(lia) Hlen I2) as (s' & G3 & I3 & P3 & R3); exists s'; split; [by eapply gets_trans, gets_trans|];
       split; [done|]; split; [done|]; intros l p' q Hl Hz; apply (R3 l p' q); [destruct (decide (l.1 = 0%nat)); [right; split; [done|lia]|left; lia]|done|done]]).
  all: pose proof (zombies_fewer p s s' D2 Hsame) as Hless.
  { lia. }
  destruct (IH s' ltac:(lia) I2) as (s2 & G3 & I3 & P3 & R3). exists s2. split; [by eapply gets_trans, gets_trans|]. split; [done|].
  split; [by eapply progress_trans|]. intros l p' q Hl Hz. destruct (decide (p' = p)) as [->|Hne]; [by apply (pr_dead _ _ _ _ P3), (reaped_dead p q s s')|].
  apply (R3 l p' q); [by apply Hregs|]. destruct Hz as [Hq Hqz]. split; [by rewrite Hsame|done].
Qed.
End Alone.

(** C6. A signal handler that is not interrupted comes to its end from every state that
    threads and handlers can reach, on the condition of C5: in the run before it, no
    child got the number of one that was waited for while a handler that had seen that
    one's end had yet to lock its entry (the Example reused_number_loses_child
    is such a run, and a child is lost in it). Then every child that had ended is
    reported: its pipe has the status and the usage that the child ended with, once,
    wherever the threads and the other handlers have stopped, unless one of them was
    just about to wait for that child. *)
Theorem handler_reports_all n sys t pick :
  rtc unraced_step (start n) sys -> agents sys !! t = Some Peek -> (forall s, valid (answer pick s) s) ->
  exists fuel s', run_alone fuel pick Peek (shared sys) = Some (Ret s') /\
    forall p q status usage, procs (shared sys) !! p = Some q -> state q = Zombie status usage ->
      (forall t next, agents sys !! t <> Some (Reap (home q) p next)) ->
      exists pipe, pipes s' !! pipe_of q = Some pipe /\ written pipe = [payload_of status usage].
Proof.
  intros Hr Ht Hpick. pose proof (inv_reachable n sys Hr) as I. assert (t < length (agents sys))%nat as Hlt by (by eapply lookup_lt_Some).
  assert (at_pc (agents sys) t Peek (shared sys)) as I0 by (unfold at_pc; by rewrite list_insert_id).
  destruct (reap_all pick Hpick (agents sys) t Hlt _ (shared sys) (le_n _) I0) as (s' & (m & Hm) & I' & P & R).
  exists (m + 1)%nat, s'. split; [by rewrite Hm|]. intros p q status usage Hq Es Hn.
  destruct (inv_proc _ _ I p q Hq) as (Hpos & _ & [Hst|[Hpid|(t' & next & Ht')]]); [congruence| |by destruct (Hn t' next)].
  destruct (R (home q) p q Hpid) as (g & st & us & Hg & Hgp & Hgh & Hgw & Es' & Hpl); [split; [done|by rewrite Es]|].
  rewrite Es in Es'. injection Es' as <- <-. destruct (inv_gone _ _ I' g Hg) as (pipe & Hp & _ & Hw). exists pipe. rewrite <- Hgw, <- Hpl. split; [done|].
  destruct Hw as [Hw|(t' & next & Ht' & _)]; [done|]. exfalso. destruct (decide (t' = t)) as [->|Hne]; [by rewrite list_lookup_insert_eq in Ht'|].
  rewrite list_lookup_insert_ne in Ht' by done. pose proof (owner_pid _ _ I t' _ (gone_home g) Ht' eq_refl) as Hown.
  rewrite Hgh, Hpid in Hown. injection Hown as ->. lia.
Qed.

(** * Runs *)

(** What can happen next, with the answers of the kernel. *)
Inductive Event := EvStep (t : nat) (c : Answer) | EvCall (t : nat) | EvSignal (t : nat) | EvExit (p status : Z) (usage : rusage).

Definition event (checked : list Pc -> Shared -> Answer -> bool) (sys : System) (e : Event) : option System :=
  let '{| agents := ags; shared := s |} := sys in
  match e with
  | EvStep t c =>
      a ← ags !! t;
      if checked ags s c then match agent_step c a s with Ret (a, s) => Some {| agents := <[t := a]> ags; shared := s |} | _ => None end else None
  | EvCall t => match ags !! t with Some Idle => Some {| agents := <[t := TryAdd 0]> ags; shared := s |} | _ => None end
  | EvSignal t => match ags !! t with Some Idle => Some {| agents := <[t := Peek]> ags; shared := s |} | _ => None end
  | EvExit p status usage =>
      match state <$> procs s !! p with Some Running => Some {| agents := ags; shared := set_state (Zombie status usage) p s |} | _ => None end
  end.
Fixpoint events (checked : list Pc -> Shared -> Answer -> bool) (es : list Event) (sys : System) : option System :=
  match es with [] => Some sys | e :: es => sys ← event checked sys e; events checked es sys end.

Definition valid_b (s : Shared) (c : Answer) : bool :=
  match peeked c with
  | Some p => match state <$> procs s !! p with Some st => is_zombie st | None => bool_decide (p ∈ others s) end
  | None => bool_decide (map_Forall (fun _ q => is_zombie (state q) = false) (procs s))
  end &&
  match forked c with Some p => (0 <? p) && bool_decide (procs s !! p = None) && bool_decide (p ∉ others s) | None => true end.

Lemma valid_b_ok s c : valid_b s c = true -> valid c s.
Proof.
  unfold valid_b. intros [H1 H2]%andb_true_iff. constructor.
  - intros p E. rewrite E in H1. destruct (procs s !! p) as [q|] eqn:Eq; simpl in H1; [left; by exists q|right]. by apply bool_decide_eq_true in H1.
  - intros E p q Hq. rewrite E in H1. apply bool_decide_eq_true in H1. exact (H1 p q Hq).
  - intros p E. rewrite E in H2. apply andb_true_iff in H2 as [[H2 H3]%andb_true_iff H4]. apply bool_decide_eq_true in H3, H4. split; [lia|done].
Qed.

(** What the kernel can answer, and that without giving a number that a handler holds. *)
Definition answers (_ : list Pc) (s : Shared) (c : Answer) : bool := valid_b s c.
Definition unraced_answers (ags : list Pc) (s : Shared) (c : Answer) : bool :=
  valid_b s c && match forked c with Some p => forallb (fun a => negb (holds a p)) ags | None => true end.

Lemma event_step checked sys e sys' : (forall ags s c, checked ags s c = true -> valid_b s c = true) -> event checked sys e = Some sys' -> step sys sys'.
Proof.
  intros Hc E. destruct sys as [ags s]. destruct e as [t c|t|t|p status usage]; cbn [event] in E.
  - destruct (ags !! t) as [a|] eqn:Ht; [|done]. cbn [mbind option_bind] in E. destruct (checked ags s c) eqn:Hv; [|done].
    destruct (agent_step c a s) as [[a' s']| |] eqn:Ha; [|done..]. injection E as <-. eapply step_agent; [exact Ht|by eapply valid_b_ok, Hc|exact Ha].
  - destruct (ags !! t) as [[]|] eqn:Ht; try done. injection E as <-. by apply step_call.
  - destruct (ags !! t) as [[]|] eqn:Ht; try done. injection E as <-. by apply step_signal.
  - destruct (procs s !! p) as [q|] eqn:Hq; [|done]. cbn [fmap option_fmap option_map] in E. destruct (state q) eqn:Hs; try done. injection E as <-. by eapply step_exit.
Qed.

Lemma procs_set_state_none st p p' s : procs s !! p' = None -> procs (set_state st p s) !! p' = None.
Proof. intros H. simpl. destruct (decide (p = p')) as [->|]; [by rewrite lookup_alter_eq, H|by rewrite lookup_alter_ne]. Qed.

(** Only fork() makes children. *)
Lemma agent_step_new c a s a' s' p : agent_step c a s = Ret (a', s') -> procs s !! p = None -> is_Some (procs s' !! p) -> forked c = Some p.
Proof.
  intros H Hn Hs. destruct (decide (procs s' !! p = None)) as [E|E]; [rewrite E in Hs; by destruct Hs|].
  destruct a as [|fd|k|[k i]|k|k|k|l|l w|l w|l w|l q w|l q w|q w| |q [k i]|[k i]|[k i] q|[k i] q|l q next|l q payload next|l next|l next|l next|k next];
    cbn [agent_step step_tryAllocateInSection step_allocateInfo step_forkfd_fork_fallback step_reapChildProcesses step_notifyAndFreeInfo] in H.
  all: repeat match type of H with
    | context [match ?x with _ => _ end] => destruct x eqn:?
    | context [?x ≫= _] => destruct x eqn:?; cbn [mbind option_bind outcome_bind] in H
    end; try done; simplify_eq/=; try done.
  - match goal with H : forked c = Some ?z |- _ => destruct (decide (z = p)) as [->|]; [done|simpl in E; by rewrite lookup_insert_ne in E] end.
  - destruct E. by apply procs_set_state_none.
  - unfold tryReaping in *. repeat case_match; simplify_eq. destruct E. simpl. apply lookup_delete_None. by right.
  - destruct (entry_at l s) as [[? [?|]]|]; by simplify_eq/=.
  - destruct (entry_at l s) as [[? [?|]]|]; by simplify_eq/=.
  - destruct (children s !! k) as [sec|]; [|done]. cbn [mbind option_bind] in *. unfold assertion in *. case_match; by simplify_eq/=.
Qed.

Lemma event_unraced sys e sys' : event unraced_answers sys e = Some sys' -> unraced_step sys sys'.
Proof.
  intros E. split; [eapply event_step; [|exact E]; by intros ags s c [Hv _]%andb_true_iff|].
  intros p Hn Hs t0 b Hb. destruct sys as [ags s]. cbn [shared agents] in *. destruct e as [t c|t|t|p' status usage]; cbn [event] in E.
  - destruct (ags !! t) as [a|] eqn:Ht; [|done]. cbn [mbind option_bind] in E. destruct (unraced_answers ags s c) eqn:Hv; [|done].
    destruct (agent_step c a s) as [[a' s']| |] eqn:Ha; [|done..]. injection E as <-. cbn [shared] in Hs.
    pose proof (agent_step_new _ _ _ _ _ _ Ha Hn Hs) as Hf. apply andb_true_iff in Hv as [_ Hv]. rewrite Hf in Hv.
    rewrite forallb_forall in Hv. apply negb_true_iff, Hv, list_elem_of_In. by eapply list_elem_of_lookup_2.
  - destruct (ags !! t) as [[]|]; try done. injection E as <-. cbn [shared] in Hs. rewrite Hn in Hs. by destruct Hs.
  - destruct (ags !! t) as [[]|]; try done. injection E as <-. cbn [shared] in Hs. rewrite Hn in Hs. by destruct Hs.
  - destruct (procs s !! p') as [q|]; [|done]. cbn [fmap option_fmap option_map] in E. destruct (state q); try done. injection E as <-.
    cbn [shared] in Hs. rewrite (procs_set_state_none _ _ _ _ Hn) in Hs. by destruct Hs.
Qed.

Lemma events_run checked (R : System -> System -> Prop) : (forall sys e sys', event checked sys e = Some sys' -> R sys sys') ->
  forall es sys sys', events checked es sys = Some sys' -> rtc R sys sys'.
Proof.
  intros HR. induction es as [|e es IH]; intros sys sys' H; cbn [events] in H; [injection H as ->; apply rtc_refl|].
  destruct (event checked sys e) as [sys1|] eqn:E; [|done]. cbn [mbind option_bind] in H. eapply rtc_l; [by eapply HR|by apply IH].
Qed.

Definition ok_answer (forked : option Z) (peeked : option Z) : Answer :=
  {| peeked := peeked; calloc_ok := true; pipe_ok := true; sync_ok := true; forked := forked |}.
Definition steps (t n : nat) (forked : option Z) (peeked : option Z) : list Event := replicate n (EvStep t (ok_answer forked peeked)).
Definition no_usage : rusage := rusage0.

(** A thread forks the child 100 and returns; the child exits with the status 3; a
    handler starts. *)
Definition fork_100 (t : nat) : list Event := EvCall t :: steps t 4 None None ++ steps t 1 (Some 100) None ++ steps t 4 None None.
Definition one_child : list Event := fork_100 0 ++ [EvExit 100 (3 * 256) no_usage; EvSignal 1].
Definition scenario : System := default (start 3) (events unraced_answers one_child (start 3)).

Lemma scenario_reached : rtc unraced_step (start 3) scenario.
Proof. apply (events_run unraced_answers _ event_unraced one_child). vm_compute. reflexivity. Qed.

(** waitid() shows the first child that has ended. *)
Definition first_zombie (s : Shared) : option Z := fst <$> head (filter (fun x => is_zombie (state x.2) = true) (map_to_list (procs s))).

Lemma first_zombie_valid s : valid (answer first_zombie s) s.
Proof.
  constructor; cbn [answer peeked forked]; [| |done]; unfold first_zombie.
  - intros p H. destruct (filter _ _) as [|x l] eqn:E; [done|]. injection H as <-. left. exists x.2.
    assert (x ∈ filter (fun x => is_zombie (state x.2) = true) (map_to_list (procs s))) as Hx by (rewrite E; left).
    apply list_elem_of_filter in Hx as [Hz Hx]. split; [|done]. apply elem_of_map_to_list. by destruct x.
  - intros H p q Hq. destruct (is_zombie (state q)) eqn:Hz; [|done]. exfalso.
    assert ((p, q) ∈ filter (fun x => is_zombie (state x.2) = true) (map_to_list (procs s))) as Hx.
    { apply list_elem_of_filter. split; [done|]. by apply elem_of_map_to_list. }
    destruct (filter _ _); [by apply elem_of_nil in Hx|done].
Qed.

(** The child has ended and is in the table. *)
Lemma children_reported_once_witness :
  exists q, procs (shared scenario) !! 100 = Some q /\
    (exists pipe, pipes (shared scenario) !! pipe_of q = Some pipe /\ written pipe = [] /\ writable pipe = true) /\
    (is_zombie (state q) = true -> (forall t next, agents scenario !! t <> Some (Reap (home q) 100 next)) -> pid_at (home q) (shared scenario) = Some 100).
Proof.
  eexists. split; [vm_compute; reflexivity|].
  destruct (children_reported_once 3 scenario scenario_reached) as (H & _).
  exact (H 100 _ ltac:(vm_compute; reflexivity)).
Defined.

(** The count is that of the one entry in use. *)
Lemma table_is_consistent_witness :
  (forall k sec, children (shared scenario) !! k = Some sec ->
    busyCount sec = len (filter (fun e => pid e <> 0) (entries sec)) + len (filter (fun a => transit a = Some k) (agents scenario))) /\
  busyCount <$> children (shared scenario) !! 0%nat = Some 1.
Proof. split; [|vm_compute; reflexivity]. destruct (table_is_consistent 3 scenario scenario_reached) as (_ & _ & H & _). exact H. Defined.

Lemma handler_reports_all_witness :
  exists fuel s', run_alone fuel first_zombie Peek (shared scenario) = Some (Ret s') /\
    exists pipe, pipes s' !! 0%nat = Some pipe /\ written pipe = [payload_of (3 * 256) no_usage].
Proof.
  destruct (handler_reports_all 3 scenario 1 first_zombie scenario_reached ltac:(vm_compute; reflexivity) first_zombie_valid) as (fuel & s' & H & Hall).
  exists fuel, s'. split; [exact H|].
  apply (Hall 100 {| state := Zombie (3 * 256) no_usage; home := (0%nat, 0%nat); pipe_of := 0%nat |}); [vm_compute; reflexivity|reflexivity|].
  intros t next. destruct t as [|[|[|t]]]; [vm_compute; discriminate..|]. intros E. apply lookup_lt_Some in E. vm_compute in E. lia.
Defined.

(** The status in the pipe is the one the child exited with. *)
Example status_reported :
  match run_alone 200 first_zombie Peek (shared scenario) with
  | Some (Ret s) => (written <$> pipes s !! 0%nat, pid_at (0%nat, 0%nat) s, busy_at 0 s)
  | _ => (None, None, 0)
  end = (Some [({| fi_code := CLD_EXITED; fi_status := 3 |}, no_usage)], Some 0, 0).
Proof. vm_compute. reflexivity. Qed.

(** The numbers of processes are used again, and the table does not guard against
    it: a handler has seen the child 100 (agent 1) and stops before it looks it up;
    another handler (agent 2) reports it and frees its entry; a thread forks again and
    the child gets the same number and entry; the first handler locks the entry of the
    new child, which has not ended, and leaves it locked. When that child exits no
    handler finds it. *)
Definition reused : list Event :=
  one_child ++ steps 1 1 None (Some 100) ++ [EvSignal 2] ++ steps 2 3 None (Some 100) ++ steps 2 6 None None ++
  [EvCall 0] ++ steps 0 4 None None ++ steps 0 1 (Some 100) None ++ steps 0 4 None None ++
  steps 1 3 None None ++ [EvExit 100 0 no_usage; EvSignal 1].
Definition lost : System := default (start 3) (events answers reused (start 3)).

(** The kernel allows this run, so the condition of the theorems cannot be left out:
    the handler comes to its end, the child is still there and nothing is reported. *)
Example reused_number_loses_child :
  rtc step (start 3) lost /\ agents lost = [Idle; Peek; Idle] /\
  match run_alone 200 first_zombie Peek (shared lost) with
  | Some (Ret s) => (pid_at (0%nat, 0%nat) s, is_zombie <$> (state <$> procs s !! 100), written <$> pipes s !! 1%nat) = (Some (-1), Some true, Some [])
  | _ => False
  end.
Proof.
  split; [apply (events_run answers _ (fun sys e sys' => event_step answers sys e sys' (fun _ _ _ H => H)) reused); vm_compute; reflexivity|].
  split; vm_compute; reflexivity.
Qed.
