(* ===== verification/ForkfdApi.v ===== *)
(** The calls of forkfd (src/framework/forkfd/forkfd.c and forkfd_linux.c): choosing
    between the kernel's process descriptors and fork() with pipes, and waiting on
    either kind of descriptor. *)

From S2P Require Import Prelude Results Children Forkfd.

Definition FFD_CLOEXEC : Z := 1.
Definition FFD_NONBLOCK : Z := 2.
Definition FFD_USE_FORK : Z := 4.
Definition FFDW_NOHANG : Z := 1.
Definition FFDW_NOWAIT : Z := 2.
Definition WNOHANG : Z := 1.
Definition WEXITED : Z := 4.
Definition WNOWAIT : Z := 0x01000000.
Definition EBADF : Z := 9.
Definition EAGAIN : Z := 11.
Definition EBADFD : Z := 77.

Definition flag (flags f : Z) : bool := negb (Z.land flags f =? 0).

(** convertForkfdWaitFlagsToWaitFlags() *)
Definition convertForkfdWaitFlagsToWaitFlags (ffdoptions : Z) : Z :=
  let woptions := WEXITED in
  let woptions := if flag ffdoptions FFDW_NOWAIT then Z.lor woptions WNOWAIT else woptions in
  if flag ffdoptions FFDW_NOHANG then Z.lor woptions WNOHANG else woptions.

(** The flags of a descriptor. *)
Record FdFlags := { cloexec : bool; nonblock : bool }.

(** create_pipe() on Linux: pipe2() with O_CLOEXEC, and what is changed then; the ends
    for reading and for writing. *)
Definition create_pipe (flags : Z) : FdFlags * FdFlags :=
  let r := {| cloexec := true; nonblock := false |} in
  let w := {| cloexec := true; nonblock := false |} in
  let r := if flag flags FFD_CLOEXEC then r else {| cloexec := false; nonblock := nonblock r |} in
  let r := if flag flags FFD_NONBLOCK then {| cloexec := cloexec r; nonblock := true |} else r in
  (r, w).

(** system_forkfd_pidfd_set_flags(): the kernel makes them with O_CLOEXEC. *)
Definition system_forkfd_pidfd_set_flags (flags : Z) : FdFlags :=
  let fd := {| cloexec := true; nonblock := false |} in
  let fd := if flag flags FFD_CLOEXEC then fd else {| cloexec := false; nonblock := nonblock fd |} in
  if flag flags FFD_NONBLOCK then {| cloexec := cloexec fd; nonblock := true |} else fd.

(** detect_clone_pidfd_support(): the errno of waitid() for a descriptor that is
    closed. *)
Definition detect_clone_pidfd_support (waitid_errno : Z) : Z := if waitid_errno =? EBADF then 1 else -1.

(** system_forkfd_state: zero until it was detected. *)
Definition system_has_forkfd (system_forkfd_state : Z) : bool := 0 <? system_forkfd_state.
Definition system_forkfd_availability (waitid_errno system_forkfd_state : Z) : Z :=
  if system_forkfd_state =? 0 then detect_clone_pidfd_support waitid_errno else system_forkfd_state.

(** What forkfd() gives: an error, that this is the child, or the child with a
    descriptor of one of the two kinds. *)
Inductive FdKind := Pidfd | PipeFd.
Inductive Forked := ForkError (errno : Z) | InChild | InParent (child : Z) (kind : FdKind) (fd : FdFlags).

(** What clone() gives: an error, or the number of the process, zero in the child. *)
Definition system_forkfd (waitid_errno : Z) (clone : Z + Z) (flags system_forkfd_state : Z) : option Forked * Z :=
  let st := system_forkfd_availability waitid_errno system_forkfd_state in
  if st <? 0 then (None, st)
  else (Some (match clone with
              | inl errno => ForkError errno
              | inr p => if p =? 0 then InChild else InParent p Pidfd (system_forkfd_pidfd_set_flags flags)
              end), st).

(** forkfd(), in a build that may fall back to fork(); [fallback] is
    forkfd_fork_fallback(). *)
Definition forkfd (waitid_errno : Z) (clone : Z + Z) (fallback : Z -> Forked) (flags system_forkfd_state : Z) : Forked * Z :=
  if flag flags FFD_USE_FORK then (fallback flags, system_forkfd_state)
  else
    let '(r, st) := system_forkfd waitid_errno clone flags system_forkfd_state in
    (match r with Some r => r | None => fallback flags end, st).

(** * Waiting *)

(** What waitid() gives for a descriptor and options: an error, that nothing has ended
    yet (with WNOHANG), or the status and the usage. *)
Inductive WaitidAnswer := WaitidError (errno : Z) | WaitidNothing | WaitidEnded (payload : pipe_payload).

Section Wait.
Context (getfl : Z + bool) (waitid : Z -> WaitidAnswer) (read_pipe : Z + pipe_payload).

(** system_forkfd_wait() *)
Definition system_forkfd_wait (ffdoptions : Z) : Z + pipe_payload :=
  let options := convertForkfdWaitFlagsToWaitFlags ffdoptions in
  let call options := match waitid options with WaitidError errno => inl errno | WaitidNothing => inl EBADFD | WaitidEnded payload => inr payload end in
  if negb (flag options WNOHANG) then
    match getfl with
    | inl errno => inl errno
    | inr is_nonblock => call (if is_nonblock then Z.lor options WNOHANG else options)
    end
  else call options.

(** forkfd_wait4() *)
Definition forkfd_wait4 (system_forkfd_state : Z) (options : Z) : Z + pipe_payload :=
  if system_has_forkfd system_forkfd_state then
    match system_forkfd_wait options with
    | inl errno => if errno =? EBADF then read_pipe else inl errno
    | inr payload => inr payload
    end
  else read_pipe.
End Wait.

(** What single_wait() of the program makes of it. *)
Definition wait_result (r : Z + pipe_payload) : WaitResult :=
  match r with inr (info, usage) => WaitDone info usage | inl errno => if errno =? EAGAIN then WaitAgain else WaitError end.

(** * Facts *)

(** Both kinds of descriptors come with the same flags. *)
Lemma same_descriptor_flags flags : (create_pipe flags).1 = system_forkfd_pidfd_set_flags flags.
Proof. unfold create_pipe, system_forkfd_pidfd_set_flags. by destruct (flag flags FFD_CLOEXEC), (flag flags FFD_NONBLOCK). Qed.

(** The kernel: waitid() on a pipe is an error, and on the descriptor of a child it
    depends on the child. *)
Definition waitid_of (kind : FdKind) (st : ProcState) (options : Z) : WaitidAnswer :=
  match kind with
  | PipeFd => WaitidError EBADF
  | Pidfd =>
      match st with
      | Zombie status usage => WaitidEnded (convertStatusToForkfdInfo status {| fi_code := CLD_EXITED; fi_status := 0 |}, usage)
      | _ => WaitidNothing
      end
  end.

(** Waiting for a child that has ended gives its status, with either kind of
    descriptor: the pipe has been written by the handler then. *)
Lemma wait_gives_status kind st options status usage (nonblock_fd : bool) :
  let payload := (convertStatusToForkfdInfo status {| fi_code := CLD_EXITED; fi_status := 0 |}, usage) in
  forall read_pipe, (kind = PipeFd -> read_pipe = inr payload) -> (kind = Pidfd -> 0 < st) ->
  forkfd_wait4 (inr nonblock_fd) (waitid_of kind (Zombie status usage)) read_pipe st options = inr payload.
Proof.
  intros payload read_pipe Hpipe Hsys. unfold forkfd_wait4, system_has_forkfd, system_forkfd_wait. destruct kind; cbn [waitid_of].
  - rewrite (proj2 (Z.ltb_lt 0 st)) by auto. by destruct (negb _).
  - rewrite (Hpipe eq_refl). destruct (0 <? st); [|done]. by destruct (negb _).
Qed.

(** A child that has not ended: a pipe that does not block gives EAGAIN, but the
    kernel's descriptors give EBADFD, which the program takes for an error. *)
Lemma not_ended_is_error read_pipe (nonblock_fd : bool) :
  wait_result (forkfd_wait4 (inr nonblock_fd) (waitid_of Pidfd Running) read_pipe 1 WNOHANG) = WaitError /\
  wait_result (forkfd_wait4 (inr nonblock_fd) (waitid_of PipeFd Running) (inl EAGAIN) 1 WNOHANG) = WaitAgain.
Proof. done. Qed.
