(* ===== verification/GdbSession.v ===== *)
(** Talking to the debugger (src/framework/sysdeps/unix/child_debug.cpp,
    run_process() to attach_gdb()): gdb is started on a child that crashed or
    hangs, is asked for the frame of the crash and for a backtrace, and its
    answers are logged.

    What gdb writes is a stream of characters; an event is one round of poll() and
    read(): when the wait began, when signals interrupted it, how poll() ended and
    how many characters there were to read. Silence, the end of the list, is a
    poll() that times out. *)

From S2P Require Import Prelude CStdlib ThreadData Logging Report.

Definition dq : ascii := "034"%char.
Definition nl : str := [newline].

Definition gdb_preamble_commands (handle : Z) : str :=
  L "set prompt" ++ nl ++ L "set pagination off" ++ nl ++ L "set confirm off" ++ nl ++
  L "python handle = " ++ fmt_alt_x handle ++ L "; print('ok')" ++ nl.
Definition gdb_bt_commands : str :=
  L "printf " ++ [dq] ++ L "Backtrace:" ++ [dq] ++ nl ++ L "thread apply all bt full" ++ nl ++ L "quit" ++ nl.
Definition gdb_python_commands : str :=
  L "python" ++ nl ++ nl ++
  L "thr = None" ++ nl ++
  L "for t in gdb.selected_inferior().threads():" ++ nl ++
  L "    if t.ptid[1] == handle:" ++ nl ++
  L "        thr = t" ++ nl ++
  L "        break" ++ nl ++
  L "if thr is not None:" ++ nl ++
  L "    thr.switch()" ++ nl ++
  L "    f = gdb.newest_frame()" ++ nl ++
  L "    while f is not None and f.type() != gdb.SIGTRAMP_FRAME:" ++ nl ++
  L "        f = f.older()" ++ nl ++
  L "    if f is not None:" ++ nl ++
  L "        f = f.older()" ++ nl ++
  L "        f.select()" ++ nl ++
  L "    gdb.execute(" ++ [dq] ++ L "frame" ++ [dq] ++ L ")" ++ nl ++
  L "    try:" ++ nl ++
  L "        gdb.execute(" ++ [dq] ++ L "x/i $pc" ++ [dq] ++ L ")" ++ nl ++
  L "    except gdb.MemoryError as e:" ++ nl ++
  L "        print(e)" ++ nl ++
  L "print(" ++ [dq] ++ L "..Done.." ++ [dq] ++ L ")" ++ nl ++
  L "end" ++ nl.

Definition EINTR : Z := 4.
Definition EWOULDBLOCK : Z := 11.

(** * Running a process *)

(** run_process(int, const char *[]): vfork() and, in the parent, waitpid(). *)
Definition run_process (vfork_ret waitpid_ret : Z) : Z := if vfork_ret =? -1 then -1 else waitpid_ret.

(** The loop that reads the output: each answer of read() that has data is stored
    at [total_read]. [None]: the answers ran out before the loop ended. *)
Fixpoint read_output (reads : list (option str)) (total_read : nat) (log : str) : option str :=
  if (length log <=? total_read)%nat then Some (take total_read log)
  else match reads with
  | [] => None
  | None :: _ | Some [] :: _ => Some (take total_read log)
  | Some data :: reads => read_output reads total_read (take total_read log ++ data ++ drop (total_read + length data) log)
  end.

(** run_process(const char *[]): what the process wrote; [size] is what fstat()
    finds. *)
Definition run_process_output (vfork_ret waitpid_ret : Z) (size : option nat) (reads : list (option str)) : option str :=
  if run_process vfork_ret waitpid_ret <? 0 then Some []
  else match size with
  | None | Some O => Some []
  | Some n => read_output reads 0 (replicate n NUL)
  end.

(** * A conversation *)

Inductive read_result := Avail (k : nat) | ReadErrno (e : Z).
Record gdb_event := { started : Z; interrupted : list Z; poll_ret : Z; got : read_result }.

(** struct R *)
Record R := { thread_info : str; backtrace : str }.
Definition no_info : R := {| thread_info := []; backtrace := [] |}.

Definition bufsize : nat := Z.to_nat 4096.

(** Writing into the buffer; outside of it this is undefined. *)
Definition poke (off : nat) (data buf : str) : outcome str :=
  if (off + length data <=? length buf)%nat then Ret (take off buf ++ data ++ drop (off + length data) buf) else Ub.

(** strcmp(mem, s) == 0, for a [s] without NUL. *)
Fixpoint strcmp_eq (mem s : str) : outcome bool :=
  match s, mem with
  | _, [] => Ub
  | [], c :: _ => Ret (char_eqb c NUL)
  | x :: s, c :: mem => if char_eqb c x then strcmp_eq mem s else Ret false
  end.

Section Gdb.
(** The time after which no answer is awaited. *)
Context (deadline : Z).

Definition ms_left (t : Z) : Z := i32 (Z.quot (deadline - t) 1000000).

Fixpoint wait_loop (remaining : Z) (signals : list Z) (ret : Z) : Z :=
  if remaining <? 0 then 0
  else match signals with
  | [] => ret
  | t :: signals => wait_loop (ms_left t) signals ret
  end.

Definition wait_for_more (e : gdb_event) : Z := wait_loop (ms_left (started e)) (interrupted e) (poll_ret e).

(** A wait and a read of up to [n] characters: the data and what is left in the
    pipe, or [None] when the function gives up. *)
Definition next_data (n : nat) (e : gdb_event) (stream : str) : option (str * str) :=
  if wait_for_more e <=? 0 then None
  else match got e with
  | ReadErrno _ => None
  | Avail k =>
      match take (n `min` k) stream with
      | [] => None
      | data => Some (data, drop (n `min` k) stream)
      end
  end.

(** Draining gdb's start. *)
Definition prompt : str := L "(gdb) ".

Fixpoint drain_start (evs : list gdb_event) (stream buf : str) : outcome (option (list gdb_event * str * str)) :=
  match evs with
  | [] => Ret None
  | e :: evs =>
      match next_data (bufsize - 1) e stream with
      | None => Ret None
      | Some (data, stream) =>
          buf ← poke 0 (data ++ [NUL]) buf;
          found ← (if (length prompt <=? length data)%nat then strcmp_eq (drop (length data - length prompt) buf) prompt else Ret false);
          if found : bool then Ret (Some (evs, stream, buf)) else drain_start evs stream buf
      end
  end.

(** Skipping the prompts of the command of several lines. *)
Definition is_prompt (c : ascii) : bool := char_eqb c ">" || char_eqb c newline.

Fixpoint skip_prompts (evs : list gdb_event) (stream buf : str) : outcome (option (list gdb_event * str * (nat * str))) :=
  match evs with
  | [] => Ret None
  | e :: evs =>
      match next_data (bufsize - 1) e stream with
      | None => Ret None
      | Some (data, stream) =>
          buf ← poke 0 (data ++ [NUL]) buf;
          let '(prompts, msg) := span is_prompt buf in
          match msg with
          | [] => Ub
          | c :: _ =>
              if char_eqb c NUL then skip_prompts evs stream buf
              else
                let ret := (length data - length prompts)%nat in
                buf ← poke 0 (take ret msg) buf;
                Ret (Some (evs, stream, (ret, buf)))
          end
      end
  end.

(** Waiting until the reply is complete. *)
Definition needle : str := L "..Done.." ++ nl.

Definition complete (ret : nat) (buf : str) : outcome bool :=
  if (length needle <=? ret)%nat then strcmp_eq (drop (ret - length needle) buf) needle else Ret false.

Fixpoint wait_done (evs : list gdb_event) (stream : str) (ret : nat) (buf : str) : outcome (option (list gdb_event * str * str)) :=
  done ← complete ret buf;
  if done : bool then Ret (Some (evs, stream, take (ret - length needle) buf))
  else match evs with
  | [] => Ret None
  | e :: evs =>
      match next_data (bufsize - ret) e stream with
      | None => Ret None
      | Some (data, stream) =>
          buf ← poke ret data buf;
          buf ← poke (ret + length data) [NUL] buf;
          wait_done evs stream (ret + length data) buf
      end
  end.

(** Splicing the backtrace. *)
Fixpoint collect (evs : list gdb_event) (stream log : str) : str :=
  match evs with
  | [] => log
  | e :: evs =>
      if wait_for_more e <=? 0 then log
      else match got e with
      | ReadErrno errno => if (errno =? EINTR) || (errno =? EWOULDBLOCK) then collect evs stream log else log
      | Avail k =>
          match take (bufsize `min` k) stream with
          | [] => log
          | data => collect evs (drop (bufsize `min` k) stream) (log ++ data)
          end
      end
  end.
End Gdb.

(** What the writes to gdb return. *)
Record gdb_writes := { dprintf_ret : Z; python_ret : Z; bt_ret : Z }.

(** The last part of the function: the backtrace. [sent] is what was written to gdb. *)
Definition ask_backtrace (deadline : Z) (w : gdb_writes) (evs : list gdb_event) (stream : str) (result : R) (sent : list str) : R * list str :=
  let sent := sent ++ [gdb_bt_commands] in
  if negb (bt_ret w =? len gdb_bt_commands) then (result, sent)
  else ({| thread_info := thread_info result; backtrace := collect deadline evs stream (backtrace result) |}, sent).

(** The part that asks for the frame of the crash; [None] is an early return. *)
Definition ask_frame (deadline : Z) (w : gdb_writes) (evs : list gdb_event) (stream buf : str) : outcome (option (list gdb_event * str * str)) :=
  if negb (python_ret w =? len gdb_python_commands) then Ret None
  else
    r ← skip_prompts deadline evs stream buf;
    match r with
    | None => Ret None
    | Some (evs, stream, (ret, buf)) => wait_done deadline evs stream ret buf
    end.

Definition communicate_gdb_backtrace (Debug : bool) (t0 : Z) (w : gdb_writes) (handle : Z) (evs : list gdb_event) (stream buf : str)
    : outcome (R * list str) :=
  let deadline := t0 + (if Debug then 3600 else 30) * 1000000000 in
  r ← drain_start deadline evs stream buf;
  match r with
  | None => Ret (no_info, [])
  | Some (evs, stream, buf) =>
      let sent := [gdb_preamble_commands handle] in
      if dprintf_ret w <=? 0 then Ret (no_info, sent)
      else
        match evs with
        | [] => Ret (no_info, sent)
        | e :: evs =>
            match next_data deadline (bufsize - 1) e stream with
            | None => Ret (no_info, sent)
            | Some (data, stream) =>
                buf ← poke 0 (data ++ [NUL]) buf;
                ok ← strcmp_eq buf (L "ok" ++ nl);
                if negb (handle =? 0) && ok then
                  r ← ask_frame deadline w evs stream buf;
                  let sent := sent ++ [gdb_python_commands] in
                  match r with
                  | None => Ret (no_info, sent)
                  | Some (evs, stream, info) =>
                      Ret (ask_backtrace deadline w evs stream {| thread_info := info; backtrace := [] |} sent)
                  end
                else Ret (ask_backtrace deadline w evs stream no_info sent)
            end
        end
  end.

(** In the child: gdb is not to download anything. *)
Definition debuginfo_urls : str := L "DEBUGINFO_URLS=".
Definition unset_debuginfo (environ : list str) : list str :=
  (fun v => if str_eqb (take (length debuginfo_urls) v) debuginfo_urls then debuginfo_urls else v) <$> environ.

(** c_str() *)
Definition c_str (s : str) : str := (span (fun c => negb (char_eqb c NUL)) s).1.

(** What the system does for generate_backtrace(): whether there are pipes, what
    fork() returns in the parent, and the conversation. *)
Record gdb_run := {
  pipes_open : bool; fork_ret : Z; clock0 : Z; writes : gdb_writes;
  gdb_events : list gdb_event; gdb_stream : str; stack_bytes : str;
}.

Definition generate_backtrace (ChildBacktrace : bool) (cfg : LogCfg) (now : Z) (run : gdb_run) (slice handle cpu : Z) (s : Shm) : outcome Shm :=
  _ ← assertion ChildBacktrace;
  if negb (pipes_open run) then Ret s
  else if fork_ret run <? 0 then Ret s
  else
    r ← communicate_gdb_backtrace (Debug cfg) (clock0 run) (writes run) handle (gdb_events run) (gdb_stream run) (stack_bytes run);
    let r := r.1 in
    s ← (match thread_info r with [] => Ret s | info => log_message cfg now cpu (L "W> " ++ c_str info) s end);
    match backtrace r with
    | [] => Ret s
    | bt => log_message_preformatted_level cfg (- slice - 1) (LOG_LEVEL_VERBOSE 2) bt s
    end.

(** gdb takes over the terminal; nothing of it comes back. *)
Definition attach_gdb (ChildBacktrace : bool) (s : Shm) : outcome Shm := _ ← assertion ChildBacktrace; Ret s.

(** * Facts *)

(** Nothing of the output of a process is ever returned. *)
Lemma output_lost reads log : Exists (fun r => r = None \/ r = Some []) reads -> read_output reads 0 log = Some [].
Proof.
  intros H. revert log. induction H as [r reads Hr|r reads H IH]; intros log; cbn [read_output]; case_match; try done.
  - by destruct Hr as [-> | ->].
  - destruct r as [[|c data]|]; done.
Qed.

Lemma run_process_output_lost vfork_ret waitpid_ret size reads : Exists (fun r => r = None \/ r = Some []) reads ->
  run_process_output vfork_ret waitpid_ret size reads = Some [].
Proof. intros H. unfold run_process_output. case_match; [done|]. destruct size as [[|n]|]; try done. by apply output_lost. Qed.

Definition no_nul (s : str) : Prop := NUL ∉ s.
Definition ends_in (s tail : str) : Prop := drop (length s - length tail) s = tail.
#[export] Instance ends_in_dec s tail : Decision (ends_in s tail) := decide (drop (length s - length tail) s = tail).

Lemma poke_ret off data buf : (off + length data <= length buf)%nat ->
  poke off data buf = Ret (take off buf ++ data ++ drop (off + length data) buf).
Proof. intros H. unfold poke. by rewrite (proj2 (Nat.leb_le _ _) H). Qed.

(** A text and its terminator, stored at the start. *)
Lemma poke_text data buf : (length data < length buf)%nat ->
  poke 0 (data ++ [NUL]) buf = Ret (data ++ NUL :: drop (S (length data)) buf).
Proof.
  intros H. rewrite poke_ret by (rewrite length_app; simpl; lia). rewrite <- app_assoc. simpl. do 4 f_equal. rewrite length_app. simpl. lia.
Qed.

Lemma length_text (data : str) (buf : str) : (length data < length buf)%nat -> length (data ++ NUL :: drop (S (length data)) buf) = length buf.
Proof. intros H. rewrite length_app. simpl. rewrite length_drop. lia. Qed.

(** The same after a text that is there already. *)
Lemma poke_more acc tail data : (length data <= length tail)%nat ->
  exists tail', length tail' = (length tail - length data)%nat /\
  (buf ← poke (length acc) data (acc ++ NUL :: tail); poke (length acc + length data) [NUL] buf) = Ret ((acc ++ data) ++ NUL :: tail').
Proof.
  intros H. exists (drop (S (length data)) (NUL :: tail)). split; [simpl; by rewrite length_drop|].
  rewrite poke_ret by (rewrite length_app; simpl; lia). rewrite take_app_length, <- (drop_drop (acc ++ _)), drop_app_length. cbn [mbind outcome_bind].
  rewrite app_assoc, <- length_app, poke_ret by (rewrite !length_app, length_drop; simpl; lia).
  rewrite take_app_length, <- (drop_drop ((acc ++ data) ++ _)), drop_app_length, drop_drop, Nat.add_1_r. done.
Qed.

Lemma strcmp_text data tail s : no_nul data -> no_nul s -> strcmp_eq (data ++ NUL :: tail) s = Ret (bool_decide (data = s)).
Proof.
  unfold no_nul. revert s. induction data as [|c data IH]; intros [|x s] Hd Hs; cbn [app strcmp_eq].
  - done.
  - apply not_elem_of_cons in Hs as [Hs _]. unfold char_eqb. rewrite !bool_decide_eq_false_2; [done|done|congruence].
  - apply not_elem_of_cons in Hd as [Hd _]. unfold char_eqb. rewrite !bool_decide_eq_false_2; [done|done|congruence].
  - apply not_elem_of_cons in Hd as [_ Hd], Hs as [_ Hs]. unfold char_eqb. destruct (decide (c = x)) as [->|Hne].
    + rewrite bool_decide_eq_true_2 by done. rewrite IH by done. f_equal. apply bool_decide_ext. split; congruence.
    + rewrite !bool_decide_eq_false_2; [done|congruence|done].
Qed.

Lemma strcmp_end data tail s : no_nul data -> no_nul s -> (length s <= length data)%nat ->
  strcmp_eq (drop (length data - length s) (data ++ NUL :: tail)) s = Ret (bool_decide (ends_in data s)).
Proof.
  intros Hd Hs Hl. rewrite drop_app_le by lia. rewrite strcmp_text; [done| |done]. intros H. apply Hd. rewrite <- (take_drop (length data - length s) data). apply elem_of_app. by right.
Qed.

Lemma ends_short data s : (length data < length s)%nat -> ~ ends_in data s.
Proof. intros H E. unfold ends_in in E. rewrite <- E, length_drop in H. lia. Qed.

Section Session.
Context (deadline : Z).

(** A round of poll() and read() in time that brings just this text. *)
Definition delivers (n : nat) (e : gdb_event) (chunk : str) : Prop :=
  0 < wait_for_more deadline e /\ got e = Avail (length chunk) /\ chunk <> [] /\ (length chunk <= n)%nat.

Lemma next_data_delivers m n e chunk rest : delivers m e chunk -> (length chunk <= n)%nat ->
  next_data deadline n e (chunk ++ rest) = Some (chunk, rest).
Proof.
  intros (Hw & Hg & Hne & _) Hn. unfold next_data. rewrite (proj2 (Z.leb_gt _ _) Hw), Hg, Nat.min_r, take_app_length, drop_app_length by done.
  by destruct chunk.
Qed.

Lemma drain_start_ends evs chunks e last evs' rest : no_nul last -> ends_in last prompt -> delivers (bufsize - 1) e last ->
  Forall2 (delivers (bufsize - 1)) evs chunks -> Forall (fun c => no_nul c /\ ~ ends_in c prompt) chunks ->
  forall buf, length buf = bufsize ->
  exists buf', length buf' = bufsize /\ drain_start deadline (evs ++ e :: evs') (concat chunks ++ last ++ rest) buf = Ret (Some (evs', rest, buf')).
Proof.
  intros Hl Hend He Hall. induction Hall as [|e0 c evs chunks Hc Hall IH]; intros Hq buf Hbuf; cbn [app concat drain_start].
  - destruct He as (H1 & H2 & H3 & H4). rewrite (next_data_delivers (bufsize - 1)) by done. rewrite poke_text by (unfold bufsize in *; lia). cbn [mbind outcome_bind].
    eexists. split; [|]. 2: { destruct (Nat.leb_spec (length prompt) (length last)) as [Hp|Hp]; [|by destruct (ends_short last prompt Hp)].
      rewrite strcmp_end; [|done|by apply (bool_decide_unpack (NUL ∉ prompt)); vm_compute|done]. rewrite bool_decide_eq_true_2 by done. cbn [mbind outcome_bind]. done. }
    rewrite length_text; [done|unfold bufsize in *; lia].
  - apply Forall_cons in Hq as [[Hn Hne] Hq]. pose proof Hc as (_ & _ & _ & Hcl). rewrite <- app_assoc, (next_data_delivers (bufsize - 1)) by done.
    rewrite poke_text by (unfold bufsize in *; lia). cbn [mbind outcome_bind].
    assert ((if (length prompt <=? length c)%nat then strcmp_eq (drop (length c - length prompt) (c ++ NUL :: drop (S (length c)) buf)) prompt else Ret false) = Ret false) as ->.
    { destruct (Nat.leb_spec (length prompt) (length c)); [|done]. rewrite strcmp_end; [|done|by apply (bool_decide_unpack (NUL ∉ prompt)); vm_compute|done].
      by rewrite bool_decide_eq_false_2. }
    cbn [mbind outcome_bind]. apply IH; [done|]. rewrite length_text; [done|unfold bufsize in *; lia].
Qed.

Lemma skip_prompts_ends evs prompts e first evs' rest : no_nul first -> (forall c, head first = Some c -> is_prompt c = false) ->
  delivers (bufsize - 1) e first -> Forall2 (delivers (bufsize - 1)) evs prompts -> Forall (Forall (fun c => is_prompt c = true)) prompts ->
  forall buf, length buf = bufsize ->
  exists tail, length (first ++ NUL :: tail) = bufsize /\
    skip_prompts deadline (evs ++ e :: evs') (concat prompts ++ first ++ rest) buf = Ret (Some (evs', rest, (length first, first ++ NUL :: tail))).
Proof using Type.
  intros Hn Hhead He Hall. induction Hall as [|e0 c evs prompts Hc Hall IH]; intros Hq buf Hbuf; cbn [app concat skip_prompts].
  - pose proof He as (_ & _ & Hne & Hlen). rewrite (next_data_delivers (bufsize - 1)) by done. rewrite poke_text by (unfold bufsize in *; lia). cbn [mbind outcome_bind].
    exists (drop (S (length first)) buf). split; [rewrite length_text; [done|unfold bufsize in *; lia]|]. destruct first as [|x first]; [done|].
    specialize (Hhead x eq_refl). apply not_elem_of_cons in Hn as [Hx _]. cbn [app span]. rewrite Hhead. unfold char_eqb.
    rewrite bool_decide_eq_false_2 by congruence. cbn [length]. rewrite Nat.sub_0_r, (app_comm_cons _ _ x). change (S (length first)) with (length (x :: first)).
    rewrite take_app_length, poke_ret by (rewrite length_app; lia). cbn [mbind outcome_bind take Nat.add app].
    cbn [length drop]. by rewrite drop_app_length.
  - apply Forall_cons in Hq as [Hc' Hq]. pose proof Hc as (_ & _ & _ & Hlen). rewrite <- app_assoc, (next_data_delivers (bufsize - 1)) by done.
    rewrite poke_text by (unfold bufsize in *; lia). cbn [mbind outcome_bind]. rewrite span_all by done. cbn [char_eqb].
    apply IH; [done|]. rewrite length_text; [done|unfold bufsize in *; lia].
Qed.

Lemma no_nul_app a b : no_nul (a ++ b) <-> no_nul a /\ no_nul b.
Proof using Type. unfold no_nul. rewrite elem_of_app. tauto. Qed.

Lemma complete_text acc tail : no_nul acc -> complete (length acc) (acc ++ NUL :: tail) = Ret (bool_decide (ends_in acc needle)).
Proof using Type.
  intros H. unfold complete. destruct (Nat.leb_spec (length needle) (length acc)) as [Hl|Hl].
  - apply strcmp_end; [done|by apply (bool_decide_unpack (NUL ∉ needle)); vm_compute|done].
  - rewrite bool_decide_eq_false_2; [done|]. by apply ends_short.
Qed.

Lemma wait_done_ends evs chunks evs' rest : Forall2 (delivers (bufsize - 1)) evs chunks ->
  forall acc tail text, no_nul (acc ++ concat chunks) -> acc ++ concat chunks = text ++ needle ->
  (forall a b, chunks = a ++ b -> b <> [] -> ~ ends_in (acc ++ concat a) needle) ->
  length (acc ++ NUL :: tail) = bufsize -> (length (acc ++ concat chunks) < bufsize)%nat ->
  wait_done deadline (evs ++ evs') (concat chunks ++ rest) (length acc) (acc ++ NUL :: tail) = Ret (Some (evs', rest, text)).
Proof using Type.
  induction 1 as [|e c evs chunks Hc Hall IH]; intros acc tail text Hn Ht Hno Hlen Hmax.
  - cbn [concat app] in *. rewrite app_nil_r in *. assert (ends_in acc needle) as Hend
      by (unfold ends_in; rewrite Ht, length_app, Nat.add_sub, drop_app_length; done).
    assert (forall evs, wait_done deadline evs rest (length acc) (acc ++ NUL :: tail) = Ret (Some (evs, rest, text))) as H; [|apply H].
    intros evs. destruct evs; cbn [wait_done]; rewrite complete_text, bool_decide_eq_true_2 by done; cbn [mbind outcome_bind];
      rewrite Ht, length_app, Nat.add_sub, <- app_assoc, take_app_length; done.
  - cbn [app concat wait_done] in *. apply no_nul_app in Hn as [Ha Hn]. rewrite complete_text by done.
    rewrite bool_decide_eq_false_2 by (specialize (Hno [] (c :: chunks) eq_refl); rewrite app_nil_r in Hno; by apply Hno). cbn [mbind outcome_bind].
    rewrite !length_app in Hmax. rewrite length_app in Hlen. cbn [length] in Hlen. pose proof Hc as (_ & _ & _ & Hlc).
    rewrite <- app_assoc, (next_data_delivers (bufsize - 1)) by (done || lia).
    destruct (poke_more acc tail c ltac:(lia)) as (tail' & Hl' & Hp). destruct (poke (length acc) c (acc ++ NUL :: tail)) as [buf| |]; try done.
    cbn [mbind outcome_bind] in *. rewrite Hp. cbn [mbind outcome_bind]. rewrite <- length_app. apply IH.
    + rewrite <- app_assoc. by apply no_nul_app.
    + by rewrite <- app_assoc.
    + intros a b -> Hb. rewrite <- app_assoc. by apply (Hno (c :: a) b).
    + rewrite !length_app. cbn [length]. lia.
    + rewrite !length_app. lia.
Qed.

Lemma collect_nil evs log : collect deadline evs [] log = log.
Proof using Type.
  induction evs as [|e evs IH]; [done|]. cbn [collect]. case_match; [done|]. destruct (got e); [by rewrite take_nil|]. by case_match.
Qed.

Lemma collect_all evs chunks evs' : Forall2 (delivers bufsize) evs chunks ->
  forall log, collect deadline (evs ++ evs') (concat chunks) log = log ++ concat chunks.
Proof using Type.
  induction 1 as [|e c evs chunks (Hw & Hg & Hne & Hl) Hall IH]; intros log; cbn [app concat collect].
  - by rewrite collect_nil, app_nil_r.
  - rewrite (proj2 (Z.leb_gt _ _) Hw), Hg, Nat.min_r, take_app_length, drop_app_length by done. destruct c as [|x c]; [done|]. by rewrite IH, <- app_assoc.
Qed.
End Session.

(** What gdb says, as the pieces in which it arrives: the start up to the first
    prompt, the prompts of the Python command, its reply and the backtrace. *)
Record conversation := { start : list str; first_prompt : str; prompts : list str; reply : list str; trace : list str }.

Definition questions_answered (c : conversation) : list str := start c ++ [first_prompt c] ++ [L "ok" ++ nl] ++ prompts c ++ reply c.

(** gdb follows the script: its first prompt and its "ok" arrive by themselves, the
    reply starts in a piece of its own, ends with the mark, has it nowhere else at the
    end of a piece, and fits the buffer. *)
Record follows_script (c : conversation) (text : str) : Prop := {
  fs_start : Forall (fun p => no_nul p /\ ~ ends_in p prompt) (start c);
  fs_prompt : no_nul (first_prompt c) /\ ends_in (first_prompt c) prompt;
  fs_prompts : Forall (Forall (fun x => is_prompt x = true)) (prompts c);
  fs_reply : no_nul (concat (reply c)) /\ concat (reply c) = text ++ needle /\ (length (concat (reply c)) < bufsize)%nat;
  fs_head : forall x, head (concat (reply c)) = Some x -> is_prompt x = false;
  fs_mark : forall a b, reply c = a ++ b -> b <> [] -> ~ ends_in (concat a) needle;
}.

(** C26. Asking the debugger, when gdb follows a script: the commands are written
    completely; all pieces come before the deadline; no piece is longer than a read or has a NUL;
    the start of gdb comes in any pieces, of which just the last ends in a prompt; "ok" is
    a piece of its own; then come pieces that have only the prompts of the Python command;
    then the reply, which starts a piece of its own and not with a prompt's character, is cut anywhere such that no piece but
    the last ends with the mark, and is shorter than the buffer of 4096 bytes with the
    mark; then the backtrace, in any pieces. Then, however often signals interrupt the waits, the
    frame of the crash and the backtrace are those that gdb printed, and gdb was sent
    the three groups of commands in their order. That the reply starts its own piece
    and fits the buffer is not up to the code: the Examples
    reply_after_prompts_missed and long_reply_overflows say what it does otherwise. *)
Theorem gdb_conversation Debug t0 w handle c text evs evs' after buf :
  let deadline := t0 + (if Debug : bool then 3600 else 30) * 1000000000 in
  handle <> 0 -> 0 < dprintf_ret w -> python_ret w = len gdb_python_commands -> bt_ret w = len gdb_bt_commands -> length buf = bufsize ->
  follows_script c text -> Forall2 (delivers deadline (bufsize - 1)) evs (questions_answered c) -> Forall2 (delivers deadline bufsize) evs' (trace c) ->
  communicate_gdb_backtrace Debug t0 w handle (evs ++ evs' ++ after) (concat (questions_answered c) ++ concat (trace c)) buf =
    Ret ({| thread_info := text; backtrace := concat (trace c) |}, [gdb_preamble_commands handle; gdb_python_commands; gdb_bt_commands]).
Proof.
  intros deadline Hh Hd Hp Hb Hbuf F Hall Htrace. destruct F as [Fs [Fp1 Fp2] Fq (Fr1 & Fr2 & Fr3) Fh Fm]. unfold questions_answered in *.
  apply Forall2_app_inv_r in Hall as (e1 & ? & H1 & Hall & ->). apply Forall2_app_inv_r in Hall as (e2 & ? & H2 & Hall & ->).
  apply Forall2_app_inv_r in Hall as (e3 & ? & H3 & Hall & ->). apply Forall2_app_inv_r in Hall as (e4 & e5 & H4 & H5 & ->).
  apply Forall2_cons_inv_r in H2 as (ep & ? & Hep & H2 & ->). apply Forall2_nil_inv_r in H2 as ->.
  apply Forall2_cons_inv_r in H3 as (eo & ? & Heo & H3 & ->). apply Forall2_nil_inv_r in H3 as ->.
  destruct (reply c) as [|r0 rs] eqn:Er; [by destruct text|]. apply Forall2_cons_inv_r in H5 as (er & es & Her & H5 & ->).
  rewrite !concat_app. cbn [concat]. rewrite !app_nil_r, <- !app_assoc. cbn [app]. unfold communicate_gdb_backtrace. fold deadline.
  edestruct (drain_start_ends deadline e1 (start c) ep (first_prompt c)) as (buf1 & Hb1 & ->); [done..|]. cbn [mbind outcome_bind].
  rewrite (proj2 (Z.leb_gt _ _) Hd). rewrite (app_assoc (L "ok") nl), (next_data_delivers _ (bufsize - 1)) by (done || apply Heo).
  rewrite poke_text by (rewrite Hb1; apply (bool_decide_unpack (_ < bufsize)%nat); by vm_compute). cbn [mbind outcome_bind].
  set (okmsg := L "ok" ++ nl). rewrite (strcmp_text okmsg) by (by apply (bool_decide_unpack (NUL ∉ okmsg)); vm_compute). rewrite bool_decide_eq_true_2 by done.
  cbn [mbind outcome_bind]. rewrite (proj2 (Z.eqb_neq handle 0) Hh). cbn [negb andb]. unfold ask_frame. rewrite Hp, Z.eqb_refl. cbn [negb].
  cbn [concat] in *. apply no_nul_app in Fr1 as Fr1'. destruct Fr1' as [Fr0 _]. pose proof Her as (_ & _ & Hne & _).
  edestruct (skip_prompts_ends deadline e4 (prompts c) er r0) as (tail & Ht & ->);
    [done|intros x Hx; apply Fh; by destruct r0|done|done|done| |].
  { rewrite length_text; [done|]. rewrite Hb1. apply (bool_decide_unpack (_ < bufsize)%nat). by vm_compute. }
  cbn [mbind outcome_bind]. rewrite (wait_done_ends deadline es rs _ _ H5 r0 tail text);
    [|done|done|intros a b E Hb'; apply (Fm (r0 :: a) b); [by rewrite E|done]|done|done].
  cbn [mbind outcome_bind]. unfold ask_backtrace. rewrite Hb, Z.eqb_refl. cbn [negb app Logic.not thread_info backtrace].
  by rewrite (collect_all deadline evs' (trace c) after Htrace).
Qed.

(** A session: the reply comes in two pieces, and a signal interrupts the wait for
    the backtrace. *)
Definition sample : conversation :=
  {| start := [L "Attaching to process 12" ++ nl]; first_prompt := L "main () (gdb) "; prompts := [L ">>>"; L ">" ++ nl];
     reply := [L "#1 f () at a.c:3" ++ nl ++ L "..Do"; L "ne.." ++ nl]; trace := [L "Backtrace:"; L "#0 f ()" ++ nl] |}.
Definition arrival (t : Z) (signals : list Z) (piece : str) : gdb_event :=
  {| started := t; interrupted := signals; poll_ret := 1; got := Avail (length piece) |}.
Definition all_written : gdb_writes := {| dprintf_ret := 90; python_ret := len gdb_python_commands; bt_ret := len gdb_bt_commands |}.
Definition room : str := replicate bufsize "x"%char.

Ltac delivered := repeat (constructor; [split; [by vm_compute|split; [done|split; [done|by apply (bool_decide_unpack (_ <= _)%nat); vm_compute]]]|]); constructor.

Lemma gdb_conversation_witness :
  communicate_gdb_backtrace false 0 all_written 12 ((arrival 0 [] <$> questions_answered sample) ++ (arrival 5 [10 ^ 9] <$> trace sample) ++ [])
    (concat (questions_answered sample) ++ concat (trace sample)) room =
  Ret ({| thread_info := L "#1 f () at a.c:3" ++ nl; backtrace := L "Backtrace:#0 f ()" ++ nl |},
       [gdb_preamble_commands 12; gdb_python_commands; gdb_bt_commands]).
Proof.
  apply (gdb_conversation false 0 all_written 12 sample (L "#1 f () at a.c:3" ++ nl)); try done.
  - split.
    + by apply (bool_decide_unpack _); vm_compute.
    + split; by apply (bool_decide_unpack _); vm_compute.
    + repeat constructor.
    + split; [by apply (bool_decide_unpack (NUL ∉ _)); vm_compute|]. split; [done|]. by apply (bool_decide_unpack (_ < _)%nat); vm_compute.
    + by intros x [= <-].
    + intros [|p [|q [|r a]]] b E Hb; try discriminate; injection E; intros; subst; try done;
        apply (bool_decide_unpack (~ ends_in _ _)); by vm_compute.
  - delivered.
  - delivered.
Defined.

(** When the prompts and the reply arrive in one piece, the text that is moved to the
    front of the buffer has no terminator, so that the mark at its end is not found:
    the wait ends with the deadline and there is no backtrace. *)
Example reply_after_prompts_missed :
  let pieces := [L "(gdb) "; L "ok" ++ nl; L ">>>" ++ L "#1 f ()" ++ nl ++ needle] in
  fst <$> communicate_gdb_backtrace false 0 all_written 12 (arrival 0 [] <$> pieces) (concat pieces) room = Ret no_info.
Proof. by vm_compute. Qed.

(** A reply that fills the buffer: the terminator is written behind its end. *)
Example long_reply_overflows :
  let pieces := [L "(gdb) "; L "ok" ++ nl; L "#1 f ("; replicate bufsize "a"%char] in
  communicate_gdb_backtrace false 0 all_written 12 (arrival 0 [] <$> pieces) (concat pieces) room = Ub.
Proof. by vm_compute. Qed.

(** The output of a process is read, and thrown away. *)
Example ps_output_dropped : run_process_output 12 12 (Some 3%nat) [Some (L "abc"); Some []] = Some [].
Proof. done. Qed.
