(* ===== verification/CrashContext.v ===== *)
(** The context of a crash (src/framework/sysdeps/unix/child_debug.cpp, struct
    CrashContext, print_signal_info() and print_crash_info(), for Linux on x86-64):
    what the crashed child sends to its parent in one datagram, how the parent takes
    it apart, and what it logs of it. A datagram is its bytes. *)

From S2P Require Import Prelude CStdlib Bytes ThreadData Logging Report Mismatch ContextDump GdbSession.

(** * Actions *)

(** enum CrashAction *)
Definition kill_on_crash : Z := 0x00.
Definition coredump_on_crash : Z := 0x01.
Definition context_on_crash : Z := 0x02.
Definition attach_gdb_on_crash : Z := 0x10.
Definition backtrace_on_crash : Z := Z.lor context_on_crash attach_gdb_on_crash.

(** * The message *)

(** struct CrashContext::Fixed *)
Record Fixed := {
  pid : Z; handle : Z; crash_address : Z; rip : Z; f_thread_num : Z;
  signum : Z; signal_code : Z; trap_nr : Z; error_code : Z;
}.

(** The struct as it lies in memory. *)
Definition sizeof_Fixed : nat := 48.
Definition Fixed_bytes (f : Fixed) : list Z :=
  le_bytes 4 (pid f) ++ le_bytes 4 (handle f) ++ le_bytes 8 (crash_address f) ++ le_bytes 8 (rip f) ++
  le_bytes 4 (f_thread_num f) ++ le_bytes 4 (signum f) ++ le_bytes 4 (signal_code f) ++ le_bytes 4 (trap_nr f) ++ le_bytes 8 (error_code f).

Definition field (n off : nat) (bs : list Z) : Z := le_value (take n (drop off bs)).
Definition Fixed_of (bs : list Z) : Fixed :=
  {| pid := i32 (field 4 0 bs); handle := i32 (field 4 4 bs); crash_address := field 8 8 bs; rip := field 8 16 bs;
     f_thread_num := i32 (field 4 24 bs); signum := i32 (field 4 28 bs); signal_code := i32 (field 4 32 bs);
     trap_nr := i32 (field 4 36 bs); error_code := i64 (field 8 40 bs) |}.

(** mcontext_t::gregs: 23 registers of 64 bits. *)
Definition NGREG : nat := 23.
Definition sizeof_gregs : nat := 184.
Definition REG_ERR : Z := 19.
Definition REG_TRAPNO : Z := 20.
Definition gregs_bytes (gregs : list Z) : list Z := concat (le_bytes 8 <$> gregs).
Definition gregs_of (bs : list Z) : list Z := (fun i => i64 (field 8 (8 * i) bs)) <$> seq 0 NGREG.

(** The parts of siginfo_t and ucontext_t that are used; [fpregs] is the memory that
    the pointer points to. *)
Record siginfo_t := { si_signo : Z; si_code : Z; si_addr : Z }.
Record ucontext_t := { uc_flags : Z; gregs : list Z; fpregs : option (list Z) }.
Definition UC_FP_XSTATE : Z := 0x1.

(** enum Contents *)
Definition NoContents : Z := 0x00.
Definition FixedContext : Z := 0x01.
Definition MachineContext : Z := 0x02.
Definition XsaveArea : Z := 0x04.

Record CrashContext := { fixed : Fixed; xsave_buffer : list Z; mc : list Z; contents : Z }.
#[export] Instance CrashContext_eta : Eta CrashContext := fun c => Build_CrashContext (fixed c) (xsave_buffer c) (mc c) (contents c).

(** CrashContext::send(): the datagram. [leaf] and [leaf0d] are leaf 0xd of the cpuid
    instruction; pid, tid and the number of the thread are those of the crashed one. *)
Definition send (leaf : option (Z * Z)) (leaf0d : Z -> Z * Z) (on_crash_action pid tid thread_num starting_cpu : Z) (si : siginfo_t) (ctx : ucontext_t)
    : outcome (list Z) :=
  n ← match fpregs ctx with
      | None => Ret 0
      | Some area =>
          if has (uc_flags ctx) UC_FP_XSTATE then bv ← load 8 512 area; Ret (xsave_size_for_bitvector leaf leaf0d bv)
          else Ret FXSAVE_SIZE
      end;
  r ← at_ (gregs ctx) REG_RIP;
  err ← at_ (gregs ctx) REG_ERR;
  trapno ← at_ (gregs ctx) REG_TRAPNO;
  let fixed := {| pid := pid; handle := tid; crash_address := si_addr si; rip := u64 r; f_thread_num := i32 (thread_num + starting_cpu);
                  signum := si_signo si; signal_code := si_code si; trap_nr := i32 trapno; error_code := err |} in
  if negb (has on_crash_action context_on_crash) then Ret (Fixed_bytes fixed)
  else
    area ← read_at (Z.to_nat (u64 n)) 0 (default [] (fpregs ctx));
    Ret (Fixed_bytes fixed ++ gregs_bytes (gregs ctx) ++ area).

(** recvmsg(): a datagram is scattered over the buffers; what does not fit is lost. *)
Fixpoint scatter (sizes : list nat) (d : list Z) : list (list Z) :=
  match sizes with
  | [] => []
  | n :: sizes => take n d :: scatter sizes (drop n d)
  end.
Definition recvmsg (sizes : list nat) (msg : option (list Z)) : Z * list (list Z) :=
  match msg with
  | None => (-1, (fun _ => []) <$> sizes)
  | Some d => (Z.min (len d) (Z.of_nat (sum_list sizes)), scatter sizes d)
  end.

(** A buffer whose start was written. *)
Definition overlay (data old : list Z) : list Z := data ++ drop (length data) old.

(** CrashContext::receive_internal(): [fixed0] and [buffer] are what the struct and
    the area hold before. *)
Definition receive_internal (on_crash_action : Z) (fixed0 buffer : list Z) (msg : option (list Z)) : CrashContext :=
  let with_context := has on_crash_action context_on_crash in
  let gpr_size := if with_context then sizeof_gregs else O in
  let sizes := sizeof_Fixed :: (if with_context then [gpr_size; length buffer] else []) in
  let '(ret, parts) := recvmsg sizes msg in
  let c := {| fixed := Fixed_of (overlay (default [] (parts !! 0%nat)) fixed0);
              mc := gregs_of (overlay (default [] (parts !! 1%nat)) (replicate sizeof_gregs 0));
              xsave_buffer := overlay (default [] (parts !! 2%nat)) buffer;
              contents := NoContents |} in
  let ret := ret - Z.of_nat sizeof_Fixed in
  if ret <? 0 then c
  else
    let c := c <| contents := FixedContext |> in
    if with_context then
      let ret := ret - Z.of_nat gpr_size in
      if ret <? 0 then c
      else
        let c := c <| contents := Z.lor (contents c) MachineContext |> <| xsave_buffer := take (Z.to_nat ret) (xsave_buffer c) |> in
        if ret =? 0 then c else c <| contents := Z.lor (contents c) MachineContext |>
    else c <| xsave_buffer := [] |>.

(** * Reporting *)

Definition SIGILL : Z := 4.
Definition SIGTRAP : Z := 5.
Definition SIGABRT : Z := 6.
Definition SIGBUS : Z := 7.
Definition SIGFPE : Z := 8.
Definition SIGSEGV : Z := 11.

(** The code of a signal in a table of names. *)
Fixpoint name_of (names : list (Z * str)) (code : Z) : option str :=
  match names with
  | [] => None
  | (c, name) :: names => if code =? c then Some name else name_of names code
  end.
Definition generic_codes : list (Z * str) :=
  [(0, L "SI_USER"); (-1, L "SI_QUEUE"); (-2, L "SI_TIMER"); (-4, L "SI_ASYNCIO"); (-3, L "SI_MESGQ"); (0x80, L "SI_KERNEL"); (-5, L "SI_SIGIO");
   (-7, L "SI_DETHREAD")].
Definition generic_code_string (code : Z) : str := default (L "??") (name_of generic_codes code).
Definition sigfpe_codes : list (Z * str) :=
  [(1, L "FPE_INTDIV"); (2, L "FPE_INTOVF"); (3, L "FPE_FLTDIV"); (4, L "FPE_FLTOVF"); (5, L "FPE_FLTUND"); (6, L "FPE_FLTRES"); (7, L "FPE_FLTINV");
   (8, L "FPE_FLTSUB"); (14, L "FPE_FLTUNK"); (15, L "FPE_CONDTRAP")].
Definition sigill_codes : list (Z * str) :=
  [(1, L "ILL_ILLOPC"); (2, L "ILL_ILLOPN"); (3, L "ILL_ILLADR"); (4, L "ILL_ILLTRP"); (5, L "ILL_PRVOPC"); (6, L "ILL_PRVREG"); (7, L "ILL_COPROC");
   (8, L "ILL_BADSTK"); (9, L "ILL_BADIADDR")].
Definition sigsegv_codes : list (Z * str) :=
  [(1, L "SEGV_MAPERR"); (2, L "SEGV_ACCERR"); (3, L "SEGV_BNDERR"); (4, L "SEGV_PKUERR"); (10, L "SEGV_CPERR")].
Definition sigbus_codes : list (Z * str) :=
  [(1, L "BUS_ADRALN"); (2, L "BUS_ADRERR"); (3, L "BUS_OBJERR"); (4, L "BUS_MCEERR_AR"); (5, L "BUS_MCEERR_AO")].
Definition sigtrap_codes : list (Z * str) :=
  [(1, L "TRAP_BRKPT"); (2, L "TRAP_TRACE"); (3, L "TRAP_BRANCH"); (4, L "TRAP_HWBKPT"); (5, L "TRAP_UNK")].

(** The switch over the signal: the names of its codes. *)
Definition code_names (signum : Z) : option (list (Z * str)) :=
  if signum =? SIGFPE then Some sigfpe_codes
  else if signum =? SIGILL then Some sigill_codes
  else if signum =? SIGSEGV then Some sigsegv_codes
  else if signum =? SIGBUS then Some sigbus_codes
  else if signum =? SIGTRAP then Some sigtrap_codes
  else None.
Definition code_string (names : list (Z * str)) (code : Z) : str := default (generic_code_string code) (name_of names code).

Definition trap_names : list str := L <$>
  ["DE"; "DB"; "NMI"; "BP"; "OF"; "BR"; "UD"; "NM"; "DF"; "MF"; "TS"; "NP"; "SS"; "GP"; "PF"; "spu"; "MF"; "AC"; "MC"; "XM"; "VE"; "CP"]%string.
Definition trap_name (nr : Z) : str := if nr =? 32 then L "IRET" else default (L "??") (trap_names !! Z.to_nat (u64 nr)).

(** What follows the last slash. *)
Definition file_name (path : str) : str := reverse (span (fun c => negb (char_eqb c "/")) (reverse path)).1.

Section Print.
(** strsignal(), dladdr() (the name of the object and its base) *)
Context (strsignal : Z -> str) (dladdr : Z -> option (str * Z)) (cfg : LogCfg) (now : Z).

Definition signal_message (ctx : Fixed) (names : list (Z * str)) : str :=
  L "Received signal " ++ to_string (signum ctx) ++ L " (" ++ strsignal (signum ctx) ++ L ") code=" ++ to_string (signal_code ctx) ++
  L " (" ++ code_string names (signal_code ctx) ++ L "), RIP = " ++ fmt_p (rip ctx) ++
  match dladdr (rip ctx) with
  | Some (fname, fbase) => if fbase <? rip ctx then L " (" ++ file_name fname ++ L "+" ++ fmt_alt_x (rip ctx - fbase) ++ L ")" else []
  | None => []
  end ++
  (if rip ctx =? crash_address ctx then [] else L ", CR2 = " ++ fmt_p (crash_address ctx)) ++
  (if trap_nr ctx <? 0 then []
   else L ", trap=" ++ to_string (trap_nr ctx) ++ L " (" ++ trap_name (trap_nr ctx) ++ L "), error_code = 0x" ++ to_digits 16 (u64 (error_code ctx))).

(** print_signal_info(): whether the registers are to be printed. *)
Definition print_signal_info (ctx : Fixed) (s : Shm) : outcome (bool * Shm) :=
  let cpu := f_thread_num ctx in
  if signum ctx =? SIGABRT then
    s ← log_message cfg now cpu (L "W> Received signal 6 (Abort) - could be a software error") s;
    Ret (false, s)
  else match code_names (signum ctx) with
  | None => Ret (false, s)
  | Some names => s ← log_message cfg now cpu (L "E> " ++ signal_message ctx names) s; Ret (true, s)
  end.

(** print_crash_info(); [rip_symbol], [leaf0d], [fmt_La] and [xcr0] are for the dump
    of the registers, [run] for the debugger. *)
Context (ChildBacktrace : bool) (thread_count on_crash_action : Z).
Context (rip_symbol : Z -> option (str * Z)) (leaf0d : Z -> Z * Z) (fmt_La : Z -> Z -> str) (xcr0 : option Z).

Definition print_crash_info (run : gdb_run) (slice : Z) (ctx : CrashContext) (s : Shm) : outcome Shm :=
  r ← (if has (contents ctx) FixedContext then
         let num := f_thread_num (fixed ctx) in
         let cpu := if (num <? -1) || (thread_count <? num) then -1 else num in
         let f := fixed ctx in
         let f := {| pid := pid f; handle := handle f; crash_address := crash_address f; rip := rip f; f_thread_num := cpu;
                     signum := signum f; signal_code := signal_code f; trap_nr := trap_nr f; error_code := error_code f |} in
         p ← print_signal_info f s;
         Ret (cpu, if p.1 : bool then u64 (handle f) else 0, p.2)
       else Ret (-1, 0, s));
  let '(cpu, handle, s) := r in
  s ← (if ChildBacktrace && (Z.land on_crash_action backtrace_on_crash =? backtrace_on_crash)
       then generate_backtrace ChildBacktrace cfg now run slice handle cpu s else Ret s);
  if negb (handle =? 0) && has (contents ctx) MachineContext then
    gprs ← dump_gprs rip_symbol (mc ctx);
    area ← dump_xsave leaf0d fmt_La (xsave_buffer ctx) xcr0 (-1);
    match gprs ++ area with
    | [] => Ret s
    | log => log_message_preformatted_level cfg cpu (LOG_LEVEL_VERBOSE 2) (L "Registers:" ++ nl ++ log) s
    end
  else Ret s.
End Print.

(** * Facts: the message *)

Lemma field_skip n off (a b : list Z) : (length a <= off)%nat -> field n off (a ++ b) = field n (off - length a) b.
Proof. intros H. unfold field. rewrite drop_app_ge by done. done. Qed.
Lemma field_here n z b : field n 0 (le_bytes n z ++ b) = z mod 2 ^ (8 * Z.of_nat n).
Proof. unfold field. rewrite drop_0, <- (length_le_bytes n z) at 1. rewrite take_app_length, le_value_bytes. done. Qed.

Lemma signed_mod w z : 0 < w -> in_s w z -> wrap_s w (z mod 2 ^ w) = z.
Proof.
  intros Hw Hz. unfold wrap_s. rewrite Zplus_mod_idemp_l. by apply (wrap_s_small w).
Qed.

(** The values a C program can have in the struct. *)
Definition Fixed_ok (f : Fixed) : Prop :=
  in_s 32 (pid f) /\ in_s 32 (handle f) /\ in_u 64 (crash_address f) /\ in_u 64 (rip f) /\ in_s 32 (f_thread_num f) /\
  in_s 32 (signum f) /\ in_s 32 (signal_code f) /\ in_s 32 (trap_nr f) /\ in_s 64 (error_code f).

Lemma length_Fixed_bytes f : length (Fixed_bytes f) = sizeof_Fixed.
Proof. unfold Fixed_bytes. rewrite !length_app, !length_le_bytes. done. Qed.

Lemma Fixed_roundtrip f rest : Fixed_ok f -> Fixed_of (Fixed_bytes f ++ rest) = f.
Proof.
  intros (H1 & H2 & H3 & H4 & H5 & H6 & H7 & H8 & H9). destruct f. unfold Fixed_of, Fixed_bytes. cbn [pid handle crash_address rip f_thread_num signum signal_code trap_nr error_code] in *.
  rewrite <- !app_assoc. f_equal; repeat (rewrite field_skip by (rewrite length_le_bytes; lia); rewrite length_le_bytes; cbn [Nat.sub]); rewrite field_here;
    first [by apply (signed_mod 32)|by apply (signed_mod 64)|by apply Z.mod_small].
Qed.

Lemma length_gregs_bytes l : length (gregs_bytes l) = (8 * length l)%nat.
Proof. induction l as [|x l IH]; [done|]. unfold gregs_bytes in *. cbn [fmap list_fmap concat length]. rewrite length_app, IH, length_le_bytes. lia. Qed.

Lemma gregs_field l i z rest : l !! i = Some z -> in_s 64 z -> i64 (field 8 (8 * i) (gregs_bytes l ++ rest)) = z.
Proof.
  revert i. induction l as [|x l IH]; intros i Hi Hz; [done|]. unfold gregs_bytes in *. cbn [fmap list_fmap concat]. rewrite <- app_assoc. destruct i as [|i].
  - injection Hi as ->. rewrite Nat.mul_0_r, field_here. by apply signed_mod.
  - rewrite field_skip by (rewrite length_le_bytes; lia). rewrite length_le_bytes. replace (8 * S i - 8)%nat with (8 * i)%nat by lia. by apply IH.
Qed.

Lemma gregs_roundtrip l rest : length l = NGREG -> Forall (in_s 64) l -> gregs_of (gregs_bytes l ++ rest) = l.
Proof.
  intros Hl Hs. unfold gregs_of. apply list_eq_same_length with NGREG; [done|by rewrite length_fmap, length_seq|].
  intros i x y Hi Hx Hy. rewrite list_lookup_fmap, lookup_seq_lt in Hx by done. simpl in Hx. injection Hx as <-.
  apply (gregs_field l i y rest); [done|]. rewrite Forall_lookup in Hs. by eapply Hs.
Qed.

(** ** The size of the area *)

Lemma highest_end_le leaf0d bound n : (forall k, 0 <= (leaf0d k).1 /\ 0 <= (leaf0d k).2 /\ (leaf0d k).1 + (leaf0d k).2 < 2 ^ 31) ->
  forall bit bv size, 0 <= bit -> (forall k, bit <= k -> Z.testbit bv k = true -> (leaf0d k).1 + (leaf0d k).2 <= bound) -> size <= bound ->
  highest_end n leaf0d bit bv size <= bound.
Proof.
  intros Hw. induction n as [|n IH]; intros bit bv size Hbit Hb Hs; [done|]. cbn [highest_end]. case_match; [done|].
  destruct (Z.testbit bv bit) eqn:E; cbn [negb]; [|apply IH; [lia| |done]; intros; apply Hb; [lia|done]].
  specialize (Hb bit ltac:(lia) E) as Hsize. destruct (Hw bit) as (W1 & W2 & W3). destruct (leaf0d bit) as [sz off] eqn:El. cbn [fst snd] in *. apply IH.
  - lia.
  - intros k Hk Hkb. rewrite Z.ldiff_spec in Hkb. apply andb_true_iff in Hkb as [Hkb _]. apply Hb; [lia|done].
  - rewrite !wrap_s_small by (lia || (unfold in_s; lia)). lia.
Qed.

(** What the processor guarantees, in addition: the size for the enabled states
    includes the legacy area. *)
Definition processor_ok (leaf : option (Z * Z)) (leaf0d : Z -> Z * Z) (xcr0 : Z) : Prop :=
  match leaf with
  | None => True
  | Some (cpuid_bv, enabled_size) => in_u 64 cpuid_bv /\ cpuid_ok cpuid_bv enabled_size xcr0 leaf0d /\ FXSAVE_SIZE <= enabled_size
  end.

Lemma xsave_size_bounds leaf leaf0d xcr0 bv : processor_ok leaf leaf0d xcr0 -> in_u 64 bv -> Z.ldiff bv xcr0 = 0 ->
  0 <= xsave_size_for_bitvector leaf leaf0d bv <= get_xsave_size leaf leaf0d /\ FXSAVE_SIZE <= get_xsave_size leaf leaf0d /\ get_xsave_size leaf leaf0d < 2 ^ 31.
Proof.
  unfold get_xsave_size. destruct leaf as [[cpuid_bv enabled]|]; [|cbn; unfold FXSAVE_SIZE; lia]. intros (Hc & (Hw & He & Hx & _) & Hf) Hbv Hsub.
  unfold xsave_size_for_bitvector. assert (Z.ldiff cpuid_bv (2 ^ 64 - 1) = 0) as ->.
  { change (2 ^ 64 - 1) with (Z.ones 64). apply Z.ldiff_ones_r_low; [apply Hc|]. destruct (Z.eq_dec cpuid_bv 0) as [->|]; [done|]. apply Z.log2_lt_pow2; [|apply Hc]. destruct Hc; lia. }
  cbn [negb Z.eqb]. rewrite (wrap_s_small 32) by (lia || (unfold in_s; lia)). split; [|lia]. destruct (negb _); [|lia].
  set (b := Z.ldiff bv _). assert (0 <= FXSAVE_SIZE) by done. split.
  - destruct (highest_end_ok leaf0d 62 2 b FXSAVE_SIZE) as [H1 _]; [exact Hw|done|]. lia.
  - apply highest_end_le; [exact Hw|lia| |done]. intros k Hk Hkb. unfold b in Hkb. rewrite Z.ldiff_spec in Hkb. apply andb_true_iff in Hkb as [Hkb _].
    assert (k < 64) as Hk64. { destruct (Z.le_gt_cases 64 k) as [Hge|]; [|done]. rewrite Z.bits_above_log2 in Hkb; [done|apply Hbv|].
      destruct (Z.eq_dec bv 0) as [->|]; [cbn; lia|]. apply Z.lt_le_trans with 64; [|done]. apply Z.log2_lt_pow2; [|apply Hbv]. destruct Hbv; lia. }
    apply (Hx k ltac:(lia)). by eapply ldiff_bit; [|exact Hsub|]; lia || done.
Qed.

(** ** The trip *)

Section Trip.
Context (leaf : option (Z * Z)) (leaf0d : Z -> Z * Z) (xcr0 : Z).

Definition area_size (ctx : ucontext_t) (area : list Z) : Z :=
  if has (uc_flags ctx) UC_FP_XSTATE then xsave_size_for_bitvector leaf leaf0d (field 8 512 area) else FXSAVE_SIZE.

(** What the kernel saves: all registers, and an area whose states are enabled and
    that is complete. *)
Definition context_ok (ctx : ucontext_t) : Prop :=
  length (gregs ctx) = NGREG /\ Forall (in_s 64) (gregs ctx) /\
  forall area, fpregs ctx = Some area -> bytes_ok area /\ area_size ctx area <= len area /\
    (has (uc_flags ctx) UC_FP_XSTATE = true -> 520 <= len area /\ Z.ldiff (field 8 512 area) xcr0 = 0).

(** What is sent of the area. *)
Definition saved_area (ctx : ucontext_t) : list Z :=
  match fpregs ctx with Some area => take (Z.to_nat (area_size ctx area)) area | None => [] end.

Definition greg (ctx : ucontext_t) (i : Z) : Z := default 0 (gregs ctx !! Z.to_nat i).
Definition sent_fixed (pid tid thread_num starting_cpu : Z) (si : siginfo_t) (ctx : ucontext_t) : Fixed :=
  {| pid := pid; handle := tid; crash_address := si_addr si; rip := u64 (greg ctx REG_RIP); f_thread_num := i32 (thread_num + starting_cpu);
     signum := si_signo si; signal_code := si_code si; trap_nr := i32 (greg ctx REG_TRAPNO); error_code := greg ctx REG_ERR |}.

Lemma at_greg ctx i : context_ok ctx -> 0 <= i < 23 -> at_ (gregs ctx) i = Ret (greg ctx i) /\ in_s 64 (greg ctx i).
Proof using Type.
  intros (Hl & Hs & _) Hi. unfold greg. assert (Z.to_nat i < length (gregs ctx))%nat as Hn by (rewrite Hl; unfold NGREG; lia).
  destruct (lookup_lt_is_Some_2 _ _ Hn) as [z Hz]. rewrite Hz. split; [|rewrite Forall_lookup in Hs; by eapply Hs].
  unfold at_. rewrite (proj2 (Z.ltb_ge i 0)) by lia. by rewrite Hz.
Qed.

Lemma area_size_bounds ctx area : processor_ok leaf leaf0d xcr0 -> context_ok ctx -> fpregs ctx = Some area ->
  0 <= area_size ctx area <= get_xsave_size leaf leaf0d /\ area_size ctx area < 2 ^ 31.
Proof using Type.
  intros Hp (_ & _ & Ha) E. destruct (Ha area E) as (Hb & _ & Hx). unfold area_size. destruct (has _ _).
  - destruct (xsave_size_bounds leaf leaf0d xcr0 (field 8 512 area)) as (H1 & _ & H3); [done| |by apply Hx|lia].
    unfold field. destruct Hx as [Hlen _]; [done|]. pose proof (le_value_range (take 8 (drop 512 area)) (bytes_ok_take _ _ (bytes_ok_drop _ _ Hb))) as H.
    unfold len in *. rewrite length_take, length_drop, Nat.min_l in H by lia. exact H.
  - destruct (xsave_size_bounds leaf leaf0d xcr0 0 Hp) as (_ & H2 & _); [done|by rewrite Z.ldiff_0_l|]. unfold FXSAVE_SIZE in *. lia.
Qed.

(** The length that send() computes, and what it reads of the area. *)
Lemma send_datagram action pid tid thread_num starting_cpu si ctx : processor_ok leaf leaf0d xcr0 -> context_ok ctx ->
  send leaf leaf0d action pid tid thread_num starting_cpu si ctx =
    Ret (Fixed_bytes (sent_fixed pid tid thread_num starting_cpu si ctx) ++
         if has action context_on_crash then gregs_bytes (gregs ctx) ++ saved_area ctx else []).
Proof using Type.
  intros Hp Hc. unfold send.
  assert (exists n, match fpregs ctx with None => Ret 0 | Some area => if has (uc_flags ctx) UC_FP_XSTATE then bv ← load 8 512 area; Ret (xsave_size_for_bitvector leaf leaf0d bv) else Ret FXSAVE_SIZE end = Ret n /\
    read_at (Z.to_nat (u64 n)) 0 (default [] (fpregs ctx)) = Ret (saved_area ctx)) as (n & -> & Hread).
  { unfold saved_area. destruct (fpregs ctx) as [area|] eqn:E; [|by exists 0]. pose proof (area_size_bounds ctx area Hp Hc E) as [Hn Hn'].
    destruct Hc as (_ & _ & Ha). destruct (Ha area E) as (Hb & Hlen & Hx). exists (area_size ctx area). split.
    - unfold area_size. destruct (has _ _); [|done]. destruct Hx as [Hx _]; [done|]. unfold load. rewrite read_at_ret by (unfold len in *; lia). done.
    - rewrite wrap_u_small by (unfold in_u; lia). change (default [] (Some area)) with area. rewrite read_at_ret by (unfold len in *; lia). done. }
  cbn [mbind outcome_bind]. destruct (at_greg ctx REG_RIP Hc ltac:(done)) as [-> _],
    (at_greg ctx REG_ERR Hc ltac:(done)) as [-> _], (at_greg ctx REG_TRAPNO Hc ltac:(done)) as [-> _]. cbn [mbind outcome_bind].
  destruct (has action context_on_crash); cbn [negb]; [|by rewrite app_nil_r]. rewrite Hread. done.
Qed.

Lemma recvmsg_three (a g x : list Z) m : (length x <= m)%nat -> recvmsg [length a; length g; m] (Some (a ++ g ++ x)) = (len a + len g + len x, [a; g; x]).
Proof using Type.
  intros H. unfold recvmsg. cbn [scatter]. rewrite take_app_length, drop_app_length, take_app_length, drop_app_length, take_ge by done.
  unfold len. rewrite !length_app. f_equal. simpl. lia.
Qed.
Lemma recvmsg_one (a : list Z) : recvmsg [length a] (Some a) = (len a, [a]).
Proof using Type. unfold recvmsg. cbn [scatter]. rewrite take_ge by done. unfold len. f_equal. simpl. lia. Qed.

Lemma sent_context_received action pid tid thread_num starting_cpu si ctx fixed0 buffer :
  processor_ok leaf leaf0d xcr0 -> context_ok ctx -> in_s 32 pid -> in_s 32 tid -> in_u 64 (si_addr si) -> in_s 32 (si_signo si) -> in_s 32 (si_code si) ->
  len buffer = get_xsave_size leaf leaf0d ->
  exists d, send leaf leaf0d action pid tid thread_num starting_cpu si ctx = Ret d /\
    let c := receive_internal action fixed0 buffer (Some d) in
    fixed c = sent_fixed pid tid thread_num starting_cpu si ctx /\
    if has action context_on_crash then mc c = gregs ctx /\ xsave_buffer c = saved_area ctx /\ contents c = Z.lor FixedContext MachineContext
    else xsave_buffer c = [] /\ contents c = FixedContext.
Proof using Type.
  intros Hp Hc Hpid Htid Haddr Hsig Hcode Hbuf. rewrite (send_datagram action pid tid thread_num starting_cpu si ctx Hp Hc). eexists. split; [done|].
  set (f := sent_fixed _ _ _ _ _ _). assert (Fixed_ok f) as Hf.
  { unfold f. repeat split; try apply Hpid; try apply Htid; try apply Haddr; try apply Hsig; try apply Hcode; cbn [sent_fixed rip f_thread_num trap_nr error_code].
    all: first [apply (wrap_u_range 64)|apply (wrap_s_range 32)|apply (at_greg ctx REG_ERR Hc)]; by vm_compute. }
  unfold receive_internal. destruct (has action context_on_crash).
  - assert (length (saved_area ctx) <= length buffer)%nat as Hfit.
    { unfold saved_area. destruct (fpregs ctx) as [area|] eqn:E; [|simpl; lia]. destruct (area_size_bounds ctx area Hp Hc E). rewrite length_take. unfold len in *. lia. }
    destruct Hc as (Hl & Hs & _). assert (length (gregs_bytes (gregs ctx)) = sizeof_gregs) as Hg by (rewrite length_gregs_bytes, Hl; done).
    rewrite <- (length_Fixed_bytes f), <- Hg, recvmsg_three by done. cbn [lookup list_lookup]. unfold len.
    rewrite !(proj2 (Z.ltb_ge _ 0)) by lia. set (ret := _ - _ - _). assert (Z.to_nat ret = length (saved_area ctx)) as Hret by (unfold ret; lia).
    rewrite Hret. unfold overlay. destruct (ret =? 0); cbn -[take saved_area gregs_of gregs_bytes Fixed_of Fixed_bytes app drop Z.lor]; rewrite Fixed_roundtrip, gregs_roundtrip, take_app_length by done; done.
  - rewrite app_nil_r, <- (length_Fixed_bytes f), recvmsg_one. cbn [lookup list_lookup]. unfold len. rewrite (proj2 (Z.ltb_ge _ 0)) by lia.
    cbn -[Fixed_bytes Fixed_of]. split; [|done]. by apply Fixed_roundtrip.
Qed.

(** C19. The context of a crash arrives as it was: on a processor that follows the
    architecture, for every context that the kernel hands to the handler, the parent
    receives the identity of the thread, the signal and the address and, if contexts
    are asked for, all general registers and the whole saved part of the area: it is
    never longer than the parent's buffer. *)
Theorem crash_context_received action pid tid thread_num starting_cpu si ctx fixed0 buffer :
  processor_ok leaf leaf0d xcr0 -> context_ok ctx -> in_s 32 pid -> in_s 32 tid -> in_u 64 (si_addr si) -> in_s 32 (si_signo si) -> in_s 32 (si_code si) ->
  len buffer = get_xsave_size leaf leaf0d ->
  exists d, send leaf leaf0d action pid tid thread_num starting_cpu si ctx = Ret d /\
    let c := receive_internal action fixed0 buffer (Some d) in
    fixed c = sent_fixed pid tid thread_num starting_cpu si ctx /\
    if has action context_on_crash then mc c = gregs ctx /\ xsave_buffer c = saved_area ctx /\ contents c = Z.lor FixedContext MachineContext
    else xsave_buffer c = [] /\ contents c = FixedContext.
Proof using Type. apply sent_context_received. Qed.
End Trip.

(** A fault of thread 1 of a slice that starts at processor 4. *)
Definition sample_si : siginfo_t := {| si_signo := SIGSEGV; si_code := 1; si_addr := 8 |}.
Definition sample_ctx : ucontext_t := {| uc_flags := 7; gregs := seqZ 100 23; fpregs := Some avx_area |}.

Lemma crash_context_received_witness :
  exists d, send (Some (0x17, 832)) avx_leaf0d backtrace_on_crash 12 13 1 4 sample_si sample_ctx = Ret d /\
    let c := receive_internal backtrace_on_crash (replicate 48 0) (replicate 832 0) (Some d) in
    fixed c = sent_fixed 12 13 1 4 sample_si sample_ctx /\ mc c = seqZ 100 23 /\ xsave_buffer c = avx_area /\ contents c = 3.
Proof.
  apply (crash_context_received (Some (0x17, 832)) avx_leaf0d 7 backtrace_on_crash 12 13 1 4 sample_si sample_ctx); try done.
  - split; [done|]. split; [apply avx_cpuid_ok|done].
  - split; [done|]. split; [by apply (bool_decide_unpack _); vm_compute|]. intros area [= <-]. split; [by apply (bool_decide_unpack _); vm_compute|done].
Defined.
