(* ===== verification/ChildDebug.v ===== *)
(** Crashed and hung children (src/framework/sysdeps/unix/child_debug.cpp): the
    options --on-crash and --on-hang, the socket between the children and the main
    process, the signal handler of a child, which sends the context of the crash and
    waits for the debugger, and the main process, which reports the crashes and
    releases the children.

    The children of all slices and the main process share the threads' data and the
    socket, a queue of datagrams ([CrashSys]). Code that runs in a child sees its own
    block of the main threads first and its own processors from 0 on
    (SandstoneApplication::select_main_thread()): [child_thread] translates. *)

From S2P Require Import Prelude CStdlib Results ThreadData SlicePlan Logging Report ContextDump GdbSession CrashContext.

(** * Options *)

(** enum HangAction, in its order *)
Inductive HangAction := kill_on_hang | print_ps_on_hang | backtrace_on_hang | attach_gdb_on_hang.
#[export] Instance HangAction_eq_dec : EqDecision HangAction.
Proof. solve_decision. Defined.

(** The build's configuration. *)
Record Build := { ChildBacktrace : bool; ChildDebugCrashes : bool; ChildDebugHangs : bool; RestrictedCommandLine : bool; DebugBuild : bool; NDEBUG : bool }.

(** check_gdb_available(): [access] says whether a file can be executed. *)
Definition PATH_DEFPATH : str := L "/usr/bin:/bin".
Definition check_gdb_available (b : Build) (path : option str) (access : str -> bool) : bool :=
  ChildBacktrace b &&
  existsb (fun dir => access (dir ++ L "/gdb")) (strtok ":" (match path with Some ((_ :: _) as p) => p | _ => PATH_DEFPATH end)).

Definition parse_on_hang (b : Build) (arg : str) : option HangAction :=
  if ChildBacktrace b && (str_eqb arg (L "gdb") || str_eqb arg (L "attach-gdb")) then Some attach_gdb_on_hang
  else if ChildBacktrace b && str_eqb arg (L "backtrace") then Some backtrace_on_hang
  else if str_eqb arg (L "ps") then Some print_ps_on_hang
  else if str_eqb arg (L "kill") then Some kill_on_hang
  else None.

Definition parse_on_crash (b : Build) (arg : str) : option Z :=
  if ChildBacktrace b && (str_eqb arg (L "gdb") || str_eqb arg (L "attach-gdb")) then Some attach_gdb_on_crash
  else if str_eqb arg (L "context") then Some context_on_crash
  else if str_eqb arg (L "context+core") || str_eqb arg (L "core+context") then Some (Z.lor coredump_on_crash context_on_crash)
  else if ChildBacktrace b && str_eqb arg (L "backtrace") then Some backtrace_on_crash
  else if str_eqb arg (L "core") || str_eqb arg (L "coredump") then Some coredump_on_crash
  else if ChildBacktrace b && (str_eqb arg (L "backtrace+core") || str_eqb arg (L "core+backtrace")) then Some (Z.lor coredump_on_crash backtrace_on_crash)
  else if str_eqb arg (L "kill") then Some kill_on_crash
  else None.

(** * The socket *)

(** What the system answers: the descriptors of socketpair(), the size getsockopt()
    gives, and whether the two setsockopt() succeed. *)
Record SocketEnv := { socketpair : option (Z * Z); sndbuf : option Z; set_sndbuf : bool; set_rcvbuf : bool }.

Definition sizeof_mc : Z := 256.

(** The size that is asked for. The product is of two ints. *)
Definition crash_pipe_size (xsave_size main_thread_count : Z) : outcome Z :=
  let size := i32 (i32 (xsave_size + (Z.of_nat sizeof_Fixed + sizeof_mc)) + 256) * main_thread_count in
  _ ← assertion (bool_decide (INT_MIN <= size <= INT_MAX));
  Ret (i32 (ROUND_UP_TO 32 32 (u32 size) 1024)).

(** create_crash_pipe(): the parent's and the child's end. *)
Definition create_crash_pipe (env : SocketEnv) (xsave_size main_thread_count : Z) : outcome (option (Z * Z)) :=
  match socketpair env with
  | None => Ret None
  | Some fds =>
      size ← crash_pipe_size xsave_size main_thread_count;
      let size := match sndbuf env with Some rcvbuf => if size <=? rcvbuf then 0 else size | None => size end in
      if negb (size =? 0) && negb (set_sndbuf env && set_rcvbuf env) then Ret None
      else Ret (Some fds)
  end.

(** * Initialisation *)

Record DebugState := {
  on_crash_action : Z; on_hang_action : HangAction; xsave_size : Z;
  server_debug_socket : Z; child_debug_socket : Z; core_limit : Z; dumpable : bool; hard_limit_warning : bool;
}.
#[export] Instance DebugState_eta : Eta DebugState := fun s =>
  Build_DebugState (on_crash_action s) (on_hang_action s) (xsave_size s) (server_debug_socket s) (child_debug_socket s) (core_limit s) (dumpable s) (hard_limit_warning s).

(** The values of the variables at the start; [core] is the process's soft limit. *)
Definition initial_debug (core : Z) : DebugState :=
  {| on_crash_action := context_on_crash; on_hang_action := print_ps_on_hang; xsave_size := 0; server_debug_socket := -1; child_debug_socket := -1;
     core_limit := core; dumpable := true; hard_limit_warning := false |}.

(** The environment: whether gdb is found (asked for at most once), the processor,
    the number of slices, the socket and the hard limit of core files. *)
Record DebugEnv := { gdb_available : bool; cpuid_leaf : option (Z * Z); cpuid_leaf0d : Z -> Z * Z; main_thread_count : Z; sockets : SocketEnv; rlim_max : Z }.

Definition init_on_hang (b : Build) (env : DebugEnv) (arg : option str) (st : DebugState) : outcome DebugState :=
  match arg with
  | Some arg =>
      if ChildDebugHangs b then
        match parse_on_hang b arg with
        | None => Exit EX_USAGE
        | Some action =>
            if ChildBacktrace b && (bool_decide (action = backtrace_on_hang) || bool_decide (action = attach_gdb_on_hang)) && negb (gdb_available env) then Exit EX_USAGE
            else Ret (st <| on_hang_action := action |>)
        end
      else Ret st
  | None => Ret st
  end.

Definition init_on_crash (b : Build) (env : DebugEnv) (arg : option str) (st : DebugState) : outcome DebugState :=
  match (if ChildDebugCrashes b then arg else None) with
  | Some arg =>
      match parse_on_crash b arg with
      | None => Exit EX_USAGE
      | Some action =>
          if ChildBacktrace b && has action attach_gdb_on_crash && negb (gdb_available env) then Exit EX_USAGE
          else Ret (st <| on_crash_action := action |>)
      end
  | None => Ret (if gdb_available env then st <| on_crash_action := backtrace_on_crash |> else st)
  end.

Definition init_socket (env : DebugEnv) (st : DebugState) : outcome DebugState :=
  let both := Z.lor context_on_crash attach_gdb_on_crash in
  if has (on_crash_action st) both then
    let st := st <| xsave_size := get_xsave_size (cpuid_leaf env) (cpuid_leaf0d env) |> in
    pipe ← create_crash_pipe (sockets env) (xsave_size st) (main_thread_count env);
    match pipe with
    | Some (server, child) => Ret (st <| server_debug_socket := server |> <| child_debug_socket := child |>)
    | None => Ret (st <| on_crash_action := Z.ldiff (on_crash_action st) both |>)
    end
  else Ret st.

Definition init_core_limit (env : DebugEnv) (st : DebugState) : DebugState :=
  if has (on_crash_action st) coredump_on_crash then
    if core_limit st <? rlim_max env then st <| core_limit := rlim_max env |>
    else if rlim_max env =? 0 then st <| hard_limit_warning := true |> else st
  else if on_crash_action st =? kill_on_crash then st <| core_limit := 0 |>
  else st.

(** debug_init_global() *)
Definition debug_init_global (b : Build) (env : DebugEnv) (on_hang_arg on_crash_arg : option str) (st : DebugState) : outcome DebugState :=
  let on_hang_arg := if RestrictedCommandLine b then None else on_hang_arg in
  let on_crash_arg := if RestrictedCommandLine b then None else on_crash_arg in
  st ← init_on_hang b env on_hang_arg st;
  st ← init_on_crash b env on_crash_arg st;
  st ← init_socket env st;
  let st := init_core_limit env st in
  Ret (if negb (DebugBuild b) && (on_crash_action st =? kill_on_crash) && bool_decide (on_hang_action st = kill_on_hang) then st <| dumpable := false |> else st).

(** debug_init_child(): the signals that get a handler, and the state. *)
Definition debug_init_child (b : Build) (env : DebugEnv) (child_exec_each_test : bool) (st : DebugState) : list Z * DebugState :=
  if negb (ChildDebugCrashes b) || (server_debug_socket st =? -1) then ([], st)
  else ([SIGILL; SIGTRAP; SIGABRT; SIGFPE; SIGBUS; SIGSEGV],
        if child_exec_each_test then st <| xsave_size := get_xsave_size (cpuid_leaf env) (cpuid_leaf0d env) |> else st).

(** * The child *)

(** The threads' data of all slices, the datagrams in the socket, and the children
    (by slice) in which a thread has entered the crash handler. *)
Record CrashSys := { shm : Shm; queue : list (list Z); in_crash_handler : list nat }.
#[export] Instance CrashSys_eta : Eta CrashSys := fun s => Build_CrashSys (shm s) (queue s) (in_crash_handler s).

(** The thread that a child of a slice means by a number. *)
Definition child_thread (slice : nat) (thread_num : Z) (s : Shm) : outcome Z :=
  m ← of_option (mains s !! slice);
  if thread_num <? 0 then _ ← assertion (thread_num =? -1); Ret (-1 - Z.of_nat slice)
  else Ret (starting_cpu (cpu_range m) + thread_num).

(** test_thread_data(), which is for test threads only *)
Definition child_test_thread (slice : nat) (thread_num : Z) (s : Shm) : outcome Z :=
  _ ← assertion (0 <=? thread_num);
  child_thread slice thread_num s.

(** How the handler ends, or where it stays: the process exits; the thread waits
    until the process is killed; it waits for the main process; it returns with the
    default action restored, after raising the signal again or not. *)
Inductive handled := Exits (status : Z) | Parked | Waiting | Returns (raised : bool).

Definition IgnoredMceCategory : Z := 9.
Definition EXIT_SKIP : Z := -255.

(** terminate_with_ignored_crash() *)
Definition terminate_with_ignored_crash (cfg : LogCfg) (now : Z) (slice : nat) (thread_num : Z) (msg : str) (s : Shm) : outcome (handled * Shm) :=
  main ← child_thread slice (-1) s;
  this ← child_thread slice thread_num s;
  s ← log_message_skip cfg main IgnoredMceCategory msg s;
  s ← log_message cfg now this (L "W> MCE was delivered to or is related to this thread") s;
  test ← child_test_thread slice thread_num s;
  s ← update_thread test (set_thread_state thread_skipped) s;
  Ret (Exits (- EXIT_SKIP), s).

(** A crash: the child's slice, its process, the thread and what the kernel tells;
    [delivered] is whether sendmsg() puts the datagram into the socket. *)
Record Crash := { c_slice : nat; c_pid : Z; c_tid : Z; c_thread : Z; c_si : siginfo_t; c_ctx : ucontext_t; delivered : bool }.

Definition BUS_MCEERR_AR : Z := 4.
Definition BUS_MCEERR_AO : Z := 5.

(** The end of the handler. *)
Definition leave_handler (si : siginfo_t) : handled := Returns (si_code si <? 0).

(** child_crash_handler(), up to where it waits. [action] and [socket] are the
    child's on_crash_action and child_debug_socket. *)
Definition child_crash_handler (b : Build) (env : DebugEnv) (ignore_mce_errors : bool) (cfg : LogCfg) (now action socket : Z) (c : Crash) (sys : CrashSys)
    : outcome (handled * CrashSys) :=
  let si := c_si c in
  if negb (RestrictedCommandLine b) && (si_signo si =? SIGBUS) && ignore_mce_errors && ((si_code si =? BUS_MCEERR_AO) || (si_code si =? BUS_MCEERR_AR)) then
    r ← terminate_with_ignored_crash cfg now (c_slice c) (c_thread c)
          (L "Caught signal SIGBUS for MCE Error (" ++ (if si_code si =? BUS_MCEERR_AO then L "Action Optional" else L "Action Required") ++ L ")") (shm sys);
    Ret (r.1, sys <| shm := r.2 |>)
  else if negb (RestrictedCommandLine b) && negb (NDEBUG b) && (si_signo si =? SIGTRAP) then
    r ← terminate_with_ignored_crash cfg now (c_slice c) (c_thread c) (L "Debugging SIGTRAP") (shm sys);
    Ret (r.1, sys <| shm := r.2 |>)
  else
    this ← child_thread (c_slice c) (c_thread c) (shm sys);
    s ← logging_mark_thread_failed now this (shm sys);
    main ← child_thread (c_slice c) (-1) s;
    s ← update_thread main (set_thread_state thread_failed) s;
    let sys := sys <| shm := s |> in
    if decide (c_slice c ∈ in_crash_handler sys) then Ret (Parked, sys)
    else
      let sys := sys <| in_crash_handler := c_slice c :: in_crash_handler sys |> in
      if socket =? -1 then Ret (leave_handler si, sys)
      else
        m ← of_option (mains s !! c_slice c);
        d ← send (cpuid_leaf env) (cpuid_leaf0d env) action (c_pid c) (c_tid c) (c_thread c) (starting_cpu (cpu_range m)) si (c_ctx c);
        let sys := if delivered c then sys <| queue := queue sys ++ [d] |> else sys in
        Ret (if has action attach_gdb_on_crash then Waiting else leave_handler si, sys).

(** The loop around futex_wait() ends when the state is another one. *)
Definition still_waiting (slice : nat) (s : Shm) : bool :=
  match thread_data (-1 - Z.of_nat slice) s with Ret c => bool_decide (thread_state c = thread_failed) | _ => false end.

(** * The main process *)

(** find_slice_by_pid(): -1 when there is none *)
Fixpoint find_slice_by_pid (child : Z) (children : list Z) (i : Z) : Z :=
  match children with
  | [] => -1
  | c :: children => if c =? child then i else find_slice_by_pid child children (i + 1)
  end.

(** sprintf() of a pid into a buffer of digits10 + 2 characters *)
Definition pid_string (pid : Z) : outcome str :=
  _ ← assertion (length (to_string pid) <? 11)%nat;
  Ret (to_string pid).

Section Parent.
Context (b : Build) (env : DebugEnv) (cfg : LogCfg) (now : Z) (children : list Z).
Context (strsignal : Z -> str) (dladdr rip_symbol : Z -> option (str * Z)) (fmt_La : Z -> Z -> str) (xcr0 : option Z).

(** What is done with one context, and the release of its child. *)
Definition handle_context (st : DebugState) (run : gdb_run) (ctx : CrashContext) (s : Shm) : outcome Shm :=
  let slice := find_slice_by_pid (pid (fixed ctx)) children 0 in
  if slice <? 0 then
    log_message cfg now (-1) (L "Received a context dump from PID " ++ to_string (pid (fixed ctx)) ++ L " that doesn't seem to match any child slice") s
  else
    _ ← pid_string (pid (fixed ctx));
    s ← (if on_crash_action st =? attach_gdb_on_crash then attach_gdb (ChildBacktrace b) s
         else print_crash_info strsignal dladdr cfg now (ChildBacktrace b) (len (tests s)) (on_crash_action st) rip_symbol (cpuid_leaf0d env) fmt_La xcr0
                run slice ctx s);
    _ ← thread_data (-1 - slice) s;
    if on_crash_action st =? context_on_crash then Ret s
    else update_thread (-1 - slice) (set_thread_state thread_debugged) s.

(** The loop over the datagrams; [runs] are the debugger's answers, one for each, and
    [area] and [fixed0] what is in the buffers. *)
Fixpoint receive_contexts (st : DebugState) (fixed0 area : list Z) (runs : nat -> gdb_run) (queue : list (list Z)) (s : Shm) : outcome (list (list Z) * Shm) :=
  match queue with
  | [] => Ret ([], s)
  | d :: queue =>
      let ctx := receive_internal (on_crash_action st) fixed0 area (Some d) in
      if contents ctx =? NoContents then Ret (queue, s)
      else
        s ← handle_context st (runs O) ctx s;
        receive_contexts st fixed0 area (fun i => runs (S i)) queue s
  end.

(** debug_crashed_child() *)
Definition debug_crashed_child (st : DebugState) (fixed0 area : list Z) (runs : nat -> gdb_run) (sys : CrashSys) : outcome CrashSys :=
  if negb (ChildDebugCrashes b) || (server_debug_socket st =? -1) then Ret sys
  else
    r ← receive_contexts st fixed0 area runs (queue sys) (shm sys);
    Ret (sys <| queue := r.1 |> <| shm := r.2 |>).

(** debug_hung_child(): [ps] is what run_process() returns. *)
Definition debug_hung_child (st : DebugState) (child : Z) (ps : str) (run : gdb_run) (s : Shm) : outcome Shm :=
  if negb (ChildDebugHangs b) || bool_decide (on_hang_action st = kill_on_hang) then Ret s
  else
    let slice := find_slice_by_pid child children 0 in
    _ ← assertion (0 <=? slice);
    _ ← pid_string child;
    match on_hang_action st with
    | print_ps_on_hang => match ps with [] => Ret s | msg => log_message_preformatted_level cfg (-1) (LOG_LEVEL_VERBOSE 2) msg s end
    | attach_gdb_on_hang => if ChildBacktrace b then attach_gdb (ChildBacktrace b) s else Ret s
    | backtrace_on_hang => if ChildBacktrace b then generate_backtrace (ChildBacktrace b) cfg now run slice 0 (-1) s else Ret s
    | kill_on_hang => Ret s
    end.
End Parent.
