(* ===== verification/ChildDebugProofs.v ===== *)
(** What the handling of crashes guarantees (ChildDebug): every crash is reported
    and every child that waits for the debugger is released, in whatever order the
    children crash and the main process looks for contexts. *)

From S2P Require Import Prelude CStdlib Bytes Results ThreadData SlicePlan Logging Report ContextDump TestTests GdbSession CrashContext ChildDebug.

(** * What logging leaves as it is *)

(** The same threads, in the same states; a failed thread stays failed. *)
Definition grows (c c' : Common) : Prop := thread_state c' = thread_state c /\ (has_failed c = true -> has_failed c' = true).
Definition same_shape (s s' : Shm) : Prop := length (tests s') = length (tests s) /\ cpu_range <$> mains s' = cpu_range <$> mains s.
Definition kept (s s' : Shm) : Prop :=
  same_shape s s' /\ forall th c, thread_data th s = Ret c -> exists c', thread_data th s' = Ret c' /\ grows c c'.

#[export] Instance grows_preorder : PreOrder grows.
Proof. split; [done|]. intros a c d [H1 H2] [H3 H4]. split; [congruence|auto]. Qed.
#[export] Instance same_shape_preorder : PreOrder same_shape.
Proof. split; [done|]. intros a c d [H1 H2] [H3 H4]. split; congruence. Qed.
#[export] Instance kept_preorder : PreOrder kept.
Proof.
  split; [intros s; split; [done|]; intros th c Hc; by exists c|]. intros s1 s2 s3 [S1 H1] [S2 H2]. split; [by transitivity s2|].
  intros th c Hc. destruct (H1 th c Hc) as (c2 & Hc2 & G1), (H2 th c2 Hc2) as (c3 & Hc3 & G2). exists c3. split; [done|by transitivity c2].
Qed.

Lemma update_shape th f s s' : update_thread th f s = Ret s' -> same_shape s s'.
Proof.
  unfold update_thread. intros H. inv_ret. destruct (th <? 0); (split; cbn [mains tests]; [by rewrite ?length_alter|]); [|done].
  apply list_eq. intros i. rewrite !list_lookup_fmap. destruct (decide (i = Z.to_nat (- th - 1))) as [->|Hne].
  - rewrite list_lookup_alter_eq. by destruct (mains s !! _).
  - by rewrite list_lookup_alter_ne.
Qed.

Lemma update_kept th f s s' : (forall c, grows c (f c)) -> update_thread th f s = Ret s' -> kept s s'.
Proof.
  intros Hf H. split; [by eapply update_shape|]. intros t c Hc. rewrite (thread_data_update _ t _ _ _ H). case_decide as E; [|by exists c].
  subst t. rewrite Hc. eexists. split; [done|apply Hf].
Qed.

Lemma mark_kept now th s s' : logging_mark_thread_failed now th s = Ret s' -> kept s s'.
Proof.
  intros H. assert (exists c, thread_data th s = Ret c) as [c Hc] by (unfold logging_mark_thread_failed in H; destruct (thread_data th s); try done; eauto).
  destruct (mark_failed_data now th s c Hc) as (s2 & H2 & Hd & Ho). assert (s2 = s') as -> by congruence. split.
  - unfold logging_mark_thread_failed in H. rewrite Hc in H. cbn [mbind outcome_bind] in H. destruct (has_failed c); [by injection H as <-|].
    destruct (update_thread th (set_fail_time now) s) as [s1| |] eqn:E; try done. cbn [mbind outcome_bind] in H. injection H as <-.
    apply update_shape in E. transitivity s1; [done|]. case_match; [|done]. split; cbn [tests mains]; [by rewrite length_alter|done].
  - intros t c0 Hc0. destruct (decide (t = th)) as [->|Hne]; [|rewrite Ho by done; by exists c0]. rewrite Hd. eexists. split; [done|].
    assert (c0 = c) as -> by congruence. destruct (has_failed c) eqn:E; split; congruence || done.
Qed.

Lemma grows_append bytes c : grows c (append_log bytes c).
Proof. done. Qed.

Lemma level_kept cfg th level msg s s' : log_message_preformatted_level cfg th level msg s = Ret s' -> kept s s'.
Proof.
  unfold log_message_preformatted_level, log_message_for_thread. intros H. destruct (current_output_format cfg); [by injection H as <-|..]; inv_ret; try done;
    (case_match; inv_ret; [done|]); by (eapply update_kept; [apply grows_append|]).
Qed.

Lemma log_message_kept cfg now th text s s' : log_message cfg now th text s = Ret s' -> kept s s'.
Proof.
  unfold log_message, log_message_preformatted. intros H. destruct (current_output_format cfg); [by injection H as <-|..]; inv_ret;
    (case_match; inv_ret; [done|]); (case_match; inv_ret; [eapply (transitivity (y := _)); [by eapply mark_kept|by eapply level_kept]|by eapply level_kept]).
Qed.

(** * Reporting a crash returns *)

Definition main_of (slice : nat) : Z := -1 - Z.of_nat slice.

Lemma main_data slice s m : mains s !! slice = Some m -> thread_data (main_of slice) s = Ret (m_common m).
Proof.
  intros H. unfold thread_data, main_of. rewrite (proj2 (Z.ltb_lt _ _)) by lia. replace (Z.to_nat (- (-1 - Z.of_nat slice) - 1)) with slice by lia. by rewrite H.
Qed.

Lemma threads_all s : mains s <> [] -> threads_ok (length (tests s)) s.
Proof.
  intros H th Hth. apply thread_data_valid. unfold valid_thread, len. destruct (mains s) as [|m l]; [done|]. simpl. lia.
Qed.

Lemma level_returns cfg th level msg s c : thread_data th s = Ret c -> msg <> [] ->
  exists s', log_message_preformatted_level cfg th level msg s = Ret s' /\ kept s s'.
Proof.
  intros Hc Hm. assert (exists s', log_message_preformatted_level cfg th level msg s = Ret s') as [s' H]; [|exists s'; split; [done|by eapply level_kept]].
  unfold log_message_preformatted_level. destruct (current_output_format cfg); [eauto|..]; rewrite Hc; cbn [mbind outcome_bind]; (case_match; [eauto|]);
    unfold strip_newline; (destruct (last msg) eqn:E; [|by apply last_None in E]); cbn [mbind outcome_bind of_option]; by eapply update_thread_ret.
Qed.

Lemma message_returns cfg now th k text s : mains s <> [] -> -1 <= th < len (tests s) -> letter k ->
  exists s', log_message cfg now th (k :: ">"%char :: " "%char :: text) s = Ret s' /\ kept s s'.
Proof.
  intros Hm Hth Hk. destruct (log_logs cfg now (length (tests s)) th k text Hth Hk s (threads_all s Hm)) as (s' & H & _).
  exists s'. split; [exact H|by eapply log_message_kept].
Qed.

Lemma kept_mains s s' : kept s s' -> mains s <> [] -> mains s' <> [].
Proof. intros [[_ H] _] Hm E. rewrite E in H. by destruct (mains s). Qed.
Lemma kept_tests s s' : kept s s' -> len (tests s') = len (tests s).
Proof. intros [[H _] _]. unfold len. by rewrite H. Qed.

Section Report.
Context (strsignal : Z -> str) (dladdr rip_symbol : Z -> option (str * Z)) (cfg : LogCfg) (now : Z) (leaf0d : Z -> Z * Z) (fmt_La : Z -> Z -> str) (xcr0 : option Z).

Lemma signal_info_returns f s : mains s <> [] -> -1 <= f_thread_num f < len (tests s) ->
  exists p s', print_signal_info strsignal dladdr cfg now f s = Ret (p, s') /\ kept s s'.
Proof using Type.
  intros Hm Hf. unfold print_signal_info. case_match.
  - destruct (message_returns cfg now (f_thread_num f) "W"%char (L "Received signal 6 (Abort) - could be a software error") s Hm Hf) as (s' & H' & K); [by right; left|].
    cbn [L String.list_ascii_of_string] in *. rewrite H'. by exists false, s'.
  - destruct (code_names (signum f)) as [names|]; [|by exists false, s].
    destruct (message_returns cfg now (f_thread_num f) "E"%char (signal_message strsignal dladdr f names) s Hm Hf) as (s' & H' & K); [by left|].
    cbn [L String.list_ascii_of_string app]. rewrite H'. by exists true, s'.
Qed.

(** The conversation with this debugger stays inside the buffer. *)
Definition gdb_safe (run : gdb_run) : Prop := forall handle, exists r,
  communicate_gdb_backtrace (Debug cfg) (clock0 run) (writes run) handle (gdb_events run) (gdb_stream run) (stack_bytes run) = Ret r.

Lemma generate_backtrace_returns run slice handle cpu s m : gdb_safe run -> mains s !! slice = Some m -> -1 <= cpu < len (tests s) ->
  exists s', generate_backtrace true cfg now run (Z.of_nat slice) handle cpu s = Ret s' /\ kept s s'.
Proof using Type.
  intros Hg Hm Hcpu. unfold generate_backtrace. cbn [assertion mbind outcome_bind]. case_match; [by exists s|]. case_match; [by exists s|].
  destruct (Hg handle) as [r ->]. cbn [mbind outcome_bind]. assert (mains s <> []) as Hne by (intros E; by rewrite E in Hm).
  assert (exists s1, match thread_info r.1 with [] => Ret s | (_ :: _) as info => log_message cfg now cpu (L "W> " ++ c_str info) s end = Ret s1 /\ kept s s1) as (s1 & -> & K1).
  { destruct (thread_info r.1) as [|x info]; [by exists s|]. apply message_returns; [done|done|by right; left]. }
  cbn [mbind outcome_bind]. destruct (backtrace r.1) as [|x bt]; [by exists s1|].
  destruct K1 as [S1 K1]. destruct (K1 _ _ (main_data slice s m Hm)) as (c1 & Hc1 & _). replace (- Z.of_nat slice - 1) with (main_of slice) by (unfold main_of; lia).
  destruct (level_returns cfg (main_of slice) (LOG_LEVEL_VERBOSE 2) (x :: bt) s1 c1 Hc1) as (s2 & -> & K2); [done|]. exists s2. split; [done|]. by transitivity s1.
Qed.

(** The registers of a context can be dumped. *)
Definition dumpable_context (ctx : CrashContext) : Prop :=
  has (contents ctx) MachineContext = true -> length (mc ctx) = NGREG /\ returns (dump_xsave leaf0d fmt_La (xsave_buffer ctx) xcr0 (-1)).

Lemma dump_gprs_returns gregs : length gregs = NGREG -> returns (dump_gprs rip_symbol gregs).
Proof using Type. intros H. do 24 (destruct gregs as [|? gregs]; try discriminate H). eexists. reflexivity. Qed.

Lemma crash_info_returns action run slice ctx s m : gdb_safe run -> dumpable_context ctx -> mains s !! slice = Some m ->
  -1 <= f_thread_num (fixed ctx) < len (tests s) ->
  exists s', print_crash_info strsignal dladdr cfg now true (len (tests s)) action rip_symbol leaf0d fmt_La xcr0 run (Z.of_nat slice) ctx s = Ret s' /\ kept s s'.
Proof using Type.
  intros Hg Hd Hm Hf. assert (mains s <> []) as Hne by (intros E; by rewrite E in Hm). unfold print_crash_info.
  match goal with |- context [mbind ?f (if has (contents ctx) FixedContext then ?a else ?b)] =>
    assert (exists cpu handle s1, (if has (contents ctx) FixedContext then a else b) = Ret (cpu, handle, s1) /\ -1 <= cpu < len (tests s) /\ kept s s1)
      as (cpu & handle & s1 & -> & Hcpu & K1) end.
  { case_match; [|exists (-1), 0, s; split; [done|]; split; [lia|done]]. rewrite (proj2 (Z.ltb_ge _ (-1))), (proj2 (Z.ltb_ge (len (tests s)) _)) by lia. cbn [orb].
    match goal with |- context [print_signal_info _ _ _ _ ?f _] => destruct (signal_info_returns f s Hne Hf) as (p & s1 & -> & K1) end.
    cbn [mbind outcome_bind fst snd]. by eexists _, _, s1. }
  cbn [mbind outcome_bind]. rewrite <- (kept_tests _ _ K1) in Hcpu.
  assert (exists m1, mains s1 !! slice = Some m1) as [m1 Hm1].
  { destruct K1 as [[_ K1] _]. apply (f_equal (fun l => l !! slice)) in K1. rewrite !list_lookup_fmap, Hm in K1. destruct (mains s1 !! slice); eauto. done. }
  match goal with |- context [mbind ?f (if ?g then ?a else Ret s1)] => assert (exists s2, (if g then a else Ret s1) = Ret s2 /\ kept s1 s2) as (s2 & -> & K2) end.
  { case_match; [|by exists s1]. by eapply generate_backtrace_returns. }
  cbn [mbind outcome_bind]. assert (kept s s2) as K by by transitivity s1. destruct (negb (handle =? 0) && has (contents ctx) MachineContext) eqn:E; [|by exists s2].
  apply andb_true_iff in E as [_ E]. destruct (Hd E) as [Hl [area ->]]. destruct (dump_gprs_returns (mc ctx) Hl) as [gprs ->]. cbn [mbind outcome_bind].
  destruct (gprs ++ area) as [|x log]; [by exists s2|]. rewrite <- (kept_tests _ _ K2) in Hcpu.
  destruct (threads_all s2 (kept_mains _ _ K Hne) cpu Hcpu) as [c Hc].
  destruct (level_returns cfg cpu (LOG_LEVEL_VERBOSE 2) (L "Registers:" ++ nl ++ x :: log) s2 c Hc) as (s3 & -> & K3); [done|]. exists s3. split; [done|by transitivity s2].
Qed.
End Report.

(** * What arrives can be reported *)

Lemma field_take n off m (bs : list Z) : (off + n <= m)%nat -> field n off (take m bs) = field n off bs.
Proof. intros H. unfold field. f_equal. rewrite skipn_firstn_comm, take_take, Nat.min_l by lia. done. Qed.

Lemma u_at_field area n off h : u_at area n off = Ret h -> h = field n (Z.to_nat off) area /\ (Z.to_nat off + n <= length area)%nat.
Proof.
  unfold u_at, load, read_at, field. intros H. case_match; [done|]. destruct (Nat.leb_spec (Z.to_nat off + n) (length area)); [|done].
  cbn [fmap outcome_fmap] in H. by injection H as <-.
Qed.

Lemma saved_area_dumps leaf leaf0d fmt_La xcr0 ctx : processor_ok leaf leaf0d xcr0 -> context_ok leaf leaf0d xcr0 ctx -> tiles_ok leaf0d (saved_area leaf leaf0d ctx) ->
  returns (dump_xsave leaf0d fmt_La (saved_area leaf leaf0d ctx) (Some xcr0) (-1)).
Proof.
  intros Hp Hc Ht. unfold saved_area in *. destruct (fpregs ctx) as [area|] eqn:E; [|by eexists].
  destruct (area_size_bounds leaf leaf0d xcr0 ctx area Hp Hc E) as [Hn _]. destruct Hc as (_ & _ & Ha). destruct (Ha area E) as (_ & Hlen & _).
  assert (len (take (Z.to_nat (area_size leaf leaf0d ctx area)) area) = area_size leaf leaf0d ctx area) as Hl by (unfold len in *; rewrite length_take; lia).
  destruct leaf as [[cpuid_bv enabled]|]; [destruct (has (uc_flags ctx) UC_FP_XSTATE) eqn:Hx|].
  - destruct Hp as (_ & Hok & _). unfold area_size in *. rewrite Hx in *. apply (transferred_context_dumped cpuid_bv enabled xcr0 leaf0d fmt_La (field 8 512 area)); [done|done| |done].
    intros header Hh. apply u_at_field in Hh as [-> Hin]. change (Z.to_nat FXSAVE_SIZE) with 512%nat in *. rewrite length_take in Hin. rewrite field_take by lia. apply Z.ldiff_diag.
  - apply dump_returns. intros bv Hbig. rewrite Hl in Hbig. unfold area_size in Hbig. rewrite Hx in Hbig. unfold FXSAVE_SIZE in *. lia.
  - apply dump_returns. intros bv Hbig. rewrite Hl in Hbig. unfold area_size in Hbig. destruct (has _ _); cbn in Hbig; unfold FXSAVE_SIZE in *; lia.
Qed.

(** * The text of a process number fits its buffer *)

Lemma digits_length base : 1 < base -> forall n fuel z acc, 0 <= z < base ^ Z.of_nat (S n) -> (length (digits_fuel base fuel z acc) <= S n + length acc)%nat.
Proof.
  intros Hb. induction n as [|n IH]; intros fuel z acc Hz; (destruct fuel as [|fuel]; [simpl; lia|]); cbn [digits_fuel].
  - change (Z.of_nat 1) with 1 in Hz. rewrite Z.pow_1_r in Hz. rewrite Z.div_small by done. simpl. lia.
  - case_match; [simpl; lia|]. etransitivity; [apply IH|simpl; lia]. rewrite (Nat2Z.inj_succ (S n)), Z.pow_succ_r in Hz by lia.
    split; [apply Z.div_pos; lia|apply Z.div_lt_upper_bound; lia].
Qed.

Lemma pid_string_fits pid : 0 <= pid < 2 ^ 31 -> pid_string pid = Ret (to_string pid).
Proof.
  intros H. unfold pid_string, to_string. rewrite (proj2 (Z.ltb_ge pid 0)) by lia. pose proof (digits_length 10 ltac:(lia) 9 128 pid []) as Hd. unfold to_digits.
  rewrite (proj2 (Nat.ltb_lt _ _)); [done|]. change (length []) with 0%nat in Hd. assert (length (digits_fuel 10 128 pid []) <= 10)%nat by (apply Hd; lia). lia.
Qed.

(** * Children that crash and a parent that looks *)

(** The control thread of a slice got a state; nothing else changed but logs and
    failures. *)
Definition moved (slice : nat) (state : ThreadState) (s s' : Shm) : Prop :=
  same_shape s s' /\ (exists x, thread_data (main_of slice) s' = Ret x /\ thread_state x = state) /\
  forall th x, thread_data th s = Ret x -> exists x', thread_data th s' = Ret x' /\ (has_failed x = true -> has_failed x' = true) /\
    (th <> main_of slice -> thread_state x' = thread_state x).

Lemma kept_moved slice state s s1 s2 : kept s s1 -> moved slice state s1 s2 -> moved slice state s s2.
Proof.
  intros [S1 K] (S2 & Hx & H). split; [by transitivity s1|]. split; [done|]. intros th x Hth. destruct (K th x Hth) as (x1 & H1 & Hst & Hf).
  destruct (H th x1 H1) as (x2 & H2 & Hf2 & Hst2). exists x2. split; [done|]. split; [auto|]. intros Hne. rewrite Hst2 by done. done.
Qed.

Lemma set_state_moved slice state s m : mains s !! slice = Some m ->
  exists s', update_thread (main_of slice) (set_thread_state state) s = Ret s' /\ moved slice state s s'.
Proof.
  intros Hm. destruct (update_thread_ret (main_of slice) (set_thread_state state) s _ (main_data slice s m Hm)) as [s' H]. exists s'. split; [done|].
  split; [by eapply update_shape|]. split.
  - eexists. rewrite (thread_data_update _ _ _ _ _ H), decide_True, (main_data slice s m Hm) by done. done.
  - intros th x Hx. rewrite (thread_data_update _ th _ _ _ H). case_decide as E; [|by exists x]. subst th. rewrite Hx. eexists. split; [done|]. split; done.
Qed.

Lemma find_slice children k p i : NoDup children -> children !! k = Some p -> find_slice_by_pid p children i = i + Z.of_nat k.
Proof.
  revert k i. induction children as [|c children IH]; intros k i Hnd Hk; [done|]. apply NoDup_cons in Hnd as [Hni Hnd]. cbn [find_slice_by_pid]. destruct k as [|k].
  - injection Hk as ->. rewrite Z.eqb_refl. lia.
  - simpl in Hk. rewrite (proj2 (Z.eqb_neq c p)); [rewrite (IH k) by done; lia|]. intros ->. apply Hni. by eapply list_elem_of_lookup_2.
Qed.

Lemma shape_main s s' slice m : same_shape s s' -> mains s !! slice = Some m -> exists m', mains s' !! slice = Some m' /\ cpu_range m' = cpu_range m.
Proof.
  intros [_ H] Hm. apply (f_equal (fun l => l !! slice)) in H. rewrite !list_lookup_fmap, Hm in H. destruct (mains s' !! slice) as [m'|]; [|done].
  injection H as H. by exists m'.
Qed.

Section Protocol.
Context (b : Build) (env : DebugEnv) (ignore_mce_errors : bool) (cfg : LogCfg) (now : Z) (children : list Z) (st : DebugState).
Context (strsignal : Z -> str) (dladdr rip_symbol : Z -> option (str * Z)) (fmt_La : Z -> Z -> str) (xcr0 : Z).

Inductive crash_event := ChildCrashes (c : Crash) | ParentLooks (runs : nat -> gdb_run) (fixed0 area : list Z).

(** The handlers so far, and the system. *)
Definition step_event (state : list handled * CrashSys) (e : crash_event) : outcome (list handled * CrashSys) :=
  match e with
  | ChildCrashes c => r ← child_crash_handler b env ignore_mce_errors cfg now (on_crash_action st) (child_debug_socket st) c state.2; Ret (state.1 ++ [r.1], r.2)
  | ParentLooks runs fixed0 area =>
      sys ← debug_crashed_child b env cfg now children strsignal dladdr rip_symbol fmt_La (Some xcr0) st fixed0 area runs state.2; Ret (state.1, sys)
  end.

Definition crashes (events : list crash_event) : list Crash := omap (fun e => match e with ChildCrashes c => Some c | _ => None end) events.

(** A crash as it can happen: in a running child, in one of its threads, with a
    context as the kernel makes it, and not of the kind that is ignored. *)
Definition crash_ok (s : Shm) (c : Crash) : Prop :=
  (exists m, mains s !! c_slice c = Some m /\ 0 <= starting_cpu (cpu_range m) /\ -1 <= c_thread c < cpu_count (cpu_range m) /\
     starting_cpu (cpu_range m) + cpu_count (cpu_range m) <= len (tests s)) /\ len (tests s) < 2 ^ 31 /\
  children !! c_slice c = Some (c_pid c) /\ 0 <= c_pid c < 2 ^ 31 /\ in_s 32 (c_tid c) /\ delivered c = true /\
  si_signo (c_si c) <> SIGTRAP /\ (ignore_mce_errors = false \/ si_signo (c_si c) <> SIGBUS) /\
  in_u 64 (si_addr (c_si c)) /\ in_s 32 (si_signo (c_si c)) /\ in_s 32 (si_code (c_si c)) /\
  context_ok (cpuid_leaf env) (cpuid_leaf0d env) xcr0 (c_ctx c) /\ tiles_ok (cpuid_leaf0d env) (saved_area (cpuid_leaf env) (cpuid_leaf0d env) (c_ctx c)).

Definition event_ok (s : Shm) (e : crash_event) : Prop :=
  match e with
  | ChildCrashes c => crash_ok s c
  | ParentLooks runs _ area => (forall i, gdb_safe cfg (runs i)) /\ len area = get_xsave_size (cpuid_leaf env) (cpuid_leaf0d env)
  end.

(** The main process is set up to debug, and its children wait for it. *)
Definition debugging : Prop :=
  ChildDebugCrashes b = true /\ ChildBacktrace b = true /\ server_debug_socket st <> -1 /\ child_debug_socket st <> -1 /\
  has (on_crash_action st) attach_gdb_on_crash = true.

Context (Hdebug : debugging) (Hproc : processor_ok (cpuid_leaf env) (cpuid_leaf0d env) xcr0) (Hchildren : NoDup children) (Hnow : now < time_max).

Definition start_of (s : Shm) (slice : nat) : Z := default 0 (starting_cpu ∘ cpu_range <$> mains s !! slice).
Definition datagram (s : Shm) (c : Crash) (d : list Z) : Prop :=
  send (cpuid_leaf env) (cpuid_leaf0d env) (on_crash_action st) (c_pid c) (c_tid c) (c_thread c) (start_of s (c_slice c)) (c_si c) (c_ctx c) = Ret d.
(** The thread that crashed, as the main process numbers it. *)
Definition thread_of (s : Shm) (c : Crash) : Z := if c_thread c <? 0 then main_of (c_slice c) else start_of s (c_slice c) + c_thread c.
Definition thread_failed_in (s0 s : Shm) (c : Crash) : Prop := exists x, thread_data (thread_of s0 c) s = Ret x /\ has_failed x = true.

Lemma shape_start s s' slice : same_shape s s' -> start_of s' slice = start_of s slice.
Proof using Type.
  intros [_ H]. unfold start_of. apply (f_equal (fun l => l !! slice)) in H. rewrite !list_lookup_fmap in H. destruct (mains s' !! slice), (mains s !! slice); try done.
  injection H as H. simpl. by rewrite H.
Qed.

Lemma shape_crash s s' c : same_shape s s' -> crash_ok s c -> crash_ok s' c.
Proof using Type.
  intros S ((m & Hm & H1 & H2 & H3) & Hrest). destruct (shape_main _ _ _ _ S Hm) as (m' & Hm' & E). destruct S as [Sl _]. unfold crash_ok, len in *. rewrite Sl.
  split; [|done]. exists m'. by rewrite E.
Qed.

Lemma crash_handled s0 sys c : same_shape s0 (shm sys) -> crash_ok s0 c -> c_slice c ∉ in_crash_handler sys ->
  exists d sys', child_crash_handler b env ignore_mce_errors cfg now (on_crash_action st) (child_debug_socket st) c sys = Ret (Waiting, sys') /\
    datagram s0 c d /\ queue sys' = queue sys ++ [d] /\ in_crash_handler sys' = c_slice c :: in_crash_handler sys /\
    moved (c_slice c) thread_failed (shm sys) (shm sys') /\ thread_failed_in s0 (shm sys') c.
Proof using Hdebug Hproc Hnow.
  intros S Hc Hni. pose proof (shape_crash _ _ _ S Hc) as ((m & Hm & Hs & Ht & Hlen) & _ & _ & _ & _ & Hdel & Htrap & Hbus & _ & _ & _ & Hctx & _).
  destruct Hdebug as (_ & _ & _ & Hsock & Hattach). unfold child_crash_handler.
  replace (negb (RestrictedCommandLine b) && (si_signo (c_si c) =? SIGBUS) && ignore_mce_errors && ((si_code (c_si c) =? BUS_MCEERR_AO) || (si_code (c_si c) =? BUS_MCEERR_AR)))
    with false by (destruct Hbus as [-> | Hb]; [by rewrite andb_false_r|by rewrite (proj2 (Z.eqb_neq _ _) Hb), andb_false_r]).
  rewrite (proj2 (Z.eqb_neq _ _) Htrap), andb_false_r.
  assert (start_of s0 (c_slice c) = starting_cpu (cpu_range m)) as Est by (rewrite <- (shape_start _ _ _ S); unfold start_of; by rewrite Hm).
  assert (child_thread (c_slice c) (c_thread c) (shm sys) = Ret (thread_of s0 c)) as ->.
  { unfold child_thread, thread_of, main_of. rewrite Hm, Est. cbn [of_option mbind outcome_bind]. destruct (Z.ltb_spec (c_thread c) 0); [|done]. by rewrite (proj2 (Z.eqb_eq (c_thread c) (-1))) by lia. }
  cbn [mbind outcome_bind]. assert (exists x, thread_data (thread_of s0 c) (shm sys) = Ret x) as [x Hx].
  { apply thread_data_valid. unfold valid_thread, thread_of, main_of, len in *. apply lookup_lt_Some in Hm. rewrite Est. destruct (Z.ltb_spec (c_thread c) 0); lia. }
  destruct (mark_failed_data now (thread_of s0 c) (shm sys) x Hx) as (s1 & H1 & Hx1 & _). rewrite H1. cbn [mbind outcome_bind]. pose proof (mark_kept _ _ _ _ H1) as K1.
  destruct (shape_main _ _ _ _ (proj1 K1) Hm) as (m1 & Hm1 & E1). 
  assert (child_thread (c_slice c) (-1) s1 = Ret (main_of (c_slice c))) as -> by (unfold child_thread; by rewrite Hm1). cbn [mbind outcome_bind].
  destruct (set_state_moved (c_slice c) thread_failed s1 m1 Hm1) as (s2 & H2 & M2). rewrite H2. cbn [mbind outcome_bind].
  change (in_crash_handler (sys <| shm := s2 |>)) with (in_crash_handler sys). rewrite decide_False by done. rewrite (proj2 (Z.eqb_neq _ _) Hsock).
  destruct (shape_main _ _ _ _ (proj1 M2) Hm1) as (m2 & Hm2 & E2). rewrite Hm2. cbn [of_option mbind outcome_bind]. rewrite E2, E1, <- Est.
  rewrite (send_datagram (cpuid_leaf env) (cpuid_leaf0d env) xcr0 (on_crash_action st) (c_pid c) (c_tid c) (c_thread c) _ (c_si c) (c_ctx c) Hproc Hctx).
  cbn [mbind outcome_bind]. rewrite Hdel, Hattach. eexists _, _. split; [done|]. split; [by apply send_datagram with xcr0|]. split; [done|]. split; [done|].
  pose proof (kept_moved _ _ _ _ _ K1 M2) as M. split; [exact M|]. destruct M2 as (_ & _ & M2). destruct (M2 _ _ Hx1) as (x2 & Hx2 & Hf2 & _). exists x2. split; [exact Hx2|].
  apply Hf2. destruct (has_failed x) eqn:E; [done|]. unfold has_failed. cbn [set_fail_time fail_time]. by apply Z.ltb_lt.
Qed.

Definition released (slice : nat) (s : Shm) : Prop := exists x, thread_data (main_of slice) s = Ret x /\ thread_state x = thread_debugged.

Lemma released_waits slice s : released slice s -> still_waiting slice s = false.
Proof using Type. intros (x & H & E). unfold still_waiting. fold (main_of slice). rewrite H, E. done. Qed.

Lemma moved_released slice k s s' : moved slice thread_debugged s s' -> released k s -> released k s'.
Proof using Type.
  intros (_ & Hx & H) (x & Hk & E). destruct (decide (k = slice)) as [->|Hne]; [done|]. destruct (H _ _ Hk) as (x' & H' & _ & Hst). exists x'. split; [done|].
  rewrite Hst; [done|]. unfold main_of. lia.
Qed.

Lemma moved_failed slice state s0 s s' c : moved slice state s s' -> thread_failed_in s0 s c -> thread_failed_in s0 s' c.
Proof using Type. intros (_ & _ & H) (x & Hx & Hf). destruct (H _ _ Hx) as (x' & Hx' & Hf' & _). exists x'. auto. Qed.

Lemma context_handled s0 s c d run fixed0 area : same_shape s0 s -> crash_ok s0 c -> datagram s0 c d -> gdb_safe cfg run ->
  len area = get_xsave_size (cpuid_leaf env) (cpuid_leaf0d env) ->
  let ctx := receive_internal (on_crash_action st) fixed0 area (Some d) in
  (contents ctx =? NoContents) = false /\
  exists s', handle_context b env cfg now children strsignal dladdr rip_symbol fmt_La (Some xcr0) st run ctx s = Ret s' /\ moved (c_slice c) thread_debugged s s'.
Proof using Hdebug Hproc Hchildren.
  intros S Hc Hd Hg Ha. pose proof (shape_crash _ _ _ S Hc) as ((m & Hm & Hs & Ht & Hlen) & Hmax & Hpid & Hpr & Htid & _ & _ & _ & Haddr & Hsig & Hcode & Hctx & Htiles).
  destruct (sent_context_received (cpuid_leaf env) (cpuid_leaf0d env) xcr0 (on_crash_action st) (c_pid c) (c_tid c) (c_thread c) (start_of s0 (c_slice c)) (c_si c) (c_ctx c)
    fixed0 area Hproc Hctx) as (d' & Hd' & Hr); [unfold in_s; lia|done..|]. assert (d' = d) as -> by (unfold datagram in Hd; congruence). cbv zeta in *.
  set (ctx := receive_internal _ _ _ _) in *. destruct Hr as [Hf Hr]. destruct Hdebug as (_ & Hback & _ & _ & Hattach).
  assert (start_of s0 (c_slice c) = starting_cpu (cpu_range m)) as Est by (rewrite <- (shape_start _ _ _ S); unfold start_of; by rewrite Hm).
  assert (-1 <= f_thread_num (fixed ctx) < len (tests s)) as Hnum.
  { rewrite Hf, Est. cbn [sent_fixed f_thread_num]. rewrite (wrap_s_small 32) by (lia || (unfold in_s; lia)). lia. }
  split; [destruct (has (on_crash_action st) context_on_crash); destruct Hr as [_ Hr]; [destruct Hr as [_ Hr]|]; by rewrite Hr|].
  assert (dumpable_context (cpuid_leaf0d env) fmt_La (Some xcr0) ctx) as Hdump.
  { intros Hmc. destruct (has (on_crash_action st) context_on_crash).
    - destruct Hr as (-> & -> & _). split; [apply Hctx|]. by eapply saved_area_dumps.
    - destruct Hr as [_ Hr]. by rewrite Hr in Hmc. }
  unfold handle_context. assert (pid (fixed ctx) = c_pid c) as -> by by rewrite Hf. rewrite (find_slice children (c_slice c) (c_pid c) 0), Z.add_0_l by done.
  rewrite (proj2 (Z.ltb_ge _ 0)) by lia. rewrite pid_string_fits by done. cbn [mbind outcome_bind]. rewrite Hback.
  match goal with |- context [mbind ?f (if ?g then ?a else ?e)] => assert (exists s1, (if g then a else e) = Ret s1 /\ kept s s1) as (s1 & -> & K1) end.
  { destruct (on_crash_action st =? attach_gdb_on_crash); [by exists s|]. by apply crash_info_returns with m. }
  cbn [mbind outcome_bind]. destruct (shape_main _ _ _ _ (proj1 K1) Hm) as (m1 & Hm1 & _). fold (main_of (c_slice c)). rewrite (main_data _ _ _ Hm1). cbn [mbind outcome_bind].
  rewrite (proj2 (Z.eqb_neq (on_crash_action st) context_on_crash)) by (intros E; by rewrite E in Hattach).
  destruct (set_state_moved (c_slice c) thread_debugged s1 m1 Hm1) as (s2 & H2 & M2). exists s2. split; [done|]. by eapply kept_moved.
Qed.

Lemma queue_handled s0 fixed0 area pending ds : Forall2 (datagram s0) pending ds -> Forall (crash_ok s0) pending ->
  len area = get_xsave_size (cpuid_leaf env) (cpuid_leaf0d env) ->
  forall runs s, (forall i, gdb_safe cfg (runs i)) -> same_shape s0 s ->
  exists s', receive_contexts b env cfg now children strsignal dladdr rip_symbol fmt_La (Some xcr0) st fixed0 area runs ds s = Ret ([], s') /\
    same_shape s0 s' /\ (forall c, c ∈ pending -> released (c_slice c) s') /\ (forall k, released k s -> released k s') /\
    (forall c, thread_failed_in s0 s c -> thread_failed_in s0 s' c).
Proof using Hdebug Hproc Hchildren.
  intros Hq. induction Hq as [|c d pending ds Hd Hq IH]; intros Hok Ha runs s Hg Hs.
  - exists s. split; [done|]. split; [done|]. split; [intros c Hc; by apply not_elem_of_nil in Hc|done].
  - apply Forall_cons in Hok as [Hc Hok]. destruct (context_handled s0 s c d (runs 0%nat) fixed0 area Hs Hc Hd (Hg 0%nat) Ha) as (Hno & s1 & H1 & M1).
    cbn [receive_contexts]. rewrite Hno, H1. cbn [mbind outcome_bind]. destruct (IH Hok Ha (fun i => runs (S i)) s1) as (s2 & H2 & S2 & R2 & K2 & F2).
    { intros i. apply Hg. } { transitivity s; [done|apply M1]. }
    exists s2. split; [done|]. split; [done|]. split; [|split].
    + intros c' Hc'. apply elem_of_cons in Hc' as [->|Hc']; [|by apply R2]. apply K2, M1.
    + intros k Hk. apply K2. by eapply moved_released.
    + intros c' Hc'. apply F2. by eapply moved_failed.
Qed.

(** What holds between the events: a child that crashed and is not released has its
    context in the socket. *)
Definition crash_inv (s0 : Shm) (past : list Crash) (state : list handled * CrashSys) : Prop :=
  let sys := state.2 in
  state.1 = replicate (length past) Waiting /\ same_shape s0 (shm sys) /\ (forall k, k ∈ in_crash_handler sys -> k ∈ c_slice <$> past) /\
  (forall c, c ∈ past -> thread_failed_in s0 (shm sys) c) /\
  exists pending, Forall2 (datagram s0) pending (queue sys) /\ Forall (crash_ok s0) pending /\
    forall c, c ∈ past -> c ∈ pending \/ released (c_slice c) (shm sys).

Lemma inv_crashes s0 past state c : crash_inv s0 past state -> crash_ok s0 c -> c_slice c ∉ c_slice <$> past ->
  exists state', step_event state (ChildCrashes c) = Ret state' /\ crash_inv s0 (past ++ [c]) state'.
Proof using Hdebug Hproc Hnow.
  destruct state as [hs sys]. intros (E & Hs & Hin & Hf & pending & Hq & Hok & Hall) Hc Hni. cbn [fst snd] in *.
  destruct (crash_handled s0 sys c Hs Hc) as (d & sys' & H & Hd & Hqueue & Hhandler & M & Hfc); [by intros Hk; apply Hni, Hin|].
  unfold step_event. cbn [fst snd]. rewrite H. cbn [mbind outcome_bind fst snd]. eexists. split; [done|]. split; [|split; [|split; [|split]]]; cbn [fst snd].
  - rewrite E, length_app. simpl. by rewrite Nat.add_1_r, replicate_S_end.
  - transitivity (shm sys); [done|apply M].
  - intros k Hk. rewrite Hhandler in Hk. rewrite fmap_app. apply elem_of_app. apply elem_of_cons in Hk as [->|Hk]; [right; by apply list_elem_of_singleton|left; by apply Hin].
  - intros c' Hc'. apply elem_of_app in Hc' as [Hc'|Hc']; [|by apply list_elem_of_singleton in Hc' as ->]. eapply moved_failed; [done|by apply Hf].
  - exists (pending ++ [c]). rewrite Hqueue. split; [apply Forall2_app; [done|by repeat constructor]|]. split; [apply Forall_app; split; [done|by apply Forall_singleton]|].
    intros c' Hc'. apply elem_of_app in Hc' as [Hc'|Hc']; [|left; apply elem_of_app; by right]. destruct (Hall c' Hc') as [Hp|(x & Hx & Ex)]; [left; apply elem_of_app; by left|right].
    destruct M as (_ & _ & M). destruct (M _ _ Hx) as (x' & Hx' & _ & Hst). exists x'. split; [done|]. rewrite Hst; [done|].
    intros Em. apply Hni. assert (c_slice c' = c_slice c) as <- by (unfold main_of in Em; lia). by apply list_elem_of_fmap_2.
Qed.

(** Once the main process has looked, all are released. *)
Lemma inv_looks s0 past state runs fixed0 area : crash_inv s0 past state -> event_ok s0 (ParentLooks runs fixed0 area) ->
  exists state', step_event state (ParentLooks runs fixed0 area) = Ret state' /\ crash_inv s0 past state' /\
    queue state'.2 = [] /\ forall c, c ∈ past -> released (c_slice c) (shm state'.2).
Proof using Hdebug Hproc Hchildren.
  destruct state as [hs sys]. intros (E & Hs & Hin & Hf & pending & Hq & Hok & Hall) [Hg Ha]. cbn [fst snd] in *.
  destruct (queue_handled s0 fixed0 area pending (queue sys) Hq Hok Ha runs (shm sys) Hg Hs) as (s' & H & S' & R & K & F).
  unfold step_event, debug_crashed_child. cbn [fst snd]. pose proof Hdebug as (Hb & _ & Hserver & _ & _). rewrite Hb, (proj2 (Z.eqb_neq _ _) Hserver). cbn [negb orb].
  rewrite H. cbn [mbind outcome_bind fst snd]. eexists. split; [done|]. cbn [fst snd].
  assert (forall c, c ∈ past -> released (c_slice c) s') as Hrel by (intros c Hc; destruct (Hall c Hc) as [Hp|Hr]; [by apply R|by apply K]).
  split; [|split; [done|exact Hrel]]. split; [done|]. split; [exact S'|]. split; [exact Hin|]. split; [intros c Hc; apply F; by apply Hf|].
  exists []. split; [constructor|]. split; [constructor|]. intros c Hc. right. by apply Hrel.
Qed.

Lemma inv_events s0 events : forall past state, crash_inv s0 past state -> Forall (event_ok s0) events ->
  NoDup (c_slice <$> past ++ crashes events) ->
  exists state', fold_outcome step_event events state = Ret state' /\ crash_inv s0 (past ++ crashes events) state'.
Proof using Hdebug Hproc Hnow Hchildren.
  induction events as [|e events IH]; intros past state I Hok Hnd.
  - exists state. cbn [crashes omap list_omap]. rewrite app_nil_r. done.
  - apply Forall_cons in Hok as [He Hok]. cbn [fold_outcome]. destruct e as [c|runs fixed0 area].
    + change (crashes (ChildCrashes c :: events)) with ([c] ++ crashes events) in *. destruct (inv_crashes s0 past state c I He) as (state1 & -> & I1).
      { rewrite app_assoc, !fmap_app, <- app_assoc in Hnd. apply NoDup_app in Hnd as (_ & Hnd & _). intros Hin. apply (Hnd _ Hin). apply elem_of_app. left. by apply list_elem_of_singleton. }
      cbn [mbind outcome_bind]. rewrite app_assoc in *. by apply IH.
    + destruct (inv_looks s0 past state runs fixed0 area I He) as (state1 & -> & I1 & _). cbn [mbind outcome_bind]. by apply IH.
Qed.

End Protocol.

(** * Two slices of two processors each *)

Definition demo_build : Build := {| ChildBacktrace := true; ChildDebugCrashes := true; ChildDebugHangs := true; RestrictedCommandLine := false; DebugBuild := true; NDEBUG := false |}.
Definition demo_cfg : LogCfg :=
  {| NoLogging := false; Logging.Debug := true; output_format := yaml; output_yaml_indent := 0; max_messages_per_thread := 5; max_logdata_per_thread := 128;
     log_test_knobs := false; fatal_skips := false |}.
Definition demo_env : DebugEnv :=
  {| gdb_available := true; cpuid_leaf := Some (0x17, 832); cpuid_leaf0d := avx_leaf0d; main_thread_count := 2;
     sockets := {| socketpair := Some (5, 6); sndbuf := Some 212992; set_sndbuf := true; set_rcvbuf := true |}; rlim_max := 0 |}.
Definition demo_slice (start : Z) : Main := {| m_common := idle_common; cpu_range := {| starting_cpu := start; cpu_count := 2 |} |}.
Definition demo_shm : Shm := {| mains := [demo_slice 0; demo_slice 2]; tests := replicate 4 idle_test |}.
Definition demo_crash (slice : nat) (thread : Z) : Crash :=
  {| c_slice := slice; c_pid := 12 + Z.of_nat slice; c_tid := 20; c_thread := thread; c_si := sample_si; c_ctx := sample_ctx; delivered := true |}.
Definition demo_state : DebugState :=
  {| on_crash_action := backtrace_on_crash; on_hang_action := print_ps_on_hang; xsave_size := 832; server_debug_socket := 5; child_debug_socket := 6;
     core_limit := 0; dumpable := true; hard_limit_warning := false |}.
(** A debugger that says nothing. *)
Definition silent : gdb_run :=
  {| pipes_open := true; fork_ret := 30; clock0 := 0; writes := all_written; gdb_events := []; gdb_stream := []; stack_bytes := [] |}.
Definition demo_look : crash_event := ParentLooks (fun _ => silent) (replicate 48 0) (replicate 832 0).
Definition demo_step := step_event demo_build demo_env false demo_cfg 100 [12; 13] demo_state (fun _ => L "signal") (fun _ => None) (fun _ => None) (fun _ _ => []) 7.
Definition demo_start : list handled * CrashSys := ([], {| shm := demo_shm; queue := []; in_crash_handler := [] |}).

Lemma demo_crash_ok slice thread : (slice < 2)%nat -> -1 <= thread < 2 -> crash_ok demo_env false [12; 13] 7 demo_shm (demo_crash slice thread).
Proof.
  intros Hs Ht. assert (context_ok (Some (0x17, 832)) avx_leaf0d 7 sample_ctx) as Hc.
  { split; [done|]. split; [by apply (bool_decide_unpack _); vm_compute|]. intros area [= <-]. split; [by apply (bool_decide_unpack _); vm_compute|done]. }
  destruct slice as [|[|slice]]; [..|lia]; (split; [eexists; split; [done|]; split; [done|]; split; [exact Ht|done]|]); (do 4 (split; [done|])); (split; [done|]);
    (split; [done|]); (split; [by left|]); (do 3 (split; [done|])); (split; [exact Hc|]);
    (assert (saved_area (Some (0x17, 832)) avx_leaf0d sample_ctx = avx_area) as E by by vm_compute); cbn [demo_env cpuid_leaf cpuid_leaf0d demo_crash c_ctx]; rewrite E; apply avx_tiles_ok.
Qed.


(** The number of failed test threads, after some events. *)
Definition failed_tests (events : list crash_event) : outcome (list bool) :=
  state ← fold_outcome demo_step events demo_start; Ret (has_failed ∘ t_common <$> tests (shm state.2)).
Definition waits_after (slice : nat) (events : list crash_event) : outcome (list handled * bool * nat) :=
  state ← fold_outcome demo_step events demo_start; Ret (state.1, still_waiting slice (shm state.2), length (queue state.2)).

(** The control thread of the second slice crashes: its number, -1, is added to the
    first processor of the slice, and the report marks the last test thread of the
    first slice as failed. *)
Example control_thread_blames_neighbour : failed_tests [ChildCrashes (demo_crash 1 (-1)); demo_look] = Ret [false; true; false; false].
Proof. by vm_compute. Qed.

(** A second thread of a child crashes after the release and before the first thread
    has looked at the state: the first one goes on waiting, and no context is left
    that would release it again. *)
Example second_crash_undoes_release :
  waits_after 0 [ChildCrashes (demo_crash 0 0); demo_look; ChildCrashes (demo_crash 0 1)] = Ret ([Waiting; Parked], true, 0%nat) /\
  waits_after 0 [ChildCrashes (demo_crash 0 0); demo_look; ChildCrashes (demo_crash 0 1); demo_look] = Ret ([Waiting; Parked], true, 0%nat).
Proof. by vm_compute. Qed.

(** A context from another process: the message has no letter for its kind. *)
Example unknown_process_asserts :
  step_event demo_build demo_env false demo_cfg 100 [99; 98] demo_state (fun _ => []) (fun _ => None) (fun _ => None) (fun _ _ => []) 7
    ([], {| shm := demo_shm; queue := [Fixed_bytes (sent_fixed 12 20 0 0 sample_si sample_ctx)]; in_crash_handler := [] |}) demo_look = Ub.
Proof. by vm_compute. Qed.

(** A machine check that is to be ignored, in a control thread: there is no test
    thread whose state could be set. *)
Example ignored_mce_in_control_thread slice : (slice < 2)%nat ->
  child_crash_handler demo_build demo_env true demo_cfg 100 backtrace_on_crash 6
    {| c_slice := slice; c_pid := 12; c_tid := 20; c_thread := -1; c_si := {| si_signo := SIGBUS; si_code := BUS_MCEERR_AR; si_addr := 8 |}; c_ctx := sample_ctx; delivered := true |}
    {| shm := demo_shm; queue := []; in_crash_handler := [] |} = Ub.
Proof. intros H. destruct slice as [|[|slice]]; [by vm_compute..|lia]. Qed.

(** A child that was started by exec never runs debug_init_global(): it keeps the
    initial action and does not wait for the debugger that the main process starts. *)
Example exec_child_does_not_wait :
  fst <$> child_crash_handler demo_build demo_env false demo_cfg 100 (on_crash_action (initial_debug 0)) 6 (demo_crash 0 0)
    {| shm := demo_shm; queue := []; in_crash_handler := [] |} = Ret (Returns false).
Proof. by vm_compute. Qed.

(** * Initialisation *)

Lemma has_lor mask x y : has mask y = true -> has mask (Z.lor x y) = true.
Proof. unfold has. intros H. apply negb_true_iff, Z.eqb_neq. rewrite Z.land_lor_distr_r. intros E. apply Z.lor_eq_0_iff in E as [_ E]. by rewrite E in H. Qed.
Lemma has_cleared mask x y : has (Z.ldiff mask (Z.lor x y)) y = false.
Proof.
  unfold has. apply negb_false_iff, Z.eqb_eq, Z.bits_inj'. intros n Hn. rewrite Z.land_spec, Z.ldiff_spec, Z.lor_spec, Z.bits_0.
  destruct (Z.testbit y n); [by rewrite orb_true_r, !andb_false_r|by rewrite andb_false_r].
Qed.

Lemma on_hang_keeps b env arg st st' : init_on_hang b env arg st = Ret st' -> on_crash_action st' = on_crash_action st.
Proof.
  unfold init_on_hang. intros H. destruct arg; [|by injection H as <-]. destruct (ChildDebugHangs b); [|by injection H as <-].
  destruct (parse_on_hang b _); [|done]. case_match; [done|]. by injection H as <-.
Qed.

(** The debugger is asked for only when it is there. *)
Lemma on_crash_needs_gdb b env arg st st' : ChildDebugCrashes b = true -> on_crash_action st = context_on_crash -> init_on_crash b env arg st = Ret st' ->
  has (on_crash_action st') attach_gdb_on_crash = true -> gdb_available env = true.
Proof.
  intros Hb Hst H. unfold init_on_crash in H. rewrite Hb in H. destruct arg as [arg|].
  - destruct (parse_on_crash b arg) as [action|] eqn:Ep; [|done]. destruct (ChildBacktrace b && has action attach_gdb_on_crash && negb (gdb_available env)) eqn:E; [done|].
    injection H as <-. intros Ha. change (has action attach_gdb_on_crash = true) in Ha. rewrite Ha, andb_true_r in E. destruct (gdb_available env); [done|].
    rewrite andb_true_r in E. unfold parse_on_crash in Ep. rewrite E in Ep. cbn [andb] in Ep. repeat (case_match; [injection Ep as <-; by vm_compute in Ha|]). done.
  - injection H as <-. destruct (gdb_available env); [done|]. by rewrite Hst.
Qed.

Lemma socket_there env st st' : (forall fds, socketpair (sockets env) = Some fds -> fds.1 <> -1 /\ fds.2 <> -1) -> init_socket env st = Ret st' ->
  has (on_crash_action st') attach_gdb_on_crash = true ->
  has (on_crash_action st) attach_gdb_on_crash = true /\ server_debug_socket st' <> -1 /\ child_debug_socket st' <> -1.
Proof.
  intros Hfds H Ha. unfold init_socket in H. destruct (has (on_crash_action st) (Z.lor context_on_crash attach_gdb_on_crash)) eqn:E.
  - apply outcome_bind_ret in H as ([[server child]|] & Hp & H); injection H as <-.
    + unfold create_crash_pipe in Hp. destruct (socketpair (sockets env)) as [fds|] eqn:Ef; [|done]. apply outcome_bind_ret in Hp as (size & _ & Hp).
      destruct (_ && _) in Hp; [done|]. injection Hp as ->. split; [exact Ha|]. exact (Hfds _ eq_refl).
    + change (has (Z.ldiff (on_crash_action st) (Z.lor context_on_crash attach_gdb_on_crash)) attach_gdb_on_crash = true) in Ha. by rewrite has_cleared in Ha.
  - injection H as <-. by rewrite has_lor in E.
Qed.

Lemma limits_keep env st : let st' := init_core_limit env st in
  on_crash_action st' = on_crash_action st /\ server_debug_socket st' = server_debug_socket st /\ child_debug_socket st' = child_debug_socket st.
Proof. unfold init_core_limit. cbv zeta. repeat case_match; done. Qed.

(** When children are to wait for the debugger, there is a debugger and a socket. *)
Lemma init_gives_debugging b env hang crash core st : ChildDebugCrashes b = true -> (gdb_available env = true -> ChildBacktrace b = true) ->
  (forall fds, socketpair (sockets env) = Some fds -> fds.1 <> -1 /\ fds.2 <> -1) ->
  debug_init_global b env hang crash (initial_debug core) = Ret st -> has (on_crash_action st) attach_gdb_on_crash = true ->
  debugging b st /\ gdb_available env = true.
Proof.
  intros Hb Hgdb Hfds H Ha. unfold debug_init_global in H.
  apply outcome_bind_ret in H as (st1 & H1 & H). apply outcome_bind_ret in H as (st2 & H2 & H). apply outcome_bind_ret in H as (st3 & H3 & H). injection H as H.
  destruct (limits_keep env st3) as (E1 & E2 & E3). assert (on_crash_action st = on_crash_action st3 /\ server_debug_socket st = server_debug_socket st3 /\
    child_debug_socket st = child_debug_socket st3) as (F1 & F2 & F3) by (rewrite <- H; case_match; done).
  unfold debugging. rewrite F1 in *. rewrite F2, F3. destruct (socket_there env st2 st3 Hfds H3 Ha) as (Ha2 & Hs & Hc). apply on_hang_keeps in H1.
  assert (gdb_available env = true) as Hg by (by eapply on_crash_needs_gdb). auto 10.
Qed.

(** ** The size of the socket's buffers *)

(** The buffer that is asked for holds the contexts of all slices at once. *)
Lemma crash_pipe_room xsave_size slices size : 0 <= xsave_size -> 0 <= slices -> (xsave_size + 560) * slices + 1024 <= 2 ^ 31 -> xsave_size + 560 < 2 ^ 31 ->
  crash_pipe_size xsave_size slices = Ret size ->
  slices * (Z.of_nat sizeof_Fixed + Z.of_nat sizeof_gregs + xsave_size) <= size < 2 ^ 31.
Proof.
  intros Hx Hs Hmax Hmax' H. unfold crash_pipe_size in H. change (Z.of_nat sizeof_Fixed + sizeof_mc) with 304 in H.
  rewrite (wrap_s_small 32 ltac:(lia) (xsave_size + 304)), (wrap_s_small 32 ltac:(lia) (xsave_size + 304 + 256)) in H by (unfold in_s; lia). apply outcome_bind_ret in H as ([] & _ & H). injection H as <-.
  replace (xsave_size + 304 + 256) with (xsave_size + 560) by lia. rewrite (wrap_u_small 32) by (unfold in_u; nia).
  destruct (round_up 32 32 10 ((xsave_size + 560) * slices)) as [[H1 H2] _]; [lia|lia|nia|lia|]. change (2 ^ 10) with 1024 in *. rewrite (wrap_s_small 32) by (lia || (unfold in_s; nia)). unfold sizeof_Fixed, sizeof_gregs. nia.
Qed.
