(* ===== verification/OsLayer.v ===== *)
(** What the program asks of the system: the stacks of the test threads
    (src/framework/sandstone_thread.cpp), the size of the main stack, the number of
    descriptors, temporary files and the detection of split locks
    (sysdeps/unix/stacksize.cpp, resource.cpp, tmpfile.c, splitlock_detect.c), the
    functions that replace malloc() (sysdeps/linux/malloc.cpp), and catching signals
    (sysdeps/unix/signals.cpp). *)

From S2P Require Import Prelude CStdlib Chrono SlicePlan Frequency.

Definition THREAD_STACK_SIZE : Z := 8192 * 1024.

(** * Stacks *)

Module Stacks.

Definition GuardSize : Z := 8192.

(** A range of addresses. *)
Record area := { from : Z; size : Z }.
Definition in_area (a : area) (x : Z) : Prop := from a <= x < from a + size a.

(** allocate_stack_block(): the ranges that are made accessible and the pointer that
    is returned; [map] is what mmap() returns, if it works. *)
Fixpoint carve (n : nat) (ptr : Z) : list area * Z :=
  match n with
  | O => ([], ptr)
  | S n =>
      let ptr := ptr + GuardSize in
      let a := {| from := ptr; size := THREAD_STACK_SIZE |} in
      let '(l, ptr) := carve n (ptr + THREAD_STACK_SIZE) in (a :: l, ptr)
  end.

Definition block_size (num_cpus : nat) : Z := Z.of_nat num_cpus * (THREAD_STACK_SIZE + GuardSize).

Definition allocate_stack_block (num_cpus : nat) (map : option Z) : list area * option Z :=
  match map with
  | None => ([], None)
  | Some ptr => let '(l, ptr) := carve num_cpus ptr in (l, Some ptr)
  end.

(** update_with_stack_for(): the stack that is set for the thread, if any *)
Definition update_with_stack_for (stacks_block : option Z) (cpu : nat) : option area :=
  match stacks_block with
  | None => None
  | Some block =>
      let stacktop := block - (THREAD_STACK_SIZE + GuardSize) * Z.of_nat cpu in
      Some {| from := stacktop - THREAD_STACK_SIZE; size := THREAD_STACK_SIZE |}
  end.

Definition slot (base : Z) (i : nat) : area :=
  {| from := base + (THREAD_STACK_SIZE + GuardSize) * Z.of_nat i + GuardSize; size := THREAD_STACK_SIZE |}.

Lemma carve_spec n : forall base, carve n base = (slot base <$> seq 0 n, base + block_size n).
Proof.
  induction n as [|n IH]; intros base; [unfold block_size; simpl; f_equal; lia|]. cbn [carve]. rewrite IH. cbn [seq fmap list_fmap]. f_equal; [f_equal|].
  - unfold slot. f_equal. lia.
  - rewrite <- fmap_S_seq, <- list_fmap_compose. apply list_fmap_ext. intros i k _. unfold compose, slot. f_equal. unfold THREAD_STACK_SIZE, GuardSize. lia.
  - unfold block_size, THREAD_STACK_SIZE, GuardSize. lia.
Qed.

(** The stacks of the test threads: when memory was found, the stack of every thread
    is one of the accessible ranges and lies in the block; two threads share no byte
    of their stacks, and below every stack are 8192 bytes that belong to no stack. *)
Theorem stacks_are_separate num_cpus base cpu : (cpu < num_cpus)%nat ->
  let '(accessible, block) := allocate_stack_block num_cpus (Some base) in
  exists stack, update_with_stack_for block cpu = Some stack /\ stack ∈ accessible /\ size stack = THREAD_STACK_SIZE /\
    base + GuardSize <= from stack /\ from stack + size stack <= base + block_size num_cpus /\
    (forall other stack', (other < num_cpus)%nat -> other <> cpu -> update_with_stack_for block other = Some stack' ->
       forall x, in_area stack x -> ~ in_area stack' x) /\
    (forall x, from stack - GuardSize <= x < from stack -> Forall (fun a => ~ in_area a x) accessible).
Proof.
  intros Hcpu. unfold allocate_stack_block. rewrite carve_spec. cbn [update_with_stack_for]. exists (slot base (num_cpus - 1 - cpu)).
  assert (Z.of_nat (num_cpus - 1 - cpu) = Z.of_nat num_cpus - 1 - Z.of_nat cpu) as E by lia.
  split; [f_equal; unfold slot; f_equal; rewrite E; unfold block_size, THREAD_STACK_SIZE, GuardSize; lia|].
  split; [apply list_elem_of_fmap; exists (num_cpus - 1 - cpu)%nat; split; [done|]; apply elem_of_seq; lia|]. split; [done|].
  unfold in_area. cbn [slot from size]. rewrite E. split; [unfold THREAD_STACK_SIZE, GuardSize; lia|]. split; [unfold block_size, THREAD_STACK_SIZE, GuardSize; lia|]. split.
  - intros other stack' Ho Hne [= <-] x. unfold block_size, THREAD_STACK_SIZE, GuardSize. cbn [from size]. lia.
  - intros x Hx. apply Forall_fmap, Forall_forall. intros i Hi. unfold compose, slot. cbn [from size].
    destruct (Z.lt_trichotomy (Z.of_nat i) (Z.of_nat num_cpus - 1 - Z.of_nat cpu)) as [H|[H|H]]; unfold THREAD_STACK_SIZE, GuardSize in *; nia.
Qed.

Lemma stacks_are_separate_witness : let '(accessible, block) := allocate_stack_block 4 (Some 65536) in
  exists stack, update_with_stack_for block 0 = Some stack /\ stack ∈ accessible.
Proof. destruct (stacks_are_separate 4 65536 0 ltac:(lia)) as (stack & H1 & H2 & _). by exists stack. Defined.
End Stacks.

(** * The main stack *)

Module StackSize.

(** What the system says: the size of the stack according to getcontext(), the
    variable STACK_SIZE_UPDATED, the limits, and whether setrlimit() and exec work. *)
Record env := {
  ss_size : option Z; updated : option str; pid : Z; limits : option (Z * Z); setrlimit_ok : bool; exec_ok : bool;
}.

(** How the function ends: quietly, with a warning, or with a new image of the
    program, for which the variable is set and the limits are changed. *)
Inductive result := Quiet | Warned | Executed (variable : str) (rlim : Z * Z).

Definition atoi (s : str) : Z := i32 (strtoll 10 s).1.1.

Definition setup_stack_size (e : env) : result :=
  let good := match ss_size e with Some n => THREAD_STACK_SIZE <=? n | None => false end in
  if good then Quiet
  else
    let size := default 0 (ss_size e) in
    let recursed := match updated e with Some ((_ :: _) as v) => atoi v =? pid e | _ => false end in
    match limits e with
    | None => Warned
    | Some (cur, max) =>
        if THREAD_STACK_SIZE <=? cur then if size =? 0 then Quiet else Warned
        else if recursed then Warned
        else
          let rlim := (THREAD_STACK_SIZE, if max <? THREAD_STACK_SIZE then THREAD_STACK_SIZE else max) in
          if negb (setrlimit_ok e) then Warned
          else if exec_ok e then Executed (to_string (pid e)) rlim
          else Warned
    end.

(** The program replaces itself at most once: the new image, which has the same
    process number and the variable that was set, does not do it again, even if the
    system did not keep the limits. *)
Theorem stack_setup_ends e variable rlim e' : 0 <= pid e < 2 ^ 31 -> setup_stack_size e = Executed variable rlim ->
  pid e' = pid e -> updated e' = Some variable -> setup_stack_size e' = Quiet \/ setup_stack_size e' = Warned.
Proof.
  intros Hp H Hpid Hup. assert (variable = to_string (pid e)) as ->.
  { unfold setup_stack_size in H. destruct (match ss_size e with Some n => THREAD_STACK_SIZE <=? n | None => false end); [done|]. destruct (limits e) as [[cur max]|]; [|done].
    destruct (THREAD_STACK_SIZE <=? cur); [by destruct (_ =? 0)|]. destruct (match updated e with Some ((_ :: _) as v) => atoi v =? pid e | _ => false end); [done|].
    destruct (setrlimit_ok e), (exec_ok e); by simplify_eq/=. }
  unfold setup_stack_size. case_match; [by left|]. rewrite Hup. assert (atoi (to_string (pid e)) = pid e') as Ha.
  { unfold atoi. pose proof (strtoll_to_string (pid e) []) as Hs. rewrite app_nil_r in Hs. rewrite Hs by (done || (unfold LLONG_MAX; lia)). cbn [fst].
    rewrite Hpid. apply (wrap_s_small 32); unfold in_s; lia. }
  assert (to_string (pid e) <> []) as Hne by (unfold to_string; rewrite (proj2 (Z.ltb_ge _ 0)) by lia; apply to_digits_shape; lia).
  destruct (to_string (pid e)) as [|c v]; [done|]. rewrite Ha, Z.eqb_refl.
  destruct (limits e') as [[cur max]|]; [|by right]. repeat case_match; auto.
Qed.
End StackSize.

Lemma stack_setup_ends_witness :
  let e := {| StackSize.ss_size := None; StackSize.updated := None; StackSize.pid := 4242; StackSize.limits := Some (1024, 2048);
              StackSize.setrlimit_ok := true; StackSize.exec_ok := true |} in
  let e' := {| StackSize.ss_size := None; StackSize.updated := Some (L "4242"); StackSize.pid := 4242; StackSize.limits := Some (1024, 2048);
               StackSize.setrlimit_ok := true; StackSize.exec_ok := true |} in
  StackSize.setup_stack_size e' = StackSize.Quiet \/ StackSize.setup_stack_size e' = StackSize.Warned.
Proof.
  intros e e'. apply (StackSize.stack_setup_ends e (L "4242") (THREAD_STACK_SIZE, THREAD_STACK_SIZE) e'); [cbn; lia|by vm_compute|done|done].
Defined.

(** * Descriptors *)

Module Resource.

Definition FileDescriptorOverhead : Z := 64.
Definition FileDescriptorsPerThread : Z := 4.
Definition EPERM : Z := 1.

(** The product and the sum are ints; the constant 256 is an int, whose complement is
    extended with its sign. *)
Definition desired_fd_count (num_cpus : Z) : Z :=
  ROUND_UP_TO 64 64 (u64 (num_cpus * FileDescriptorsPerThread + FileDescriptorOverhead)) 256.

(** resource_init_global(): the limits afterwards. [oldlimit] is what getrlimit()
    gives, [error] the errno of a setrlimit() that fails. *)
Definition resource_init_global (num_cpus : Z) (oldlimit : option (Z * Z)) (error : option Z) : outcome (Z * Z) :=
  match oldlimit with
  | None => Exit EX_OSERR
  | Some (cur, max) =>
      let desired := desired_fd_count num_cpus in
      if cur <? desired then
        match error with
        | Some e => Exit (if e =? EPERM then EXIT_NOPERMISSION else EX_OSERR)
        | None => Ret (desired, Z.max desired max)
        end
      else Ret (cur, max)
  end.

(** When the program goes on there are descriptors for all threads, and no limit was
    lowered. *)
Lemma enough_descriptors num_cpus oldlimit error cur max : 0 <= num_cpus < 2 ^ 28 -> resource_init_global num_cpus oldlimit error = Ret (cur, max) ->
  num_cpus * FileDescriptorsPerThread + FileDescriptorOverhead <= cur /\ exists cur0 max0, oldlimit = Some (cur0, max0) /\ cur0 <= cur /\ max0 <= max.
Proof.
  intros Hn H. unfold resource_init_global in H. destruct oldlimit as [[cur0 max0]|]; [|done].
  assert (num_cpus * FileDescriptorsPerThread + FileDescriptorOverhead <= desired_fd_count num_cpus) as Hd.
  { unfold desired_fd_count, FileDescriptorsPerThread, FileDescriptorOverhead. rewrite wrap_u_small by (unfold in_u; lia).
    destruct (round_up 64 64 8 (num_cpus * 4 + 64)) as [[H1 _] _]; [lia..|]. exact H1. }
  destruct (Z.ltb_spec cur0 (desired_fd_count num_cpus)); [destruct error; [done|]|]; injection H as <- <-; (split; [lia|]); exists cur0, max0; split; [done|lia|done|lia].
Qed.
End Resource.

(** * Temporary files *)

Module Tmpfile.

(** The system: memfd_create(), the two directories of the environment, and what
    open() returns for a directory with O_TMPFILE and for a regular file. *)
Record tmp_env := { memfd : Z; XDG_RUNTIME_DIR : option str; TMPDIR : option str; open_tmpfile : str -> Z; open_regular : str -> Z }.

(** try_open_tmpfile() and try_open_regular_tmpfile(), with the list of descriptors
    that are open *)
Definition try_open (opener : str -> Z) (dir : option str) (opened : list Z) : Z * list Z :=
  match dir with
  | None => (-1, opened)
  | Some d => let fd := opener d in (fd, if fd <? 0 then opened else opened ++ [fd])
  end.

Definition attempt (opener : str -> Z) (candidate : option str) (st : option str * Z * list Z) : option str * Z * list Z :=
  let '(dir, fd, opened) := st in
  if fd =? -1 then let '(fd, opened) := try_open opener candidate opened in (candidate, fd, opened) else st.

(** One round of the loop. *)
Definition round (e : tmp_env) (opener : str -> Z) (dir : option str) (fd : Z) (opened : list Z) : option str * Z * list Z :=
  let st := match dir with
            | None => let '(fd, opened) := try_open opener (XDG_RUNTIME_DIR e) opened in (XDG_RUNTIME_DIR e, fd, opened)
            | Some _ => (dir, fd, opened)
            end in
  let st := attempt opener (TMPDIR e) st in
  let st := attempt opener (Some (L "/tmp")) st in
  attempt opener (Some (L "/var/tmp")) st.

(** open_memfd(): the descriptor, the value for s_dir and the descriptors that are
    open; [None] is an abort. *)
Definition open_memfd (e : tmp_env) (s_dir : option str) : option (Z * option str * list Z) :=
  if 0 <=? memfd e then Some (memfd e, s_dir, [memfd e])
  else
    let '(_, fd, opened) := round e (open_tmpfile e) s_dir (memfd e) [] in
    let '(dir, fd, opened) := round e (open_regular e) None fd opened in
    if fd =? -1 then None else Some (fd, dir, opened).

(** Without memfd_create(), a file that was opened with O_TMPFILE is never the result:
    the second round opens a regular file as well and forgets the first one. *)
Example tmpfile_leaks :
  let e := {| memfd := -1; XDG_RUNTIME_DIR := None; TMPDIR := None; open_tmpfile := fun _ => 7; open_regular := fun _ => 8 |} in
  open_memfd e None = Some (8, Some (L "/tmp"), [7; 8]).
Proof. done. Qed.

(** A descriptor that was found is open. *)
Definition fd_ok (st : option str * Z * list Z) : Prop := let '(_, fd, opened) := st in fd = -1 \/ fd ∈ opened.

Lemma try_open_ok opener dir c opened : (forall d, -1 <= opener d) -> fd_ok (let '(fd, opened) := try_open opener c opened in (dir, fd, opened)).
Proof.
  intros Ho. destruct c as [d|]; cbn [try_open fd_ok]; [|by left]. specialize (Ho d). destruct (Z.ltb_spec (opener d) 0); [left; lia|right].
  apply elem_of_app. right. by apply list_elem_of_singleton.
Qed.

Lemma attempt_ok opener c st : (forall d, -1 <= opener d) -> fd_ok st -> fd_ok (attempt opener c st).
Proof.
  intros Ho H. destruct st as [[dir fd] opened]. unfold attempt. destruct (fd =? -1); [|done].
  pose proof (try_open_ok opener c c opened Ho) as Ht. by destruct (try_open opener c opened).
Qed.

(** What is returned is an open descriptor. *)
Lemma open_memfd_opens e s_dir fd dir opened : (forall d, -1 <= open_regular e d) -> open_memfd e s_dir = Some (fd, dir, opened) -> fd ∈ opened.
Proof.
  intros Ho H. unfold open_memfd in H. destruct (0 <=? memfd e); [injection H as <- <- <-; by apply list_elem_of_singleton|].
  destruct (round e (open_tmpfile e) s_dir (memfd e) []) as [[dir1 fd1] opened1].
  assert (fd_ok (round e (open_regular e) None fd1 opened1)) as Hr by (unfold round; do 3 (apply attempt_ok; [done|]); by apply try_open_ok).
  destruct (round e (open_regular e) None fd1 opened1) as [[dir2 fd2] opened2]. destruct (Z.eqb_spec fd2 (-1)); [done|]. injection H as <- <- <-. by destruct Hr.
Qed.
End Tmpfile.

(** * Split locks *)

Module Splitlock.

(** What vfork() and waitpid() give: the exit status of the child, or [None] inside
    when it was killed. *)
Inductive probe := ForkFails | Ended (status : option Z).

(** splitlock_enforcement_enabled(): the result and the cached one *)
Definition splitlock_enforcement_enabled (p : probe) (cached_result : Z) : bool * Z :=
  if negb (cached_result =? 0) then (0 <? cached_result, cached_result)
  else match p with
  | ForkFails => (false, 0)
  | Ended status => let enforced := match status with Some s => negb (s =? 0) | None => true end in (enforced, if enforced then 1 else -1)
  end.

(** Once known, the answer does not change. *)
Lemma answer_is_kept p p' cached : (splitlock_enforcement_enabled p cached).2 <> 0 ->
  (splitlock_enforcement_enabled p' (splitlock_enforcement_enabled p cached).2).1 = (splitlock_enforcement_enabled p cached).1.
Proof.
  unfold splitlock_enforcement_enabled. destruct (Z.eqb_spec cached 0) as [->|Hne]; cbn [negb].
  - destruct p as [|status]; [done|]. cbn [fst snd]. intros _. by destruct (match status with Some s => negb (s =? 0) | None => true end).
  - cbn [fst snd]. by rewrite (proj2 (Z.eqb_neq _ _) Hne).
Qed.
End Splitlock.

(** * Memory *)

Module Malloc.

(** What an allocation gives: a block, of which all usable bytes are listed, or the
    end of the process by a signal. *)
Inductive allocation := Block (bytes : list Z) | Died (signal : Z).
Definition SIGKILL : Z := 9.
Definition SIGABRT : Z := 6.

(** null_pointer_consumption() *)
Definition null_pointer_consumption (size : Z) : allocation := Died (if size <? 256 * 1024 * 1024 then SIGKILL else SIGABRT).

(** [block] is what the C library returns. *)
Definition checked_allocation (size : Z) (block : option (list Z)) : allocation :=
  match block with
  | None => null_pointer_consumption size
  | Some b => Block (replicate (length b) 0)
  end.

Section Malloc.
(** The allocator of the C library. *)
Context (libc_malloc libc_valloc : Z -> option (list Z)) (libc_memalign libc_calloc : Z -> Z -> option (list Z)) (libc_realloc : list Z -> Z -> option (list Z)).

Definition malloc (size : Z) : allocation := checked_allocation size (libc_malloc size).
Definition valloc (size : Z) : allocation := checked_allocation size (libc_valloc size).
Definition memalign (alignment size : Z) : allocation := checked_allocation size (libc_memalign alignment size).
Definition aligned_alloc (alignment size : Z) : allocation := checked_allocation size (libc_memalign alignment size).
Definition pvalloc (bytes : Z) : allocation := valloc (ROUND_UP_TO_PAGE 64 bytes).
(** The block and what is returned. *)
Definition posix_memalign (alignment size : Z) : allocation * Z := (aligned_alloc alignment size, 0).
Definition calloc (n size : Z) : allocation :=
  match libc_calloc n size with
  | None => null_pointer_consumption (u64 (n * size))
  | Some b => Block b
  end.
(** [ptr] is the block that is given back, with all its usable bytes; none for a null
    pointer. *)
Definition realloc (ptr : list Z) (size : Z) : allocation :=
  match libc_realloc ptr size with
  | None => null_pointer_consumption size
  | Some b => Block (if (length ptr <? length b)%nat then take (length ptr) b ++ replicate (length b - length ptr) 0 else b)
  end.

Definition zeroed (a : allocation) : Prop := match a with Block b => Forall (fun x => x = 0) b | Died _ => True end.

(** New memory is zero, whichever function it comes from. *)
Theorem new_memory_is_zero : (forall n size b, libc_calloc n size = Some b -> Forall (fun x => x = 0) b) ->
  forall n size, zeroed (malloc size) /\ zeroed (valloc size) /\ zeroed (pvalloc size) /\ zeroed (memalign n size) /\ zeroed (aligned_alloc n size) /\
    zeroed (posix_memalign n size).1 /\ zeroed (calloc n size) /\ zeroed (realloc [] size).
Proof using Type.
  intros Hc n size. assert (forall z b, zeroed (checked_allocation z b)) as H by (intros z [b|]; cbn; [by apply Forall_replicate|done]).
  repeat (split; [apply H|]). split; [unfold calloc; destruct (libc_calloc n size) eqn:E; [by apply (Hc n size)|done]|].
  unfold realloc. destruct (libc_realloc [] size) as [b|]; [|done]. cbn [length zeroed]. destruct b; cbn; [done|]. by apply Forall_replicate with (n := S _).
Qed.

(** A block that grows keeps its bytes, and what is added is zero. *)
Theorem realloc_extends ptr size b : (forall b, libc_realloc ptr size = Some b -> take (length ptr) b = take (length b) ptr) -> realloc ptr size = Block b ->
  b = take (length b) ptr ++ replicate (length b - length ptr) 0.
Proof using Type.
  intros Hl H. unfold realloc in H. destruct (libc_realloc ptr size) as [b0|] eqn:E; [|by unfold null_pointer_consumption in H]. specialize (Hl b0 eq_refl). injection H as <-.
  destruct (Nat.ltb_spec (length ptr) (length b0)) as [Hlt|Hge].
  - rewrite length_app, length_take, length_replicate. rewrite Hl, take_ge by lia. f_equal; [by rewrite take_ge by lia|]. f_equal. lia.
  - rewrite take_ge in Hl by lia. rewrite <- Hl. replace (length b0 - length ptr)%nat with 0%nat by lia. by rewrite app_nil_r.
Qed.
End Malloc.

Lemma new_memory_is_zero_witness : zeroed (calloc (fun _ _ => Some [0; 0]) 2 1).
Proof.
  apply (new_memory_is_zero (fun _ => None) (fun _ => None) (fun _ _ => None) (fun _ _ => Some [0; 0]) (fun _ _ => None)); [|exact 0..].
  intros n size b [= <-]. by repeat constructor.
Defined.

Lemma realloc_extends_witness : [5; 6; 0; 0] = take 4 [5; 6] ++ replicate 2 0.
Proof.
  apply (realloc_extends (fun ptr _ => Some (take 2 ptr ++ [9; 9])) [5; 6] 4 [5; 6; 0; 0]); [by intros b [= <-]|done].
Defined.

(** A block that is made smaller and larger again where it is: the bytes beyond the
    smaller size come back. *)
Example shrunk_bytes_come_back :
  let keep (ptr : list Z) (_ : Z) := Some ptr in
  realloc keep [1; 2; 3; 4] 2 = Block [1; 2; 3; 4] /\ realloc keep [1; 2; 3; 4] 4 = Block [1; 2; 3; 4].
Proof. done. Qed.

(** A realloc() to size 0, for which the C library returns a null pointer, kills the
    process. *)
Example realloc_zero_kills : realloc (fun _ size => if size =? 0 then None else Some []) [1] 0 = Died SIGKILL.
Proof. done. Qed.

(** pvalloc() of 4 GB and a byte asks for one page. *)
Example pvalloc_truncates : pvalloc (fun size => if size =? 4096 then Some [] else None) (2 ^ 32 + 1) = Block [].
Proof. done. Qed.
End Malloc.

(** * Signals *)

Module Signals.

Definition SIGHUP : Z := 1.
Definition SIGINT : Z := 2.
Definition SIGPIPE : Z := 13.
Definition SIGTERM : Z := 15.
Definition termination_signals : list Z := [SIGHUP; SIGINT; SIGTERM; SIGPIPE].

(** The variable signal_control and the signals whose handler is installed; the
    default action of the others ends the process. *)
Record state := { signal_control : Z; caught : list Z }.

(** signal_handler() *)
Definition signal_handler (signum value : Z) : Z :=
  let value := if value =? 0 then u64 (Z.shiftl (u64 signum) 32) else value in
  u64 (value + 1).

Record SignalState := { signal : Z; count : Z }.
Definition last_signal (st : state) : SignalState :=
  {| signal := i32 (Z.shiftr (signal_control st) 32); count := i32 (signal_control st) |}.

Definition setup_signals (signals : list Z) (st : state) : state :=
  {| signal_control := signal_control st; caught := signals ++ filter (fun s => s ∉ signals) (caught st) |}.
Definition signals_init_global : state -> state := setup_signals termination_signals.
Definition signals_init_child (st : state) : state :=
  {| signal_control := signal_control st; caught := filter (fun s => s ∉ termination_signals) (caught st) |}.
Definition enable_interrupt_catch : state -> state := setup_signals [SIGINT].
Definition disable_interrupt_catch (st : state) : state :=
  {| signal_control := signal_control st; caught := filter (fun s => s <> SIGINT) (caught st) |}.

(** A signal arrives. SA_RESETHAND removes the handler before it runs; the signals
    are blocked meanwhile. [None]: the process is gone. *)
Definition deliver (signum : Z) (st : state) : option state :=
  if decide (signum ∈ caught st)
  then Some {| signal_control := signal_handler signum (signal_control st); caught := filter (fun s => s <> signum) (caught st) |}
  else None.

Fixpoint deliver_all (signals : list Z) (st : state) : option state :=
  match signals with
  | [] => Some st
  | s :: signals => match deliver s st with Some st => deliver_all signals st | None => None end
  end.

Definition initial : state := {| signal_control := 0; caught := [] |}.

Lemma deliver_counts signals : forall st first n, 0 < first < 2 ^ 31 -> 0 < n -> n + len signals < 2 ^ 31 ->
  signal_control st = first * 2 ^ 32 + n -> NoDup signals -> Forall (fun s => s ∈ caught st) signals ->
  exists st', deliver_all signals st = Some st' /\ signal_control st' = first * 2 ^ 32 + (n + len signals).
Proof.
  induction signals as [|s signals IH]; intros st first n Hf Hn Hmax Hst Hnd Hin.
  - exists st. split; [done|]. rewrite Hst. unfold len. simpl. lia.
  - apply NoDup_cons in Hnd as [Hni Hnd]. apply Forall_cons in Hin as [Hs Hin]. cbn [deliver_all]. unfold deliver. rewrite decide_True by done.
    unfold len in *. simpl in Hmax. unfold signal_handler. rewrite Hst, (proj2 (Z.eqb_neq _ 0)) by lia.
    rewrite wrap_u_small by (unfold in_u; lia).
    destruct (IH {| signal_control := first * 2 ^ 32 + n + 1; caught := filter (fun s' => s' <> s) (caught st) |} first (n + 1)) as (st' & H & E);
      [done|lia|lia|cbn [signal_control]; lia|done| |exists st'; split; [exact H|rewrite E; simpl; lia]].
    apply Forall_forall. intros x Hx. cbn [caught]. apply list_elem_of_filter. rewrite Forall_forall in Hin. split; [|by apply Hin]. by intros ->.
Qed.

Lemma deliver_repeated signals : forall st, Forall (fun s => s ∈ termination_signals) signals -> (forall s, s ∈ caught st -> s ∈ termination_signals) ->
  (~ NoDup signals \/ Exists (fun s => s ∉ caught st) signals) -> deliver_all signals st = None.
Proof.
  induction signals as [|s signals IH]; intros st Ht Hc H; [destruct H as [H|H]; [destruct H; constructor|inversion H]|].
  cbn [deliver_all]. unfold deliver. destruct (decide (s ∈ caught st)) as [Hs|Hs]; [|done]. apply Forall_cons in Ht as [_ Ht]. apply IH; [done| |].
  - intros x Hx. apply list_elem_of_filter in Hx as [_ Hx]. by apply Hc.
  - destruct H as [H|H].
    + destruct (decide (s ∈ signals)) as [Hin|Hni].
      * right. apply Exists_exists. exists s. split; [done|]. cbn [caught]. rewrite list_elem_of_filter. tauto.
      * left. intros Hnd. apply H. by constructor.
    + apply Exists_cons in H as [H|H]; [done|]. right. eapply Exists_impl; [exact H|]. cbn [caught]. intros x Hx. rewrite list_elem_of_filter. tauto.
Qed.

(** Stopping the program: of the signals that ask it to end, each is caught once. As
    long as none arrives a second time, the program goes on and knows which came first
    and how many came; a second one of the same kind ends it at once. *)
Theorem signals_are_counted signals : Forall (fun s => s ∈ termination_signals) signals ->
  match deliver_all signals (signals_init_global initial) with
  | None => ~ NoDup signals
  | Some st => NoDup signals /\ (forall s, head signals = Some s -> last_signal st = {| signal := s; count := len signals |})
  end.
Proof.
  intros Ht. destruct (decide (NoDup signals)) as [Hnd|Hnd].
  - destruct signals as [|s signals]; [split; [done|by intros ?]|]. apply Forall_cons in Ht as [Hs Ht]. pose proof Hnd as Hnd'. apply NoDup_cons in Hnd' as [Hni Hnd'].
    assert (length (s :: signals) <= 4)%nat as Hlen. { change 4%nat with (length termination_signals). apply NoDup_incl_length with (l := s :: signals).
      - by apply NoDup_ListNoDup.
      - intros x Hx. apply list_elem_of_In in Hx. apply list_elem_of_In. apply elem_of_cons in Hx as [->|Hx]; [done|]. rewrite Forall_forall in Ht. by apply Ht. }
    assert (0 < s < 2 ^ 31) as Hr by (unfold termination_signals in Hs; repeat (apply elem_of_cons in Hs as [->|Hs]; [done|]); by apply not_elem_of_nil in Hs).
    cbn [deliver_all]. unfold deliver at 1. change (caught (signals_init_global initial)) with (termination_signals ++ []). rewrite app_nil_r, decide_True by done.
    change (signal_control (signals_init_global initial)) with 0. unfold signal_handler. cbn [Z.eqb]. rewrite (wrap_u_small 64 s) by (unfold in_u; lia).
    rewrite Z.shiftl_mul_pow2, (wrap_u_small 64 (s * 2 ^ 32)), wrap_u_small by (unfold in_u; lia).
    edestruct (deliver_counts signals {| signal_control := s * 2 ^ 32 + 1; caught := filter (fun x => x <> s) termination_signals |} s 1) as (st' & -> & E);
      [done|lia|unfold len; simpl in Hlen; lia|done|done| |].
    { apply Forall_forall. intros x Hx. cbn [caught]. apply list_elem_of_filter. rewrite Forall_forall in Ht. split; [by intros ->|by apply Ht]. }
    split; [done|]. intros s' [= <-]. unfold last_signal. rewrite E. unfold len in *. simpl in Hlen. f_equal.
    + rewrite Z.shiftr_div_pow2 by lia. rewrite Z.div_add_l, Z.div_small by lia. rewrite Z.add_0_r. apply (wrap_s_small 32); [lia|unfold in_s; lia].
    + unfold wrap_s. rewrite <- (Z.add_assoc (s * 2 ^ 32)), Z.add_comm, Z_mod_plus_full. change (2 ^ (32 - 1)) with (2 ^ 31). rewrite Z.mod_small by lia. simpl. lia.
  - rewrite deliver_repeated; [done|done| |by left]. intros s Hs. cbn in Hs. done.
Qed.

Lemma signals_are_counted_witness : last_signal (default initial (deliver_all [SIGTERM; SIGINT] (signals_init_global initial))) = {| signal := SIGTERM; count := 2 |}.
Proof.
  pose proof (signals_are_counted [SIGTERM; SIGINT]) as H. assert (Forall (fun s => s ∈ termination_signals) [SIGTERM; SIGINT]) as Ht by (by apply (bool_decide_unpack _); vm_compute).
  specialize (H Ht). destruct (deliver_all [SIGTERM; SIGINT] (signals_init_global initial)) as [st|] eqn:E; [|by vm_compute in E]. by apply H.
Defined.
End Signals.
