(* ===== verification/CpuFeatures.v ===== *)
(** The processor's features (src/framework/cpuid_internal.h, main.cpp and the
    functions of sandstone.cpp that print them). The tables of features, their
    places in the registers of cpuid, the features that need a state of XSAVE and the
    architectures are generated when the program is built: they are parameters. *)

From S2P Require Import Prelude CStdlib Report ContextDump CpuInfo.

Definition EX_CONFIG : Z := 78.

(** enum X86CpuidLeaves *)
Inductive X86CpuidLeaves :=
| Leaf01ECX | Leaf01EDX | Leaf07_00EBX | Leaf07_00ECX | Leaf07_00EDX | Leaf07_01EAX | Leaf07_01EDX | Leaf13_01EAX | Leaf80000001hECX.

Record regs := { eax : Z; ebx : Z; ecx : Z; edx : Z }.

(** What arch_prctl() does: whether the permission for a state is granted, and the
    states that are supported, if the kernel can tell. *)
Record Kernel := { req_xcomp_perm : Z -> bool; get_xcomp_supp : option Z }.

Definition KernelNonDynamicXSave : Z := XSave_Xtilecfg - 1.

(** 63 - __builtin_clzll() *)
Definition highest_bit (v : Z) : outcome Z := if v =? 0 then Ub else Ret (Z.log2 v).

(** adjusted_xcr0() on Linux *)
Definition adjusted_xcr0 (k : Kernel) (xcr0 xcr0_wanted : Z) : outcome Z :=
  let xcr0 := Z.land xcr0 xcr0_wanted in
  if Z.ldiff xcr0_wanted KernelNonDynamicXSave =? 0 then Ret xcr0
  else
    feature_nr ← highest_bit xcr0_wanted;
    if req_xcomp_perm k feature_nr then Ret xcr0_wanted
    else
      let without_dynamic := Ret (Z.land xcr0 KernelNonDynamicXSave) in
      match get_xcomp_supp k with
      | None => without_dynamic
      | Some supported =>
          let xcr0_wanted := Z.land xcr0_wanted supported in
          feature_nr ← highest_bit xcr0_wanted;
          if req_xcomp_perm k feature_nr then Ret xcr0_wanted else without_dynamic
      end.

Section Features.
Context (leaf_value : X86CpuidLeaves -> Z) (x86_locators : list Z) (XSaveReq_AvxState XSaveReq_Avx512State XSaveReq_AmxState : Z).

Definition in_leaf (leaf : X86CpuidLeaves) (locator : Z) : bool := negb ((locator <? leaf_value leaf * 32) || ((leaf_value leaf + 1) * 32 <=? locator)).

(** parse_register() *)
Fixpoint parse_from (i : Z) (locators : list Z) (leaf : X86CpuidLeaves) (reg features : Z) : Z :=
  match locators with
  | [] => features
  | locator :: locators =>
      let features := if in_leaf leaf locator && Z.testbit reg (locator mod 32) then Z.lor features (Z.shiftl 1 i) else features in
      parse_from (i + 1) locators leaf reg features
  end.
Definition parse_register (leaf : X86CpuidLeaves) (reg : Z) : Z := parse_from 0 x86_locators leaf reg 0.

(** What the processor says; [xgetbv] is the register XCR0. *)
Context (cpuid : Z -> Z -> regs) (xgetbv : Z) (k : Kernel).

Definition hardware_features : Z :=
  let max_level := eax (cpuid 0 0) in
  let l1 := cpuid 1 0 in
  let features := Z.lor (parse_register Leaf01ECX (ecx l1)) (parse_register Leaf01EDX (edx l1)) in
  let features :=
    if 7 <=? max_level then
      let l7 := cpuid 7 0 in
      let features := Z.lor (Z.lor (Z.lor features (parse_register Leaf07_00EBX (ebx l7))) (parse_register Leaf07_00ECX (ecx l7))) (parse_register Leaf07_00EDX (edx l7)) in
      if eax l7 =? 0 then features
      else let l71 := cpuid 7 1 in Z.lor (Z.lor features (parse_register Leaf07_01EAX (eax l71))) (parse_register Leaf07_01EDX (edx l71))
    else features in
  let features := if 13 <=? max_level then Z.lor features (parse_register Leaf13_01EAX (eax (cpuid 13 1))) else features in
  Z.lor features (parse_register Leaf80000001hECX (ecx (cpuid 0x80000001 0))).

(** The states that the features need. *)
Definition wanted_states (features : Z) : Z :=
  let w := if has features XSaveReq_AvxState then XSave_AvxState else 0 in
  let w := if has features XSaveReq_Avx512State then Z.lor w XSave_Avx512State else w in
  if has features XSaveReq_AmxState then Z.lor w XSave_AmxState else w.

Definition enabled_states (wanted : Z) : outcome Z :=
  if wanted =? 0 then Ret 0
  else adjusted_xcr0 k (if wanted =? u32 wanted then u32 xgetbv else xgetbv) wanted.

(** detect_cpu() *)
Definition detect_cpu : outcome Z :=
  let features := hardware_features in
  let l1 := ecx (cpuid 1 0) in
  if negb (Z.testbit l1 26) then Ret features
  else if negb (Z.testbit l1 27) then Exit EX_CONFIG
  else
    let xcr0_wanted := wanted_states features in
    xcr0 ← enabled_states xcr0_wanted;
    let degrade := negb (Z.land xcr0 XSave_AmxState =? XSave_AmxState) in
    let xcr0_wanted := if degrade then Z.ldiff xcr0_wanted XSave_AmxState else xcr0_wanted in
    let features := if degrade then Z.ldiff features XSaveReq_AmxState else features in
    if negb (xcr0_wanted =? 0) && negb (Z.land xcr0 xcr0_wanted =? xcr0_wanted) then Exit EX_CONFIG
    else Ret features.
End Features.

(** check_missing_features() *)
Definition check_missing_features (features minimum_cpu_features : Z) : outcome () :=
  if Z.ldiff minimum_cpu_features features =? 0 then Ret () else Exit EX_CONFIG.

(** ** The fallback program *)

Definition PATH_MAX : nat := Z.to_nat 4096.

(** The path of the fallback: the name in the directory of the running program.
    [None]: there is none, or it does not fit. *)
Definition fallback_path (fallback execfn : str) : outcome (option str) :=
  match fallback with
  | [] => Ret None
  | _ =>
      if (PATH_MAX <=? length execfn)%nat then Ret None
      else
        let '(name, rest) := span (fun c => negb (char_eqb c "/")) (reverse execfn) in
        match rest with
        | [] => Ret None
        | _ =>
            let lastslash := (length rest - 1)%nat in
            if (PATH_MAX - lastslash <? length fallback + 1)%nat then Ret None
            else
              _ ← assertion (lastslash + 1 + length fallback + 1 <=? PATH_MAX)%nat;
              Ret (Some (reverse rest ++ fallback))
        end
  end.

(** The check of the owner; [owner] and [self] are what fstat() and stat() tell. *)
Definition may_execute (owner self : option Z) (uid : Z) : bool :=
  match owner with
  | None => false
  | Some o => if (o =? 0) || (o =? uid) then true else match self with Some s => o =? s | None => false end
  end.

(** fallback_exec(): the file that is executed, if any; [open_path] is whether it can
    be opened. *)
Definition fallback_exec (fallback : str) (execfn : option str) (open_path : str -> bool) (owner : str -> option Z) (self : option Z) (uid : Z) : outcome (option str) :=
  match execfn with
  | None => Ret None
  | Some execfn =>
      path ← fallback_path fallback execfn;
      Ret (match path with
           | Some p => if open_path p && may_execute (owner p) self uid then Some p else None
           | None => None
           end)
  end.

(** premain(): the program is replaced by the fallback ([inl]), or goes on with its
    features ([inr]). [fallback] is the result of fallback_exec(), and [exec_works]
    whether fexecve() does not return. *)
Definition premain (detected : outcome Z) (minimum_cpu_features : Z) (fallback : outcome (option str)) (exec_works : bool) : outcome (str + Z) :=
  features ← detected;
  path ← (if Z.ldiff minimum_cpu_features features =? 0 then Ret None else fallback);
  match path with
  | Some p => if exec_works then Ret (inl p) else _ ← check_missing_features features minimum_cpu_features; Ret (inr features)
  | None => _ ← check_missing_features features minimum_cpu_features; Ret (inr features)
  end.

(** The program only goes on with every feature it was compiled for. *)
Lemma premain_features detected minimum fallback exec_works features :
  premain detected minimum fallback exec_works = Ret (inr features) -> detected = Ret features /\ Z.ldiff minimum features = 0.
Proof.
  intros H. unfold premain in H. apply outcome_bind_ret in H as (f & -> & H). apply outcome_bind_ret in H as (path & _ & H).
  assert ((_ ← check_missing_features f minimum; Ret (inr f)) = Ret (inr features : str + Z)) as Hc by (by destruct path, exec_works). clear H.
  unfold check_missing_features in Hc. destruct (Z.eqb_spec (Z.ldiff minimum f) 0); [|done]. by injection Hc as ->.
Qed.

(** ** Printing *)

(** cpu_features_to_string(); the names start with a blank, which is left out. *)
Definition cpu_features_to_string (names : list str) (f : Z) : str :=
  (foldl (fun st (p : nat * str) => if Z.testbit f (Z.of_nat p.1) then (st.1 ++ st.2 ++ drop 1 p.2, L ",") else st) ([], []) (imap pair names)).1.

(** The architecture of a processor: the first of the table whose features it has. *)
Fixpoint detected_architecture (archs : list (str * Z)) (cpu_features : Z) : str :=
  match archs with
  | [] => L "<unknown>"
  | (name, features) :: archs => if Z.land features cpu_features =? features then name else detected_architecture archs cpu_features
  end.

Definition tab_sep (l : list str) : str := concat (imap (fun i s => if (i =? 0)%nat then s else ["009"%char] ++ s) l).
Definition nl : str := ["010"%char].

(** A line of the table of processors. *)
Definition cpu_line (c : cpu_info) : str :=
  tab_sep ((to_string <$> [cpu_number c; package_id c; core_id c; thread_id c; module_id c; numa_id c; hwid c]) ++ [L "0x" ++ to_digits 16 (microcode c)]) ++
  (if ppin c =? 0 then [] else ["009"%char] ++ fmt_0x 16 (ppin c)) ++ nl.

(** The architectures that are tried, as verbose output tells. *)
Fixpoint architecture_search (names : list str) (archs : list (str * Z)) (cpu_features : Z) : str :=
  match archs with
  | [] => []
  | (name, features) :: archs =>
      if Z.land features cpu_features =? features then []
      else L "CPU is not " ++ name ++ L ": missing " ++ cpu_features_to_string names (Z.ldiff features cpu_features) ++ nl ++ architecture_search names archs cpu_features
  end.

(** dump_cpu_info() *)
Definition dump_cpu_info (names : list str) (archs : list (str * Z)) (cpu_features verbosity : Z) (cpus : list cpu_info) : outcome str :=
  c0 ← of_option (head cpus);
  Ret ((if 1 <? verbosity then architecture_search names archs cpu_features else []) ++
       L "Detected CPU: " ++ detected_architecture archs cpu_features ++ L "; family-model-stepping (hex): " ++
       fmt_0x 2 (family c0) ++ L "-" ++ fmt_0x 2 (model c0) ++ L "-" ++ fmt_0x 2 (stepping c0) ++ L "; CPU features: " ++ cpu_features_to_string names cpu_features ++ nl ++
       tab_sep (L <$> ["# CPU"; "PkgID"; "CoreID"; "ThrdID"; "ModId"; "NUMAId"; "ApicId"; "Microcode"; "PPIN"]%string) ++ nl ++
       concat (cpu_line <$> cpus)).

(** * Facts *)

Section Facts.
Context (leaf_value : X86CpuidLeaves -> Z) (x86_locators : list Z) (XSaveReq_AvxState XSaveReq_Avx512State XSaveReq_AmxState : Z).

Lemma parse_from_bit leaf reg locators : forall i features n, 0 <= i -> 0 <= n ->
  Z.testbit (parse_from leaf_value i locators leaf reg features) n =
  Z.testbit features n || (if n <? i then false else match locators !! Z.to_nat (n - i) with Some l => in_leaf leaf_value leaf l && Z.testbit reg (l mod 32) | None => false end).
Proof using Type.
  induction locators as [|l locators IH]; intros i features n Hi Hn; cbn [parse_from]; [destruct (n <? i); by rewrite orb_false_r|].
  rewrite IH by lia. destruct (Z.ltb_spec n (i + 1)), (Z.ltb_spec n i); try lia.
  - rewrite !orb_false_r. destruct (_ && _); [|done]. rewrite Z.lor_spec, Z.shiftl_spec by lia. rewrite (Z.testbit_neg_r _ (n - i)) by lia. apply orb_false_r.
  - assert (n = i) as -> by lia. rewrite Z.sub_diag. change ((l :: locators) !! Z.to_nat 0) with (Some l). cbv iota. destruct (_ && _); [|done].
    rewrite Z.lor_spec, Z.shiftl_spec, Z.sub_diag, orb_false_r by lia. done.
  - replace (Z.to_nat (n - i)) with (S (Z.to_nat (n - (i + 1)))) by lia. change ((l :: locators) !! S (Z.to_nat (n - (i + 1)))) with (locators !! Z.to_nat (n - (i + 1))). f_equal. destruct (_ && _); [|done].
    rewrite Z.lor_spec, Z.shiftl_spec by lia. change 1 with (2 ^ 0). rewrite Z.pow2_bits_false by lia. apply orb_false_r.
Qed.

(** A feature is found exactly when its bit is set in the register it is in. *)
Lemma parse_register_bit leaf reg n : 0 <= n ->
  Z.testbit (parse_register leaf_value x86_locators leaf reg) n =
  match x86_locators !! Z.to_nat n with Some l => in_leaf leaf_value leaf l && Z.testbit reg (l mod 32) | None => false end.
Proof using Type. intros Hn. unfold parse_register. rewrite parse_from_bit, Z.bits_0 by lia. rewrite (proj2 (Z.ltb_ge n 0)), Z.sub_0_r by lia. done. Qed.

(** All bits of a mask are set. *)
Definition covers (states mask : Z) : Prop := Z.land states mask = mask.
Lemma covers_bit states mask : covers states mask <-> forall n, 0 <= n -> Z.testbit mask n = true -> Z.testbit states n = true.
Proof using Type.
  unfold covers. split.
  - intros H n Hn Hm. rewrite <- H, Z.land_spec in Hm. by apply andb_true_iff in Hm as [Hm _].
  - intros H. apply Z.bits_inj'. intros n Hn. rewrite Z.land_spec. destruct (Z.testbit mask n) eqn:E; [by rewrite H|apply andb_false_r].
Qed.

Lemma has_ldiff f m req : has (Z.ldiff f m) req = true -> has f req = true.
Proof using Type.
  unfold has. rewrite !negb_true_iff, !Z.eqb_neq. intros H E. apply H. apply Z.bits_inj'. intros n Hn. rewrite Z.land_spec, Z.ldiff_spec, Z.bits_0.
  apply (f_equal (fun z => Z.testbit z n)) in E. rewrite Z.land_spec, Z.bits_0 in E. by destruct (Z.testbit f n), (Z.testbit req n), (Z.testbit m n).
Qed.
Lemma has_ldiff_self f req : has (Z.ldiff f req) req = false.
Proof using Type.
  unfold has. apply negb_false_iff, Z.eqb_eq, Z.bits_inj'. intros n Hn. rewrite Z.land_spec, Z.ldiff_spec, Z.bits_0. by destruct (Z.testbit f n), (Z.testbit req n).
Qed.

Local Abbreviation wanted := (wanted_states XSaveReq_AvxState XSaveReq_Avx512State XSaveReq_AmxState).
Lemma wanted_avx f : has f XSaveReq_AvxState = true -> covers (Z.ldiff (wanted f) XSave_AmxState) XSave_AvxState.
Proof using Type. intros H. unfold wanted_states. rewrite H. by destruct (has f XSaveReq_Avx512State), (has f XSaveReq_AmxState). Qed.
Lemma wanted_avx512 f : has f XSaveReq_Avx512State = true -> covers (Z.ldiff (wanted f) XSave_AmxState) XSave_Avx512State.
Proof using Type. intros H. unfold wanted_states. rewrite H. by destruct (has f XSaveReq_AvxState), (has f XSaveReq_AmxState). Qed.

Lemma covers_land_l x y m : covers (Z.land x y) m -> covers x m.
Proof using Type. rewrite !covers_bit. intros H n Hn Hm. specialize (H n Hn Hm). rewrite Z.land_spec in H. by apply andb_true_iff in H as [H _]. Qed.
Lemma covers_land_r x y m : covers (Z.land x y) m -> covers y m.
Proof using Type. rewrite Z.land_comm. apply covers_land_l. Qed.
Lemma covers_u32 x m : covers (u32 x) m -> covers x m.
Proof using Type. unfold u32, wrap_u. rewrite <- land_ones_mod by lia. apply covers_land_l. Qed.

(** The kernel gave the permission that the code asks for: for the highest state it
    wants, or for the highest that it wants and the kernel supports. *)
Definition permitted (k : Kernel) (w : Z) : Prop :=
  exists n, req_xcomp_perm k n = true /\ (n = Z.log2 w \/ exists s, get_xcomp_supp k = Some s /\ n = Z.log2 (Z.land w s)).

Lemma highest_bit_log v n : highest_bit v = Ret n -> n = Z.log2 v.
Proof using Type. unfold highest_bit. destruct (v =? 0); [done|by intros [= <-]]. Qed.

(** What adjusted_xcr0() returns: bits of the register, or a granted request. *)
Lemma adjusted_cases k x w r : adjusted_xcr0 k x w = Ret r ->
  (r = Z.land x w /\ Z.ldiff w KernelNonDynamicXSave = 0) \/ r = Z.land (Z.land x w) KernelNonDynamicXSave \/
  (Z.ldiff w KernelNonDynamicXSave <> 0 /\ permitted k w /\
   ((r = w /\ req_xcomp_perm k (Z.log2 w) = true) \/
    exists s, r = Z.land w s /\ req_xcomp_perm k (Z.log2 (Z.land w s)) = true)).
Proof using Type.
  unfold adjusted_xcr0. cbv zeta. destruct (Z.eqb_spec (Z.ldiff w KernelNonDynamicXSave) 0) as [E|E]; [intros [= <-]; auto|].
  intros H. apply outcome_bind_ret in H as (n & Hn%highest_bit_log & H). subst n.
  destruct (req_xcomp_perm k (Z.log2 w)) eqn:Er.
  - injection H as <-. right. right. split; [done|]. split; [|by left]. exists (Z.log2 w). auto.
  - destruct (get_xcomp_supp k) as [sp|] eqn:Es; [|injection H as <-; auto].
    apply outcome_bind_ret in H as (n & Hn%highest_bit_log & H). subst n.
    destruct (req_xcomp_perm k (Z.log2 (Z.land w sp))) eqn:Er2; injection H as <-; [|auto].
    right. right. split; [done|]. split; [|right; by exists sp]. exists (Z.log2 (Z.land w sp)). split; [done|]. right. by exists sp.
Qed.

Lemma wanted_dynamic f : Z.ldiff (wanted f) KernelNonDynamicXSave <> 0 -> has f XSaveReq_AmxState = true.
Proof using Type.
  unfold wanted_states. destruct (has f XSaveReq_AmxState); [done|].
  by destruct (has f XSaveReq_AvxState), (has f XSaveReq_Avx512State).
Qed.

(** The states of AVX and AVX-512 that are found are in the register XCR0, unless
    the kernel granted the request that AMX needs. *)
Lemma enabled_real xgetbv k f x m : enabled_states xgetbv k (wanted f) = Ret x -> covers x m -> m <> 0 ->
  covers xgetbv m \/ (has f XSaveReq_AmxState = true /\ permitted k (wanted f)).
Proof using Type.
  unfold enabled_states. intros H Hc Hm. destruct (wanted f =? 0); [injection H as <-; unfold covers in Hc; rewrite Z.land_0_l in Hc; by subst m|].
  assert (forall y, covers (if wanted f =? u32 (wanted f) then u32 xgetbv else xgetbv) y -> covers xgetbv y) as Hx
    by (intros y; destruct (_ =? _); [apply covers_u32|done]).
  apply adjusted_cases in H as [[-> _]|[->|(Hd & Hp & _)]].
  - left. apply covers_land_l in Hc. by apply Hx.
  - left. apply covers_land_l, covers_land_l in Hc. by apply Hx.
  - right. split; [by apply wanted_dynamic|done].
Qed.

(** The AMX state is found only when the kernel granted it. *)
Lemma enabled_amx xgetbv k f x : enabled_states xgetbv k (wanted f) = Ret x -> covers x XSave_AmxState ->
  req_xcomp_perm k 18 = true.
Proof using Type.
  unfold enabled_states. intros H Hc. destruct (wanted f =? 0); [by injection H as <-|].
  assert (forall y, covers y XSave_AmxState -> Z.testbit y 18 = true) as Hbit by (intros y Hy; by apply (proj1 (covers_bit y _) Hy)).
  assert (Z.land (wanted f) (2 ^ 19 - 1) = wanted f) as Hw.
  { unfold wanted_states. by destruct (has f XSaveReq_AvxState), (has f XSaveReq_Avx512State), (has f XSaveReq_AmxState). }
  assert (forall y, y = Z.land (wanted f) y -> covers y XSave_AmxState -> Z.log2 y = 18) as Hlog.
  { intros y Hy Hcy%Hbit. assert (y = y mod 2 ^ 19) as Hy'.
    { rewrite <- land_ones_mod by lia. rewrite Hy at 2. rewrite Hy at 1. rewrite <- Hw at 1.
      rewrite (Z.land_comm (wanted f) (2 ^ 19 - 1)), <- Z.land_assoc. apply Z.land_comm. }
    pose proof (Z.mod_pos_bound y (2 ^ 19) ltac:(lia)). apply Z.log2_unique; [lia|]. split; [|change (2 ^ Z.succ 18) with (2 ^ 19); lia].
    destruct (Z.le_gt_cases (2 ^ 18) y); [done|]. exfalso.
    rewrite Z.bits_above_log2 in Hcy; [done|lia|]. destruct (Z.eq_dec y 0) as [->|]; [done|]. apply Z.log2_lt_pow2; lia. }
  apply adjusted_cases in H as [[-> Hd]|[->|(Hd & _ & [[-> Hr]|(sp & -> & Hr)])]].
  - exfalso. apply covers_land_r, Hbit in Hc. apply (f_equal (fun z => Z.testbit z 18)) in Hd. rewrite Z.ldiff_spec, Hc in Hd. done.
  - exfalso. apply covers_land_r, Hbit in Hc. done.
  - rewrite Hlog in Hr; [done|by rewrite Z.land_diag|done].
  - rewrite Hlog in Hr; [done|by rewrite Z.land_assoc, Z.land_diag|done].
Qed.

(** C39. What features the program finds that it may use. On a processor whose
    cpuid does not report XSAVE they are those of the processor, and nothing is
    asked. With XSAVE, the program ends unless the system has enabled it, and the
    features it finds are those of the processor, less at most those that need
    the AMX state. Features that need that state are only found when the kernel
    granted the permission for it. Features that need the state of AVX or AVX-512
    are only found when the register XCR0 has that state, with one exception: when
    the processor also has features that need the AMX state and the kernel granted
    the permission the code then asks for, the register is not looked at (Example
    [no_avx_state_ends] shows such a run; a kernel whose grant implies that the
    other states are enabled too makes it unreachable). The detection returns or
    ends the program unless the kernel supports none of the states that are asked
    for (Example [nothing_supported]). *)
Theorem features_are_usable cpuid xgetbv k :
  let detected := detect_cpu leaf_value x86_locators XSaveReq_AvxState XSaveReq_Avx512State XSaveReq_AmxState cpuid xgetbv k in
  let hw := hardware_features leaf_value x86_locators cpuid in
  let granted := has hw XSaveReq_AmxState = true /\ permitted k (wanted hw) in
  ((forall s, get_xcomp_supp k = Some s -> Z.land (wanted hw) s <> 0) -> defined detected) /\
  forall features, detected = Ret features ->
    if Z.testbit (ecx (cpuid 1 0)) 26 then
      Z.testbit (ecx (cpuid 1 0)) 27 = true /\
      (features = hw \/ features = Z.ldiff hw XSaveReq_AmxState) /\
      (has features XSaveReq_AmxState = true -> req_xcomp_perm k 18 = true) /\
      (has features XSaveReq_AvxState = true -> covers xgetbv XSave_AvxState \/ granted) /\
      (has features XSaveReq_Avx512State = true -> covers xgetbv XSave_Avx512State \/ granted)
    else features = hw.
Proof using Type.
  intros detected hw granted. unfold detected, detect_cpu. fold hw. split.
  { intros Hs. unfold defined. destruct (Z.testbit _ 26); [|done]. destruct (Z.testbit _ 27); [|done]. cbn [negb]. cbv zeta.
    assert (enabled_states xgetbv k (wanted hw) <> Ub) as He.
    { unfold enabled_states, adjusted_xcr0, highest_bit. destruct (Z.eqb_spec (wanted hw) 0) as [|Hnz]; [done|].
      destruct (_ =? 0); [done|]. cbn [mbind outcome_bind]. destruct (req_xcomp_perm k _); [done|].
      destruct (get_xcomp_supp k) as [sp|]; [|done]. destruct (Z.eqb_spec (Z.land (wanted hw) sp) 0) as [E|]; [by destruct (Hs sp eq_refl)|].
      cbn [mbind outcome_bind]. by destruct (req_xcomp_perm k _). }
    destruct (enabled_states _ _ _); [|done|done]. cbn [mbind outcome_bind]. by destruct (_ && _). }
  intros features H. destruct (Z.testbit (ecx (cpuid 1 0)) 26); [|by injection H as <-].
  destruct (Z.testbit (ecx (cpuid 1 0)) 27); [cbn [negb] in H|done]. split; [done|].
  apply outcome_bind_ret in H as (xcr0 & Hx & H). cbv zeta in H. set (degrade := negb (Z.land xcr0 XSave_AmxState =? XSave_AmxState)) in H.
  destruct (_ && _) eqn:E in H; [done|]. injection H as <-. split; [destruct degrade; auto|].
  assert (covers xcr0 (Z.ldiff (wanted hw) XSave_AmxState)) as Hcov.
  { assert (covers xcr0 (if degrade then Z.ldiff (wanted hw) XSave_AmxState else wanted hw)) as Hc.
    { apply andb_false_iff in E as [E|E]; apply negb_false_iff, Z.eqb_eq in E; [|exact E]. rewrite E. apply Z.land_0_r. }
    destruct degrade; [done|]. rewrite covers_bit in *. intros n Hn Hb. apply Hc; [done|]. rewrite Z.ldiff_spec in Hb. by apply andb_true_iff in Hb as [Hb _]. }
  assert (forall req, has (if degrade then Z.ldiff hw XSaveReq_AmxState else hw) req = true -> has hw req = true) as Hh by (intros req; destruct degrade; [apply has_ldiff|done]).
  assert (forall m, m <> 0 -> covers (Z.ldiff (wanted hw) XSave_AmxState) m -> covers xgetbv m \/ granted) as Hreal.
  { intros m Hm Hc. apply (enabled_real xgetbv k hw xcr0 m Hx); [|done]. rewrite covers_bit in *. auto. }
  split; [|split; intros Hr].
  - intros Hr. destruct degrade eqn:Ed; [by rewrite has_ldiff_self in Hr|]. unfold degrade in Ed. apply negb_false_iff, Z.eqb_eq in Ed.
    by apply (enabled_amx xgetbv k hw xcr0).
  - apply Hreal; [done|]. by apply wanted_avx, Hh.
  - apply Hreal; [done|]. by apply wanted_avx512, Hh.
Qed.
End Facts.

(** A processor with AVX and AMX in a table of two features; the kernel grants the
    AMX state. *)
Definition demo_cpuid (leaf sub : Z) : regs :=
  if leaf =? 0 then {| eax := 7; ebx := 0; ecx := 0; edx := 0 |}
  else if leaf =? 1 then {| eax := 0; ebx := 0; ecx := Z.lor (2 ^ 28) (Z.lor (2 ^ 27) (2 ^ 26)); edx := 0 |}
  else if leaf =? 7 then {| eax := 0; ebx := 0; ecx := 0; edx := 2 ^ 24 |}
  else {| eax := 0; ebx := 0; ecx := 0; edx := 0 |}.
Definition demo_leaf (l : X86CpuidLeaves) : Z := match l with Leaf01ECX => 0 | Leaf01EDX => 1 | Leaf07_00EBX => 2 | Leaf07_00ECX => 3 | Leaf07_00EDX => 4 | _ => 5 end.
Definition granting : Kernel := {| req_xcomp_perm := fun _ => true; get_xcomp_supp := None |}.
Definition refusing : Kernel := {| req_xcomp_perm := fun _ => false; get_xcomp_supp := None |}.
Definition demo_detect (xgetbv : Z) (k : Kernel) : outcome Z := detect_cpu demo_leaf [28; 4 * 32 + 24] 1 0 2 demo_cpuid xgetbv k.

(** Both features are found; without the AMX feature in the table, XCR0 is what counts. *)
Lemma features_are_usable_witness :
  defined (demo_detect 0x60007 granting) /\ req_xcomp_perm granting 18 = true /\
  (covers 7 XSave_AvxState \/ (has 1 0 = true /\ permitted refusing (wanted_states 1 0 0 1))).
Proof.
  destruct (features_are_usable demo_leaf [28; 4 * 32 + 24] 1 0 2 demo_cpuid 0x60007 granting) as [Hd H]. split; [by apply Hd|].
  specialize (H 3 ltac:(vm_compute; reflexivity)) as (_ & _ & Hamx & _). split; [by apply Hamx|].
  destruct (features_are_usable demo_leaf [28] 1 0 0 demo_cpuid 7 refusing) as [_ H'].
  specialize (H' 1 ltac:(vm_compute; reflexivity)) as (_ & _ & _ & Havx & _). by apply Havx.
Defined.

(** Without the permission the AMX feature is dropped; without the AVX state the
    program ends, unless the permission was granted. *)
Example amx_degrades : demo_detect 0x60007 refusing = Ret 1.
Proof. by vm_compute. Qed.
Example no_avx_state_ends : demo_detect 1 granting = Ret 3 /\ demo_detect 1 refusing = Exit EX_CONFIG.
Proof. by vm_compute. Qed.

(** A kernel that supports none of the states that are wanted: the highest bit of
    zero is asked for. *)
Example nothing_supported : adjusted_xcr0 {| req_xcomp_perm := fun _ => false; get_xcomp_supp := Some 1 |} 0 XSave_AmxState = Ub.
Proof. done. Qed.

(** * The fallback program *)

(** Only a program of the user, of root or of the owner of the running program is
    executed in its place. *)
Lemma fallback_owner fallback execfn open_path owner self uid p : fallback_exec fallback execfn open_path owner self uid = Ret (Some p) ->
  owner p = Some 0 \/ owner p = Some uid \/ (exists s, self = Some s /\ owner p = Some s).
Proof.
  unfold fallback_exec. intros H. destruct execfn as [execfn|]; [|done]. apply outcome_bind_ret in H as ([path|] & _ & H); [|done]. injection H as H.
  destruct (open_path path); [|done]. cbn [andb] in H. destruct (may_execute (owner path) self uid) eqn:E; [|done]. injection H as ->. unfold may_execute in E.
  destruct (owner p) as [w|]; [|done]. destruct (w =? 0) eqn:E0; [left; f_equal; by apply Z.eqb_eq|]. destruct (w =? uid) eqn:E1; [right; left; f_equal; by apply Z.eqb_eq|].
  cbn [orb] in E.
  destruct self as [s|]; [|done]. apply Z.eqb_eq in E as ->. right. right. by exists s.
Qed.

(** A path whose last slash leaves just the length of the fallback's name: the
    terminator is written behind the buffer. *)
Example fallback_overflow : fallback_path (L "x") ("/"%char :: replicate (Z.to_nat 4092) "d"%char ++ L "/p") = Ret (Some ("/"%char :: replicate (Z.to_nat 4092) "d"%char ++ L "/x")) /\
  fallback_path (L "x") ("/"%char :: replicate (Z.to_nat 4093) "d"%char ++ L "/") = Ub.
Proof. by vm_compute. Qed.
