(* ===== verification/TestUtils.v ===== *)
(** Helpers for tests (src/framework/sandstone_test_utils.h): blocks of memory for
    generated code, and picking a value by weights. *)

From S2P Require Import Prelude SlicePlan.

(** * ManagedCodeBuffer *)

Module CodeBuffer.

(** The object: [None] is MAP_FAILED. [held] are the blocks of the process that came
    from mmap() and were not given back, [unmapped] the calls of munmap(). *)
Record buffer := { buffer_ptr : option Z; buffer_size : Z; held : list Z; unmapped : list (Z * Z) }.

Definition new_buffer : buffer := {| buffer_ptr := None; buffer_size := 0; held := []; unmapped := [] |}.

Definition is_valid (b : buffer) : bool := match buffer_ptr b with Some _ => true | None => false end.

Definition free_code_buffer (b : buffer) : buffer :=
  match buffer_ptr b with
  | None => b
  | Some p => {| buffer_ptr := Some 0; buffer_size := buffer_size b; held := filter (fun q => q <> p) (held b); unmapped := unmapped b ++ [(p, buffer_size b)] |}
  end.

(** allocate(), allocate_at() and allocate_near() differ in the request; [map] is
    what mmap() returns. *)
Definition allocate_with (map : option Z) (size : Z) (b : buffer) : bool * buffer :=
  let b := free_code_buffer b in
  let b := {| buffer_ptr := map; buffer_size := match map with Some _ => size | None => 0 end;
              held := match map with Some p => p :: held b | None => held b end; unmapped := unmapped b |} in
  (is_valid b, b).

(** The size that allocate() asks for. *)
Definition allocate_request (size : Z) : Z := ROUND_UP_TO_PAGE 64 size.
Definition allocate (mmap : Z -> option Z) (size : Z) : buffer -> bool * buffer := allocate_with (mmap (allocate_request size)) size.
Definition allocate_at (mmap_at : Z -> Z -> option Z) (at_address size : Z) : buffer -> bool * buffer := allocate_with (mmap_at at_address size) size.
Definition allocate_near (mmap_near : Z -> Z -> option Z) (at_address size : Z) : buffer -> bool * buffer := allocate_with (mmap_near at_address size) size.

(** A use of the object, up to its destructor. *)
Inductive op := Allocate (map : option Z) (size : Z) | Free.
Definition apply_op (b : buffer) (o : op) : buffer :=
  match o with Allocate map size => (allocate_with map size b).2 | Free => free_code_buffer b end.
Definition lifetime (ops : list op) : buffer := free_code_buffer (foldl apply_op new_buffer ops).

(** The process holds at most the block of the object. *)
Definition owned (b : buffer) : Prop := Forall (fun q => buffer_ptr b = Some q) (held b).

Lemma free_owned b : owned b -> held (free_code_buffer b) = [].
Proof.
  unfold owned, free_code_buffer. destruct (buffer_ptr b) as [p|].
  - intros H. cbn [held]. induction H as [|q l [= ->] H IH]; [done|]. by rewrite filter_cons_False by tauto.
  - intros H. destruct (held b) as [|q l]; [done|]. by apply Forall_cons in H as [H _].
Qed.

Lemma op_owned b o : owned b -> owned (apply_op b o).
Proof.
  intros H. pose proof (free_owned b H) as Hf. destruct o as [map size|]; unfold apply_op, allocate_with; cbn [snd]; unfold owned.
  - cbn [held buffer_ptr]. rewrite Hf. destruct map; by repeat constructor.
  - by rewrite Hf.
Qed.

(** No block of memory is lost: whatever is done with an object, after its destructor
    all blocks were given back. *)
Theorem no_block_lost ops : held (lifetime ops) = [].
Proof.
  unfold lifetime. apply free_owned. assert (forall b, owned b -> owned (foldl apply_op b ops)) as H.
  { induction ops as [|o ops IH]; intros b Hb; [done|]. apply IH. by apply op_owned. }
  apply H. constructor.
Qed.

(** After free_code_buffer() the object still counts as valid: the destructor unmaps
    the memory from address 0 on. *)
Example freed_is_valid :
  let b := foldl apply_op new_buffer [Allocate (Some 0x7000) 100; Free] in
  is_valid b = true /\ unmapped (free_code_buffer b) = [(0x7000, 100); (0, 100)].
Proof. done. Qed.

(** A block of 4 GB: no page is asked for. *)
Example large_allocation_wraps : allocate_request (2 ^ 32) = 0.
Proof. done. Qed.
End CodeBuffer.

(** * WeightedPicker *)

Module Picker.

Section Pick.
Context {T : Type} (weights : list (T * Z)).

(** prepare_picker() *)
Definition sum_of_weights : Z := foldl (fun s (w : T * Z) => u64 (s + w.2)) 0 weights.

(** rand_from(): [rand] is what rand() returns. *)
Definition rand_from (rand low high : Z) : outcome Z :=
  let n := u32 (high - low + 1) in
  if n =? 0 then Ub else Ret (u32 (u32 rand mod n + low)).

(** The loop of pick(). *)
Fixpoint pick_from (l : list (T * Z)) (count target_count : Z) : option T :=
  match l with
  | [] => None
  | (x, w) :: l => let count := u64 (count + w) in if target_count <? count then Some x else pick_from l count target_count
  end.

Definition pick (rand : Z) : outcome T :=
  target_count ← rand_from rand 0 (u32 (sum_of_weights - 1));
  match pick_from weights 0 target_count with
  | Some x => Ret x
  | None => fst <$> of_option (head weights)
  end.

End Pick.

Definition total {T} (l : list (T * Z)) : Z := foldr (fun w s => w.2 + s) 0 l.
Definition weights_ok {T} (l : list (T * Z)) : Prop := Forall (fun w => 0 <= w.2) l /\ total l < 2 ^ 32.

Section Facts.
Context {T : Type}.
Implicit Types l : list (T * Z).

Lemma weights_total_nonneg l : Forall (fun w => 0 <= w.2) l -> 0 <= total l.
Proof using Type. induction 1; simpl; lia. Qed.

Lemma sum_total l : forall s, 0 <= s -> Forall (fun w => 0 <= w.2) l -> s + total l < 2 ^ 32 -> foldl (fun s (w : T * Z) => u64 (s + w.2)) s l = s + total l.
Proof using Type.
  induction l as [|w l IH]; intros s Hs Hw Ht; simpl; [lia|]. apply Forall_cons in Hw as [Hw Hl]. simpl in Ht. pose proof (weights_total_nonneg l Hl).
  rewrite wrap_u_small by (unfold in_u; lia). rewrite IH by (done || lia). lia.
Qed.

Lemma pick_from_spec l : forall count target, 0 <= count <= target -> Forall (fun w => 0 <= w.2) l -> count + total l < 2 ^ 32 -> target < count + total l ->
  exists i x w, l !! i = Some (x, w) /\ pick_from l count target = Some x /\ count + total (take i l) <= target < count + total (take i l) + w.
Proof using Type.
  induction l as [|[x w] l IH]; intros count target Hc Hw Hmax Ht; simpl in *; [lia|]. apply Forall_cons in Hw as [Hw Hl]. simpl in Hw. pose proof (weights_total_nonneg l Hl).
  rewrite wrap_u_small by (unfold in_u; lia). destruct (Z.ltb_spec target (count + w)).
  - exists 0%nat, x, w. simpl. split; [done|]. split; [done|lia].
  - destruct (IH (count + w) target) as (i & x' & w' & Hi & Hp & Hb); [lia|done|lia|lia|]. exists (S i), x', w'. simpl. split; [done|]. split; [done|lia].
Qed.

(** Picking by weights: with weights that add up to a positive 32-bit number, every
    value of rand() picks an element in whose part of the sum its remainder falls: an
    element of weight w is picked by exactly w of the remainders, one of weight 0
    never. *)
Theorem picked_by_weight l rand : weights_ok l -> 0 < total l -> 0 <= rand < 2 ^ 31 ->
  exists i x w, l !! i = Some (x, w) /\ pick l rand = Ret x /\ total (take i l) <= rand mod total l < total (take i l) + w.
Proof using Type.
  intros [Hw Hmax] Hpos Hr. unfold pick, sum_of_weights. rewrite sum_total, Z.add_0_l by (done || lia). unfold rand_from.
  rewrite (wrap_u_small 32 (total l - 1)) by (unfold in_u; lia). replace (total l - 1 - 0 + 1) with (total l) by lia. rewrite (wrap_u_small 32 (total l)) by (unfold in_u; lia).
  rewrite (proj2 (Z.eqb_neq _ 0)) by lia. rewrite (wrap_u_small 32 rand) by (unfold in_u; lia). pose proof (Z.mod_pos_bound rand (total l) Hpos).
  rewrite Z.add_0_r, wrap_u_small by (unfold in_u; lia). cbn [mbind outcome_bind].
  destruct (pick_from_spec l 0 (rand mod total l)) as (i & x & w & Hi & -> & Hb); [lia|done|lia|lia|]. exists i, x, w. auto.
Qed.
End Facts.

Lemma picked_by_weight_witness : exists i x w, [("a"%char, 1); ("b"%char, 5); ("c"%char, 0)] !! i = Some (x, w) /\
  pick [("a"%char, 1); ("b"%char, 5); ("c"%char, 0)] 100 = Ret x /\ total (take i [("a"%char, 1); ("b"%char, 5); ("c"%char, 0)]) <= 4 < total (take i [("a"%char, 1); ("b"%char, 5); ("c"%char, 0)]) + w.
Proof. apply (picked_by_weight [("a"%char, 1); ("b"%char, 5); ("c"%char, 0)] 100); [|done|done]. split; [by repeat constructor|done]. Defined.

(** Weights that are all zero: a division by zero, before the value that is meant for
    this case. *)
Example all_zero_weights : pick [("a"%char, 0)] 100 = Ub.
Proof. done. Qed.
(** Weights that add up to 2^32, or to more than rand() can return. *)
Example wrapped_weights : pick [("a"%char, 2 ^ 31); ("b"%char, 2 ^ 31)] 100 = Ub /\
  pick [("a"%char, 2 ^ 31); ("b"%char, 2 ^ 31 - 1)] (2 ^ 31 - 1) = Ret "a"%char.
Proof. done. Qed.
End Picker.
