(* ===== verification/Program.v ===== *)
(** The main program around the loop over the tests (main() and the functions that
    list tests, src/framework/sandstone.cpp): which tests are run, and what
    --list-tests and --list-group-members print. *)

From S2P Require Import Prelude CStdlib Results Timing Runner Logging ContextDump TestSet CpuFeatures.

(** What the command line says about tests: names and lists, with the lines of the
    file and the tests of the built-in list. *)
Record TestOpts := {
  enabled_tests : list str; disabled_tests : list str; test_list : option (list str); builtin_test_list : option (option (list nat));
}.

Section Program.
Context (tests : list test_def) (regular_tests selftests : list nat) (mce_test : nat).
Context (cfg : test_set_cfg) (requested_quality : Z) (fnmatch : str -> str -> bool) (restricted : bool).
Local Abbreviation add_name := (add_name tests requested_quality fnmatch).
Local Abbreviation remove_name := (remove_name tests requested_quality fnmatch).
Local Abbreviation lookup_tests := (lookup_tests tests requested_quality fnmatch).

(** ** The tests to run *)

Definition enable_name (s : SandstoneTestSet) (name : str) : outcome SandstoneTestSet :=
  let '(s, tis) := add_name name s in
  match tis with
  | [] => if ignore_unknown_tests cfg then Ret s else Exit EX_USAGE
  | _ => Ret s
  end.

Definition load_list (lines : option (list str)) (s : SandstoneTestSet) : outcome SandstoneTestSet :=
  match lines with
  | None => Ret s
  | Some lines =>
      r ← add_test_list tests cfg requested_quality fnmatch lines [] s;
      let '(s, _, errors) := r in
      match errors with [] => Ret s | _ => Exit EX_USAGE end
  end.

Definition load_builtin (list_name : option (option (list nat))) (s : SandstoneTestSet) : outcome SandstoneTestSet :=
  match list_name with
  | None => Ret s
  | Some builtin => let '(s, _, found) := add_builtin_test_list builtin s in if found then Ret s else Exit EX_USAGE
  end.

(** main(), from the construction of the test set to the removal of the disabled
    tests *)
Definition assemble_tests (opts : TestOpts) (ignore_mce_errors : bool) : outcome SandstoneTestSet :=
  let chosen := match enabled_tests opts, builtin_test_list opts, test_list opts with [], None, None => false | _, _, _ => true end in
  let s := make_test_set tests regular_tests selftests mce_test cfg requested_quality restricted (negb chosen) in
  s ← fold_outcome enable_name (enabled_tests opts) s;
  s ← load_list (test_list opts) s;
  s ← load_builtin (builtin_test_list opts) s;
  let s := if ignore_mce_errors then s else (add_info (cfg_of (Some mce_test)) s).1 in
  Ret (foldl (fun s name => (remove_name name s).1) s (disabled_tests opts)).

(** The machine check test is removed when it cannot work: [counts] are the interrupt
    counts at the start. *)
Definition setup_mce_check (monitor_works exec_each_test : bool) (counts : list Z) (s : SandstoneTestSet) : SandstoneTestSet :=
  if monitor_works && contains mce_test s && (exec_each_test || match counts with [] => true | _ => false end)
  then (remove_test mce_test s).1 else s.

(** ** Listing *)

(** The order of std::map<std::string_view, ...>: characters compare as unsigned. *)
Fixpoint str_ltb (a b : str) : bool :=
  match a, b with
  | _, [] => false
  | [], _ :: _ => true
  | x :: a, y :: b => if code x <? code y then true else if code y <? code x then false else str_ltb a b
  end.

(** groups[id].entries.push_back(test) *)
Fixpoint push_entry (id : str) (t : nat) (groups : list (str * list nat)) : list (str * list nat) :=
  match groups with
  | [] => [(id, [t])]
  | (g, l) :: rest =>
      if str_eqb g id then (g, l ++ [t]) :: rest
      else if str_ltb id g then (id, [t]) :: groups
      else (g, l) :: push_entry id t rest
  end.

(** collate_test_groups() for the tests of the set, in its order *)
Definition collate_test_groups (ts : list nat) : list (str * list nat) :=
  foldl (fun groups t => foldl (fun groups id => push_entry id t groups) groups (groups_of tests t)) [] ts.

(** list_group_members(): what is printed *)
Definition list_group_members (ts : list nat) (groupname : str) : outcome str :=
  match groupname with
  | c :: name =>
      if char_eqb c "@" then
        match List.find (fun g : str * list nat => str_eqb g.1 name) (collate_test_groups ts) with
        | Some g => Ret (concat ((fun t => id_of tests t ++ nl) <$> g.2))
        | None => Exit EX_USAGE
        end
      else Exit EX_USAGE
  | [] => Exit EX_USAGE
  end.

(** The other fields of struct test that are printed. *)
Context (description : nat -> str) (group_description : str -> str) (compiler_minimum_cpu minimum_cpu : nat -> Z) (feature_names : list str) (compilerCpuFeatures : Z).
Definition quoted (s : str) : str := ["034"%char] ++ s ++ ["034"%char].
Definition listed (t : nat) : bool := requested_quality <=? quality_of tests t.

Definition list_line (descriptions : bool) (verbosity : Z) (i : nat) (t : nat) : str :=
  if descriptions then to_string (Z.of_nat (S i)) ++ L " " ++ pad_right 20 (id_of tests t) ++ L " " ++ quoted (description t) ++ nl
  else if 0 <? verbosity then
    pad_right 20 (id_of tests t) ++ L " " ++
      cpu_features_to_string feature_names (Z.lor (Z.ldiff (compiler_minimum_cpu t) compilerCpuFeatures) (minimum_cpu t)) ++ nl
  else id_of tests t ++ nl.

Definition group_lines (descriptions : bool) (g : str * list nat) : str :=
  if descriptions then L "@" ++ pad_right 21 g.1 ++ L " " ++ quoted (group_description g.1) ++ nl ++
    concat ((fun t => if listed t then L "  " ++ id_of tests t ++ nl else []) <$> g.2)
  else L "@" ++ g.1 ++ nl.

(** list_tests() *)
Definition list_tests (include_tests include_groups descriptions : bool) (verbosity : Z) (ts : list nat) : str :=
  let groups := collate_test_groups ts in
  (if include_tests then concat (imap (list_line descriptions verbosity) (filter (fun t => listed t = true) ts)) else []) ++
  (if include_groups && negb (match groups with [] => true | _ => false end)
   then (if descriptions then nl ++ L "Groups:" ++ nl else []) ++ concat (group_lines descriptions <$> groups) else []).
End Program.

(** * Facts *)

Section Facts.
Context (tests : list test_def) (regular_tests selftests : list nat) (mce_test : nat).
Context (cfg : test_set_cfg) (requested_quality : Z) (fnmatch : str -> str -> bool) (restricted : bool).
Local Abbreviation add_name := (add_name tests requested_quality fnmatch).
Local Abbreviation remove_name := (remove_name tests requested_quality fnmatch).
Local Abbreviation lookup_tests := (lookup_tests tests requested_quality fnmatch).
Local Abbreviation assemble := (assemble_tests tests regular_tests selftests mce_test cfg requested_quality fnmatch restricted).

(** Entries were added at the end. *)
Definition extends (s s' : SandstoneTestSet) : Prop := exists l, s' = set_test_set (test_set s ++ l) s.
#[local] Instance extends_preorder : PreOrder extends.
Proof using Type.
  split; [intros s; exists []; rewrite app_nil_r; by destruct s|]. intros a b c [l ->] [l' ->]. exists (l ++ l'). unfold set_test_set. simpl. by rewrite app_assoc.
Qed.

Lemma lookup_set l s name : lookup_tests (set_test_set l s) name = lookup_tests s name.
Proof using Type. by destruct name. Qed.
Lemma lookup_extends s s' name : extends s s' -> lookup_tests s' name = lookup_tests s name.
Proof using Type. intros [l ->]. apply lookup_set. Qed.
Lemma contains_extends s s' t : extends s s' -> contains t s = true -> contains t s' = true.
Proof using Type. intros [l ->] H. unfold contains in *. cbn [test_set set_test_set]. by rewrite existsb_app, H. Qed.

Lemma enable_name_spec s name s' : enable_name tests cfg requested_quality fnmatch s name = Ret s' ->
  extends s s' /\ forall t, t ∈ lookup_tests s name -> contains t s' = true.
Proof using Type.
  unfold enable_name. destruct (add_remove_spec tests requested_quality fnmatch name s) as (Ha & _ & _ & _ & Hc). rewrite Ha. intros H.
  assert (s' = (add_name name s).1) as -> by (rewrite Ha; destruct (map _ _); [destruct (ignore_unknown_tests cfg); [|done]|]; by injection H).
  split; [rewrite Ha; by eexists|]. intros t Ht. by apply Hc.
Qed.

Lemma enable_names_spec names : forall s s', fold_outcome (enable_name tests cfg requested_quality fnmatch) names s = Ret s' ->
  extends s s' /\ forall name t, name ∈ names -> t ∈ lookup_tests s name -> contains t s' = true.
Proof using Type.
  induction names as [|n names IH]; intros s s' H; cbn [fold_outcome] in H.
  - injection H as <-. split; [reflexivity|]. intros name t Hn. by apply not_elem_of_nil in Hn.
  - apply outcome_bind_ret in H as (s1 & H1 & H). apply enable_name_spec in H1 as [E1 C1]. apply IH in H as [E2 C2]. split; [by transitivity s1|].
    intros name t Hn Ht. apply elem_of_cons in Hn as [->|Hn]; [by eapply contains_extends, C1|]. apply (C2 name); [done|]. by rewrite (lookup_extends s).
Qed.

Lemma load_list_extends lines s s' : load_list tests cfg requested_quality fnmatch lines s = Ret s' -> extends s s'.
Proof using Type.
  unfold load_list, add_test_list. destruct lines as [lines|]; [|by intros [= <-]]. intros H. apply outcome_bind_ret in H as ([[s1 e] errors] & H1 & H).
  apply outcome_bind_ret in H1 as ([entries added] & _ & H1). destruct ([] ++ added); injection H1 as <- <- <-; [|done]. injection H as <-. by eexists.
Qed.

Lemma builtin_loop_extends ts : forall s res, extends s (foldl (fun st t => let '(s, ti) := add_info (cfg_of (Some t)) st.1 in
  (set_test_set (test_set s ++ [cfg_of (Some t)]) s, st.2 ++ [ti])) (s, res) ts).1.
Proof using Type.
  induction ts as [|t ts IH]; intros s res; [reflexivity|]. cbn [foldl fst snd add_info]. etransitivity; [|apply IH].
  exists [enabled_info t; cfg_of (Some t)]. unfold set_test_set. simpl. by rewrite <- app_assoc.
Qed.

Lemma load_builtin_extends b s s' : load_builtin b s = Ret s' -> extends s s'.
Proof using Type.
  unfold load_builtin, add_builtin_test_list. destruct b as [[ts|]|]; [|done|by intros [= <-]]. pose proof (builtin_loop_extends ts s []) as H.
  destruct (foldl _ _ ts) as [s1 res]. by intros [= <-].
Qed.

(** The tests that no disabled name stands for. *)
Definition kept_entry (s : SandstoneTestSet) (names : list str) (ti : test_cfg_info) : Prop := Forall (fun d => ti_test ti ∉ map Some (lookup_tests s d)) names.
#[local] Instance kept_entry_dec s names ti : Decision (kept_entry s names ti).
Proof using Type. apply Forall_dec. intros d. apply _. Defined.

Lemma remove_names_spec names : forall s, foldl (fun s name => (remove_name name s).1) s names = set_test_set (filter (kept_entry s names) (test_set s)) s.
Proof using Type.
  induction names as [|n names IH]; intros s; cbn [foldl].
  - assert (filter (kept_entry s []) (test_set s) = test_set s) as -> by (apply filter_all, Forall_forall; intros; constructor). by destruct s.
  - rewrite IH, remove_name_spec. unfold set_test_set. cbn [fst test_set all_tests all_group_map]. f_equal. rewrite list_filter_filter. apply list_filter_iff. intros ti.
    unfold kept_entry. rewrite Forall_cons. setoid_rewrite lookup_set. tauto.
Qed.

Lemma contains_In t s : contains t s = true <-> exists ti, ti ∈ test_set s /\ ti_test ti = Some t.
Proof using Type.
  unfold contains. rewrite existsb_exists. split; intros (ti & Hin & H); exists ti.
  - apply list_elem_of_In in Hin. by apply bool_decide_eq_true in H.
  - split; [by apply list_elem_of_In|by apply bool_decide_eq_true].
Qed.

Local Abbreviation catalogue := (load_all_tests tests regular_tests selftests mce_test cfg restricted).

Lemma kept_of_test s names ti t : ti_test ti = Some t -> (forall d, d ∈ names -> t ∉ lookup_tests s d) -> kept_entry s names ti.
Proof using Type.
  intros E H. apply Forall_forall. intros d Hd Hin. rewrite E in Hin. apply list_elem_of_fmap in Hin as (t' & [= <-] & Ht). by apply (H d).
Qed.

(** The set before the machine check test is looked at. *)
Lemma assembled opts ignore_mce_errors s : assemble opts ignore_mce_errors = Ret s ->
  let stands_for name := lookup_tests catalogue name in
  (forall d t, d ∈ disabled_tests opts -> t ∈ stands_for d -> contains t s = false) /\
  (forall name t, name ∈ enabled_tests opts -> t ∈ stands_for name -> (forall d, d ∈ disabled_tests opts -> t ∉ stands_for d) -> contains t s = true) /\
  (ignore_mce_errors = false -> (forall d, d ∈ disabled_tests opts -> mce_test ∉ stands_for d) ->
   exists l, test_set s = l ++ [enabled_info mce_test]).
Proof using Type.
  intros H stands_for. unfold assemble_tests in H. set (s0 := make_test_set _ _ _ _ _ _ _ _) in H.
  apply outcome_bind_ret in H as (s1 & H1 & H). apply outcome_bind_ret in H as (s2 & H2 & H). apply outcome_bind_ret in H as (s3 & H3 & H).
  set (s4 := if ignore_mce_errors then s3 else (add_info (cfg_of (Some mce_test)) s3).1) in H. injection H as <-.
  apply enable_names_spec in H1 as [E1 C1]. apply load_list_extends in H2. apply load_builtin_extends in H3.
  assert (extends s1 s4) as E4. { transitivity s2; [done|]. transitivity s3; [done|]. unfold s4. destruct ignore_mce_errors; [reflexivity|by eexists]. }
  assert (forall name, lookup_tests s0 name = stands_for name) as L0 by (intros name; unfold s0, make_test_set; destruct (negb (negb _)); [done|apply lookup_set]).
  assert (forall name, lookup_tests s4 name = stands_for name) as L4 by (intros name; rewrite <- L0; apply lookup_extends; by transitivity s1).
  rewrite remove_names_spec. split; [|split].
  - intros d t Hd Ht. apply not_true_is_false. intros Hc. apply contains_In in Hc as (ti & Hin & E). cbn [test_set set_test_set] in Hin.
    apply list_elem_of_filter in Hin as [Hk _]. unfold kept_entry in Hk. rewrite Forall_forall in Hk. apply (Hk d Hd). rewrite E, L4. by apply list_elem_of_fmap_2.
  - intros name t Hn Ht Hno. assert (contains t s4 = true) as Hc by (eapply contains_extends; [exact E4|]; apply (C1 name); [done|by rewrite L0]).
    apply contains_In in Hc as (ti & Hin & E). apply contains_In. exists ti. split; [|done]. cbn [test_set set_test_set]. apply list_elem_of_filter. split; [|done].
    apply (kept_of_test s4 _ ti t E). intros d Hd. rewrite L4. by apply Hno.
  - intros Hi Hno. cbn [test_set set_test_set]. assert (test_set s4 = test_set s3 ++ [enabled_info mce_test]) as -> by (unfold s4; by rewrite Hi).
    rewrite filter_app. eexists. f_equal. rewrite filter_cons_True; [done|]. apply (kept_of_test s4 _ (enabled_info mce_test) mce_test eq_refl). intros d Hd. rewrite L4. by apply Hno.
Qed.

(** Machine checks can be watched, or the monitor leaves the test alone. *)
Definition mce_check_possible (monitor_works exec_each_test : bool) (counts : list Z) : bool :=
  negb monitor_works || (negb exec_each_test && match counts with [] => false | _ => true end).

Lemma setup_mce_check_spec works exec counts s :
  let s' := setup_mce_check mce_test works exec counts s in
  (forall t, contains t s' = contains t s && (negb (bool_decide (t = mce_test)) || mce_check_possible works exec counts)) /\
  (mce_check_possible works exec counts = true -> s' = s).
Proof using Type.
  intros s'. unfold s', setup_mce_check, mce_check_possible. destruct works; cbn [negb andb orb]; [|split; [intros t; by rewrite orb_true_r, andb_true_r|done]].
  destruct (contains mce_test s) eqn:Ec; cbn [andb].
  2: { split; [|done]. intros t. case_bool_decide as Ht; [subst; by rewrite Ec|by rewrite andb_true_r]. }
  destruct (exec || _) eqn:E.
  - assert (negb exec && match counts with [] => false | _ => true end = false) as -> by (destruct exec, counts; done).
    split; [|done]. intros t. rewrite orb_false_r. apply eq_true_iff_eq. rewrite andb_true_iff, negb_true_iff, bool_decide_eq_false, !contains_In.
    unfold remove_test. cbn [fst test_set set_test_set]. split.
    + intros (ti & [Hne Hin]%list_elem_of_filter & Ht). split; [by exists ti|]. intros ->. by apply Hne.
    + intros [(ti & Hin & Ht) Hne]. exists ti. split; [|done]. apply list_elem_of_filter. split; [|done]. congruence.
  - assert (negb exec && match counts with [] => false | _ => true end = true) as -> by (destruct exec, counts; done).
    split; [|done]. intros t. by rewrite orb_true_r, andb_true_r.
Qed.

(** The list that the loop of main() goes over; [test_of] is the structure that a
    pointer of the set points to. *)
Context (test_of : option nat -> test) (Hquality : forall t, quality_level (test_of (Some t)) = quality_of tests t).
Definition session_tests (s : SandstoneTestSet) : list test := (fun ti => test_of (ti_test ti)) <$> test_set s.

(** The test set holds [t] at one of the positions. *)
Definition runs_at (s : SandstoneTestSet) (t : nat) (positions : list nat) : Prop :=
  exists i ti, i ∈ positions /\ test_set s !! i = Some ti /\ ti_test ti = Some t.

Lemma pass_runs m env s fuel t : main_quality m = requested_quality ->
  (forall k, strict_expired_at env k = false) -> (forall k, start_next_iteration env k = false) -> (length (test_set s) <= fuel)%nat ->
  runs_at s t (pass m env (session_tests s) fuel 0 (get_first_test m (session_tests s))) <->
  contains t s = true /\ (quality_of tests t < 0 -> requested_quality < 0).
Proof using Hquality.
  intros Hm Hs Hn Hf. unfold get_first_test.
  rewrite (pass_visits m env (session_tests s) [] (session_tests s) eq_refl) by (try done; unfold session_tests; by rewrite length_fmap).
  assert (forall i ti, test_set s !! i = Some ti -> ti_test ti = Some t ->
    visited m (session_tests s) i <-> (quality_of tests t < 0 -> requested_quality < 0)) as Hv.
  { intros i ti Hi Ht. unfold visited, session_tests. rewrite list_lookup_fmap, Hi. cbn [fmap option_fmap option_map from_option].
    rewrite Ht, Hquality, Hm. destruct (Z.ltb_spec (quality_of tests t) 0), (Z.leb_spec 0 requested_quality); simpl; naive_solver lia. }
  rewrite contains_In. split.
  - intros (i & ti & [Hvis _]%list_elem_of_filter & Hi & Ht). split; [exists ti; split; [by eapply list_elem_of_lookup_2|done]|]. by apply (Hv i ti).
  - intros [(ti & [i Hi]%list_elem_of_lookup & Ht) Hq]. exists i, ti. split; [|done]. apply list_elem_of_filter. split; [by apply (Hv i ti)|].
    apply elem_of_seq. apply lookup_lt_Some in Hi. unfold session_tests. rewrite length_fmap. simpl. lia.
Qed.

End Facts.

(** A group and a test, less one test of the group. *)
Definition demo_opts : TestOpts := {| enabled_tests := [L "@compression"; L "eigen_svd"]; disabled_tests := [L "zlib"]; test_list := None; builtin_test_list := None |}.
Definition demo_assemble : TestOpts -> bool -> outcome SandstoneTestSet := assemble_tests ex_tests [0; 1; 2]%nat [] 3 ex_cfg 1 no_glob false.

(** The quality of a test is all that matters for the pass. *)
Definition demo_test (t : option nat) : test :=
  {| id := []; groups := []; flags := 0; desired_duration := 0; fracture_loop_count := 0; minimum_duration := 0; maximum_duration := 0;
     quality_level := quality_of ex_tests (default O t); minimum_cpu := 0; compiler_minimum_cpu := 0 |}.
Definition demo_main : MainCfg := {| fatal_errors := false; main_fatal_skips := false; max_test_count := 9; main_quality := 1 |}.
Definition demo_session : Session :=
  {| wait_ok := fun _ => true; test_verdict := fun _ => Ret Passed; strict_expired_at := fun _ => false; start_next_iteration := fun _ => false |}.


(** ** The groups that are listed *)

Lemma code_inj x y : code x = code y -> x = y.
Proof. intros H. by rewrite <- (char_of_code x), H, char_of_code. Qed.

Lemma str_ltb_irrefl a : str_ltb a a = false.
Proof. induction a as [|x a IH]; [done|]. cbn [str_ltb]. by rewrite Z.ltb_irrefl. Qed.

Lemma str_ltb_trans a : forall b c, str_ltb a b = true -> str_ltb b c = true -> str_ltb a c = true.
Proof.
  induction a as [|x a IH]; intros [|y b] [|z c]; try done. cbn [str_ltb].
  destruct (Z.ltb_spec (code x) (code y)), (Z.ltb_spec (code y) (code x)), (Z.ltb_spec (code y) (code z)), (Z.ltb_spec (code z) (code y)),
    (Z.ltb_spec (code x) (code z)), (Z.ltb_spec (code z) (code x)); try done; try lia. apply IH.
Qed.

Lemma str_ltb_total a : forall b, a <> b -> str_ltb a b = false -> str_ltb b a = true.
Proof.
  induction a as [|x a IH]; intros [|y b] Hn; try done. cbn [str_ltb].
  destruct (Z.ltb_spec (code x) (code y)), (Z.ltb_spec (code y) (code x)); try done. intros H1.
  assert (x = y) as -> by (apply code_inj; lia). apply IH; [congruence|done].
Qed.

(** A std::map: the keys are in order, and here no group is empty. *)
Definition key_lt (a b : str * list nat) : Prop := str_ltb a.1 b.1 = true.
Definition groups_ok (groups : list (str * list nat)) : Prop := StronglySorted key_lt groups /\ Forall (fun g => g.2 <> []) groups.
Definition members_in (name : str) (groups : list (str * list nat)) : list nat :=
  match List.find (fun g : str * list nat => str_eqb g.1 name) groups with Some g => g.2 | None => [] end.

Lemma push_entry_lower id t g groups : key_lt g (id, []) -> Forall (key_lt g) groups -> Forall (key_lt g) (push_entry id t groups).
Proof.
  intros Hg. induction groups as [|[h l] groups IH]; intros H; [by constructor|]. apply Forall_cons in H as [Hh H]. cbn [push_entry].
  destruct (str_eqb h id); [by constructor|]. destruct (str_ltb id h); constructor; auto.
Qed.

Lemma push_entry_ok id t groups : groups_ok groups -> groups_ok (push_entry id t groups).
Proof.
  unfold groups_ok. induction groups as [|[g l] groups IH]; intros [Hs Hf]; [by repeat constructor|].
  apply StronglySorted_inv in Hs as [Hs Hg]. apply Forall_cons in Hf as [Hl Hf]. cbn [push_entry].
  destruct (str_eqb g id) eqn:E; [split; constructor; try done; by destruct l|]. apply bool_decide_eq_false in E. destruct (str_ltb id g) eqn:El.
  - split; [|by repeat constructor]. constructor; [by constructor|]. constructor; [done|]. eapply Forall_impl; [exact Hg|]. intros h. by apply str_ltb_trans.
  - destruct IH as [Is If]; [done|]. split; constructor; try done. apply push_entry_lower; [|done]. by apply str_ltb_total in El; [|congruence].
Qed.

Lemma members_above name groups : Forall (fun g => str_ltb name g.1 = true) groups -> members_in name groups = [].
Proof.
  intros H. unfold members_in. destruct (List.find _ groups) as [g|] eqn:E; [|done]. apply find_some in E as [Hin E]. apply bool_decide_eq_true in E.
  rewrite Forall_forall in H. specialize (H g (proj2 (list_elem_of_In _ _) Hin)). by rewrite E, str_ltb_irrefl in H.
Qed.

Lemma members_push name id t groups : groups_ok groups ->
  members_in name (push_entry id t groups) = members_in name groups ++ (if str_eqb id name then [t] else []).
Proof.
  induction groups as [|[g l] groups IH]; intros [Hs Hf].
  - unfold members_in. cbn [push_entry List.find fst snd]. by destruct (str_eqb id name).
  - apply StronglySorted_inv in Hs as [Hs Hg]. apply Forall_cons in Hf as [Hl Hf]. cbn [push_entry]. destruct (str_eqb g id) eqn:E.
    + apply bool_decide_eq_true in E as ->. unfold members_in. cbn [List.find fst snd]. destruct (str_eqb id name); [done|by rewrite app_nil_r].
    + destruct (str_ltb id g) eqn:El.
      * destruct (str_eqb id name) eqn:En.
        -- apply bool_decide_eq_true in En as ->. rewrite (members_above name ((g, l) :: groups)).
           { unfold members_in, str_eqb. cbn [List.find fst snd]. by rewrite bool_decide_true. }
           constructor; [done|]. eapply Forall_impl; [exact Hg|]. intros h. by apply str_ltb_trans.
        -- unfold members_in. cbn [List.find fst snd]. by rewrite En, app_nil_r.
      * specialize (IH (conj Hs Hf)). unfold members_in in *. cbn [List.find fst snd]. destruct (str_eqb g name) eqn:En; [|exact IH].
        apply bool_decide_eq_true in En as ->. unfold str_eqb in *. rewrite bool_decide_eq_false in E. rewrite bool_decide_false by congruence. by rewrite app_nil_r.
Qed.

(** Each test of the set once for every time it names the group. *)
Definition group_members (tests : list test_def) (name : str) (ts : list nat) : list nat :=
  concat ((fun t => concat ((fun id => if str_eqb id name then [t] else []) <$> groups_of tests t)) <$> ts).

Lemma collate_spec tests ts : groups_ok (collate_test_groups tests ts) /\ forall name, members_in name (collate_test_groups tests ts) = group_members tests name ts.
Proof.
  unfold collate_test_groups, group_members. assert (groups_ok []) as H0 by (split; constructor).
  assert (forall t ids groups, groups_ok groups -> let r := foldl (fun groups id => push_entry id t groups) groups ids in
    groups_ok r /\ forall name, members_in name r = members_in name groups ++ concat ((fun id => if str_eqb id name then [t] else []) <$> ids)) as Hin.
  { intros t ids. induction ids as [|id ids IH]; intros groups Hg; cbn [foldl]; [split; [done|]; intros; by rewrite app_nil_r|].
    destruct (IH _ (push_entry_ok id t _ Hg)) as [I1 I2]. split; [done|]. intros name. rewrite I2, members_push by done. by rewrite <- app_assoc. }
  assert (forall ts groups, groups_ok groups -> let r := foldl (fun groups t => foldl (fun groups id => push_entry id t groups) groups (groups_of tests t)) groups ts in
    groups_ok r /\ forall name, members_in name r = members_in name groups ++ group_members tests name ts) as H.
  { clear ts. intros ts. induction ts as [|t ts IH]; intros groups Hg; cbn [foldl]; [split; [done|]; intros; by rewrite app_nil_r|].
    destruct (Hin t (groups_of tests t) groups Hg) as [G1 G2]. destruct (IH _ G1) as [I1 I2]. split; [done|]. intros name. rewrite I2, G2. by rewrite <- app_assoc. }
  exact (H ts [] H0).
Qed.

(** --list-group-members prints the tests of the group in the order of the test set, and
    ends with an error exactly when the group has none; the groups that --list-groups
    prints are in order of their names, each once. *)
Theorem group_members_listed tests ts name :
  list_group_members tests ts (L "@" ++ name) =
    match group_members tests name ts with [] => Exit EX_USAGE | l => Ret (concat ((fun t => id_of tests t ++ nl) <$> l)) end /\
  StronglySorted key_lt (collate_test_groups tests ts).
Proof.
  destruct (collate_spec tests ts) as [[Hs Hf] Hm]. split; [|done]. rewrite <- Hm. unfold members_in. change (L "@" ++ name) with ("@"%char :: name). cbn [list_group_members].
  change (char_eqb "@" "@") with true. destruct (List.find _ _) as [g|] eqn:E; [|done]. apply find_some in E as [Hin _]. rewrite Forall_forall in Hf.
  specialize (Hf g (proj2 (list_elem_of_In _ _) Hin)). by destruct (g.2).
Qed.
