(* ===== verification/Detect.v ===== *)
(** Finding out about the processors at the start of the program
    (init_topology_internal() of src/framework/topology.cpp): the files of sysfs and
    the model-specific registers, the order in which the sources are asked, and the
    copy of a topology. *)

From S2P Require Import Prelude CStdlib CpuSet CpuInfo Topology Monitors.

(** * Reading files *)

(** fscanf() with "%d" or "%hd" on what is left of a file: the number, if there is
    one, and what follows it. A number that does not fit is undefined. *)
Definition scan_int (w : Z) (s : str) : outcome (option (Z * str)) :=
  match strto 10 s with
  | None => Ret None
  | Some (neg, m, rest) =>
      let v := if neg : bool then - m else m in
      if bool_decide (in_s w v) then Ret (Some (v, rest)) else Ub
  end.

(** "%" PRIx64 *)
Definition scan_hex (s : str) : outcome (option Z) :=
  match strto 16 s with
  | None => Ret None
  | Some (neg, m, _) => if m <? 2 ^ 64 then Ret (Some (u64 (if neg : bool then - m else m))) else Ub
  end.

(** "%255s" *)
Definition scan_word (s : str) : option str :=
  match take 255 (span (fun c => negb (isspace c)) (span isspace s).2).1 with [] => None | w => Some w end.

(** A directory of sysfs: the contents of the files that can be opened. *)
Abbreviation files := (str -> option str).

(** The directory of a processor, with the directories cache/index0, cache/index1, ...
    up to the first that is missing. *)
Record CpuDir := { file : files; indices : list files }.

(** fscanf(f, "%hd", &field) for a file that exists: the field stays when there is no
    number. *)
Definition scan_field (text : str) (old : Z) : outcome Z :=
  r ← scan_int 16 text;
  Ret (match r with Some (v, _) => v | None => old end).

(** * Caches *)

(** The assignments for one cache. *)
Definition store_cache (level size : Z) (type : str) (info : cpu_info) : outcome cpu_info :=
  old ← at_ (cache info) (level - 1);
  let c := if str_eqb type (L "Instruction") then {| cache_instruction := size; cache_data := cache_data old |}
           else if str_eqb type (L "Data") then {| cache_instruction := cache_instruction old; cache_data := size |}
           else {| cache_instruction := size; cache_data := size |} in
  Ret (set_cache (<[Z.to_nat (level - 1) := c]> (cache info)) info).

Definition scaled_size (size : Z) (suffix : option ascii) : outcome Z :=
  match suffix with
  | Some "K"%char => mul_int size 1024
  | Some "M"%char => mul_int size (1024 * 1024)
  | _ => Ret size
  end.

(** One round of the loop of fill_cache_info_sysfs(), for cache/index<j>; a local
    variable that fscanf() did not set is undefined when it is read. *)
Definition fill_index (j : nat) (dir : files) (info : cpu_info) : outcome cpu_info :=
  match dir (L "level") with
  | None => Ret info
  | Some text =>
      r ← scan_int 32 text;
      r ← of_option r;
      let level := fst r in
      if level <=? max_levels then
        match dir (L "size") with
        | None => Ret info
        | Some text =>
            r ← scan_int 32 text;
            size ← (match r with Some (v, rest) => size ← scaled_size v (head rest); Ret (Some size) | None => Ret None end);
            match dir (L "type") with
            | None => Ret info
            | Some text =>
                size ← of_option size;
                store_cache level size (default (L "cache/index" ++ to_string (Z.of_nat j)) (scan_word text)) info
            end
        end
      else Ret info
  end.

Fixpoint fill_indices (j : nat) (dirs : list files) (info : cpu_info) : outcome cpu_info :=
  match dirs with
  | [] => Ret info
  | dir :: dirs => info ← fill_index j dir info; fill_indices (S j) dirs info
  end.

Definition fill_cache_info_sysfs (dir : CpuDir) (info : cpu_info) : outcome cpu_info := fill_indices 0 (indices dir) info.

(** * Topology *)

Definition MAX_HWTHREADS_PER_CORE : Z := 4.

(** What fscanf(f, "%d", &n) leaves: the number, the rest of the file, and whether the
    end of the file was seen. *)
Definition scan_stream (s : str) : outcome (option Z * str * bool) :=
  r ← scan_int 32 s;
  Ret (match r with
       | Some (v, rest) => (Some v, rest, match rest with [] => true | _ => false end)
       | None =>
           let rest := (span isspace s).2 in
           let rest := match rest with "-"%char :: r => r | "+"%char :: r => r | _ => rest end in
           (None, rest, match rest with [] => true | _ => false end)
       end).

(** The loop over thread_siblings_list; [n] is the variable, which keeps its value
    when there is no number. *)
Fixpoint siblings_loop (fuel : nat) (s : str) (n : option Z) (cpu_number thread_id : Z) : outcome Z :=
  match fuel with
  | O => Ub
  | S fuel =>
      r ← scan_stream s;
      let '(v, s, eof) := r in
      let n := match v with Some _ => v | None => n end in
      value ← of_option n;
      if value =? cpu_number then Ret thread_id
      else
        let thread_id := i16 (thread_id + 1) in
        let '(s, eof) := match s with [] => ([], true) | _ :: s => (s, eof) end in
        _ ← assertion (thread_id <? MAX_HWTHREADS_PER_CORE);
        if eof then Ret thread_id else siblings_loop fuel s n cpu_number thread_id
  end.

Section Sysfs.
(** The system: the directories of the processors and the lines of /proc/cpuinfo. *)
Context (sysfs : Z -> option CpuDir) (cpuinfo_lines : list str).

(** fill_topo_sysfs() *)
Definition fill_topo_sysfs (info : cpu_info) : outcome (cpu_info * bool) :=
  match sysfs (cpu_number info) with
  | None => Ret (info, false)
  | Some dir =>
      info ← fill_cache_info_sysfs dir info;
      match file dir (L "topology/physical_package_id") with
      | None => Ret (info, false)
      | Some text =>
          v ← scan_field text (package_id info);
          let info := set_package_id v info in
          match file dir (L "topology/core_id") with
          | None => Ret (info, false)
          | Some text =>
              v ← scan_field text (core_id info);
              let info := set_core_id v info in
              info ← (match file dir (L "topology/cluster_id") with
                      | Some text => v ← scan_field text (module_id info); Ret (set_module_id v info)
                      | None => Ret info
                      end);
              let info := if module_id info <? 0 then set_module_id (core_id info) info else info in
              match file dir (L "topology/thread_siblings_list") with
              | None => Ret (info, false)
              | Some text =>
                  v ← siblings_loop (S (length text)) text None (cpu_number info) 0;
                  let info := set_thread_id v info in
                  proc ← parse_proc_cpuinfo cpuinfo_lines;
                  Ret (match number proc (cpu_number info) (L "apicid") 10 with Some id => set_hwid (i32 id) info | None => info end, true)
              end
          end
      end
  end.

(** fill_ucode_sysfs() *)
Definition fill_ucode_sysfs (info : cpu_info) : outcome (cpu_info * bool) :=
  match sysfs (cpu_number info) with
  | None => Ret (info, false)
  | Some dir =>
      info ← (match file dir (L "microcode/version") with
              | Some text => v ← scan_hex text; Ret (match v with Some v => set_microcode v info | None => info end)
              | None =>
                  proc ← parse_proc_cpuinfo cpuinfo_lines;
                  Ret (match number proc (cpu_number info) (L "microcode") 0 with Some v => set_microcode v info | None => info end)
              end);
      Ret (info, negb (microcode info =? 0))
  end.

(** fill_ppin_sysfs() *)
Definition fill_ppin_sysfs (info : cpu_info) : outcome (cpu_info * bool) :=
  match d ← sysfs (cpu_number info); file d (L "topology/ppin") with
  | None => Ret (info, false)
  | Some text => v ← scan_hex text; Ret (match v with Some v => (set_ppin v info, true) | None => (info, false) end)
  end.

(** * The detection *)

(** The processor a thread is pinned to answers CPUID; [open] and [module_present] are
    the files of the model-specific registers. *)
Context (cpuid : Z -> Z -> Z -> cpuid_regs) (open : Z -> msr_open) (module_present : bool).

(** What is kept between the calls. *)
Record Detecting := { topo : topo_state; msrs : MsrState; topo_fn : option nat; ppin_fn : option nat; ucode_fn : option nat }.
Definition keep_topo (t : topo_state) (d : Detecting) : Detecting :=
  {| topo := t; msrs := msrs d; topo_fn := topo_fn d; ppin_fn := ppin_fn d; ucode_fn := ucode_fn d |}.
Definition keep_msrs (m : MsrState) (d : Detecting) : Detecting :=
  {| topo := topo d; msrs := m; topo_fn := topo_fn d; ppin_fn := ppin_fn d; ucode_fn := ucode_fn d |}.
Definition keep_fns (t p u : option nat) (d : Detecting) : Detecting :=
  {| topo := topo d; msrs := msrs d; topo_fn := t; ppin_fn := p; ucode_fn := u |}.

(** fill_ucode_msr() and fill_ppin_msr() *)
Definition fill_ucode_msr (d : Detecting) (info : cpu_info) : outcome (Detecting * cpu_info * bool) :=
  let '(v, m) := read_msr open module_present (cpu_number info) 0x8B (msrs d) in
  Ret (match v with
       | Some ucode => (keep_msrs m d, set_microcode (u32 (Z.shiftr ucode 32)) info, true)
       | None => (keep_msrs m d, info, false)
       end).
Definition fill_ppin_msr (d : Detecting) (info : cpu_info) : outcome (Detecting * cpu_info * bool) :=
  let info := set_ppin 0 info in
  let '(v, m) := read_msr open module_present (cpu_number info) 0x4F (msrs d) in
  Ret (match v with Some v => (keep_msrs m d, set_ppin v info, true) | None => (keep_msrs m d, info, false) end).

Definition stateless (f : cpu_info -> outcome (cpu_info * bool)) (d : Detecting) (info : cpu_info) : outcome (Detecting * cpu_info * bool) :=
  r ← f info; Ret (d, r.1, r.2).
Definition topo_cpuid (d : Detecting) (info : cpu_info) : outcome (Detecting * cpu_info * bool) :=
  r ← fill_topo_cpuid (cpuid (cpu_number info)) (topo d) info;
  let '(t, info, ok) := r in Ret (keep_topo t d, info, ok).
Definition family_cpuid (d : Detecting) (info : cpu_info) : outcome (Detecting * cpu_info * bool) :=
  Ret (d, fill_family_cpuid (cpuid (cpu_number info) 1 0) info, true).

Definition topo_impls := [Some topo_cpuid; Some (stateless fill_topo_sysfs)].
Definition family_impls := [Some family_cpuid].
Definition ppin_impls := [Some (stateless fill_ppin_sysfs); Some fill_ppin_msr].
Definition ucode_impls := [Some (stateless fill_ucode_sysfs); Some fill_ucode_msr].

(** The detection thread at one processor. *)
Definition detect_cpu_info (d : Detecting) (info : cpu_info) : outcome (Detecting * cpu_info) :=
  r ← try_detection topo_impls (topo_fn d) d info;
  let '(t, d, info, _) := r in
  r ← try_detection family_impls None d info;
  let '(_, d, info, _) := r in
  r ← try_detection ppin_impls (ppin_fn d) d info;
  let '(p, d, info, _) := r in
  r ← try_detection ucode_impls (ucode_fn d) d info;
  let '(u, d, info, _) := r in
  Ret (keep_fns t p u d, info).

Fixpoint detect_all (d : Detecting) (l : list cpu_info) : outcome (list cpu_info) :=
  match l with
  | [] => Ret []
  | info :: l =>
      r ← detect_cpu_info d info;
      rest ← detect_all r.1 l;
      Ret (r.2 :: rest)
  end.

Definition detecting0 (m : MsrState) : Detecting := {| topo := topo_state0; msrs := m; topo_fn := None; ppin_fn := None; ucode_fn := None |}.

(** init_topology_internal(); [mock] is the mock topology of a debug build, [nodes]
    are the directories of the NUMA nodes. *)
Definition init_topology_internal (mock : list cpu_info) (m : MsrState) (nodes : list (Z * str)) (thread_count : Z) (enabled_cpus : LogicalProcessorSet)
  : outcome (list cpu_info) :=
  match mock with
  | [] =>
      l ← init_numbers thread_count enabled_cpus;
      l ← detect_all (detecting0 m) l;
      fill_numa nodes l
  | _ =>
      _ ← assertion (thread_count =? count enabled_cpus);
      apply_mock_topology mock enabled_cpus
  end.
End Sysfs.

(** * The copy of a topology *)

(** Topology::clone(): the threads, and for each package its cores with the spans that
    point to the copy, while the NUMA nodes keep the spans of the original ([inl] is a
    span of the original array, [inr] one of the copy). An empty core has no front(). *)
Record ClonedPackage := { cloned_cores : list (Core + Core); cloned_domains : list (list (Core + Core)) }.
Definition clone_core (c : Core) : outcome (Core + Core) :=
  if (first c <? last_ c)%nat then
    let starting_cpu := first c in
    let ending_cpu := (last_ c - 1)%nat in
    Ret (inr {| first := starting_cpu; last_ := S ending_cpu |})
  else Ub.
Definition clone_package (p : Package) : outcome ClonedPackage :=
  cores ← fold_outcome (fun acc c => c' ← clone_core c; Ret (acc ++ [c'])) (cores p) [];
  Ret {| cloned_cores := cores; cloned_domains := (fun n => inl <$> n_cores n) <$> numa_domains p |}.
Definition clone (t : TopoState) : outcome (list cpu_info * list ClonedPackage) :=
  packages ← fold_outcome (fun acc p => p' ← clone_package p; Ret (acc ++ [p'])) (packages t) [];
  Ret (view t, packages).

(** * Facts *)

Definition newline : str := ["010"%char].

Lemma scan_int_to_string w z c rest : 0 <= z < 2 ^ (w - 1) -> 0 < w <= 64 -> is_digit 10 c = false ->
  scan_int w (to_string z ++ c :: rest) = Ret (Some (z, c :: rest)).
Proof.
  intros Hz Hw Hc. unfold scan_int, to_string. destruct (Z.ltb_spec z 0); [lia|]. rewrite strto_digits; [|by apply digits_fuel_ne; lia|by apply digits_fuel_digits|done].
  assert (2 ^ (w - 1) <= 2 ^ 63) by (apply Z.pow_le_mono_r; lia). rewrite to_digits_value by lia. rewrite bool_decide_true; [done|]. unfold in_s. lia.
Qed.

Lemma scan_field_to_string z old : 0 <= z < 2 ^ 15 -> scan_field (to_string z ++ newline) old = Ret z.
Proof. intros Hz. unfold scan_field, newline. by rewrite scan_int_to_string. Qed.

(** ** The threads of a core *)

(** A list of processors as the kernel prints it ("%*pbl"): the runs of
    consecutive numbers, a run of more than one as "first-last", separated by
    commas. *)
Fixpoint runs (l : list Z) : list (Z * Z) :=
  match l with
  | [] => []
  | z :: l => match runs l with
              | (a, b) :: r => if a =? z + 1 then (z, b) :: r else (z, z) :: (a, b) :: r
              | [] => [(z, z)]
              end
  end.
Definition run_text (r : Z * Z) : str := if r.1 =? r.2 then to_string r.1 else to_string r.1 ++ "-"%char :: to_string r.2.
Definition siblings_text (sib : list Z) : str := join ","%char (map run_text (runs sib)) ++ newline.

(** No run is longer than two. *)
Definition short_runs (sib : list Z) : Prop := Forall (fun r => r.2 <= r.1 + 1) (runs sib).

(** Numbers that each have a character after them. *)
Fixpoint spaced (l : list (Z * ascii)) : str :=
  match l with
  | [] => []
  | (z, c) :: l => to_string z ++ c :: spaced l
  end.

(** The numbers that stand in the text of some runs. *)
Definition end_points (rs : list (Z * Z)) : list Z := concat (map (fun r => if r.1 =? r.2 then [r.1] else [r.1; r.2]) rs).

Lemma runs_spaced rs : rs <> [] -> exists l, Forall (fun x => is_digit 10 x.2 = false) l /\ l.*1 = end_points rs /\
  join ","%char (map run_text rs) ++ newline = spaced l.
Proof.
  induction rs as [|[a b] rs IH]; intros Hne; [done|].
  assert (forall c rest, is_digit 10 c = false -> exists l, Forall (fun x => is_digit 10 x.2 = false) l /\
    l.*1 = (if a =? b then [a] else [a; b]) /\ run_text (a, b) ++ c :: rest = spaced l ++ rest) as Hrun.
  { intros c rest Hc. unfold run_text. cbn [fst snd]. destruct (a =? b).
    - exists [(a, c)]. split; [by constructor|]. split; [done|]. cbn [spaced]. by rewrite <- app_assoc.
    - exists [(a, "-"%char); (b, c)]. split; [by repeat constructor|]. split; [done|]. cbn [spaced].
      rewrite <- !app_assoc. cbn [app]. by rewrite <- app_assoc. }
  assert (forall l1 l2, spaced l1 ++ spaced l2 = spaced (l1 ++ l2)) as Happ.
  { intros l1 l2. induction l1 as [|[z c] l1 IH1]; [done|]. cbn [spaced app]. by rewrite <- app_assoc, <- app_comm_cons, IH1. }
  destruct rs as [|r rs].
  - destruct (Hrun "010"%char []) as (l & Hl & Hz & Ht); [done|]. exists l. split; [done|].
    split; [rewrite Hz; unfold end_points; cbn; by rewrite app_nil_r|]. cbn [map join]. unfold newline. by rewrite Ht, app_nil_r.
  - destruct IH as (l2 & Hl2 & Hz2 & Ht2); [done|].
    change (join ","%char (map run_text ((a, b) :: r :: rs))) with (run_text (a, b) ++ ","%char :: join ","%char (map run_text (r :: rs))).
    rewrite <- app_assoc, <- app_comm_cons.
    edestruct (Hrun ","%char) as (l & Hl & Hz & Ht); [done|]. rewrite Ht, Ht2, Happ. exists (l ++ l2).
    split; [by apply Forall_app|]. split; [|done]. rewrite fmap_app, Hz, Hz2. done.
Qed.

Lemma runs_ordered l : Forall (fun r => r.1 <= r.2) (runs l).
Proof.
  induction l as [|z l IH]; [constructor|]. cbn [runs]. destruct (runs l) as [|[a b] r]; [by repeat constructor|].
  destruct (Z.eqb_spec a (z + 1)) as [->|Hne]; [|by constructor; [simpl; lia|]].
  apply Forall_cons in IH as [H IH]. cbn [fst snd] in H. constructor; [simpl; lia|done].
Qed.

Lemma short_end_points sib : short_runs sib -> end_points (runs sib) = sib.
Proof.
  unfold short_runs. induction sib as [|z sib IH]; [done|]. pose proof (runs_ordered sib) as Ho. cbn [runs].
  destruct (runs sib) as [|[a b] r].
  - intros _. rewrite <- IH by constructor. unfold end_points. cbn [map concat fst snd]. by rewrite Z.eqb_refl.
  - destruct (Z.eqb_spec a (z + 1)) as [->|Hne]; intros [Hr Hrs]%Forall_cons; cbn [fst snd] in *.
    + apply Forall_cons in Ho as [Ho _]. cbn [fst snd] in Ho. assert (b = z + 1) as -> by lia.
      rewrite <- IH by (constructor; [simpl; lia|done]). unfold end_points. cbn [map concat fst snd].
      rewrite Z.eqb_refl, (proj2 (Z.eqb_neq z (z + 1))) by lia. done.
    + rewrite <- IH by done. unfold end_points. cbn [map concat fst snd]. by rewrite Z.eqb_refl.
Qed.

Lemma siblings_text_spaced sib : sib <> [] -> short_runs sib ->
  exists l, Forall (fun x => is_digit 10 x.2 = false) l /\ l.*1 = sib /\ siblings_text sib = spaced l.
Proof.
  intros Hne Hs. destruct (runs_spaced (runs sib)) as (l & Hl & Hz & Ht).
  { destruct sib as [|z sib]; [done|]. cbn [runs]. by repeat case_match. }
  exists l. split; [done|]. by rewrite Hz, short_end_points.
Qed.

Lemma siblings_step fuel z c s n cpu t : 0 <= z < 2 ^ 31 -> is_digit 10 c = false -> 0 <= t < 3 ->
  siblings_loop (S fuel) (to_string z ++ c :: s) n cpu t = if z =? cpu then Ret t else siblings_loop fuel s (Some z) cpu (t + 1).
Proof.
  intros Hz Hc Ht. cbn [siblings_loop]. unfold scan_stream. rewrite scan_int_to_string by (done || lia). cbn [mbind outcome_bind of_option].
  destruct (z =? cpu); [done|]. rewrite wrap_s_small by (unfold in_s; lia). unfold MAX_HWTHREADS_PER_CORE. by rewrite (proj2 (Z.ltb_lt _ _)) by lia.
Qed.

Lemma siblings_position l : forall fuel n cpu k t, Forall (fun x => is_digit 10 x.2 = false) l ->
  Forall (fun z => 0 <= z < 2 ^ 31) l.*1 -> l.*1 !! k = Some cpu -> cpu ∉ take k l.*1 ->
  (length l <= fuel)%nat -> 0 <= t -> t + Z.of_nat k < 4 -> siblings_loop fuel (spaced l) n cpu t = Ret (t + Z.of_nat k).
Proof.
  induction l as [|[z c] l IH]; intros fuel n cpu k t Hc Hr Hk Hnot Hf Ht Hk4; [done|].
  apply Forall_cons in Hc as [Hc Hcs]. rewrite fmap_cons in *. cbn [fst snd] in *. apply Forall_cons in Hr as [Hz Hr].
  destruct fuel as [|fuel]; [simpl in Hf; lia|]. cbn [spaced]. destruct k as [|k].
  - injection Hk as ->. cbn [siblings_loop]. unfold scan_stream. rewrite scan_int_to_string by (done || lia). cbn [mbind outcome_bind of_option].
    rewrite Z.eqb_refl. f_equal. lia.
  - cbn [take] in Hnot. apply not_elem_of_cons in Hnot as [Hne Hnot]. rewrite siblings_step by (done || lia). rewrite (proj2 (Z.eqb_neq _ _)) by congruence.
    rewrite (IH fuel (Some z) cpu k) by (done || simpl in *; lia). f_equal. lia.
Qed.

Lemma spaced_length l : (length l <= length (spaced l))%nat.
Proof. induction l as [|[z c] l IH]; [done|]. cbn [spaced]. rewrite length_app. cbn [length]. lia. Qed.

(** What the kernel prints for the threads of a core. *)
Example siblings_texts :
  siblings_text [2; 66] = L "2,66" ++ newline /\ siblings_text [0; 1] = L "0-1" ++ newline /\
  siblings_text [0; 1; 8; 9] = L "0-1,8-9" ++ newline /\ siblings_text [0; 1; 2; 3] = L "0-3" ++ newline.
Proof. by vm_compute. Qed.

(** Four threads that are written as a range are taken for two: the third is
    numbered as the fourth. *)
Example range_of_siblings : siblings_loop 10 (L "0-3" ++ newline) None 2 0 = Ret 3 /\ siblings_loop 10 (L "0-3" ++ newline) None 3 0 = Ret 1.
Proof. done. Qed.

(** ** Caches *)

(** What the kernel writes about a cache. *)
Inductive index_files (d : files) : Prop :=
| index_files_intro level size unit type :
    1 <= level < 2 ^ 31 -> d (L "level") = Some (to_string level ++ newline) ->
    0 <= size < 2 ^ 31 / unit -> (unit = 1024 \/ unit = 1024 * 1024) ->
    d (L "size") = Some (to_string size ++ (if unit =? 1024 then "K"%char else "M"%char) :: newline) ->
    d (L "type") = Some type -> index_files d.

(** Everything but the caches. *)
Definition ids (c : cpu_info) := (cpu_number c, package_id c, core_id c, module_id c, thread_id c, tile_id c, numa_id c, hwid c).
Lemma ids_set_cache v c : ids (set_cache v c) = ids c.
Proof. by destruct c. Qed.
Lemma cache_set_cache v c : cache (set_cache v c) = v.
Proof. by destruct c. Qed.

Lemma store_cache_ok level size type info : 1 <= level <= 3 -> length (cache info) = 3%nat ->
  exists info', store_cache level size type info = Ret info' /\ ids info' = ids info /\ length (cache info') = 3%nat.
Proof.
  intros Hl Hc. unfold store_cache. destruct (at_ret (cache info) (level - 1)) as (c & -> & _); [unfold len; lia|]. cbn [mbind outcome_bind].
  eexists. split; [done|]. by rewrite ids_set_cache, cache_set_cache, length_insert.
Qed.

Lemma fill_index_ok j d info : index_files d -> length (cache info) = 3%nat ->
  exists info', fill_index j d info = Ret info' /\ ids info' = ids info /\ length (cache info') = 3%nat.
Proof.
  intros [level size unit type Hl Hlt Hs Hu Hst Ht] Hc. unfold fill_index, newline in *. rewrite Hlt, scan_int_to_string by (done || lia). cbn [mbind outcome_bind of_option fst].
  destruct (Z.leb_spec level max_levels); [|by exists info]. rewrite Hst.
  assert (0 <= size < 2 ^ 31 /\ size * unit < 2 ^ 31) as [Hs1 Hs2].
  { destruct Hu as [-> | ->]; [change (2 ^ 31 / 1024) with 2097152 in Hs|change (2 ^ 31 / (1024 * 1024)) with 2048 in Hs]; lia. }
  rewrite scan_int_to_string; [|lia..|by destruct (unit =? 1024)]. cbn [mbind outcome_bind head].
  assert (scaled_size size (Some (if unit =? 1024 then "K"%char else "M"%char)) = Ret (size * unit)) as ->.
  { destruct Hu as [-> | ->]; [change (1024 =? 1024) with true|change (1024 * 1024 =? 1024) with false]; unfold scaled_size, mul_int; rewrite bool_decide_true; (done || unfold in_s; lia). }
  cbn [mbind outcome_bind]. rewrite Ht. cbn [of_option]. by apply store_cache_ok; [unfold max_levels in *; lia|].
Qed.

Lemma fill_indices_ok dirs : forall j info, Forall index_files dirs -> length (cache info) = 3%nat ->
  exists info', fill_indices j dirs info = Ret info' /\ ids info' = ids info /\ length (cache info') = 3%nat.
Proof.
  induction dirs as [|d dirs IH]; intros j info Hd Hc; [by exists info|]. apply Forall_cons in Hd as [Hd Hds].
  destruct (fill_index_ok j d info Hd Hc) as (i1 & E1 & I1 & C1). cbn [fill_indices]. rewrite E1. cbn [mbind outcome_bind].
  destruct (IH (S j) i1 Hds C1) as (i2 & E2 & I2 & C2). exists i2. by rewrite E2, I2, I1.
Qed.

(** A cache of level 0 is stored before the array; a level that is not a number is
    not initialised. *)
Example cache_level_zero : exists d, fill_index 0 d (blank_cpu zero_cpu 0) = Ub /\ d (L "level") = Some (L "0" ++ newline).
Proof.
  exists (fun f => if str_eqb f (L "level") then Some (L "0" ++ newline) else if str_eqb f (L "size") then Some (L "48K" ++ newline) else Some (L "Data" ++ newline)).
  split; by vm_compute.
Qed.

(** ** The ids of a processor *)

Section Ids.
Context (sysfs : Z -> option CpuDir) (cpuinfo_lines : list str).

(** The files of sysfs about a processor: its package, its core, possibly its cluster,
    and the threads of its core, of which it is the one with number [thread]. *)
Record topology_files (dir : CpuDir) (cpu package core : Z) (cluster : option Z) (sib : list Z) (thread : nat) : Prop := {
  tf_caches : Forall index_files (indices dir);
  tf_package : file dir (L "topology/physical_package_id") = Some (to_string package ++ newline) /\ 0 <= package < 2 ^ 15;
  tf_core : file dir (L "topology/core_id") = Some (to_string core ++ newline) /\ 0 <= core < 2 ^ 15;
  tf_cluster : file dir (L "topology/cluster_id") = (fun m => to_string m ++ newline) <$> cluster /\ (forall m, cluster = Some m -> 0 <= m < 2 ^ 15);
  tf_siblings : file dir (L "topology/thread_siblings_list") = Some (siblings_text sib) /\ Forall (fun z => 0 <= z < 2 ^ 31) sib /\ StronglySorted Z.lt sib;
  tf_thread : sib !! thread = Some cpu /\ (thread < 4)%nat;
}.

(** C28. A processor whose files in sysfs are as the kernel writes them - the
    caches with levels, sizes and types, the package, core and cluster as numbers
    of 15 bits, the siblings as a list with runs of consecutive numbers written
    "first-last", at most four threads on a core - gets from fill_topo_sysfs() the
    package, the core, the module and the thread number that the files tell;
    without a cluster, the module is the core. /proc/cpuinfo can be parsed. The
    siblings have no three consecutive numbers: "0-1", "0,64" and "0-1,8-9" are
    read right, a run of three or more is not (Example [range_of_siblings]). *)
Theorem sysfs_topology_read info dir package core cluster sib thread proc :
  sysfs (cpu_number info) = Some dir -> topology_files dir (cpu_number info) package core cluster sib thread -> short_runs sib ->
  length (cache info) = 3%nat -> module_id info = -1 -> parse_proc_cpuinfo cpuinfo_lines = Ret proc ->
  exists r, fill_topo_sysfs sysfs cpuinfo_lines info = Ret (r, true) /\ cpu_number r = cpu_number info /\
    package_id r = package /\ core_id r = core /\ module_id r = default core cluster /\ thread_id r = Z.of_nat thread.
Proof using Type.
  intros Hd [Hc [Hp Hpr] [Hco Hcor] [Hcl Hclr] [Hs [Hsr Hsort]] [Hk Hk4]] Hshort Hl Hm Hproc. unfold fill_topo_sysfs. rewrite Hd.
  destruct (fill_indices_ok (indices dir) 0 info Hc Hl) as (i1 & E1 & I1 & _). unfold fill_cache_info_sysfs. rewrite E1. cbn [mbind outcome_bind].
  injection I1 as In _ _ Im _ _ _ _. rewrite Hp, scan_field_to_string by done. cbn [mbind outcome_bind]. rewrite Hco, scan_field_to_string by done. cbn [mbind outcome_bind].
  assert (siblings_loop (S (length (siblings_text sib))) (siblings_text sib) None (cpu_number info) 0 = Ret (Z.of_nat thread)) as Hloop.
  { destruct (siblings_text_spaced sib) as (l & Hl1 & Hl2 & ->); [by destruct sib|done|]. rewrite <- Hl2 in Hsr, Hk, Hsort.
    assert (cpu_number info ∉ take thread l.*1) as Hnot.
    { intros Hin. apply increasing_NoDup in Hsort. rewrite <- (take_drop thread l.*1) in Hsort.
      apply NoDup_app in Hsort as (_ & Hd' & _). apply (Hd' _ Hin). apply (list_elem_of_lookup_2 _ 0).
      rewrite lookup_drop, Nat.add_0_r. done. }
    rewrite (siblings_position l _ None (cpu_number info) thread 0); try done; [|lia]. pose proof (spaced_length l). lia. }
  destruct i1 as [pp uc num th co mo ti nu pa hw ca fa st md]. cbn [cpu_number module_id] in In, Im. rewrite Hm in Im. subst num mo. rewrite Hcl, Hs.
  assert (exists m, m = default core cluster /\ 0 <= m) as (m & Em & Hm0) by (exists (default core cluster); split; [done|]; destruct cluster as [m|]; [specialize (Hclr m eq_refl)|]; simpl; lia).
  set (sibs := siblings_text sib) in *. rewrite <- Em.
  destruct cluster as [m'|]; cbn [fmap option_fmap option_map mbind outcome_bind] in *; [change (default core (Some m')) with m' in Em; subst m'; rewrite scan_field_to_string by (by apply Hclr); cbn [mbind outcome_bind]|change (default core None) with core in Em; subst m];
    cbn [cpu_number module_id core_id set_module_id set_core_id set_package_id set_thread_id set_hwid].
  - rewrite (proj2 (Z.ltb_ge _ _)) by done. cbn [cpu_number set_thread_id]. rewrite Hloop, Hproc. cbn [mbind outcome_bind].
    destruct (number _ _ _ _); by eexists.
  - cbn [Z.ltb Z.compare cpu_number set_thread_id]. rewrite Hloop, Hproc. cbn [mbind outcome_bind]. destruct (number _ _ _ _); by eexists.
Qed.
End Ids.

(** Processor 67, the second thread of core 5: the list is "66-67". *)
Definition demo_dir : CpuDir := {|
  file := fun f => if str_eqb f (L "topology/physical_package_id") then Some (to_string 1 ++ newline)
                   else if str_eqb f (L "topology/core_id") then Some (to_string 5 ++ newline)
                   else if str_eqb f (L "topology/thread_siblings_list") then Some (siblings_text [66; 67]) else None;
  indices := [fun f => if str_eqb f (L "level") then Some (to_string 1 ++ newline)
                       else if str_eqb f (L "size") then Some (to_string 48 ++ "K"%char :: newline)
                       else if str_eqb f (L "type") then Some (L "Data" ++ newline) else None] |}.

Lemma sysfs_topology_read_witness : exists r,
  fill_topo_sysfs (fun _ => Some demo_dir) [] (blank_cpu zero_cpu 67) = Ret (r, true) /\ cpu_number r = 67 /\
    package_id r = 1 /\ core_id r = 5 /\ module_id r = 5 /\ thread_id r = 1.
Proof.
  apply (sysfs_topology_read (fun _ => Some demo_dir) [] (blank_cpu zero_cpu 67) demo_dir 1 5 None [66; 67] 1 {| general_fields := []; cpu_fields := [] |}); try done.
  - split; [|by split; [|lia]..| | |].
    + constructor; [|done]. apply (index_files_intro _ 1 48 1024 (L "Data" ++ newline)); try done. by left.
    + by split.
    + split; [done|]. split; [repeat constructor; lia|]. repeat constructor; lia.
    + split; [done|lia].
  - unfold short_runs. cbn. repeat constructor. simpl. lia.
Defined.

(** ** The numbers of the processors *)

Section Numbers.
Context {S : Type}.

(** A detector does not change the number of the processor. *)
Definition keeps_number (f : S -> cpu_info -> outcome (S * cpu_info * bool)) : Prop :=
  forall st i st' i' ok, f st i = Ret (st', i', ok) -> cpu_number i' = cpu_number i.

Lemma first_detector_keeps fns : forall n (st : S) i r, Forall (fun f => forall g, f = Some g -> keeps_number g) fns ->
  first_detector n fns st i = Ret r -> cpu_number r.1.2 = cpu_number i.
Proof using Type.
  induction fns as [|[f|] fns IH]; intros n st i r Hk H; cbn [first_detector] in H; [by injection H as <-| |apply Forall_cons in Hk as [_ Hk]; by apply (IH _ _ _ _ Hk H)].
  apply Forall_cons in Hk as [Hf Hk]. apply outcome_bind_ret in H as ([[st1 i1] ok] & H1 & H). apply (Hf f eq_refl) in H1.
  destruct ok; [by injection H as <-|]. rewrite <- H1. by apply (IH _ _ _ _ Hk H).
Qed.

Lemma try_detection_keeps fns cached (st : S) i r : Forall (fun f => forall g, f = Some g -> keeps_number g) fns ->
  try_detection fns cached st i = Ret r -> cpu_number r.1.2 = cpu_number i.
Proof using Type.
  intros Hk H. unfold try_detection in H.
  assert (forall fn, Some fn ∈ fns -> (r ← fn st i; let '(st, cpu, ok) := r in Ret (cached, st, cpu, ok)) = Ret r -> cpu_number r.1.2 = cpu_number i) as Hcall.
  { intros fn Hin Hc. apply outcome_bind_ret in Hc as ([[st1 i1] ok] & H1 & Hc). injection Hc as <-. rewrite Forall_forall in Hk. by apply (Hk _ Hin fn eq_refl) in H1. }
  assert (match i0 ← cached; mjoin (fns !! i0) with
          | Some fn => r ← fn st i; let '(st, cpu, ok) := r in Ret (cached, st, cpu, ok)
          | None => first_detector 0 fns st i
          end = Ret r -> cpu_number r.1.2 = cpu_number i) as Hgen.
  { destruct (i0 ← cached; mjoin (fns !! i0)) as [fn|] eqn:E; [|by apply first_detector_keeps]. apply Hcall.
    destruct cached as [i0|]; [|done]. cbn [mbind option_bind] in E. destruct (fns !! i0) as [o|] eqn:Eo; [|done]. simpl in E. subst o. by apply list_elem_of_lookup_2 in Eo. }
  destruct fns as [|f [|g fns]]; [by injection H as <-| |by destruct f; apply Hgen]. destruct f as [fn|]; [|by injection H as <-]. apply (Hcall fn); [by left|done].
Qed.
End Numbers.

(** Assignments to other fields. *)
Lemma number_set_ppin v c : cpu_number (set_ppin v c) = cpu_number c. Proof. by destruct c. Qed.
Lemma number_set_microcode v c : cpu_number (set_microcode v c) = cpu_number c. Proof. by destruct c. Qed.
Lemma number_set_thread_id v c : cpu_number (set_thread_id v c) = cpu_number c. Proof. by destruct c. Qed.
Lemma number_set_core_id v c : cpu_number (set_core_id v c) = cpu_number c. Proof. by destruct c. Qed.
Lemma number_set_module_id v c : cpu_number (set_module_id v c) = cpu_number c. Proof. by destruct c. Qed.
Lemma number_set_tile_id v c : cpu_number (set_tile_id v c) = cpu_number c. Proof. by destruct c. Qed.
Lemma number_set_package_id v c : cpu_number (set_package_id v c) = cpu_number c. Proof. by destruct c. Qed.
Lemma number_set_hwid v c : cpu_number (set_hwid v c) = cpu_number c. Proof. by destruct c. Qed.
Lemma number_set_cache v c : cpu_number (set_cache v c) = cpu_number c. Proof. by destruct c. Qed.
Lemma number_set_fms a b d c : cpu_number (set_fms a b d c) = cpu_number c. Proof. by destruct c. Qed.
Create Rewrite HintDb number.
#[export] Hint Rewrite number_set_ppin number_set_microcode number_set_thread_id number_set_core_id number_set_module_id number_set_tile_id number_set_package_id
  number_set_hwid number_set_cache number_set_fms set_numa_id_number : number.

(** Case analysis on a computation that succeeded, down to assignments. *)
Ltac number_cases :=
  repeat (inv_ret; simplify_eq; match goal with
  | H : context [match ?x with _ => _ end] |- _ => let E := fresh "E" in destruct x eqn:E; try discriminate H
  | |- context [match ?x with _ => _ end] => destruct x
  end); inv_ret; simplify_eq; cbn [fst snd]; autorewrite with number; try done.

Lemma fill_index_number j d i i' : fill_index j d i = Ret i' -> cpu_number i' = cpu_number i.
Proof. unfold fill_index, store_cache. intros H. number_cases. Qed.

Lemma fill_indices_number dirs : forall j i i', fill_indices j dirs i = Ret i' -> cpu_number i' = cpu_number i.
Proof.
  induction dirs as [|d dirs IH]; intros j i i' H; cbn [fill_indices] in H; [by injection H as <-|]. apply outcome_bind_ret in H as (i1 & H1 & H).
  apply fill_index_number in H1. apply IH in H. congruence.
Qed.

Lemma fill_topo_sysfs_number sysfs lines i r : fill_topo_sysfs sysfs lines i = Ret r -> cpu_number r.1 = cpu_number i.
Proof.
  unfold fill_topo_sysfs, fill_cache_info_sysfs. intros H. destruct (sysfs (cpu_number i)) as [dir|]; [|by injection H as <-]. apply outcome_bind_ret in H as (i1 & H1 & H).
  apply fill_indices_number in H1. rewrite <- H1. clear H1 i. number_cases.
Qed.
Lemma fill_ucode_sysfs_number sysfs lines i r : fill_ucode_sysfs sysfs lines i = Ret r -> cpu_number r.1 = cpu_number i.
Proof. unfold fill_ucode_sysfs. intros H. number_cases. Qed.
Lemma fill_ppin_sysfs_number sysfs i r : fill_ppin_sysfs sysfs i = Ret r -> cpu_number r.1 = cpu_number i.
Proof. unfold fill_ppin_sysfs. intros H. number_cases. Qed.

Lemma topo_ids_number w a s i : cpu_number (topo_ids w a s i) = cpu_number i.
Proof. unfold topo_ids. destruct (negb (width w Module_ =? 0)), (negb (s =? 0)), (negb (width w Tile =? 0)); by autorewrite with number. Qed.
Lemma fill_cache_cpuid_number leaf4 fuel : forall sub i sh r, fill_cache_info_cpuid fuel leaf4 sub i sh = Ret r -> cpu_number r.1 = cpu_number i.
Proof.
  induction fuel as [|fuel IH]; intros sub i sh r H; [done|]. cbn [fill_cache_info_cpuid] in H.
  number_cases; match goal with H : fill_cache_info_cpuid _ _ _ _ _ = _ |- _ => apply IH in H; rewrite H; by autorewrite with number end.
Qed.
Lemma fill_topo_cpuid_number cpuid t i r : fill_topo_cpuid cpuid t i = Ret r -> cpu_number r.1.2 = cpu_number i.
Proof.
  unfold fill_topo_cpuid. intros H. destruct (cpu_number i <? 0); [by injection H as <-|]. apply outcome_bind_ret in H as ([i1 sh] & H1 & H).
  apply fill_cache_cpuid_number in H1. cbn [fst] in H1. rewrite <- H1. number_cases; cbn [fst snd]; try apply topo_ids_number; done.
Qed.

Lemma numa_mark_numbers id n : forall l cpu stop, map cpu_number (numa_mark id n l cpu stop).1 = map cpu_number l.
Proof.
  induction n as [|n IH]; intros l cpu stop; cbn [numa_mark]; [done|]. destruct (l !! cpu) as [c|] eqn:E; [|done]. destruct (cpu_number c <=? stop); [|done].
  rewrite IH. change (map cpu_number (<[cpu := set_numa_id (i16 id) c]> l)) with (cpu_number <$> <[cpu := set_numa_id (i16 id) c]> l).
  rewrite list_fmap_insert, set_numa_id_number. apply list_insert_id. by rewrite list_lookup_fmap, E.
Qed.
Lemma numa_ranges_numbers id fuel : forall ptr st l, numa_ranges id fuel ptr st = Ret l -> map cpu_number l = map cpu_number st.1.
Proof.
  induction fuel as [|fuel IH]; intros ptr [l0 cpu] l H; cbn [numa_ranges] in H; [by injection H as <-|]. destruct (_ || _); [by injection H as <-|].
  apply outcome_bind_ret in H as (r & _ & H). apply outcome_bind_ret in H as (st & H1 & H). apply IH in H. rewrite H. unfold numa_range in H1.
  apply outcome_bind_ret in H1 as (aligned & _ & H1). injection H1 as <-. apply numa_mark_numbers.
Qed.
Lemma fill_numa_numbers nodes : forall l l', fill_numa nodes l = Ret l' -> map cpu_number l' = map cpu_number l.
Proof.
  unfold fill_numa. induction nodes as [|n nodes IH]; intros l l' H; cbn [fold_outcome] in H; [by injection H as <-|]. apply outcome_bind_ret in H as (l1 & H1 & H).
  apply IH in H. apply numa_ranges_numbers in H1. by rewrite H.
Qed.

Section Detection.
Context (sysfs : Z -> option CpuDir) (cpuinfo_lines : list str) (cpuid : Z -> Z -> Z -> cpuid_regs) (open : Z -> msr_open) (module_present : bool).

Lemma stateless_keeps f : (forall i r, f i = Ret r -> cpu_number r.1 = cpu_number i) -> keeps_number (stateless f).
Proof using Type. intros Hf st i st' i' ok H. unfold stateless in H. apply outcome_bind_ret in H as (r & H1 & H). injection H as <- <- <-. by apply Hf. Qed.

Lemma detect_cpu_info_number d i r : detect_cpu_info sysfs cpuinfo_lines cpuid open module_present d i = Ret r -> cpu_number r.2 = cpu_number i.
Proof using Type.
  unfold detect_cpu_info. intros H. apply outcome_bind_ret in H as ([[[t d1] i1] o1] & H1 & H). apply outcome_bind_ret in H as ([[[f d2] i2] o2] & H2 & H).
  apply outcome_bind_ret in H as ([[[p d3] i3] o3] & H3 & H). apply outcome_bind_ret in H as ([[[u d4] i4] o4] & H4 & H). injection H as <-.
  apply try_detection_keeps in H1; [apply try_detection_keeps in H2; [apply try_detection_keeps in H3; [apply try_detection_keeps in H4|]|]|]; cbn [fst snd] in *; [congruence|..];
    unfold topo_impls, family_impls, ppin_impls, ucode_impls; repeat constructor; intros g [= <-]; try (apply stateless_keeps; intros ? ?).
  - apply fill_ucode_sysfs_number.
  - intros st i0 st' i' ok Hg. unfold fill_ucode_msr in Hg. number_cases.
  - apply fill_ppin_sysfs_number.
  - intros st i0 st' i' ok Hg. unfold fill_ppin_msr in Hg. number_cases.
  - intros st i0 st' i' ok Hg. unfold family_cpuid, fill_family_cpuid in Hg. number_cases.
  - intros st i0 st' i' ok Hg. unfold topo_cpuid in Hg. apply outcome_bind_ret in Hg as ([[t' i''] ok'] & Hf & Hg). apply fill_topo_cpuid_number in Hf. by injection Hg as <- <- <-.
  - apply fill_topo_sysfs_number.
Qed.

Lemma detect_all_numbers l : forall d l', detect_all sysfs cpuinfo_lines cpuid open module_present d l = Ret l' -> map cpu_number l' = map cpu_number l.
Proof using Type.
  induction l as [|i l IH]; intros d l' H; cbn [detect_all] in H; [by injection H as <-|]. apply outcome_bind_ret in H as (r & H1 & H).
  apply outcome_bind_ret in H as (rest & H2 & H). injection H as <-. cbn [map]. f_equal; [by apply detect_cpu_info_number in H1|by apply IH in H2].
Qed.

(** Whatever the sources say, and whichever of them answer, the table of processors
    has one entry for each enabled processor, in ascending order. *)
Theorem detected_processors m nodes s l : set_ok s ->
  init_topology_internal sysfs cpuinfo_lines cpuid open module_present [] m nodes (count s) s = Ret l -> map cpu_number l = members s.
Proof using Type.
  intros [_ Hs] H. unfold init_topology_internal in H. apply outcome_bind_ret in H as (l0 & H0 & H). apply outcome_bind_ret in H as (l1 & H1 & H).
  apply fill_numa_numbers in H. rewrite H. apply detect_all_numbers in H1. rewrite H1. unfold init_numbers in H0. rewrite Z.eqb_refl in H0. cbn [assertion mbind outcome_bind] in H0.
  rewrite members_count, enabled_members in H0 by (done || unfold len; lia). injection H0 as <-. rewrite map_map. unfold len. rewrite Nat2Z.id, firstn_all. apply map_id.
Qed.
End Detection.

(** A system without the topology leaves of CPUID and with the files of [demo_dir]. *)
Definition no_cpuid (_ _ _ : Z) : cpuid_regs := {| eax := 0; ebx := 0; ecx := 0; edx := 0 |}.
Definition demo_init (s : LogicalProcessorSet) : outcome (list cpu_info) :=
  init_topology_internal (fun _ => Some demo_dir) [] no_cpuid (fun _ => NoFile) true [] msr_fresh [(1, L "64-127")] (count s) s.
Lemma detected_processors_witness : exists l, demo_init {| array := [0; 12] |} = Ret l /\ map cpu_number l = [66; 67] /\ map thread_id l = [0; 1] /\ map numa_id l = [1; 1].
Proof.
  destruct (demo_init {| array := [0; 12] |}) as [l|c|] eqn:E; [|by vm_compute in E..]. exists l. split; [done|]. split.
  - rewrite (detected_processors (fun _ => Some demo_dir) [] no_cpuid (fun _ => NoFile) true msr_fresh [(1, L "64-127")] {| array := [0; 12] |} l); [by vm_compute| |exact E].
    split; [|by vm_compute]. repeat constructor; unfold in_u; lia.
  - vm_compute in E. by injection E as <-.
Defined.

(** ** Copies *)

(** clone() of a topology without empty cores: every core is the same range of the
    copied threads. The NUMA nodes still point to the threads of the original. *)
Lemma clone_core_same c : (first c < last_ c)%nat -> clone_core c = Ret (inr c).
Proof. intros H. unfold clone_core. rewrite (proj2 (Nat.ltb_lt _ _) H). destruct c as [f l]. cbn [first last_] in *. repeat f_equal. lia. Qed.

Lemma clone_package_spec p : Forall (fun c => (first c < last_ c)%nat) (cores p) ->
  clone_package p = Ret {| cloned_cores := inr <$> cores p; cloned_domains := (fun n => inl <$> n_cores n) <$> numa_domains p |}.
Proof.
  intros H. unfold clone_package. assert (forall cs acc, Forall (fun c => (first c < last_ c)%nat) cs ->
    fold_outcome (fun acc c => c' ← clone_core c; Ret (acc ++ [c'])) cs acc = Ret (acc ++ (inr <$> cs))) as ->; [|done|done].
  clear. induction cs as [|c cs IH]; intros acc Hc; [cbn; by rewrite app_nil_r|]. apply Forall_cons in Hc as [H1 H2]. cbn [fold_outcome]. rewrite clone_core_same by done.
  cbn [mbind outcome_bind]. rewrite IH by done. by rewrite <- app_assoc.
Qed.
