(* ===== verification/Workloads.v ===== *)
(** Tests of the repository that use compression and digest libraries
    (src/tests/zlib/test.c, src/tests/zlib/fuzz.c, src/tests/zstd/test.c,
    src/tests/openssl/openssl_sha.cpp). The libraries are parameters, and nothing is
    assumed of them where the claim is that a test finds an error. *)

From S2P Require Import Prelude CStdlib Bytes Timing Knobs Random.

Abbreviation bytes := (list Z).

(** * The body of a test *)

(** What one round of the body ends with: the next round, a message of
    report_fail_msg(), with that of log_platform_message() before it, or two buffers that
    memcmp_or_fail() found to differ. The last two end the thread as failed. *)
Inductive verdict := Continues | Reported (platform : option str) (message : str) | Unequal (actual expected : bytes).

Definition memcmp_or_fail (actual expected : bytes) : verdict :=
  if bool_decide (actual = expected) then Continues else Unequal actual expected.

(** The first [n] bytes of a buffer that a function is told has [n]. *)
Definition read_buffer (n : nat) (buf : bytes) : outcome bytes := if (n <=? length buf)%nat then Ret (take n buf) else Ub.

(** The body [n] times; [None] is a body that does not end. *)
Fixpoint rounds {E} (n : nat) (body : E -> outcome (option verdict * E)) (e : E) : outcome (option verdict * E) :=
  match n with
  | O => Ret (Some Continues, e)
  | S n =>
      r ← body e;
      match r.1 with
      | Some Continues => rounds n body r.2
      | _ => Ret r
      end
  end.

(** TEST_LOOP(test, N): N rounds, then the question whether there is time for more *)
Fixpoint TEST_LOOP {E} (fuel N : nat) (c : RunCfg) (t : test) (clock : nat -> Z) (inner : Z) (body : E -> outcome (option verdict * E)) (e : E)
  : outcome (option verdict * E) :=
  match fuel with
  | O => Ret (None, e)
  | S fuel =>
      r ← rounds N body e;
      match r.1 with
      | Some Continues =>
          let '(inner, go) := test_time_condition c t (clock O) inner in
          if go : bool then TEST_LOOP fuel N c t (fun n => clock (S n)) inner body r.2 else Ret r
      | _ => Ret r
      end
  end.

(** A body that always goes on: the loop ends with success, for every limit on the
    number of rounds and every clock. *)
Lemma rounds_continue {E} (I : E -> Prop) (body : E -> outcome (option verdict * E)) n : forall e,
  (forall e, I e -> exists e', body e = Ret (Some Continues, e') /\ I e') -> I e -> exists e', rounds n body e = Ret (Some Continues, e') /\ I e'.
Proof.
  induction n as [|n IH]; intros e Hb He; [by exists e|]. destruct (Hb e He) as (e1 & E1 & I1). cbn [rounds]. rewrite E1. cbn [mbind outcome_bind fst snd]. by apply IH.
Qed.

Lemma test_loop_continues {E} (I : E -> Prop) (body : E -> outcome (option verdict * E)) N c t fuel : forall clock inner e,
  (forall e, I e -> exists e', body e = Ret (Some Continues, e') /\ I e') -> I e ->
  0 < current_max_loop_count c < 2 ^ 31 -> 0 <= inner < current_max_loop_count c -> current_max_loop_count c - inner <= Z.of_nat fuel ->
  exists e', TEST_LOOP fuel N c t clock inner body e = Ret (Some Continues, e') /\ I e'.
Proof.
  induction fuel as [|fuel IH]; intros clock inner e Hb He Hm Hi Hf; [lia|]. destruct (rounds_continue I body N e Hb He) as (e1 & E1 & I1).
  cbn [TEST_LOOP]. rewrite E1. cbn [mbind outcome_bind fst snd]. unfold test_time_condition. rewrite (wrap_u_small 64) by (unfold in_u; lia).
  destruct (max_loop_count_exceeded c t (inner + 1)) eqn:Ex; [by exists e1|]. unfold max_loop_count_exceeded in Ex. apply orb_false_elim in Ex as [Ex _].
  rewrite !wrap_u_small in Ex by (unfold in_u; lia). apply Z.leb_gt in Ex. destruct (negb _); [|by exists e1]. apply IH; (done || lia).
Qed.

(** * Zlib *)

Module Zlib.
Definition Z_OK : Z := 0.
Definition Z_STREAM_END : Z := 1.
Definition Z_NEED_DICT : Z := 2.
Definition Z_STREAM_ERROR : Z := -2.
Definition Z_DATA_ERROR : Z := -3.
Definition Z_MEM_ERROR : Z := -4.
Definition Z_BUF_ERROR : Z := -5.

(** z_stream: the input that is left, the output so far and the room for more, and the
    checksum *)
Record z_stream := { next_in : bytes; written : bytes; avail_out : Z; adler : Z }.

(** The library: each function returns a status; [State] is what it keeps for a
    stream. deflate() and inflate() are called with Z_FINISH. *)
Record Library := {
  State : Type;
  deflateInit2 : Z -> Z * State;
  deflate : State -> z_stream -> Z * z_stream * State;
  inflateInit2 : Z * State;
  inflate : State -> z_stream -> Z * z_stream * State;
  zError : Z -> option str;
  crc32 : bytes -> Z;
}.

Section Test.
Context (z : Library) (aesenc : Z -> Z -> Z).

Definition print_zlib_error (func : str) (status : Z) : verdict :=
  Reported (if status =? Z_MEM_ERROR then Some (func ++ L " reported memory allocation problems") else None)
    (func ++ L " failed: " ++ default (L "unknown error message") (zError z status) ++ L " (" ++ to_string status ++ L ")").

(** do { status = call(&strm, Z_FINISH); ... } while (status != Z_STREAM_END); a status
    for which [bad] holds leaves the loop *)
Fixpoint z_loop (fuel : nat) (call : State z -> z_stream -> Z * z_stream * State z) (bad : Z -> bool) (st : State z) (strm : z_stream) : option (Z + z_stream) :=
  match fuel with
  | O => None
  | S fuel =>
      let '(status, strm, st) := call st strm in
      if bad status then Some (inl status)
      else if status =? Z_STREAM_END then Some (inr strm)
      else z_loop fuel call bad st strm
  end.

Definition deflate_bad (status : Z) : bool := (status =? Z_STREAM_ERROR) || (status =? Z_BUF_ERROR).
Definition inflate_bad (status : Z) : bool := (status =? Z_NEED_DICT) || (status =? Z_DATA_ERROR) || (status =? Z_MEM_ERROR) || (status =? Z_STREAM_ERROR).

(** A stream over an input, with room for [n] bytes of output. *)
Definition stream (input : bytes) (n : nat) : z_stream := {| next_in := input; written := []; avail_out := Z.of_nat n; adler := 0 |}.

(** The output buffer of [n] cleared bytes after a call, and its first
    [n - avail_out] bytes. *)
Definition output (n : nat) (strm : z_stream) : outcome bytes := write_at 0 (written strm) (replicate n 0).
Definition output_size (n : nat) (strm : z_stream) : nat := (n - Z.to_nat (avail_out strm))%nat.

(** zcheck() *)
Definition zcheck (fuel bufsz : nat) (buf : bytes) (level : Z) : outcome (option verdict) :=
  input ← read_buffer bufsz buf;
  let '(status, st) := deflateInit2 z level in
  if negb (status =? Z_OK) then Ret (Some (print_zlib_error (L "deflateInit2") status))
  else
    match z_loop fuel (deflate z) deflate_bad st (stream input (bufsz * 2)) with
    | None => Ret None
    | Some (inl status) => Ret (Some (print_zlib_error (L "deflate") status))
    | Some (inr strm) =>
        out ← output (bufsz * 2) strm;
        compressed ← read_buffer (output_size (bufsz * 2) strm) out;
        let '(status, st) := inflateInit2 z in
        if negb (status =? Z_OK) then Ret (Some (print_zlib_error (L "inflateInit2") status))
        else
          match z_loop fuel (inflate z) inflate_bad st (stream compressed bufsz) with
          | None => Ret None
          | Some (inl status) => Ret (Some (print_zlib_error (L "inflate") status))
          | Some (inr strm) =>
              back ← output bufsz strm;
              Ret (Some (memcmp_or_fail back input))
          end
    end.

(** struct zlib_parameters *)
Record zlib_parameters := { level : Z; maxbuffersize : Z }.
Definition BUF_MAX : Z := 1024 * 1024 * 4.

(** zlib_init_common() and the test_init functions *)
Definition zlib_init_common (test_id : option str) (knobs : Knobs) (level : Z) : zlib_parameters :=
  {| level := if level <? 0 then i32 (get_testspecific_knob_value_int test_id (L "level") (- level) knobs).1 else level;
     maxbuffersize := u32 (get_testspecific_knob_value_uint test_id (L "maxbuffersize") BUF_MAX knobs).1 |}.
Definition zlib1_init (test_id : option str) (knobs : Knobs) := zlib_init_common test_id knobs 1.
Definition zlib_init (test_id : option str) (knobs : Knobs) := zlib_init_common test_id knobs (-6).
Definition zlib9_init (test_id : option str) (knobs : Knobs) := zlib_init_common test_id knobs 6.
Definition zlib_aaa_init (test_id : option str) (knobs : Knobs) := zlib_init_common test_id knobs (-9).

(** zlib_gen_buffer(): the size and the buffer, which is 16 bytes larger; the sum is
    one of unsigned ints *)
Definition zlib_gen_buffer (thread max : Z) (e : RandomEngineWrapper) : outcome (nat * bytes * RandomEngineWrapper) :=
  r ← random32 aesenc thread e;
  if max =? 0 then Ub
  else
    let bufsz := Z.to_nat (u32 (r.1 mod max + 4096)) in
    r ← memset_random aesenc thread (replicate (bufsz + 16) 0) bufsz r.2;
    Ret (bufsz, r.1, r.2).

(** zlib_run_common() and zlib_aaa_run() *)
Definition zlib_body (fuel : nat) (p : zlib_parameters) (thread : Z) (e : RandomEngineWrapper) : outcome (option verdict * RandomEngineWrapper) :=
  r ← zlib_gen_buffer thread (maxbuffersize p) e;
  let '(bufsz, buf, e) := r in
  v ← zcheck fuel bufsz buf (level p);
  Ret (v, e).
Definition zlib_run_common (fuel : nat) (c : RunCfg) (t : test) (clock : nat -> Z) (p : zlib_parameters) (thread : Z) (e : RandomEngineWrapper) :=
  TEST_LOOP (Z.to_nat (current_max_loop_count c)) 1 c t clock 0 (zlib_body fuel p thread) e.
Definition zlib_aaa_body (fuel : nat) (p : zlib_parameters) (e : RandomEngineWrapper) : outcome (option verdict * RandomEngineWrapper) :=
  let buf := replicate (Z.to_nat (maxbuffersize p)) 97 in
  v ← zcheck fuel (Z.to_nat BUF_MAX) buf (level p);
  Ret (v, e).
Definition zlib_aaa_run (fuel : nat) (c : RunCfg) (t : test) (clock : nat -> Z) (p : zlib_parameters) (e : RandomEngineWrapper) :=
  TEST_LOOP (Z.to_nat (current_max_loop_count c)) 1 c t clock 0 (zlib_aaa_body fuel p) e.

(** ** The fuzz test *)

(** The letters of a buffer of even size. *)
Fixpoint letters (n : nat) (thread : Z) (e : RandomEngineWrapper) : outcome (bytes * RandomEngineWrapper) :=
  match n with
  | O => Ret ([], e)
  | S n => r ← random32 aesenc thread e; rest ← letters n thread r.2; Ret (u8 (r.1 mod 26 + 65) :: rest.1, rest.2)
  end.

(** zfuzz_gen_buffer(): the buffer and its checksum *)
Definition zfuzz_gen_buffer (buf : bytes) (bufsz : nat) (thread : Z) (e : RandomEngineWrapper) : outcome (bytes * Z * RandomEngineWrapper) :=
  r ← (if (bufsz mod 2 =? 0)%nat then r ← letters bufsz thread e; buf ← write_at 0 r.1 buf; Ret (buf, r.2)
       else memset_random aesenc thread buf bufsz e);
  input ← read_buffer bufsz r.1;
  Ret (r.1, crc32 z input, r.2).

(** zfuzz_zcomp(): the size of what is in the output buffer, the buffer and the
    checksum; a size of 0 is an error. [inr ()]: it does not end. *)
Definition zfuzz_zcomp (fuel : nat) (level : Z) (input : bytes) (outbuf : bytes) : outcome ((nat * bytes * Z) + ()) :=
  let '(ret, st) := deflateInit2 z level in
  if negb (ret =? Z_OK) then Ret (inl (O, outbuf, 0))
  else
    match z_loop fuel (deflate z) (fun s => s =? Z_STREAM_ERROR) st (stream input (length outbuf)) with
    | None => Ret (inr ())
    | Some (inl _) => Ret (inl (O, outbuf, 0))
    | Some (inr strm) => out ← write_at 0 (written strm) outbuf; Ret (inl (output_size (length outbuf) strm, out, adler strm))
    end.

(** zfuzz_decomp() *)
Definition zfuzz_decomp (fuel : nat) (input : bytes) (backbuf : bytes) : outcome ((nat * bytes) + ()) :=
  let '(ret, st) := inflateInit2 z in
  if negb (ret =? Z_OK) then Ret (inl (O, backbuf))
  else
    match z_loop fuel (inflate z) inflate_bad st (stream input (length backbuf)) with
    | None => Ret (inr ())
    | Some (inl _) => Ret (inl (O, backbuf))
    | Some (inr strm) => out ← write_at 0 (written strm) backbuf; Ret (inl (output_size (length backbuf) strm, out))
    end.

(** One round of zfuzz_run() over its three buffers: what it ends with, or "goto
    done", after which EXIT_FAILURE is returned ([Reported] without a message). *)
Definition zfuzz_body (fuel : nat) (thread : Z) (s : bytes * bytes * bytes * RandomEngineWrapper)
  : outcome (option verdict * (bytes * bytes * bytes * RandomEngineWrapper)) :=
  let '(in_, out, back, e) := s in
  let done_ s := Ret (Some (Reported None []), s) in
  r ← random32 aesenc thread e;
  let bufsz := Z.to_nat (r.1 mod (BUF_MAX - 4096) + 4096) in
  r ← zfuzz_gen_buffer in_ bufsz thread r.2;
  let '(in_, in_crc, e) := r in
  r ← random32 aesenc thread e;
  let level := r.1 mod 9 + 1 in
  let e := r.2 in
  input ← read_buffer bufsz in_;
  c ← zfuzz_zcomp fuel level input out;
  match c with
  | inr _ => Ret (None, (in_, out, back, e))
  | inl (compsz, out, out_crc) =>
      if (compsz =? 0)%nat || negb (out_crc =? in_crc) then done_ (in_, out, back, e)
      else
        compressed ← read_buffer compsz out;
        d ← zfuzz_decomp fuel compressed back;
        match d with
        | inr _ => Ret (None, (in_, out, back, e))
        | inl (backsz, back) =>
            if (backsz =? 0)%nat || negb (backsz =? bufsz)%nat then done_ (in_, out, back, e)
            else data ← read_buffer bufsz back; Ret (Some (memcmp_or_fail data input), (in_, out, back, e))
        end
  end.
Definition zfuzz_run (fuel : nat) (c : RunCfg) (t : test) (clock : nat -> Z) (thread : Z) (e : RandomEngineWrapper) :=
  let n := Z.to_nat BUF_MAX in
  TEST_LOOP (Z.to_nat (current_max_loop_count c)) 1 c t clock 0 (zfuzz_body fuel thread) (replicate n 0, replicate (n * 2) 0, replicate n 0, e).
End Test.

(** ** What a round that goes on has shown *)

Section Facts.
Context (z : Library).

(** The library decompressed what it had compressed, and the output, over a cleared
    buffer, is the input. *)
Lemma zcheck_continues fuel bufsz buf level : zcheck z fuel bufsz buf level = Ret (Some Continues) ->
  exists strm out strm',
    z_loop z fuel (deflate z) deflate_bad (deflateInit2 z level).2 (stream (take bufsz buf) (bufsz * 2)) = Some (inr strm) /\
    output (bufsz * 2) strm = Ret out /\
    z_loop z fuel (inflate z) inflate_bad (inflateInit2 z).2 (stream (take (output_size (bufsz * 2) strm) out) bufsz) = Some (inr strm') /\
    output bufsz strm' = Ret (take bufsz buf).
Proof using Type.
  unfold zcheck, read_buffer. destruct (bufsz <=? length buf)%nat; [|done]. cbn [mbind outcome_bind]. destruct (deflateInit2 z level) as [status st]. destruct (negb _); [done|].
  cbn [snd]. destruct (z_loop z fuel (deflate z) _ _ _) as [[s|strm]|]; [done| |done]. destruct (output (bufsz * 2) strm) as [out|c|] eqn:Eo; [|done..]. cbn [mbind outcome_bind].
  destruct (output_size (bufsz * 2) strm <=? length out)%nat; [|done]. cbn [mbind outcome_bind]. destruct (inflateInit2 z) as [status' st']. destruct (negb _); [done|].
  cbn [snd]. destruct (z_loop z fuel (inflate z) _ _ _) as [[s|strm']|] eqn:El; [done| |done]. destruct (output bufsz strm') as [back|c|] eqn:Eb; [|done..]. cbn [mbind outcome_bind].
  unfold memcmp_or_fail. destruct (bool_decide (back = take bufsz buf)) eqn:E; [|done]. apply bool_decide_eq_true in E as ->. intros _. by exists strm, out, strm'.
Qed.

(** deflateBound() for a gzip stream with the default window and memory *)
Definition deflateBound (n : Z) : Z := n + n / 4096 + n / 16384 + n / 33554432 + 13 - 6 + 18.

(** The documented behaviour of zlib on a machine without errors: a stream of at most
    deflateBound() bytes that deflate() writes in one call when there is room, and from
    which inflate() gives the data back. *)
Class ZlibWorks (compress : Z -> bytes -> bytes) : Prop := {
  deflate_init_ok level : 1 <= level <= 9 -> (deflateInit2 z level).1 = Z_OK;
  deflate_ok level d n : 1 <= level <= 9 -> len (compress level d) <= Z.of_nat n ->
    exists strm st, deflate z (deflateInit2 z level).2 (stream d n) = (Z_STREAM_END, strm, st) /\
      written strm = compress level d /\ avail_out strm = Z.of_nat n - len (compress level d);
  deflate_bound level d : 1 <= level <= 9 -> len (compress level d) <= deflateBound (len d);
  inflate_init_ok : (inflateInit2 z).1 = Z_OK;
  inflate_ok level d : exists strm st, inflate z (inflateInit2 z).2 (stream (compress level d) (length d)) = (Z_STREAM_END, strm, st) /\ written strm = d;
}.

Lemma output_full n d : length d = n -> write_at 0 d (replicate n 0) = Ret d.
Proof using Type. intros <-. rewrite write_at_ret by (rewrite length_replicate; lia). cbn [take app]. rewrite drop_ge by (rewrite length_replicate; lia). by rewrite app_nil_r. Qed.

Lemma zcheck_works compress `{!ZlibWorks compress} fuel bufsz buf level : (4096 <= bufsz <= length buf)%nat -> 1 <= level <= 9 ->
  zcheck z (S fuel) bufsz buf level = Ret (Some Continues).
Proof using Type.
  intros Hb Hl. unfold zcheck, read_buffer. rewrite (proj2 (Nat.leb_le _ _)) by lia. cbn [mbind outcome_bind]. set (input := take bufsz buf).
  assert (length input = bufsz) as Hlen by (unfold input; rewrite length_take; lia).
  pose proof (deflate_init_ok level Hl) as Hi. pose proof (deflate_bound level input Hl) as Hbd.
  assert (len (compress level input) <= Z.of_nat (bufsz * 2)) as Hroom.
  { unfold len in *. rewrite Hlen in Hbd. unfold deflateBound in Hbd. pose proof (Z.mul_div_le (Z.of_nat bufsz) 4096). pose proof (Z.mul_div_le (Z.of_nat bufsz) 16384).
    pose proof (Z.mul_div_le (Z.of_nat bufsz) 33554432). lia. }
  destruct (deflate_ok level input (bufsz * 2) Hl Hroom) as (strm & st1 & Hd & Hw & Ha).
  destruct (deflateInit2 z level) as [status st]. cbn [fst snd] in *. subst status. cbn [Z.eqb negb Z_OK]. change (0 =? 0) with true. cbn [negb].
  cbn [z_loop]. rewrite Hd. change (deflate_bad Z_STREAM_END) with false. change (Z_STREAM_END =? Z_STREAM_END) with true. cbv beta iota zeta.
  assert (output (bufsz * 2) strm = Ret (compress level input ++ drop (length (compress level input)) (replicate (bufsz * 2) 0))) as ->.
  { unfold output. rewrite Hw, write_at_ret by (rewrite length_replicate; unfold len in Hroom; lia). done. }
  cbn [mbind outcome_bind]. unfold output_size. rewrite Ha.
  replace (bufsz * 2 - Z.to_nat (Z.of_nat (bufsz * 2) - len (compress level input)))%nat with (length (compress level input)) by (unfold len in *; lia).
  rewrite (proj2 (Nat.leb_le _ _)) by (rewrite length_app; lia). cbn [mbind outcome_bind]. rewrite take_app_length.
  pose proof inflate_init_ok as Hi'. destruct (inflate_ok level input) as (strm' & st2 & He & Hw'). rewrite Hlen in He. destruct (inflateInit2 z) as [status st']. cbn [fst snd] in *. subst status.
  change (Z_OK =? Z_OK) with true. cbn [negb z_loop]. rewrite He. change (inflate_bad Z_STREAM_END) with false. change (Z_STREAM_END =? Z_STREAM_END) with true. cbv iota.
  unfold output. rewrite Hw', output_full by done. cbn [mbind outcome_bind]. unfold memcmp_or_fail. by rewrite bool_decide_true.
Qed.
End Facts.

Section Run.
Context (z : Library) (aesenc : Z -> Z -> Z).

Lemma zlib_gen_buffer_ok m thread max e : wrapper_ok m e -> -1 <= thread < Z.of_nat m -> 0 < max <= 2 ^ 32 - 4096 ->
  exists bufsz buf e', zlib_gen_buffer aesenc thread max e = Ret (bufsz, buf, e') /\ (4096 <= bufsz <= length buf)%nat /\ wrapper_ok m e'.
Proof using Type.
  intros He Ht Hm. unfold zlib_gen_buffer. destruct (random32_ret aesenc m thread e He Ht) as (v & e1 & -> & Hv & He1 & _). cbn [mbind outcome_bind fst snd].
  rewrite (proj2 (Z.eqb_neq _ _)) by lia. pose proof (Z.mod_pos_bound v max ltac:(lia)). rewrite wrap_u_small by (unfold in_u; lia).
  set (bufsz := Z.to_nat (v mod max + 4096)). destruct (memset_random_spec aesenc m thread bufsz e1 He1 Ht) as (bs & e2 & Hl & _ & He2 & _ & Hr).
  rewrite Hr by (rewrite length_replicate; lia). cbn [mbind outcome_bind fst snd]. eexists bufsz, _, e2. split; [done|]. split; [|done]. rewrite length_app, Hl. lia.
Qed.

(** On a machine without errors the zlib tests pass: for every library that works as
    documented, every random engine and thread, every limit on the rounds, every clock
    and all options in their range, each round ends and finds nothing. *)
Theorem zlib_passes compress `{!ZlibWorks z compress} fuel c t clock p m thread e :
  wrapper_ok m e -> -1 <= thread < Z.of_nat m -> 1 <= level p <= 9 -> 0 < maxbuffersize p <= 2 ^ 32 - 4096 ->
  0 < current_max_loop_count c < 2 ^ 31 ->
  exists e', zlib_run_common z aesenc (S fuel) c t clock p thread e = Ret (Some Continues, e').
Proof using Type.
  intros He Ht Hl Hm Hc. unfold zlib_run_common.
  destruct (test_loop_continues (wrapper_ok m) (zlib_body z aesenc (S fuel) p thread) 1 c t (Z.to_nat (current_max_loop_count c)) clock 0 e) as (e' & E & _); try (done || lia); [|by exists e'].
  intros e0 He0. unfold zlib_body. destruct (zlib_gen_buffer_ok m thread (maxbuffersize p) e0 He0 Ht Hm) as (bufsz & buf & e1 & -> & Hb & He1). cbn [mbind outcome_bind].
  rewrite (zcheck_works z compress) by done. cbn [mbind outcome_bind]. by exists e1.
Qed.

(** What passing means: whatever the library and the machine do, a round that finds
    nothing has compressed a random buffer and got exactly that buffer back. *)
Theorem zlib_finds_errors fuel p thread e e' : zlib_body z aesenc fuel p thread e = Ret (Some Continues, e') ->
  exists bufsz buf strm out strm', zlib_gen_buffer aesenc thread (maxbuffersize p) e = Ret (bufsz, buf, e') /\
    z_loop z fuel (deflate z) deflate_bad (deflateInit2 z (level p)).2 (stream (take bufsz buf) (bufsz * 2)) = Some (inr strm) /\
    output (bufsz * 2) strm = Ret out /\
    z_loop z fuel (inflate z) inflate_bad (inflateInit2 z).2 (stream (take (output_size (bufsz * 2) strm) out) bufsz) = Some (inr strm') /\
    output bufsz strm' = Ret (take bufsz buf).
Proof using Type.
  intros H. unfold zlib_body in H. apply outcome_bind_ret in H as ([[bufsz buf] e1] & Hg & H). apply outcome_bind_ret in H as (v & Hv & H). injection H as -> <-.
  apply zcheck_continues in Hv as (strm & out & strm' & Hv). by exists bufsz, buf, strm, out, strm'.
Qed.

(** zlib that reports, again and again, that there is no room for the output, as it
    does when what is to be decompressed has become longer: the test does not end. *)
Lemma inflate_without_room fuel st strm : (forall st strm, (inflate z st strm).1.1 = Z_BUF_ERROR) -> z_loop z fuel (inflate z) inflate_bad st strm = None.
Proof using Type.
  intros H. revert st strm. induction fuel as [|fuel IH]; intros st strm; [done|]. cbn [z_loop]. specialize (H st strm). destruct (inflate z st strm) as [[s strm'] st'].
  cbn [fst] in H. subst s. apply IH.
Qed.
End Run.

(** A library that copies its input, which is what stored blocks amount to. *)
Definition copying : Library := {|
  State := ();
  deflateInit2 := fun _ => (Z_OK, ());
  deflate := fun _ s => (Z_STREAM_END, {| next_in := []; written := next_in s; avail_out := avail_out s - len (next_in s); adler := 0 |}, ());
  inflateInit2 := (Z_OK, ());
  inflate := fun _ s => (Z_STREAM_END, {| next_in := []; written := next_in s; avail_out := avail_out s - len (next_in s); adler := 0 |}, ());
  zError := fun _ => None;
  crc32 := fun _ => 0;
|}.
#[export] Instance copying_works : ZlibWorks copying (fun _ d => d).
Proof.
  split; try done.
  - intros level d n _ Hn. eexists _, _. split; [done|]. done.
  - intros level d _. unfold deflateBound. assert (0 <= len d) by (unfold len; lia).
    pose proof (Z.div_pos (len d) 4096). pose proof (Z.div_pos (len d) 16384). pose proof (Z.div_pos (len d) 33554432). lia.
  - intros _ d. by eexists _, _.
Qed.

Definition demo_run : RunCfg := {| current_max_loop_count := 3; current_test_endtime := 1000; use_strict_runtime := false; endtime_ := 0 |}.
Lemma zlib_passes_witness : exists e', zlib_run_common copying Z.lxor 1 demo_run test0 (fun _ => 0) (zlib_init None []) 1 ex_engine = Ret (Some Continues, e').
Proof. apply (zlib_passes copying Z.lxor (fun _ d => d) 0 demo_run test0 (fun _ => 0) (zlib_init None []) 2 1 ex_engine ex_engine_ok);
  [by split|by vm_compute|by vm_compute|by vm_compute]. Defined.

Lemma zlib_finds_errors_witness : exists e', zlib_body copying Z.lxor 1 {| level := 6; maxbuffersize := 1 |} 1 ex_engine = Ret (Some Continues, e') /\
  exists bufsz buf strm', zlib_gen_buffer Z.lxor 1 1 ex_engine = Ret (bufsz, buf, e') /\ output bufsz strm' = Ret (take bufsz buf).
Proof.
  destruct (zlib_gen_buffer_ok Z.lxor 2 1 1 ex_engine ex_engine_ok) as (bufsz0 & buf0 & e' & Hg & Hb & _); [lia..|].
  assert (zlib_body copying Z.lxor 1 {| level := 6; maxbuffersize := 1 |} 1 ex_engine = Ret (Some Continues, e')) as E.
  { unfold zlib_body. cbn [maxbuffersize level]. rewrite Hg. cbn [mbind outcome_bind]. rewrite (zcheck_works copying (fun _ d => d)) by (exact Hb || lia). reflexivity. }
  exists e'. split; [exact E|].
  destruct (zlib_finds_errors copying Z.lxor 1 {| level := 6; maxbuffersize := 1 |} 1 ex_engine e' E) as (bufsz & buf & strm & out & strm' & H & _ & _ & _ & H').
  exists bufsz, buf, strm'. split; [exact H|exact H'].
Defined.

(** The test for level 9 runs with level 6. *)
Example zlib9_level : level (zlib9_init None []) = 6.
Proof. done. Qed.

(** With a smaller maxbuffersize, zlib_aaa reads 4 MB from the smaller buffer. *)
Lemma zlib_aaa_reads_past z fuel p e : maxbuffersize p < BUF_MAX -> zlib_aaa_body z fuel p e = Ub.
Proof.
  intros H. unfold zlib_aaa_body, zcheck, read_buffer. rewrite length_replicate, (proj2 (Nat.leb_gt _ _)) by (unfold BUF_MAX in *; lia). done.
Qed.

(** maxbuffersize=0 divides by zero. *)
Lemma zlib_empty_buffer aesenc thread e : zlib_gen_buffer aesenc thread 0 e = Ub \/ exists c, zlib_gen_buffer aesenc thread 0 e = Exit c.
Proof. unfold zlib_gen_buffer. destruct (random32 aesenc thread e) as [r|c|]; [by left|right; by exists c|by left]. Qed.
End Zlib.

(** * Zstandard *)

Module Zstd.
(** The library: the bound on compressed data; compression into a buffer of a given
    size with a level, and decompression into one, each giving data or an error code. *)
Record Library := {
  ZSTD_compressBound : nat -> nat;
  ZSTD_compress : nat -> bytes -> Z -> Z + bytes;
  ZSTD_decompress : nat -> bytes -> Z + bytes;
  ZSTD_getErrorString : Z -> str;
}.
Definition ZSTD_error_memory_allocation : Z := 64.
Definition ZSTD_CLEVEL_DEFAULT : Z := 3.

Section Test.
Context (z : Library) (aesenc : Z -> Z -> Z).

Definition zstd_report_fail (name : str) (code : Z) : verdict :=
  Reported (if code =? ZSTD_error_memory_allocation then Some (name ++ L " reported memory allocation error") else None)
    (name ++ L " failed: " ++ to_string code ++ L " (" ++ ZSTD_getErrorString z code ++ L ")").

(** zstd_check(): the sizes are compared as the eight bytes of a size_t, then the
    data *)
Definition zstd_check (bufsz : nat) (buf : bytes) (level : Z) : outcome verdict :=
  input ← read_buffer bufsz buf;
  let bnd := ZSTD_compressBound z bufsz in
  match ZSTD_compress z bnd input level with
  | inl code => Ret (zstd_report_fail (L "ZSTD_compress") code)
  | inr data =>
      comp_buf ← write_at 0 data (replicate bnd 0);
      compressed ← read_buffer (length data) comp_buf;
      match ZSTD_decompress z bufsz compressed with
      | inl code => Ret (zstd_report_fail (L "ZSTD_decompress") code)
      | inr back =>
          back_buf ← write_at 0 back (replicate bufsz 0);
          match memcmp_or_fail (le_bytes 8 (len back)) (le_bytes 8 (Z.of_nat bufsz)) with
          | Continues => Ret (memcmp_or_fail back_buf input)
          | v => Ret v
          end
      end
  end.

(** struct zstd_parameters, zstd_init_common() and the test_init functions *)
Record zstd_parameters := { compression : Z; maxbuffersize : Z }.
Definition BUF_MAX : Z := 1024 * 1024 * 32.
Definition BUF_MAX_AAA : Z := 1024 * 1024 * 4.
Definition zstd_init_common (test_id : option str) (knobs : Knobs) (level : Z) : zstd_parameters :=
  let max := BUF_MAX in
  let max := if level =? ZSTD_CLEVEL_DEFAULT then max else max / 4 in
  let max := if 12 <? level then max / 4 else max in
  {| compression := if level =? ZSTD_CLEVEL_DEFAULT then i32 (get_testspecific_knob_value_int test_id (L "level") level knobs).1 else level;
     maxbuffersize := u32 (get_testspecific_knob_value_uint test_id (L "maxbuffersize") max knobs).1 |}.
Definition zstd_init (test_id : option str) (knobs : Knobs) := zstd_init_common test_id knobs ZSTD_CLEVEL_DEFAULT.
Definition zstd1_init (test_id : option str) (knobs : Knobs) := zstd_init_common test_id knobs 1.
Definition zstd19_init (test_id : option str) (knobs : Knobs) := zstd_init_common test_id knobs 19.
Definition zstd_aaa_init (test_id : option str) (knobs : Knobs) : zstd_parameters :=
  {| compression := i32 (get_testspecific_knob_value_int test_id (L "level") 19 knobs).1;
     maxbuffersize := u32 (get_testspecific_knob_value_uint test_id (L "maxbuffersize") BUF_MAX_AAA knobs).1 |}.

(** zstd_gen_buffer() *)
Definition zstd_gen_buffer (thread max : Z) (e : RandomEngineWrapper) : outcome (nat * bytes * RandomEngineWrapper) :=
  r ← random32 aesenc thread e;
  if max =? 0 then Ub
  else
    let bufsz := Z.to_nat (u32 (r.1 mod max + 4096)) in
    r ← memset_random aesenc thread (replicate (bufsz + 16) 0) bufsz r.2;
    Ret (bufsz, r.1, r.2).

(** zstd_run_common() and zstd_aaa_run() *)
Definition zstd_body (p : zstd_parameters) (thread : Z) (e : RandomEngineWrapper) : outcome (option verdict * RandomEngineWrapper) :=
  r ← zstd_gen_buffer thread (maxbuffersize p) e;
  let '(bufsz, buf, e) := r in
  v ← zstd_check bufsz buf (compression p);
  Ret (Some v, e).
Definition zstd_run_common (c : RunCfg) (t : test) (clock : nat -> Z) (p : zstd_parameters) (thread : Z) (e : RandomEngineWrapper) :=
  TEST_LOOP (Z.to_nat (current_max_loop_count c)) 1 c t clock 0 (zstd_body p thread) e.
Definition zstd_aaa_body (p : zstd_parameters) (e : RandomEngineWrapper) : outcome (option verdict * RandomEngineWrapper) :=
  let n := Z.to_nat (maxbuffersize p) in
  v ← zstd_check n (replicate n 97) (compression p);
  Ret (Some v, e).
Definition zstd_aaa_run (c : RunCfg) (t : test) (clock : nat -> Z) (p : zstd_parameters) (e : RandomEngineWrapper) :=
  TEST_LOOP (Z.to_nat (current_max_loop_count c)) 1 c t clock 0 (zstd_aaa_body p) e.
End Test.

(** ** Facts *)

(** The documented behaviour of the library. *)
Class ZstdWorks (z : Library) : Prop := {
  zstd_roundtrip d level : exists data, ZSTD_compress z (ZSTD_compressBound z (length d)) d level = inr data /\
    (length data <= ZSTD_compressBound z (length d))%nat /\ ZSTD_decompress z (length d) data = inr d;
}.

Lemma zstd_check_works z `{!ZstdWorks z} bufsz buf level : (bufsz <= length buf)%nat -> zstd_check z bufsz buf level = Ret Continues.
Proof.
  intros Hb. unfold zstd_check, read_buffer. rewrite (proj2 (Nat.leb_le _ _)) by done. cbn [mbind outcome_bind]. set (input := take bufsz buf).
  assert (length input = bufsz) as Hl by (unfold input; rewrite length_take; lia). destruct (zstd_roundtrip input level) as (data & Hc & Hd & Hr). rewrite Hl in *. rewrite Hc.
  rewrite write_at_ret by (rewrite length_replicate; lia). cbn [mbind outcome_bind]. rewrite take_0, app_nil_l.
  rewrite (proj2 (Nat.leb_le _ _)) by (rewrite length_app; lia). cbn [mbind outcome_bind]. rewrite take_app_length, Hr, Zlib.output_full by done. cbn [mbind outcome_bind].
  unfold len. rewrite Hl. unfold memcmp_or_fail. by rewrite !bool_decide_true.
Qed.

(** What passing means: the library gave back the data, all of it and no more. *)
Lemma zstd_check_continues z bufsz buf level : Z.of_nat bufsz < 2 ^ 63 -> zstd_check z bufsz buf level = Ret Continues ->
  exists data, ZSTD_compress z (ZSTD_compressBound z bufsz) (take bufsz buf) level = inr data /\ ZSTD_decompress z bufsz data = inr (take bufsz buf).
Proof.
  intros Hsz H. unfold zstd_check, read_buffer in H. destruct (Nat.leb_spec bufsz (length buf)) as [Hb|]; [|done]. cbn [mbind outcome_bind] in H.
  destruct (ZSTD_compress z _ _ level) as [code|data] eqn:Ec; [done|]. exists data. split; [done|]. apply outcome_bind_ret in H as (comp & Hw & H).
  unfold write_at in Hw. destruct (Nat.leb_spec (0 + length data) (length (replicate (ZSTD_compressBound z bufsz) 0))); [|done]. injection Hw as <-. rewrite ?take_0, ?app_nil_l in H.
  rewrite (proj2 (Nat.leb_le _ _)) in H by (rewrite length_app; lia). cbn [mbind outcome_bind] in H. rewrite take_app_length in H.
  destruct (ZSTD_decompress z bufsz data) as [code|back]; [done|]. f_equal. apply outcome_bind_ret in H as (back_buf & Hw & H). unfold write_at in Hw.
  rewrite length_replicate in Hw. destruct (Nat.leb_spec (0 + length back) bufsz) as [Hle|]; [|done]. injection Hw as <-. rewrite ?take_0, ?app_nil_l in H.
  unfold memcmp_or_fail at 1 in H. destruct (bool_decide (le_bytes 8 (len back) = le_bytes 8 (Z.of_nat bufsz))) eqn:E; [|done]. apply bool_decide_eq_true in E.
  apply (f_equal le_value) in E. rewrite !le_value_bytes_small in E by (unfold len; change (8 * Z.of_nat 8) with 64; lia). unfold len in E.
  unfold memcmp_or_fail in H. destruct (bool_decide (back ++ _ = _)) eqn:Ed in H; [|done]. apply bool_decide_eq_true in Ed.
  rewrite drop_ge, app_nil_r in Ed by (rewrite length_replicate; lia). done.
Qed.
End Zstd.
