(* ===== verification/OpenSsl.v ===== *)
(** OpenSSL in the program: finding the library at run time
    (src/framework/sandstone_ssl.cpp), its random numbers from the generators of the
    framework (sandstone_ssl_rand.cpp), and the test of its digests
    (src/tests/openssl/openssl_sha.cpp). The library is a parameter. *)

From S2P Require Import Prelude CStdlib Bytes Timing Random Program Workloads.

(** * Loading *)

(** SANDSTONE_SSL_GENERIC_FUNCTIONS of sandstone_ssl.h *)
Definition generic_functions : list str :=
  L <$> ["OPENSSL_init"; "OPENSSL_init_crypto"; "OPENSSL_INIT_free"; "OPENSSL_INIT_new"; "OPENSSL_INIT_set_config_appname";
         "OPENSSL_INIT_set_config_file_flags"; "OPENSSL_INIT_set_config_filename"; "OpenSSL_version"; "OpenSSL_version_num"]%string.

(** The pointers s_<function>, of which [None] is null, OpenSSLWorking, and the calls of
    OPENSSL_init(). *)
Record SslState := { pointer : str -> option Z; OpenSSLWorking : bool; inits : nat }.
Definition ssl_state0 : SslState := {| pointer := fun _ => None; OpenSSLWorking := false; inits := 0 |}.

(** sandstone_ssl_init(), when OpenSSL is not linked: [libcrypto] is what dlsym() finds in
    libcrypto.so.3, if that can be opened; [functions] are the other functions of
    SANDSTONE_SSL_FUNCTIONS. *)
Definition sandstone_ssl_init (libcrypto : option (str -> option Z)) (functions : list str) (st : SslState) : SslState :=
  match libcrypto with
  | None => st
  | Some dlsym =>
      let pointer := fun name => if bool_decide (name ∈ generic_functions ++ functions) then dlsym name else pointer st name in
      let failed := existsb (fun name => match pointer name with None => true | Some _ => false end) generic_functions in
      {| pointer := pointer; OpenSSLWorking := if failed then OpenSSLWorking st else true; inits := if failed then inits st else S (inits st) |}
  end.

(** ** What is reported *)

(** The order of strings. *)
Definition str_le (a b : str) : Prop := str_ltb b a = false.
#[export] Instance str_le_dec a b : Decision (str_le a b).
Proof. unfold str_le. apply _. Defined.

(** The names between ['...'] *)
Definition quoted_list (l : list str) : str := concat (imap (fun i s => if (i =? 0)%nat then s else L "','" ++ s) l).

(** add_providers(): each provider with its version, if OSSL_PROVIDER_get_params() gives
    one; a release build leaves out two of them. *)
Definition provider_info (p : str * option str) : str := match p.2 with Some version => p.1 ++ L " " ++ version | None => p.1 end.
Definition listed_provider (ndebug : bool) (p : str * option str) : bool :=
  negb (ndebug && (str_eqb p.1 (L "default") || str_eqb p.1 (L "sandstone-rand"))).
Definition add_providers (st : SslState) (ndebug : bool) (providers : list (str * option str)) (info : str) : str :=
  match pointer st (L "OSSL_PROVIDER_do_all") with
  | None => info
  | Some _ =>
      match provider_info <$> filter (fun p => listed_provider ndebug p = true) providers with
      | [] => info
      | infos => info ++ L ", providers: ['" ++ quoted_list (merge_sort str_le infos) ++ L "']"
      end
  end.

(** add_engines() *)
Definition add_engines (st : SslState) (engines : list str) (info : str) : str :=
  match pointer st (L "ENGINE_get_first") with
  | None => info
  | Some _ => info ++ L ", engines: ['" ++ quoted_list (merge_sort str_le engines) ++ L "']"
  end.

(** openssl_info() *)
Definition openssl_info (st : SslState) (ndebug : bool) (version : str) (providers : list (str * option str)) (engines : list str) : str :=
  match pointer st (L "OpenSSL_version") with
  | None => []
  | Some _ => add_engines st engines (add_providers st ndebug providers version)
  end.

(** * Random numbers for OpenSSL *)

Definition EVP_RAND_STATE_UNINITIALISED : Z := 0.
Definition INT_MAX : Z := 2 ^ 31 - 1.

(** sandstone_rand_newctx(): the context is the state of the generator, in memory
    from malloc(). *)
Definition sandstone_rand_newctx (allocated : bool) : option Z := if allocated then Some EVP_RAND_STATE_UNINITIALISED else None.
Definition sandstone_rand_instantiate : Z := 1.
Definition sandstone_rand_uninstantiate : Z := 1.
Definition sandstone_rand_enable_locking : Z := 1.

(** sandstone_rand_generate() *)
Definition sandstone_rand_generate (aesenc : Z -> Z -> Z) (thread : Z) (out : list Z) (outlen : nat) (e : RandomEngineWrapper) : outcome (Z * list Z * RandomEngineWrapper) :=
  r ← memset_random aesenc thread out outlen e;
  Ret (1, r.1, r.2).

(** sandstone_rand_get_ctx_params() over the parameters asked for: each has a name, and
    [accepts] is whether OSSL_PARAM_set_int() or OSSL_PARAM_set_size_t() can store the
    value. *)
Definition param_value (ctx : Z) (name : str) : option Z :=
  if str_eqb name (L "state") then Some ctx
  else if str_eqb name (L "strength") then Some 500
  else if str_eqb name (L "max_request") then Some INT_MAX
  else None.
Definition locate (name : str) (params : list (str * option Z)) : option nat := fst <$> list_find (fun p : str * option Z => p.1 = name) params.
Definition set_param (accepts : str -> Z -> bool) (ctx : Z) (name : str) (params : list (str * option Z)) : option (list (str * option Z)) :=
  match locate name params, param_value ctx name with
  | Some i, Some v => if accepts name v then Some (<[i := (name, Some v)]> params) else None
  | _, _ => Some params
  end.
Definition sandstone_rand_get_ctx_params (accepts : str -> Z -> bool) (ctx : Z) (params : list (str * option Z)) : list (str * option Z) * Z :=
  let step name st := match st with (params, 0) => (params, 0) | (params, _) =>
    match set_param accepts ctx name params with Some params => (params, 1) | None => (params, 0) end end in
  step (L "max_request") (step (L "strength") (step (L "state") (params, 1))).

(** sandstone_ssl_rand_init(): what the three calls return, in their order; the result is
    whether a warning is printed, and how many calls were made. *)
Definition sandstone_ssl_rand_init (st : SslState) (add_builtin set_drbg : Z) (try_load : bool) : bool * nat :=
  if negb (OpenSSLWorking st) then (false, 0%nat)
  else if negb (add_builtin =? 1) then (true, 1%nat)
  else if negb (set_drbg =? 1) then (true, 2%nat)
  else (negb try_load, 3%nat).

(** * The test of the digests *)

Definition PLAINTEXT_SIZE : nat := 512.
Definition SHA_GOLDEN_ELEMS : nat := 1024.
Definition SHA_MAX_OFFSET : Z := 512.
Inductive algorithm := Sha256 | Sha384 | Sha512.
Definition digest_length (a : algorithm) : Z := match a with Sha256 => 32 | Sha384 => 48 | Sha512 => 64 end.

Record sha_elem := { plain_text : list Z; sha256sum : list Z; sha384sum : list Z; sha512sum : list Z }.
Definition sizeof_sha_elem : Z := Z.of_nat PLAINTEXT_SIZE + digest_length Sha256 + digest_length Sha384 + digest_length Sha512.
(** A pointer, a byte, the elements, and padding to the alignment of the pointer. *)
Definition sizeof_sha_test : Z := (8 + 1 + Z.of_nat SHA_GOLDEN_ELEMS * sizeof_sha_elem + 7) / 8 * 8.

Section Sha.
(** EVP_DigestFinal_ex() after init and update, as the machine computes it: it may
    differ from call to call, which are numbered. *)
Context (aesenc : Z -> Z -> Z) (digest : nat -> algorithm -> list Z -> list Z).

(** The generators and the number of digests so far. *)
Abbreviation sha_state := (RandomEngineWrapper * nat)%type.

(** ssl_sha256(), ssl_sha384() and ssl_sha512() *)
Definition checksums (plain : list Z) (n : nat) : sha_elem :=
  {| plain_text := plain; sha256sum := digest n Sha256 plain; sha384sum := digest (1 + n) Sha384 plain; sha512sum := digest (2 + n) Sha512 plain |}.

Fixpoint golden (k : nat) (st : sha_state) : outcome (list sha_elem * sha_state) :=
  match k with
  | O => Ret ([], st)
  | S k =>
      r ← memset_random aesenc (-1) (replicate PLAINTEXT_SIZE 0) PLAINTEXT_SIZE st.1;
      rest ← golden k (r.2, (3 + st.2)%nat);
      Ret (checksums r.1 st.2 :: rest.1, rest.2)
  end.

(** struct sha_test; arena_size is a byte *)
Record sha_test := { arena_offset : Z; arena_size : Z; golden_elements : list sha_elem }.

Definition sha_offset (r : Z) : Z := Z.lor (Z.land r 0x1ff) 1.

(** ssl_sha_init(): [None] is a skipped test *)
Definition ssl_sha_init (pointer : str -> option Z) (st : sha_state) : outcome (option (sha_test * sha_state)) :=
  if forallb (fun f => match pointer f with Some _ => true | None => false end)
       (L <$> ["EVP_DigestInit_ex"; "EVP_DigestUpdate"; "EVP_DigestFinal_ex"; "EVP_get_digestbyname"]%string)
  then
    r ← random64 aesenc (-1) st.1;
    let offset := sha_offset r.1 in
    g ← golden SHA_GOLDEN_ELEMS (r.2, st.2);
    Ret (Some ({| arena_offset := offset; arena_size := u8 (offset + sizeof_sha_test); golden_elements := g.1 |}, g.2))
  else Ret None.

(** One round of ssl_sha_run(); the element must lie in the arena of the thread. *)
Definition sha_compare (our golden_elem : sha_elem) : verdict :=
  match memcmp_or_fail (sha256sum our) (sha256sum golden_elem) with
  | Continues =>
      match memcmp_or_fail (sha384sum our) (sha384sum golden_elem) with
      | Continues => memcmp_or_fail (sha512sum our) (sha512sum golden_elem)
      | v => v
      end
  | v => v
  end.
Definition sha_body (t : sha_test) (thread : Z) (st : sha_state) : outcome (option verdict * sha_state) :=
  r ← random64 aesenc thread st.1;
  let our_offset := sha_offset r.1 in
  r ← random64 aesenc thread r.2;
  let golden_idx := Z.land r.1 (Z.of_nat SHA_GOLDEN_ELEMS - 1) in
  golden_elem ← at_ (golden_elements t) golden_idx;
  _ ← assertion (our_offset + sizeof_sha_elem <=? SHA_MAX_OFFSET + sizeof_sha_elem);
  Ret (Some (sha_compare (checksums (plain_text golden_elem) st.2) golden_elem), (r.2, (3 + st.2)%nat)).
Definition ssl_sha_run (c : RunCfg) (t : test) (clock : nat -> Z) (s : sha_test) (thread : Z) (st : sha_state) : outcome (option verdict * sha_state) :=
  TEST_LOOP (Z.to_nat (current_max_loop_count c)) 256 c t clock 0 (sha_body s thread) st.
End Sha.

(** * Facts *)

(** ** Loading *)

(** OpenSSL counts as working exactly when the library was opened and has every generic
    function; then no pointer of these is null, and OPENSSL_init() was called, once and
    not through a null pointer. *)
Theorem ssl_works_with_its_functions libcrypto functions :
  let st := sandstone_ssl_init libcrypto functions ssl_state0 in
  (OpenSSLWorking st = true <-> exists dlsym, libcrypto = Some dlsym /\ Forall (fun f => dlsym f <> None) generic_functions) /\
  (OpenSSLWorking st = true -> inits st = 1%nat /\ Forall (fun f => pointer st f <> None) generic_functions) /\
  (OpenSSLWorking st = false -> inits st = 0%nat).
Proof.
  destruct libcrypto as [dlsym|]; cbn [sandstone_ssl_init]; [|split; [split; [done|by intros (d & ? & _)]|done]].
  set (p := fun name => if bool_decide (name ∈ generic_functions ++ functions) then dlsym name else pointer ssl_state0 name).
  assert (forall f, f ∈ generic_functions -> p f = dlsym f) as Hp by (intros f Hf; unfold p; rewrite bool_decide_true; [done|]; apply elem_of_app; by left).
  assert (existsb (fun name => match p name with None => true | Some _ => false end) generic_functions = false <-> Forall (fun f => dlsym f <> None) generic_functions) as Hall.
  { rewrite <- not_true_iff_false, existsb_exists, Forall_forall. split.
    - intros H f Hf Hd. apply H. exists f. split; [by apply list_elem_of_In|]. by rewrite Hp, Hd.
    - intros H (f & Hf & Hd). apply list_elem_of_In in Hf. specialize (H f Hf). rewrite Hp in Hd by done. by destruct (dlsym f). }
  cbn [OpenSSLWorking inits pointer ssl_state0]. destruct (existsb _ generic_functions).
  - split; [|done]. split; [done|]. intros (d & [= <-] & H). by apply Hall in H.
  - assert (Forall (fun f => dlsym f <> None) generic_functions) as H by (by apply Hall). split; [split; [by exists dlsym|done]|]. split; [|done].
    intros _. split; [done|]. rewrite Forall_forall in *. intros f Hf. rewrite Hp by done. by apply H.
Qed.

#[export] Instance str_le_total : Total str_le.
Proof.
  intros a b. unfold str_le. destruct (str_ltb b a) eqn:E; [|by left]. right. destruct (str_ltb a b) eqn:E'; [|done].
  by rewrite <- (str_ltb_irrefl a), (str_ltb_trans a b a).
Qed.
#[export] Instance str_le_trans : Transitive str_le.
Proof.
  intros a b c. unfold str_le. intros H1 H2. destruct (str_ltb c a) eqn:E; [|done]. exfalso. destruct (decide (b = a)) as [->|Hba]; [congruence|].
  assert (str_ltb a b = true) as Hab by (by apply (str_ltb_total b a)). by rewrite (str_ltb_trans c a b) in H2.
Qed.

(** The engines are listed in order, whatever the library's order is; the names are
    the same. *)
Lemma engines_in_order engines : StronglySorted str_le (merge_sort str_le engines) /\ merge_sort str_le engines ≡ₚ engines.
Proof. split; [apply StronglySorted_merge_sort; apply _|apply merge_sort_Permutation]. Qed.

(** Without engines the list has one empty name, where the list of providers is left
    out. *)
Example no_engines : add_engines {| pointer := fun _ => Some 1; OpenSSLWorking := true; inits := 1 |} [] (L "3.0") = L "3.0, engines: ['']" /\
  add_providers {| pointer := fun _ => Some 1; OpenSSLWorking := true; inits := 1 |} true [] (L "3.0") = L "3.0".
Proof. done. Qed.

(** ** Random numbers *)

(** What OpenSSL draws comes from the generator of the thread, fills the request and
    never fails. *)
Lemma rand_generate_fills aesenc m thread e out : wrapper_ok m e -> -1 <= thread < Z.of_nat m ->
  exists bs e', sandstone_rand_generate aesenc thread out (length out) e = Ret (1, bs, e') /\ length bs = length out /\ wrapper_ok m e' /\ same_but thread e e'.
Proof.
  intros He Ht. destruct (memset_random_spec aesenc m thread (length out) e He Ht) as (bs & e' & Hl & _ & He' & Hs & H). unfold sandstone_rand_generate.
  rewrite H by done. cbn [mbind outcome_bind fst snd]. exists (bs ++ drop (length out) out), e'. rewrite drop_all, app_nil_r. done.
Qed.

Example rand_params : sandstone_rand_get_ctx_params (fun _ _ => true) 0 [(L "max_request", None); (L "state", None)] = ([(L "max_request", Some INT_MAX); (L "state", Some 0)], 1).
Proof. done. Qed.

(** ** Digests *)

Lemma sha_offset_range r : 1 <= sha_offset r < 512.
Proof.
  unfold sha_offset. change 0x1ff with (2 ^ 9 - 1). pose proof (land_mask_range r 9 ltac:(lia)) as Hm. unfold in_u in Hm.
  pose proof (lor_lt_pow2 (Z.land r (2 ^ 9 - 1)) 1 9 ltac:(lia) Hm ltac:(lia)) as Hl. split; [|lia].
  assert (Z.testbit (Z.lor (Z.land r (2 ^ 9 - 1)) 1) 0 = true) as Hb by (rewrite Z.lor_spec; by rewrite orb_true_r).
  destruct (Z.eq_dec (Z.lor (Z.land r (2 ^ 9 - 1)) 1) 0) as [E|]; [by rewrite E in Hb|lia].
Qed.

Section ShaFacts.
Context (aesenc : Z -> Z -> Z) (digest : nat -> algorithm -> list Z -> list Z).

Lemma golden_spec m k : forall st, wrapper_ok m st.1 -> (0 < m)%nat -> exists g e, golden aesenc digest k st = Ret (g, (e, (3 * k + st.2)%nat)) /\ wrapper_ok m e /\
  length g = k /\ forall i x, g !! i = Some x -> x = checksums digest (plain_text x) (3 * i + st.2).
Proof using Type.
  induction k as [|k IH]; intros [e n] He Hm; [by exists [], e|]. cbn [golden fst snd]. cbn [fst] in He.
  destruct (memset_random_spec aesenc m (-1) PLAINTEXT_SIZE e He ltac:(lia)) as (bs & e1 & Hl & _ & He1 & _ & Hr). rewrite Hr by (by rewrite length_replicate). cbn [mbind outcome_bind fst snd].
  destruct (IH (e1, (3 + n)%nat) He1 Hm) as (g & e2 & -> & He2 & Hg & Hi). cbn [mbind outcome_bind fst snd] in *. eexists _, e2. split; [by replace (3 * S k + n)%nat with (3 * k + (3 + n))%nat by lia|]. split; [done|].
  split; [by rewrite <- Hg|]. intros [|i] x Hx; cbn [lookup list_lookup] in Hx; [by injection Hx as <-|]. replace (3 * S i + n)%nat with (3 * i + (3 + n))%nat by lia. by apply Hi.
Qed.

Lemma memcmp_continues a b : memcmp_or_fail a b = Continues <-> a = b.
Proof using Type. unfold memcmp_or_fail. case_bool_decide; split; congruence. Qed.

Lemma sha_compare_continues a b : sha_compare a b = Continues <-> sha256sum a = sha256sum b /\ sha384sum a = sha384sum b /\ sha512sum a = sha512sum b.
Proof using Type.
  unfold sha_compare. destruct (memcmp_or_fail (sha256sum a) _) eqn:E1; [|split; [done|]; intros (H & _); apply memcmp_continues in H; congruence..].
  destruct (memcmp_or_fail (sha384sum a) _) eqn:E2; [|split; [done|]; intros (_ & H & _); apply memcmp_continues in H; congruence..].
  apply memcmp_continues in E1, E2. rewrite memcmp_continues. tauto.
Qed.

Lemma sha_body_spec m t thread st : wrapper_ok m st.1 -> -1 <= thread < Z.of_nat m -> length (golden_elements t) = SHA_GOLDEN_ELEMS ->
  exists x e, x ∈ golden_elements t /\ wrapper_ok m e /\
    sha_body aesenc digest t thread st = Ret (Some (sha_compare (checksums digest (plain_text x) st.2) x), (e, (3 + st.2)%nat)).
Proof using Type.
  intros He Ht Hl. unfold sha_body. destruct (random64_ret aesenc m thread st.1 He Ht) as (r1 & e1 & -> & _ & He1 & _). cbn [mbind outcome_bind fst snd].
  destruct (random64_ret aesenc m thread e1 He1 Ht) as (r2 & e2 & -> & _ & He2 & _). cbn [mbind outcome_bind fst snd].
  pose proof (land_mask_range r2 10 ltac:(lia)) as Hm. change (Z.of_nat SHA_GOLDEN_ELEMS - 1) with (2 ^ 10 - 1).
  destruct (at_ret (golden_elements t) (Z.land r2 (2 ^ 10 - 1))) as (x & -> & Hx); [unfold len; rewrite Hl; change (Z.of_nat SHA_GOLDEN_ELEMS) with (2 ^ 10); exact Hm|]. cbn [mbind outcome_bind].
  pose proof (sha_offset_range r1). rewrite (proj2 (Z.leb_le _ _)) by (unfold SHA_MAX_OFFSET; lia). cbn [assertion mbind outcome_bind].
  exists x, e2. split; [by apply list_elem_of_lookup_2 in Hx|done].
Qed.

Lemma sha_init_ok m pointer st : wrapper_ok m st.1 -> (0 < m)%nat -> (forall f, pointer f <> None) -> exists s st', ssl_sha_init aesenc digest pointer st = Ret (Some (s, st')).
Proof using Type.
  intros He Hm Hp. unfold ssl_sha_init. rewrite (proj2 (forallb_forall _ _)) by (intros f _; specialize (Hp f); by destruct (pointer f)).
  destruct (random64_ret aesenc m (-1) st.1 He ltac:(lia)) as (r & e1 & -> & _ & He1 & _). cbn [mbind outcome_bind fst snd].
  destruct (golden_spec m SHA_GOLDEN_ELEMS (e1, st.2) He1 Hm) as (g & e2 & -> & _). cbn [mbind outcome_bind fst snd]. by eexists _, _.
Qed.

(** C27. The test of the digests: a round that goes on has seen the three digests that were
    computed at the start, whatever the machine computes in between; and on a machine
    that computes the same digest each time the whole test passes, the element of the
    round always lying in the arena. *)
Theorem sha_detects_and_passes m thread pointer st0 s st c t clock :
  wrapper_ok m st0.1 -> -1 <= thread < Z.of_nat m -> (0 < m)%nat -> ssl_sha_init aesenc digest pointer st0 = Ret (Some (s, st)) ->
  (forall st1, wrapper_ok m st1.1 -> exists x v st2, x ∈ golden_elements s /\ sha_body aesenc digest s thread st1 = Ret (Some v, st2) /\
     (v = Continues <-> digest st1.2 Sha256 (plain_text x) = sha256sum x /\ digest (1 + st1.2)%nat Sha384 (plain_text x) = sha384sum x /\
                        digest (2 + st1.2)%nat Sha512 (plain_text x) = sha512sum x)) /\
  ((forall n n' a d, digest n a d = digest n' a d) -> 0 < current_max_loop_count c < 2 ^ 31 ->
   exists st', ssl_sha_run aesenc digest c t clock s thread st = Ret (Some Continues, st')).
Proof using Type.
  intros He Ht Hm Hi. unfold ssl_sha_init in Hi. destruct (forallb _ _); [|done]. destruct (random64_ret aesenc m (-1) st0.1 He ltac:(lia)) as (r & e1 & E1 & _ & He1 & _).
  rewrite E1 in Hi. cbn [mbind outcome_bind fst snd] in Hi. destruct (golden_spec m SHA_GOLDEN_ELEMS (e1, st0.2) He1 Hm) as (g & e2 & Hg & He2 & Hl & Hgold).
  rewrite Hg in Hi. cbn [mbind outcome_bind fst snd] in Hi. injection Hi as <- <-. split.
  - intros st1 H1. destruct (sha_body_spec m {| arena_offset := sha_offset r; arena_size := u8 (sha_offset r + sizeof_sha_test); golden_elements := g |} thread st1 H1 Ht Hl)
      as (x & e & Hx & _ & E). eexists x, _, _. split; [exact Hx|]. split; [exact E|]. apply sha_compare_continues.
  - intros Hdet Hc. unfold ssl_sha_run. match goal with |- exists st', TEST_LOOP _ _ _ _ _ _ ?b ?s0 = _ =>
      destruct (test_loop_continues (fun st : RandomEngineWrapper * nat => wrapper_ok m st.1) b 256 c t (Z.to_nat (current_max_loop_count c)) clock 0 s0) as (st' & E & _); try (done || lia); [|by exists st'] end.
    intros st1 H1. destruct (sha_body_spec m {| arena_offset := sha_offset r; arena_size := u8 (sha_offset r + sizeof_sha_test); golden_elements := g |} thread st1 H1 Ht Hl)
      as (x & e & Hx & He' & E). exists (e, (3 + st1.2)%nat). split; [|done]. rewrite E. repeat f_equal. apply sha_compare_continues.
    apply list_elem_of_lookup in Hx as (i & Hx). cbn [golden_elements] in Hx. rewrite (Hgold i x Hx). cbn [checksums plain_text sha256sum sha384sum sha512sum].
    split; [|split]; apply Hdet.
Qed.
End ShaFacts.

(** A digest that repeats the first byte. *)
Definition demo_digest (_ : nat) (a : algorithm) (d : list Z) : list Z := replicate (Z.to_nat (digest_length a)) (default 0 (head d)).
Lemma sha_detects_and_passes_witness : exists s st st', ssl_sha_init Z.lxor demo_digest (fun _ => Some 1) (ex_engine, 0%nat) = Ret (Some (s, st)) /\
  ssl_sha_run Z.lxor demo_digest Zlib.demo_run test0 (fun _ => 0) s 1 st = Ret (Some Continues, st').
Proof.
  destruct (sha_init_ok Z.lxor demo_digest 2 (fun _ => Some 1) (ex_engine, 0%nat) ex_engine_ok) as (s & st & Hi); [lia|done|].
  destruct (sha_detects_and_passes Z.lxor demo_digest 2 1 (fun _ => Some 1) (ex_engine, 0%nat) s st Zlib.demo_run test0 (fun _ => 0) ex_engine_ok ltac:(lia) ltac:(lia) Hi) as [_ H].
  destruct H as (st' & H); [reflexivity|cbn [Zlib.demo_run current_max_loop_count]; lia|]. exists s, st, st'. split; [exact Hi|exact H].
Defined.

(** The size of the arena is kept in a byte, which does not hold it. *)
Example arena_size_truncated : sizeof_sha_test = 671760 /\ u8 (1 + sizeof_sha_test) = 17.
Proof. by vm_compute. Qed.
