(* ===== verification/SelfTest.v ===== *)
(** The self tests of the program (src/framework/selftest.cpp) and the results they have
    when the framework runs them: test functions as programs of log messages and ways to
    end, run by the child process (Runner), its threads (Timing) and the loggers
    (Logging). *)

From S2P Require Import Prelude CStdlib Results ThreadData Logging CpuInfo Timing SlicePlan Knobs Opts Report Mismatch Runner.

(** * Test functions *)

(** What a test function does to the logs. *)
Inductive act :=
| Log (letter : ascii) (text : str)
| LogSkip (text : str)
| LogPlatform (text : str)
| LogData (message : str) (data : list Z).

(** How it ends: it returns a number, throws an exception, calls report_fail() or
    report_fail_msg() at a line, or ends the process, with a status as a shell sees it. *)
Inductive fn_end := Return (ret : Z) | Throw (what type : str) | ReportFail (line : Z) (message : option str) | Dies (status : Z).
Record prog := { acts : list act; ends : fn_end }.

Definition SelftestSkipCategory : Z := 12.

Section Exec.
Context (cfg : LogCfg) (now : Z).

(** log_debug(), log_info(), log_warning() and log_error() start the message with a
    letter; log_skip(), log_platform_message(), log_data() *)
Definition do_act (thread : Z) (a : act) (s : Shm) : outcome Shm :=
  match a with
  | Log letter text => log_message cfg now thread (letter :: L "> " ++ text) s
  | LogSkip text => log_message_skip cfg thread SelftestSkipCategory text s
  | LogPlatform text => log_platform_message cfg now (L "I> " ++ text) s
  | LogData message data => log_data cfg thread message data s
  end.
Definition do_acts (thread : Z) (l : list act) (s : Shm) : outcome Shm := fold_outcome (fun s a => do_act thread a s) l s.

(** A test thread's function. *)
Definition exec (thread : Z) (p : prog) (s : Shm) : outcome (Shm * run_end) :=
  s ← do_acts thread (acts p) s;
  match ends p with
  | Return ret => Ret (s, Returned ret)
  | Throw what type => Ret (s, Threw what type)
  | ReportFail line message =>
      (* __FILE__ without the directories *)
      r ← report_fail cfg false now thread (L "selftest.cpp") line message s;
      match r.2 with Mismatch.Cancelled => Ret (r.1, Timing.Cancelled) | Trapped => Exit EXIT_SIGILL end
  | Dies status => Exit status
  end.

(** The functions test_init and test_cleanup, in the main thread of the child. *)
Definition exec_main (p : prog) (s : Shm) : outcome (Shm * Z) :=
  s ← do_acts (-1) (acts p) s;
  match ends p with Return ret => Ret (s, ret) | Dies status => Exit status | _ => Ub end.
End Exec.

Definition say (l : list act) (ret : Z) : prog := {| acts := l; ends := Return ret |}.
Definition pass : prog := say [] EXIT_SUCCESS.

(** * The functions *)

(** The machine, as the child sees it: sApp->thread_count, num_packages() and the packages of the
    processors; sched_getcpu(); the random numbers a thread draws, in their order; what
    memset_random() fills a buffer with. *)
Record Machine := { thread_count : Z; num_packages : Z; package_of : Z -> Z; getcpu : Z -> Z; numbers : Z -> nat -> Z; random_bytes : Z -> list Z }.

(** C's double: reading one with strtod(), which gives the rest of the text, the value 2.5, [!=], and printing with
    %.17g. *)
Record CDouble := { double : Type; strtod : str -> double * str; two_and_a_half : double; differs : double -> double -> bool; print_17g : double -> str }.

Section Functions.
Context (m : Machine) (knobs : Knobs) (dbl : CDouble).
Definition number (z : Z) : str := to_string z.

Definition selftest_pass_run (_ : Z) : prog := pass.
(** The sleeps and the loops over test_time_condition() leave nothing behind. *)
Definition selftest_timedpass_run (_ : Z) : prog := pass.
Definition selftest_logs_init : prog :=
  say [Log "d" (L "This is a debug message from init function");
       Log "I" (L "This is a multiline info message from init function" ++ [newline] ++ L "Second line.");
       Log "W" (L "This is a warning message from init function ending in newline" ++ [newline])] EXIT_SUCCESS.
Definition selftest_logs_run (cpu : Z) : prog :=
  say [Log "d" (L "This is a debug message from cpu " ++ number cpu);
       Log "I" (L "This is a multiline info message from cpu " ++ number cpu ++ [newline] ++ L "Second line.");
       Log "W" (L "This is a warning message from cpu " ++ number cpu ++ L ". Random number: " ++ number (numbers m cpu 0) ++ L "'")] EXIT_SUCCESS.
Definition logdata_text : list Z := map code (concat (replicate 6 (L "0123456789")) ++ L "0123456").
Definition selftest_logdata_run (cpu : Z) : prog :=
  say [LogData (L "same") logdata_text; LogData (L "random") (random_bytes m cpu)] EXIT_SUCCESS.
Definition selftest_log_platform_init : prog := say [LogPlatform (L "This is an informational platform message")] EXIT_SUCCESS.
(** That the options were read is logged, too, when some were given: logging_mark_knob_used() of Knobs.v, whose
    messages are not those of the test. *)
Definition selftest_logs_options_init (test_id : option str) : prog :=
  let strvalue := (get_testspecific_knob_value_string test_id (L "StringValue") (Some (L "DefaultValue")) knobs).1 in
  let nullstrvalue := (get_testspecific_knob_value_string test_id (L "NullStringValue") None knobs).1 in
  let u64 := (get_testspecific_knob_value_uint test_id (L "UIntValue") 0 knobs).1 in
  let i64 := (get_testspecific_knob_value_int test_id (L "IntValue") (-1) knobs).1 in
  let f64 := (knob_value_double (strtod dbl) test_id (L "DoubleValue") (two_and_a_half dbl) knobs).1 in
  say ([Log "I" (L "StringValue = " ++ default (L "(null)") strvalue)] ++
       match nullstrvalue with Some s => [Log "I" (L "NullStringValue = " ++ s)] | None => [] end ++
       (if negb (u64 =? 0) || negb (i64 =? -1) then [Log "I" (L "Numbers: " ++ number u64 ++ L " " ++ number i64)] else []) ++
       (if differs dbl f64 (two_and_a_half dbl) then [Log "I" (L "Double: " ++ print_17g dbl f64)] else [])) EXIT_SUCCESS.
Definition selftest_logs_getcpu_run (cpu : Z) : prog := say [Log "I" (number (getcpu m cpu))] EXIT_SUCCESS.
Definition four_numbers (thread : Z) : str :=
  number (numbers m thread 0) ++ L " " ++ number (numbers m thread 1) ++ L " " ++ number (numbers m thread 2) ++ L " " ++ number (numbers m thread 3).
Definition selftest_logs_random_init : prog := say [Log "I" (four_numbers (-1))] EXIT_SUCCESS.
Definition selftest_logs_random_run (cpu : Z) : prog := say [Log "I" (four_numbers cpu)] EXIT_SUCCESS.
(** The exception that is caught carries the number of the thread. *)
Definition selftest_cxxthrowcatch_run (cpu : Z) : prog :=
  let e_cpu := cpu in
  if e_cpu =? cpu then pass else {| acts := []; ends := ReportFail 0 None |}.
Definition selftest_skip_init : prog :=
  say [Log "I" (L "{" ++ [dquote] ++ L "packages" ++ [dquote] ++ L ": " ++ number (num_packages m) ++ L ", " ++ [dquote] ++ L "cpus" ++ [dquote] ++ L ": " ++ number (thread_count m) ++ L "}");
       Log "I" (L "Requesting skip (this message should be visible)")] EXIT_SKIP.
(** abort() *)
Definition not_reached : prog := {| acts := [Log "E" (L "We should not reach here")]; ends := Dies EXIT_ABORT |}.
Definition selftest_skip_run (_ : Z) : prog := not_reached.
Definition selftest_log_skip_init : prog := say [LogSkip (L "This is a skip in init")] EXIT_SKIP.
Definition selftest_logerror_init : prog := say [Log "E" (L "Error logged in init, test is not expected to run any threads")] EXIT_SUCCESS.
Definition selftest_skipmsg_success_cleanup : prog := say [LogSkip (L "SUCCESS after skipmsg from cleanup")] EXIT_SKIP.
Definition selftest_skipmsg_skip_cleanup : prog := say [LogSkip (L "SKIP after skipmsg from cleanup")] EXIT_SKIP.
Definition selftest_skip_cleanup : prog := say [Log "I" (L "SKIP returned silently from cleanup")] EXIT_SKIP.
Definition ENOMEM : Z := 12.
Definition selftest_errno_cleanup : prog := say [Log "I" (L "Unexpected OS error reported from cleanup")] (- ENOMEM).
Definition selftest_errormsg_success_cleanup : prog := say [Log "E" (L "Error logged in cleanup")] EXIT_SUCCESS.
Definition selftest_fail_cleanup : prog := say [Log "I" (L "cleanup returns FAIL")] EXIT_FAILURE.
Definition on_socket (package_id : Z) : bool := (num_packages m =? 1) && (package_of m 0 =? package_id).
Definition selftest_log_skip_socket_init (package_id : Z) : prog := if on_socket package_id then selftest_log_skip_init else pass.
Definition selftest_log_skip_socket_run (package_id cpu : Z) : prog := if on_socket package_id then selftest_skip_run cpu else pass.
Definition selftest_log_skip_run_all_threads (_ : Z) : prog := say [LogSkip (L "Skipping on all threads")] EXIT_SKIP.
Definition selftest_log_skip_run_even_threads (cpu : Z) : prog :=
  if cpu mod 2 =? 0 then say [LogSkip (L "Skipping on even numbered threads")] EXIT_SKIP else pass.
Definition selftest_log_skip_newline_init : prog :=
  say [LogSkip (L "This is a skip in init " ++ [newline] ++ L "with a new line." ++ [newline] ++ L "Will it work?")] EXIT_SKIP.
Definition selftest_log_skip_newline_run (_ : Z) : prog := say [LogSkip (L "This message should never be displayed")] EXIT_FAILURE.
(** The threads run in their order, so the one before has stored its number. *)
Definition selftest_check_sequential_run (last cpu : Z) : prog :=
  {| acts := [Log "d" (L "Last CPU was " ++ number last)];
     ends := if last =? cpu - 1 then Return EXIT_SUCCESS else ReportFail 379 (Some (L "Last CPU " ++ number last ++ L " was not expected")) |}.
(** "%#016" PRIx64 *)
Definition fmt_alt_016x (z : Z) : str := if z =? 0 then pad "0"%char 16 (L "0") else L "0x" ++ fmt_0x 14 z.
Definition selftest_randomprint_init : prog := say [Log "I" (L "Random number: " ++ fmt_alt_016x (numbers m (-1) 0))] EXIT_SUCCESS.
Definition selftest_fail_run (_ : Z) : prog := say [] EXIT_FAILURE.
Definition selftest_failinit_init : prog := say (acts selftest_randomprint_init) EXIT_FAILURE.
Definition selftest_failinit_run (_ : Z) : prog := not_reached.
Definition selftest_logerror_run (cpu : Z) : prog := say [Log "E" (L "This is an error message from CPU " ++ number cpu)] EXIT_SUCCESS.
Definition selftest_reportfail_run (_ : Z) : prog := {| acts := []; ends := ReportFail 508 None |}.
Definition selftest_reportfailmsg_run (cpu : Z) : prog := {| acts := []; ends := ReportFail 516 (Some (L "Failure message from thread " ++ number cpu)) |}.
(** [value * thread_count] is a positive unsigned, as for every machine there is. *)
Definition selftest_randomfail_run (value cpu : Z) : prog :=
  let ratio := u32 (value * thread_count m) in
  if u32 (numbers m cpu 0) mod ratio =? 0 then say [] EXIT_FAILURE else pass.
(** adjust_cpu_for_isolate_socket() for the processors before [cpu], from [cpu - 1] down *)
Fixpoint adjust_from (n : nat) (cpu : Z) : Z :=
  match n with
  | O => cpu
  | S n => if package_of m (Z.of_nat n) =? package_of m cpu then adjust_from n cpu else cpu - Z.of_nat n - 1
  end.
Definition adjust_cpu_for_isolate_socket (cpu : Z) : Z := adjust_from (Z.to_nat cpu) cpu.
Definition selftest_if_socket1_initcleanup (f : prog) : prog := if package_of m 0 =? 1 then f else pass.
Definition selftest_if_socket1_run (f : Z -> prog) (cpu : Z) : prog := if package_of m cpu =? 1 then f (adjust_cpu_for_isolate_socket cpu) else pass.
Definition selftest_cxxthrow_run (_ : Z) : prog := {| acts := []; ends := Throw (L "OpenDCDiag C++ selftest exception") (L "SelftestException") |}.
(** selftest_crash_run<F>() and selftest_crash_initcleanup<F>() for a function that ends the process
    with the signal *)
Definition crash (signal : Z) : prog := {| acts := []; ends := Dies (128 + signal) |}.
Definition selftest_crash_run (signal cpu : Z) : prog := if (cpu =? 1) || (thread_count m =? 1) then crash signal else pass.
Definition selftest_crash_initcleanup (signal : Z) : prog := crash signal.
(** malloc() does not return when there is no memory: for this size, it aborts. *)
Definition selftest_malloc_fail (_ : Z) : prog := crash 6.
Definition EX_CONFIG : Z := 78.
Definition selftest_oserror_run (_ : Z) : prog := {| acts := []; ends := Dies EX_CONFIG |}.
End Functions.


(** * The tests *)

(** An entry of selftests_array: the fields the framework reads, and its functions. The
    function of a thread is also given the number of the thread that ended last, which
    selftest_sequential_last_cpu holds. *)
Record selftest := {
  st_test : test;
  st_init : option prog;
  st_run : Z -> Z -> prog;
  st_cleanup : option prog;
}.

(** The groups, by their place: positive, selftest_passes, fail_test_the_test, negative, random. *)
Definition group_positive : nat := 0.
Definition group_selftest_passes : nat := 1.
Definition group_fail_test_the_test : nat := 2.
Definition group_negative : nat := 3.
Definition group_random : nat := 4.


Definition entry (id : str) (groups : list nat) (duration quality : Z) : test :=
  {| id := id; groups := groups; flags := 0; desired_duration := duration; fracture_loop_count := 0;
     minimum_duration := 0; maximum_duration := 0; quality_level := quality; minimum_cpu := 0; compiler_minimum_cpu := 0 |}.
Definition simple (id : str) (groups : list nat) (init : option prog) (run : Z -> prog) (cleanup : option prog) : selftest :=
  {| st_test := entry id groups (-1) TEST_QUALITY_PROD; st_init := init; st_run := fun _ => run; st_cleanup := cleanup |}.
Definition only_runs (id : str) (groups : list nat) (duration quality : Z) (run : Z -> prog) : selftest :=
  {| st_test := entry id groups duration quality; st_init := None; st_run := fun _ => run; st_cleanup := None |}.

Section Table.
Context (m : Machine) (knobs : Knobs) (dbl : CDouble).

Definition basic_selftests : list selftest :=
  [only_runs (L "selftest_pass") [group_positive; group_selftest_passes] (-1) TEST_QUALITY_PROD selftest_pass_run;
   only_runs (L "selftest_pass_optional") [group_positive; group_selftest_passes] (-1) TEST_QUALITY_OPTIONAL selftest_pass_run;
   only_runs (L "selftest_timedpass") [group_positive] 0 TEST_QUALITY_PROD selftest_timedpass_run].
Definition logging_selftests : list selftest :=
  [simple (L "selftest_logs") [group_positive] (Some selftest_logs_init) (selftest_logs_run m) None;
   simple (L "selftest_logdata") [group_positive] None (selftest_logdata_run m) None;
   simple (L "selftest_log_platform") [group_positive] (Some selftest_log_platform_init) selftest_pass_run None;
   simple (L "selftest_logs_options") [group_positive] (Some (selftest_logs_options_init knobs dbl (Some (L "selftest_logs_options")))) selftest_pass_run None;
   simple (L "selftest_logs_getcpu") [group_positive] None (selftest_logs_getcpu_run m) None].
Definition random_selftests : list selftest :=
  [simple (L "selftest_logs_random_init") [group_positive] (Some (selftest_logs_random_init m)) selftest_pass_run None;
   simple (L "selftest_logs_random") [group_positive] None (selftest_logs_random_run m) None;
   simple (L "selftest_cxxthrowcatch") [group_positive] None selftest_cxxthrowcatch_run None].
Definition passing_selftests : list selftest := basic_selftests ++ logging_selftests ++ random_selftests.

Definition skipping_selftests : list selftest :=
  [simple (L "selftest_skip") [group_positive] (Some (selftest_skip_init m)) selftest_skip_run None;
   simple (L "selftest_log_skip_init") [group_positive] (Some selftest_log_skip_init) selftest_skip_run None;
   simple (L "selftest_log_skip_run_all_threads") [group_positive] None selftest_log_skip_run_all_threads None;
   simple (L "selftest_log_skip_newline") [group_positive] (Some selftest_log_skip_newline_init) selftest_log_skip_newline_run None;
   simple (L "selftest_skip_cleanup") [group_negative] (Some (selftest_logs_random_init m)) selftest_pass_run (Some selftest_skip_cleanup);
   simple (L "selftest_oserror_cleanup") [group_negative] (Some (selftest_logs_random_init m)) selftest_pass_run (Some selftest_errno_cleanup);
   simple (L "selftest_skipmsg_success_cleanup") [group_negative] (Some (selftest_logs_random_init m)) selftest_pass_run (Some selftest_skipmsg_success_cleanup);
   simple (L "selftest_skipmsg_skip_cleanup") [group_negative] (Some (selftest_logs_random_init m)) selftest_pass_run (Some selftest_skipmsg_skip_cleanup)].

(** These depend on the machine or on the numbers drawn. *)
Definition log_skip_init_socket (package_id : Z) (name : str) : selftest :=
  simple name [group_positive] (Some (selftest_log_skip_socket_init m package_id)) (selftest_log_skip_socket_run m package_id) None.
Definition log_skip_run_even_threads : selftest :=
  simple (L "selftest_log_skip_run_even_threads") [group_positive] None selftest_log_skip_run_even_threads None.
Definition randomfail (den : Z) (name : str) : selftest := simple name [group_random] None (selftest_randomfail_run m den) None.
Definition failinit_socket1 : selftest :=
  simple (L "selftest_failinit_socket1") [] (Some (selftest_if_socket1_initcleanup m (selftest_failinit_init m))) selftest_pass_run None.
Definition fail_socket1 : selftest :=
  simple (L "selftest_fail_socket1") [] None (selftest_if_socket1_run m selftest_fail_run) None.

(** fracture_loop_count is -1: the test is not run in fractures. *)
Definition only_runs_unfractured (id : str) (groups : list nat) (duration : Z) (run : Z -> prog) : selftest :=
  {| st_test := {| id := id; groups := groups; flags := 0; desired_duration := duration; fracture_loop_count := -1; minimum_duration := 0;
       maximum_duration := 0; quality_level := TEST_QUALITY_PROD; minimum_cpu := 0; compiler_minimum_cpu := 0 |};
     st_init := None; st_run := fun _ => run; st_cleanup := None |}.
Definition timed_selftests : list selftest :=
  [only_runs (L "selftest_maybe_skip_750ms") [group_positive] 750 TEST_QUALITY_PROD selftest_timedpass_run;
   only_runs_unfractured (L "selftest_timedpass_busywait") [group_positive; group_fail_test_the_test] 200 selftest_timedpass_run;
   only_runs (L "selftest_timedpass_tooshort") [group_positive; group_fail_test_the_test] 200 TEST_QUALITY_PROD selftest_timedpass_run;
   only_runs (L "selftest_timedpass_toolong") [group_positive; group_fail_test_the_test] 0 TEST_QUALITY_PROD selftest_timedpass_run;
   only_runs (L "selftest_timedpass_whileloop") [group_positive; group_fail_test_the_test] 200 TEST_QUALITY_PROD selftest_timedpass_run;
   only_runs (L "selftest_timedpass_noloop") [group_positive; group_fail_test_the_test] 200 TEST_QUALITY_PROD selftest_timedpass_run;
   only_runs_unfractured (L "selftest_timedpass_no_fracture") [group_positive; group_fail_test_the_test] 200 selftest_timedpass_run].

Definition check_sequential : selftest :=
  {| st_test := {| id := L "selftest_check_sequential"; groups := []; flags := test_schedule_sequential; desired_duration := -1;
       fracture_loop_count := 0; minimum_duration := 0; maximum_duration := 0; quality_level := TEST_QUALITY_PROD;
       minimum_cpu := 0; compiler_minimum_cpu := 0 |};
     st_init := Some pass; st_run := selftest_check_sequential_run; st_cleanup := None |}.

Definition failing_selftests : list selftest :=
  [simple (L "selftest_logerror_init") [group_negative] (Some selftest_logerror_init) selftest_failinit_run None;
   simple (L "selftest_fail") [group_negative] (Some (selftest_randomprint_init m)) selftest_fail_run None;
   simple (L "selftest_failinit") [group_negative] (Some (selftest_failinit_init m)) selftest_failinit_run None;
   simple (L "selftest_fail_cleanup") [group_negative] (Some (selftest_logs_random_init m)) selftest_pass_run (Some selftest_fail_cleanup);
   simple (L "selftest_logerror") [group_negative] None selftest_logerror_run None;
   simple (L "selftest_errormsg_cleanup") [group_negative] (Some (selftest_logs_random_init m)) selftest_pass_run (Some selftest_errormsg_success_cleanup);
   simple (L "selftest_reportfail") [group_negative] (Some (selftest_randomprint_init m)) selftest_reportfail_run None;
   simple (L "selftest_reportfailmsg") [group_negative] (Some (selftest_randomprint_init m)) selftest_reportfailmsg_run None;
   simple (L "selftest_cxxthrow") [group_negative] None selftest_cxxthrow_run None].

(** The tests that crash, with the number of the signal. *)
Definition crash_run (id : str) (signal : Z) : selftest * Z :=
  (simple id [group_negative] None (selftest_crash_run m signal) None, signal).
Definition crashing_selftests : list (selftest * Z) :=
  [crash_run (L "selftest_abort") 6;
   (simple (L "selftest_abortinit") [group_negative] (Some (selftest_crash_initcleanup 6)) selftest_pass_run None, 6);
   crash_run (L "selftest_sigill") 4; crash_run (L "selftest_sigfpe") 8; crash_run (L "selftest_sigbus") 7;
   (simple (L "selftest_sigsegv_init") [group_negative] (Some (selftest_crash_initcleanup 11)) selftest_pass_run None, 11);
   crash_run (L "selftest_sigsegv") 11; crash_run (L "selftest_sigsegv_noncanonical") 11; crash_run (L "selftest_sigsegv_kernel") 11;
   (simple (L "selftest_sigsegv_cleanup") [group_negative] None selftest_pass_run (Some (selftest_crash_initcleanup 11)), 11);
   crash_run (L "selftest_sigsegv_instruction") 11; crash_run (L "selftest_sigtrap_int3") 5;
   (simple (L "selftest_malloc_fail") [group_negative] None selftest_malloc_fail None, 6)].
Definition sigkill : selftest := (crash_run (L "selftest_sigkill") SIGKILL).1.
Definition oserror : selftest := simple (L "selftest_oserror") [group_negative] None selftest_oserror_run None.
End Table.

(** * Running one *)

(** How the kernel reports the end of a process with the status a shell sees; [dumped] says
    whether the system writes core files. *)
Definition process_end (dumped : bool) (status : Z) : forkfd_info :=
  if status <? 128 then wait_status status
  else {| fi_code := if dumped && negb (status - 128 =? SIGKILL) then CLD_DUMPED else CLD_KILLED; fi_status := status - 128 |}.

(** The functions the threads run when they start in the order [order]. *)
Fixpoint progs_of (run : Z -> Z -> prog) (last : Z) (order : list Z) : list (Z * prog) :=
  match order with [] => [] | i :: order => (i, run last i) :: progs_of run i order end.

(** run_threads_in_parallel(): a thread writes to its own block only, so a run is an order of the
    threads. run_threads_sequentially(): a thread that is cancelled takes the rest with it. *)
Fixpoint run_threads (cfg : LogCfg) (verbosity now : Z) (sequential : bool) (l : list (Z * prog)) (s : Shm) : outcome Shm :=
  match l with
  | [] => Ret s
  | (i, p) :: l =>
      r ← thread_runner cfg verbosity false now i (exec cfg now i p) s;
      if sequential && negb r.2 then Ret r.1 else run_threads cfg verbosity now sequential l r.1
  end.

Section Run.
Context (app : AppCfg) (features_string strerror : Z -> str) (verbosity now : Z) (dumped : bool).
Let cfg := log_cfg app.

Definition is_sequential (t : selftest) : bool := Z.land (flags (st_test t)) test_schedule_mask =? test_schedule_sequential.
Definition child (t : selftest) (order : list Z) (s : Shm) : outcome (TestResult * Shm) :=
  child_run cfg now strerror (exec_main cfg now <$> st_init t)
    (run_threads cfg verbosity now (is_sequential t) (progs_of (st_run t) (-1) order)) (exec_main cfg now <$> st_cleanup t) false s.

(** The child runs the test and ends with a status; the parent reads the status and the shared
    memory, which a child that died has left as [remains]. *)
Definition child_end (t : selftest) (order : list Z) (remains s : Shm) : outcome (ChildExitStatus * Shm) :=
  match child t order s with
  | Ret (r, s) =>
      code ← test_result_to_exit_code r;
      status ← test_result_from_exit_code (wait_status code); Ret (status, s)
  | Exit code => status ← test_result_from_exit_code (process_end dumped code); Ret (status, remains)
  | Ub => Ub
  end.
Definition run_selftest (t : selftest) (order : list Z) (remains s : Shm) : outcome TestResult :=
  e ← child_end t order remains s;
  r ← run_one_test_once app features_string (st_test t)
        {| r_results := [e.1]; r_shm := e.2; r_start := now; r_end := now; r_later := now |};
  Ret r.1.
End Run.

(** * What to expect of one *)

Definition act_fails (a : act) : bool := match a with Log "E" _ => true | _ => false end.
Definition logs_error (p : prog) : bool := existsb act_fails (acts p).
Definition dies (p : prog) : option Z := match ends p with Dies status => Some status | _ => None end.
Definition returns (p : prog) : Z := match ends p with Return ret => ret | _ => EXIT_FAILURE end.

(** The state a thread is left in. *)
Definition thread_verdict (p : prog) : ThreadState :=
  if logs_error p then thread_failed
  else if returns p =? EXIT_SUCCESS then thread_succeeded
  else if returns p <? EXIT_SUCCESS then thread_skipped else thread_failed.

Definition death (dumped : bool) (status : Z) : TestResult :=
  if status <? 128 then OperatingSystemError
  else if status - 128 =? SIGKILL then OutOfMemory else if dumped then CoreDumped else Killed.

(** The result the parent finds for a test: what ends it first decides, a failure anywhere goes before a
    skip, and a test that no thread has run is skipped. *)
Definition expected_of_threads (l : list (Z * prog)) (cleanup : option prog) : TestResult :=
  let ret := default EXIT_SUCCESS (returns <$> cleanup) in
  if (0 <? ret) || default false (logs_error <$> cleanup) || existsb (fun p => bool_decide (thread_verdict p.2 = thread_failed)) l then Failed
  else if ret <? 0 then Skipped
  else if forallb (fun p => bool_decide (thread_verdict p.2 = thread_skipped)) l then Skipped else Passed.
Definition expected (dumped : bool) (t : selftest) (order : list Z) : TestResult :=
  let l := progs_of (st_run t) (-1) order in
  match st_init t ≫= dies with
  | Some status => death dumped status
  | None =>
      let ret := default EXIT_SUCCESS (returns <$> st_init t) in
      if (0 <? ret) || default false (logs_error <$> st_init t) then Failed
      else if ret <? 0 then Skipped
      else match head (omap (fun p => dies p.2) l) with
           | Some status => death dumped status
           | None => match st_cleanup t ≫= dies with Some status => death dumped status | None => expected_of_threads l (st_cleanup t) end
           end
  end.
