(* ===== verification/SelfTestProofs.v ===== *)
(** The results of the self tests: what the functions of a test leave in the blocks of the
    threads, the verdict of a test as a function of what its functions do, and the results of
    the tests of the table on every machine. *)

From S2P Require Import Prelude CStdlib Results ThreadData Logging CpuInfo Timing SlicePlan Knobs Opts Report Mismatch Runner SelfTest.

(** * The blocks of the threads *)

(** The state of a thread's block and whether it has recorded a failure. *)
Definition view (s : Shm) (thread : Z) : option (ThreadState * bool) :=
  match thread_data thread s with Ret c => Some (thread_state c, has_failed c) | _ => None end.

(** [s'] is [s] but for the view of one block. *)
Definition viewed (thread : Z) (v : ThreadState * bool) (s s' : Shm) : Prop :=
  forall t, view s' t = if decide (t = thread) then Some v else view s t.

Lemma viewed_at thread v s s' : viewed thread v s s' -> view s' thread = Some v.
Proof. intros H. by rewrite H, decide_True. Qed.

Lemma viewed_trans thread v v' s s1 s2 : viewed thread v s s1 -> viewed thread v' s1 s2 -> viewed thread v' s s2.
Proof. intros H1 H2 t. rewrite H2, H1. by case_decide. Qed.

Lemma viewed_refl thread v s : view s thread = Some v -> viewed thread v s s.
Proof. intros H t. case_decide; [by subst|done]. Qed.

Lemma view_data s thread v : view s thread = Some v ->
  exists c, thread_data thread s = Ret c /\ thread_state c = v.1 /\ has_failed c = v.2.
Proof. unfold view. destruct (thread_data thread s) as [c| |]; intros; simplify_eq. by exists c. Qed.

Lemma viewed_intro thread c s s' :
  thread_data thread s' = Ret c -> (forall t, t <> thread -> thread_data t s' = thread_data t s) ->
  viewed thread (thread_state c, has_failed c) s s'.
Proof. intros Hc Ho t. unfold view. case_decide; [subst; by rewrite Hc|by rewrite Ho]. Qed.

Lemma update_viewed thread f s c : thread_data thread s = Ret c ->
  exists s', update_thread thread f s = Ret s' /\ thread_data thread s' = Ret (f c) /\
    viewed thread (thread_state (f c), has_failed (f c)) s s'.
Proof.
  intros Hc. destruct (update_thread_ret thread f s c Hc) as [s' Hs]. exists s'. split; [done|].
  assert (thread_data thread s' = Ret (f c)) as Hf by by rewrite (thread_data_update _ _ _ _ _ Hs), decide_True, Hc.
  split; [done|]. apply viewed_intro; [done|]. intros t Ht. by rewrite (thread_data_update _ t _ _ _ Hs), decide_False.
Qed.

Section Facts.
Context (cfg : LogCfg) (now : Z).
Context (Hfmt : current_output_format cfg <> no_output) (Hnow : now < time_max).

Lemma for_thread_viewed thread t level msg s v : view s thread = Some v ->
  exists s', log_message_for_thread thread t level msg s = Ret s' /\ viewed thread v s s'.
Proof using Type.
  intros (c & Hc & Hst & Hf)%view_data. unfold log_message_for_thread.
  destruct (update_viewed thread (append_log (encode_message t level msg)) s c Hc) as (s' & Hs & _ & Hv).
  exists s'. split; [done|]. by destruct v; simplify_eq/=.
Qed.

Lemma mark_viewed thread s v : view s thread = Some v ->
  exists s', logging_mark_thread_failed now thread s = Ret s' /\ viewed thread (v.1, true) s s'.
Proof using Hnow.
  intros (c & Hc & Hst & Hf)%view_data. destruct (mark_failed_data now thread s c Hc) as (s' & Hs & Hd & Ho).
  exists s'. split; [done|]. pose proof (viewed_intro _ _ _ _ Hd Ho) as Hv. rewrite <- Hst.
  destruct (has_failed c) eqn:E; [by rewrite E in Hv|].
  assert (has_failed (set_fail_time now c) = true) as Hx by (by apply Z.ltb_lt). by rewrite Hx in Hv.
Qed.

Lemma strip_ret (c : ascii) msg : exists msg', strip_newline (c :: msg) = Ret msg'.
Proof using Type. unfold strip_newline. rewrite last_cons. destruct (last msg); simpl; eauto. Qed.

Lemma level_viewed thread level c msg s v : view s thread = Some v ->
  exists s', log_message_preformatted_level cfg thread level (c :: msg) s = Ret s' /\ viewed thread v s s'.
Proof using Hfmt.
  intros Hv. pose proof (view_data _ _ _ Hv) as (d & Hd & _). unfold log_message_preformatted_level.
  destruct (strip_ret c msg) as [msg' Hm].
  destruct (current_output_format cfg); [done|..]; rewrite Hd; cbn [mbind outcome_bind]; rewrite Hm;
    (case_match; [exists s; eauto using viewed_refl|by apply for_thread_viewed]).
Qed.

Lemma preformatted_viewed thread c msg s v : view s thread = Some v ->
  exists s', log_message_preformatted cfg now thread (c :: msg) s = Ret s' /\ viewed thread (v.1, v.2 || char_eqb c "E") s s'.
Proof using Hfmt Hnow.
  intros Hv. unfold log_message_preformatted. simpl. destruct (char_eqb c "E").
  - destruct (mark_viewed thread s v Hv) as (s1 & Hs1 & Hv1). rewrite Hs1. cbn [mbind outcome_bind].
    destruct (level_viewed thread (status_level c) c msg s1 _ (viewed_at _ _ _ _ Hv1)) as (s2 & Hs2 & Hv2).
    exists s2. split; [done|]. rewrite orb_true_r. by eapply viewed_trans.
  - rewrite orb_false_r. rewrite <- surjective_pairing. by apply level_viewed.
Qed.

(** The letters of the messages. *)
Definition letter_ok (c : ascii) : Prop := c ∈ ["d"; "I"; "W"; "E"]%char.

Lemma message_viewed thread letter text s v : letter_ok letter -> view s thread = Some v ->
  exists s', log_message cfg now thread (letter :: L "> " ++ text) s = Ret s' /\
    viewed thread (v.1, v.2 || char_eqb letter "E") s s'.
Proof using Hfmt Hnow.
  intros Hl Hv. unfold log_message.
  assert (assert_log_message (letter :: L "> " ++ text) = true) as Ha by (by repeat (apply elem_of_cons in Hl as [->|Hl]; [done|]); apply elem_of_nil in Hl).
  assert (filter_char letter = letter) as Hc by (by repeat (apply elem_of_cons in Hl as [->|Hl]; [done|]); apply elem_of_nil in Hl).
  rewrite Ha. unfold create_filtered_message_string. cbn [map]. rewrite Hc.
  assert (exists s', (if negb (Debug cfg) && bool_decide (head (letter :: L "> " ++ text) = Some "d"%char) then Ret s
    else log_message_preformatted cfg now thread (letter :: map filter_char (L "> " ++ text)) s) = Ret s' /\
      viewed thread (v.1, v.2 || char_eqb letter "E") s s') as Hx.
  { case_match eqn:E; [|by apply preformatted_viewed].
    apply andb_prop in E as [_ E%bool_decide_eq_true]. simpl in E. simplify_eq. exists s. split; [done|].
    rewrite orb_false_r, <- surjective_pairing. by apply viewed_refl. }
  destruct (current_output_format cfg); [done|..]; exact Hx.
Qed.

(** The calls a function may make: messages with a known letter, and messages about the platform in the main
    thread only. *)
Definition act_ok (thread : Z) (a : act) : Prop :=
  match a with Log letter _ => letter_ok letter | LogPlatform _ => thread = -1 | _ => True end.

Lemma data_viewed thread message data s v : view s thread = Some v ->
  exists s', log_data cfg thread message data s = Ret s' /\ viewed thread v s s'.
Proof using Hfmt.
  intros Hv. pose proof (view_data _ _ _ Hv) as (c & Hc & Hst & Hf). unfold log_data, log_data_common.
  assert (exists e, escape_for_single_line message = Some e) as [e He] by (rewrite escape_doubles; eauto).
  rewrite He. destruct (update_viewed thread (add_data_bytes (len data)) s c Hc) as (s1 & Hs1 & _ & Hv1).
  assert (viewed thread v s s1) as Hv1' by (by destruct v; simplify_eq/=).
  pose proof (viewed_at _ _ _ _ Hv1') as Hat.
  destruct (current_output_format cfg); [done|..]; rewrite Hc; cbn [mbind outcome_bind];
    (case_match; [exists s; eauto using viewed_refl|]); rewrite Hs1; cbn [mbind outcome_bind of_option];
    (case_match; [exists s1; eauto|]);
    (match goal with |- context [log_message_for_thread _ ?t ?level ?msg _] =>
       destruct (for_thread_viewed thread t level msg s1 v Hat) as (s2 & Hs2 & Hv2) end);
    exists s2; (split; [exact Hs2|by eapply viewed_trans]).
Qed.

Lemma skip_viewed thread category text s v : view s thread = Some v ->
  exists s', log_message_skip cfg thread category text s = Ret s' /\ viewed thread v s s'.
Proof using Hfmt.
  intros Hv. unfold log_message_skip.
  destruct (strip_ret (char_of category) (create_filtered_message_string text)) as [msg Hm]. rewrite Hm. cbn [mbind outcome_bind].
  destruct (current_output_format cfg); [done|..]; by apply for_thread_viewed.
Qed.

Lemma act_viewed thread a s v : act_ok thread a -> view s thread = Some v ->
  exists s', do_act cfg now thread a s = Ret s' /\ viewed thread (v.1, v.2 || act_fails a) s s'.
Proof using Hfmt Hnow.
  intros Ha Hv. destruct a as [letter text|text|text|message data]; cbn [do_act act_fails]; simpl in Ha.
  - replace (match letter with "E"%char => true | _ => false end) with (char_eqb letter "E").
    { by apply message_viewed. }
    by repeat (apply elem_of_cons in Ha as [->|Ha]; [done|]); apply elem_of_nil in Ha.
  - rewrite orb_false_r, <- surjective_pairing. by apply skip_viewed.
  - subst thread. unfold log_platform_message. rewrite orb_false_r, <- surjective_pairing.
    destruct (preformatted_viewed (-1) "I" (L "> Platform issue: " ++ drop 3 (create_filtered_message_string (L "I> " ++ text))) s v Hv)
      as (s' & Hs & Hw). rewrite orb_false_r, <- surjective_pairing in Hw. exists s'. split; [|done].
    destruct (current_output_format cfg); [done|..]; by rewrite andb_false_r.
  - rewrite orb_false_r, <- surjective_pairing. by apply data_viewed.
Qed.

Lemma acts_viewed thread l : forall s v, Forall (act_ok thread) l -> view s thread = Some v ->
  exists s', do_acts cfg now thread l s = Ret s' /\ viewed thread (v.1, v.2 || existsb act_fails l) s s'.
Proof using Hfmt Hnow.
  unfold do_acts. induction l as [|a l IH]; intros s v Hl Hv; simpl.
  - rewrite orb_false_r, <- surjective_pairing. eauto using viewed_refl.
  - apply Forall_cons in Hl as [Ha Hl]. destruct (act_viewed thread a s v Ha Hv) as (s1 & Hs1 & Hv1). rewrite Hs1. simpl.
    destruct (IH s1 _ Hl (viewed_at _ _ _ _ Hv1)) as (s2 & Hs2 & Hv2). exists s2. split; [done|].
    rewrite orb_assoc. by eapply viewed_trans.
Qed.

(** ** A thread *)

(** The final state of a thread that has logged an error or not and returns [ret]. *)
Definition final_state (failed : bool) (ret : Z) : ThreadState :=
  if failed then thread_failed
  else if ret =? EXIT_SUCCESS then thread_succeeded else if ret <? EXIT_SUCCESS then thread_skipped else thread_failed.
Definition final_view (st : ThreadState) : ThreadState * bool := (st, bool_decide (st = thread_failed)).

Lemma cleanup_viewed thread ret s v : view s thread = Some v ->
  exists s', thread_cleanup false now thread ret s = Ret s' /\ viewed thread (final_view (final_state v.2 ret)) s s'.
Proof using Hnow.
  intros (c & Hc & Hst & Hf)%view_data. unfold thread_cleanup. rewrite Hc. cbn [mbind outcome_bind]. rewrite Hf.
  replace (if negb v.2 then _ else _) with (final_state v.2 ret) by by destruct v.2.
  destruct (update_viewed thread (set_thread_state (final_state v.2 ret)) s c Hc) as (s1 & Hs1 & _ & Hv1).
  rewrite Hs1. cbn [mbind outcome_bind]. unfold final_view.
  change (has_failed (set_thread_state _ c)) with (has_failed c) in Hv1. rewrite Hf in Hv1. cbn [thread_state set_thread_state] in Hv1.
  case_decide as Hd.
  - destruct (mark_viewed thread s1 _ (viewed_at _ _ _ _ Hv1)) as (s2 & Hs2 & Hv2). exists s2. split; [done|].
    rewrite bool_decide_true by done. by eapply viewed_trans.
  - exists s1. split; [done|]. rewrite bool_decide_false by done. destruct v.2 eqn:E; [by destruct Hd|done].
Qed.

Lemma report_fail_viewed thread file line message s v : view s thread = Some v ->
  exists s', report_fail cfg false now thread file line message s = Ret (s', Mismatch.Cancelled) /\ viewed thread (v.1, true) s s'.
Proof using Hfmt Hnow.
  intros Hv. unfold report_fail, report_fail_common.
  assert (NoLogging cfg = false) as -> by (unfold current_output_format in Hfmt; by destruct (NoLogging cfg)).
  destruct (message_viewed thread "E" (L "Failed at " ++ file ++ L ":" ++ to_string line ++
    match message with Some m => L ": " ++ m | None => [] end) s v) as (s1 & Hs1 & Hv1); [unfold letter_ok; set_solver|done|].
  setoid_rewrite Hs1. cbn [mbind outcome_bind].
  destruct (mark_viewed thread s1 _ (viewed_at _ _ _ _ Hv1)) as (s2 & Hs2 & Hv2). exists s2. rewrite Hs2. split; [done|].
  by eapply viewed_trans.
Qed.

Definition cancels (p : prog) : bool := match ends p with ReportFail _ _ => true | _ => false end.

Lemma exec_viewed thread p s v : Forall (act_ok thread) (acts p) -> dies p = None -> view s thread = Some v ->
  exists s' e, exec cfg now thread p s = Ret (s', e) /\
    viewed thread (v.1, v.2 || logs_error p || cancels p) s s' /\
    e = match ends p with Return ret => Returned ret | Throw what type => Threw what type | _ => Timing.Cancelled end.
Proof using Hfmt Hnow.
  intros Ha Hd Hv. unfold exec. destruct (acts_viewed thread (acts p) s v Ha Hv) as (s1 & Hs1 & Hv1). rewrite Hs1.
  cbn [mbind outcome_bind]. unfold cancels, dies in *. destruct (ends p); [| | |done].
  1-2: eexists _, _; split; [done|]; split; [by rewrite orb_false_r|done].
  destruct (report_fail_viewed thread (L "selftest.cpp") line message s1 _ (viewed_at _ _ _ _ Hv1)) as (s2 & Hs2 & Hv2).
  rewrite Hs2. eexists _, _. split; [done|]. split; [|done]. rewrite orb_true_r. by eapply viewed_trans.
Qed.

Lemma runner_viewed verbosity thread p s v : 0 <= thread -> Forall (act_ok thread) (acts p) -> dies p = None ->
  view s thread = Some (v, false) ->
  exists s', thread_runner cfg verbosity false now thread (exec cfg now thread p) s = Ret (s', negb (cancels p)) /\
    viewed thread (final_view (thread_verdict p)) s s'.
Proof using Hfmt Hnow.
  intros Ht Ha Hd Hv. destruct (view_data _ _ _ Hv) as (c & Hc & Hst & Hf). unfold thread_runner.
  destruct (update_viewed thread (set_thread_state thread_running) s c Hc) as (s0 & Hs0 & _ & Hv0).
  change (has_failed (set_thread_state _ c)) with (has_failed c) in Hv0. rewrite Hf in Hv0. cbn [snd thread_state set_thread_state] in Hv0.
  rewrite Hs0. cbn [mbind outcome_bind].
  destruct (exec_viewed thread p s0 _ Ha Hd (viewed_at _ _ _ _ Hv0)) as (s1 & e & Hs1 & Hv1 & He). rewrite Hs1. cbn [mbind outcome_bind].
  cbn [fst snd orb] in Hv1.
  (* the part after the function, for the value it returns and the failure recorded *)
  assert (forall s2 f ret (go : bool), viewed thread (thread_running, f) s s2 -> final_state f ret = thread_verdict p ->
    exists s', (s2 ← thread_cleanup false now thread ret s2;
      if go then s2 ← (if 3 <=? verbosity then
             count ← of_option (inner_loop_count <$> tests s2 !! Z.to_nat thread);
             log_message cfg now thread
               (L "I> inner loop count for thread " ++ to_string thread ++ L " = " ++ to_string count ++ [newline]) s2
           else Ret s2); Ret (s2, true) else Ret (s2, false)) = Ret (s', go) /\ viewed thread (final_view (thread_verdict p)) s s') as Hend.
  { intros s2 f ret go Hv2 Hfin. destruct (cleanup_viewed thread ret s2 _ (viewed_at _ _ _ _ Hv2)) as (s3 & Hs3 & Hv3).
    cbn [snd] in Hv3. rewrite Hfin in Hv3. pose proof (viewed_trans _ _ _ _ _ _ Hv2 Hv3) as Hv4. rewrite Hs3. cbn [mbind outcome_bind].
    destruct go; [|by exists s3]. destruct (3 <=? verbosity); [|by exists s3].
    pose proof (viewed_at _ _ _ _ Hv4) as Hat. destruct (view_data _ _ _ Hat) as (d & Hdd & _).
    unfold thread_data in Hdd. rewrite (proj2 (Z.ltb_ge _ _)) in Hdd by done.
    destruct (tests s3 !! Z.to_nat thread) as [t|]; [|done]. cbn [fmap option_fmap option_map of_option mbind outcome_bind].
    destruct (message_viewed thread "I" (L "inner loop count for thread " ++ to_string thread ++ L " = " ++ to_string (inner_loop_count t) ++ [newline]) s3 _
      ltac:(unfold letter_ok; set_solver) Hat) as (s5 & Hs5 & Hv5).
    setoid_rewrite Hs5. exists s5. split; [done|]. rewrite orb_false_r, <- surjective_pairing in Hv5. by eapply viewed_trans. }
  pose proof (viewed_trans _ _ _ _ _ _ Hv0 Hv1) as Hv2.
  unfold thread_verdict, returns, cancels, dies in *. destruct (ends p) as [ret|what type|line message|status]; subst e; [| | |done].
  - rewrite orb_false_r in Hv2. by apply (Hend s1 (logs_error p) ret true).
  - rewrite orb_false_r in Hv2.
    destruct (message_viewed thread "E" (L "Caught C++ exception: " ++ [dquote] ++ what ++ [dquote] ++ L " (type '" ++ type ++ L "')") s1 _
      ltac:(unfold letter_ok; set_solver) (viewed_at _ _ _ _ Hv2)) as (s3 & Hs3 & Hv3).
    setoid_rewrite Hs3. cbn [mbind outcome_bind]. apply (Hend s3 true EXIT_FAILURE true); [|by destruct (logs_error p)].
    rewrite orb_true_r in Hv3. by eapply viewed_trans.
  - rewrite orb_true_r in Hv2. apply (Hend s1 true EXIT_FAILURE false); [done|by destruct (logs_error p)].
Qed.

(** ** All threads *)

Definition prog_ok (thread : Z) (p : prog) : Prop := Forall (act_ok thread) (acts p).

(** The threads of [l] are done: they are in their final states, the other blocks are as they were. *)
Definition threads_done (l : list (Z * prog)) (s s' : Shm) : Prop :=
  (forall i p, (i, p) ∈ l -> view s' i = Some (final_view (thread_verdict p))) /\
  (forall i, i ∉ l.*1 -> view s' i = view s i).

Definition ready (s : Shm) (p : Z * prog) : Prop := 0 <= p.1 /\ prog_ok p.1 p.2 /\ view s p.1 = Some (thread_not_started, false).

Lemma ready_other thread v s s' l : viewed thread v s s' -> thread ∉ l.*1 -> Forall (ready s) l -> Forall (ready s') l.
Proof using Type.
  intros Hv Hn. rewrite !Forall_forall. intros H [i p] Hin. destruct (H _ Hin) as (? & ? & Hw). split; [done|]. split; [done|].
  simpl in *. rewrite Hv, decide_False; [done|]. intros ->. apply Hn. apply list_elem_of_fmap. by exists (thread, p).
Qed.

Lemma threads_run verbosity sequential l : forall s, NoDup l.*1 -> Forall (ready s) l ->
  omap (fun p => dies p.2) l = [] -> (sequential = true -> forallb (fun p => negb (cancels p.2)) l = true) ->
  exists s', run_threads cfg verbosity now sequential l s = Ret s' /\ threads_done l s s'.
Proof using Hfmt Hnow.
  induction l as [|[i p] l IH]; intros s Hnd Hr Hd Hc; cbn [run_threads].
  - exists s. split; [done|]. split; [intros i p Hin; by apply elem_of_nil in Hin|done].
  - apply NoDup_cons in Hnd as [Hi Hnd]. apply Forall_cons in Hr as [(Hp & Hok & Hv) Hr]. cbn [fst snd] in *.
    simpl in Hd. destruct (dies p) eqn:Edies; [done|].
    destruct (runner_viewed verbosity i p s _ Hp Hok Edies Hv) as (s1 & Hs1 & Hv1). rewrite Hs1. cbn [mbind outcome_bind fst snd].
    assert (sequential && negb (negb (cancels p)) = false) as ->.
    { destruct sequential; [|done]. specialize (Hc eq_refl). cbn [forallb] in Hc. apply andb_prop in Hc as [Hc _]. simpl in *. by rewrite Hc. }
    destruct (IH s1) as (s' & Hs' & Hdone & Hother); [done|by eapply ready_other|done| |].
    { intros Hseq. specialize (Hc Hseq). cbn [forallb] in Hc. by apply andb_prop in Hc as [_ Hc]. }
    exists s'. split; [done|]. split.
    + intros j q [Heq|Hin]%elem_of_cons; [|by apply Hdone]. simplify_eq. rewrite Hother by done. by eapply viewed_at.
    + intros j [Hj Hl]%not_elem_of_cons. rewrite Hother by done. rewrite Hv1. by rewrite decide_False.
Qed.

(** One thread that ends the process ends it for all; the first one decides. *)
Lemma threads_die verbosity l status : forall s, NoDup l.*1 -> Forall (ready s) l ->
  head (omap (fun p => dies p.2) l) = Some status ->
  run_threads cfg verbosity now false l s = Exit status.
Proof using Hfmt Hnow.
  induction l as [|[i p] l IH]; intros s Hnd Hr Hd; cbn [run_threads]; [done|].
  apply NoDup_cons in Hnd as [Hi Hnd]. apply Forall_cons in Hr as [(Hp & Hok & Hv) Hr]. cbn [fst snd] in *.
  simpl in Hd. destruct (dies p) as [st|] eqn:Edies.
  - simpl in Hd. simplify_eq. destruct (view_data _ _ _ Hv) as (c & Hc & _). unfold thread_runner.
    destruct (update_viewed i (set_thread_state thread_running) s c Hc) as (s0 & Hs0 & _ & Hv0).
    rewrite Hs0. cbn [mbind outcome_bind]. unfold exec.
    destruct (acts_viewed i (acts p) s0 _ Hok (viewed_at _ _ _ _ Hv0)) as (s1 & Hs1 & _). rewrite Hs1. cbn [mbind outcome_bind].
    unfold dies in Edies. destruct (ends p); try done. by simplify_eq.
  - destruct (runner_viewed verbosity i p s _ Hp Hok Edies Hv) as (s1 & Hs1 & Hv1). rewrite Hs1. cbn [mbind outcome_bind fst snd andb].
    apply IH; [done|by eapply ready_other|done].
Qed.

(** ** The main thread *)

Definition main_ok (p : prog) : Prop := prog_ok (-1) p /\ match ends p with Return _ | Dies _ => True | _ => False end.

Lemma main_viewed p s v : main_ok p -> view s (-1) = Some v ->
  match dies p with
  | Some status => exec_main cfg now p s = Exit status
  | None => exists s', exec_main cfg now p s = Ret (s', returns p) /\ viewed (-1) (v.1, v.2 || logs_error p) s s'
  end.
Proof using Hfmt Hnow.
  intros [Hok He] Hv. unfold exec_main. destruct (acts_viewed (-1) (acts p) s v Hok Hv) as (s' & Hs & Hw). rewrite Hs.
  cbn [mbind outcome_bind]. unfold dies, returns. destruct (ends p); try done. eauto.
Qed.

Lemma init_view s t : view (init_per_thread_data s) t = (fun _ => (thread_not_started, false)) <$> view s t.
Proof using Type.
  unfold view, thread_data, init_per_thread_data. simpl.
  destruct (t <? 0); rewrite list_lookup_fmap; [destruct (mains s !! _)|destruct (tests s !! _)]; done.
Qed.

(** ** The parent's view *)

Lemma scanned_threads s (d : Common * Z) :
  d ∈ main_threads 1 s ++ test_threads s <-> -1 <= d.2 /\ thread_data d.2 s = Ret d.1.
Proof using Type.
  clear - s d. destruct d as [c t]. rewrite elem_of_app, !list_elem_of_lookup. unfold main_threads, test_threads, thread_data. simpl. split.
  - intros [[k Hk]|[k Hk]]; rewrite list_lookup_imap in Hk.
    + destruct (mains s) as [|m ms]; [done|]. destruct k as [|k]; simplify_eq/=. split; [lia|done].
    + destruct (tests s !! k) eqn:E; simplify_eq/=. split; [lia|]. rewrite (proj2 (Z.ltb_ge _ _)) by lia. by rewrite Nat2Z.id, E.
  - intros [Ht Hd]. destruct (Z.ltb_spec t 0) as [Hneg|Hpos].
    + assert (t = -1) as -> by lia. left. exists O. rewrite list_lookup_imap. change (Z.to_nat (- -1 - 1)) with O in Hd.
      destruct (mains s); simplify_eq/=. done.
    + right. exists (Z.to_nat t). rewrite list_lookup_imap. destruct (tests s !! Z.to_nat t); simplify_eq/=. by rewrite Z2Nat.id.
Qed.

Lemma scan_failed s : sc_failed (scan_threads 1 s) = true <-> exists t st, -1 <= t /\ view s t = Some (st, true).
Proof using Type.
  rewrite (proj1 (scan_threads_spec 1 s)), Exists_exists. split.
  - intros ([c t] & [Ht Hd]%scanned_threads & Hf). exists t, (thread_state c). split; [done|]. unfold view. simpl in *. by rewrite Hd, Hf.
  - intros (t & st & Ht & (c & Hc & _ & Hf)%view_data). exists (c, t). by rewrite scanned_threads.
Qed.

Lemma scan_skipped s : sc_pc (scan_threads 1 s) = sc_sc (scan_threads 1 s) <->
  ~ exists t st, 0 <= t /\ view s t = Some (st, false) /\ st <> thread_skipped.
Proof using Type.
  rewrite (proj2 (scan_threads_spec 1 s)). apply not_iff_compat. rewrite Exists_exists. unfold ran_to_end. split.
  - intros ([c t] & [Ht Hd]%scanned_threads & [[Hf%negb_true_iff Hp%Z.leb_le]%andb_prop Hst%bool_decide_eq_true]%andb_prop).
    exists t, (thread_state c). unfold view. simpl in *. by rewrite Hd, Hf.
  - intros (t & st & Ht & (c & Hc & Hst & Hf)%view_data & Hn). exists (c, t). rewrite scanned_threads. simpl in *.
    split; [split; [lia|done]|]. rewrite Hf, Hst, bool_decide_true by done. by rewrite (proj2 (Z.leb_le _ _)).
Qed.
End Facts.

Lemma progs_of_order run order : forall last, (progs_of run last order).*1 = order.
Proof. induction order as [|i order IH]; intros last; simpl; [done|]. by rewrite IH. Qed.

(** All threads are done, and the main thread has logged an error or not. *)
Definition settled (l : list (Z * prog)) (failed : bool) (s : Shm) : Prop :=
  view s (-1) = Some (thread_not_started, failed) /\
  (forall i p, (i, p) ∈ l -> view s i = Some (final_view (thread_verdict p))) /\
  (forall i, 0 <= i -> i ∉ l.*1 -> view s i = None).

Definition some_failed (l : list (Z * prog)) : bool := existsb (fun p => bool_decide (thread_verdict p.2 = thread_failed)) l.
Definition all_skipped (l : list (Z * prog)) : bool := forallb (fun p => bool_decide (thread_verdict p.2 = thread_skipped)) l.

Lemma settled_failed l failed s : settled l failed s -> Forall (fun p => 0 <= p.1) l ->
  sc_failed (scan_threads 1 s) = failed || some_failed l.
Proof.
  intros (Hm & Hl & Ho) Hpos. apply eq_iff_eq_true. rewrite scan_failed, orb_true_iff. unfold some_failed. rewrite existsb_exists. split.
  - intros (t & st & Ht & Hv). destruct (decide (t = -1)) as [->|Hne]; [left; congruence|]. right.
    destruct (decide (t ∈ l.*1)) as [Hin|Hin]; [|rewrite Ho in Hv by (done || lia); done].
    apply list_elem_of_fmap in Hin as ([i p] & -> & Hin). exists (i, p). split; [by apply list_elem_of_In|].
    simpl in *. rewrite (Hl _ _ Hin) in Hv. unfold final_view in Hv. by simplify_eq.
  - intros [->|([i p] & Hin%list_elem_of_In & Hf)]; [by exists (-1), thread_not_started|].
    exists i, (thread_verdict p). rewrite (Hl _ _ Hin). unfold final_view. simpl in Hf. rewrite Hf. split; [|done].
    eapply Forall_forall in Hpos; [|done]. simpl in Hpos. lia.
Qed.

Lemma settled_skipped l failed s : settled l failed s -> Forall (fun p => 0 <= p.1) l -> some_failed l = false ->
  (sc_pc (scan_threads 1 s) =? sc_sc (scan_threads 1 s)) = all_skipped l.
Proof.
  intros (Hm & Hl & Ho) Hpos Hf. apply eq_iff_eq_true. rewrite Z.eqb_eq, scan_skipped. unfold all_skipped. rewrite forallb_forall. split.
  - intros Hn [i p] Hin. apply bool_decide_eq_true. destruct (decide (thread_verdict p = thread_skipped)) as [|Hne]; [done|].
    destruct Hn. exists i, (thread_verdict p). apply list_elem_of_In in Hin. rewrite (Hl _ _ Hin). unfold final_view. rewrite bool_decide_false.
    + split; [|done]. eapply Forall_forall in Hpos; [|done]. done.
    + intros Hx. apply not_true_iff_false in Hf. destruct Hf. unfold some_failed. apply existsb_exists. exists (i, p).
      split; [by apply list_elem_of_In|]. by apply bool_decide_eq_true.
  - intros Hall (t & st & Ht & Hv & Hne). destruct (decide (t ∈ l.*1)) as [Hin|Hin]; [|rewrite Ho in Hv; done].
    apply list_elem_of_fmap in Hin as ([i p] & -> & Hin). simpl in *. rewrite (Hl _ _ Hin) in Hv. unfold final_view in Hv. simplify_eq.
    apply Hne. apply list_elem_of_In, Hall in Hin. by apply bool_decide_eq_true in Hin.
Qed.

Section Verdict.
Context (app : AppCfg) (features_string strerror : Z -> str) (verbosity now : Z) (dumped : bool).
Context (Hfmt : current_output_format (log_cfg app) <> no_output) (Hnow : now < time_max).

(** The parent's result for a child that has ended with [r]. *)
Lemma parent_result r l failed s : r ∈ [Passed; Skipped; Failed] -> settled l failed s -> Forall (fun p => 0 <= p.1) l ->
  logging_print_results (log_cfg app) now [exit_status_of r] s =
  Ret (if bool_decide (r = Failed) || failed || some_failed l then Failed
       else if bool_decide (r = Skipped) then Skipped else if all_skipped l then Skipped else Passed, s).
Proof using Type.
  intros Hr Hs Hp. unfold logging_print_results, make_logger. cbn [find_most_serious_result max_element mbind outcome_bind result exit_status_of].
  change (len [exit_status_of r]) with 1.
  assert (failed || some_failed l = false -> (sc_pc (scan_threads 1 s) =? sc_sc (scan_threads 1 s)) = all_skipped l) as Hk.
  { intros [_ Hf]%orb_false_elim. by eapply settled_skipped. }
  rewrite (settled_failed l failed s) by done.
  repeat (apply elem_of_cons in Hr as [->|Hr]); [..|by apply elem_of_nil in Hr]; cbn [exit_status_of result mbind outcome_bind];
    try done; rewrite ?orb_false_l; destruct (failed || some_failed l); cbn; try done. by rewrite Hk.
Qed.

(** The statuses a function may end the process with: not those that tell of a result, and no signal that tells of
    a timeout. *)
Definition status_ok (status : Z) : Prop := 2 <= status < 255 /\ status <> 128 /\ status <> 128 + SIGQUIT.

(** The functions of a test make the calls that suit their thread. *)
Definition selftest_ok (t : selftest) (order : list Z) : Prop :=
  let l := progs_of (st_run t) (-1) order in
  (forall p, st_init t = Some p \/ st_cleanup t = Some p -> main_ok p /\ forall status, dies p = Some status -> status_ok status) /\
  Forall (fun p => prog_ok p.1 p.2 /\ forall status, dies p.2 = Some status -> status_ok status) l /\
  (is_sequential t = true -> forallb (fun p => negb (cancels p.2) && bool_decide (dies p.2 = None)) l = true).

(** The shared memory of a child with one main thread, whose threads are those of [order]. *)
Definition shm_ok (order : list Z) (s : Shm) : Prop :=
  view s (-1) <> None /\ NoDup order /\ Forall (fun i => 0 <= i) order /\ (forall i, 0 <= i -> view s i <> None <-> i ∈ order).

Lemma process_end_death status : status_ok status ->
  exists e, test_result_from_exit_code (process_end dumped status) = Ret e /\ result e = death dumped status.
Proof using Type.
  intros (H1 & H2 & H3). unfold process_end, death, SIGQUIT, SIGKILL in *. destruct (Z.ltb_spec status 128) as [Hs|Hs].
  - unfold wait_status, test_result_from_exit_code. cbn [fi_code fi_status].
    rewrite wrap_u_small by (unfold in_u; lia). rewrite wrap_s_small by (unfold in_s; lia).
    rewrite !(proj2 (Z.eqb_neq _ _)) by (unfold EXIT_SUCCESS, EXIT_FAILURE; lia). eauto.
  - unfold test_result_from_exit_code, SIGKILL, SIGQUIT. cbn [fi_code fi_status]. destruct (Z.eqb_spec (status - 128) 9) as [->|H9]; simpl.
    { rewrite andb_false_r. simpl. eauto. }
    rewrite (proj2 (Z.eqb_neq (status - 128) 3)) by lia. rewrite andb_true_r. destruct dumped; simpl; eauto.
Qed.

(** What the parent reports of a result of the child's end. *)
Definition reported (r : TestResult) : outcome TestResult :=
  match r with
  | OperatingSystemError | OutOfMemory | TimedOut => if ignore_os_errors app then Ret Skipped else Exit EXIT_INVALID
  | Interrupted => Ub
  | r => Ret r
  end.

Definition runs_here (t : test) : Prop :=
  minimum_cpu t = 0 /\ compiler_minimum_cpu t = 0 /\ (quality_level t <> TEST_QUALITY_BETA \/ requested_quality app <= quality_level t).

Lemma once_reported t e s r s' : runs_here t -> logging_print_results (log_cfg app) now [e] s = Ret (r, s') ->
  (x ← run_one_test_once app features_string t {| r_results := [e]; r_shm := s; r_start := now; r_end := now; r_later := now |}; Ret x.1) = reported r.
Proof using Type.
  intros (Hm & Hc & Hq) Hp. unfold run_one_test_once. rewrite Hm, Hc. change (Z.lor 0 0) with 0. rewrite Z.land_0_l. change (negb (0 =? 0)) with false. cbv iota zeta.
  assert ((quality_level t =? TEST_QUALITY_BETA) && (quality_level t <? requested_quality app) = false) as ->.
  { destruct Hq as [Hq|Hq]; [by rewrite (proj2 (Z.eqb_neq _ _))|by rewrite (proj2 (Z.ltb_ge _ _)), andb_false_r]. }
  cbn [mbind outcome_bind r_results r_shm r_end]. rewrite Hp. unfold reported.
  destruct r; try done; by destruct (ignore_os_errors app).
Qed.

(** The end of a child that was killed or left with an error does not depend on what it has logged. *)
Lemma death_reported t order remains s status : runs_here (st_test t) -> status_ok status ->
  child app strerror verbosity now t order s = Exit status ->
  run_selftest app features_string strerror verbosity now dumped t order remains s = reported (death dumped status).
Proof using Type.
  intros Hr Hst Hc. unfold run_selftest, child_end. rewrite Hc. destruct (process_end_death status Hst) as (e & He & Hd).
  rewrite He. cbn [mbind outcome_bind fst snd]. apply (once_reported _ _ _ _ remains Hr). unfold logging_print_results, make_logger.
  cbn [find_most_serious_result max_element mbind outcome_bind]. rewrite Hd. unfold death.
  destruct (status <? 128); [done|]. destruct (status - 128 =? SIGKILL); [done|]. by destruct dumped.
Qed.

Lemma end_reported t order remains s l r failed s' : runs_here (st_test t) -> r ∈ [Passed; Skipped; Failed] ->
  child app strerror verbosity now t order s = Ret (r, s') -> settled l failed s' -> Forall (fun p => 0 <= p.1) l ->
  run_selftest app features_string strerror verbosity now dumped t order remains s =
  Ret (if bool_decide (r = Failed) || failed || some_failed l then Failed
       else if bool_decide (r = Skipped) then Skipped else if all_skipped l then Skipped else Passed).
Proof using Type.
  intros Hr Hin Hc Hs Hp. unfold run_selftest, child_end. rewrite Hc.
  assert ((code ← test_result_to_exit_code r; status ← test_result_from_exit_code (wait_status code); Ret (status, s')) = Ret (exit_status_of r, s')) as ->
    by (by repeat (apply elem_of_cons in Hin as [->|Hin]; [done|]); apply elem_of_nil in Hin).
  cbn [mbind outcome_bind fst snd]. pose proof (parent_result r l failed s' Hin Hs Hp) as Hpr.
  rewrite (once_reported _ _ _ _ _ Hr Hpr). unfold reported. repeat case_match; done.
Qed.

(** ** The child, step by step *)

Context (t : selftest) (order : list Z) (remains s0 : Shm).
Context (Hhere : runs_here (st_test t)) (Hok : selftest_ok t order) (Hshm : shm_ok order s0).
Let l := progs_of (st_run t) (-1) order.
Let main (v : ThreadState * bool) (s : Shm) : Prop := viewed (-1) v (init_per_thread_data s0) s.

Lemma init_main : main (thread_not_started, false) (init_per_thread_data s0).
Proof using Hshm.
  apply viewed_refl. rewrite init_view. destruct Hshm as [Hm _]. by destruct (view s0 (-1)).
Qed.

(** test_init() *)
Definition run_init : outcome (Shm * Z) :=
  match exec_main (log_cfg app) now <$> st_init t with Some f => f (init_per_thread_data s0) | None => Ret (init_per_thread_data s0, 0) end.

Lemma init_step :
  match st_init t ≫= dies with
  | Some status => run_init = Exit status /\ status_ok status
  | None => exists s1, run_init = Ret (s1, default EXIT_SUCCESS (returns <$> st_init t)) /\
      main (thread_not_started, default false (logs_error <$> st_init t)) s1
  end.
Proof using Hfmt Hnow Hok Hshm.
  pose proof init_main as Hm. destruct Hok as (Hmain & _). unfold run_init.
  destruct (st_init t) as [p|] eqn:E; simpl; [|exists (init_per_thread_data s0); split; [done|exact Hm]].
  destruct (Hmain p) as [Hp Hst]; [by left|].
  pose proof (main_viewed _ _ Hfmt Hnow p _ _ Hp (viewed_at _ _ _ _ Hm)) as H.
  destruct (dies p) as [status|]; [eauto|]. destruct H as (s1 & Hs1 & Hv). rewrite Hs1. exists s1. split; [done|]. exact (viewed_trans _ _ _ _ _ _ Hm Hv).
Qed.

Lemma threads_ready s1 : main (thread_not_started, false) s1 -> Forall (ready s1) l.
Proof using Hok Hshm.
  intros Hm. destruct Hok as (_ & Hl & _). destruct Hshm as (_ & _ & Hpos & Hin). apply Forall_forall. intros [i p] Hip.
  eapply Forall_forall in Hl; [|exact Hip]. destruct Hl as [Hp _].
  assert (i ∈ order) as Hi.
  { rewrite <- (progs_of_order (st_run t) order (-1)). apply list_elem_of_fmap. by exists (i, p). }
  assert (0 <= i) as H0 by (by eapply Forall_forall in Hpos). split; [done|]. split; [done|]. simpl.
  rewrite Hm, decide_False by lia. rewrite init_view. apply Hin in Hi; [|done]. by destruct (view s0 i).
Qed.

Lemma threads_nonneg : Forall (fun p => 0 <= p.1) l.
Proof using Hshm.
  destruct Hshm as (_ & _ & Hpos & _). rewrite <- (progs_of_order (st_run t) order (-1)) in Hpos.
  apply Forall_forall. intros p Hp. apply (proj1 (Forall_forall _ _) Hpos). by apply list_elem_of_fmap_2.
Qed.

Lemma threads_nodup : NoDup l.*1.
Proof using Hshm. unfold l. rewrite progs_of_order. by destruct Hshm as (_ & Hnd & _). Qed.

(** The threads *)
Lemma threads_step s1 : main (thread_not_started, false) s1 ->
  match head (omap (fun p => dies p.2) l) with
  | Some status => run_threads (log_cfg app) verbosity now (is_sequential t) l s1 = Exit status /\ status_ok status
  | None => exists s2, run_threads (log_cfg app) verbosity now (is_sequential t) l s1 = Ret s2 /\ settled l false s2
  end.
Proof using All.
  intros Hm. pose proof (threads_ready s1 Hm) as Hr. destruct Hok as (_ & Hl & Hseq). fold l in Hl, Hseq.
  destruct (head (omap (fun p => dies p.2) l)) as [status|] eqn:Eh.
  - assert (exists p, p ∈ l /\ dies p.2 = Some status) as (p & Hp & Hd).
    { destruct (omap _ l) as [|st ?] eqn:Eo; simpl in Eh; [done|]. simplify_eq.
      assert (status ∈ omap (fun p => dies p.2) l) as Hin by (rewrite Eo; set_solver). by apply list_elem_of_omap in Hin. }
    assert (is_sequential t = false) as ->.
    { apply not_true_iff_false. intros Hx. specialize (Hseq Hx). rewrite forallb_forall in Hseq. apply list_elem_of_In, Hseq in Hp.
      rewrite Hd in Hp. by rewrite andb_false_r in Hp. }
    split; [apply threads_die; try done; apply threads_nodup|]. eapply Forall_forall in Hl; [|done]. destruct Hl as [_ Hl]. by apply Hl.
  - destruct (threads_run (log_cfg app) now Hfmt Hnow verbosity (is_sequential t) l s1) as (s2 & Hs2 & Hdone & Hother); [apply threads_nodup|done| | |].
    { by destruct (omap _ l). }
    { intros Hx. specialize (Hseq Hx). rewrite forallb_forall in *. intros p Hp. apply Hseq in Hp. by apply andb_prop in Hp as [? _]. }
    exists s2. split; [done|]. split; [|split; [done|]].
    + rewrite Hother; [by eapply viewed_at|]. intros Hin. apply list_elem_of_fmap in Hin as ([i p] & Hi & Hin). simpl in Hi. subst i.
      pose proof threads_nonneg as Hn. eapply Forall_forall in Hn; [|done]. simpl in Hn. lia.
    + intros i Hi Hn. rewrite Hother by done. rewrite Hm, decide_False by lia. rewrite init_view.
      destruct Hshm as (_ & _ & _ & Hin). unfold l in Hn. rewrite progs_of_order in Hn.
      destruct (view s0 i) eqn:E; [|done]. destruct Hn. apply Hin; [done|congruence].
Qed.

(** test_cleanup() *)
Lemma cleanup_step s2 : settled l false s2 ->
  match st_cleanup t with
  | None => True
  | Some p => match dies p with
      | Some status => exec_main (log_cfg app) now p s2 = Exit status /\ status_ok status
      | None => exists s3, exec_main (log_cfg app) now p s2 = Ret (s3, returns p) /\ settled l (logs_error p) s3
      end
  end.
Proof using All.
  intros (Hm & Hl & Ho). destruct Hok as (Hmain & _). destruct (st_cleanup t) as [p|]; [|done].
  destruct (Hmain p) as [Hp Hst]; [by right|].
  pose proof (main_viewed _ _ Hfmt Hnow p _ _ Hp Hm) as H. destruct (dies p) as [status|]; [eauto|].
  destruct H as (s3 & Hs3 & Hv). exists s3. split; [done|]. pose proof threads_nonneg as Hn. split; [by eapply viewed_at|]. split.
  - intros i q Hin. rewrite Hv, decide_False; [by apply Hl|]. eapply Forall_forall in Hn; [|done]. simpl in Hn. lia.
  - intros i Hi Hni. rewrite Hv, decide_False by lia. by apply Ho.
Qed.

Lemma settled_skip category text s failed : settled l failed s ->
  exists s', log_message_skip (log_cfg app) (-1) category text s = Ret s' /\ settled l failed s'.
Proof using Hfmt Hshm.
  intros (Hm & Hl & Ho). destruct (skip_viewed _ Hfmt (-1) category text s _ Hm) as (s' & Hs & Hv). exists s'. split; [done|].
  pose proof threads_nonneg as Hn. split; [by eapply viewed_at|]. split.
  - intros i q Hin. rewrite Hv, decide_False; [by apply Hl|]. eapply Forall_forall in Hn; [|done]. simpl in Hn. lia.
  - intros i Hi Hni. rewrite Hv, decide_False by lia. by apply Ho.
Qed.

Local Abbreviation run := (run_selftest app features_string strerror verbosity now dumped t order remains s0).
Local Abbreviation the_child := (child app strerror verbosity now t order s0).

(** A child that did not get to its threads. *)
Lemma not_started_reported r s1 (failed : bool) : main (thread_not_started, failed) s1 -> (r = Failed \/ r = Skipped /\ failed = false) ->
  the_child = Ret (r, s1) -> run = Ret r.
Proof using All.
  intros Hm Hr Hc. unfold run_selftest, child_end. rewrite Hc.
  assert ((code ← test_result_to_exit_code r; status ← test_result_from_exit_code (wait_status code); Ret (status, s1)) = Ret (exit_status_of r, s1)) as ->
    by (by destruct Hr as [-> | [-> _]]).
  cbn [mbind outcome_bind fst snd]. rewrite (once_reported _ _ _ r s1 Hhere); [by destruct Hr as [-> | [-> _]]|].
  unfold logging_print_results, make_logger. cbn [find_most_serious_result max_element mbind outcome_bind]. destruct Hr as [-> | [-> ->]]; [done|].
  cbn [exit_status_of result mbind outcome_bind testResult]. change (len [exit_status_of Skipped]) with 1.
  replace (sc_failed (scan_threads 1 s1)) with false; [done|]. symmetry. apply not_true_iff_false. rewrite scan_failed.
  intros (i & st & Hi & Hv). rewrite Hm in Hv. case_decide; [done|]. rewrite init_view in Hv. by destruct (view s0 i).
Qed.

(** After a good test_init(), the child goes on with its threads. *)
Definition after_init (s1 : Shm) : outcome (TestResult * Shm) :=
  s ← run_threads (log_cfg app) verbosity now (is_sequential t) l s1;
  match exec_main (log_cfg app) now <$> st_cleanup t with
  | None => Ret (Passed, s)
  | Some f =>
      r ← f s;
      let '(s, ret) := r in
      if ret =? EXIT_SKIP then
        s ← log_skip (log_cfg app) RuntimeSkipCategory (L "SKIP requested in cleanup") s; Ret (Skipped, s)
      else if ret <? EXIT_SUCCESS then
        s ← log_skip (log_cfg app) RuntimeSkipCategory (L "Unexpected OS error in cleanup: " ++ strerror (- ret)) s; Ret (Skipped, s)
      else if EXIT_SUCCESS <? ret then Ret (Failed, s)
      else Ret (Passed, s)
  end.

Lemma after_init_reported s1 : main (thread_not_started, false) s1 -> the_child = after_init s1 ->
  run = reported (match head (omap (fun p => dies p.2) l) with
                  | Some status => death dumped status
                  | None => match st_cleanup t ≫= dies with Some status => death dumped status | None => expected_of_threads l (st_cleanup t) end
                  end).
Proof using All.
  intros Hm Hc. pose proof (threads_step s1 Hm) as Ht. unfold after_init in Hc. destruct (head _) as [status|].
  { destruct Ht as [Ht Hst]. rewrite Ht in Hc. by apply death_reported. }
  destruct Ht as (s2 & Hs2 & Hset). rewrite Hs2 in Hc. cbn [mbind outcome_bind] in Hc.
  pose proof (cleanup_step s2 Hset) as Hcl. pose proof threads_nonneg as Hn.
  unfold expected_of_threads. fold (some_failed l) (all_skipped l). destruct (st_cleanup t) as [p|];
    cbn [fmap option_fmap option_map mbind option_bind default from_option Datatypes.id] in Hc |- *.
  2: { rewrite (end_reported t order remains s0 l Passed false s2) by (done || set_solver).
       unfold reported. simpl. by repeat case_match. }
  destruct (dies p) as [status|].
  { destruct Hcl as [Hs3 Hst]. rewrite Hs3 in Hc. by apply death_reported. }
  destruct Hcl as (s3 & Hs3 & Hset3). rewrite Hs3 in Hc. cbn [mbind outcome_bind] in Hc. unfold EXIT_SKIP, EXIT_SUCCESS, log_skip in Hc.
  assert (forall category text, exists s4, log_message_skip (log_cfg app) (-1) category text s3 = Ret s4 /\ settled l (logs_error p) s4) as Hskip
    by (intros; by apply settled_skip).
  assert (returns p < 0 -> exists s4, settled l (logs_error p) s4 /\ the_child = Ret (Skipped, s4)) as Hneg.
  { intros Hlt. destruct (Z.eqb_spec (returns p) (-255)).
    - destruct (Hskip RuntimeSkipCategory (L "SKIP requested in cleanup")) as (s4 & Hs4 & Hset4). rewrite Hs4 in Hc. by exists s4.
    - rewrite (proj2 (Z.ltb_lt _ _)) in Hc by done.
      destruct (Hskip RuntimeSkipCategory (L "Unexpected OS error in cleanup: " ++ strerror (- returns p))) as (s4 & Hs4 & Hset4).
      rewrite Hs4 in Hc. by exists s4. }
  destruct (Z.ltb_spec (returns p) 0) as [Hlt|Hge].
  - destruct (Hneg Hlt) as (s4 & Hset4 & Hc4). rewrite (end_reported t order remains s0 l Skipped (logs_error p) s4) by (done || set_solver).
    rewrite (proj2 (Z.ltb_ge 0 (returns p))) by lia. simpl. unfold reported. by repeat case_match.
  - rewrite (proj2 (Z.eqb_neq _ _)) in Hc by lia. destruct (Z.ltb_spec 0 (returns p)).
    + rewrite (end_reported t order remains s0 l Failed (logs_error p) s3) by (done || set_solver). done.
    + rewrite (end_reported t order remains s0 l Passed (logs_error p) s3) by (done || set_solver). simpl. unfold reported. by repeat case_match.
Qed.

Lemma run_expected : run = reported (expected dumped t order).
Proof using All.
  pose proof init_step as Hi. unfold expected. fold l.
  assert (the_child = (r ← run_init; let '(s, ret) := r in
    main ← thread_data (-1) s;
    if (0 <? ret) || has_failed main then
      s ← logging_mark_thread_failed now (-1) s;
      s ← (if 0 <? ret then log_error (log_cfg app) now (L "Init function failed with code " ++ to_string ret) s else Ret s);
      Ret (Failed, s)
    else if ret <? 0 then
      s ← (if negb (ret =? EXIT_SKIP)
           then log_skip (log_cfg app) RuntimeSkipCategory (L "Unexpected OS error: " ++ strerror (- ret)) s else Ret s);
      Ret (Skipped, s)
    else after_init s)) as Hc by reflexivity.
  destruct (st_init t ≫= dies) as [status|].
  { destruct Hi as [Hi Hst]. rewrite Hi in Hc. by apply death_reported. }
  destruct Hi as (s1 & Hs1 & Hm). rewrite Hs1 in Hc. cbn [mbind outcome_bind] in Hc.
  set (ret := default EXIT_SUCCESS (returns <$> st_init t)) in *. set (failed := default false (logs_error <$> st_init t)) in *.
  destruct (view_data _ _ _ (viewed_at _ _ _ _ Hm)) as (c & Hd & _ & Hf). rewrite Hd in Hc. cbn [mbind outcome_bind fst snd] in Hc, Hf. rewrite Hf in Hc.
  destruct ((0 <? ret) || failed) eqn:Efail.
  - destruct (mark_viewed now Hnow (-1) s1 _ (viewed_at _ _ _ _ Hm)) as (s2 & Hs2 & Hv2). rewrite Hs2 in Hc. cbn [mbind outcome_bind fst] in Hc, Hv2.
    pose proof (viewed_trans _ _ _ _ _ _ Hm Hv2) as Hm2. unfold log_error in Hc. destruct (0 <? ret).
    + destruct (message_viewed (log_cfg app) now Hfmt Hnow (-1) "E" (L "Init function failed with code " ++ to_string ret) s2 _ ltac:(unfold letter_ok; set_solver)
        (viewed_at _ _ _ _ Hv2)) as (s3 & Hs3 & Hv3).
      change (L "E> " ++ ?x) with ("E"%char :: L "> " ++ x) in Hc. rewrite Hs3 in Hc. cbn [mbind outcome_bind] in Hc.
      apply (not_started_reported Failed s3 true); [exact (viewed_trans _ _ _ _ _ _ Hm2 Hv3)|by left|done].
    + apply (not_started_reported Failed s2 true); [exact Hm2|by left|done].
  - apply orb_false_elim in Efail as [_ Ef]. rewrite Ef in Hm. destruct (ret <? 0).
    + destruct (negb (ret =? EXIT_SKIP)); [|by apply (not_started_reported Skipped s1 false); [|right|]].
      destruct (skip_viewed (log_cfg app) Hfmt (-1) RuntimeSkipCategory (L "Unexpected OS error: " ++ strerror (- ret)) s1 _ (viewed_at _ _ _ _ Hm)) as (s2 & Hs2 & Hv2).
      unfold log_skip in Hc. rewrite Hs2 in Hc. cbn [mbind outcome_bind] in Hc.
      apply (not_started_reported Skipped s2 false); [exact (viewed_trans _ _ _ _ _ _ Hm Hv2)|by right|done].
    + by apply (after_init_reported s1).
Qed.
End Verdict.

(** * The tests behave *)

Definition act_okb (in_main : bool) (a : act) : bool :=
  match a with Log letter _ => bool_decide (letter ∈ ["d"; "I"; "W"; "E"]%char) | LogPlatform _ => in_main | _ => true end.
Definition end_okb (in_main : bool) (e : fn_end) : bool :=
  match e with
  | Return _ => true
  | Dies status => (2 <=? status) && (status <? 255) && negb (status =? 128) && negb (status =? 128 + SIGQUIT)
  | _ => negb in_main
  end.
Definition prog_okb (in_main : bool) (p : prog) : bool := forallb (act_okb in_main) (acts p) && end_okb in_main (ends p).

Lemma act_okb_ok in_main thread a : (in_main = true -> thread = -1) -> act_okb in_main a = true -> act_ok thread a.
Proof. destruct a; simpl; try done. by intros _ H%bool_decide_eq_true. Qed.

Lemma prog_okb_ok in_main thread p : (in_main = true -> thread = -1) -> prog_okb in_main p = true ->
  prog_ok thread p /\ (forall status, dies p = Some status -> status_ok status) /\ (in_main = true -> main_ok p).
Proof.
  intros Hm [Ha He]%andb_prop.
  assert (prog_ok thread p) as Hok.
  { apply Forall_forall. intros a Hin. rewrite forallb_forall in Ha. apply (act_okb_ok in_main); [done|]. by apply Ha, list_elem_of_In. }
  split; [done|]. unfold dies, main_ok. split.
  - intros status Hs. destruct (ends p); simplify_eq. simpl in He. unfold status_ok.
    apply andb_prop in He as [[[H1%Z.leb_le H2%Z.ltb_lt]%andb_prop H3%negb_true_iff%Z.eqb_neq]%andb_prop H4%negb_true_iff%Z.eqb_neq]. lia.
  - intros ->. rewrite <- Hm at 1 by done. split; [done|]. by destruct (ends p).
Qed.

Lemma progs_of_elem run (i : Z) p order : forall last, (i, p) ∈ progs_of run last order -> exists last', p = run last' i /\ i ∈ order.
Proof.
  induction order as [|j order IH]; intros last Hin; [by apply elem_of_nil in Hin|].
  apply elem_of_cons in Hin as [Heq|Hin]; [simplify_eq; exists last; set_solver|].
  destruct (IH j Hin) as (last' & -> & ?). exists last'. set_solver.
Qed.

(** A test whose functions pass the checks. *)
Definition checked (t : selftest) : Prop :=
  default true (prog_okb true <$> st_init t) = true /\ default true (prog_okb true <$> st_cleanup t) = true /\
  (forall last i, prog_okb false (st_run t last i) = true) /\ is_sequential t = false.

Lemma checked_ok t order : checked t -> selftest_ok t order.
Proof.
  intros (Hi & Hc & Hr & Hs). split; [|split].
  - intros p Hp. assert (prog_okb true p = true) as Hok by (by destruct Hp as [Hp|Hp]; [rewrite Hp in Hi|rewrite Hp in Hc]).
    destruct (prog_okb_ok true (-1) p) as (_ & ? & Hm); [done..|]. auto.
  - apply Forall_forall. intros [i p] (last & -> & _)%progs_of_elem.
    destruct (prog_okb_ok false i (st_run t last i)) as (? & ? & _); [done..|]. done.
  - by rewrite Hs.
Qed.

Lemma shm_ok_intro order s : mains s <> [] -> order ≡ₚ seqZ 0 (len (tests s)) -> shm_ok order s.
Proof.
  intros Hm Hp. split; [|split; [|split]].
  - unfold view, thread_data. simpl. change (Z.to_nat (- -1 - 1)) with O. by destruct (mains s).
  - rewrite Hp. apply NoDup_seqZ.
  - rewrite Hp. apply Forall_forall. intros i Hi%elem_of_seqZ. lia.
  - intros i Hi. rewrite Hp, elem_of_seqZ. unfold view, thread_data, len. rewrite (proj2 (Z.ltb_ge _ _)) by done.
    destruct (tests s !! Z.to_nat i) eqn:E; simpl.
    + apply lookup_lt_Some in E. split; [lia|done].
    + apply lookup_ge_None in E. split; [done|lia].
Qed.

Section Uniform.
Context (run : Z -> Z -> prog) (order : list Z) (last : Z).
Let l := progs_of run last order.

Lemma no_deaths : (forall last i, dies (run last i) = None) -> omap (fun p => dies p.2) l = [].
Proof using Type.
  intros H. unfold l. generalize last. induction order as [|i o IH]; intros x; simpl; [done|]. by rewrite H, IH.
Qed.

Lemma same_death status : (forall last i, dies (run last i) = None \/ dies (run last i) = Some status) ->
  (exists i, i ∈ order /\ forall last, dies (run last i) = Some status) -> head (omap (fun p => dies p.2) l) = Some status.
Proof using Type.
  intros H (i & Hi & Hd). unfold l. generalize last. induction order as [|j o IH]; intros x; [by apply elem_of_nil in Hi|].
  simpl. apply elem_of_cons in Hi as [->|Hi]; [by rewrite Hd|]. destruct (H x j) as [Hj|Hj]; rewrite Hj; [by apply IH|done].
Qed.

Lemma threads_exist : order <> [] -> exists i p, (i, p) ∈ l.
Proof using Type. intros Ho. unfold l. destruct order as [|i o]; [done|]. simpl. exists i, (run last i). set_solver. Qed.

Lemma same_verdicts v : order <> [] -> (forall last i, thread_verdict (run last i) = v) ->
  some_failed l = bool_decide (v = thread_failed) /\ all_skipped l = bool_decide (v = thread_skipped).
Proof using Type.
  intros Ho Hv. destruct (threads_exist Ho) as (i & p & Hin).
  assert (forall j q, (j, q) ∈ l -> thread_verdict q = v) as Hl by (by intros j q (x & -> & _)%progs_of_elem).
  split; apply eq_iff_eq_true; unfold some_failed, all_skipped; rewrite bool_decide_eq_true.
  - rewrite existsb_exists. split.
    + intros ([j q] & Hq%list_elem_of_In & Hb%bool_decide_eq_true). by rewrite <- (Hl _ _ Hq).
    + intros ->. exists (i, p). split; [by apply list_elem_of_In|]. apply bool_decide_eq_true. by eapply Hl.
  - rewrite forallb_forall. split.
    + intros Hall. apply list_elem_of_In in Hin as Hx. apply Hall, bool_decide_eq_true in Hx. simpl in Hx. by rewrite <- (Hl _ _ Hin).
    + intros -> [j q] Hq%list_elem_of_In. apply bool_decide_eq_true. by eapply Hl.
Qed.
End Uniform.

(** The functions of threads that do not look at each other. *)
Lemma progs_of_map (f : Z -> prog) order : forall last, progs_of (fun _ => f) last order = map (fun i => (i, f i)) order.
Proof. induction order as [|i order IH]; intros last; simpl; [done|]. by rewrite IH. Qed.

(** The functions of threads that run one after the other. *)
Lemma progs_of_seqZ run n : forall a, progs_of run (a - 1) (seqZ a (Z.of_nat n)) = map (fun i => (i, run (i - 1) i)) (seqZ a (Z.of_nat n)).
Proof.
  induction n as [|n IH]; intros a; [done|]. rewrite seqZ_cons by lia. replace (Z.pred (Z.of_nat (S n))) with (Z.of_nat n) by lia.
  simpl. f_equal. specialize (IH (Z.succ a)). by replace (Z.succ a - 1) with a in IH by lia.
Qed.

Lemma existsb_same {A} (f g : A -> bool) l : (forall x, f x = g x) -> existsb f l = existsb g l.
Proof. intros H. induction l as [|x l IH]; simpl; [done|]. by rewrite H, IH. Qed.

Lemma expected_each dumped t order (f : Z -> prog) : st_init t = None -> st_cleanup t = None -> st_run t = (fun _ => f) ->
  (forall i, dies (f i) = None) ->
  expected dumped t order =
  if existsb (fun i => bool_decide (thread_verdict (f i) = thread_failed)) order then Failed
  else if forallb (fun i => bool_decide (thread_verdict (f i) = thread_skipped)) order then Skipped else Passed.
Proof.
  intros Hi Hc Hr Hd. unfold expected, expected_of_threads. rewrite Hi, Hc, Hr. rewrite no_deaths by done. simpl.
  rewrite progs_of_map. replace (existsb _ (map _ order)) with (existsb (fun i => bool_decide (thread_verdict (f i) = thread_failed)) order).
  - by replace (forallb _ (map _ order)) with (forallb (fun i => bool_decide (thread_verdict (f i) = thread_skipped)) order)
      by (by induction order as [|i o IH]; simpl; [|rewrite IH]).
  - by induction order as [|i o IH]; simpl; [|rewrite IH].
Qed.

(** What a test is expected to do whose threads all end the same way. *)
Lemma expected_same dumped t order v : order <> [] -> (forall last i, dies (st_run t last i) = None /\ thread_verdict (st_run t last i) = v) ->
  expected dumped t order =
  match st_init t ≫= dies with
  | Some status => death dumped status
  | None =>
      if (0 <? default EXIT_SUCCESS (returns <$> st_init t)) || default false (logs_error <$> st_init t) then Failed
      else if default EXIT_SUCCESS (returns <$> st_init t) <? 0 then Skipped
      else match st_cleanup t ≫= dies with
           | Some status => death dumped status
           | None =>
               let ret := default EXIT_SUCCESS (returns <$> st_cleanup t) in
               if (0 <? ret) || default false (logs_error <$> st_cleanup t) || bool_decide (v = thread_failed) then Failed
               else if ret <? 0 then Skipped else if bool_decide (v = thread_skipped) then Skipped else Passed
           end
  end.
Proof.
  intros Ho Hv. unfold expected, expected_of_threads. fold (some_failed (progs_of (st_run t) (-1) order)) (all_skipped (progs_of (st_run t) (-1) order)).
  rewrite no_deaths by apply Hv. destruct (same_verdicts (st_run t) order (-1) v Ho) as [-> ->]; [intros; apply Hv|]. done.
Qed.

Section Results.
Context (app : AppCfg) (features_string strerror : Z -> str) (verbosity now : Z) (dumped : bool).
Context (m : Machine) (knobs : Knobs) (dbl : CDouble) (order : list Z) (remains s : Shm).
Context (Hfmt : current_output_format (log_cfg app) <> no_output) (Hnow : now < time_max).
Context (Hmain : mains s <> []) (Hn : len (tests s) = thread_count m) (Hpos : 0 < thread_count m) (Horder : order ≡ₚ seqZ 0 (thread_count m)).

Local Abbreviation result_of t := (run_selftest app features_string strerror verbosity now dumped t order remains s).

Lemma checked_result t : checked t -> runs_here app (st_test t) -> result_of t = reported app (expected dumped t order).
Proof using All. intros Hc Hh. apply run_expected; try done; [by apply checked_ok|]. apply shm_ok_intro; [done|]. by rewrite Hn. Qed.

Lemma some_threads : order <> [].
Proof using Horder Hpos.
  intros ->. apply Permutation_nil in Horder. assert (0 ∈ seqZ 0 (thread_count m)) as H by (apply elem_of_seqZ; lia).
  rewrite Horder in H. by apply elem_of_nil in H.
Qed.

(** The checks of a test's functions, and that it is run here, by computation. *)
Ltac check_test := split; [reflexivity|split; [reflexivity|split; [intros; reflexivity|reflexivity]]].
Ltac here := split; [reflexivity|split; [reflexivity|by left]].
(** The threads of the test all end in the state [v]. *)
Ltac all_end v := rewrite checked_result by (check_test || here);
  rewrite (expected_same _ _ _ v) by (apply some_threads || (intros; split; reflexivity)); reflexivity.
(** test_init() decides. *)
Ltac init_decides := rewrite checked_result by (check_test || here); reflexivity.

Lemma logs_options_checked id : prog_okb true (selftest_logs_options_init knobs dbl id) = true /\ logs_error (selftest_logs_options_init knobs dbl id) = false.
Proof using Type.
  unfold selftest_logs_options_init. set (a := (get_testspecific_knob_value_string _ _ _ _).1). set (b := (get_testspecific_knob_value_string _ _ _ _).1).
  set (c := (get_testspecific_knob_value_uint _ _ _ _).1). set (d := (get_testspecific_knob_value_int _ _ _ _).1).
  set (e := (knob_value_double _ _ _ _ _).1). clearbody a b c d e. destruct b, (_ || _), (differs dbl e _); done.
Qed.

Lemma cxxthrowcatch_passes cpu : selftest_cxxthrowcatch_run cpu = pass.
Proof using Type. unfold selftest_cxxthrowcatch_run. by rewrite Z.eqb_refl. Qed.

Lemma passing_results : Forall (fun t => result_of t = Ret Passed) (passing_selftests m knobs dbl).
Proof using All.
  unfold passing_selftests, basic_selftests, logging_selftests, random_selftests. cbn [Datatypes.app].
  do 6 (apply Forall_cons_2; [all_end thread_succeeded|]). apply Forall_cons_2; [|do 3 (apply Forall_cons_2; [all_end thread_succeeded|])].
  - pose proof (logs_options_checked (Some (L "selftest_logs_options"))) as [Hok He].
    rewrite checked_result; [|split; [exact Hok|split; [reflexivity|split; [intros; reflexivity|reflexivity]]]|here].
    rewrite (expected_same _ _ _ thread_succeeded) by (apply some_threads || (intros; split; reflexivity)).
    cbn [simple st_init st_cleanup mbind option_bind fmap option_fmap option_map default from_option Datatypes.id]. by rewrite He.
  - repeat apply Forall_cons_2; [|apply Forall_nil_2]. rewrite checked_result;
      [|split; [reflexivity|split; [reflexivity|split; [intros; simpl; by rewrite cxxthrowcatch_passes|reflexivity]]]|here].
    rewrite (expected_same _ _ _ thread_succeeded); [reflexivity|by apply some_threads|].
    intros. simpl. by rewrite cxxthrowcatch_passes.
Qed.

Lemma timed_results : Forall (fun t => result_of t = Ret Passed) timed_selftests.
Proof using All. repeat apply Forall_cons_2; [all_end thread_succeeded..|apply Forall_nil_2]. Qed.

Lemma skipping_results : Forall (fun t => result_of t = Ret Skipped) (skipping_selftests m).
Proof using All.
  repeat apply Forall_cons_2; [init_decides|init_decides|all_end thread_skipped|init_decides|all_end thread_succeeded..|apply Forall_nil_2].
Qed.

Lemma failing_results : Forall (fun t => result_of t = Ret Failed) (failing_selftests m).
Proof using All.
  repeat apply Forall_cons_2;
    [init_decides|all_end thread_failed|init_decides|all_end thread_succeeded|all_end thread_failed|all_end thread_succeeded|all_end thread_failed..|apply Forall_nil_2].
Qed.

Lemma crash_run_result id signal : 0 < signal < 127 -> signal <> SIGQUIT ->
  result_of (crash_run m id signal).1 = reported app (death dumped (128 + signal)).
Proof using All.
  intros Hs Hq. rewrite checked_result; [| |here].
  - f_equal. unfold expected. cbn [crash_run fst simple st_init st_run mbind option_bind fmap option_fmap option_map default from_option]. simpl.
    rewrite (same_death _ order (-1) (128 + signal)); [done| |].
    + intros _ i. unfold selftest_crash_run. case_match; auto.
    + exists (if thread_count m =? 1 then 0 else 1). split; [|intros _; unfold selftest_crash_run; destruct (thread_count m =? 1); simpl; by rewrite ?orb_true_r].
      rewrite Horder. apply elem_of_seqZ. destruct (Z.eqb_spec (thread_count m) 1); lia.
  - split; [done|]. split; [done|]. split; [|done]. intros last i. simpl. unfold selftest_crash_run. case_match; [|done].
    unfold prog_okb, SIGQUIT in *. simpl. unfold SIGQUIT. rewrite (proj2 (Z.leb_le _ _)), (proj2 (Z.ltb_lt _ _)), !(proj2 (Z.eqb_neq _ _)) by lia. done.
Qed.

Lemma crashing_results : Forall (fun c => result_of c.1 = Ret (if dumped then CoreDumped else Killed)) (crashing_selftests m).
Proof using All.
  assert (forall t signal, t = (crash_run m (id (st_test t.1)) signal) -> 0 < signal < 9 \/ 9 < signal < 127 -> signal <> SIGQUIT ->
    result_of t.1 = Ret (if dumped then CoreDumped else Killed)) as Hrun.
  { intros t signal Ht Hs Hq. rewrite Ht, crash_run_result by (lia || done). unfold death, SIGKILL.
    rewrite (proj2 (Z.ltb_ge _ _)), (proj2 (Z.eqb_neq _ _)) by lia. by destruct dumped. }
  assert (forall t, checked t -> runs_here app (st_test t) -> expected dumped t order = (if dumped then CoreDumped else Killed) ->
    result_of t = Ret (if dumped then CoreDumped else Killed)) as Hother.
  { intros t Hc Hh He. rewrite checked_result by done. rewrite He. by destruct dumped. }
  repeat apply Forall_cons_2; try (by eapply Hrun; [reflexivity|lia|done]); [..|apply Forall_nil_2].
  - apply Hother; [check_test|here|reflexivity].
  - apply Hother; [check_test|here|reflexivity].
  - apply Hother; [check_test|here|]. rewrite (expected_same _ _ _ thread_succeeded); [reflexivity|by apply some_threads|done].
  - apply Hother; [check_test|here|]. unfold expected. simpl. rewrite (same_death _ order (-1) 134); [done|by right|].
    pose proof some_threads as Ho. destruct order as [|i o]; [done|]. exists i. split; [set_solver|done].
Qed.

Lemma process_results :
  result_of (sigkill m) = reported app OutOfMemory /\ result_of oserror = reported app OperatingSystemError.
Proof using All.
  split; [by apply (crash_run_result _ SIGKILL)|]. rewrite checked_result by (check_test || here). unfold expected. simpl.
  rewrite (same_death _ order (-1) EX_CONFIG); [done|by right|]. pose proof some_threads as Ho. destruct order as [|i o]; [done|]. exists i. split; [set_solver|done].
Qed.

(** The tests whose result depends on the machine, on the order of the threads or on the numbers they draw. *)
Lemma even_threads_result : result_of log_skip_run_even_threads = Ret (if thread_count m =? 1 then Skipped else Passed).
Proof using All.
  rewrite checked_result; [| |here].
  2: { split; [done|]. split; [done|]. split; [|done]. intros last i. simpl. unfold selftest_log_skip_run_even_threads. by case_match. }
  rewrite (expected_each _ _ _ selftest_log_skip_run_even_threads) by (done || (intros; unfold selftest_log_skip_run_even_threads; by case_match)).
  assert (forall i, thread_verdict (selftest_log_skip_run_even_threads i) = if i mod 2 =? 0 then thread_skipped else thread_succeeded) as Hv
    by (intros i; unfold selftest_log_skip_run_even_threads; by case_match).
  replace (existsb _ order) with false.
  2: { symmetry. apply not_true_iff_false. intros (i & _ & Hb%bool_decide_eq_true)%existsb_exists. rewrite Hv in Hb. by case_match. }
  replace (forallb _ order) with (thread_count m =? 1); [by case_match|]. apply eq_iff_eq_true. rewrite Z.eqb_eq, forallb_forall. split.
  - intros H1 i Hi%list_elem_of_In. rewrite Horder, elem_of_seqZ in Hi. assert (i = 0) as -> by lia. by rewrite Hv.
  - intros Hall. destruct (decide (thread_count m = 1)) as [|Hne]; [done|].
    assert (1 ∈ order) as Hin by (rewrite Horder; apply elem_of_seqZ; lia). by apply list_elem_of_In, Hall, bool_decide_eq_true in Hin.
Qed.

Lemma sequential_result : order = seqZ 0 (thread_count m) -> result_of check_sequential = Ret Passed.
Proof using All.
  intros Ho. pose proof (progs_of_seqZ selftest_check_sequential_run (Z.to_nat (thread_count m)) 0) as Hl. rewrite Z2Nat.id in Hl by lia. rewrite <- Ho in Hl.
  assert (forall i, selftest_check_sequential_run (i - 1) i = say [Log "d" (L "Last CPU was " ++ number (i - 1))] EXIT_SUCCESS) as Hr
    by (intros i; unfold selftest_check_sequential_run; by rewrite Z.eqb_refl).
  assert (forall i p, (i, p) ∈ progs_of selftest_check_sequential_run (-1) order -> p = say [Log "d" (L "Last CPU was " ++ number (i - 1))] EXIT_SUCCESS) as Hp.
  { intros i p Hin. change (-1) with (0 - 1) in Hin. rewrite Hl in Hin. apply list_elem_of_fmap in Hin as (j & Heq & _). simplify_eq. by rewrite Hr. }
  rewrite run_expected; try done.
  - unfold expected, expected_of_threads. change (st_run check_sequential) with selftest_check_sequential_run. change (-1) with (0 - 1). rewrite Hl. simpl.
    pose proof some_threads as Hne. clear - Hr Hne. destruct order as [|i o]; [done|]. cbn [map omap list_omap existsb forallb head]. rewrite !Hr. simpl.
    induction o as [|j o IH]; simpl; [done|]. rewrite !Hr. simpl. apply IH. done.
  - here.
  - split; [|split].
    + intros p [[= <-]|Hc]; [|done]. by destruct (prog_okb_ok true (-1) pass) as (_ & ? & Hm); auto.
    + apply Forall_forall. intros [i p] Hin. apply Hp in Hin as ->. by destruct (prog_okb_ok false i (say [Log "d" (L "Last CPU was " ++ number (i - 1))] EXIT_SUCCESS)) as (? & ? & _).
    + intros _. apply forallb_forall. intros [i p] Hin%list_elem_of_In. by apply Hp in Hin as ->.
  - apply shm_ok_intro; [done|]. by rewrite Hn.
Qed.

(** Threads that fail under a condition and pass otherwise. *)
Lemma failing_if_result t (f : Z -> prog) (c : Z -> bool) : checked t -> runs_here app (st_test t) -> st_init t = None -> st_cleanup t = None ->
  st_run t = (fun _ => f) -> (forall i, dies (f i) = None /\ thread_verdict (f i) = if c i then thread_failed else thread_succeeded) ->
  result_of t = Ret (if existsb c order then Failed else Passed).
Proof using All.
  intros Hc Hh Hi Hcl Hr Hf. rewrite checked_result by done. rewrite (expected_each _ _ _ f) by (done || apply Hf).
  rewrite (existsb_same _ c) by (intros i; rewrite (proj2 (Hf i)); by case_match).
  destruct (existsb c order); [done|]. replace (forallb _ order) with false; [done|]. symmetry. apply not_true_iff_false. rewrite forallb_forall.
  intros Hall. pose proof some_threads as Ho. destruct order as [|i o]; [done|]. specialize (Hall i (or_introl eq_refl)).
  apply bool_decide_eq_true in Hall. rewrite (proj2 (Hf i)) in Hall. by case_match.
Qed.

Lemma randomfail_result den name :
  result_of (randomfail m den name) = Ret (if existsb (fun cpu => u32 (numbers m cpu 0) mod u32 (den * thread_count m) =? 0) order then Failed else Passed).
Proof using All.
  apply (failing_if_result _ (selftest_randomfail_run m den)); try done; [|here|].
  - split; [done|]. split; [done|]. split; [|done]. intros last i. simpl. unfold selftest_randomfail_run. by case_match.
  - intros i. unfold selftest_randomfail_run. by case_match.
Qed.

Lemma fail_socket1_result : result_of (fail_socket1 m) = Ret (if existsb (fun cpu => package_of m cpu =? 1) order then Failed else Passed).
Proof using All.
  apply (failing_if_result _ (selftest_if_socket1_run m selftest_fail_run)); try done; [|here|].
  - split; [done|]. split; [done|]. split; [|done]. intros last i. simpl. unfold selftest_if_socket1_run. by case_match.
  - intros i. unfold selftest_if_socket1_run. by case_match.
Qed.

Lemma failinit_socket1_result : result_of (failinit_socket1 m) = Ret (if package_of m 0 =? 1 then Failed else Passed).
Proof using All.
  unfold failinit_socket1, selftest_if_socket1_initcleanup. destruct (package_of m 0 =? 1); [init_decides|all_end thread_succeeded].
Qed.

Lemma log_skip_socket_result package_id name : result_of (log_skip_init_socket m package_id name) = Ret (if on_socket m package_id then Skipped else Passed).
Proof using All.
  unfold log_skip_init_socket, selftest_log_skip_socket_init, selftest_log_skip_socket_run. destruct (on_socket m package_id); [init_decides|all_end thread_succeeded].
Qed.
End Results.


(** The log of an application with YAML output, and a machine of two processors. *)
Definition machine0 : Machine :=
  {| thread_count := 2; num_packages := 1; package_of := fun _ => 0; getcpu := fun i => i; numbers := fun _ _ => 1; random_bytes := fun _ => replicate 68 0 |}.

(** Doubles that are tenths, of which no text is one. *)
Definition whole_doubles : CDouble :=
  {| double := Z; strtod := fun text => (0, text); two_and_a_half := 25; differs := fun a b => negb (a =? b); print_17g := to_string |}.



